(* ===== verification/_CoqProject ===== *)
-Q . S2P
Prelude.v
Sanitize.v
Float64.v
Domain.v
Policy.v
Canonical.v
Validation.v
Tables.v
Leases.v
Lifecycle.v
Reads.v
Commit.v
HostState.v
Maintenance.v
Store.v
CommitSpec.v
System.v
Published.v
Claims.v
LifecycleSpec.v
MaintenanceSpec.v
HostSpec.v
Permits.v
Coordinator.v
CoordinatorSpec.v
RunSystem.v
Scheduler.v
SchedulerSpec.v
SchedulerLoop.v
Refresh.v
EventHub.v
Activity.v
Inflight.v
SessionPool.v
Upstream.v
Source.v
SourceSpec.v
RoomRepo.v
Rooms.v
RoomSystem.v
RoomSpec.v
Checkin.v
CheckinSpec.v
Listener.v
Demo.v
Witnesses.v
ServiceWitnesses.v
SourceWitnesses.v
RoomWitnesses.v
Jobs.v
Report.v
ReportSpec.v
DashboardSpec.v
ReportWitnesses.v
Provider.v
ProviderSpec.v
Export.v
ExportSpec.v
ExportWitnesses.v
RateLimit.v
Config.v
Wire.v
WireSpec.v
ConfigWitnesses.v
Teacher.v
TeacherRefresh.v
TeacherSpec.v
TeacherWitnesses.v
Spreadsheet.v
SpreadsheetSpec.v
Status.v
StatusSpec.v
StatusWitnesses.v
WebSocket.v
Http.v
HttpSpec.v
Api.v
Views.v
Live.v
Runtime.v
