(* ===== verification/Prelude.v ===== *)
(** * Verification of the QR Command Center

    The program (Go, [src/internal], started by [src/cmd/server]) keeps verified snapshots
    of a classroom site that it scrapes: course catalogs, course details, session details
    and student profiles.  A scheduler claims due targets from PostgreSQL under a fenced
    lease, asks a shared host limiter for a permit, and hands the target to a coordinator.
    The coordinator fetches the resource, decides whether the body may be published,
    and commits the run in one transaction that ends the lease, records the evidence,
    publishes a version with its outbox event and schedules the next run; it then
    reconciles the lifecycle of the children the resource lists.  Readers serve the
    current snapshot of each target.  Around this pipeline, a listener turns committed
    snapshots into events for an in-process hub, teachers check students in through an
    idempotent write to the upstream site, upstream requests share a pool of sessions
    and coalesce, an activity controller starts and stops the background workers, and a
    room manager keeps the QR codes and check-ins of the rooms in use current.  Teachers
    read attendance reports of a course and a dashboard of absences over several courses.

    ** Parts and files

    - [Prelude] (this file): the result monad of fallible code, int64 and time
      arithmetic, byte strings, stable sorting, shared tactics and lemmas.
    - [Sanitize]: redaction and truncation of error text ([sanitizeErrorMessage] in
      [db/snapshot_repository.go], [safeUpstreamError] in [scraper/coordinator.go]): the
      two regular expressions as matchers on bytes, UTF-8 decoding as Go does it.
    - [Float64]: IEEE binary64 arithmetic as exact rounding of rationals.
    - [Domain]: the types and functions of [domain/*.go]: references, snapshots,
      manifests, reports, candidates, the room state machine, roster enrichment.
    - [Policy]: [scraper/policy.go]. [Canonical]: [scraper/canonical.go].
      [Validation]: [scraper/validation.go].
    - [Tables]: the schema of [db/migrations] as finite maps of rows with their CHECK
      constraints; the state [DB] of everything below.
    - [Leases], [Lifecycle], [Reads], [Commit], [HostState], [Maintenance]: the methods
      of [SnapshotRepository] in [db/snapshot_repository.go], one definition per method
      under its Go name, a [DB] in and a [DB] or an error out; [HostState] also holds
      [scraper/host_controller.go].
    - [Coordinator]: [scraper/coordinator.go]: [classifyFetch], [confirmChange], the
      decision [assess], the commit [commit_input], and [RunClaimedWithRelease] over
      the [Store] interface, with what other workers do to the store between its calls.
    - [Scheduler], [SchedulerLoop], [Refresh]: [scraper/scheduler.go]: [NewScheduler];
      [executeClaimed] with its permit loop over the claim, permit and run definitions;
      heartbeat, refresh delay, daily maintenance and watchdog; [RunDue] with its batches
      of workers and a turn of [Run]; [RefreshNow] with its poll loop.
    - [EventHub], [Activity]: [service/event_hub.go] and [service/activity_controller.go]
      as transition systems of single channel, mutex and atomic operations.
    - [SessionPool]: [warwick/session_pool.go] and [warwick/auth.go]; [Inflight]:
      [warwick/inflight.go].
    - [Upstream]: which answers of the site count as data ([warwick/response_guard.go],
      [requestJSON]); [Source], [SourceSpec]: the fetches of [warwick/snapshot_source.go]
      with both session sources, the concurrent pages and the retry.
    - [Checkin], [CheckinSpec]: [TeacherService.Checkin] of [service/teacher.go] with the
      idempotency keys and the advisory lock of [db/snapshot_repository.go], one step per
      call that touches shared state.
    - [Listener]: [service/snapshot_notification_listener.go] over the outbox methods.
    - [RoomRepo]: the rooms table, [db/repository.go] and the QR client
      [warwick/client.go]; [Rooms]: the state of [service/room_manager.go], its critical
      sections, the QR worker and the attendance verification, and the synchronisation
      loop of [service/session_sync.go]; [RoomSystem]: the manager's calls cut at their
      lock sections and repository calls, and the transition system [sys_step] of calls
      and goroutines; [RoomSpec]: theorems about it.
    - [Jobs]: the bounded worker pool of [service/teacher.go] and
      [warwick/classroom_courses.go].  [Report]: the attendance report of
      [warwick/report_client.go] and the dashboard of [service/dashboard_aggregator.go];
      [ReportSpec], [DashboardSpec]: theorems about them.
    - [Provider]: the composed reads of [service/snapshot_provider.go]; [Export]: the fresh
      export of [service/attendance_export.go] and the freshness of reports;
      [ProviderSpec], [ExportSpec]: what they return, against the store.
    - [Teacher], [TeacherRefresh]: the rest of [service/teacher.go] and
      [service/teacher_refresh.go]; [TeacherSpec]: theorems about them.
    - [Spreadsheet]: the files and the handler of [api/attendance_export.go];
      [SpreadsheetSpec]: theorems about them.
    - [Status]: [ScraperStatus] and [HostState] of the repository and
      [api/scraper_handlers.go]; [StatusSpec]: theorems about them.
    - [RateLimit]: [middleware/ratelimit.go] with the limiters of
      [api/routes.go].
    - [Config], [Wire]: [app/config.go] and what [app/bootstrap.go] builds from it;
      [WireSpec]: an accepted configuration starts.  [Runtime]: the background workers,
      the connection pool, the schema check and the shutdown ([app/runtime.go], [db/db.go],
      [cmd/server/main.go]).
    - [WebSocket]: [api/websocket.go].
    - [Http], [HttpSpec]: the response writers and the middleware of [api/routes.go].
      [Api]: the handlers of [api/teacher_handlers.go], [api/handlers.go],
      [api/refresh_handlers.go] and the room handlers of [api/routes.go].
    - [Views]: saved dashboard views and favourites, from their tables to their
      handlers.
    - [Live]: the interactive client of the site ([warwick/classroom_*.go]) and
      the attendance label ([warwick/attendance_label.go]).
    - [Store], [CommitSpec], [System]: the invariant [wf] of the store, the relation
      [evolves] along which it changes, the proof that every method preserves both, and
      the transition system [db_step] of all methods.
    - [Published], [Claims], [LifecycleSpec], [MaintenanceSpec], [HostSpec], [Permits]:
      theorems about the repository.  [CoordinatorSpec], [RunSystem]: theorems about
      runs; [StoreLaws] is what the coordinator needs of a store, and
      [repository_laws] discharges it.  [SchedulerSpec]: the end of every lease.
    - [Demo], [Witnesses], [ServiceWitnesses], [SourceWitnesses],
      [RoomWitnesses], [ReportWitnesses], [ExportWitnesses], [TeacherWitnesses],
      [ConfigWitnesses], [StatusWitnesses]: concrete histories computed by the definitions, and the theorems
      instantiated on them.

    ** What the theorems show

    - Commits: at most one effect per lease generation under any interleaving, replays
      included; a changed commit is what readers see next, in the form its columns keep; failed runs keep the last
      known good content; one outbox event per version; versions and validation
      sequences never go back; the integrity audit is clean on every reachable store.
    - Leases: a takeover fences the earlier worker for good; claims are exact and fair
      in (priority, next run, id).
    - Runs: a run publishes exactly when it vetted new content: canonical, validated and,
      when suspicious, independently confirmed; schedules stay in their windows; the store
      accepts every submitted commit but one kind (a finding); a run that does not
      succeed changes no reading, against any store that meets its contract.
    - Scheduler: the work on a claimed target returns by the lease's deadline and ends
      the lease on every path but a refused commit and a malformed reference; a tick
      returns within its limit and accounts for every target it claimed; a refresh that
      reports success has made the target newer.
    - Check-in: at most one upstream write per idempotency key under any concurrency,
      retries and crashes; a settled key answers retries for good.
    - Events: the hub delivers in order and counts every loss; the listener announces
      each resource's versions once and in order (and three lemmas on where its catch-up
      falls short).
    - Activity: no activity is lost between a request and the idle transition, the
      workers come up within eight steps; except at shutdown, idling never overlaps a request.
    - Upstream sessions: the pool conserves its sessions and never blocks on a release;
      overlapping reads share one producer and nothing is cached.
    - Upstream fetches: what a successful fetch carries is valid for its target, complete
      and acceptable to the store; the profile listing is exactly the site's listing,
      whatever the order in which its pages arrive.
    - Rooms: a room state has at most one live worker, which the manager can stop; a stop of
      all rooms that returns without giving up has waited for every worker; each section
      changes a status by the transitions it asks for and no others; emitted changes carry
      consecutive revisions; the published check-in deltas lead to the current check-ins and
      say nothing of students who left the roster.  [RoomWitnesses]
      also holds the histories in which the manager falls short: a stopped room that
      runs again, a panic with the lock held, a room that cannot be restarted, a stop of
      all rooms that gives up, and a worker out of reach.
    - Reports: the worker pool runs every index once and returns; the report and the
      dashboard are those of declarative specifications, whatever the schedule of the
      fetches and the order in which maps are visited; the composed reads do not depend on
      the order of their jobs; a fresh export is the report of one state of the course, every
      part of it verified since.
    - Lifecycle: what one reconciliation does to each child; what a 304 does (a
      finding).
    - Host limiter: limits are never left, permits are granted within them, and no
      reachable store has more than four requests to a host in flight.
    - Maintenance: pruning terminates, keeps what it must and removes the rest;
      catching up from the outbox loses nothing.
    - Teacher service: the dashboard is that of the courses it read, each given up only after
      its attempts; a refresh of everything accounts for every target it knows.
    - Export and status: a CSV of the export reads back as its cells; the status counts
      exactly what a claim may take.
    - Configuration: what the parser accepts passes every check of the constructors, but for
      a host of white space and a rate that is not a number.
    - Rate limiter: no more requests than tokens, and a cleanup that comes late enough is
      observed only by new clients that a full table would have refused (a finding says when
      it comes too early).
    - HTTP: compression is transparent for handlers of the usual shape, and every handler has
      it; examples show the handlers for which it is not.  Credentials are allowed to the
      configured origin only.  Each handler answers with a status that fits its result.
    - WebSocket: the slots are not overrun and not lost; a client sees the versions of each
      snapshot in order, none twice, and nothing newer than what it saw is withheld.
    - Saved views: a keyed store with unique names; what is saved reads back.
    - Interactive client: at most two requests, the second only after the site refused the
      session; agreement with the snapshot source on well-formed answers, and two lemmas on
      where it takes less than the whole, or the answer of a failing server, for data.
    - Pure parts: validation and suspicion rules against declarative specifications;
      canonical form independent of record order and idempotent; adaptive schedule and
      back-off in exact arithmetic; identity keys, room transitions, roster identifiers.

    ** Conventions

    - A repository method is one transaction: it is atomic, and a failed one leaves the
      store as it was (gaps in serial sequences are not kept).  Interleaving is at the
      level of methods, and of the passes of [Prune], each a transaction of its own; rows locked by concurrent claims are the parameter [locked].
      Failures of the database connection are outside the model, except in the room
      repository, whose calls may fail with or without their effect.
    - [now] is the application clock and [dbnow] the database's NOW().  A time is a
      number of nanoseconds since Go's zero time, a duration an int64 number of them.  A
      commit passes its times through TIMESTAMPTZ columns, which keep microseconds; the
      times the other statements take stand for the values their columns get.
    - Go integers are Z with [wrap64] where they are incremented or multiplied; columns
      have their range as part of the row's check, and an overflow is a rejected write.
    - Hashes are hexadecimal strings; JSON documents are their text; a payload is read back
      from its JSONB column in the text [jsonb_text] gives; the manifest and report columns
      are the values they encode, the attributes of a target the text it was seeded with.  A nil and an empty slice are not
      distinguished.  created_at and updated_at columns are left out.
    - What is not under [src]: [GoLib] (encoding/json, SHA-256, RFC 3339), [Postgres]
      (collation, uuid syntax, NUMERIC conversion, integer-to-interval cast, the stored form
      of times and of JSON texts), [CoordLib]
      (two attribute documents, the text of two error types), [SourceLib] (decoding of
      the site's answers, media types, HTTP dates), [ConfigLib] (parsing of the environment's
      values), [ViewLib] (the filters as JSON and as a column), and arguments of single
      sections (the gzip writer, the workbook and HTML libraries, [strings.ToLower], the
      file system) are parameters; [GoLibLaws], [PostgresLaws], [SourceLaws], [ViewLaws] and
      [gzip_decodes] state the documented behaviour the theorems use, and [Demo],
      [SourceWitnesses], [ConfigWitnesses], [Views] and [HttpSpec] give instances that
      satisfy them.
    - A handler is its operations on the response writer, or a function from the decoded
      request and the answers of the services to its status, headers and envelope.
    - Conversions of floats out of the int64 range give the amd64 value; no theorem
      depends on it.  [sort.Slice] is a stable sort.
    - Fuel: only the loops of [Prune] need it, one more than the number of rows of the
      table they shrink; [Prune_spec] shows it is enough.  The permit loop of
      [executeClaimed] runs over the attempts the environment gives it;
      [executeClaimed_ends_lease] shows that the lease's deadline ends it, and
      [RunDue_accounts] that as many rounds as the limit are enough for a tick.
    - Goroutines: a component that shares memory is a transition system with one step per
      operation on it, and theorems are about every reachable state.  The workers of a
      tick and the polls of a refresh are followed one at a time from store to store,
      with any transactions of others in between.  The room manager is interleaved at its
      lock sections; an event that the code publishes with the lock held is published in
      a step of its own after it, which allows more interleavings and no fewer.

    ** Not modelled

    Logging and metrics have no effect on the rest and are left out, as are the declarations
    of the counters ([metrics/metrics.go]).  The table of routes, the request identifier, TLS,
    sockets and the HTTP server are calls on libraries; the JSON bytes of requests and
    answers are the libraries' encoding of the values that are modelled.  The rest of
    [app/bootstrap.go] and [cmd/server/main.go] hands constructed values to constructors.  Of
    the interactive client, the bodies of its requests, the regular expression that finds
    the user in a page and the redirect policy of that request stay out.  The commands under
    [src/scripts] are development tools. *)

From stdpp Require Import base list list_numbers numbers strings gmap sorting.
From Stdlib Require Import ZArith Lia.

Declare Scope go_scope.
Delimit Scope go_scope with go.

(** * Results: a Go function that returns [(T, error)] *)

(** [Ok] is a nil error with its value, [Err] a non-nil error (every function of
    the sources returns the zero value beside a non-nil error, except where a
    model says otherwise). *)
Inductive result (E A : Type) : Type :=
| Ok (a : A)
| Err (e : E).
Arguments Ok {E A} a.
Arguments Err {E A} e.

Definition result_bind {E A B} (r : result E A) (k : A → result E B) : result E B :=
  match r with Ok a => k a | Err e => Err e end.

Definition is_ok {E A} (r : result E A) : bool :=
  match r with Ok _ => true | Err _ => false end.

(** [if cond then return err]: the early-return guard of the sources. *)
Definition guard_err {E} (cond : bool) (e : E) : result E unit :=
  if cond then Err e else Ok tt.

Notation "'let*' x := r 'in' k" := (result_bind r (λ x, k))
  (at level 10, x pattern, r at level 100, k at level 200) : go_scope.
Notation "'fail_if' c 'with_err' e 'in' k" := (result_bind (guard_err c e) (λ _, k))
  (at level 10, c at level 100, e at level 100, k at level 200) : go_scope.

(** * Machine integers, durations and times *)

(** Go's [int], [int64] and [time.Duration] are 64-bit two's complement values,
    kept here as [Z] with the wrap-around written out where the code can reach it. *)
Definition min_int64 : Z := (- 2 ^ 63)%Z.
Definition max_int64 : Z := (2 ^ 63 - 1)%Z.
Definition wrap64 (z : Z) : Z := ((z + 2 ^ 63) mod 2 ^ 64 - 2 ^ 63)%Z.
Definition in_int64 (z : Z) : Prop := (min_int64 ≤ z ≤ max_int64)%Z.
Definition clamp64 (z : Z) : Z := (Z.max min_int64 (Z.min max_int64 z))%Z.

(** A [time.Time] is its number of nanoseconds after Go's zero time, so that
    [IsZero] is a comparison with 0.  [Sub] saturates as Go's does. *)
Definition time_IsZero (t : Z) : bool := (t =? 0)%Z.
Definition time_After (t u : Z) : bool := (u <? t)%Z.
Definition time_Before (t u : Z) : bool := (t <? u)%Z.
Definition time_Sub (t u : Z) : Z := clamp64 (t - u).
Definition time_Add (t d : Z) : Z := (t + d)%Z.

Definition Millisecond : Z := 1000000%Z.
Definition Second : Z := 1000000000%Z.
Definition Minute : Z := (60 * Second)%Z.
Definition Hour : Z := (60 * Minute)%Z.

(** * Strings: Go strings are byte strings *)

(** The UTF-8 encodings of the code points [unicode.IsSpace] accepts. *)
Definition white_space : list (list nat) :=
  [ [9]; [10]; [11]; [12]; [13]; [32]; [194; 133]; [194; 160]; [225; 154; 128];
    [226; 128; 128]; [226; 128; 129]; [226; 128; 130]; [226; 128; 131];
    [226; 128; 132]; [226; 128; 133]; [226; 128; 134]; [226; 128; 135];
    [226; 128; 136]; [226; 128; 137]; [226; 128; 138]; [226; 128; 168];
    [226; 128; 169]; [226; 128; 175]; [226; 129; 159]; [227; 128; 128] ].

Fixpoint bytes_of (s : string) : list nat :=
  match s with
  | EmptyString => []
  | String c s' => Ascii.nat_of_ascii c :: bytes_of s'
  end.

Fixpoint string_of_bytes (l : list nat) : string :=
  match l with
  | [] => EmptyString
  | b :: l' => String (Ascii.ascii_of_nat b) (string_of_bytes l')
  end.

Fixpoint strip_prefix (p l : list nat) : option (list nat) :=
  match p, l with
  | [], _ => Some l
  | x :: p', y :: l' => if (x =? y)%nat then strip_prefix p' l' else None
  | _ :: _, [] => None
  end.

Fixpoint strip_first (ps : list (list nat)) (l : list nat) : option (list nat) :=
  match ps with
  | [] => None
  | p :: ps' =>
      match strip_prefix p l with Some l' => Some l' | None => strip_first ps' l end
  end.

(** Each step removes at least one byte, so the length of the input is enough fuel. *)
Fixpoint trim_left (fuel : nat) (ps : list (list nat)) (l : list nat) : list nat :=
  match fuel with
  | O => l
  | S fuel' =>
      match strip_first ps l with Some l' => trim_left fuel' ps l' | None => l end
  end.

Definition TrimSpace (s : string) : string :=
  let l := bytes_of s in
  let l1 := trim_left (length l) white_space l in
  let l2 := rev (trim_left (length l1) (map (@rev nat) white_space) (rev l1)) in
  string_of_bytes l2.

Definition blank (s : string) : bool := bool_decide (TrimSpace s = "").
Definition nonempty (s : string) : bool := bool_decide (s ≠ "").

Fixpoint has_byte (c : Ascii.ascii) (s : string) : bool :=
  match s with
  | EmptyString => false
  | String c' s' => bool_decide (c = c') || has_byte c s'
  end.

(** Go's [<] on strings compares bytes. *)
Definition str_lt (a b : string) : bool := String.ltb a b.

(** * sort.SliceStable: a stable insertion sort *)

(** The element [x] comes before every element of [l] in the input: it moves past
    the elements strictly smaller than it only, so ties keep their order. *)
Fixpoint insert_stable {A} (less : A → A → bool) (x : A) (l : list A) : list A :=
  match l with
  | [] => [x]
  | y :: l' => if less y x then y :: insert_stable less x l' else x :: y :: l'
  end.

Definition sort_stable {A} (less : A → A → bool) (l : list A) : list A :=
  foldr (insert_stable less) [] l.

(** [order] is an order in which a range loop may visit a Go map. *)
Definition walks {A} (order : list string) (m : gmap string A) : bool :=
  bool_decide (NoDup order ∧ list_to_set order = dom m).

(** [copied[len(copied)-n:]] when the slice is longer than [n], the slice itself otherwise. *)
Definition last_n {A} (n : nat) (l : list A) : list A := drop (length l - n) l.

(** * Tactics *)

(** Case analysis on the innermost scrutinee of a hypothesis or of the goal. *)
Ltac break_match_in H :=
  match type of H with
  | context [match ?x with _ => _ end] =>
      lazymatch x with
      | context [match _ with _ => _ end] => fail
      | _ => let E := fresh "Hm" in destruct x eqn:E
      end
  end.

Ltac break_match_goal :=
  match goal with
  | |- context [match ?x with _ => _ end] =>
      lazymatch x with
      | context [match _ with _ => _ end] => fail
      | _ => let E := fresh "Hm" in destruct x eqn:E
      end
  end.

(** Run a [result] computation forward in a hypothesis [H : m = Ok a]. *)
Ltac inv_ok H :=
  repeat first
    [ progress (unfold result_bind, guard_err in H; cbn beta iota zeta in H)
    | break_match_in H; try discriminate H ];
  try (injection H as H; subst).

(** Booleans to propositions on [Z], [nat] and [bool_decide]. *)
Ltac bool_to_prop :=
  repeat match goal with
  | H : (_ && _)%bool = true |- _ => apply andb_true_iff in H as [? ?]
  | H : (_ || _)%bool = false |- _ => apply orb_false_iff in H as [? ?]
  | H : negb _ = true |- _ => apply negb_true_iff in H
  | H : negb _ = false |- _ => apply negb_false_iff in H
  | H : (_ <? _)%Z = true |- _ => apply Z.ltb_lt in H
  | H : (_ <? _)%Z = false |- _ => apply Z.ltb_ge in H
  | H : (_ <=? _)%Z = true |- _ => apply Z.leb_le in H
  | H : (_ <=? _)%Z = false |- _ => apply Z.leb_gt in H
  | H : (_ =? _)%Z = true |- _ => apply Z.eqb_eq in H
  | H : (_ =? _)%Z = false |- _ => apply Z.eqb_neq in H
  | H : bool_decide _ = true |- _ => apply bool_decide_eq_true_1 in H
  | H : bool_decide _ = false |- _ => apply bool_decide_eq_false_1 in H
  end.

Create HintDb godb.

(** * Generic lemmas *)

Lemma Ok_inj {E A} (a b : A) : @Ok E A a = Ok b → a = b.
Proof. congruence. Qed.

Lemma clamp64_bounds z : in_int64 (clamp64 z).
Proof. unfold in_int64, clamp64, min_int64, max_int64. lia. Qed.

Lemma clamp64_id z : in_int64 z → clamp64 z = z.
Proof. unfold in_int64, clamp64. lia. Qed.

Lemma wrap64_id z : in_int64 z → wrap64 z = z.
Proof.
  unfold in_int64, wrap64, min_int64, max_int64. intros H.
  rewrite Z.mod_small; lia.
Qed.

Lemma wrap64_bounds z : in_int64 (wrap64 z).
Proof.
  unfold in_int64, wrap64, min_int64, max_int64.
  pose proof (Z.mod_pos_bound (z + 2 ^ 63) (2 ^ 64) ltac:(lia)). lia.
Qed.

#[export] Hint Resolve clamp64_bounds wrap64_bounds : godb.

(** What [sort.SliceStable] asks of its comparison: a strict weak order.  [x] may
    stand before [y] unless [y < x]. *)
Definition not_after {A} (less : A → A → bool) (x y : A) : Prop := less y x = false.

Class StrictWeakOrder {A} (less : A → A → bool) : Prop := {
  swo_asym : ∀ x y, less x y = true → less y x = false;
  swo_trans : ∀ x y z, not_after less x y → not_after less y z → not_after less x z
}.

(** A key type whose comparison is a strict total order. *)
Class StrictTotal {K} (lt : K → K → bool) : Prop := {
  st_trans : ∀ x y z, lt x y = true → lt y z = true → lt x z = true;
  st_irrefl : ∀ x, lt x x = false;
  st_total : ∀ x y, lt x y = false → lt y x = false → x = y
}.

(** [if f(a) == f(b) { next } else { f(a) < f(b) }]: the shape of the comparisons. *)
Definition lex_by {A K} `{EqDecision K} (lt : K → K → bool) (f : A → K)
    (next : A → A → bool) (a b : A) : bool :=
  if bool_decide (f a = f b) then next a b else lt (f a) (f b).

Definition no_less {A} (_ _ : A) : bool := false.

#[export] Instance no_less_swo {A} : StrictWeakOrder (@no_less A).
Proof. by split. Qed.

#[export] Instance Z_ltb_total : StrictTotal Z.ltb.
Proof.
  split; intros; repeat match goal with
    | H : (_ <? _)%Z = true |- _ => apply Z.ltb_lt in H
    | H : (_ <? _)%Z = false |- _ => apply Z.ltb_ge in H
    | |- (_ <? _)%Z = true => apply Z.ltb_lt
    | |- (_ <? _)%Z = false => apply Z.ltb_ge end; lia.
Qed.

Lemma str_lt_leb a b : str_lt a b = negb (String.leb b a).
Proof.
  unfold str_lt, String.ltb, String.leb. rewrite (String.compare_antisym b a).
  by destruct (String.compare a b).
Qed.

#[export] Instance str_lt_total : StrictTotal str_lt.
Proof.
  split.
  - intros x y z. rewrite !str_lt_leb, !negb_true_iff. intros Hxy Hyz.
    destruct (String.leb z x) eqn:E; [|done]. exfalso.
    destruct (String.leb_total x y) as [Hl|Hl]; [|congruence].
    assert (String.le z y) as H by (unfold String.le; transitivity x; unfold String.le; by rewrite ?E, ?Hl).
    unfold String.le in H. by rewrite Hyz in H.
  - intros x. rewrite str_lt_leb. destruct (String.leb_total x x) as [H|H]; by rewrite H.
  - intros x y. rewrite !str_lt_leb, !negb_false_iff. intros H1 H2.
    apply (anti_symm String.le); unfold String.le; by rewrite ?H1, ?H2.
Qed.

Section lex.
Context {A K : Type} `{EqDecision K} (lt : K → K → bool) `{!StrictTotal lt}.
Context (f : A → K) (next : A → A → bool) `{!StrictWeakOrder next}.

#[export] Instance lex_by_swo : StrictWeakOrder (lex_by lt f next).
Proof using All.
  split; unfold not_after, lex_by.
  - intros x y. repeat case_bool_decide; try congruence.
    + apply swo_asym.
    + intros Hlt. destruct (lt (f y) (f x)) eqn:E; [|done].
      pose proof (st_trans _ _ _ Hlt E) as Hc. by rewrite st_irrefl in Hc.
  - intros x y z. repeat case_bool_decide; intros Hxy Hyz; try congruence.
    + by eapply swo_trans.
    + assert (f x = f y) by (apply st_total; congruence). congruence.
    + destruct (lt (f z) (f x)) eqn:E; [|done]. exfalso.
      destruct (lt (f x) (f y)) eqn:Exy.
      * pose proof (st_trans _ _ _ E Exy). congruence.
      * assert (f x = f y) by (by apply st_total). congruence.
Qed.

(** Two elements that tie under the lexicographic comparison agree on the key. *)
Lemma lex_by_tie x y :
  not_after (lex_by lt f next) x y → not_after (lex_by lt f next) y x →
  f x = f y ∧ not_after next x y ∧ not_after next y x.
Proof using All.
  unfold not_after, lex_by. repeat case_bool_decide; try congruence; [done|].
  intros Hyx Hxy. assert (f x = f y) by (by apply st_total). congruence.
Qed.
End lex.

Section sort.
Context {A : Type} (less : A → A → bool).

Lemma insert_stable_perm x l : insert_stable less x l ≡ₚ x :: l.
Proof.
  induction l as [|y l IH]; simpl; [done|].
  destruct (less y x); [|done]. rewrite IH. apply Permutation_swap.
Qed.

Lemma sort_stable_perm l : sort_stable less l ≡ₚ l.
Proof.
  induction l as [|x l IH]; simpl; [done|].
  rewrite insert_stable_perm. by rewrite IH.
Qed.

Lemma sort_stable_length l : length (sort_stable less l) = length l.
Proof. apply Permutation_length, sort_stable_perm. Qed.

Lemma insert_stable_head x l :
  Forall (not_after less x) l → insert_stable less x l = x :: l.
Proof.
  destruct l as [|y l]; [done|]. simpl. intros [H _]%Forall_cons.
  unfold not_after in H. by rewrite H.
Qed.

Lemma sort_stable_id l : StronglySorted (not_after less) l → sort_stable less l = l.
Proof.
  induction 1 as [|x l Hl IH Hall]; [done|]. simpl. rewrite IH.
  by apply insert_stable_head.
Qed.

Context `{!StrictWeakOrder less}.

Lemma insert_stable_sorted x l :
  StronglySorted (not_after less) l → StronglySorted (not_after less) (insert_stable less x l).
Proof using All.
  induction 1 as [|y l Hl IH Hall]; simpl; [repeat constructor|].
  destruct (less y x) eqn:E.
  - constructor; [done|]. rewrite insert_stable_perm. constructor; [|done].
    unfold not_after. by apply swo_asym.
  - constructor; [by constructor|]. constructor; [done|].
    eapply Forall_impl; [exact Hall|]. intros z Hz. by eapply swo_trans.
Qed.

Lemma sort_stable_sorted l : StronglySorted (not_after less) (sort_stable less l).
Proof using All.
  induction l as [|x l IH]; simpl; [constructor|]. by apply insert_stable_sorted.
Qed.

(** A list with no two distinct tied elements has exactly one sorted arrangement:
    the result does not depend on the input order, nor on the algorithm. *)
Lemma sorted_unique l1 l2 :
  (∀ x y, x ∈ l1 → y ∈ l1 → not_after less x y → not_after less y x → x = y) →
  StronglySorted (not_after less) l1 → StronglySorted (not_after less) l2 →
  l1 ≡ₚ l2 → l1 = l2.
Proof using Type.
  intros Hanti H1 H2 Hp.
  apply (StronglySorted_unique_strong (not_after less)); try done.
  intros x y Hx Hy. rewrite <- Hp in Hy. by apply Hanti.
Qed.

Lemma sort_stable_unique l1 l2 :
  (∀ x y, x ∈ l1 → y ∈ l1 → not_after less x y → not_after less y x → x = y) →
  l1 ≡ₚ l2 → sort_stable less l1 = sort_stable less l2.
Proof using All.
  intros Hanti Hp. apply sorted_unique; try apply sort_stable_sorted.
  - intros x y. rewrite !sort_stable_perm. apply Hanti.
  - by rewrite !sort_stable_perm.
Qed.

Lemma sort_stable_idemp l : sort_stable less (sort_stable less l) = sort_stable less l.
Proof using All. apply sort_stable_id, sort_stable_sorted. Qed.
End sort.

#[global] Arguments sort_stable : simpl never.
#[global] Arguments last_n : simpl never.

Lemma last_n_length {A} n (l : list A) : length (last_n n l) = Nat.min n (length l).
Proof. unfold last_n. rewrite length_drop. lia. Qed.

Lemma last_n_all {A} n (l : list A) : length l ≤ n → last_n n l = l.
Proof. intros H. unfold last_n. replace (length l - n) with 0 by lia. done. Qed.

(** ** LIMIT after ORDER BY: the first rows of a sorted query *)

Lemma take_sorted_least {A} (less : A → A → bool) `{!StrictWeakOrder less} n l x y :
  x ∈ take n (sort_stable less l) → y ∈ l → y ∉ take n (sort_stable less l) → not_after less x y.
Proof.
  intros Hx Hy Hny. pose proof (sort_stable_sorted less l) as Hs.
  rewrite <- (take_drop n (sort_stable less l)) in Hs.
  assert (Hd : y ∈ drop n (sort_stable less l)).
  { rewrite <- (sort_stable_perm less l), <- (take_drop n (sort_stable less l)) in Hy.
    apply elem_of_app in Hy as [?|?]; done. }
  clear Hy Hny. induction (take n (sort_stable less l)) as [|a k IH]; [by apply not_elem_of_nil in Hx|].
  apply StronglySorted_inv in Hs as [Hs Ha]. apply elem_of_cons in Hx as [->|Hx]; [|auto].
  rewrite Forall_forall in Ha. apply Ha, elem_of_app. by right.
Qed.

Lemma take_sorted_all {A} (less : A → A → bool) n l y :
  y ∈ l → y ∉ take n (sort_stable less l) → length (take n (sort_stable less l)) = n.
Proof.
  intros Hy Hny. rewrite length_take. destruct (decide (n ≤ length (sort_stable less l))) as [?|Hn]; [lia|].
  exfalso. rewrite take_ge in Hny by lia. apply Hny. by rewrite sort_stable_perm.
Qed.

(** ** Filters that keep everything or nothing *)

Lemma filter_all {A} (P : A → Prop) `{∀ x, Decision (P x)} l : Forall P l → filter P l = l.
Proof. induction 1 as [|x l Hx _ IH]; [done|]. by rewrite filter_cons_True, IH. Qed.

Lemma filter_none {A} (P : A → Prop) `{∀ x, Decision (P x)} l : Forall (λ x, ¬ P x) l → filter P l = [].
Proof. induction 1 as [|x l Hx _ IH]; [done|]. by rewrite filter_cons_False, IH. Qed.
