(* ===== verification/Sanitize.v ===== *)
(** Redaction and truncation of error messages ([sanitizeErrorMessage] of
    [internal/db/snapshot_repository.go]): the two regular expressions as matchers
    on bytes, Go's leftmost-first replacement, and the UTF-8 decoding that counts
    and cuts runes. *)

From stdpp Require Import base list numbers strings.
From Stdlib Require Import ZArith Lia.
From S2P Require Import Prelude.

Local Open Scope nat_scope.
Local Open Scope stdpp_scope.

(** * Character classes *)

Definition between (lo hi b : nat) : bool := (lo <=? b) && (b <=? hi).
Definition is_upper (b : nat) : bool := between 65 90 b.
Definition is_lower (b : nat) : bool := between 97 122 b.
Definition is_digit (b : nat) : bool := between 48 57 b.
Definition is_word (b : nat) : bool := is_upper b || is_lower b || is_digit b || (b =? 95).
(** [\s] *)
Definition is_space (b : nat) : bool := bool_decide (b ∈ [9; 10; 12; 13; 32]).
(** The complement of [[^,;\r\n]]. *)
Definition is_stop (b : nat) : bool := bool_decide (b ∈ [44; 59; 13; 10]).

(** A literal under [(?i)]: the letters k and s also fold the Kelvin sign and the
    long s. *)
Definition match_char (c : nat) (l : list nat) : option (list nat) :=
  match l with
  | [] => None
  | b :: l' =>
      if (if is_upper b then b + 32 else b) =? c then Some l'
      else if c =? 107 then strip_prefix [226; 132; 170] l
      else if c =? 115 then strip_prefix [197; 191] l
      else None
  end.

Fixpoint match_word (w l : list nat) : option (list nat) :=
  match w with
  | [] => Some l
  | c :: w' => match match_char c l with Some l' => match_word w' l' | None => None end
  end.

Fixpoint match_any (ws : list (list nat)) (l : list nat) : option (list nat) :=
  match ws with
  | [] => None
  | w :: ws' => match match_word w l with Some l' => Some l' | None => match_any ws' l end
  end.

Fixpoint drop_while (p : nat → bool) (l : list nat) : list nat :=
  match l with
  | [] => []
  | b :: l' => if p b then drop_while p l' else l
  end.

Definition consumed (l rest : list nat) : list nat := take (length l - length rest) l.

Definition boundary_before (prev : option nat) : bool :=
  match prev with Some b => negb (is_word b) | None => true end.
Definition boundary_after (l : list nat) : bool :=
  match l with b :: _ => negb (is_word b) | [] => true end.

(** * secretAssignment *)

Definition secret_keywords : list (list nat) :=
  map bytes_of ["asp.net_sessionid"; "cookie"; "authorization"; "password"; "credential"; "token"].

(** [\s*[^,;\r\n]+]: the white space gives back characters when nothing follows it. *)
Fixpoint secret_value (l : list nat) : option (list nat) :=
  match l with
  | [] => None
  | b :: l' =>
      let here := if is_stop b then None else Some (drop_while (λ c, negb (is_stop c)) l') in
      if is_space b then match secret_value l' with Some r => Some r | None => here end
      else here
  end.

(** A match that starts at the head of [l]: the replacement and what follows it. *)
Definition secretAssignment (prev : option nat) (l : list nat) : option (list nat * list nat) :=
  if boundary_before prev then
    match match_any secret_keywords l with
    | Some r =>
        if boundary_after r then
          match drop_while is_space r with
          | b :: r' =>
              if bool_decide (b ∈ [58; 61]) then
                match secret_value r' with
                | Some rest => Some (consumed l r ++ bytes_of "=<redacted>", rest)
                | None => None
                end
              else None
          | [] => None
          end
        else None
    | None => None
    end
  else None.

(** * bearerSecret *)

Definition token_char (l : list nat) : option (list nat) :=
  match l with
  | [] => None
  | b :: l' =>
      if is_upper b || is_lower b || is_digit b || bool_decide (b ∈ [46; 95; 126; 43; 47; 61; 45])
      then Some l'
      else match strip_prefix [226; 132; 170] l with
           | Some r => Some r
           | None => strip_prefix [197; 191] l
           end
  end.

Fixpoint token_chars (fuel : nat) (l : list nat) : list nat :=
  match fuel with
  | O => l
  | S fuel' => match token_char l with Some l' => token_chars fuel' l' | None => l end
  end.

Definition bearerSecret (prev : option nat) (l : list nat) : option (list nat * list nat) :=
  if boundary_before prev then
    match match_word (bytes_of "bearer") l with
    | Some (b :: r) =>
        if is_space b then
          let r' := drop_while is_space r in
          match token_char r' with
          | Some r'' => Some (bytes_of "Bearer <redacted>", token_chars (length r'') r'')
          | None => None
          end
        else None
    | _ => None
    end
  else None.

(** * ReplaceAllString *)

(** Every step consumes at least one byte: the length of the text is enough fuel. *)
Fixpoint replace_all (m : option nat → list nat → option (list nat * list nat))
    (fuel : nat) (prev : option nat) (l : list nat) : list nat :=
  match fuel with
  | O => l
  | S fuel' =>
      match l with
      | [] => []
      | b :: l' =>
          match m prev l with
          | Some (out, rest) => out ++ replace_all m fuel' (last (consumed l rest)) rest
          | None => b :: replace_all m fuel' (Some b) l'
          end
      end
  end.

Definition ReplaceAllString (m : option nat → list nat → option (list nat * list nat))
    (l : list nat) : list nat := replace_all m (length l) None l.

(** * Runes *)

Definition cont (b : nat) : bool := between 128 191 b.

(** The width of the valid UTF-8 sequence at the head, if there is one. *)
Definition rune_width (l : list nat) : option nat :=
  match l with
  | [] => None
  | b0 :: l1 =>
      if b0 <? 128 then Some 1
      else if between 194 223 b0 then
        match l1 with b1 :: _ => if cont b1 then Some 2 else None | _ => None end
      else if between 224 239 b0 then
        match l1 with
        | b1 :: b2 :: _ =>
            let lo := if b0 =? 224 then 160 else 128 in
            let hi := if b0 =? 237 then 159 else 191 in
            if between lo hi b1 && cont b2 then Some 3 else None
        | _ => None
        end
      else if between 240 244 b0 then
        match l1 with
        | b1 :: b2 :: b3 :: _ =>
            let lo := if b0 =? 240 then 144 else 128 in
            let hi := if b0 =? 244 then 143 else 191 in
            if between lo hi b1 && cont b2 && cont b3 then Some 4 else None
        | _ => None
        end
      else None
  end.

(** [[]rune(s)], each rune in its encoding; an invalid byte is U+FFFD. *)
Definition rune_error : list nat := [239; 191; 189].

Fixpoint runes (fuel : nat) (l : list nat) : list (list nat) :=
  match fuel with
  | O => []
  | S fuel' =>
      match l with
      | [] => []
      | _ :: l' =>
          match rune_width l with
          | Some n => take n l :: runes fuel' (drop n l)
          | None => rune_error :: runes fuel' l'
          end
      end
  end.

Definition runes_of (l : list nat) : list (list nat) := runes (length l) l.
Definition RuneCountInString (s : string) : nat := length (runes_of (bytes_of s)).

Definition sanitizeErrorMessage (message : string) : string :=
  let m1 := ReplaceAllString secretAssignment (bytes_of message) in
  let m2 := ReplaceAllString bearerSecret m1 in
  if length (runes_of m2) <=? 512 then string_of_bytes m2
  else string_of_bytes (concat (take 512 (runes_of m2))).

(** [strings.ToValidUTF8] with an empty replacement: the valid sequences, the other bytes dropped. *)
Fixpoint valid_runes (fuel : nat) (l : list nat) : list nat :=
  match fuel with
  | O => []
  | S fuel' =>
      match l with
      | [] => []
      | _ :: l' =>
          match rune_width l with
          | Some n => take n l ++ valid_runes fuel' (drop n l)
          | None => valid_runes fuel' l'
          end
      end
  end.

(** [safeUpstreamError] of [internal/scraper/coordinator.go] on the text of the error. *)
Definition safeUpstreamError (message : string) : string :=
  let m1 := ReplaceAllString secretAssignment (bytes_of message) in
  let m2 := ReplaceAllString bearerSecret m1 in
  let m3 := take 2048 m2 in
  string_of_bytes (valid_runes (length m3) m3).

(** * Witnesses *)

Example sanitize_password :
  sanitizeErrorMessage "login failed: Password = hunter2, retry" = "login failed: Password=<redacted>, retry".
Proof. vm_compute. reflexivity. Qed.

Example sanitize_bearer :
  sanitizeErrorMessage "GET /x bearer  abc.DEF-1 failed" = "GET /x Bearer <redacted> failed".
Proof. vm_compute. reflexivity. Qed.

(** * Lemmas *)

(** One whole valid sequence. *)
Definition valid_rune (r : list nat) : Prop := rune_width r = Some (length r) ∧ r ≠ [].

Lemma rune_width_app r l n : rune_width r = Some n → rune_width (r ++ l) = Some n.
Proof.
  destruct r as [|b0 [|b1 [|b2 [|b3 r]]]]; cbn [rune_width app]; try done;
    repeat case_match; congruence.
Qed.

Lemma rune_width_take l n :
  rune_width l = Some n → length (take n l) = n ∧ valid_rune (take n l).
Proof.
  unfold valid_rune.
  destruct l as [|b0 [|b1 [|b2 [|b3 l]]]]; cbn [rune_width]; intros E; try done;
    repeat (case_match; try done); simplify_eq; cbn;
    repeat (case_match; simplify_eq); (split_and!; try done); cbn in *; congruence.
Qed.

Lemma rune_error_valid : valid_rune rune_error.
Proof. done. Qed.

Lemma runes_valid fuel l : Forall valid_rune (runes fuel l).
Proof.
  revert l. induction fuel as [|f IH]; intros l; [constructor|].
  destruct l as [|b l]; [constructor|]. cbn [runes].
  destruct (rune_width (b :: l)) as [n|] eqn:E; constructor; auto using rune_error_valid.
  by apply rune_width_take in E as [_ ?].
Qed.

Lemma runes_concat rs fuel :
  Forall valid_rune rs → length (concat rs) ≤ fuel → runes fuel (concat rs) = rs.
Proof.
  revert fuel. induction rs as [|r rs IH]; intros fuel Hv Hf; [by destruct fuel|].
  apply Forall_cons in Hv as [[Hw Hne] Hv]. cbn [concat] in *.
  destruct r as [|b r]; [done|]. rewrite length_app in Hf. cbn [length] in Hf.
  destruct fuel as [|fuel]; [lia|].
  apply (rune_width_app _ (concat rs)) in Hw.
  cbn [app runes] in *. rewrite Hw. cbn [length] in *.
  change (b :: r ++ concat rs) with ((b :: r) ++ concat rs).
  rewrite take_app_length', drop_app_length' by done. f_equal. apply IH; [done|lia].
Qed.

(** ** The matchers return suffixes *)

Lemma strip_prefix_app p l r : strip_prefix p l = Some r → l = p ++ r.
Proof.
  revert l. induction p as [|x p IH]; intros l E; cbn in E; [by simplify_eq|].
  destruct l as [|y l]; [done|]. destruct (x =? y) eqn:Exy; [|done].
  apply Nat.eqb_eq in Exy as ->. by rewrite (IH _ E).
Qed.

Lemma strip_prefix_suffix p l r : strip_prefix p l = Some r → r `suffix_of` l.
Proof. intros ->%strip_prefix_app. by exists p. Qed.

Lemma match_char_suffix c l r : match_char c l = Some r → r `suffix_of` l.
Proof.
  destruct l as [|b l]; [done|]. cbn [match_char].
  repeat case_match; intros; simplify_eq; eauto using strip_prefix_suffix, suffix_cons_r.
Qed.

Lemma match_word_suffix w l r : match_word w l = Some r → r `suffix_of` l.
Proof.
  revert l. induction w as [|c w IH]; intros l E; cbn in E; [by simplify_eq|].
  destruct (match_char c l) as [l'|] eqn:E'; [|done].
  etransitivity; [by apply IH|by eapply match_char_suffix].
Qed.

Lemma match_any_suffix ws l r : match_any ws l = Some r → r `suffix_of` l.
Proof.
  induction ws as [|w ws IH]; cbn; [done|].
  destruct (match_word w l) eqn:E; intros; simplify_eq; eauto using match_word_suffix.
Qed.

Lemma drop_while_suffix p l : drop_while p l `suffix_of` l.
Proof.
  induction l as [|b l IH]; cbn; [done|]. destruct (p b); [by apply suffix_cons_r|done].
Qed.

Lemma secret_value_suffix l r : secret_value l = Some r → r `suffix_of` l.
Proof.
  revert r. induction l as [|b l IH]; cbn [secret_value]; [done|]. intros r E.
  repeat case_match; simplify_eq;
    eauto using suffix_cons_r, drop_while_suffix.
Qed.

Lemma token_char_suffix l r : token_char l = Some r → r `suffix_of` l.
Proof.
  destruct l as [|b l]; [done|]. unfold token_char.
  repeat case_match; intros; simplify_eq; eauto using strip_prefix_suffix, suffix_cons_r.
Qed.

Lemma token_chars_suffix fuel l : token_chars fuel l `suffix_of` l.
Proof.
  revert l. induction fuel as [|f IH]; intros l; cbn; [done|].
  destruct (token_char l) as [l'|] eqn:E; [|done].
  etransitivity; [apply IH|by eapply token_char_suffix].
Qed.

(** ** Bytes stay bytes *)

Definition is_byte (b : nat) : Prop := b < 256.

Lemma bytes_of_bytes s : Forall is_byte (bytes_of s).
Proof.
  induction s as [|c s IH]; cbn; constructor; [apply Ascii.nat_ascii_bounded|done].
Qed.

Lemma bytes_of_app s t : bytes_of (s +:+ t) = bytes_of s ++ bytes_of t.
Proof. induction s as [|c s IH]; cbn; [done|]. by rewrite <- IH. Qed.

Lemma bytes_of_length s : length (bytes_of s) = String.length s.
Proof. induction s; cbn; [done|]. by f_equal. Qed.

Lemma bytes_of_inj s t : bytes_of s = bytes_of t → s = t.
Proof.
  revert t. induction s as [|c s IH]; intros [|d t] E; try done. cbn in E. injection E as E1 E2. f_equal; [|by apply IH].
  rewrite <- (Ascii.ascii_nat_embedding c), E1. apply Ascii.ascii_nat_embedding.
Qed.

Lemma bytes_string_roundtrip l : Forall is_byte l → bytes_of (string_of_bytes l) = l.
Proof.
  induction 1 as [|b l Hb _ IH]; cbn; [done|]. by rewrite Ascii.nat_ascii_embedding, IH.
Qed.

Lemma suffix_bytes l r : r `suffix_of` l → Forall is_byte l → Forall is_byte r.
Proof. intros [k ->] H. by apply Forall_app in H as [_ ?]. Qed.

(** What a matcher promises to [ReplaceAllString]. *)
Class GoodMatcher (m : option nat → list nat → option (list nat * list nat)) : Prop :=
  good_matcher : ∀ prev l out rest, m prev l = Some (out, rest) → Forall is_byte l →
    rest `suffix_of` l ∧ Forall is_byte out.

#[export] Instance secretAssignment_good : GoodMatcher secretAssignment.
Proof.
  intros prev l out rest E Hl. unfold secretAssignment in E.
  destruct (boundary_before prev); [|done].
  destruct (match_any _ l) as [r|] eqn:H1; [|done]. apply match_any_suffix in H1.
  destruct (boundary_after r); [|done].
  pose proof (drop_while_suffix is_space r) as H3.
  destruct (drop_while is_space r) as [|b r']; [done|].
  destruct (bool_decide _); [|done].
  destruct (secret_value r') as [rest'|] eqn:H2; [|done]. apply secret_value_suffix in H2.
  simplify_eq.
  split.
  - etransitivity; [exact H2|]. etransitivity; [by apply suffix_cons_r|].
    by etransitivity; [exact H3|].
  - apply Forall_app; split; [by apply Forall_take|apply bytes_of_bytes].
Qed.

#[export] Instance bearerSecret_good : GoodMatcher bearerSecret.
Proof.
  intros prev l out rest E Hl. unfold bearerSecret in E.
  destruct (boundary_before prev); [|done].
  destruct (match_word _ l) as [[|b r]|] eqn:H1; [done| |done].
  apply match_word_suffix in H1.
  repeat case_match; simplify_eq. split; [|apply bytes_of_bytes].
  match goal with H : token_char _ = Some _ |- _ => apply token_char_suffix in H as H2 end.
  etransitivity; [apply token_chars_suffix|]. etransitivity; [exact H2|].
  etransitivity; [apply drop_while_suffix|]. by etransitivity; [apply suffix_cons_r|exact H1].
Qed.

Lemma replace_all_bytes m `{!GoodMatcher m} fuel prev l :
  Forall is_byte l → Forall is_byte (replace_all m fuel prev l).
Proof.
  revert prev l. induction fuel as [|f IH]; intros prev l Hl; cbn [replace_all]; [done|].
  destruct l as [|b l']; [done|].
  destruct (m prev (b :: l')) as [[out rest]|] eqn:E.
  - destruct (good_matcher _ _ _ _ E Hl) as [Hs Ho].
    apply Forall_app; split; [done|]. by eapply IH, suffix_bytes.
  - apply Forall_cons in Hl as [Hb Hl]. constructor; auto.
Qed.

Lemma runes_bytes fuel l : Forall is_byte l → Forall is_byte (concat (runes fuel l)).
Proof.
  revert l. induction fuel as [|f IH]; intros l Hl; cbn [runes]; [constructor|].
  destruct l as [|b l]; [constructor|].
  destruct (rune_width (b :: l)) as [n|]; cbn [concat]; apply Forall_app; split.
  - by apply Forall_take.
  - by apply IH, Forall_drop.
  - repeat constructor; unfold is_byte; lia.
  - apply IH. by apply Forall_cons in Hl as [_ ?].
Qed.

Lemma concat_take_bytes n (rs : list (list nat)) :
  Forall is_byte (concat rs) → Forall is_byte (concat (take n rs)).
Proof.
  intros H. rewrite <- (take_drop n rs), concat_app in H. by apply Forall_app in H as [? _].
Qed.

(** The sanitized message has at most 512 characters: the column's CHECK holds. *)
Lemma sanitize_length message : RuneCountInString (sanitizeErrorMessage message) ≤ 512.
Proof.
  unfold RuneCountInString, sanitizeErrorMessage, ReplaceAllString.
  set (m2 := replace_all bearerSecret _ _ _).
  assert (Hb : Forall is_byte m2).
  { subst m2. apply replace_all_bytes; [apply _|]. apply replace_all_bytes; [apply _|].
    apply bytes_of_bytes. }
  clearbody m2. destruct (length (runes_of m2) <=? 512) eqn:E.
  - rewrite bytes_string_roundtrip by done. by apply Nat.leb_le in E.
  - rewrite bytes_string_roundtrip by (by apply concat_take_bytes, runes_bytes).
    unfold runes_of at 1. rewrite runes_concat; [rewrite length_take; lia| |done].
    apply Forall_take, runes_valid.
Qed.
