(* ===== verification/Float64.v ===== *)
(** Go's [float64] arithmetic, as the sources use it: schedules ([policy.go]),
    change ratios ([validation.go]) and token buckets ([snapshot_repository.go]).

    A finite float64 is the rational it denotes.  Every Go operation is the exact
    operation on rationals followed by [rne], IEEE 754 rounding to nearest, ties to
    even, on a 53-bit significand with the smallest exponent [-1074].  Overflow to
    infinity is outside the range of every caller (durations are below 2^63, counts
    are [int]s, rates are below 2^10) and is not represented. *)

From Stdlib Require Import ZArith QArith Qround Qpower Qabs Lia Lqa.
From S2P Require Import Prelude.

Local Open Scope Q_scope.

Definition p2 (k : Z) : Q := (2 # 1) ^ k.

(** Round to the nearest integer, ties to even. *)
Definition half_even (q : Q) : Z :=
  let f := Qfloor q in
  match Qcompare (q - inject_Z f) (1 # 2) with
  | Lt => f
  | Gt => (f + 1)%Z
  | Eq => if Z.even f then f else (f + 1)%Z
  end.

(** The exponent of a positive rational: [p2 (flog2 x) <= x < p2 (flog2 x + 1)]. *)
Definition flog2 (x : Q) : Z :=
  let e := (Z.log2 (Qnum x) - Z.log2 (Z.pos (Qden x)))%Z in
  if Qle_bool (p2 e) x then e else (e - 1)%Z.

(** The exponent of one unit in the last place. *)
Definition ulp_exp (x : Q) : Z := Z.max (flog2 x - 52) (-1074).

Definition rne_pos (x : Q) : Q := inject_Z (half_even (x / p2 (ulp_exp x))) * p2 (ulp_exp x).

Definition rne (x : Q) : Q :=
  match Qnum x with
  | Z0 => 0
  | Zpos _ => rne_pos x
  | Zneg _ => - rne_pos (- x)
  end.

(** [float64(n)], [a + b], [a - b], [a * b], [a / b], [a > b] and [a < b]. *)
Definition f_of_int (n : Z) : Q := rne (inject_Z n).
Definition fadd (a b : Q) : Q := rne (a + b).
Definition fsub (a b : Q) : Q := rne (a - b).
Definition fmul (a b : Q) : Q := rne (a * b).
Definition fdiv (a b : Q) : Q := rne (a / b).
Definition fgt (a b : Q) : bool := negb (Qle_bool a b).
Definition flt (a b : Q) : bool := negb (Qle_bool b a).

(** [math.Round]: half away from zero. *)
Definition math_Round (x : Q) : Z :=
  if Qle_bool 0 x then Qfloor (x + (1 # 2)) else (- Qfloor (- x + (1 # 2)))%Z.

(** [int64(x)] of an integral float; out of range it is the value amd64 yields
    (Go leaves it to the implementation, and no theorem here depends on it). *)
Definition int64_of_integral (z : Z) : Z :=
  if ((min_int64 <=? z) && (z <=? max_int64))%Z%bool then z else min_int64.

(** * Rounding is monotone and keeps the integers below 2^53 *)

Lemma p2_pos k : 0 < p2 k.
Proof. apply Qpower_0_lt. reflexivity. Qed.

Lemma p2_nonzero k : ~ p2 k == 0.
Proof. pose proof (p2_pos k). lra. Qed.

Lemma p2_add j k : p2 (j + k) == p2 j * p2 k.
Proof. apply Qpower_plus. discriminate. Qed.

Lemma p2_mono j k : (j <= k)%Z -> p2 j <= p2 k.
Proof. intros H. apply Qpower_le_compat_l; [exact H | discriminate]. Qed.

Lemma p2_int k : (0 <= k)%Z -> p2 k == inject_Z (2 ^ k).
Proof. intros H. unfold p2. rewrite Zpower_Qpower by exact H. reflexivity. Qed.

#[local] Hint Resolve p2_pos p2_nonzero : core.

Lemma half_even_spec q :
  inject_Z (half_even q) - (1 # 2) <= q /\ q <= inject_Z (half_even q) + (1 # 2).
Proof.
  unfold half_even. pose proof (Qfloor_le q). pose proof (Qlt_floor q).
  rewrite inject_Z_plus in *. change (inject_Z 1) with 1 in *.
  destruct (Qcompare_spec (q - inject_Z (Qfloor q)) (1 # 2));
    [destruct (Z.even _)| |]; rewrite ?inject_Z_plus; change (inject_Z 1) with 1; lra.
Qed.

Lemma half_even_mono a b : a <= b -> (half_even a <= half_even b)%Z.
Proof.
  intros Hab. pose proof (Qfloor_resp_le a b Hab) as Hf.
  unfold half_even.
  destruct (Z.eq_dec (Qfloor a) (Qfloor b)) as [E|E].
  - rewrite <- E.
    destruct (Qcompare_spec (a - inject_Z (Qfloor a)) (1 # 2)),
             (Qcompare_spec (b - inject_Z (Qfloor a)) (1 # 2));
      try destruct (Z.even _); lia || lra.
  - destruct (Qcompare (a - _) _), (Qcompare (b - _) _);
      repeat destruct (Z.even _); lia.
Qed.

Lemma half_even_int z : half_even (inject_Z z) = z.
Proof.
  unfold half_even. rewrite Qfloor_Z.
  destruct (Qcompare_spec (inject_Z z - inject_Z z) (1 # 2)); [lra| reflexivity | lra].
Qed.

#[export] Instance half_even_proper : Proper (Qeq ==> eq) half_even.
Proof.
  intros a b Hab. apply Z.le_antisymm; apply half_even_mono; rewrite Hab; apply Qle_refl.
Qed.

(** ** The exponent *)

Lemma log2_lower (z : positive) : p2 (Z.log2 (Zpos z)) <= inject_Z (Zpos z).
Proof.
  rewrite p2_int by apply Z.log2_nonneg. rewrite <- Zle_Qle.
  apply (Z.log2_spec (Zpos z)). reflexivity.
Qed.

Lemma log2_upper (z : positive) : inject_Z (Zpos z) < p2 (Z.log2 (Zpos z) + 1).
Proof.
  rewrite p2_int by (pose proof (Z.log2_nonneg (Zpos z)); lia). rewrite <- Zlt_Qlt.
  apply (Z.log2_spec (Zpos z)). reflexivity.
Qed.

Lemma flog2_spec x : 0 < x -> p2 (flog2 x) <= x /\ x < p2 (flog2 x + 1).
Proof.
  destruct x as [[|n|n] d]; try (unfold Qlt; simpl; lia). intros _.
  unfold flog2. cbn [Qnum Qden].
  set (ln := Z.log2 (Zpos n)). set (ld := Z.log2 (Zpos d)).
  pose proof (log2_lower n) as Hn1. pose proof (log2_upper n) as Hn2.
  pose proof (log2_lower d) as Hd1. pose proof (log2_upper d) as Hd2.
  fold ln in Hn1, Hn2. fold ld in Hd1, Hd2.
  assert (Hx : (Zpos n # d) * inject_Z (Zpos d) == inject_Z (Zpos n)).
  { unfold Qeq. simpl. lia. }
  assert (Hpn : 0 < inject_Z (Zpos d)) by reflexivity.
  assert (En : p2 ln == p2 (ln - ld) * p2 ld) by (rewrite <- p2_add; f_equiv; lia).
  pose proof (p2_add (ln - ld - 1) 1) as E1. pose proof (p2_add (ln - ld) 1) as E2.
  pose proof (p2_add ld 1) as E3. pose proof (p2_add ln 1) as E4.
  change (p2 1) with (2 # 1) in *.
  replace (ln - ld - 1 + 1)%Z with (ln - ld)%Z in E1 by lia.
  pose proof (p2_pos (ln - ld)) as P1. pose proof (p2_pos ld) as P2.
  set (X := Zpos n # d) in *.
  destruct (Qle_bool (p2 (ln - ld)) X) eqn:Ec.
  - apply Qle_bool_iff in Ec. split; [exact Ec|]. rewrite E2. nra.
  - assert (Ec' : X < p2 (ln - ld)).
    { apply Qnot_le_lt. intros H. apply Qle_bool_iff in H. congruence. }
    replace (ln - ld - 1 + 1)%Z with (ln - ld)%Z by lia.
    split; [|exact Ec']. nra.
Qed.

Lemma scaled_lt x : 0 < x -> x < inject_Z (2 ^ 53) * p2 (ulp_exp x).
Proof.
  intros Hx. destruct (flog2_spec x Hx) as [_ H].
  rewrite <- (p2_int 53) by lia. rewrite <- p2_add.
  eapply Qlt_le_trans; [exact H|]. apply p2_mono. unfold ulp_exp. lia.
Qed.

Lemma scaled_ge x :
  0 < x -> (-1074 < ulp_exp x)%Z -> inject_Z (2 ^ 52) * p2 (ulp_exp x) <= x.
Proof.
  intros Hx Hk. destruct (flog2_spec x Hx) as [H _].
  rewrite <- (p2_int 52) by lia. rewrite <- p2_add.
  eapply Qle_trans; [|exact H]. apply p2_mono. unfold ulp_exp in *. lia.
Qed.

Lemma div_p2_mono x y k : x <= y -> x / p2 k <= y / p2 k.
Proof.
  intros H. unfold Qdiv. apply Qmult_le_compat_r; [exact H|].
  apply Qlt_le_weak, Qinv_lt_0_compat, p2_pos.
Qed.

Lemma rne_pos_mono x y : 0 < x -> x <= y -> rne_pos x <= rne_pos y.
Proof.
  intros Hx Hxy. assert (Hy : 0 < y) by lra. unfold rne_pos.
  set (j := ulp_exp x). set (k := ulp_exp y).
  pose proof (p2_pos j) as Pj. pose proof (p2_pos k) as Pk.
  destruct (Z.lt_trichotomy j k) as [Hlt|[Heq|Hgt]].
  - (* a larger binade: the power of two between them separates the results *)
    assert (U : (half_even (x / p2 j) <= 2 ^ 53)%Z).
    { rewrite <- (half_even_int (2 ^ 53)). apply half_even_mono.
      apply Qle_shift_div_r; [exact Pj|]. apply Qlt_le_weak, scaled_lt, Hx. }
    assert (L : (2 ^ 52 <= half_even (y / p2 k))%Z).
    { rewrite <- (half_even_int (2 ^ 52)). apply half_even_mono.
      apply Qle_shift_div_l; [exact Pk|]. apply scaled_ge; [exact Hy|].
      unfold k, j, ulp_exp in *. lia. }
    rewrite Zle_Qle in U, L.
    apply Qle_trans with (inject_Z (2 ^ 53) * p2 j); [apply Qmult_le_compat_r; lra|].
    apply Qle_trans with (inject_Z (2 ^ 52) * p2 k); [|apply Qmult_le_compat_r; lra].
    rewrite <- (p2_int 53), <- (p2_int 52), <- !p2_add by lia. apply p2_mono. lia.
  - rewrite <- Heq. apply Qmult_le_compat_r; [|lra]. rewrite <- Zle_Qle.
    apply half_even_mono, div_p2_mono, Hxy.
  - (* impossible: the exponent is monotone *)
    exfalso. assert (C : inject_Z (2 ^ 52) * p2 j <= x).
    { apply scaled_ge; [exact Hx|]. unfold j, k, ulp_exp in *. lia. }
    pose proof (scaled_lt y Hy) as D. fold k in D.
    assert (M : inject_Z (2 ^ 53) * p2 k <= inject_Z (2 ^ 52) * p2 j).
    { rewrite <- (p2_int 53), <- (p2_int 52), <- !p2_add by lia. apply p2_mono. lia. }
    lra.
Qed.

Lemma rne_pos_nonneg x : 0 < x -> 0 <= rne_pos x.
Proof.
  intros Hx. unfold rne_pos. apply Qmult_le_0_compat; [|apply Qlt_le_weak, p2_pos].
  change 0 with (inject_Z 0). rewrite <- Zle_Qle. rewrite <- (half_even_int 0).
  apply half_even_mono. apply Qle_shift_div_l; [apply p2_pos|].
  change (inject_Z 0) with 0. lra.
Qed.

Lemma rne_cases x :
  (x == 0 /\ rne x = 0) \/ (0 < x /\ rne x = rne_pos x) \/
  (x < 0 /\ 0 < - x /\ rne x = - rne_pos (- x)).
Proof.
  destruct x as [[|n|n] d]; unfold rne; cbn [Qnum].
  - left. split; [unfold Qeq; simpl; lia | reflexivity].
  - right. left. split; [unfold Qlt; simpl; lia | reflexivity].
  - right. right. repeat split; unfold Qlt; simpl; lia.
Qed.

Lemma rne_mono x y : x <= y -> rne x <= rne y.
Proof.
  intros H.
  destruct (rne_cases x) as [[Ex ->]|[[Hx ->]|(Hx & Hx' & ->)]];
  destruct (rne_cases y) as [[Ey ->]|[[Hy ->]|(Hy & Hy' & ->)]]; try lra.
  - apply rne_pos_nonneg, Hy.
  - apply rne_pos_mono; [exact Hx | exact H].
  - pose proof (rne_pos_nonneg _ Hx'). lra.
  - pose proof (rne_pos_nonneg _ Hx'). pose proof (rne_pos_nonneg _ Hy). lra.
  - assert (G : rne_pos (- y) <= rne_pos (- x)) by (apply rne_pos_mono; lra). lra.
Qed.

#[export] Instance rne_proper : Proper (Qeq ==> Qeq) rne.
Proof.
  intros x y E. apply Qle_antisym; apply rne_mono; rewrite E; apply Qle_refl.
Qed.

#[export] Instance fadd_proper : Proper (Qeq ==> Qeq ==> Qeq) fadd.
Proof. intros a b E c d F. unfold fadd. now rewrite E, F. Qed.
#[export] Instance fsub_proper : Proper (Qeq ==> Qeq ==> Qeq) fsub.
Proof. intros a b E c d F. unfold fsub. now rewrite E, F. Qed.
#[export] Instance fmul_proper : Proper (Qeq ==> Qeq ==> Qeq) fmul.
Proof. intros a b E c d F. unfold fmul. now rewrite E, F. Qed.
#[export] Instance fdiv_proper : Proper (Qeq ==> Qeq ==> Qeq) fdiv.
Proof. intros a b E c d F. unfold fdiv. now rewrite E, F. Qed.

(** A dyadic number with at most 53 significant bits is a fixed point. *)
Lemma rne_pos_dyadic m k :
  (0 < m <= 2 ^ 53)%Z -> (-1074 <= k)%Z -> rne_pos (inject_Z m * p2 k) == inject_Z m * p2 k.
Proof.
  intros [Hm Hb] Hk. set (x := inject_Z m * p2 k).
  assert (Hm' : 0 < inject_Z m) by (change 0 with (inject_Z 0); rewrite <- Zlt_Qlt; lia).
  assert (Hx : 0 < x) by (apply Qmult_lt_0_compat; auto).
  unfold rne_pos. set (j := ulp_exp x).
  pose proof (p2_pos k) as Pk. pose proof (p2_pos j) as Pj.
  destruct (Z.le_gt_cases j k) as [Hj|Hj].
  - (* finer unit: the quotient is an integer *)
    assert (E : x / p2 j == inject_Z (m * 2 ^ (k - j))).
    { rewrite inject_Z_mult, <- (p2_int (k - j)) by lia. unfold x.
      replace (p2 k) with (p2 ((k - j) + j)) by (f_equal; lia).
      rewrite p2_add. field. auto. }
    rewrite E, half_even_int, <- E. field. auto.
  - (* coarser unit: only the power of two itself reaches here *)
    assert (C : inject_Z (2 ^ 52) * p2 j <= x).
    { apply scaled_ge; [exact Hx|]. unfold j in *. lia. }
    assert (Ej : p2 j == inject_Z (2 ^ (j - k)) * p2 k).
    { rewrite <- (p2_int (j - k)), <- p2_add by lia. f_equiv. lia. }
    assert (Hdiv : (2 ^ 52 * 2 ^ (j - k) <= m)%Z).
    { rewrite Zle_Qle, inject_Z_mult. apply (Qmult_le_r _ _ (p2 k) Pk).
      rewrite <- Qmult_assoc, <- Ej. exact C. }
    assert (j - k = 1)%Z as Ejk.
    { destruct (Z.le_gt_cases (j - k) 1); [lia|].
      assert (2 ^ 2 <= 2 ^ (j - k))%Z by (apply Z.pow_le_mono_r; lia). lia. }
    rewrite Ejk in *. assert (m = 2 ^ 53)%Z by lia. subst m.
    assert (E : x / p2 j == inject_Z (2 ^ 52)).
    { unfold x. rewrite Ej. change (inject_Z (2 ^ 53)) with (inject_Z (2 ^ 52) * inject_Z (2 ^ 1)).
      field. split; [auto|discriminate]. }
    rewrite E, half_even_int, <- E. field. auto.
Qed.

Lemma rne_int n : (Z.abs n <= 2 ^ 53)%Z -> rne (inject_Z n) == inject_Z n.
Proof.
  intros H.
  assert (G : forall m, (0 < m <= 2 ^ 53)%Z -> rne_pos (inject_Z m) == inject_Z m).
  { intros m Hm. pose proof (rne_pos_dyadic m 0 Hm ltac:(lia)) as E.
    change (p2 0) with 1 in E.
    assert (E' : inject_Z m * 1 == inject_Z m) by ring.
    assert (P : 0 < inject_Z m) by (change 0 with (inject_Z 0); rewrite <- Zlt_Qlt; lia).
    transitivity (rne_pos (inject_Z m * 1)); [|rewrite E; exact E'].
    apply Qle_antisym; apply rne_pos_mono; lra. }
  destruct n as [|p|p]; unfold rne; cbn [Qnum inject_Z].
  - reflexivity.
  - apply G. lia.
  - change (- inject_Z (Zneg p)) with (inject_Z (Zpos p)). rewrite G by lia. reflexivity.
Qed.

Lemma f_of_int_exact n : (Z.abs n <= 2 ^ 53)%Z -> f_of_int n == inject_Z n.
Proof. apply rne_int. Qed.

(** Integer bounds survive rounding. *)
Lemma rne_le_int x n : (Z.abs n <= 2 ^ 53)%Z -> x <= inject_Z n -> rne x <= inject_Z n.
Proof. intros Hn H. rewrite <- (rne_int n Hn). apply rne_mono, H. Qed.

Lemma rne_ge_int x n : (Z.abs n <= 2 ^ 53)%Z -> inject_Z n <= x -> inject_Z n <= rne x.
Proof. intros Hn H. rewrite <- (rne_int n Hn). apply rne_mono, H. Qed.

#[export] Instance math_Round_proper : Proper (Qeq ==> eq) math_Round.
Proof.
  intros x y E. unfold math_Round.
  assert (Qle_bool 0 x = Qle_bool 0 y) as -> by (rewrite E; reflexivity).
  destruct (Qle_bool 0 y); [|f_equal]; apply Qfloor_comp; rewrite E; reflexivity.
Qed.

Lemma math_Round_le x n : 0 <= x -> x <= inject_Z n -> (math_Round x <= n)%Z.
Proof.
  intros H0 H. unfold math_Round. apply Qle_bool_iff in H0. rewrite H0.
  rewrite Zle_Qle. pose proof (Qfloor_le (x + (1 # 2))) as F.
  assert (L : inject_Z (Qfloor (x + (1 # 2))) < inject_Z (n + 1)).
  { rewrite inject_Z_plus. change (inject_Z 1) with 1. lra. }
  rewrite <- Zlt_Qlt in L. rewrite <- Zle_Qle. lia.
Qed.

Lemma math_Round_ge x n : 0 <= x -> inject_Z n <= x -> (n <= math_Round x)%Z.
Proof.
  intros H0 H. unfold math_Round. apply Qle_bool_iff in H0. rewrite H0.
  rewrite <- (Qfloor_Z n). apply Qfloor_resp_le. lra.
Qed.

Lemma int64_of_integral_id z : in_int64 z -> int64_of_integral z = z.
Proof.
  unfold in_int64, int64_of_integral. intros [H1 H2].
  apply Z.leb_le in H1. apply Z.leb_le in H2. now rewrite H1, H2.
Qed.

Lemma fgt_true a b : fgt a b = true <-> b < a.
Proof.
  unfold fgt. rewrite Bool.negb_true_iff. split.
  - intros H. apply Qnot_le_lt. intros G. apply Qle_bool_iff in G. congruence.
  - intros H. apply Bool.not_true_is_false. rewrite Qle_bool_iff. lra.
Qed.

Lemma fgt_false a b : fgt a b = false <-> a <= b.
Proof. unfold fgt. rewrite Bool.negb_false_iff. apply Qle_bool_iff. Qed.

(** ** Floats are dyadic *)

Lemma rne_fix_dyadic m k :
  (0 <= m <= 2 ^ 53)%Z -> (-1074 <= k)%Z -> rne (inject_Z m * p2 k) == inject_Z m * p2 k.
Proof.
  intros Hm Hk. pose proof (p2_pos k) as Hp.
  destruct (Z.eq_dec m 0) as [->|Hne].
  - assert (E : inject_Z 0 * p2 k == 0) by (change (inject_Z 0) with 0; apply Qmult_0_l).
    rewrite E. reflexivity.
  - assert (Hx : 0 < inject_Z m * p2 k).
    { apply Qmult_lt_0_compat; [change 0 with (inject_Z 0); rewrite <- Zlt_Qlt; lia|exact Hp]. }
    destruct (rne_cases (inject_Z m * p2 k)) as [[E _]|[[_ E]|(E & _)]]; [lra| |lra].
    rewrite E. apply rne_pos_dyadic; lia.
Qed.

Lemma rne_is_dyadic x :
  0 < x -> exists m, (0 <= m <= 2 ^ 53)%Z /\ rne x == inject_Z m * p2 (ulp_exp x).
Proof.
  intros Hx. exists (half_even (x / p2 (ulp_exp x))). split.
  - split.
    + rewrite <- (half_even_int 0). apply half_even_mono.
      apply Qle_shift_div_l; [apply p2_pos|]. change (inject_Z 0) with 0. rewrite Qmult_0_l. lra.
    + rewrite <- (half_even_int (2 ^ 53)). apply half_even_mono.
      apply Qle_shift_div_r; [apply p2_pos|]. apply Qlt_le_weak, scaled_lt. exact Hx.
  - destruct (rne_cases x) as [[E _]|[[_ ->]|(E & _)]]; [lra|reflexivity|lra].
Qed.

Lemma rne_idemp x : 0 < x -> rne (rne x) == rne x.
Proof.
  intros Hx. destruct (rne_is_dyadic x Hx) as (m & Hm & E). rewrite E.
  apply rne_fix_dyadic; [exact Hm|]. unfold ulp_exp. lia.
Qed.

(** Halving is exact away from the subnormal range. *)
Lemma rne_half x : p2 (-2) <= x -> fdiv (rne x) 2 == rne x / 2.
Proof.
  intros Hq. pose proof (p2_pos (-2)) as H2. assert (Hx : 0 < x) by lra.
  destruct (rne_is_dyadic x Hx) as (m & Hm & E).
  assert (He : (-2 <= flog2 x)%Z).
  { apply Z.nlt_ge. intros Hlt. destruct (flog2_spec x Hx) as [_ Hl].
    assert (p2 (flog2 x + 1) <= p2 (-2)) by (apply p2_mono; lia). lra. }
  assert (Ehalf : inject_Z m * p2 (ulp_exp x) / 2 == inject_Z m * p2 (ulp_exp x - 1)).
  { assert (E2 : p2 (ulp_exp x) == p2 (ulp_exp x - 1) * 2).
    { replace (ulp_exp x) with ((ulp_exp x - 1) + 1)%Z at 1 by lia. rewrite p2_add. reflexivity. }
    rewrite E2. field. }
  unfold fdiv. rewrite E, Ehalf. apply rne_fix_dyadic; [exact Hm|]. unfold ulp_exp. lia.
Qed.

(** Below 2^30 the rounding error is at most 2^-24. *)
Lemma rne_error_small x : 0 <= x -> x < inject_Z (2 ^ 30) -> x - p2 (-24) <= rne x /\ rne x <= x + p2 (-24).
Proof.
  intros H0 Hb. pose proof (p2_pos (-24)) as P24.
  destruct (rne_cases x) as [[Ex ->]|[[Hx ->]|(Hx & _)]]; [lra| |lra].
  unfold rne_pos. set (k := ulp_exp x). pose proof (p2_pos k) as Pk.
  destruct (half_even_spec (x / p2 k)) as [L U]. set (m := inject_Z (half_even (x / p2 k))) in *. clearbody m.
  assert (Hk : (k <= -23)%Z).
  { assert (flog2 x < 30)%Z; [|unfold k, ulp_exp; lia]. apply Z.nle_gt. intros G.
    destruct (flog2_spec x Hx) as [Hl _]. pose proof (p2_mono _ _ G) as Hm.
    rewrite (p2_int 30) in Hm by lia. lra. }
  pose proof (p2_mono _ _ Hk) as Hp.
  assert (E23 : p2 (-23) == p2 (-24) * 2) by (rewrite <- (p2_add (-24) 1); reflexivity).
  assert (Ediv : x == x / p2 k * p2 k) by (field; apply p2_nonzero).
  set (y := x / p2 k) in *. clearbody y k. split; nra.
Qed.
