(* ===== verification/Domain.v ===== *)
(** The domain package ([internal/domain]): snapshot kinds, target references and
    their identity keys, statuses, the QR-room state machine, the data-quality and
    validation-report contracts, scrape targets and seeds, and the student-identifier
    resolution used by check-ins.

    A Go string type with named constants is an inductive type with one constructor
    per constant and a last constructor for any other string. *)

From stdpp Require Import base list numbers strings gmap relations.
From Stdlib Require Import ZArith QArith Lia.
From S2P Require Import Prelude.

Local Open Scope Z_scope.
Local Open Scope stdpp_scope.

(** * classroom.go: course and session data *)

Inductive CourseStatus :=
| CourseStatusUpcoming
| CourseStatusActive
| CourseStatusFinished
| CourseStatusOther (s : string).

Definition course_status_string (c : CourseStatus) : string :=
  match c with
  | CourseStatusUpcoming => "upcoming"
  | CourseStatusActive => "active"
  | CourseStatusFinished => "finished"
  | CourseStatusOther s => s
  end.

Inductive SessionStatus :=
| SessionStatusNotStarted
| SessionStatusActive
| SessionStatusDone
| SessionStatusAuthError
| SessionStatusOther (s : string).

Definition session_status_string (s : SessionStatus) : string :=
  match s with
  | SessionStatusNotStarted => "not_started"
  | SessionStatusActive => "active"
  | SessionStatusDone => "done"
  | SessionStatusAuthError => "auth_error"
  | SessionStatusOther s => s
  end.

Record CourseSummary := {
  cs_CourseID : string;
  cs_Name : string;
  cs_StartDate : string;
  cs_EndDate : string;
  cs_EnrolledCount : Z;
  cs_TotalSessions : Z;
  cs_CompletedSessions : Z;
  cs_AvgAttendanceRate : Q;
  cs_Status : CourseStatus
}.

Record SessionSummary := {
  ss_SessionID : string;
  ss_SessionNumber : Z;
  ss_Name : string;
  ss_Date : string;
  ss_CheckedInCount : Z;
  ss_TotalStudents : Z;
  ss_Status : SessionStatus
}.

Record CourseDetail := {
  cd_Summary : CourseSummary;
  cd_Sessions : list SessionSummary
}.

Record StudentCheckin := {
  sc_StudentID : string;
  sc_Name : string;
  sc_Nickname : string;
  sc_School : string;
  sc_AvatarURL : string;
  sc_CheckedIn : bool;
  sc_CheckedInAt : option string;
  sc_ParticipationPoints : Z
}.

Record SessionDetail := {
  sd_Summary : SessionSummary;
  sd_Students : list StudentCheckin;
  sd_QRActive : bool;
  sd_QRExpiresAt : option string
}.

(** [time.Parse] with the layout ["2006-01-02"]: a four-digit year, a two-digit month
    and a two-digit day that exists in that month, separated by dashes, nothing else. *)
Definition digit (b : nat) : option Z :=
  if ((48 <=? b) && (b <=? 57))%nat%bool then Some (Z.of_nat b - 48) else None.

Definition leap_year (y : Z) : bool :=
  ((y mod 4 =? 0) && (negb (y mod 100 =? 0) || (y mod 400 =? 0)))%bool.

Definition days_in (m y : Z) : Z :=
  if m =? 2 then (if leap_year y then 29 else 28)
  else if (m =? 4) || (m =? 6) || (m =? 9) || (m =? 11) then 30 else 31.

Definition digits2 (a b : nat) : option Z :=
  match digit a, digit b with Some x, Some y => Some (10 * x + y) | _, _ => None end.

Definition parse_date (s : string) : option (Z * Z * Z) :=
  match bytes_of s with
  | [y1; y2; y3; y4; d1; m1; m2; d2; a1; a2] =>
      match digits2 y1 y2, digits2 y3 y4, digits2 m1 m2, digits2 a1 a2 with
      | Some yh, Some yl, Some m, Some d =>
          let y := 100 * yh + yl in
          if ((d1 =? 45)%nat && (d2 =? 45)%nat && (1 <=? m) && (m <=? 12)
              && (1 <=? d) && (d <=? days_in m y))%bool
          then Some (y, m, d) else None
      | _, _, _, _ => None
      end
  | _ => None
  end.

(** Midnight UTC of a date, in nanoseconds after January 1 of year 1. *)
Definition days_before_month (m y : Z) : Z :=
  foldr (λ k acc, (if Z.of_nat k <? m then days_in (Z.of_nat k) y else 0) + acc) 0 (seq 1 11).

Definition date_time (ymd : Z * Z * Z) : Z :=
  let '(y, m, d) := ymd in
  let p := y - 1 in
  (365 * p + p / 4 - p / 100 + p / 400 + days_before_month m y + (d - 1)) * (24 * Hour).

Inductive DomainError :=
| ErrInvalidDateFormat (field value : string)
| ErrUnknownSessionStatus (status : string)
| ErrTransition (from to : string)
| ErrRef (msg : string).

(** [GetCourseStatus]; the clock reading [now] is an argument. *)
Definition GetCourseStatus (now : Z) (startDate endDate : string) : result DomainError CourseStatus :=
  match parse_date startDate with
  | None => Err (ErrInvalidDateFormat "startDate" startDate)
  | Some sd =>
      match parse_date endDate with
      | None => Err (ErrInvalidDateFormat "endDate" endDate)
      | Some ed =>
          if time_Before now (date_time sd) then Ok CourseStatusUpcoming
          else if time_After now (date_time ed) then Ok CourseStatusFinished
          else Ok CourseStatusActive
      end
  end.

Definition GetSessionStatus (status : string) : result DomainError string :=
  if bool_decide (status ∈ ["active"; "done"; "not_started"; "auth_error"])
  then Ok status else Err (ErrUnknownSessionStatus status).

(** * snapshot.go: kinds, references, targets, seeds, snapshots *)

Inductive SnapshotKind :=
| SnapshotCourseCatalog
| SnapshotCourseDetail
| SnapshotSessionDetail
| SnapshotStudentProfiles
| SnapshotOther (s : string).

Definition kind_string (k : SnapshotKind) : string :=
  match k with
  | SnapshotCourseCatalog => "course_catalog"
  | SnapshotCourseDetail => "course_detail"
  | SnapshotSessionDetail => "session_detail"
  | SnapshotStudentProfiles => "student_profiles"
  | SnapshotOther s => s
  end.

Definition kind_Valid (k : SnapshotKind) : bool :=
  match k with SnapshotOther _ => false | _ => true end.

#[export] Instance SnapshotKind_eq_dec : EqDecision SnapshotKind.
Proof. solve_decision. Defined.
#[export] Instance SessionStatus_eq_dec : EqDecision SessionStatus.
Proof. solve_decision. Defined.

Record TargetRef := mkRef {
  ref_Host : string;
  ref_Kind : SnapshotKind;
  ref_ResourceKey : string;
  ref_ParentKey : string
}.

#[export] Instance TargetRef_eq_dec : EqDecision TargetRef.
Proof. solve_decision. Defined.

Definition ref_Validate (r : TargetRef) : result DomainError unit :=
  if blank (ref_Host r) then Err (ErrRef "snapshot target host is required")
  else if negb (kind_Valid (ref_Kind r)) then Err (ErrRef "invalid snapshot kind")
  else if blank (ref_ResourceKey r) then Err (ErrRef "snapshot target resource key is required")
  else Ok tt.

Definition nul : Ascii.ascii := Ascii.ascii_of_nat 0.
Definition nul_str : string := String nul EmptyString.

Definition IdentityKey (r : TargetRef) : string :=
  kind_string (ref_Kind r) +:+ (nul_str +:+ (ref_ParentKey r +:+ (nul_str +:+
    (ref_ResourceKey r +:+ (nul_str +:+ ref_Host r))))).

Record ConditionalHeaders := { ch_ETag : string; ch_LastModified : string }.

(** A 32-byte digest, as its hexadecimal string; the all-zero array is [zero_hash]. *)
Definition zero_hash : string :=
  "0000000000000000000000000000000000000000000000000000000000000000".
Definition IsZeroContentHash (h : string) : bool := bool_decide (h = zero_hash).

Inductive LifecycleState := LifeActive | LifeMissing | LifeTombstoned.
#[export] Instance LifecycleState_eq_dec : EqDecision LifecycleState.
Proof. solve_decision. Defined.

Record ScrapeTarget := {
  st_ID : Z;
  st_Ref : TargetRef;
  st_Attributes : string;
  st_Priority : Z;
  st_MissingCount : Z;
  st_CurrentContentHash : string;
  st_HasCurrentSnapshot : bool;
  st_CurrentVersion : Z;
  st_ValidationSeq : Z;
  st_CurrentInterval : Z;
  st_MinInterval : Z;
  st_MaxInterval : Z;
  st_MaxServeAge : Z;
  st_NextRunAt : Z;
  st_LastValidatedAt : option Z;
  st_ConsecutiveFailures : Z;
  st_RecentChanges : list bool;
  st_Conditional : ConditionalHeaders;
  st_LeaseOwner : string;
  st_LeaseGeneration : Z;
  st_LeaseExpiresAt : option Z;
  st_PreviousRecordCount : Z;
  st_LifecycleState : LifecycleState;
  st_LastSeenParentVersion : option Z;
  st_ConsecutiveMissingCount : Z;
  st_TombstonedAt : option Z;
  st_ReactivatedAt : option Z
}.

Definition HasContentHash (t : ScrapeTarget) : bool :=
  st_HasCurrentSnapshot t && negb (IsZeroContentHash (st_CurrentContentHash t)).

Record TargetSeed := {
  sd_Ref : TargetRef;
  sd_Attributes : string;
  sd_Priority : Z;
  sd_InitialInterval : Z;
  sd_MinInterval : Z;
  sd_MaxInterval : Z;
  sd_MaxServeAge : Z;
  sd_NextRunAt : Z
}.

Definition PriorityMutationVerification : Z := 10.
Definition PriorityActiveSession : Z := 20.
Definition PriorityActiveCourse : Z := 30.
Definition PriorityCatalog : Z := 40.
Definition PriorityRecentlyCompleted : Z := 50.
Definition PriorityProfilesHistorical : Z := 60.

Definition DefaultPriority (kind : SnapshotKind) (status : SessionStatus) : Z :=
  match kind with
  | SnapshotSessionDetail =>
      match status with
      | SessionStatusActive => PriorityActiveSession
      | SessionStatusDone => PriorityRecentlyCompleted
      | SessionStatusNotStarted => PriorityActiveSession
      | _ => PriorityRecentlyCompleted
      end
  | SnapshotCourseDetail => PriorityActiveCourse
  | SnapshotCourseCatalog => PriorityCatalog
  | SnapshotStudentProfiles => PriorityProfilesHistorical
  | SnapshotOther _ => PriorityRecentlyCompleted
  end.

(** * data_quality.go *)

Inductive DataQualityState :=
| DataQualityVerifiedFresh
| DataQualityVerifiedStale
| DataQualityDegraded
| DataQualityUnavailable
| DataQualityOther (s : string).

#[export] Instance DataQualityState_eq_dec : EqDecision DataQualityState.
Proof. solve_decision. Defined.

Definition quality_Valid (s : DataQualityState) : bool :=
  match s with DataQualityOther _ => false | _ => true end.

Inductive ValidationSeverity := SeverityInfo | SeverityWarning | SeverityError | SeverityFatal.

Record ValidationViolation := {
  vv_Code : string;
  vv_Severity : ValidationSeverity;
  vv_Path : string;
  vv_Message : string
}.

Record ValidationReport := {
  vr_Complete : bool;
  vr_RequiresConfirmation : bool;
  vr_Violations : list ValidationViolation
}.

Definition blocking (v : ValidationViolation) : bool :=
  match vv_Severity v with SeverityError | SeverityFatal => true | _ => false end.

Definition CanPublish (r : ValidationReport) : bool :=
  if negb (vr_Complete r) then false
  else if existsb blocking (vr_Violations r) then false
  else negb (vr_RequiresConfirmation r).

(** [ValidationReport.Add] appends to the receiver's slice. *)
Definition report_Add (code : string) (severity : ValidationSeverity) (path message : string)
    (r : ValidationReport) : ValidationReport :=
  {| vr_Complete := vr_Complete r;
     vr_RequiresConfirmation := vr_RequiresConfirmation r;
     vr_Violations := vr_Violations r ++
       [{| vv_Code := code; vv_Severity := severity; vv_Path := path; vv_Message := message |}] |}.

Record SnapshotManifest := {
  sm_SourceReportedCount : Z;
  sm_ParsedCount : Z;
  sm_UniqueCount : Z;
  sm_ExpectedPageCount : Z;
  sm_FetchedPageCount : Z;
  sm_FirstRecordKey : string;
  sm_LastRecordKey : string;
  sm_Complete : bool;
  sm_IncompleteReasons : list string
}.

Definition zero_manifest : SnapshotManifest :=
  {| sm_SourceReportedCount := 0; sm_ParsedCount := 0; sm_UniqueCount := 0;
     sm_ExpectedPageCount := 0; sm_FetchedPageCount := 0; sm_FirstRecordKey := "";
     sm_LastRecordKey := ""; sm_Complete := false; sm_IncompleteReasons := [] |}.

Definition zero_report : ValidationReport :=
  {| vr_Complete := false; vr_RequiresConfirmation := false; vr_Violations := [] |}.

Inductive CandidateDisposition :=
| CandidateAccepted
| CandidateUnchanged
| CandidateNeedsConfirmation
| CandidateRejectedTransport
| CandidateRejectedAuthentication
| CandidateRejectedParse
| CandidateRejectedIncomplete
| CandidateRejectedSemantic
| CandidateQuarantinedAnomaly.

Record ScrapeCandidate := {
  sca_TargetID : Z;
  sca_LeaseGeneration : Z;
  sca_AttemptNumber : Z;
  sca_FetchedAt : Z;
  sca_RequestID : string;
  sca_HTTPStatus : Z;
  sca_ContentType : string;
  sca_ContentLength : Z;
  sca_ETag : string;
  sca_LastModified : string;
  sca_RawBodyHash : string;
  sca_CanonicalHash : string;
  sca_ParserVersion : string;
  sca_SchemaVersion : string;
  sca_CanonicalizerVersion : string;
  sca_Payload : string;
  sca_Manifest : SnapshotManifest;
  sca_Validation : ValidationReport;
  sca_Disposition : CandidateDisposition;
  sca_RejectionCode : string;
  sca_ConfirmationGroupUUID : string
}.

Record Snapshot := {
  sn_ID : Z;
  sn_TargetID : Z;
  sn_Ref : TargetRef;
  sn_Version : Z;
  sn_ValidationSeq : Z;
  sn_ContentHash : string;
  sn_Payload : string;
  sn_ContentFetchedAt : Z;
  sn_ValidatedAt : Z;
  sn_VerifiedAt : Z;
  sn_NextRunAt : Z;
  sn_MaxServeAge : Z;
  sn_ParserVersion : string;
  sn_SchemaVersion : string;
  sn_RawBodyHash : string;
  sn_Complete : bool;
  sn_Manifest : SnapshotManifest;
  sn_ValidationReport : ValidationReport
}.

Definition snapshot_Stale (s : Snapshot) (now : Z) : bool := time_After now (sn_NextRunAt s).

Definition snapshot_Expired (s : Snapshot) (now : Z) : bool :=
  if (sn_MaxServeAge s <=? 0) || time_IsZero (sn_ValidatedAt s) then true
  else sn_MaxServeAge s <? time_Sub now (sn_ValidatedAt s).

Record SnapshotMetadata := {
  md_Kind : SnapshotKind;
  md_ResourceKey : string;
  md_ParentKey : string;
  md_Version : Z;
  md_ValidationSeq : Z;
  md_ValidatedAt : Z;
  md_Stale : bool;
  md_QualityState : DataQualityState;
  md_Complete : bool;
  md_ParserVersion : string;
  md_EventSequence : Z
}.

Record HostPermit := {
  hp_ID : Z;
  hp_Host : string;
  hp_TargetID : Z;
  hp_LeaseGeneration : Z;
  hp_ExpiresAt : Z
}.

Record PermitDecision := {
  pd_Permit : option HostPermit;
  pd_RetryAt : Z;
  pd_Paused : bool
}.

(** The outcome of a scrape run, a string in the sources. *)
Inductive RunOutcome :=
| RChanged | RUnchanged | RNotModified | RRateLimited | RAuthError | RTransientError
| RNotFound | RPermanentError | RInvalidPayload | RCanceled | RQuarantined
| ROther (s : string).

#[export] Instance RunOutcome_eq_dec : EqDecision RunOutcome.
Proof. solve_decision. Defined.

Record HostObservation := {
  ho_Host : string;
  ho_Outcome : RunOutcome;
  ho_StatusCode : Z;
  ho_RetryAfter : Z;
  ho_Latency : Z;
  ho_ConsecutiveFailures : Z;
  ho_ObservedAt : Z
}.

(** * room.go: the QR-room state machine *)

Inductive RoomStatus := Idle | Running | Fetching | Warning | AuthExpired | Stopped.
#[export] Instance RoomStatus_eq_dec : EqDecision RoomStatus.
Proof. solve_decision. Defined.

Definition room_status_string (s : RoomStatus) : string :=
  match s with
  | Idle => "Idle" | Running => "Running" | Fetching => "Fetching"
  | Warning => "Warning" | AuthExpired => "AuthExpired" | Stopped => "Stopped"
  end.

Definition allowedTransitions (s : RoomStatus) : list RoomStatus :=
  match s with
  | Idle => [Running; Stopped]
  | Running => [Fetching; Stopped]
  | Fetching => [Running; Warning; AuthExpired; Stopped]
  | Warning => [Fetching; Stopped]
  | AuthExpired => [Fetching; Stopped]
  | Stopped => [Running]
  end.

Definition CanTransitionTo (s next : RoomStatus) : result DomainError unit :=
  if bool_decide (next ∈ allowedTransitions s) then Ok tt
  else Err (ErrTransition (room_status_string s) (room_status_string next)).

Inductive FetchErrorKind :=
| ErrKindAuthExpired | ErrKindNetwork | ErrKindInvalidPayload
| ErrKindRateLimited | ErrKindAuthConflict | ErrKindPoolExhausted.
#[export] Instance FetchErrorKind_eq_dec : EqDecision FetchErrorKind.
Proof. solve_decision. Defined.

Definition ToRoomStatus (k : FetchErrorKind) : RoomStatus :=
  match k with
  | ErrKindAuthExpired => AuthExpired
  | ErrKindRateLimited => Warning
  | ErrKindAuthConflict => Warning
  | ErrKindPoolExhausted => Warning
  | _ => Warning
  end.

Record Room := {
  rm_RoomID : string;
  rm_ClassID : string;
  rm_Name : option string;
  rm_Status : RoomStatus;
  rm_QRURL : option string;
  rm_ExpiresAt : option Z;
  rm_LastUpdatedAt : option Z;
  rm_WarningMessage : option string;
  rm_ErrorMessage : option string;
  rm_LastFetchAt : option Z;
  rm_UpstreamAttendanceLabel : option string;
  rm_UpstreamVerifiedAt : option Z;
  rm_UpstreamVerificationError : option string;
  rm_CreatedAt : Z
}.

Definition NewRoom (roomID classID : string) (name : option string) : Room :=
  {| rm_RoomID := roomID; rm_ClassID := classID; rm_Name := name; rm_Status := Idle;
     rm_QRURL := None; rm_ExpiresAt := None; rm_LastUpdatedAt := None;
     rm_WarningMessage := None; rm_ErrorMessage := None; rm_LastFetchAt := None;
     rm_UpstreamAttendanceLabel := None; rm_UpstreamVerifiedAt := None;
     rm_UpstreamVerificationError := None; rm_CreatedAt := 0 |}.

Definition set_status (s : RoomStatus) (r : Room) : Room :=
  {| rm_RoomID := rm_RoomID r; rm_ClassID := rm_ClassID r; rm_Name := rm_Name r;
     rm_Status := s; rm_QRURL := rm_QRURL r; rm_ExpiresAt := rm_ExpiresAt r;
     rm_LastUpdatedAt := rm_LastUpdatedAt r; rm_WarningMessage := rm_WarningMessage r;
     rm_ErrorMessage := rm_ErrorMessage r; rm_LastFetchAt := rm_LastFetchAt r;
     rm_UpstreamAttendanceLabel := rm_UpstreamAttendanceLabel r;
     rm_UpstreamVerifiedAt := rm_UpstreamVerifiedAt r;
     rm_UpstreamVerificationError := rm_UpstreamVerificationError r;
     rm_CreatedAt := rm_CreatedAt r |}.

(** [Room.TransitionTo] mutates the receiver only when the transition is allowed. *)
Definition TransitionTo (next : RoomStatus) (r : Room) : Room * result DomainError unit :=
  match CanTransitionTo (rm_Status r) next with
  | Err e => (r, Err e)
  | Ok _ => (set_status next r, Ok tt)
  end.

(** [(ttl * 3) / 4] on uint64. *)
Definition CalculateNextFetchDelay (ttl : Z) : Z := ((ttl * 3) mod 2 ^ 64) / 4.

(** * enrichment.go: roster identifiers *)

Record StudentProfile := {
  sp_StudentID : string;
  sp_StudentGuid : string;
  sp_FullName : string;
  sp_School : string
}.

Definition guid_step (m : gmap string string) (p : StudentProfile) : gmap string string :=
  if nonempty (sp_StudentID p) && nonempty (sp_StudentGuid p)
  then <[sp_StudentGuid p := sp_StudentID p]> m else m.

Definition buildGUIDToWCodeMap (profiles : list StudentProfile) : gmap string string :=
  foldl guid_step ∅ profiles.

Definition set_checkin_id (id : string) (s : StudentCheckin) : StudentCheckin :=
  {| sc_StudentID := id; sc_Name := sc_Name s; sc_Nickname := sc_Nickname s;
     sc_School := sc_School s; sc_AvatarURL := sc_AvatarURL s; sc_CheckedIn := sc_CheckedIn s;
     sc_CheckedInAt := sc_CheckedInAt s; sc_ParticipationPoints := sc_ParticipationPoints s |}.

Definition EnrichCheckinStudentIDWithWCode
    (students : list StudentCheckin) (profiles : list StudentProfile) : list StudentCheckin :=
  let guidMap := buildGUIDToWCodeMap profiles in
  if bool_decide (size guidMap = 0%nat) then students
  else map (λ s, match guidMap !! sc_StudentID s with
                 | Some wcode => set_checkin_id wcode s
                 | None => s
                 end) students.

Definition rosterIDs (students : list StudentCheckin) : gset string :=
  list_to_set (filter (λ id, id ≠ "") (map sc_StudentID students)).

Definition ResolveCheckinStudentID (requestedID : string)
    (students : list StudentCheckin) (profiles : list StudentProfile) : option string :=
  if bool_decide (requestedID = "") then None
  else if bool_decide (requestedID ∈ rosterIDs students) then Some requestedID
  else
    head (filter (λ g, g ∈ rosterIDs students)
      (map sp_StudentGuid
        (filter (λ p, sp_StudentID p = requestedID ∧ sp_StudentGuid p ≠ "") profiles))).

(** * Identity keys *)

Lemma append_cons c (s t : string) : String c s +:+ t = String c (s +:+ t).
Proof. done. Qed.

Lemma append_nil_l (t : string) : EmptyString +:+ t = t.
Proof. done. Qed.

(** Splitting at the first NUL is unambiguous. *)
Lemma split_at_nul a a' b b' :
  has_byte nul a = false → has_byte nul a' = false →
  a +:+ (nul_str +:+ b) = a' +:+ (nul_str +:+ b') → a = a' ∧ b = b'.
Proof.
  revert a'. induction a as [|c a IH]; intros [|c' a'] Ha Ha' E; cbn [has_byte] in *;
    unfold nul_str in E; rewrite ?append_cons, ?append_nil_l in E.
  - injection E as ->. done.
  - injection E as <- _. exfalso. apply orb_false_iff in Ha' as [Hc _].
    by rewrite bool_decide_eq_true_2 in Hc.
  - injection E as -> _. exfalso. apply orb_false_iff in Ha as [Hc _].
    by rewrite bool_decide_eq_true_2 in Hc.
  - injection E as -> E. apply orb_false_iff in Ha as [_ Ha].
    apply orb_false_iff in Ha' as [_ Ha']. by destruct (IH a' Ha Ha' E) as [-> ->].
Qed.

Lemma kind_string_no_nul k : kind_Valid k = true → has_byte nul (kind_string k) = false.
Proof. by destruct k. Qed.

Lemma kind_string_inj k k' :
  kind_Valid k = true → kind_Valid k' = true → kind_string k = kind_string k' → k = k'.
Proof. by destruct k, k'. Qed.

(** * Room transitions *)

Definition room_step (s s' : RoomStatus) : Prop := CanTransitionTo s s' = Ok tt.

Lemma room_step_spec s s' : room_step s s' ↔ s' ∈ allowedTransitions s.
Proof.
  unfold room_step, CanTransitionTo. case_bool_decide; naive_solver.
Qed.

Lemma TransitionTo_spec next r :
  TransitionTo next r =
    if bool_decide (next ∈ allowedTransitions (rm_Status r)) then (set_status next r, Ok tt)
    else (r, Err (ErrTransition (room_status_string (rm_Status r)) (room_status_string next))).
Proof. unfold TransitionTo, CanTransitionTo. by case_bool_decide. Qed.

(** * Roster identifiers *)

Lemma elem_of_rosterIDs id students :
  id ∈ rosterIDs students ↔ id ≠ "" ∧ ∃ s, s ∈ students ∧ sc_StudentID s = id.
Proof.
  unfold rosterIDs. rewrite elem_of_list_to_set, list_elem_of_filter, list_elem_of_fmap.
  naive_solver.
Qed.

Lemma guid_step_lookup m p g :
  guid_step m p !! g =
  if decide (sp_StudentGuid p = g ∧ sp_StudentID p ≠ "" ∧ g ≠ "")
  then Some (sp_StudentID p) else m !! g.
Proof.
  unfold guid_step, nonempty. repeat case_bool_decide; simpl; case_decide as Hd;
    try naive_solver; rewrite lookup_insert; case_decide; naive_solver.
Qed.

Lemma guid_map_foldl profiles m g :
  foldl guid_step m profiles !! g =
  match last (filter (λ p, sp_StudentGuid p = g ∧ sp_StudentID p ≠ "" ∧ g ≠ "") profiles) with
  | Some p => Some (sp_StudentID p)
  | None => m !! g
  end.
Proof.
  revert m. induction profiles as [|p ps IH]; intros m; [done|]. cbn [foldl].
  rewrite IH, filter_cons, guid_step_lookup.
  repeat case_decide; try done; rewrite ?last_cons; by destruct (last _).
Qed.

(** The map holds, for each GUID, the wcode of the last profile that carries both. *)
Lemma buildGUIDToWCodeMap_spec profiles g :
  buildGUIDToWCodeMap profiles !! g =
  sp_StudentID <$> last (filter (λ p, sp_StudentGuid p = g ∧ sp_StudentID p ≠ "" ∧ g ≠ "") profiles).
Proof. unfold buildGUIDToWCodeMap. rewrite guid_map_foldl. by destruct (last _). Qed.

Lemma last_elem_of {A} (l : list A) x : last l = Some x → x ∈ l.
Proof. intros [l' ->]%last_Some. apply elem_of_app. right. by constructor. Qed.

Lemma guid_map_profile profiles g w :
  buildGUIDToWCodeMap profiles !! g = Some w →
  ∃ p, p ∈ profiles ∧ sp_StudentGuid p = g ∧ sp_StudentID p = w ∧ w ≠ "" ∧ g ≠ "".
Proof.
  rewrite buildGUIDToWCodeMap_spec. intros (p & Hl & ->)%fmap_Some.
  apply last_elem_of, list_elem_of_filter in Hl. naive_solver.
Qed.

Lemma head_elem_of {A} (l : list A) x : head l = Some x → x ∈ l.
Proof. destruct l; naive_solver constructor. Qed.

Lemma head_filter_const {A} (P : A → Prop) `{!∀ x, Decision (P x)} (l : list A) x :
  x ∈ l → P x → (∀ y, y ∈ l → P y → y = x) → head (filter P l) = Some x.
Proof.
  intros Hx HP Hall. destruct (filter P l) as [|y l'] eqn:E.
  - assert (x ∈ filter P l) as Hf by (by apply list_elem_of_filter). rewrite E in Hf. by inversion Hf.
  - simpl. f_equal. assert (y ∈ filter P l) as Hf by (rewrite E; constructor).
    apply list_elem_of_filter in Hf as [??]. by apply Hall.
Qed.

Lemma enrich_lookup students profiles i s :
  students !! i = Some s →
  EnrichCheckinStudentIDWithWCode students profiles !! i =
    Some (match buildGUIDToWCodeMap profiles !! sc_StudentID s with
          | Some w => set_checkin_id w s | None => s end).
Proof.
  intros Hi. unfold EnrichCheckinStudentIDWithWCode. case_bool_decide as Hs.
  - apply map_size_empty_inv in Hs. rewrite Hs, lookup_empty. done.
  - change (map ?f students) with (f <$> students). by rewrite list_lookup_fmap, Hi.
Qed.

(** * Properties *)

(** Two valid target references whose parent and resource keys contain no NUL
    byte have equal identity keys only if they are the same reference, so the key
    identifies a target (kind, parent, resource and host). *)
Lemma IdentityKey_injective (r r' : TargetRef) :
  kind_Valid (ref_Kind r) = true → kind_Valid (ref_Kind r') = true →
  has_byte nul (ref_ParentKey r) = false → has_byte nul (ref_ParentKey r') = false →
  has_byte nul (ref_ResourceKey r) = false → has_byte nul (ref_ResourceKey r') = false →
  IdentityKey r = IdentityKey r' → r = r'.
Proof.
  intros Hk Hk' Hp Hp' Hr Hr' E. unfold IdentityKey in E.
  apply split_at_nul in E as [Ek E]; [|by apply kind_string_no_nul ..].
  apply split_at_nul in E as [Ep E]; [|done ..].
  apply split_at_nul in E as [Er Eh]; [|done ..].
  apply kind_string_inj in Ek; [|done ..].
  destruct r, r'; simpl in *; congruence.
Qed.

Lemma IdentityKey_injective_witness :
  mkRef "h" SnapshotSessionDetail "s1" "c1" = mkRef "h" SnapshotSessionDetail "s1" "c1".
Proof. apply IdentityKey_injective; vm_compute; reflexivity. Defined.

(** Along any sequence of transitions the room state machine accepts, a room
    that left [Idle] never returns to it, [Warning] and [AuthExpired] are entered
    from [Fetching] only, every room that is not stopped can be stopped in one
    transition, and a refused transition leaves the room unchanged. *)
Lemma room_transitions_sound (s s' : RoomStatus) :
  rtc room_step s s' →
  (s ≠ Idle → s' ≠ Idle) ∧
  (s' ≠ Stopped → room_step s' Stopped) ∧
  (∀ t, room_step s' t → t = Warning ∨ t = AuthExpired → s' = Fetching) ∧
  (∀ r next e, (TransitionTo next r).2 = Err e → (TransitionTo next r).1 = r).
Proof.
  intros Hs. repeat split.
  - induction Hs as [|x y z Hxy _ IH]; [done|]. intros Hx. apply IH.
    apply room_step_spec, list_elem_of_In in Hxy. destruct x, y; simpl in Hxy; intuition congruence.
  - intros H. apply room_step_spec, list_elem_of_In. destruct s'; simpl; tauto.
  - intros t Ht Hcase. apply room_step_spec, list_elem_of_In in Ht.
    destruct s', t; simpl in Ht; intuition congruence.
  - intros r next e. rewrite TransitionTo_spec. by case_bool_decide.
Qed.

Lemma room_transitions_sound_witness : room_step Warning Stopped.
Proof.
  apply (room_transitions_sound Running Warning); [|done].
  apply (rtc_l _ _ Fetching); [vm_compute; reflexivity|].
  apply rtc_once. vm_compute. reflexivity.
Defined.

(** The identifier shown to a client resolves back to the roster: replacing
    roster GUIDs by profile wcodes and then resolving the published identifier gives
    the roster identifier the student had, when a wcode names one GUID and does not
    collide with another roster identifier. *)
Lemma enrich_resolve_roundtrip students profiles i s s' :
  students !! i = Some s →
  sc_StudentID s ≠ "" →
  EnrichCheckinStudentIDWithWCode students profiles !! i = Some s' →
  (∀ p q, p ∈ profiles → q ∈ profiles → sp_StudentID p = sp_StudentID q →
          sp_StudentGuid p ≠ "" → sp_StudentGuid q ≠ "" → sp_StudentGuid p = sp_StudentGuid q) →
  (∀ p, p ∈ profiles → sp_StudentID p ∈ rosterIDs students → sp_StudentID p = sp_StudentGuid p) →
  ResolveCheckinStudentID (sc_StudentID s') students profiles = Some (sc_StudentID s).
Proof.
  intros Hi Hne He Huniq Hcoll. rewrite (enrich_lookup _ _ _ _ Hi) in He.
  assert (Hroster : sc_StudentID s ∈ rosterIDs students).
  { apply elem_of_rosterIDs. split; [done|]. exists s. split; [|done].
    by apply list_elem_of_lookup_2 in Hi. }
  unfold ResolveCheckinStudentID.
  destruct (buildGUIDToWCodeMap profiles !! sc_StudentID s) as [w|] eqn:Hw;
    injection He as <-; simpl.
  - apply guid_map_profile in Hw as (p & Hp & Hg & Hid & Hwne & _).
    rewrite bool_decide_eq_false_2 by done. case_bool_decide as Hin.
    + f_equal. rewrite <- Hid in Hin |- *. rewrite <- Hg. by apply Hcoll.
    + apply head_filter_const; [|done|].
      * apply list_elem_of_fmap. exists p. split; [done|]. apply list_elem_of_filter.
        rewrite Hg. naive_solver.
      * intros y (q & -> & Hq)%list_elem_of_fmap _.
        apply list_elem_of_filter in Hq as [[Hqi Hqg] Hq].
        rewrite <- Hg. symmetry. apply Huniq; try done; congruence.
  - rewrite bool_decide_eq_false_2 by done. by rewrite bool_decide_eq_true_2 by done.
Qed.

Definition demo_student (id : string) : StudentCheckin :=
  {| sc_StudentID := id; sc_Name := "Ann"; sc_Nickname := ""; sc_School := "";
     sc_AvatarURL := ""; sc_CheckedIn := true; sc_CheckedInAt := None;
     sc_ParticipationPoints := 0 |}.
Definition demo_profile : StudentProfile :=
  {| sp_StudentID := "W123"; sp_StudentGuid := "guid-1"; sp_FullName := "Ann"; sp_School := "" |}.

Lemma enrich_resolve_roundtrip_witness :
  ResolveCheckinStudentID "W123" [demo_student "guid-1"] [demo_profile] = Some "guid-1".
Proof.
  apply (enrich_resolve_roundtrip [demo_student "guid-1"] [demo_profile] 0
           (demo_student "guid-1") (demo_student "W123")).
  - reflexivity.
  - discriminate.
  - vm_compute. reflexivity.
  - intros p q [->|H]%elem_of_cons [->|H']%elem_of_cons; try (by inversion H); by try inversion H'.
  - intros p [->|H]%elem_of_cons; [|by inversion H].
    intros (_ & s & [->|Hs]%elem_of_cons & Hid)%elem_of_rosterIDs; [discriminate Hid|by inversion Hs].
Defined.
