(* ===== verification/Policy.v ===== *)
(** The adaptive schedule of the scraper ([internal/scraper/policy.go]): per-kind
    policies, the next interval after an outcome, failure back-off, host pauses after
    HTTP 429 and jitter.  Durations are nanoseconds. *)

From stdpp Require Import base list numbers strings.
From Stdlib Require Import ZArith QArith Lia Lqa.
From S2P Require Import Prelude Float64 Domain.

Local Open Scope Z_scope.
Local Open Scope stdpp_scope.

Inductive Outcome := OutcomeChanged | OutcomeUnchanged | OutcomeNotModified.

Record Policy := mkPolicy {
  p_Initial : Z;
  p_Min : Z;
  p_Max : Z;
  p_MaxServeAge : Z
}.

Record Schedule := {
  sch_Interval : Z;
  sch_History : list bool
}.

Definition PolicyFor (kind : SnapshotKind) (status : SessionStatus) : Policy :=
  match kind with
  | SnapshotCourseCatalog | SnapshotCourseDetail =>
      mkPolicy Hour (15 * Minute) (24 * Hour) (48 * Hour)
  | SnapshotSessionDetail =>
      match status with
      | SessionStatusDone => mkPolicy (12 * Hour) Hour (30 * 24 * Hour) (45 * 24 * Hour)
      | SessionStatusNotStarted => mkPolicy Hour (15 * Minute) (12 * Hour) (24 * Hour)
      | _ => mkPolicy (5 * Minute) Minute (30 * Minute) (2 * Hour)
      end
  | SnapshotStudentProfiles =>
      mkPolicy (24 * Hour) (6 * Hour) (7 * 24 * Hour) (14 * 24 * Hour)
  | SnapshotOther _ => mkPolicy 0 0 0 0
  end.

Definition allUnchanged (history : list bool) : bool := negb (existsb id history).

Definition NextSchedule (policy : Policy) (current : Z) (history : list bool)
    (outcome : Outcome) : Schedule :=
  let current := if current <=? 0 then p_Initial policy else current in
  let current := if current <=? 0 then p_Min policy else current in
  let changed := match outcome with OutcomeChanged => true | _ => false end in
  let nextHistory := history ++ [changed] in
  let nextHistory := if (10 <? length nextHistory)%nat then last_n 10 nextHistory else nextHistory in
  let interval :=
    if changed then Z.quot current 2
    else if (length nextHistory =? 10)%nat && allUnchanged nextHistory then wrap64 (current * 2)
    else int64_of_integral (math_Round (fmul (f_of_int current) (3 # 2))) in
  let interval :=
    if (0 <? p_Min policy) && (interval <? p_Min policy) then p_Min policy else interval in
  let interval :=
    if (0 <? p_Max policy) && (p_Max policy <? interval) then p_Max policy else interval in
  {| sch_Interval := interval; sch_History := nextHistory |}.

Definition FailureDelay (consecutiveFailures : Z) : Z :=
  if consecutiveFailures <=? 1 then Minute
  else if 7 <? consecutiveFailures then Hour
  else
    let delay := wrap64 (Minute * Z.shiftl 1 (consecutiveFailures - 1)) in
    if Hour <? delay then Hour else delay.

Definition HostPauseFor429 (now : Z) (last429 : option Z) (retryAfter : Z) : Z :=
  let pause := 15 * Minute in
  let pause := if pause <? retryAfter then retryAfter else pause in
  match last429 with
  | Some l =>
      if negb (time_IsZero l) && (time_Sub now l <=? Hour) then
        (if pause <? Hour then Hour else pause)
      else pause
  | None => pause
  end.

(** A [*rand.Rand] is what its next calls return: [Float64] a float in [0,1) and
    [Int63n n] an integer in [0,n). *)
Record Rng := { rng_Float64 : Q; rng_Int63n : Z → Z }.
Definition rng_ok (r : Rng) : Prop :=
  (0 <= rng_Float64 r < 1)%Q ∧ ∀ n, 0 < n → 0 ≤ rng_Int63n r n < n.

Definition ApplyJitter (base : Z) (fraction : Q) (rng : option Rng) : Z :=
  match rng with
  | None => base
  | Some r =>
      if (base <=? 0) || Qle_bool fraction 0 then base
      else
        let fraction := if fgt fraction 1 then 1%Q else fraction in
        let offset :=
          fmul (fmul (fsub (fmul (rng_Float64 r) 2) 1) fraction) (f_of_int base) in
        let result := int64_of_integral (math_Round (fadd (f_of_int base) offset)) in
        if result <? 0 then 0 else result
  end.

Definition FullJitter (cap : Z) (rng : option Rng) : Z :=
  match rng with
  | None => 0
  | Some r => if cap <=? 0 then 0 else rng_Int63n r (wrap64 (cap + 1))
  end.

Definition LateCorrectionPolicy (sessionCompletedAt now : Z) : Policy :=
  let age := time_Sub now sessionCompletedAt in
  if age <? 24 * Hour then mkPolicy (5 * Minute) (5 * Minute) (30 * Minute) 0
  else if age <? 7 * 24 * Hour then mkPolicy (1 * Hour) (1 * Hour) (6 * Hour) 0
  else if age <? 30 * 24 * Hour then mkPolicy (24 * Hour) (24 * Hour) (24 * Hour) 0
  else mkPolicy (7 * 24 * Hour) (7 * 24 * Hour) (7 * 24 * Hour) 0.

(** The float constant [0.1] of the call sites. *)
Definition tenth : Q := rne (1 # 10).

(** * Lemmas *)

Definition policy_ok (p : Policy) : Prop :=
  0 < p_Min p ∧ p_Min p ≤ p_Initial p ∧ p_Initial p ≤ p_Max p ∧ p_Max p ≤ p_MaxServeAge p.

Definition clamp_interval (p : Policy) (i : Z) : Z := Z.min (p_Max p) (Z.max (p_Min p) i).

(** The interval the rules prescribe, in exact integer arithmetic. *)
Definition ideal_interval (current : Z) (history : list bool) (changed : bool) : Z :=
  if changed then current / 2
  else if (length history =? 10)%nat && allUnchanged history then 2 * current
  else (3 * current + 1) / 2.

Lemma PolicyFor_ok kind status : kind_Valid kind = true → policy_ok (PolicyFor kind status).
Proof.
  unfold policy_ok, PolicyFor, Hour, Minute, Second. destruct kind; try done; intros _; simpl; try lia.
  destruct status; simpl; lia.
Qed.

#[export] Hint Resolve PolicyFor_ok : godb.

Lemma clamp_ifs mn mx i :
  0 < mn → mn ≤ mx →
  (let j := if (0 <? mn) && (i <? mn) then mn else i in
   if (0 <? mx) && (mx <? j) then mx else j) = Z.min mx (Z.max mn i).
Proof.
  intros H1 H2. cbv zeta.
  destruct (0 <? mn) eqn:?, (i <? mn) eqn:?; simpl;
    destruct (0 <? mx) eqn:?; simpl; match goal with |- context [if ?b then _ else _] => destruct b eqn:? | _ => idtac end;
    bool_to_prop; lia.
Qed.

Lemma history_length (history : list bool) (b : bool) :
  (length (if (10 <? length (history ++ [b]))%nat then last_n 10 (history ++ [b])
           else history ++ [b]) ≤ 10)%nat.
Proof.
  destruct (10 <? _)%nat eqn:E.
  - rewrite last_n_length. lia.
  - apply Nat.ltb_ge in E. done.
Qed.

Lemma history_last_n (history : list bool) (b : bool) :
  (if (10 <? length (history ++ [b]))%nat then last_n 10 (history ++ [b]) else history ++ [b])
  = last_n 10 (history ++ [b]).
Proof.
  destruct (10 <? _)%nat eqn:E; [done|]. apply Nat.ltb_ge in E. by rewrite last_n_all.
Qed.

(** One and a half times an interval below 2^53 / 3 is exact before [math.Round]. *)
Lemma growth_exact current :
  0 < current → 3 * current ≤ 2 ^ 53 →
  int64_of_integral (math_Round (fmul (f_of_int current) (3 # 2))) = (3 * current + 1) / 2.
Proof.
  intros H0 Hb.
  assert (E : (fmul (f_of_int current) (3 # 2) == inject_Z (3 * current) * p2 (-1))%Q).
  { unfold fmul. rewrite f_of_int_exact by lia.
    assert (inject_Z current * (3 # 2) == inject_Z (3 * current) * p2 (-1))%Q as ->.
    { rewrite inject_Z_mult. change (p2 (-1)) with (1 # 2). ring. }
    destruct (rne_cases (inject_Z (3 * current) * p2 (-1))) as [[E _]|[[_ E]|[E _]]].
    - exfalso. change (p2 (-1)) with (1 # 2) in E. unfold Qeq in E; simpl in E. lia.
    - rewrite E. apply rne_pos_dyadic; lia.
    - exfalso. change (p2 (-1)) with (1 # 2) in E. unfold Qlt in E; simpl in E. lia. }
  rewrite E. change (p2 (-1)) with (1 # 2).
  assert (R : math_Round (inject_Z (3 * current) * (1 # 2)) = (3 * current + 1) / 2).
  { unfold math_Round.
    assert (Hle : Qle_bool 0 (inject_Z (3 * current) * (1 # 2)) = true).
    { apply Qle_bool_iff. unfold Qle; simpl. lia. }
    rewrite Hle.
    assert (Hq : (inject_Z (3 * current) * (1 # 2) + (1 # 2) == (3 * current + 1) # 2)%Q).
    { unfold Qeq; simpl. lia. }
    rewrite (Qround.Qfloor_comp _ _ Hq). reflexivity. }
  rewrite R. apply int64_of_integral_id. unfold in_int64, min_int64, max_int64.
  pose proof (Z.div_le_mono (3 * current + 1) (2 ^ 53 + 1) 2 ltac:(lia) ltac:(lia)) as Hd.
  change ((2 ^ 53 + 1) / 2) with (2 ^ 52) in Hd.
  pose proof (Z.div_pos (3 * current + 1) 2). lia.
Qed.

(** A tenth of a base, as a float64 factor, stays below the next integer tenth. *)
Lemma tenth_of base : 0 < base → base ≤ 2 ^ 52 → (tenth * inject_Z base <= inject_Z (base / 10 + 1))%Q.
Proof.
  intros H0 Hb. set (N := base / 10 + 1).
  assert (HN2 : base < 10 * N).
  { unfold N. pose proof (Z.div_mod base 10 ltac:(lia)). pose proof (Z.mod_pos_bound base 10 ltac:(lia)). lia. }
  assert (Tb : (tenth <= (1 # 10) + (1 # (2 ^ 56)))%Q) by (apply Qle_bool_iff; vm_compute; reflexivity).
  assert (Hbase : (inject_Z base <= inject_Z (2 ^ 52))%Q) by (rewrite <- Zle_Qle; lia).
  assert (HbN : (inject_Z base <= inject_Z (10 * N - 1))%Q) by (rewrite <- Zle_Qle; lia).
  assert (Hb0 : (0 < inject_Z base)%Q) by (change 0%Q with (inject_Z 0); rewrite <- Zlt_Qlt; lia).
  unfold Zminus in HbN. rewrite inject_Z_plus, inject_Z_mult in HbN.
  change (inject_Z 10) with 10%Q in HbN. change (inject_Z (- (1))) with (-1)%Q in HbN.
  set (eps := (1 # (2 ^ 56))%Q) in *.
  apply Qle_trans with (((1 # 10) + eps) * inject_Z base)%Q; [apply Qmult_le_compat_r; lra|].
  assert (eps * inject_Z base <= (1 # 10))%Q.
  { apply Qle_trans with (eps * inject_Z (2 ^ 52))%Q.
    - rewrite !(Qmult_comm eps). apply Qmult_le_compat_r; [lra|]. discriminate.
    - apply Qle_bool_iff. vm_compute. reflexivity. }
  clearbody eps. lra.
Qed.

(** A jittered value stays within a tenth (rounded up) of its base. *)
Lemma jitter_offset_bounds base u :
  0 < base → base ≤ 2 ^ 52 → (0 <= u < 1)%Q →
  let off := fmul (fmul (fsub (fmul u 2) 1) tenth) (f_of_int base) in
  (inject_Z (- (base / 10 + 1)) <= off <= inject_Z (base / 10 + 1))%Q.
Proof.
  intros H0 Hb Hu. cbv zeta. set (N := base / 10 + 1).
  assert (HN : 0 < N ∧ N ≤ 2 ^ 52 ∧ base < 10 * N).
  { unfold N. pose proof (Z.div_mod base 10 ltac:(lia)).
    pose proof (Z.mod_pos_bound base 10 ltac:(lia)). lia. }
  destruct HN as (HN0 & HN1 & HN2).
  assert (A : (inject_Z 0 <= fmul u 2 <= inject_Z 2)%Q).
  { unfold fmul. split; [apply rne_ge_int | apply rne_le_int]; try lia;
      change (inject_Z 0) with 0%Q; change (inject_Z 2) with 2%Q; lra. }
  assert (B : (inject_Z (-1) <= fsub (fmul u 2) 1 <= inject_Z 1)%Q).
  { unfold fsub. change (inject_Z 0) with 0%Q in A; change (inject_Z 2) with 2%Q in A.
    split; [apply rne_ge_int | apply rne_le_int]; try lia;
      change (inject_Z (-1)) with (-1)%Q; change (inject_Z 1) with 1%Q; lra. }
  set (w := fsub (fmul u 2) 1) in *.
  change (inject_Z (-1)) with (-1)%Q in B; change (inject_Z 1) with 1%Q in B.
  assert (T : (0 < tenth)%Q) by reflexivity.
  assert (C : (- tenth <= fmul w tenth <= tenth)%Q).
  { unfold fmul. split.
    - apply Qle_trans with (rne (- tenth)); [apply Qle_bool_iff; vm_compute; reflexivity|].
      apply rne_mono. nra.
    - apply Qle_trans with (rne tenth); [|apply Qle_bool_iff; vm_compute; reflexivity].
      apply rne_mono. nra. }
  rewrite f_of_int_exact by lia. set (v := fmul w tenth) in *.
  pose proof (tenth_of base H0 Hb) as D. fold N in D.
  assert (Hb0 : (0 < inject_Z base)%Q) by (change 0%Q with (inject_Z 0); rewrite <- Zlt_Qlt; lia).
  unfold fmul. split.
  - apply rne_ge_int; [lia|]. rewrite inject_Z_opp. nra.
  - apply rne_le_int; [lia|]. nra.
Qed.

Lemma ApplyJitter_bounds base r :
  0 < base → base ≤ 2 ^ 52 → rng_ok r →
  base - (base / 10 + 1) ≤ ApplyJitter base tenth (Some r) ≤ base + (base / 10 + 1)
  ∧ 0 ≤ ApplyJitter base tenth (Some r).
Proof.
  intros H0 Hb [Hu _]. pose proof (jitter_offset_bounds base _ H0 Hb Hu) as [L U].
  unfold ApplyJitter.
  destruct (base <=? 0) eqn:E; bool_to_prop; [lia|].
  change (Qle_bool tenth 0) with false. change (fgt tenth 1) with false. cbn [orb].
  set (off := fmul _ (f_of_int base)) in *.
  assert (HN : 0 ≤ base / 10) by (apply Z.div_pos; lia).
  assert (Hdiv : 10 * (base / 10) ≤ base) by (apply Z.mul_div_le; lia).
  assert (S1 : (inject_Z (base - (base / 10 + 1)) <= fadd (f_of_int base) off)%Q).
  { unfold fadd. apply rne_ge_int; [lia|]. rewrite f_of_int_exact by lia.
    unfold Zminus. rewrite inject_Z_plus. lra. }
  assert (S2 : (fadd (f_of_int base) off <= inject_Z (base + (base / 10 + 1)))%Q).
  { unfold fadd. apply rne_le_int; [lia|]. rewrite f_of_int_exact by lia.
    rewrite inject_Z_plus. lra. }
  set (x := fadd (f_of_int base) off) in *. clearbody x.
  destruct (Qle_bool 0 x) eqn:Hx.
  - apply Qle_bool_iff in Hx.
    pose proof (math_Round_le x _ Hx S2). pose proof (math_Round_ge x _ Hx S1).
    pose proof (math_Round_ge x 0 Hx Hx).
    rewrite int64_of_integral_id by (unfold in_int64, min_int64, max_int64; lia).
    destruct (math_Round x <? 0) eqn:?; bool_to_prop; lia.
  - (* only a base below two units can round down to a negative value *)
    assert (Hneg : (x < 0)%Q).
    { apply Qnot_le_lt. intros G. apply Qle_bool_iff in G. congruence. }
    assert (Hb1 : base - (base / 10 + 1) < 0).
    { rewrite Zlt_Qlt. change (inject_Z 0) with 0%Q. lra. }
    assert (base / 10 = base ∨ base ≤ 0) as [Heq|]; [|exfalso|lia].
    { assert (base / 10 < base ∨ base / 10 = base) as [G|G] by lia; [lia|by left]. }
    assert (base / 10 < base) by (apply Z.div_lt; lia). lia.
Qed.

Lemma NextSchedule_interval policy current history outcome :
  0 < p_Min policy → p_Min policy ≤ p_Max policy →
  p_Min policy ≤ sch_Interval (NextSchedule policy current history outcome) ≤ p_Max policy ∧
  (length (sch_History (NextSchedule policy current history outcome)) ≤ 10)%nat.
Proof.
  intros Hm Hx. unfold NextSchedule. cbn [sch_Interval sch_History]. split; [|apply history_length].
  pose proof (clamp_ifs (p_Min policy) (p_Max policy)) as C. cbv zeta in C.
  cbv zeta. rewrite C by lia. lia.
Qed.

(** The back-off in closed form. *)
Lemma FailureDelay_closed k : FailureDelay k = Z.min Hour (Minute * 2 ^ (Z.min (Z.max k 1) 8 - 1)).
Proof.
  unfold FailureDelay.
  destruct (k <=? 1) eqn:E1; bool_to_prop.
  { replace (Z.min (Z.max k 1) 8) with 1 by lia. reflexivity. }
  destruct (7 <? k) eqn:E2; bool_to_prop.
  { replace (Z.min (Z.max k 1) 8) with 8 by lia. reflexivity. }
  assert (k = 2 ∨ k = 3 ∨ k = 4 ∨ k = 5 ∨ k = 6 ∨ k = 7) as Hk by lia.
  destruct Hk as [->|[->|[->|[->|[->| ->]]]]]; vm_compute; reflexivity.
Qed.

Lemma FailureDelay_range n : Minute ≤ FailureDelay n ≤ Hour.
Proof.
  rewrite FailureDelay_closed. assert (1 ≤ 2 ^ (Z.min (Z.max n 1) 8 - 1)).
  { change 1 with (2 ^ 0) at 1. apply Z.pow_le_mono_r; lia. }
  unfold Hour, Minute, Second. lia.
Qed.

(** * Properties *)

(** The next interval is exactly what the rules say: half of the current one after
    a change, doubled after ten unchanged validations in a row, one and a half times it
    (rounded half up) otherwise, clamped to the policy; the history keeps the last ten
    outcomes.  The float64 arithmetic of the code loses nothing below 2^53 / 3
    nanoseconds (34 days), which covers every policy of the program. *)
Lemma NextSchedule_exact policy current history outcome :
  policy_ok policy → 0 < current → 3 * current ≤ 2 ^ 53 →
  let changed := match outcome with OutcomeChanged => true | _ => false end in
  let h := last_n 10 (history ++ [changed]) in
  NextSchedule policy current history outcome =
    {| sch_Interval := clamp_interval policy (ideal_interval current h changed);
       sch_History := h |}.
Proof.
  intros (Hm & Hi & Hx & _) H0 Hb changed h. unfold NextSchedule. cbv zeta.
  fold changed. rewrite history_last_n. fold h.
  rewrite (proj2 (Z.leb_gt current 0) H0). rewrite (proj2 (Z.leb_gt current 0) H0).
  f_equal. unfold clamp_interval. rewrite <- (clamp_ifs (p_Min policy)) by lia. cbv zeta.
  assert (E : (if changed then Z.quot current 2
     else if (length h =? 10)%nat && allUnchanged h then wrap64 (current * 2)
     else int64_of_integral (math_Round (fmul (f_of_int current) (3 # 2))))
     = ideal_interval current h changed).
  { unfold ideal_interval. destruct changed; [apply Z.quot_div_nonneg; lia|].
    destruct (_ && _); [|by apply growth_exact].
    rewrite wrap64_id by (unfold in_int64, min_int64, max_int64; lia). lia. }
  by rewrite E.
Qed.

Lemma NextSchedule_exact_witness :
  NextSchedule (PolicyFor SnapshotCourseCatalog SessionStatusActive) Hour [] OutcomeUnchanged =
    {| sch_Interval := 90 * Minute; sch_History := [false] |}.
Proof.
  apply (NextSchedule_exact (PolicyFor SnapshotCourseCatalog SessionStatusActive) Hour []
           OutcomeUnchanged); [by apply PolicyFor_ok | vm_compute; reflexivity | vm_compute; discriminate].
Defined.

(** Whatever the stored interval and history are (zero, negative or overflowing
    included), the scheduled interval lies within the policy's bounds and the history
    holds at most ten outcomes, the last one first-hand. *)
Lemma NextSchedule_bounds policy current history outcome :
  0 < p_Min policy → p_Min policy ≤ p_Max policy →
  p_Min policy ≤ sch_Interval (NextSchedule policy current history outcome) ≤ p_Max policy ∧
  (length (sch_History (NextSchedule policy current history outcome)) ≤ 10)%nat ∧
  last (sch_History (NextSchedule policy current history outcome)) =
    Some (match outcome with OutcomeChanged => true | _ => false end).
Proof.
  intros Hm Hx. destruct (NextSchedule_interval policy current history outcome Hm Hx) as [Hi Hl].
  split_and!; try done; try lia.
  - unfold NextSchedule. cbn [sch_History]. set (b := match outcome with OutcomeChanged => true | _ => false end).
    rewrite history_last_n. unfold last_n.
    rewrite drop_app_le; [by rewrite last_snoc|]. rewrite length_app. simpl. lia.
Qed.

Lemma NextSchedule_bounds_witness :
  p_Min (PolicyFor SnapshotSessionDetail SessionStatusActive) ≤
  sch_Interval (NextSchedule (PolicyFor SnapshotSessionDetail SessionStatusActive) (-7) [] OutcomeChanged).
Proof.
  apply (NextSchedule_bounds (PolicyFor SnapshotSessionDetail SessionStatusActive) (-7) [] OutcomeChanged);
    vm_compute; done.
Defined.

(** Failure back-off doubles from one minute per consecutive failure up to one
    hour, is monotone in the number of failures, and its multiplication never overflows. *)
Lemma FailureDelay_spec n :
  (1 ≤ n → FailureDelay n = Z.min Hour (Minute * 2 ^ (Z.min n 8 - 1))) ∧
  (∀ m, m ≤ n → FailureDelay m ≤ FailureDelay n) ∧
  Minute ≤ FailureDelay n ≤ Hour.
Proof.
  repeat split.
  - intros Hn. rewrite FailureDelay_closed. by replace (Z.max n 1) with n by lia.
  - intros m Hm. rewrite !FailureDelay_closed. apply Z.min_le_compat_l, Z.mul_le_mono_nonneg_l;
      [vm_compute; discriminate|]. apply Z.pow_le_mono_r; lia.
  - apply FailureDelay_range.
  - apply FailureDelay_range.
Qed.

Lemma FailureDelay_spec_witness : FailureDelay 4 = 8 * Minute.
Proof. destruct (FailureDelay_spec 4) as [E _]. by rewrite E. Defined.
