(* ===== verification/Canonical.v ===== *)
(** Canonicalization of scrape values ([internal/scraper/canonical.go]): the stable
    orders, the timestamp normalisation, the size limit and the hash.

    [encoding/json], [crypto/sha256] and RFC 3339 parsing are used as functions; the
    class [GoLib] names them, [GoLibLaws] states what the code relies on. *)

From stdpp Require Import base list numbers strings gmap sorting.
From Stdlib Require Import ZArith QArith Lia.
From S2P Require Import Prelude Domain.

Local Open Scope Z_scope.
Local Open Scope stdpp_scope.

(** The dynamic types a fetched [any] can have. *)
Inductive Value :=
| VCourses (l : list CourseSummary)
| VCourseDetail (d : CourseDetail)
| VCourseDetailPtr (d : option CourseDetail)
| VSessionDetail (d : SessionDetail)
| VSessionDetailPtr (d : option SessionDetail)
| VProfiles (l : list StudentProfile)
| VNil
| VOther.

Class GoLib := {
  json_Marshal : Value → option string;
  json_MarshalMetadata : SnapshotMetadata → string;
  json_Unmarshal : SnapshotKind → string → option Value;
  json_Valid : string → bool;
  sha256_Sum256 : string → string;
  rfc3339_Parse : string → option Z;
  rfc3339_FormatUTC : Z → string
}.

(** Documented behaviour: a UTC instant that was parsed prints as RFC 3339 text that
    parses back to it, and what [json.Marshal] returns is a valid JSON text. *)
Class GoLibLaws `{GoLib} : Prop := {
  rfc3339_roundtrip : ∀ s t, rfc3339_Parse s = Some t →
    rfc3339_Parse (rfc3339_FormatUTC t) = Some t;
  marshal_valid : ∀ v p, json_Marshal v = Some p → p ≠ "" ∧ json_Valid p = true
}.

Inductive CanonError :=
| CanonLimit
| CanonType (k : SnapshotKind)
| CanonTypedNil (k : SnapshotKind)
| CanonMarshal (k : SnapshotKind)
| CanonTooLarge (k : SnapshotKind)
| CanonUnknownKind (k : SnapshotKind).

(** ** The comparisons of the four [sort.SliceStable] calls *)

Definition less_course : CourseSummary → CourseSummary → bool :=
  lex_by str_lt cs_CourseID (lex_by str_lt cs_Name no_less).
Definition less_session : SessionSummary → SessionSummary → bool :=
  lex_by Z.ltb ss_SessionNumber (lex_by str_lt ss_SessionID no_less).
Definition less_student : StudentCheckin → StudentCheckin → bool :=
  lex_by str_lt sc_StudentID (lex_by str_lt sc_Name no_less).
Definition less_profile : StudentProfile → StudentProfile → bool :=
  lex_by str_lt sp_StudentGuid (lex_by str_lt sp_StudentID (lex_by str_lt sp_FullName no_less)).

Section canonical.
Context `{GoLib}.

Definition normalizeTimestampString (value : string) : string :=
  match rfc3339_Parse value with
  | None => value
  | Some parsed => rfc3339_FormatUTC parsed
  end.

Definition normalize_student (s : StudentCheckin) : StudentCheckin :=
  {| sc_StudentID := sc_StudentID s; sc_Name := sc_Name s; sc_Nickname := sc_Nickname s;
     sc_School := sc_School s; sc_AvatarURL := sc_AvatarURL s; sc_CheckedIn := sc_CheckedIn s;
     sc_CheckedInAt := normalizeTimestampString <$> sc_CheckedInAt s;
     sc_ParticipationPoints := sc_ParticipationPoints s |}.

Definition canonical_course (d : CourseDetail) : CourseDetail :=
  {| cd_Summary := cd_Summary d; cd_Sessions := sort_stable less_session (cd_Sessions d) |}.

Definition canonical_session (d : SessionDetail) : SessionDetail :=
  {| sd_Summary := sd_Summary d;
     sd_Students := sort_stable less_student (map normalize_student (sd_Students d));
     sd_QRActive := sd_QRActive d;
     sd_QRExpiresAt := normalizeTimestampString <$> sd_QRExpiresAt d |}.

Definition canonicalValue (kind : SnapshotKind) (value : Value) : result CanonError Value :=
  match kind with
  | SnapshotCourseCatalog =>
      match value with
      | VCourses courses => Ok (VCourses (sort_stable less_course courses))
      | _ => Err (CanonType kind)
      end
  | SnapshotCourseDetail =>
      match value with
      | VCourseDetail d => Ok (VCourseDetail (canonical_course d))
      | VCourseDetailPtr None => Err (CanonTypedNil kind)
      | VCourseDetailPtr (Some d) => Ok (VCourseDetail (canonical_course d))
      | _ => Err (CanonType kind)
      end
  | SnapshotSessionDetail =>
      match value with
      | VSessionDetail d => Ok (VSessionDetail (canonical_session d))
      | VSessionDetailPtr None => Err (CanonTypedNil kind)
      | VSessionDetailPtr (Some d) => Ok (VSessionDetail (canonical_session d))
      | _ => Err (CanonType kind)
      end
  | SnapshotStudentProfiles =>
      match value with
      | VProfiles profiles => Ok (VProfiles (sort_stable less_profile profiles))
      | _ => Err (CanonType kind)
      end
  | SnapshotOther _ => Err (CanonUnknownKind kind)
  end.

Definition countRecords (normalized : Value) : Z :=
  match normalized with
  | VCourses l => Z.of_nat (length l)
  | VProfiles l => Z.of_nat (length l)
  | _ => 0
  end.

(** The payload, its hash and the record count. *)
Definition Canonicalize (kind : SnapshotKind) (value : Value) (maxBytes : Z)
    : result CanonError (string * string * Z) :=
  if maxBytes <=? 0 then Err CanonLimit
  else
    match canonicalValue kind value with
    | Err e => Err e
    | Ok normalized =>
        match json_Marshal normalized with
        | None => Err (CanonMarshal kind)
        | Some payload =>
            if maxBytes <? Z.of_nat (String.length payload) then Err (CanonTooLarge kind)
            else Ok (payload, sha256_Sum256 payload, countRecords normalized)
        end
    end.

(** * Lemmas *)

Lemma canonicalValue_kind kind value v :
  canonicalValue kind value = Ok v →
  (kind = SnapshotCourseCatalog ∧ ∃ l, value = VCourses l ∧ v = VCourses (sort_stable less_course l)) ∨
  (kind = SnapshotCourseDetail ∧ ∃ d, (value = VCourseDetail d ∨ value = VCourseDetailPtr (Some d)) ∧
     v = VCourseDetail (canonical_course d)) ∨
  (kind = SnapshotSessionDetail ∧ ∃ d, (value = VSessionDetail d ∨ value = VSessionDetailPtr (Some d)) ∧
     v = VSessionDetail (canonical_session d)) ∨
  (kind = SnapshotStudentProfiles ∧ ∃ l, value = VProfiles l ∧ v = VProfiles (sort_stable less_profile l)).
Proof.
  unfold canonicalValue. destruct kind, value; try done; try destruct d; intros Hv;
    inversion Hv; subst; eauto 10.
Qed.

Lemma Canonicalize_inv kind value maxBytes payload hash n :
  Canonicalize kind value maxBytes = Ok (payload, hash, n) →
  ∃ v, canonicalValue kind value = Ok v ∧ json_Marshal v = Some payload ∧
       hash = sha256_Sum256 payload ∧ n = countRecords v ∧
       Z.of_nat (String.length payload) ≤ maxBytes.
Proof.
  unfold Canonicalize. intros Hc. repeat (break_match_in Hc; try discriminate Hc).
  injection Hc as -> <- <-. bool_to_prop. eauto 10.
Qed.

(** The canonical form depends on the value up to the relation that lets a collection
    be permuted; a pointer stands for what it points to. *)
Definition deref (v : Value) : Value :=
  match v with
  | VCourseDetailPtr (Some d) => VCourseDetail d
  | VSessionDetailPtr (Some d) => VSessionDetail d
  | _ => v
  end.

Definition tie_free {A} (less : A → A → bool) (l : list A) : Prop :=
  ∀ x y, x ∈ l → y ∈ l → not_after less x y → not_after less y x → x = y.

Definition same_records (v w : Value) : Prop :=
  match deref v, deref w with
  | VCourses l, VCourses l' => l ≡ₚ l' ∧ tie_free less_course l
  | VCourseDetail d, VCourseDetail d' =>
      cd_Summary d = cd_Summary d' ∧ cd_Sessions d ≡ₚ cd_Sessions d' ∧
      tie_free less_session (cd_Sessions d)
  | VSessionDetail d, VSessionDetail d' =>
      sd_Summary d = sd_Summary d' ∧ sd_QRActive d = sd_QRActive d' ∧
      normalizeTimestampString <$> sd_QRExpiresAt d = normalizeTimestampString <$> sd_QRExpiresAt d' ∧
      map normalize_student (sd_Students d) ≡ₚ map normalize_student (sd_Students d') ∧
      tie_free less_student (map normalize_student (sd_Students d))
  | VProfiles l, VProfiles l' => l ≡ₚ l' ∧ tie_free less_profile l
  | _, _ => False
  end.

Lemma sort_same {A} (less : A → A → bool) `{!StrictWeakOrder less} l l' :
  l ≡ₚ l' → tie_free less l → sort_stable less l = sort_stable less l'.
Proof using Type. intros Hp Ht. by apply sort_stable_unique. Qed.

Lemma canonicalValue_deref kind v : canonicalValue kind (deref v) = canonicalValue kind v.
Proof. destruct kind, v as [| |[]| |[]| | |]; reflexivity. Qed.

Lemma canonicalValue_same kind v w :
  same_records v w → canonicalValue kind v = canonicalValue kind w.
Proof.
  unfold same_records. rewrite <- (canonicalValue_deref kind v), <- (canonicalValue_deref kind w).
  destruct (deref v), (deref w); try done; simpl; intros Hs; destruct kind; try done; simpl.
  - destruct Hs as [Hp Ht]. by rewrite (sort_same _ _ _ Hp Ht).
  - destruct Hs as (Es & Hp & Ht). unfold canonical_course. by rewrite Es, (sort_same _ _ _ Hp Ht).
  - destruct Hs as (Es & Eq & Ee & Hp & Ht). unfold canonical_session.
    by rewrite Es, Eq, Ee, (sort_same _ _ _ Hp Ht).
  - destruct Hs as [Hp Ht]. by rewrite (sort_same _ _ _ Hp Ht).
Qed.

Lemma normalize_idemp `{!GoLibLaws} s :
  normalizeTimestampString (normalizeTimestampString s) = normalizeTimestampString s.
Proof.
  unfold normalizeTimestampString at 2 3. destruct (rfc3339_Parse s) as [t|] eqn:E.
  - unfold normalizeTimestampString. by rewrite (rfc3339_roundtrip _ _ E).
  - unfold normalizeTimestampString. by rewrite E.
Qed.

Lemma normalize_student_idemp `{!GoLibLaws} s :
  normalize_student (normalize_student s) = normalize_student s.
Proof.
  destruct s as [????? ? [?|] ?]; unfold normalize_student; simpl; [|done].
  by rewrite normalize_idemp.
Qed.

(** Normalising timestamps does not change the order of the students. *)
Lemma sort_map_normalize l :
  sort_stable less_student (map normalize_student l) =
  map normalize_student (sort_stable less_student l).
Proof.
  assert (Hi : ∀ x k, insert_stable less_student (normalize_student x) (map normalize_student k)
                 = map normalize_student (insert_stable less_student x k)).
  { intros x k. induction k as [|y k IH]; [done|]. simpl.
    change (less_student (normalize_student y) (normalize_student x)) with (less_student y x).
    destruct (less_student y x); simpl; [by rewrite IH|done]. }
  induction l as [|x l IH]; [done|]. unfold sort_stable in *. simpl. by rewrite IH, Hi.
Qed.

Lemma canonical_session_idemp `{!GoLibLaws} d :
  canonical_session (canonical_session d) = canonical_session d.
Proof.
  unfold canonical_session; simpl. f_equal.
  - rewrite sort_map_normalize, (sort_stable_idemp less_student), sort_map_normalize.
    rewrite map_map. apply map_ext. intros. apply normalize_student_idemp.
  - destruct (sd_QRExpiresAt d); simpl; [|done]. by rewrite normalize_idemp.
Qed.

(** * Properties *)

(** C21: the payload and the content hash do not depend on the order in which the
    upstream returned the records, nor on whether a detail came as a value or as a
    pointer: values with the same records (no two distinct records tied in the
    canonical order, timestamps equal after normalisation) canonicalize identically. *)
Theorem Canonicalize_order_independent kind v w maxBytes :
  same_records v w → Canonicalize kind v maxBytes = Canonicalize kind w maxBytes.
Proof. intros Hs. unfold Canonicalize. by rewrite (canonicalValue_same kind v w Hs). Qed.

(** Canonicalization is idempotent and lossless: a canonical value is its own
    canonical form, its records are a permutation of the input's (up to timestamp
    normalisation for students) and they are in the canonical order. *)
Lemma canonicalValue_idempotent `{!GoLibLaws} kind value v :
  canonicalValue kind value = Ok v →
  canonicalValue kind v = Ok v ∧
  match deref value, v with
  | VCourses l, VCourses l' => l' ≡ₚ l ∧ StronglySorted (not_after less_course) l'
  | VCourseDetail d, VCourseDetail d' =>
      cd_Sessions d' ≡ₚ cd_Sessions d ∧ StronglySorted (not_after less_session) (cd_Sessions d')
  | VSessionDetail d, VSessionDetail d' =>
      sd_Students d' ≡ₚ map normalize_student (sd_Students d) ∧
      StronglySorted (not_after less_student) (sd_Students d')
  | VProfiles l, VProfiles l' => l' ≡ₚ l ∧ StronglySorted (not_after less_profile) l'
  | _, _ => False
  end.
Proof.
  intros Hv. destruct (canonicalValue_kind _ _ _ Hv)
    as [(-> & l & -> & ->)|[(-> & d & [->| ->] & ->)|[(-> & d & [->| ->] & ->)|(-> & l & -> & ->)]]];
    simpl; unfold canonical_course; simpl;
    rewrite ?canonical_session_idemp, ?sort_stable_idemp by apply _;
    repeat split; try apply sort_stable_perm; try apply sort_stable_sorted; apply _.
Qed.
End canonical.

(** ** A concrete library, to evaluate the definitions on *)

Definition demo_marshal (v : Value) : option string :=
  Some ("[" +:+ match v with
        | VCourses l => foldr (λ c s, cs_CourseID c +:+ ("," +:+ s)) "" l
        | VProfiles l => foldr (λ p s, sp_StudentID p +:+ ("," +:+ s)) "" l
        | VCourseDetail d => foldr (λ c s, ss_SessionID c +:+ ("," +:+ s)) "d" (cd_Sessions d)
        | VSessionDetail d => foldr (λ c s, sc_StudentID c +:+ ("," +:+ s)) "s" (sd_Students d)
        | _ => "{}"
        end).

Definition demo_lib : GoLib := {|
  json_Marshal := demo_marshal;
  json_MarshalMetadata := λ m, md_ResourceKey m;
  json_Unmarshal := λ _ _, None;
  json_Valid := nonempty;
  sha256_Sum256 := λ s, String.substring 0 64 (s +:+ "ffffffffffffffffffffffffffffffffffffffffffffffffffffffffffffffff");
  rfc3339_Parse := λ s,
    if bool_decide (s ∈ ["2024-01-01T01:00:00+01:00"; "2024-01-01T00:00:00Z"]) then Some 1 else None;
  rfc3339_FormatUTC := λ _, "2024-01-01T00:00:00Z"
|}.

Lemma demo_laws : @GoLibLaws demo_lib.
Proof.
  split.
  - intros s t. simpl. case_bool_decide; [|done]. by intros [= <-].
  - by intros v p [= <-].
Qed.

Definition demo_course (id : string) : CourseSummary :=
  {| cs_CourseID := id; cs_Name := "n"; cs_StartDate := ""; cs_EndDate := "";
     cs_EnrolledCount := 1; cs_TotalSessions := 2; cs_CompletedSessions := 1;
     cs_AvgAttendanceRate := 0; cs_Status := CourseStatusActive |}.

Lemma Canonicalize_order_independent_witness :
  @Canonicalize demo_lib SnapshotCourseCatalog (VCourses [demo_course "b"; demo_course "a"]) 100
  = Ok ("[a,b,", "[a,b,fffffffffffffffffffffffffffffffffffffffffffffffffffffffffff", 2).
Proof.
  rewrite (@Canonicalize_order_independent demo_lib SnapshotCourseCatalog _
             (VCourses [demo_course "a"; demo_course "b"])); [vm_compute; reflexivity|].
  split; [apply Permutation_swap|].
  intros x y [->|[->|Hx]%elem_of_cons]%elem_of_cons [->|[->|Hy]%elem_of_cons]%elem_of_cons;
    try done; try (by inversion Hx); by inversion Hy.
Defined.

Lemma canonicalValue_idempotent_witness :
  @canonicalValue demo_lib SnapshotCourseCatalog (VCourses [demo_course "a"; demo_course "b"])
  = Ok (VCourses [demo_course "a"; demo_course "b"]).
Proof.
  apply (@canonicalValue_idempotent demo_lib demo_laws SnapshotCourseCatalog
           (VCourses [demo_course "b"; demo_course "a"])).
  vm_compute. reflexivity.
Defined.
