(* ===== verification/Validation.v ===== *)
(** Payload validation and change classification ([internal/scraper/validation.go]):
    the four validators, each a loop that stops at the first defect, and the rules
    that make a change suspicious. *)

From stdpp Require Import base list numbers strings gmap sorting.
From Stdlib Require Import ZArith QArith Lia Lqa.
From S2P Require Import Prelude Float64 Domain Canonical.

Local Open Scope Z_scope.
Local Open Scope stdpp_scope.

Record ValidationWarning := { vw_Code : string; vw_Message : string }.

Record ValidatedPayload := {
  vp_Kind : SnapshotKind;
  vp_Raw : Value;
  vp_RecordCount : Z;
  vp_DistinctIDs : Z;
  vp_ValidationVersion : Z;
  vp_Warnings : list ValidationWarning
}.

Record ChangeSafetyPolicy := {
  csp_MinimumPreviousCount : Z;
  csp_MaximumDropRatio : Q;
  csp_MaxMissingIDRatio : Q;
  csp_ConfirmationAttempts : Z
}.

Definition DefaultChangeSafetyPolicy : ChangeSafetyPolicy := {|
  csp_MinimumPreviousCount := 2;
  csp_MaximumDropRatio := rne (1 # 5);
  csp_MaxMissingIDRatio := rne (1 # 10);
  csp_ConfirmationAttempts := 2
|}.

(** [ClassifiedChange.Status] is ["changed"] or ["suspicious"]. *)
Record ClassifiedChange := {
  cc_Suspicious : bool;
  cc_PreviousCount : Z;
  cc_NewCount : Z;
  cc_DropRatio : Q;
  cc_Warnings : list ValidationWarning
}.

Definition validationVersion : Z := 1.

Inductive ValidationError :=
| ValNil
| ValUnsupported (k : SnapshotKind)
| ValType (k : SnapshotKind)
| ValNilPointer (k : SnapshotKind)
| ValKeyMismatch (id key : string)
| ValEmptyID
| ValDuplicateID (id : string)
| ValBadStatus (id : string)
| ValBadDate (id : string)
| ValCount (declared counted : Z).

Definition warn (b : bool) (code message : string) : list ValidationWarning :=
  if b then [{| vw_Code := code; vw_Message := message |}] else [].

(** The loop of each validator: [seen] is the map of identifiers met so far, [check]
    the kind's own test of one record (an error or its warnings). *)
Fixpoint validate_loop {A} (ident : A → string) (check : A → result ValidationError (list ValidationWarning))
    (seen : gset string) (warnings : list ValidationWarning) (l : list A)
    : result ValidationError (list ValidationWarning) :=
  match l with
  | [] => Ok warnings
  | x :: l' =>
      if blank (ident x) then Err ValEmptyID
      else if bool_decide (ident x ∈ seen) then Err (ValDuplicateID (ident x))
      else
        match check x with
        | Err e => Err e
        | Ok ws => validate_loop ident check ({[ident x]} ∪ seen) (warnings ++ ws) l'
        end
  end.

Definition check_course (c : CourseSummary) : result ValidationError (list ValidationWarning) :=
  Ok (warn (blank (cs_Name c)) "missing_name"
        ("course " +:+ (cs_CourseID c +:+ " has empty Name")) ++
      warn (blank (course_status_string (cs_Status c))) "missing_status"
        ("course " +:+ (cs_CourseID c +:+ " has empty Status"))).

Definition validateCourseCatalog (raw : Value) : result ValidationError ValidatedPayload :=
  match raw with
  | VCourses courses =>
      match validate_loop cs_CourseID check_course ∅ [] courses with
      | Err e => Err e
      | Ok warnings => Ok {|
          vp_Kind := SnapshotCourseCatalog; vp_Raw := VCourses courses;
          vp_RecordCount := Z.of_nat (length courses);
          vp_DistinctIDs := Z.of_nat (length courses);
          vp_ValidationVersion := validationVersion; vp_Warnings := warnings |}
      end
  | _ => Err (ValType SnapshotCourseCatalog)
  end.

Definition check_session (s : SessionSummary) : result ValidationError (list ValidationWarning) :=
  let status := TrimSpace (session_status_string (ss_Status s)) in
  if nonempty status && negb (is_ok (GetSessionStatus status)) then Err (ValBadStatus (ss_SessionID s))
  else if nonempty (ss_Date s) && bool_decide (parse_date (ss_Date s) = None)
  then Err (ValBadDate (ss_SessionID s))
  else Ok [].

Definition validateCourseDetail (raw : Value) (resourceKey : string)
    : result ValidationError ValidatedPayload :=
  match raw with
  | VCourseDetailPtr None => Err (ValNilPointer SnapshotCourseDetail)
  | VCourseDetail detail | VCourseDetailPtr (Some detail) =>
      let id := cs_CourseID (cd_Summary detail) in
      if nonempty resourceKey && bool_decide (id ≠ resourceKey) then Err (ValKeyMismatch id resourceKey)
      else
        match validate_loop ss_SessionID check_session ∅ [] (cd_Sessions detail) with
        | Err e => Err e
        | Ok warnings => Ok {|
            vp_Kind := SnapshotCourseDetail; vp_Raw := VCourseDetail detail;
            vp_RecordCount := Z.of_nat (length (cd_Sessions detail));
            vp_DistinctIDs := Z.of_nat (length (cd_Sessions detail));
            vp_ValidationVersion := validationVersion; vp_Warnings := warnings |}
        end
  | _ => Err (ValType SnapshotCourseDetail)
  end.

Definition check_student (_ : StudentCheckin) : result ValidationError (list ValidationWarning) := Ok [].

Definition checked_in (students : list StudentCheckin) : Z :=
  Z.of_nat (length (filter (λ s, sc_CheckedIn s = true) students)).

Definition validateSessionDetail (raw : Value) (resourceKey : string)
    : result ValidationError ValidatedPayload :=
  match raw with
  | VSessionDetailPtr None => Err (ValNilPointer SnapshotSessionDetail)
  | VSessionDetail detail | VSessionDetailPtr (Some detail) =>
      let id := ss_SessionID (sd_Summary detail) in
      if nonempty resourceKey && bool_decide (id ≠ resourceKey) then Err (ValKeyMismatch id resourceKey)
      else
        match validate_loop sc_StudentID check_student ∅ [] (sd_Students detail) with
        | Err e => Err e
        | Ok warnings =>
            let checkedIn := checked_in (sd_Students detail) in
            if negb (checkedIn =? ss_CheckedInCount (sd_Summary detail))
            then Err (ValCount (ss_CheckedInCount (sd_Summary detail)) checkedIn)
            else Ok {|
              vp_Kind := SnapshotSessionDetail; vp_Raw := VSessionDetail detail;
              vp_RecordCount := Z.of_nat (length (sd_Students detail));
              vp_DistinctIDs := Z.of_nat (length (sd_Students detail));
              vp_ValidationVersion := validationVersion; vp_Warnings := warnings |}
        end
  | _ => Err (ValType SnapshotSessionDetail)
  end.

Definition check_profile (p : StudentProfile) : result ValidationError (list ValidationWarning) :=
  Ok (warn (blank (sp_StudentGuid p)) "missing_student_guid"
        ("student " +:+ (sp_StudentID p +:+ " has empty StudentGuid")) ++
      warn (blank (sp_FullName p)) "missing_full_name"
        ("student " +:+ (sp_StudentID p +:+ " has empty FullName"))).

Definition validateStudentProfiles (raw : Value) : result ValidationError ValidatedPayload :=
  match raw with
  | VProfiles profiles =>
      match validate_loop sp_StudentID check_profile ∅ [] profiles with
      | Err e => Err e
      | Ok warnings => Ok {|
          vp_Kind := SnapshotStudentProfiles; vp_Raw := VProfiles profiles;
          vp_RecordCount := Z.of_nat (length profiles);
          vp_DistinctIDs := Z.of_nat (length profiles);
          vp_ValidationVersion := validationVersion; vp_Warnings := warnings |}
      end
  | _ => Err (ValType SnapshotStudentProfiles)
  end.

Definition ValidatePayload (kind : SnapshotKind) (raw : Value) (resourceKey : string)
    : result ValidationError ValidatedPayload :=
  match raw with
  | VNil => Err ValNil
  | _ =>
      match kind with
      | SnapshotCourseCatalog => validateCourseCatalog raw
      | SnapshotCourseDetail => validateCourseDetail raw resourceKey
      | SnapshotSessionDetail => validateSessionDetail raw resourceKey
      | SnapshotStudentProfiles => validateStudentProfiles raw
      | SnapshotOther _ => Err (ValUnsupported kind)
      end
  end.

Definition id_set {A} (ident : A → string) (l : list A) : gset string :=
  list_to_set (filter (λ id, id ≠ "") (map ident l)).

Definition validatedIDs (validated : ValidatedPayload) : option (gset string) :=
  match vp_Kind validated, vp_Raw validated with
  | _, VNil => None
  | SnapshotCourseCatalog, VCourses l => Some (id_set cs_CourseID l)
  | SnapshotCourseDetail, VCourseDetail d => Some (id_set ss_SessionID (cd_Sessions d))
  | SnapshotCourseDetail, VCourseDetailPtr (Some d) => Some (id_set ss_SessionID (cd_Sessions d))
  | SnapshotSessionDetail, VSessionDetail d => Some (id_set sc_StudentID (sd_Students d))
  | SnapshotSessionDetail, VSessionDetailPtr (Some d) => Some (id_set sc_StudentID (sd_Students d))
  | SnapshotStudentProfiles, VProfiles l => Some (id_set sp_StudentID l)
  | _, _ => None
  end.

(** [previousIDs] is [None] for Go's nil map. *)
Definition ClassifyChangeAgainst (policy : ChangeSafetyPolicy) (validated : ValidatedPayload)
    (previousCount : Z) (previousIDs : option (gset string)) : ClassifiedChange :=
  let base suspicious ratio := {|
    cc_Suspicious := suspicious; cc_PreviousCount := previousCount;
    cc_NewCount := vp_RecordCount validated; cc_DropRatio := ratio;
    cc_Warnings := vp_Warnings validated |} in
  if previousCount <=? 0 then base false 0%Q
  else
    let ratio := fdiv (f_of_int (previousCount - vp_RecordCount validated)) (f_of_int previousCount) in
    if vp_RecordCount validated =? 0 then base true ratio
    else if (csp_MinimumPreviousCount policy <=? previousCount) && fgt ratio (csp_MaximumDropRatio policy)
    then base true ratio
    else
      let ids := default ∅ previousIDs in
      if (csp_MinimumPreviousCount policy <=? previousCount) && bool_decide (0 < size ids)%nat then
        match validatedIDs validated with
        | None => base false ratio
        | Some currentIDs =>
            let missing := Z.of_nat (size (ids ∖ currentIDs)) in
            let missingRatio := fdiv (f_of_int missing) (f_of_int (Z.of_nat (size ids))) in
            base (fgt missingRatio (csp_MaxMissingIDRatio policy)) ratio
        end
      else base false ratio.

Definition ClassifyChange (policy : ChangeSafetyPolicy) (validated : ValidatedPayload)
    (previousCount : Z) : ClassifiedChange :=
  ClassifyChangeAgainst policy validated previousCount None.

(** * What a valid payload is *)

Definition ids_ok {A} (ident : A → string) (l : list A) : Prop :=
  Forall (λ x, blank (ident x) = false) l ∧ NoDup (map ident l).

Definition key_ok (id key : string) : Prop := key = "" ∨ id = key.

Definition session_ok (s : SessionSummary) : Prop :=
  (TrimSpace (session_status_string (ss_Status s)) = "" ∨
   TrimSpace (session_status_string (ss_Status s)) ∈ ["active"; "done"; "not_started"; "auth_error"]) ∧
  (ss_Date s = "" ∨ is_Some (parse_date (ss_Date s))).

Definition payload_spec (kind : SnapshotKind) (raw : Value) (key : string) : Prop :=
  match kind, deref raw with
  | SnapshotCourseCatalog, VCourses l => ids_ok cs_CourseID l
  | SnapshotCourseDetail, VCourseDetail d =>
      key_ok (cs_CourseID (cd_Summary d)) key ∧ ids_ok ss_SessionID (cd_Sessions d) ∧
      Forall session_ok (cd_Sessions d)
  | SnapshotSessionDetail, VSessionDetail d =>
      key_ok (ss_SessionID (sd_Summary d)) key ∧ ids_ok sc_StudentID (sd_Students d) ∧
      checked_in (sd_Students d) = ss_CheckedInCount (sd_Summary d)
  | SnapshotStudentProfiles, VProfiles l => ids_ok sp_StudentID l
  | _, _ => False
  end.

(** * Lemmas *)

Lemma validate_loop_ok {A} (ident : A → string) chk l : ∀ seen ws,
  is_ok (validate_loop ident chk seen ws l) = true ↔
  Forall (λ x, blank (ident x) = false ∧ ident x ∉ seen ∧ is_ok (chk x) = true) l ∧
  NoDup (map ident l).
Proof.
  induction l as [|x l IH]; intros seen ws; simpl; [by split; [repeat constructor|]|].
  rewrite Forall_cons, NoDup_cons. destruct (blank (ident x)) eqn:Hb; simpl; [naive_solver|].
  case_bool_decide as Hs; simpl; [naive_solver|].
  destruct (chk x) as [w|e] eqn:Hc; simpl; [|naive_solver].
  rewrite IH. change (map ident l) with (ident <$> l). rewrite list_elem_of_fmap, !Forall_forall.
  split.
  - intros [Hf Hn]. split; [split; [done|]|split; [|done]].
    + intros y Hy. destruct (Hf y Hy) as (? & Hni & ?). set_solver.
    + intros (y & Hy & Hin). destruct (Hf y Hin) as (_ & Hni & _). set_solver.
  - intros [[_ Hf] [Hni Hn]]. split; [|done]. intros y Hy.
    destruct (Hf y Hy) as (? & Hns & ?). repeat split; try done.
    apply not_elem_of_union. split; [|done]. apply not_elem_of_singleton. intros E.
    apply Hni. by exists y.
Qed.

Lemma validate_loop_ids {A} (ident : A → string) chk l :
  is_ok (validate_loop ident chk ∅ [] l) = true ↔ ids_ok ident l ∧ Forall (λ x, is_ok (chk x) = true) l.
Proof.
  rewrite validate_loop_ok. unfold ids_ok. rewrite !Forall_forall. set_solver.
Qed.

Lemma id_set_size {A} (ident : A → string) l :
  ids_ok ident l → Z.of_nat (size (id_set ident l)) = Z.of_nat (length l).
Proof.
  intros [Hb Hn]. f_equal. unfold id_set.
  assert (filter (λ id, id ≠ "") (map ident l) = map ident l) as ->.
  { clear Hn. induction Hb as [|x l Hx _ IH]; [done|]. simpl.
    rewrite filter_cons_True; [by rewrite IH|]. intros E. by rewrite E in Hx. }
  rewrite size_list_to_set by done. change (map ident l) with (ident <$> l). by rewrite length_fmap.
Qed.

Lemma status_guard t :
  nonempty t && negb (is_ok (GetSessionStatus t)) = false ↔
  t = "" ∨ t ∈ ["active"; "done"; "not_started"; "auth_error"].
Proof.
  unfold nonempty, GetSessionStatus. destruct (decide (t = "")) as [->|Hn]; [by split; [left|]|].
  rewrite (bool_decide_eq_true_2 _ Hn). case_bool_decide; simpl; split; auto.
  - done.
  - by intros [?|?].
Qed.

Lemma date_guard d :
  nonempty d && bool_decide (parse_date d = None) = false ↔ d = "" ∨ is_Some (parse_date d).
Proof.
  unfold nonempty. destruct (decide (d = "")) as [->|Hn]; [by split; [left|]|].
  rewrite (bool_decide_eq_true_2 _ Hn). simpl. rewrite bool_decide_eq_false, not_eq_None_Some.
  split; [by right|]. by intros [?|?].
Qed.

Lemma check_session_ok s : is_ok (check_session s) = true ↔ session_ok s.
Proof.
  unfold check_session, session_ok. rewrite <- status_guard, <- date_guard.
  destruct (nonempty (TrimSpace _) && _); [by split; [|intros []]|].
  destruct (nonempty (ss_Date s) && _); [by split; [|intros []]|]. done.
Qed.

(** Comparing a quotient of small counts with a decimal constant [1/c] in float64
    decides the exact rational comparison: [up] is any float64 above [1/c] that is
    closer to it than the quotient of two such counts can be. *)
Lemma ratio_decides (c : positive) (up : Q) (a b : Z) :
  Z.abs a ≤ 2 ^ 40 → 0 < b ≤ 2 ^ 40 →
  (rne (1 # c) < up)%Q → (rne up == up)%Q → (up <= (1 # c) * (1 + (1 # 2 ^ 40)))%Q →
  fgt (fdiv (f_of_int a) (f_of_int b)) (rne (1 # c)) = (b <? Zpos c * a).
Proof.
  intros Ha Hb Hup Hrep Hbound.
  assert (Qb : (0 < inject_Z b)%Q) by (change 0%Q with (inject_Z 0); rewrite <- Zlt_Qlt; lia).
  assert (Qb' : (inject_Z b <= inject_Z (2 ^ 40))%Q) by (rewrite <- Zle_Qle; lia).
  assert (Ec : ((1 # c) * inject_Z (Zpos c) == 1)%Q) by (unfold Qeq; simpl; lia).
  assert (Pc : (0 < (1 # c))%Q) by reflexivity.
  set (k := (1 # c)%Q) in *.
  assert (Hab : (f_of_int a / f_of_int b == inject_Z a / inject_Z b)%Q)
    by (rewrite !f_of_int_exact by lia; reflexivity).
  assert (Ea : (inject_Z a == k * (inject_Z (Zpos c) * inject_Z a))%Q)
    by (rewrite Qmult_assoc, Ec; ring).
  destruct (b <? Zpos c * a) eqn:E; bool_to_prop.
  - apply fgt_true. apply (Qlt_le_trans _ up); [done|]. unfold fdiv. rewrite Hab, <- Hrep.
    apply rne_mono. apply Qle_shift_div_l; [done|].
    assert (Hac : (inject_Z b + 1 <= inject_Z (Zpos c) * inject_Z a)%Q).
    { rewrite <- inject_Z_mult. change 1%Q with (inject_Z 1). rewrite <- inject_Z_plus, <- Zle_Qle. lia. }
    assert (Hk : (k * (inject_Z b + 1) <= inject_Z a)%Q).
    { rewrite Ea, !(Qmult_comm k). apply Qmult_le_compat_r; lra. }
    assert (Hsmall : ((1 # 2 ^ 40) * inject_Z b <= 1)%Q).
    { apply Qle_trans with ((1 # 2 ^ 40) * inject_Z (2 ^ 40))%Q.
      - rewrite !(Qmult_comm (1 # 2 ^ 40)). by apply Qmult_le_compat_r.
      - by apply Qle_bool_iff. }
    apply Qle_trans with (k * (1 + (1 # 2 ^ 40)) * inject_Z b)%Q; [apply Qmult_le_compat_r; lra|].
    eapply Qle_trans; [|exact Hk]. rewrite <- Qmult_assoc, !(Qmult_comm k).
    apply Qmult_le_compat_r; [|lra]. set (e := (1 # 2 ^ 40)%Q) in *. lra.
  - apply fgt_false. unfold fdiv. rewrite Hab. apply rne_mono.
    apply Qle_shift_div_r; [done|].
    assert (Hac : (inject_Z (Zpos c) * inject_Z a <= inject_Z b)%Q).
    { rewrite <- inject_Z_mult, <- Zle_Qle. lia. }
    rewrite Ea, !(Qmult_comm k). apply Qmult_le_compat_r; lra.
Qed.

Lemma drop_ratio_decides a b :
  Z.abs a ≤ 2 ^ 40 → 0 < b ≤ 2 ^ 40 →
  fgt (fdiv (f_of_int a) (f_of_int b)) (rne (1 # 5)) = (b <? 5 * a).
Proof.
  intros Ha Hb. apply (ratio_decides 5 (rne (1 # 5) + (1 # 2 ^ 50))); try assumption;
    vm_compute; try reflexivity; discriminate.
Qed.

Lemma missing_ratio_decides a b :
  Z.abs a ≤ 2 ^ 40 → 0 < b ≤ 2 ^ 40 →
  fgt (fdiv (f_of_int a) (f_of_int b)) (rne (1 # 10)) = (b <? 10 * a).
Proof.
  intros Ha Hb. apply (ratio_decides 10 (rne (1 # 10) + (1 # 2 ^ 50))); try assumption;
    vm_compute; try reflexivity; discriminate.
Qed.

Lemma validate_loop_cases {A} (ident : A → string) chk l :
  (∃ w, validate_loop ident chk ∅ [] l = Ok w ∧ ids_ok ident l ∧ Forall (λ x, is_ok (chk x) = true) l) ∨
  (∃ e, validate_loop ident chk ∅ [] l = Err e ∧
        ¬ (ids_ok ident l ∧ Forall (λ x, is_ok (chk x) = true) l)).
Proof.
  pose proof (validate_loop_ids ident chk l) as Hl.
  destruct (validate_loop _ _ _ _ _) as [w|e]; simpl in Hl; [left|right]; eexists; (split; [done|]).
  - by apply Hl.
  - intros Hc. by apply Hl in Hc.
Qed.

Lemma key_guard id key : nonempty key && bool_decide (id ≠ key) = false ↔ key_ok id key.
Proof.
  unfold nonempty, key_ok. destruct (decide (key = "")) as [->|Hk]; [by split; [left|]|].
  rewrite (bool_decide_eq_true_2 _ Hk). simpl. rewrite bool_decide_eq_false.
  destruct (decide (id = key)); split; try tauto.
Qed.

Lemma validateCourseDetail_deref raw key :
  validateCourseDetail (deref raw) key = validateCourseDetail raw key.
Proof. by destruct raw as [| |[]| |[]| | |]. Qed.

Lemma validateSessionDetail_deref raw key :
  validateSessionDetail (deref raw) key = validateSessionDetail raw key.
Proof. by destruct raw as [| |[]| |[]| | |]. Qed.

Lemma validateCourseCatalog_spec l :
  is_ok (validateCourseCatalog (VCourses l)) = true ↔ ids_ok cs_CourseID l.
Proof.
  simpl. destruct (validate_loop_cases cs_CourseID check_course l)
    as [(w & -> & Hi & _)|(e & -> & Hn)]; simpl; [by split|]. split; [done|].
  intros Hi. destruct Hn. split; [done|]. by apply Forall_true.
Qed.

Lemma validateStudentProfiles_spec l :
  is_ok (validateStudentProfiles (VProfiles l)) = true ↔ ids_ok sp_StudentID l.
Proof.
  simpl. destruct (validate_loop_cases sp_StudentID check_profile l)
    as [(w & -> & Hi & _)|(e & -> & Hn)]; simpl; [by split|]. split; [done|].
  intros Hi. destruct Hn. split; [done|]. by apply Forall_true.
Qed.

Lemma validateCourseDetail_spec d key :
  is_ok (validateCourseDetail (VCourseDetail d) key) = true ↔
  payload_spec SnapshotCourseDetail (VCourseDetail d) key.
Proof.
  simpl. rewrite <- key_guard. destruct (nonempty key && _); [by split; [|intros []]|].
  destruct (validate_loop_cases ss_SessionID check_session (cd_Sessions d))
    as [(w & -> & Hi & Hs)|(e & -> & Hn)]; simpl.
  - split; [|done]. intros _. repeat split; try apply Hi.
    eapply Forall_impl; [exact Hs|]. intros x. apply check_session_ok.
  - split; [done|]. intros (_ & Hi & Hs). destruct Hn. split; [done|].
    eapply Forall_impl; [exact Hs|]. intros x. apply check_session_ok.
Qed.

Lemma validateSessionDetail_spec d key :
  is_ok (validateSessionDetail (VSessionDetail d) key) = true ↔
  payload_spec SnapshotSessionDetail (VSessionDetail d) key.
Proof.
  simpl. rewrite <- key_guard. destruct (nonempty key && _); [by split; [|intros []]|].
  destruct (validate_loop_cases sc_StudentID check_student (sd_Students d))
    as [(w & -> & Hi & _)|(e & -> & Hn)]; simpl.
  - destruct (Z.eqb_spec (checked_in (sd_Students d)) (ss_CheckedInCount (sd_Summary d))); simpl.
    + by split.
    + split; [done|]. by intros (_ & _ & ?).
  - split; [done|]. intros (_ & Hi & _). destruct Hn. split; [done|]. by apply Forall_true.
Qed.

Lemma ValidatePayload_spec kind raw key :
  is_ok (ValidatePayload kind raw key) = true ↔ payload_spec kind raw key.
Proof.
  destruct kind; [ | | | |by destruct raw as [| |[]| |[]| | |]].
  - destruct raw as [l| |[]| |[]| | |]; try done. apply validateCourseCatalog_spec.
  - destruct raw as [|d|[d|]| |[]| | |]; try done; apply (validateCourseDetail_spec d).
  - destruct raw as [| |[]|d|[d|]| | |]; try done; apply (validateSessionDetail_spec d).
  - destruct raw as [| |[]| |[]|l| |]; try done. apply validateStudentProfiles_spec.
Qed.

Lemma ValidatePayload_shape kind raw key vp :
  ValidatePayload kind raw key = Ok vp →
  vp_Kind vp = kind ∧ vp_Raw vp = deref raw ∧ vp_RecordCount vp = vp_DistinctIDs vp ∧
  vp_DistinctIDs vp = match deref raw with
                      | VCourses l => Z.of_nat (length l)
                      | VCourseDetail d => Z.of_nat (length (cd_Sessions d))
                      | VSessionDetail d => Z.of_nat (length (sd_Students d))
                      | VProfiles l => Z.of_nat (length l)
                      | _ => 0
                      end.
Proof.
  unfold ValidatePayload, validateCourseCatalog, validateCourseDetail, validateSessionDetail,
    validateStudentProfiles.
  intros Hv. destruct raw as [| |[]| |[]| | |], kind; try discriminate Hv;
    repeat (break_match_in Hv; try discriminate Hv); injection Hv as <-; done.
Qed.

(** * Properties *)

(** C19: a payload is accepted exactly when it meets the kind's contract (identifiers
    non-blank and pairwise distinct, the answer is for the requested resource, session
    statuses and dates well formed, the check-in total equal to the number of checked-in
    students), and an accepted payload reports its true number of distinct records. *)
Theorem ValidatePayload_correct kind raw key :
  (is_ok (ValidatePayload kind raw key) = true ↔ payload_spec kind raw key) ∧
  ∀ vp, ValidatePayload kind raw key = Ok vp →
    vp_Kind vp = kind ∧ vp_Raw vp = deref raw ∧ vp_RecordCount vp = vp_DistinctIDs vp ∧
    (Z.of_nat ∘ size) <$> validatedIDs vp = Some (vp_DistinctIDs vp).
Proof.
  split; [apply ValidatePayload_spec|]. intros vp Hv.
  assert (Hs : payload_spec kind raw key) by (apply ValidatePayload_spec; by rewrite Hv).
  destruct (ValidatePayload_shape _ _ _ _ Hv) as (Hk & Hr & Hc & Hd). repeat split; try done.
  unfold validatedIDs, payload_spec in *. rewrite Hk, Hr.
  destruct kind, (deref raw); try done; simpl; f_equal; rewrite Hd;
    apply id_set_size; by destruct Hs as (? & ? & ?) || done.
Qed.

(** C20: with the default policy a change of a data set that had [previousCount] records
    is suspicious exactly when it became empty, lost more than a fifth of its records,
    or lost more than a tenth of its known identifiers; the float64 ratios of the code
    decide these comparisons exactly for every count up to 2^40. *)
Theorem ClassifyChange_spec vp previousCount previousIDs :
  previousCount ≤ 2 ^ 40 → 0 ≤ vp_RecordCount vp ≤ 2 ^ 40 →
  Z.of_nat (size (default ∅ previousIDs)) ≤ 2 ^ 40 →
  cc_Suspicious (ClassifyChangeAgainst DefaultChangeSafetyPolicy vp previousCount previousIDs) = true ↔
  0 < previousCount ∧
  (vp_RecordCount vp = 0 ∨
   (2 ≤ previousCount ∧ previousCount < 5 * (previousCount - vp_RecordCount vp)) ∨
   (2 ≤ previousCount ∧ ∃ cur, validatedIDs vp = Some cur ∧
      Z.of_nat (size (default ∅ previousIDs)) < 10 * Z.of_nat (size (default ∅ previousIDs ∖ cur)))).
Proof.
  intros Hp Hn Hs. unfold ClassifyChangeAgainst. cbn [csp_MinimumPreviousCount csp_MaximumDropRatio
    csp_MaxMissingIDRatio DefaultChangeSafetyPolicy].
  set (ids := default ∅ previousIDs) in *.
  destruct (previousCount <=? 0) eqn:E0; bool_to_prop; [simpl; lia|].
  rewrite drop_ratio_decides by lia.
  destruct (vp_RecordCount vp =? 0) eqn:E1; bool_to_prop; [simpl; tauto|].
  destruct (2 <=? previousCount) eqn:E2; bool_to_prop;
    [|simpl; split; [done|]; intros (_ & [?|[[? _]|[? _]]]); lia].
  destruct (previousCount <? 5 * _) eqn:E3; bool_to_prop; [simpl; tauto|]. cbn [andb].
  case_bool_decide as E4.
  - destruct (validatedIDs vp) as [cur|]; simpl.
    + assert (size (ids ∖ cur) ≤ size ids)%nat by (apply subseteq_size; set_solver).
      rewrite missing_ratio_decides by lia. rewrite Z.ltb_lt. split; [eauto 10|].
      intros (_ & [?|[[_ ?]|(_ & c & [= <-] & ?)]]); lia.
    + split; [done|]. intros (_ & [?|[[_ ?]|(_ & c & [=] & ?)]]); lia.
  - simpl. split; [done|]. intros (_ & [?|[[_ ?]|(_ & c & _ & Hm)]]); try lia.
    assert (size (ids ∖ c) ≤ size ids)%nat by (apply subseteq_size; set_solver). lia.
Qed.

Lemma ClassifyChange_spec_witness :
  cc_Suspicious (ClassifyChangeAgainst DefaultChangeSafetyPolicy
    {| vp_Kind := SnapshotCourseCatalog; vp_Raw := VCourses [demo_course "a"];
       vp_RecordCount := 1; vp_DistinctIDs := 1; vp_ValidationVersion := 1; vp_Warnings := [] |}
    50 None) = true.
Proof.
  apply ClassifyChange_spec; [simpl; lia | simpl; lia | vm_compute; discriminate|].
  split; [lia|]. right. left. simpl. lia.
Defined.
