(* ===== verification/Tables.v ===== *)
(** The PostgreSQL schema of the snapshot store ([internal/db/migrations]) and the
    structures of [internal/db/snapshot_repository.go]: one record per row, with the
    columns the code reads or writes, and the CHECK and UNIQUE constraints as boolean
    functions applied wherever a statement writes a row.

    A table is a finite map from its primary key.  [BIGSERIAL] keys come from counters.
    The bookkeeping columns [created_at] and [updated_at] are never read and are left
    out.  A TIMESTAMPTZ column has microseconds: a commit passes its times, in nanoseconds,
    through [timestamptz] and keeps the unrounded ones for the result it returns; the
    clock readings and seeds the other statements take are the values the columns get.
    A JSONB column does not keep the text it was given: payloads are read back in the form
    [jsonb_text] gives them, and the manifests and reports, which the program writes and
    reads as structures, are kept as those.  NUMERIC columns are integers in units of
    their scale. *)

From stdpp Require Import base list numbers strings gmap sorting.
From Stdlib Require Import ZArith QArith Lia.
From S2P Require Import Prelude Sanitize Domain Canonical.

Local Open Scope Z_scope.
Local Open Scope stdpp_scope.

(** * Rows *)

(** scrape_targets, in four groups of columns. *)
Record SchedCols := mkSched {
  attributes : string;
  priority : Z;
  current_interval_seconds : Z;
  min_interval_seconds : Z;
  max_interval_seconds : Z;
  max_serve_age_seconds : Z;
  next_run_at : Z;
  last_attempt_at : option Z;
  consecutive_failures : Z;
  recent_changes : list bool
}.

Record PubCols := mkPub {
  last_validated_at : option Z;
  last_content_change_at : option Z;
  validation_seq : Z;
  etag : option string;
  last_modified : option string;
  cache_control : option string;
  current_snapshot_id : option Z;
  current_version : Z;
  current_content_hash : option string;
  previous_record_count : Z;
  quality_state : DataQualityState;
  last_rejection_code : option string;
  current_parser_version : option string
}.

Record LeaseCols := mkLease {
  lease_owner : option string;
  lease_generation : Z;
  lease_expires_at : option Z
}.

Record LifeCols := mkLife {
  enabled : bool;
  missing_count : Z;
  lifecycle_state : LifecycleState;
  last_seen_parent_version : option Z;
  consecutive_missing_count : Z;
  tombstoned_at : option Z;
  reactivated_at : option Z
}.

Record TargetRow := mkTarget {
  t_ref : TargetRef;
  t_sched : SchedCols;
  t_pub : PubCols;
  t_lease : LeaseCols;
  t_life : LifeCols
}.

(** scrape_host_state: rates in thousandths of a request per second (NUMERIC(8,3)),
    tokens in millionths (NUMERIC(12,6)). *)
Record HostRow := mkHost {
  baseline_rps : Z;
  current_rps : Z;
  burst : Z;
  available_tokens : Z;
  tokens_updated_at : Z;
  baseline_concurrency : Z;
  current_concurrency : Z;
  consecutive_429s : Z;
  last_429_at : option Z;
  healthy_streak : Z;
  paused_until : option Z
}.

(** scrape_runs *)
Record RunRow := mkRun {
  r_target : Z;
  r_worker : string;
  r_generation : Z;
  r_outcome : RunOutcome;
  r_started_at : Z;
  r_finished_at : Z;
  r_http_status : option Z;
  r_duration_ms : Z;
  r_bytes_read : Z;
  r_error_kind : option string;
  r_error_message : option string;
  r_next_run_at : Z;
  r_validation_seq_after : option Z
}.

(** scrape_snapshots *)
Record SnapRow := mkSnap {
  s_target : Z;
  s_run : option Z;
  s_version : Z;
  s_hash : string;
  s_payload : string;
  s_content_fetched_at : Z;
  s_verified_at : option Z;
  s_parser_version : option string;
  s_schema_version : option string;
  s_raw_body_hash : option string;
  s_complete : bool;
  s_manifest : SnapshotManifest;
  s_validation_report : ValidationReport
}.

(** snapshot_commit_events: the outbox *)
Record EventRow := mkEvent {
  e_snapshot : Z;
  e_target : Z;
  e_version : Z;
  e_kind : SnapshotKind;
  e_committed_at : Z
}.

(** scrape_host_permits *)
Record PermitRow := mkPermit {
  pm_host : string;
  pm_target : Z;
  pm_worker : string;
  pm_generation : Z;
  pm_acquired_at : Z;
  pm_expires_at : Z
}.

(** The last value each [BIGSERIAL] returned. *)
Record Seqs := mkSeqs { q_target : Z; q_run : Z; q_snap : Z; q_event : Z; q_permit : Z }.

Record DB := mkDB {
  db_hosts : gmap string HostRow;
  db_targets : gmap Z TargetRow;
  db_runs : gmap Z RunRow;
  db_snaps : gmap Z SnapRow;
  db_cands : gmap (Z * Z * Z) ScrapeCandidate;
  db_events : gmap Z EventRow;
  db_permits : gmap Z PermitRow;
  db_checkpoints : gmap string Z;
  db_notified : list SnapshotMetadata;
  db_seqs : Seqs
}.

Definition empty_db : DB := mkDB ∅ ∅ ∅ ∅ ∅ ∅ ∅ ∅ [] (mkSeqs 0 0 0 0 0).

(** ** Replacing one table *)

Definition set_hosts (h : gmap string HostRow) (db : DB) : DB :=
  mkDB h (db_targets db) (db_runs db) (db_snaps db) (db_cands db) (db_events db)
    (db_permits db) (db_checkpoints db) (db_notified db) (db_seqs db).
Definition set_targets (t : gmap Z TargetRow) (db : DB) : DB :=
  mkDB (db_hosts db) t (db_runs db) (db_snaps db) (db_cands db) (db_events db)
    (db_permits db) (db_checkpoints db) (db_notified db) (db_seqs db).
Definition set_snaps (s : gmap Z SnapRow) (db : DB) : DB :=
  mkDB (db_hosts db) (db_targets db) (db_runs db) s (db_cands db) (db_events db)
    (db_permits db) (db_checkpoints db) (db_notified db) (db_seqs db).
Definition set_runs (r : gmap Z RunRow) (db : DB) : DB :=
  mkDB (db_hosts db) (db_targets db) r (db_snaps db) (db_cands db) (db_events db)
    (db_permits db) (db_checkpoints db) (db_notified db) (db_seqs db).
Definition set_cands (c : gmap (Z * Z * Z) ScrapeCandidate) (db : DB) : DB :=
  mkDB (db_hosts db) (db_targets db) (db_runs db) (db_snaps db) c (db_events db)
    (db_permits db) (db_checkpoints db) (db_notified db) (db_seqs db).
Definition set_events (e : gmap Z EventRow) (db : DB) : DB :=
  mkDB (db_hosts db) (db_targets db) (db_runs db) (db_snaps db) (db_cands db) e
    (db_permits db) (db_checkpoints db) (db_notified db) (db_seqs db).
Definition set_permits (p : gmap Z PermitRow) (db : DB) : DB :=
  mkDB (db_hosts db) (db_targets db) (db_runs db) (db_snaps db) (db_cands db) (db_events db)
    p (db_checkpoints db) (db_notified db) (db_seqs db).
Definition set_checkpoints (c : gmap string Z) (db : DB) : DB :=
  mkDB (db_hosts db) (db_targets db) (db_runs db) (db_snaps db) (db_cands db) (db_events db)
    (db_permits db) c (db_notified db) (db_seqs db).

(** * Constraints *)

Definition int4 (z : Z) : bool := (- 2 ^ 31 <=? z) && (z <? 2 ^ 31).
Definition int8 (z : Z) : bool := (min_int64 <=? z) && (z <=? max_int64).
Definition int2 (z : Z) : bool := (- 2 ^ 15 <=? z) && (z <? 2 ^ 15).

Definition is_none {A} (o : option A) : bool := match o with None => true | Some _ => false end.
Definition is_some {A} (o : option A) : bool := negb (is_none o).

(** The CHECK constraints of scrape_targets and the ranges of its integer columns. *)
Definition target_check (t : TargetRow) : bool :=
  kind_Valid (ref_Kind (t_ref t)) &&
  (0 <=? missing_count (t_life t)) && (missing_count (t_life t) <=? 2) &&
  (0 <? current_interval_seconds (t_sched t)) && int4 (current_interval_seconds (t_sched t)) &&
  (0 <? min_interval_seconds (t_sched t)) && int4 (min_interval_seconds (t_sched t)) &&
  (min_interval_seconds (t_sched t) <=? max_interval_seconds (t_sched t)) &&
  int4 (max_interval_seconds (t_sched t)) &&
  (max_interval_seconds (t_sched t) <=? max_serve_age_seconds (t_sched t)) &&
  int4 (max_serve_age_seconds (t_sched t)) &&
  int2 (priority (t_sched t)) &&
  (0 <=? validation_seq (t_pub t)) &&
  (0 <=? consecutive_failures (t_sched t)) && int4 (consecutive_failures (t_sched t)) &&
  (length (recent_changes (t_sched t)) <=? 10)%nat &&
  (0 <=? current_version (t_pub t)) &&
  (0 <=? lease_generation (t_lease t)) &&
  eqb (is_none (lease_owner (t_lease t))) (is_none (lease_expires_at (t_lease t))) &&
  (is_none (current_snapshot_id (t_pub t)) && (current_version (t_pub t) =? 0) &&
     is_none (current_content_hash (t_pub t))
   || is_some (current_snapshot_id (t_pub t)) && (0 <? current_version (t_pub t)) &&
     is_some (current_content_hash (t_pub t))) &&
  quality_Valid (quality_state (t_pub t)) &&
  int4 (consecutive_missing_count (t_life t)) &&
  int4 (previous_record_count (t_pub t)) &&
  int8 (validation_seq (t_pub t)) && int8 (current_version (t_pub t)) &&
  int8 (lease_generation (t_lease t)).

Definition host_check (h : HostRow) : bool :=
  (250 <=? baseline_rps h) && (baseline_rps h <=? 5000) &&
  (250 <=? current_rps h) && (current_rps h <=? 5000) &&
  (1 <=? burst h) && (burst h <=? 5) &&
  (0 <=? available_tokens h) && (available_tokens h <=? 1000000 * burst h) &&
  (1 <=? baseline_concurrency h) && (baseline_concurrency h <=? 4) &&
  (1 <=? current_concurrency h) && (current_concurrency h <=? 4) &&
  (0 <=? consecutive_429s h) && int4 (consecutive_429s h) &&
  (0 <=? healthy_streak h) && int4 (healthy_streak h).

Definition run_check (r : RunRow) : bool :=
  (0 <? r_generation r) && negb (match r_outcome r with ROther _ => true | _ => false end) &&
  (r_started_at r <=? r_finished_at r) && (0 <=? r_duration_ms r) && (0 <=? r_bytes_read r) &&
  match r_validation_seq_after r with Some v => 0 <=? v | None => true end &&
  match r_http_status r with Some v => int4 v | None => true end &&
  match r_error_message r with Some m => (RuneCountInString m <=? 512)%nat | None => true end.

Definition hash_len_ok (h : string) : bool :=
  bool_decide (h = "") || (String.length h =? 64)%nat.

Definition cand_check (c : ScrapeCandidate) : bool :=
  (0 <? sca_AttemptNumber c) && int4 (sca_AttemptNumber c) && int4 (sca_HTTPStatus c) &&
  hash_len_ok (sca_RawBodyHash c) && hash_len_ok (sca_CanonicalHash c).

(** What the statements use of PostgreSQL beyond rows and constraints: the collation
    of text columns, the syntax of the uuid type, the conversion of a float8 to a
    NUMERIC column (in units of the column's scale), the cast from integer to interval,
    the value of a time in a TIMESTAMPTZ column, and the text a JSONB column gives back for
    a JSON text; [None] when the server rejects the statement. *)
Class Postgres := {
  text_lt : string → string → bool;
  uuid_valid : string → bool;
  numeric_of_float8 : Z → Q → Z;
  interval_of_int : Z → option Z;
  timestamptz : Z → Z;
  jsonb_text : string → option string
}.

(** * Repository errors and requests *)

Inductive RepoError :=
| ErrSnapshotNotFound
| ErrLeaseLost
| ErrTargetLeased
| ErrHostPaused
| ErrBadRef (e : DomainError)
| ErrInvalid (msg : string)
| ErrConstraint (table : string)
| ErrNoRows.

Record ClaimRequest := {
  cr_Now : Z;
  cr_Limit : Z;
  cr_WorkerID : string;
  cr_LeaseDuration : Z
}.

Record ClaimOneRequest := {
  co_Ref : TargetRef;
  co_Now : Z;
  co_WorkerID : string;
  co_LeaseDuration : Z
}.

Record CommitInput := {
  ci_TargetID : Z;
  ci_WorkerID : string;
  ci_LeaseGeneration : Z;
  ci_Outcome : RunOutcome;
  ci_StartedAt : Z;
  ci_FinishedAt : Z;
  ci_HTTPStatus : option Z;
  ci_BytesRead : Z;
  ci_ErrorKind : string;
  ci_ErrorMessage : string;
  ci_NextRunAt : Z;
  ci_CurrentInterval : Z;
  ci_ConsecutiveFailures : Z;
  ci_RecentChanges : list bool;
  ci_ValidatedAt : option Z;
  ci_ValidationSeqAfter : option Z;
  ci_ETag : string;
  ci_LastModified : string;
  ci_CacheControl : string;
  ci_Changed : bool;
  ci_ContentHash : string;
  ci_Payload : string;
  ci_Discovered : list TargetSeed;
  ci_SeenChildRefs : list TargetRef;
  ci_RecordsCount : Z;
  ci_Manifest : SnapshotManifest;
  ci_Validation : ValidationReport;
  ci_ParserVersion : string;
  ci_SchemaVersion : string;
  ci_RawBodyHash : string;
  ci_LastRejectionCode : string;
  ci_Candidates : list ScrapeCandidate
}.

Record CommitResult := {
  cm_RunID : Z;
  cm_Snapshot : option Snapshot;
  cm_Metadata : option SnapshotMetadata
}.

(** * Statements *)

(** [int64(value / time.Second)] *)
Definition durationSeconds (value : Z) : Z := Z.quot value Second.

Definition nullif_empty (s : string) : option string := if bool_decide (s = "") then None else Some s.

(** [SELECT ... WHERE host=$1 AND kind=$2 AND parent_key=$3 AND resource_key=$4]: the
    rows with a reference; the UNIQUE constraint leaves at most one. *)
Definition rows_with_ref (targets : gmap Z TargetRow) (ref : TargetRef) : list (Z * TargetRow) :=
  filter (λ p, t_ref p.2 = ref) (map_to_list targets).

Definition find_target (db : DB) (ref : TargetRef) : option (Z * TargetRow) :=
  head (rows_with_ref (db_targets db) ref).

(** [UPDATE scrape_targets SET f WHERE p]: every matching row is replaced; one row that
    violates a CHECK aborts the statement.  Returns the number of rows. *)
Definition update_where (p : Z → TargetRow → bool) (f : TargetRow → TargetRow) (db : DB)
    : result RepoError (DB * Z) :=
  let hit := filter (λ kv, p kv.1 kv.2 = true) (db_targets db) in
  let new := f <$> hit in
  if bool_decide (map_Forall (λ _ t, target_check t = true) new)
  then Ok (set_targets (new ∪ db_targets db) db, Z.of_nat (size hit))
  else Err (ErrConstraint "scrape_targets").

(** * The row the application sees *)

Definition secs (n : Z) : Z := n * Second.

(** [scanScrapeTarget] *)
Definition scanScrapeTarget (id : Z) (t : TargetRow) : ScrapeTarget :=
  {| st_ID := id;
     st_Ref := t_ref t;
     st_Attributes := attributes (t_sched t);
     st_Priority := priority (t_sched t);
     st_MissingCount := missing_count (t_life t);
     st_CurrentContentHash := default zero_hash (current_content_hash (t_pub t));
     st_HasCurrentSnapshot := is_some (current_snapshot_id (t_pub t));
     st_CurrentVersion := current_version (t_pub t);
     st_ValidationSeq := validation_seq (t_pub t);
     st_CurrentInterval := secs (current_interval_seconds (t_sched t));
     st_MinInterval := secs (min_interval_seconds (t_sched t));
     st_MaxInterval := secs (max_interval_seconds (t_sched t));
     st_MaxServeAge := secs (max_serve_age_seconds (t_sched t));
     st_NextRunAt := next_run_at (t_sched t);
     st_LastValidatedAt := last_validated_at (t_pub t);
     st_ConsecutiveFailures := consecutive_failures (t_sched t);
     st_RecentChanges := recent_changes (t_sched t);
     st_Conditional := {| ch_ETag := default "" (etag (t_pub t));
                          ch_LastModified := default "" (last_modified (t_pub t)) |};
     st_LeaseOwner := default "" (lease_owner (t_lease t));
     st_LeaseGeneration := lease_generation (t_lease t);
     st_LeaseExpiresAt := lease_expires_at (t_lease t);
     st_PreviousRecordCount := previous_record_count (t_pub t);
     st_LifecycleState := lifecycle_state (t_life t);
     st_LastSeenParentVersion := last_seen_parent_version (t_life t);
     st_ConsecutiveMissingCount := consecutive_missing_count (t_life t);
     st_TombstonedAt := tombstoned_at (t_life t);
     st_ReactivatedAt := reactivated_at (t_life t) |}.

(** * Lemmas on statements *)

Lemma set_targets_targets ts db : db_targets (set_targets ts db) = ts.
Proof. done. Qed.

(** [update_where] rewrites the matching rows and nothing else. *)
Lemma update_where_lookup p f db db' n i :
  update_where p f db = Ok (db', n) →
  db_targets db' !! i = (λ t, if p i t then f t else t) <$> db_targets db !! i.
Proof.
  unfold update_where. intros E. case_bool_decide as Hc; [|done]. simplify_eq/=.
  rewrite lookup_union, lookup_fmap, map_lookup_filter.
  destruct (db_targets db !! i) as [t|] eqn:Et; cbn.
  - destruct (p i t) eqn:Ep; [rewrite option_guard_True by done|rewrite option_guard_False by (cbn; congruence)]; done.
  - done.
Qed.

Lemma update_where_others p f db db' n :
  update_where p f db = Ok (db', n) → db' = set_targets (db_targets db') db.
Proof. unfold update_where. intros E. case_bool_decide; by simplify_eq/=. Qed.

Lemma update_where_count p f db db' n :
  update_where p f db = Ok (db', n) →
  n = Z.of_nat (size (filter (λ kv, p kv.1 kv.2 = true) (db_targets db))).
Proof. unfold update_where. intros E. case_bool_decide; by simplify_eq/=. Qed.

(** A statement that succeeds keeps the CHECK constraints. *)
Lemma update_where_check p f db db' n :
  update_where p f db = Ok (db', n) →
  ∀ i t, db_targets db !! i = Some t → p i t = true → target_check (f t) = true.
Proof.
  unfold update_where. intros E i t Hi Hp. case_bool_decide as Hc; [|done].
  apply (Hc i). rewrite lookup_fmap, map_lookup_filter, Hi. cbn.
  by rewrite option_guard_True.
Qed.

(** No row matched. *)
Lemma update_where_zero p f db db' n :
  update_where p f db = Ok (db', n) →
  n = 0 ↔ ∀ i t, db_targets db !! i = Some t → p i t = false.
Proof.
  intros ->%update_where_count. split.
  - intros Hn i t Hi. destruct (p i t) eqn:Ep; [|done]. exfalso.
    assert (Hs : size (filter (λ kv, p kv.1 kv.2 = true) (db_targets db)) = 0%nat) by lia.
    apply map_size_empty_inv in Hs.
    assert (Hx : filter (λ kv, p kv.1 kv.2 = true) (db_targets db) !! i = Some t).
    { by apply map_lookup_filter_Some. }
    by rewrite Hs, lookup_empty in Hx.
  - intros Hn. replace (filter _ _) with (∅ : gmap Z TargetRow); [done|].
    symmetry. apply map_empty. intros i. apply map_lookup_filter_None. right.
    intros t Hi. cbn. by rewrite (Hn i t Hi).
Qed.

Lemma map_size_filter_eq {A} (m : gmap Z A) (P : Z * A → Prop) `{∀ x, Decision (P x)} i t :
  m !! i = Some t → P (i, t) → (∀ j u, m !! j = Some u → P (j, u) → j = i) →
  filter P m = {[i := t]}.
Proof.
  intros Hi Hp Hu. apply map_eq. intros j. destruct (decide (j = i)) as [->|Hj].
  - rewrite lookup_singleton_eq. by apply map_lookup_filter_Some.
  - rewrite lookup_singleton_ne by done. apply map_lookup_filter_None. right.
    intros u Hu' Hpu. by apply Hj, (Hu j u).
Qed.

(** Exactly one row matched. *)
Lemma update_where_one p f db db' n i t :
  update_where p f db = Ok (db', n) → db_targets db !! i = Some t → p i t = true →
  (∀ j u, p j u = true → j = i) → n = 1 ∧ db' = set_targets (<[i := f t]> (db_targets db)) db.
Proof.
  intros E Hi Hp Hu. pose proof (update_where_count _ _ _ _ _ E) as Hn.
  rewrite (map_size_filter_eq _ _ i t) in Hn by (cbn; eauto).
  rewrite map_size_singleton in Hn. split; [done|].
  pose proof (update_where_others _ _ _ _ _ E) as Ho. rewrite Ho. f_equal.
  apply map_eq. intros j. rewrite (update_where_lookup _ _ _ _ _ j E).
  destruct (decide (j = i)) as [->|Hj].
  - rewrite lookup_insert_eq, Hi. cbn. by rewrite Hp.
  - rewrite lookup_insert_ne by done. destruct (db_targets db !! j) as [u|] eqn:Ej; cbn; [|done].
    destruct (p j u) eqn:Epj; [|done]. by destruct Hj; apply (Hu j u).
Qed.

(** The first row of a query with a WHERE clause. *)
Lemma head_filter_Some {A} (P : Z * A → Prop) `{∀ x, Decision (P x)} (m : gmap Z A) i a :
  head (filter P (map_to_list m)) = Some (i, a) → m !! i = Some a ∧ P (i, a).
Proof.
  intros [l E]%head_Some.
  assert (Hin : (i, a) ∈ filter P (map_to_list m)) by (rewrite E; left).
  apply list_elem_of_filter in Hin as [Hp Hin]. by apply elem_of_map_to_list in Hin.
Qed.

Lemma head_filter_None {A} (P : Z * A → Prop) `{∀ x, Decision (P x)} (m : gmap Z A) :
  head (filter P (map_to_list m)) = None ↔ ∀ i a, m !! i = Some a → ¬ P (i, a).
Proof.
  rewrite head_None. split.
  - intros E i a Hi Hp. assert (Hin : (i, a) ∈ filter P (map_to_list m)).
    { apply list_elem_of_filter. split; [done|]. by apply elem_of_map_to_list. }
    rewrite E in Hin. by apply not_elem_of_nil in Hin.
  - intros Hn. destruct (filter P (map_to_list m)) as [|[i a] l] eqn:E; [done|]. exfalso.
    assert (Hin : (i, a) ∈ filter P (map_to_list m)) by (rewrite E; left).
    apply list_elem_of_filter in Hin as [Hp Hin]. apply elem_of_map_to_list in Hin.
    by apply (Hn i a).
Qed.

(** A row that is the only one to match is the one found. *)
Lemma head_filter_unique {A} (P : Z * A → Prop) `{∀ x, Decision (P x)} (m : gmap Z A) i a :
  m !! i = Some a → P (i, a) → (∀ j b, m !! j = Some b → P (j, b) → j = i) →
  head (filter P (map_to_list m)) = Some (i, a).
Proof.
  intros Hi Hp Hu. destruct (head (filter P (map_to_list m))) as [[j b]|] eqn:E.
  - apply head_filter_Some in E as [Hj Hpj]. assert (j = i) as -> by eauto. by simplify_eq.
  - by destruct ((proj1 (head_filter_None P m) E) i a Hi).
Qed.

Lemma find_target_Some db ref i t :
  find_target db ref = Some (i, t) → db_targets db !! i = Some t ∧ t_ref t = ref.
Proof. apply head_filter_Some. Qed.

Lemma find_target_None db ref i t :
  find_target db ref = None → db_targets db !! i = Some t → t_ref t ≠ ref.
Proof. intros E Hi Hr. by destruct ((proj1 (head_filter_None _ _) E) i t Hi). Qed.

(** COUNT of a query with a WHERE clause. *)
Lemma map_to_list_filter {A} (P : Z * A → Prop) `{∀ x, Decision (P x)} (m : gmap Z A) :
  map_to_list (filter P m) ≡ₚ filter P (map_to_list m).
Proof.
  apply NoDup_Permutation; [apply NoDup_map_to_list|apply NoDup_filter, NoDup_map_to_list|].
  intros [i a]. rewrite list_elem_of_filter, !elem_of_map_to_list, map_lookup_filter_Some. tauto.
Qed.
