(* ===== verification/Leases.v ===== *)
(** Seeding and leasing of scrape targets
    ([internal/db/snapshot_repository.go]: Seed, upsertSeeds, ClaimDue, ClaimOne,
    ReleaseLease, RenewLease, SetDueNow, Target, RescheduleLease).

    Each method is one transaction.  [locked] is the set of rows that other
    transactions hold locked when a claim runs ([FOR UPDATE ... SKIP LOCKED]). *)

From stdpp Require Import base list numbers strings gmap sorting.
From Stdlib Require Import ZArith QArith Lia.
From S2P Require Import Prelude Domain Canonical Tables.

Local Open Scope Z_scope.
Local Open Scope stdpp_scope.
Local Open Scope go_scope.

(** * Seeds *)

Definition seed_attrs (s : TargetSeed) : string :=
  if bool_decide (sd_Attributes s = "") then "{}" else sd_Attributes s.

Section seeds.
Context `{GoLib}.

(** The validation pass of [upsertSeeds]: every seed, duplicates included. *)
Fixpoint validate_seeds (seeds : list TargetSeed) : result RepoError unit :=
  match seeds with
  | [] => Ok tt
  | s :: seeds' =>
      match ref_Validate (sd_Ref s) with
      | Err e => Err (ErrBadRef e)
      | Ok _ =>
          if (sd_InitialInterval s <=? 0) || (sd_MinInterval s <=? 0) ||
             (sd_MaxInterval s <? sd_MinInterval s) || (sd_MaxServeAge s <? sd_MaxInterval s)
          then Err (ErrInvalid "invalid policy for target")
          else if time_IsZero (sd_NextRunAt s) then Err (ErrInvalid "target next run is required")
          else if negb (json_Valid (seed_attrs s)) then Err (ErrInvalid "target attributes are invalid JSON")
          else validate_seeds seeds'
      end
  end.
End seeds.

(** A seed whose key occurs again later in the batch is dropped. *)
Fixpoint dedup_seeds (seeds : list TargetSeed) : list TargetSeed :=
  match seeds with
  | [] => []
  | s :: seeds' =>
      if bool_decide (sd_Ref s ∈ map sd_Ref seeds') then dedup_seeds seeds'
      else s :: dedup_seeds seeds'
  end.

Definition seed_priority (s : TargetSeed) : Z := if sd_Priority s <=? 0 then 50 else sd_Priority s.

(** The inserted row, with the column defaults of the schema. *)
Definition seed_row (s : TargetSeed) : TargetRow :=
  mkTarget (sd_Ref s)
    (mkSched (seed_attrs s) (seed_priority s) (durationSeconds (sd_InitialInterval s))
       (durationSeconds (sd_MinInterval s)) (durationSeconds (sd_MaxInterval s))
       (durationSeconds (sd_MaxServeAge s)) (sd_NextRunAt s) None 0 [])
    (mkPub None None 0 None None None None 0 None 0 DataQualityUnavailable None None)
    (mkLease None 0 None)
    (mkLife true 0 LifeActive None 0 None None).

(** ON CONFLICT (host, kind, parent_key, resource_key) DO UPDATE *)
Definition seed_conflict (s : TargetSeed) (t : TargetRow) : TargetRow :=
  let old := t_sched t in
  mkTarget (t_ref t)
    (mkSched (seed_attrs s) (Z.min (priority old) (seed_priority s))
       (Z.min (durationSeconds (sd_MaxInterval s))
          (Z.max (current_interval_seconds old) (durationSeconds (sd_MinInterval s))))
       (durationSeconds (sd_MinInterval s)) (durationSeconds (sd_MaxInterval s))
       (durationSeconds (sd_MaxServeAge s)) (Z.min (next_run_at old) (sd_NextRunAt s))
       (last_attempt_at old) (consecutive_failures old) (recent_changes old))
    (t_pub t) (t_lease t)
    (mkLife true 0 (lifecycle_state (t_life t)) (last_seen_parent_version (t_life t))
       (consecutive_missing_count (t_life t)) (tombstoned_at (t_life t)) (reactivated_at (t_life t))).

Definition insert_target (t : TargetRow) (db : DB) : DB :=
  let q := db_seqs db in
  let id := q_target q + 1 in
  mkDB (db_hosts db) (<[id := t]> (db_targets db)) (db_runs db) (db_snaps db) (db_cands db)
    (db_events db) (db_permits db) (db_checkpoints db) (db_notified db)
    (mkSeqs id (q_run q) (q_snap q) (q_event q) (q_permit q)).

(** The proposed row is checked before the conflict is looked for, the host of a row that is
    inserted after it. *)
Definition upsert_seed (s : TargetSeed) (db : DB) : result RepoError DB :=
  if negb (target_check (seed_row s)) then Err (ErrConstraint "scrape_targets")
  else
    match find_target db (sd_Ref s) with
    | Some (id, t) =>
        if target_check (seed_conflict s t)
        then Ok (set_targets (<[id := seed_conflict s t]> (db_targets db)) db)
        else Err (ErrConstraint "scrape_targets")
    | None =>
        if is_none (db_hosts db !! ref_Host (sd_Ref s)) then Err (ErrConstraint "scrape_targets.host")
        else Ok (insert_target (seed_row s) db)
    end.

Fixpoint upsert_all (seeds : list TargetSeed) (db : DB) : result RepoError DB :=
  match seeds with
  | [] => Ok db
  | s :: seeds' => let* db' := upsert_seed s db in upsert_all seeds' db'
  end.

Definition upsertSeeds `{GoLib} (seeds : list TargetSeed) (db : DB) : result RepoError DB :=
  let* _ := validate_seeds seeds in upsert_all (dedup_seeds seeds) db.

(** * Claims *)

Definition validateClaim (now : Z) (worker : string) (lease : Z) : result RepoError unit :=
  if time_IsZero now then Err (ErrInvalid "claim time is required")
  else if blank worker then Err (ErrInvalid "claim worker ID is required")
  else if lease <=? 0 then Err (ErrInvalid "claim lease duration must be positive")
  else Ok tt.

Definition not_later (o : option Z) (now : Z) : bool :=
  match o with None => true | Some t => t <=? now end.

Definition host_ready (db : DB) (host : string) (now : Z) : bool :=
  match db_hosts db !! host with
  | None => false
  | Some h => not_later (paused_until h) now
  end.

Definition due (db : DB) (now : Z) (t : TargetRow) : bool :=
  enabled (t_life t) && bool_decide (lifecycle_state (t_life t) = LifeActive) &&
  (next_run_at (t_sched t) <=? now) && not_later (lease_expires_at (t_lease t)) now &&
  host_ready db (ref_Host (t_ref t)) now.

(** ORDER BY priority, next_run_at, id *)
Definition less_due : Z * TargetRow → Z * TargetRow → bool :=
  lex_by Z.ltb (λ p, priority (t_sched p.2))
    (lex_by Z.ltb (λ p, next_run_at (t_sched p.2)) (lex_by Z.ltb fst no_less)).

Definition claim_row (worker : string) (now lease : Z) (t : TargetRow) : TargetRow :=
  let s := t_sched t in
  mkTarget (t_ref t)
    (mkSched (attributes s) (priority s) (current_interval_seconds s) (min_interval_seconds s)
       (max_interval_seconds s) (max_serve_age_seconds s) (next_run_at s) (Some now)
       (consecutive_failures s) (recent_changes s))
    (t_pub t)
    (mkLease (Some worker) (lease_generation (t_lease t) + 1)
       (Some (now + secs (durationSeconds lease))))
    (t_life t).

Definition select_due (db : DB) (now limit : Z) (locked : gset Z) : list (Z * TargetRow) :=
  take (Z.to_nat limit)
    (sort_stable less_due
       (filter (λ p, due db now p.2 = true ∧ p.1 ∉ locked) (map_to_list (db_targets db)))).

Definition ClaimDue (req : ClaimRequest) (locked : gset Z) (db : DB)
    : result RepoError (DB * list ScrapeTarget) :=
  fail_if (cr_Limit req <=? 0) with_err (ErrInvalid "claim limit must be positive") in
  let* _ := validateClaim (cr_Now req) (cr_WorkerID req) (cr_LeaseDuration req) in
  let picked := select_due db (cr_Now req) (cr_Limit req) locked in
  let f := claim_row (cr_WorkerID req) (cr_Now req) (cr_LeaseDuration req) in
  let* dn := update_where (λ id _, bool_decide (id ∈ map fst picked)) f db in
  Ok (dn.1, map (λ p, scanScrapeTarget p.1 p.2)
              (sort_stable less_due (map (λ p, (p.1, f p.2)) picked))).

Definition claimable (db : DB) (now : Z) (t : TargetRow) : bool :=
  enabled (t_life t) && not_later (lease_expires_at (t_lease t)) now &&
  host_ready db (ref_Host (t_ref t)) now.

Definition ref_check (ref : TargetRef) : result RepoError unit :=
  match ref_Validate ref with Ok _ => Ok tt | Err e => Err (ErrBadRef e) end.

Definition ClaimOne (req : ClaimOneRequest) (locked : gset Z) (db : DB)
    : result RepoError (DB * ScrapeTarget) :=
  let* _ := ref_check (co_Ref req) in
  let* _ := validateClaim (co_Now req) (co_WorkerID req) (co_LeaseDuration req) in
  let now := co_Now req in
  match find_target db (co_Ref req) with
  | None => Err ErrSnapshotNotFound
  | Some (id, t) =>
      if claimable db now t && bool_decide (id ∉ locked) then
        let f := claim_row (co_WorkerID req) now (co_LeaseDuration req) in
        let* dn := update_where (λ i _, bool_decide (i = id)) f db in
        Ok (dn.1, scanScrapeTarget id (f t))
      else
        match db_hosts db !! ref_Host (co_Ref req) with
        | None => Err ErrSnapshotNotFound
        | Some h =>
            if negb (enabled (t_life t)) then Err ErrSnapshotNotFound
            else if negb (not_later (paused_until h) now) then Err ErrHostPaused
            else Err ErrTargetLeased
        end
  end.

(** * Leases *)

Definition held (id : Z) (generation : Z) (i : Z) (t : TargetRow) : bool :=
  (i =? id) && (lease_generation (t_lease t) =? generation).

Definition clear_lease (t : TargetRow) : TargetRow :=
  mkTarget (t_ref t) (t_sched t) (t_pub t) (mkLease None (lease_generation (t_lease t)) None) (t_life t).

Definition set_next_run (at_ : Z) (t : TargetRow) : TargetRow :=
  let s := t_sched t in
  mkTarget (t_ref t)
    (mkSched (attributes s) (priority s) (current_interval_seconds s) (min_interval_seconds s)
       (max_interval_seconds s) (max_serve_age_seconds s) at_ (last_attempt_at s)
       (consecutive_failures s) (recent_changes s))
    (t_pub t) (t_lease t) (t_life t).

Definition ReleaseLease (targetID generation : Z) (db : DB) : result RepoError DB :=
  if (targetID <=? 0) || (generation <=? 0)
  then Err (ErrInvalid "release lease requires positive target ID and generation")
  else let* dn := update_where (held targetID generation) clear_lease db in Ok dn.1.

Definition RenewLease (targetID : Z) (workerID : string) (generation leaseDuration now : Z) (db : DB)
    : result RepoError DB :=
  if (targetID <=? 0) || (generation <=? 0)
  then Err (ErrInvalid "renew lease requires positive target ID and generation")
  else if blank workerID then Err (ErrInvalid "renew lease requires worker ID")
  else if leaseDuration <=? 0 then Err (ErrInvalid "renew lease requires positive lease duration")
  else
    let* dn := update_where
      (λ i t, held targetID generation i t && bool_decide (lease_owner (t_lease t) = Some workerID))
      (λ t, mkTarget (t_ref t) (t_sched t) (t_pub t)
         (mkLease (lease_owner (t_lease t)) (lease_generation (t_lease t))
            (Some (now + secs (durationSeconds leaseDuration)))) (t_life t)) db in
    if dn.2 =? 0 then Err ErrLeaseLost else Ok dn.1.

Definition SetDueNow (ref : TargetRef) (now : Z) (db : DB) : result RepoError DB :=
  let* _ := ref_check ref in
  let* dn := update_where (λ _ t, bool_decide (t_ref t = ref))
    (λ t, set_next_run (Z.min (next_run_at (t_sched t)) now) t) db in
  if dn.2 =? 0 then Err ErrSnapshotNotFound else Ok dn.1.

Definition Target (ref : TargetRef) (db : DB) : result RepoError ScrapeTarget :=
  let* _ := ref_check ref in
  match find_target db ref with
  | None => Err ErrSnapshotNotFound
  | Some (id, t) => Ok (scanScrapeTarget id t)
  end.

Definition RescheduleLease (targetID generation nextRunAt : Z) (db : DB) : result RepoError DB :=
  let* dn := update_where (held targetID generation) (λ t, clear_lease (set_next_run nextRunAt t)) db in
  if dn.2 =? 0 then Err ErrLeaseLost else Ok dn.1.

(** [CountDue] *)
Definition CountDue (now : Z) (db : DB) : Z :=
  Z.of_nat (length (filter (λ p, due db now p.2 = true) (map_to_list (db_targets db)))).

(** [Seed]: one transaction around [upsertSeeds]. *)
Definition Seed `{GoLib} (seeds : list TargetSeed) (db : DB) : result RepoError DB :=
  match seeds with [] => Ok db | _ => upsertSeeds seeds db end.
