(* ===== verification/Lifecycle.v ===== *)
(** Presence of child targets in their parent's listing
    ([internal/db/snapshot_repository.go]: applyChildPresence inside a commit,
    ReconcileLifecycle after it). *)

From stdpp Require Import base list numbers strings gmap sorting.
From Stdlib Require Import ZArith Lia.
From S2P Require Import Prelude Domain Canonical Tables Leases.

Local Open Scope Z_scope.
Local Open Scope stdpp_scope.
Local Open Scope go_scope.

(** * Children *)

(** The kind and the parent key of the children a parent lists. *)
Definition child_scope (parent : TargetRef) : option (SnapshotKind * string) :=
  match ref_Kind parent with
  | SnapshotCourseCatalog => Some (SnapshotCourseDetail, "")
  | SnapshotCourseDetail => Some (SnapshotSessionDetail, ref_ResourceKey parent)
  | _ => None
  end.

(** The resource keys of the seen references that are in the parent's scope. *)
Definition seen_keys (host : string) (childKind : SnapshotKind) (childParent : string)
    (seen : list TargetRef) : list string :=
  map ref_ResourceKey
    (filter (λ r, ref_Host r = host ∧ ref_Kind r = childKind ∧ ref_ParentKey r = childParent) seen).

Definition in_scope (host : string) (childKind : SnapshotKind) (childParent : string) (t : TargetRow) : bool :=
  bool_decide (ref_Host (t_ref t) = host ∧ ref_Kind (t_ref t) = childKind ∧
               ref_ParentKey (t_ref t) = childParent).

Definition listed (keys : list string) (t : TargetRow) : bool :=
  bool_decide (ref_ResourceKey (t_ref t) ∈ keys).

Definition set_life (f : LifeCols → LifeCols) (t : TargetRow) : TargetRow :=
  mkTarget (t_ref t) (t_sched t) (t_pub t) (t_lease t) (f (t_life t)).

(** * applyChildPresence *)

Definition present_life (l : LifeCols) : LifeCols :=
  mkLife true 0 (lifecycle_state l) (last_seen_parent_version l)
    (consecutive_missing_count l) (tombstoned_at l) (reactivated_at l).

Definition absent_life (l : LifeCols) : LifeCols :=
  mkLife (if 1 <=? missing_count l then false else enabled l) (Z.min 2 (missing_count l + 1))
    (lifecycle_state l) (last_seen_parent_version l)
    (consecutive_missing_count l) (tombstoned_at l) (reactivated_at l).

Definition applyChildPresence (parent : TargetRef) (seen : list TargetRef) (db : DB)
    : result RepoError DB :=
  match child_scope parent with
  | None => Ok db
  | Some (childKind, childParent) =>
      let keys := seen_keys (ref_Host parent) childKind childParent seen in
      let mine := in_scope (ref_Host parent) childKind childParent in
      let* db1 :=
        match keys with
        | [] => Ok db
        | _ => let* dn := update_where (λ _ t, mine t && listed keys t) (set_life present_life) db in
               Ok dn.1
        end in
      let* dn := update_where (λ _ t, mine t && negb (listed keys t)) (set_life absent_life) db1 in
      Ok dn.1
  end.

(** * ReconcileLifecycle *)

Record LifecycleReconcileInput := {
  lr_ParentRef : TargetRef;
  lr_ParentVersion : Z;
  lr_DiscoveredSeeds : list TargetSeed;
  lr_SeenChildRefs : list TargetRef
}.

Definition tombstoneThresholdForChildKind (childKind : SnapshotKind) : Z :=
  match childKind with
  | SnapshotSessionDetail => 2
  | SnapshotCourseDetail => 3
  | _ => 3
  end.

(** The first UPDATE: a listed child is active again; one that was tombstoned is due
    at once with its failures forgotten.  [dbnow] is the database's NOW(). *)
Definition activate_row (parentVersion dbnow : Z) (t : TargetRow) : TargetRow :=
  let l := t_life t in
  let s := t_sched t in
  let was := bool_decide (lifecycle_state l = LifeTombstoned) in
  mkTarget (t_ref t)
    (mkSched (attributes s) (priority s) (current_interval_seconds s) (min_interval_seconds s)
       (max_interval_seconds s) (max_serve_age_seconds s)
       (if was then dbnow else next_run_at s) (last_attempt_at s)
       (if was then 0 else consecutive_failures s) (recent_changes s))
    (t_pub t) (t_lease t)
    (mkLife true (missing_count l) LifeActive (Some parentVersion) 0
       (if was then None else tombstoned_at l)
       (if was then Some dbnow else reactivated_at l)).

(** The second UPDATE: one more miss, and a tombstone at the threshold. *)
Definition missing_life (threshold dbnow : Z) (l : LifeCols) : LifeCols :=
  let n := consecutive_missing_count l + 1 in
  let dead := threshold <=? n in
  mkLife (if dead then false else enabled l) (missing_count l)
    (if dead then LifeTombstoned else LifeMissing) (last_seen_parent_version l) n
    (if dead then Some dbnow else tombstoned_at l) (reactivated_at l).

Definition not_tombstoned (t : TargetRow) : bool :=
  bool_decide (lifecycle_state (t_life t) = LifeActive ∨ lifecycle_state (t_life t) = LifeMissing).

Definition ReconcileLifecycle `{GoLib} (input : LifecycleReconcileInput) (dbnow : Z) (db : DB)
    : result RepoError DB :=
  let parent := lr_ParentRef input in
  match child_scope parent with
  | None => Ok db
  | Some (childKind, parentKey) =>
      let* db0 := upsertSeeds (lr_DiscoveredSeeds input) db in
      let keys := seen_keys (ref_Host parent) childKind parentKey (lr_SeenChildRefs input) in
      let mine := in_scope (ref_Host parent) childKind parentKey in
      let* db1 :=
        match keys with
        | [] => Ok db0
        | _ => let* dn := update_where (λ _ t, mine t && listed keys t)
                            (activate_row (lr_ParentVersion input) dbnow) db0 in Ok dn.1
        end in
      let* dn := update_where (λ _ t, mine t && negb (listed keys t) && not_tombstoned t)
                   (set_life (missing_life (tombstoneThresholdForChildKind childKind) dbnow)) db1 in
      Ok dn.1
  end.
