(* ===== verification/Reads.v ===== *)
(** The read side of the snapshot store ([internal/db/snapshot_repository.go]:
    Current, Metadata, deriveQualityState, ListMetadata, AnyOverdue). *)

From stdpp Require Import base list numbers strings gmap sorting.
From Stdlib Require Import ZArith Lia.
From S2P Require Import Prelude Domain Canonical Tables Leases.

Local Open Scope Z_scope.
Local Open Scope stdpp_scope.
Local Open Scope go_scope.

Definition deriveQualityState (stored : DataQualityState) (verifiedAt : option Z)
    (maxServeAge now : Z) : DataQualityState :=
  if negb (quality_Valid stored) then DataQualityUnavailable
  else
    match verifiedAt with
    | None => stored
    | Some v =>
        if negb (bool_decide (stored = DataQualityVerifiedFresh)) || time_IsZero v || (maxServeAge <=? 0)
        then stored
        else if maxServeAge <? time_Sub now v then DataQualityVerifiedStale
        else stored
    end.

(** [JOIN scrape_snapshots ON snapshot.id = target.current_snapshot_id] *)
Definition current_snap (db : DB) (t : TargetRow) : option (Z * SnapRow) :=
  sid ← current_snapshot_id (t_pub t); s ← db_snaps db !! sid; Some (sid, s).

(** The scanned row of [Current]. *)
Definition current_row (ref : TargetRef) (id : Z) (t : TargetRow) (sid : Z) (s : SnapRow) (validated : Z)
    : Snapshot :=
  {| sn_ID := sid; sn_TargetID := id; sn_Ref := ref; sn_Version := s_version s;
     sn_ValidationSeq := validation_seq (t_pub t); sn_ContentHash := s_hash s;
     sn_Payload := s_payload s; sn_ContentFetchedAt := s_content_fetched_at s;
     sn_ValidatedAt := validated; sn_VerifiedAt := default 0 (s_verified_at s);
     sn_NextRunAt := next_run_at (t_sched t);
     sn_MaxServeAge := secs (max_serve_age_seconds (t_sched t));
     sn_ParserVersion := default "" (s_parser_version s);
     sn_SchemaVersion := default "" (s_schema_version s);
     sn_RawBodyHash := default "" (s_raw_body_hash s);
     sn_Complete := s_complete s; sn_Manifest := s_manifest s;
     sn_ValidationReport := s_validation_report s |}.

Definition Current (ref : TargetRef) (db : DB) : result RepoError Snapshot :=
  let* _ := ref_check ref in
  match find_target db ref with
  | None => Err ErrSnapshotNotFound
  | Some (id, t) =>
      if bool_decide (lifecycle_state (t_life t) ≠ LifeActive) then Err ErrSnapshotNotFound
      else
        match current_snap db t with
        | None => Err ErrSnapshotNotFound
        | Some (sid, s) =>
            match last_validated_at (t_pub t) with
            | None => Err (ErrInvalid "read current snapshot: scan")
            | Some validated => Ok (current_row ref id t sid s validated)
            end
        end
  end.

(** The row of [Metadata] and of [ListMetadata]. *)
Definition metadata_row (now : Z) (t : TargetRow) (s : SnapRow) : result RepoError SnapshotMetadata :=
  match last_validated_at (t_pub t) with
  | None => Err (ErrInvalid "snapshot metadata: scan")
  | Some validated =>
      Ok {| md_Kind := ref_Kind (t_ref t); md_ResourceKey := ref_ResourceKey (t_ref t);
            md_ParentKey := ref_ParentKey (t_ref t); md_Version := current_version (t_pub t);
            md_ValidationSeq := validation_seq (t_pub t); md_ValidatedAt := validated;
            md_Stale := time_After now (next_run_at (t_sched t));
            md_QualityState := deriveQualityState (quality_state (t_pub t)) (s_verified_at s)
                                 (secs (max_serve_age_seconds (t_sched t))) now;
            md_Complete := s_complete s; md_ParserVersion := default "" (s_parser_version s);
            md_EventSequence := 0 |}
  end.

Definition Metadata (ref : TargetRef) (now : Z) (db : DB) : result RepoError SnapshotMetadata :=
  match find_target db ref with
  | None => Err ErrSnapshotNotFound
  | Some (_, t) =>
      if bool_decide (lifecycle_state (t_life t) ≠ LifeActive) then Err ErrSnapshotNotFound
      else match current_snap db t with
           | None => Err ErrSnapshotNotFound
           | Some (_, s) => metadata_row now t s
           end
  end.

Fixpoint map_result {A B E} (f : A → result E B) (l : list A) : result E (list B) :=
  match l with
  | [] => Ok []
  | x :: l' => let* y := f x in let* ys := map_result f l' in Ok (y :: ys)
  end.

(** ORDER BY target.kind, target.parent_key, target.resource_key *)
Definition less_listed `{Postgres} : TargetRow * SnapRow → TargetRow * SnapRow → bool :=
  lex_by text_lt (λ p, kind_string (ref_Kind (t_ref p.1)))
    (lex_by text_lt (λ p, ref_ParentKey (t_ref p.1))
       (lex_by text_lt (λ p, ref_ResourceKey (t_ref p.1)) no_less)).

Definition published_rows (db : DB) : list (TargetRow * SnapRow) :=
  omap (λ p, s ← current_snap db p.2; Some (p.2, s.2)) (map_to_list (db_targets db)).

Definition ListMetadata `{Postgres} (now : Z) (db : DB) : result RepoError (list SnapshotMetadata) :=
  map_result (λ p, metadata_row now p.1 p.2) (sort_stable less_listed (published_rows db)).

Definition AnyOverdue (refs : list TargetRef) (now : Z) (db : DB) : result RepoError bool :=
  match refs with
  | [] => Ok false
  | _ =>
      let* _ := map_result ref_check refs in
      let requested := remove_dups refs in
      let matched := filter (λ t, current_snapshot_id (t_pub t) ≠ None)
        (concat (map (λ r, map snd (rows_with_ref (db_targets db) r)) requested)) in
      if bool_decide (length matched ≠ length requested) then Err ErrSnapshotNotFound
      else Ok (existsb (λ t, next_run_at (t_sched t) <? now) matched)
  end.
