(* ===== verification/Commit.v ===== *)
(** [SnapshotRepository.Commit] ([internal/db/snapshot_repository.go]): the one
    transaction that ends a lease, records the run and, for changed content,
    publishes a version with its outbox event.

    [now] is the application's clock, [dbnow] the database's NOW(). *)

From stdpp Require Import base list numbers strings gmap sorting.
From Stdlib Require Import ZArith Lia.
From S2P Require Import Prelude Sanitize Domain Canonical Tables Leases Lifecycle Reads.

Local Open Scope Z_scope.
Local Open Scope stdpp_scope.
Local Open Scope go_scope.

(** * Helpers *)

Definition validateCommit `{GoLib} (input : CommitInput) : result RepoError unit :=
  fail_if ((ci_TargetID input <=? 0) || (ci_LeaseGeneration input <=? 0))
    with_err (ErrInvalid "commit requires positive target ID and lease generation") in
  fail_if (blank (ci_WorkerID input)) with_err (ErrInvalid "commit worker ID is required") in
  fail_if (match ci_Outcome input with ROther _ => true | _ => false end)
    with_err (ErrInvalid "invalid scrape outcome") in
  fail_if (time_IsZero (ci_StartedAt input) || time_IsZero (ci_FinishedAt input) ||
           time_IsZero (ci_NextRunAt input))
    with_err (ErrInvalid "commit timestamps are required") in
  fail_if ((ci_BytesRead input <? 0) || (ci_ConsecutiveFailures input <? 0))
    with_err (ErrInvalid "commit counters must be non-negative") in
  fail_if (ci_CurrentInterval input <=? 0) with_err (ErrInvalid "commit interval must be positive") in
  if ci_Changed input then
    fail_if (bool_decide (ci_Outcome input ≠ RChanged))
      with_err (ErrInvalid "only changed outcome may insert content") in
    fail_if (negb (sm_Complete (ci_Manifest input)))
      with_err (ErrInvalid "changed commit requires a complete manifest") in
    fail_if (IsZeroContentHash (ci_ContentHash input))
      with_err (ErrInvalid "changed commit content hash is required") in
    guard_err (bool_decide (ci_Payload input = "") || negb (json_Valid (ci_Payload input)))
      (ErrInvalid "changed commit payload must be valid JSON")
  else Ok tt.

Definition successfulOutcome (o : RunOutcome) : bool :=
  match o with RChanged | RUnchanged | RNotModified => true | _ => false end.

(** The column value of [nullableHash]. *)
Definition nullableHash (changed : bool) (hash : string) : option string :=
  if changed then Some hash else None.

Definition trimBoolHistory (history : list bool) : list bool := last_n 10 history.

(** * The result of an earlier commit of the same lease *)

Definition run_of (db : DB) (targetID generation : Z) : option (Z * RunRow) :=
  head (filter (λ p, r_target p.2 = targetID ∧ r_generation p.2 = generation)
          (map_to_list (db_runs db))).

Definition snap_of_run (db : DB) (runID : Z) : option (Z * SnapRow) :=
  head (filter (λ p, s_run p.2 = Some runID) (map_to_list (db_snaps db))).

Definition snapshotByRun (db : DB) (runID now : Z)
    : result RepoError (Snapshot * DataQualityState) :=
  match snap_of_run db runID, db_runs db !! runID with
  | Some (sid, s), Some r =>
      match db_targets db !! s_target s, r_validation_seq_after r with
      | Some t, Some seq =>
          let age := secs (max_serve_age_seconds (t_sched t)) in
          Ok ({| sn_ID := sid; sn_TargetID := s_target s; sn_Ref := t_ref t;
                 sn_Version := s_version s; sn_ValidationSeq := seq; sn_ContentHash := s_hash s;
                 sn_Payload := s_payload s; sn_ContentFetchedAt := s_content_fetched_at s;
                 sn_ValidatedAt := r_finished_at r; sn_VerifiedAt := default 0 (s_verified_at s);
                 sn_NextRunAt := r_next_run_at r; sn_MaxServeAge := age;
                 sn_ParserVersion := default "" (s_parser_version s);
                 sn_SchemaVersion := default "" (s_schema_version s);
                 sn_RawBodyHash := default "" (s_raw_body_hash s);
                 sn_Complete := s_complete s; sn_Manifest := s_manifest s;
                 sn_ValidationReport := s_validation_report s |},
              deriveQualityState (quality_state (t_pub t)) (s_verified_at s) age now)
      | Some _, None => Err (ErrInvalid "read snapshot by run: scan")
      | None, _ => Err ErrNoRows
      end
  | _, _ => Err ErrNoRows
  end.

Definition existingCommitResult (db : DB) (targetID generation now : Z)
    : result RepoError (option CommitResult) :=
  match run_of db targetID generation with
  | None => Ok None
  | Some (runID, r) =>
      if bool_decide (r_outcome r ≠ RChanged)
      then Ok (Some {| cm_RunID := runID; cm_Snapshot := None; cm_Metadata := None |})
      else
        let* sq := snapshotByRun db runID now in
        let snapshot := sq.1 in
        Ok (Some {| cm_RunID := runID; cm_Snapshot := Some snapshot;
          cm_Metadata := Some
            {| md_Kind := ref_Kind (sn_Ref snapshot); md_ResourceKey := ref_ResourceKey (sn_Ref snapshot);
               md_ParentKey := ref_ParentKey (sn_Ref snapshot); md_Version := sn_Version snapshot;
               md_ValidationSeq := sn_ValidationSeq snapshot; md_ValidatedAt := sn_ValidatedAt snapshot;
               md_Stale := snapshot_Stale snapshot now; md_QualityState := sq.2;
               md_Complete := sn_Complete snapshot; md_ParserVersion := sn_ParserVersion snapshot;
               md_EventSequence := 0 |} |})
  end.

(** * The locked body, statement by statement *)

(** SELECT ... FOR UPDATE and the fencing checks. *)
Definition lock_target (input : CommitInput) (db : DB) : result RepoError TargetRow :=
  match db_targets db !! ci_TargetID input with
  | None => Err ErrLeaseLost
  | Some t =>
      if negb (lease_generation (t_lease t) =? ci_LeaseGeneration input) then Err ErrLeaseLost
      else if bool_decide (lease_owner (t_lease t) ≠ Some (ci_WorkerID input)) then Err ErrLeaseLost
      else Ok t
  end.

(** The validation sequence after the commit, checked against the caller's. *)
Definition next_validation_seq (input : CommitInput) (t : TargetRow) : result RepoError Z :=
  let seq := validation_seq (t_pub t) in
  if successfulOutcome (ci_Outcome input) then
    let after := wrap64 (seq + 1) in
    match ci_ValidationSeqAfter input with
    | Some v => if v =? after then Ok after
                else Err (ErrInvalid "validation sequence must advance exactly once")
    | None => Ok after
    end
  else Ok seq.

(** [duration.Milliseconds()] of the clamped duration. *)
Definition run_duration_ms (input : CommitInput) : Z :=
  Z.quot (Z.max 0 (time_Sub (ci_FinishedAt input) (ci_StartedAt input))) Millisecond.

Definition run_row `{Postgres} (input : CommitInput) (seq_after : Z) : RunRow :=
  mkRun (ci_TargetID input) (ci_WorkerID input) (ci_LeaseGeneration input) (ci_Outcome input)
    (timestamptz (ci_StartedAt input)) (timestamptz (ci_FinishedAt input)) (ci_HTTPStatus input) (run_duration_ms input)
    (ci_BytesRead input) (nullif_empty (ci_ErrorKind input))
    (nullif_empty (sanitizeErrorMessage (ci_ErrorMessage input))) (timestamptz (ci_NextRunAt input))
    (if successfulOutcome (ci_Outcome input) then Some seq_after else None).

Definition add_run (r : RunRow) (db : DB) : DB :=
  let q := db_seqs db in
  let id := q_run q + 1 in
  mkDB (db_hosts db) (db_targets db) (<[id := r]> (db_runs db)) (db_snaps db) (db_cands db)
    (db_events db) (db_permits db) (db_checkpoints db) (db_notified db)
    (mkSeqs (q_target q) id (q_snap q) (q_event q) (q_permit q)).

(** INSERT INTO scrape_runs: the CHECKs and UNIQUE (target_id, lease_generation). *)
Definition insert_run (r : RunRow) (db : DB) : result RepoError (DB * Z) :=
  if negb (run_check r) then Err (ErrConstraint "scrape_runs")
  else if is_some (run_of db (r_target r) (r_generation r)) then Err (ErrConstraint "scrape_runs")
  else Ok (add_run r db, q_run (db_seqs db) + 1).

(** [payload] is the payload as the JSONB column keeps it. *)
Definition snap_row `{Postgres} (input : CommitInput) (runID version : Z) (payload : string) : SnapRow :=
  mkSnap (ci_TargetID input) (Some runID) version (ci_ContentHash input) payload
    (timestamptz (ci_FinishedAt input)) (Some (timestamptz (ci_FinishedAt input))) (nullif_empty (ci_ParserVersion input))
    (nullif_empty (ci_SchemaVersion input)) (nullif_empty (ci_RawBodyHash input)) true
    (ci_Manifest input) (ci_Validation input).

Definition snap_of_version (db : DB) (targetID version : Z) : option (Z * SnapRow) :=
  head (filter (λ p, s_target p.2 = targetID ∧ s_version p.2 = version)
          (map_to_list (db_snaps db))).

Definition add_snap (s : SnapRow) (db : DB) : DB :=
  let q := db_seqs db in
  let id := q_snap q + 1 in
  mkDB (db_hosts db) (db_targets db) (db_runs db) (<[id := s]> (db_snaps db)) (db_cands db)
    (db_events db) (db_permits db) (db_checkpoints db) (db_notified db)
    (mkSeqs (q_target q) (q_run q) id (q_event q) (q_permit q)).

(** INSERT INTO scrape_snapshots: version > 0, UNIQUE (target_id, version), UNIQUE run_id. *)
Definition insert_snapshot (s : SnapRow) (db : DB) : result RepoError (DB * Z) :=
  if (s_version s <=? 0) || is_some (snap_of_version db (s_target s) (s_version s)) ||
     match s_run s with Some r => is_some (snap_of_run db r) | None => false end
  then Err (ErrConstraint "scrape_snapshots")
  else Ok (add_snap s db, q_snap (db_seqs db) + 1).

Definition sched_after `{Postgres} (input : CommitInput) (s : SchedCols) : SchedCols :=
  mkSched (attributes s) (priority s) (durationSeconds (ci_CurrentInterval input))
    (min_interval_seconds s) (max_interval_seconds s) (max_serve_age_seconds s)
    (timestamptz (ci_NextRunAt input)) (last_attempt_at s) (ci_ConsecutiveFailures input)
    (trimBoolHistory (ci_RecentChanges input)).

Definition validated_at (input : CommitInput) : Z :=
  default (ci_FinishedAt input) (ci_ValidatedAt input).

(** A validator the response did not send is kept on not_modified, cleared otherwise. *)
Definition conditional_column (input : CommitInput) (new : string) (old : option string) : option string :=
  match nullif_empty new with
  | Some v => Some v
  | None => if bool_decide (ci_Outcome input = RNotModified) then old else None
  end.

(** SET of the successful UPDATE; [snapshotID] is the inserted version, if any. *)
Definition success_pub `{Postgres} (input : CommitInput) (seq_after version : Z) (snapshotID : option Z) (p : PubCols)
    : PubCols :=
  mkPub (Some (timestamptz (validated_at input)))
    (match snapshotID with None => last_content_change_at p | Some _ => Some (timestamptz (validated_at input)) end)
    seq_after
    (conditional_column input (ci_ETag input) (etag p))
    (conditional_column input (ci_LastModified input) (last_modified p))
    (conditional_column input (ci_CacheControl input) (cache_control p))
    (match snapshotID with None => current_snapshot_id p | Some id => Some id end)
    (match snapshotID with None => current_version p | Some _ => version end)
    (match snapshotID with None => current_content_hash p
     | Some _ => nullableHash (ci_Changed input) (ci_ContentHash input) end)
    (match snapshotID with None => previous_record_count p | Some _ => ci_RecordsCount input end)
    DataQualityVerifiedFresh None (nullif_empty (ci_ParserVersion input)).

Definition released (l : LeaseCols) : LeaseCols := mkLease None (lease_generation l) None.

Definition success_row `{Postgres} (input : CommitInput) (seq_after version : Z) (snapshotID : option Z)
    (t : TargetRow) : TargetRow :=
  mkTarget (t_ref t) (sched_after input (t_sched t))
    (success_pub input seq_after version snapshotID (t_pub t)) (released (t_lease t)) (t_life t).

(** SET of the failing UPDATE: the published content stays. *)
Definition failure_pub (input : CommitInput) (p : PubCols) : PubCols :=
  mkPub (last_validated_at p) (last_content_change_at p) (validation_seq p) (etag p)
    (last_modified p) (cache_control p) (current_snapshot_id p) (current_version p)
    (current_content_hash p) (previous_record_count p)
    (match current_snapshot_id p with None => DataQualityUnavailable | Some _ => DataQualityDegraded end)
    (nullif_empty (ci_LastRejectionCode input)) (current_parser_version p).

Definition failure_row `{Postgres} (input : CommitInput) (t : TargetRow) : TargetRow :=
  mkTarget (t_ref t) (sched_after input (t_sched t)) (failure_pub input (t_pub t))
    (released (t_lease t)) (t_life t).

(** UPDATE scrape_targets ... WHERE id=$1 AND lease_generation=..., one row expected. *)
Definition update_leased (input : CommitInput) (f : TargetRow → TargetRow) (db : DB)
    : result RepoError DB :=
  let* dn := update_where (held (ci_TargetID input) (ci_LeaseGeneration input)) f db in
  if dn.2 =? 1 then Ok dn.1 else Err ErrLeaseLost.

(** UPDATE scrape_snapshots SET complete = TRUE, verified_at = $2 of the current snapshot. *)
Definition verify_snap (at_ : Z) (s : SnapRow) : SnapRow :=
  mkSnap (s_target s) (s_run s) (s_version s) (s_hash s) (s_payload s) (s_content_fetched_at s)
    (Some at_) (s_parser_version s) (s_schema_version s) (s_raw_body_hash s) true
    (s_manifest s) (s_validation_report s).

Definition refresh_current (targetID at_ : Z) (db : DB) : DB :=
  match db_targets db !! targetID with
  | None => db
  | Some t =>
      match current_snapshot_id (t_pub t) with
      | None => db
      | Some sid => set_snaps (alter (verify_snap at_) sid (db_snaps db)) db
      end
  end.

(** The columns of a candidate: an empty payload is NULL, any other goes to a JSONB column. *)
Definition candidate_row `{Postgres} (c : ScrapeCandidate) : option ScrapeCandidate :=
  payload ← (if nonempty (sca_Payload c) then jsonb_text (sca_Payload c) else Some "");
  Some {| sca_TargetID := sca_TargetID c; sca_LeaseGeneration := sca_LeaseGeneration c;
     sca_AttemptNumber := sca_AttemptNumber c; sca_FetchedAt := timestamptz (sca_FetchedAt c);
     sca_RequestID := sca_RequestID c; sca_HTTPStatus := sca_HTTPStatus c;
     sca_ContentType := sca_ContentType c; sca_ContentLength := sca_ContentLength c; sca_ETag := sca_ETag c;
     sca_LastModified := sca_LastModified c; sca_RawBodyHash := sca_RawBodyHash c;
     sca_CanonicalHash := sca_CanonicalHash c; sca_ParserVersion := sca_ParserVersion c;
     sca_SchemaVersion := sca_SchemaVersion c; sca_CanonicalizerVersion := sca_CanonicalizerVersion c;
     sca_Payload := payload; sca_Manifest := sca_Manifest c; sca_Validation := sca_Validation c;
     sca_Disposition := sca_Disposition c; sca_RejectionCode := sca_RejectionCode c;
     sca_ConfirmationGroupUUID := sca_ConfirmationGroupUUID c |}.

Definition insertCandidate `{Postgres} (c : ScrapeCandidate) (db : DB) : result RepoError DB :=
  let key := (sca_TargetID c, sca_LeaseGeneration c, sca_AttemptNumber c) in
  if negb (cand_check c) || is_none (db_targets db !! sca_TargetID c) ||
     is_some (db_cands db !! key) ||
     (nonempty (sca_ConfirmationGroupUUID c) && negb (uuid_valid (sca_ConfirmationGroupUUID c)))
  then Err (ErrConstraint "scrape_candidates")
  else match candidate_row c with
       | None => Err (ErrConstraint "scrape_candidates")
       | Some row => Ok (set_cands (<[key := row]> (db_cands db)) db)
       end.

Fixpoint insert_candidates `{Postgres} (cs : list ScrapeCandidate) (db : DB) : result RepoError DB :=
  match cs with
  | [] => Ok db
  | c :: cs' => let* db' := insertCandidate c db in insert_candidates cs' db'
  end.

(** * Publication *)

Definition published_snapshot (input : CommitInput) (t : TargetRow) (sid version seq_after : Z) : Snapshot :=
  {| sn_ID := sid; sn_TargetID := ci_TargetID input; sn_Ref := t_ref t; sn_Version := version;
     sn_ValidationSeq := seq_after; sn_ContentHash := ci_ContentHash input;
     sn_Payload := ci_Payload input; sn_ContentFetchedAt := ci_FinishedAt input;
     sn_ValidatedAt := validated_at input; sn_VerifiedAt := ci_FinishedAt input;
     sn_NextRunAt := ci_NextRunAt input; sn_MaxServeAge := secs (max_serve_age_seconds (t_sched t));
     sn_ParserVersion := ci_ParserVersion input; sn_SchemaVersion := ci_SchemaVersion input;
     sn_RawBodyHash := ci_RawBodyHash input; sn_Complete := sm_Complete (ci_Manifest input);
     sn_Manifest := ci_Manifest input; sn_ValidationReport := ci_Validation input |}.

Definition published_metadata (input : CommitInput) (t : TargetRow) (version seq_after : Z)
    : SnapshotMetadata :=
  {| md_Kind := ref_Kind (t_ref t); md_ResourceKey := ref_ResourceKey (t_ref t);
     md_ParentKey := ref_ParentKey (t_ref t); md_Version := version;
     md_ValidationSeq := seq_after; md_ValidatedAt := validated_at input;
     md_Stale := time_After (validated_at input) (ci_NextRunAt input);
     md_QualityState := DataQualityVerifiedFresh; md_Complete := sm_Complete (ci_Manifest input);
     md_ParserVersion := ci_ParserVersion input; md_EventSequence := 0 |}.

Definition event_of_version (db : DB) (targetID version : Z) : option (Z * EventRow) :=
  head (filter (λ p, e_target p.2 = targetID ∧ e_version p.2 = version)
          (map_to_list (db_events db))).

Definition add_event (e : EventRow) (m : SnapshotMetadata) (db : DB) : DB :=
  let q := db_seqs db in
  let id := q_event q + 1 in
  mkDB (db_hosts db) (db_targets db) (db_runs db) (db_snaps db) (db_cands db)
    (<[id := e]> (db_events db)) (db_permits db) (db_checkpoints db) (db_notified db ++ [m])
    (mkSeqs (q_target q) (q_run q) (q_snap q) id (q_permit q)).

(** pg_notify, delivered when the transaction commits, and the outbox row. *)
Definition publish `{GoLib} (e : EventRow) (m : SnapshotMetadata) (db : DB) : result RepoError DB :=
  if (8000 <=? String.length (json_MarshalMetadata m))%nat
  then Err (ErrInvalid "commit snapshot: notification payload too large")
  else if is_some (event_of_version db (e_target e) (e_version e))
  then Err (ErrConstraint "snapshot_commit_events")
  else Ok (add_event e m db).

(** * Commit *)

(** The statements that touch the target's own rows: lock, run, version, UPDATE. *)
Record Written := {
  w_target : TargetRow;
  w_run : Z;
  w_snap : option Z;
  w_version : Z;
  w_seq : Z
}.

Definition write_own `{Postgres} (input : CommitInput) (db : DB) : result RepoError (DB * Written) :=
  let* t := lock_target input db in
  let* seq_after := next_validation_seq input t in
  let* dr := insert_run (run_row input seq_after) db in
  let successful := successfulOutcome (ci_Outcome input) in
  let version := if successful && ci_Changed input then wrap64 (current_version (t_pub t) + 1)
                 else current_version (t_pub t) in
  let* ds :=
    if successful && ci_Changed input then
      match jsonb_text (ci_Payload input) with
      | None => Err (ErrConstraint "scrape_snapshots")
      | Some payload =>
          let* x := insert_snapshot (snap_row input dr.2 version payload) dr.1 in Ok (x.1, Some x.2)
      end
    else Ok (dr.1, None) in
  let* db1 :=
    if successful then
      let* d := update_leased input (success_row input seq_after version ds.2) ds.1 in
      Ok (match ds.2 with
          | None => refresh_current (ci_TargetID input) (timestamptz (validated_at input)) d
          | Some _ => d
          end)
    else update_leased input (failure_row input) ds.1 in
  Ok (db1, {| w_target := t; w_run := dr.2; w_snap := ds.2; w_version := version; w_seq := seq_after |}).

(** Everything after the idempotency lookup. *)
Definition commit_locked `{GoLib, Postgres} (input : CommitInput) (dbnow : Z) (db : DB)
    : result RepoError (DB * CommitResult) :=
  let* dw := write_own input db in
  let w := dw.2 in
  let* db2 := upsertSeeds (ci_Discovered input) dw.1 in
  let* db3 := insert_candidates (ci_Candidates input) db2 in
  let* db4 :=
    if successfulOutcome (ci_Outcome input) && ci_Changed input
    then applyChildPresence (t_ref (w_target w)) (ci_SeenChildRefs input) db3
    else Ok db3 in
  match w_snap w with
  | None => Ok (db4, {| cm_RunID := w_run w; cm_Snapshot := None; cm_Metadata := None |})
  | Some sid =>
      let m := published_metadata input (w_target w) (w_version w) (w_seq w) in
      let* db5 := publish
        (mkEvent sid (ci_TargetID input) (w_version w) (ref_Kind (t_ref (w_target w))) dbnow) m db4 in
      Ok (db5, {| cm_RunID := w_run w;
                  cm_Snapshot := Some (published_snapshot input (w_target w) sid (w_version w) (w_seq w));
                  cm_Metadata := Some m |})
  end.

Definition Commit `{GoLib, Postgres} (input : CommitInput) (now dbnow : Z) (db : DB)
    : result RepoError (DB * CommitResult) :=
  let* _ := validateCommit input in
  let* prior := existingCommitResult db (ci_TargetID input) (ci_LeaseGeneration input) now in
  match prior with
  | Some r => Ok (db, r)
  | None => commit_locked input dbnow db
  end.
