(* ===== verification/HostState.v ===== *)
(** The shared host limiter ([internal/db/snapshot_repository.go]: SeedHost,
    AcquireHostPermit, refillTokens, persistTokens, ReleaseHostPermit, ObserveHost):
    a token bucket and a concurrency limit in scrape_host_state, with one
    scrape_host_permits row per request in flight.

    The code computes with float64 values read from and written to NUMERIC columns. *)

From stdpp Require Import base list numbers strings gmap sorting.
From Stdlib Require Import ZArith QArith Qround Lia.
From S2P Require Import Prelude Float64 Domain Canonical Tables.

Local Open Scope Z_scope.
Local Open Scope stdpp_scope.
Local Open Scope go_scope.

(** * Columns as the code reads them *)

Definition rps_float (n : Z) : Q := rne (n # 1000).
Definition tokens_float (n : Z) : Q := rne (n # 1000000).

(** [Duration.Seconds] *)
Definition Seconds (d : Z) : Q :=
  fadd (f_of_int (Z.quot d Second)) (fdiv (f_of_int (Z.rem d Second)) (f_of_int 1000000000)).

Definition quarter : Q := 1 # 4.

Definition refillTokens (h : HostRow) (now : Z) : Q :=
  let elapsed := Seconds (time_Sub now (tokens_updated_at h)) in
  let elapsed := if flt elapsed 0 then 0%Q else elapsed in
  let refilled := fadd (tokens_float (available_tokens h)) (fmul elapsed (rps_float (current_rps h))) in
  let refilled := if fgt refilled (f_of_int (burst h)) then f_of_int (burst h) else refilled in
  if flt refilled 0 then 0%Q else refilled.

(** [time.Duration(x)]: truncation toward zero. *)
Definition duration_of_float (x : Q) : Z :=
  int64_of_integral (if Qle_bool 0 x then Qfloor x else - Qfloor (- x)).

(** * SeedHost *)

Record HostStateSeed := {
  hs_Host : string;
  hs_BaselineRequestsPerSecond : Q;
  hs_Burst : Z;
  hs_BaselineConcurrency : Z;
  hs_Now : Z
}.

Section host.
Context `{Postgres}.

Definition write_host (host : string) (h : HostRow) (db : DB) : result RepoError DB :=
  if host_check h then Ok (set_hosts (<[host := h]> (db_hosts db)) db)
  else Err (ErrConstraint "scrape_host_state").

(** [now] stands in for a zero [seed.Now]. *)
Definition SeedHost (seed : HostStateSeed) (now : Z) (db : DB) : result RepoError DB :=
  let rps := hs_BaselineRequestsPerSecond seed in
  fail_if (blank (hs_Host seed)) with_err (ErrInvalid "seed host is required") in
  fail_if (flt rps quarter || fgt rps 5)
    with_err (ErrInvalid "seed host requests per second must be between 0.25 and 5") in
  fail_if ((hs_Burst seed <? 1) || (5 <? hs_Burst seed))
    with_err (ErrInvalid "seed host burst must be between 1 and 5") in
  fail_if ((hs_BaselineConcurrency seed <? 1) || (4 <? hs_BaselineConcurrency seed))
    with_err (ErrInvalid "seed host concurrency must be between 1 and 4") in
  let at_ := if time_IsZero (hs_Now seed) then now else hs_Now seed in
  let rps_n := numeric_of_float8 1000 rps in
  match db_hosts db !! hs_Host seed with
  | None =>
      write_host (hs_Host seed)
        (mkHost rps_n rps_n (hs_Burst seed) (1000000 * hs_Burst seed) at_
           (hs_BaselineConcurrency seed) (hs_BaselineConcurrency seed) 0 None 0 None) db
  | Some h =>
      write_host (hs_Host seed)
        (mkHost rps_n (Z.min (current_rps h) rps_n) (hs_Burst seed)
           (Z.min (available_tokens h) (1000000 * hs_Burst seed)) (tokens_updated_at h)
           (hs_BaselineConcurrency seed) (Z.min (current_concurrency h) (hs_BaselineConcurrency seed))
           (consecutive_429s h) (last_429_at h) (healthy_streak h) (paused_until h)) db
  end.

(** * Permits *)

Record AcquireHostPermitRequest := {
  ar_Host : string;
  ar_TargetID : Z;
  ar_WorkerID : string;
  ar_LeaseGeneration : Z;
  ar_Now : Z;
  ar_TTL : Z
}.

Definition permit_of (id : Z) (p : PermitRow) : HostPermit :=
  {| hp_ID := id; hp_Host := pm_host p; hp_TargetID := pm_target p;
     hp_LeaseGeneration := pm_generation p; hp_ExpiresAt := pm_expires_at p |}.

(** The unexpired permit of a lease. *)
Definition existing_permit (db : DB) (targetID generation now : Z) : option (Z * PermitRow) :=
  head (filter (λ p, pm_target p.2 = targetID ∧ pm_generation p.2 = generation ∧ now < pm_expires_at p.2)
          (map_to_list (db_permits db))).

Definition drop_expired (host : string) (now : Z) (db : DB) : DB :=
  set_permits (filter (λ kv, ¬ (pm_host kv.2 = host ∧ pm_expires_at kv.2 ≤ now)) (db_permits db)) db.

Definition active_permits (db : DB) (host : string) (now : Z) : list PermitRow :=
  map snd (filter (λ p, pm_host p.2 = host ∧ now < pm_expires_at p.2) (map_to_list (db_permits db))).

(** MIN(expires_at) *)
Definition earliest_expiry (ps : list PermitRow) : option Z :=
  match ps with
  | [] => None
  | p :: ps' => Some (foldr (λ q m, Z.min (pm_expires_at q) m) (pm_expires_at p) ps')
  end.

Definition set_tokens (tokens now : Z) (h : HostRow) : HostRow :=
  mkHost (baseline_rps h) (current_rps h) (burst h) tokens now (baseline_concurrency h)
    (current_concurrency h) (consecutive_429s h) (last_429_at h) (healthy_streak h) (paused_until h).

Definition persistTokens (host : string) (h : HostRow) (available : Q) (now : Z) (db : DB)
    : result RepoError DB :=
  write_host host (set_tokens (numeric_of_float8 1000000 available) now h) db.

Definition insert_permit (p : PermitRow) (db : DB) : result RepoError (DB * Z) :=
  let taken := filter (λ q, pm_target q.2 = pm_target p ∧ pm_generation q.2 = pm_generation p)
                 (map_to_list (db_permits db)) in
  if negb (bool_decide (taken = [])) || negb (0 <? pm_generation p) ||
     negb (pm_acquired_at p <? pm_expires_at p)
  then Err (ErrConstraint "scrape_host_permits")
  else
    let q := db_seqs db in
    let id := q_permit q + 1 in
    Ok (mkDB (db_hosts db) (db_targets db) (db_runs db) (db_snaps db) (db_cands db) (db_events db)
          (<[id := p]> (db_permits db)) (db_checkpoints db) (db_notified db)
          (mkSeqs (q_target q) (q_run q) (q_snap q) (q_event q) id), id).

(** The target fence of a permit: the lease generation must be current. *)
Definition permit_fence (r : AcquireHostPermitRequest) (db : DB) : bool :=
  match db_targets db !! ar_TargetID r with
  | None => false
  | Some t => bool_decide (ref_Host (t_ref t) = ar_Host r) &&
              (lease_generation (t_lease t) =? ar_LeaseGeneration r)
  end.

Definition retry_decision (at_ : Z) (paused : bool) : PermitDecision :=
  {| pd_Permit := None; pd_RetryAt := at_; pd_Paused := paused |}.
Definition permit_decision (p : HostPermit) : PermitDecision :=
  {| pd_Permit := Some p; pd_RetryAt := 0; pd_Paused := false |}.

Definition paused_at (h : HostRow) (now : Z) : bool :=
  match paused_until h with Some p => time_After p now | None => false end.

(** The decision once the host row [h] is locked, expired permits are dropped and the
    fence has passed. *)
Definition decide_permit (r : AcquireHostPermitRequest) (h : HostRow) (now : Z) (db : DB)
    : result RepoError (DB * PermitDecision) :=
  if paused_at h now then Ok (db, retry_decision (default 0 (paused_until h)) true)
  else
    let active := active_permits db (ar_Host r) now in
    let refilled := refillTokens h now in
    if current_concurrency h <=? Z.of_nat (length active) then
      let* db1 := persistTokens (ar_Host r) h refilled now db in
      Ok (db1, retry_decision (default (time_Add now (ar_TTL r)) (earliest_expiry active)) false)
    else if flt refilled 1 then
      let* db1 := persistTokens (ar_Host r) h refilled now db in
      let waitSeconds := fdiv (fsub 1 refilled) (rps_float (current_rps h)) in
      Ok (db1, retry_decision (time_Add now (duration_of_float (fmul waitSeconds (f_of_int Second)))) false)
    else
      let* db1 := persistTokens (ar_Host r) h (fsub refilled 1) now db in
      let p := mkPermit (ar_Host r) (ar_TargetID r) (ar_WorkerID r) (ar_LeaseGeneration r) now
                 (time_Add now (ar_TTL r)) in
      let* dn := insert_permit p db1 in
      Ok (dn.1, permit_decision (permit_of dn.2 p)).

Definition AcquireHostPermit (r : AcquireHostPermitRequest) (db : DB)
    : result RepoError (DB * PermitDecision) :=
  fail_if (blank (ar_Host r) || blank (ar_WorkerID r))
    with_err (ErrInvalid "host permit requires host and worker ID") in
  fail_if ((ar_TargetID r <=? 0) || (ar_LeaseGeneration r <=? 0) || time_IsZero (ar_Now r) ||
           (ar_TTL r <=? 0))
    with_err (ErrInvalid "host permit request is invalid") in
  match existing_permit db (ar_TargetID r) (ar_LeaseGeneration r) (ar_Now r) with
  | Some (id, p) => Ok (db, permit_decision (permit_of id p))
  | None =>
      match db_hosts db !! ar_Host r with
      | None => Err (ErrInvalid "host state not found")
      | Some h =>
          let now := if time_Before (ar_Now r) (tokens_updated_at h) then tokens_updated_at h else ar_Now r in
          let db1 := drop_expired (ar_Host r) now db in
          if negb (permit_fence r db1) then Err ErrLeaseLost else decide_permit r h now db1
      end
  end.

Definition ReleaseHostPermit (permitID : Z) (db : DB) : DB :=
  if permitID <=? 0 then db else set_permits (delete permitID (db_permits db)) db.

(** * ObserveHost *)

(** [LEAST($n::numeric, burst::numeric)] *)
Definition capped_tokens (h : HostRow) (available : Q) : Z :=
  Z.min (numeric_of_float8 1000000 available) (1000000 * burst h).

Definition halved_rps (h : HostRow) : Q :=
  let x := fdiv (rps_float (current_rps h)) 2 in if flt x quarter then quarter else x.

Definition observe_rate_limited (o : HostObservation) (h : HostRow) (at_ : Z) (available : Q) : HostRow :=
  let pause := if 15 * Minute <? ho_RetryAfter o then ho_RetryAfter o else 15 * Minute in
  let pause :=
    match last_429_at h with
    | Some last => if (time_Sub at_ last <=? Hour) && (pause <? Hour) then Hour else pause
    | None => pause
    end in
  mkHost (baseline_rps h) (numeric_of_float8 1000 (halved_rps h)) (burst h) (capped_tokens h available)
    at_ (baseline_concurrency h) 1 (consecutive_429s h + 1) (Some at_) 0 (Some (time_Add at_ pause)).

Definition observe_auth_error (h : HostRow) (at_ : Z) (available : Q) : HostRow :=
  mkHost (baseline_rps h) (current_rps h) (burst h) (capped_tokens h available) at_
    (baseline_concurrency h) (current_concurrency h) (consecutive_429s h) (last_429_at h) 0
    (Some (time_Add at_ (15 * Minute))).

Definition observe_success (h : HostRow) (at_ : Z) (available : Q) : HostRow :=
  let healthy := healthy_streak h + 1 in
  let recovered := 20 <=? healthy in
  let rps := rps_float (current_rps h) in
  let raised := fadd rps quarter in
  let raised := if fgt raised (rps_float (baseline_rps h)) then rps_float (baseline_rps h) else raised in
  let conc := current_concurrency h + 1 in
  let conc := if baseline_concurrency h <? conc then baseline_concurrency h else conc in
  mkHost (baseline_rps h) (numeric_of_float8 1000 (if recovered then raised else rps)) (burst h)
    (capped_tokens h available) at_ (baseline_concurrency h)
    (if recovered then conc else current_concurrency h) 0 (last_429_at h)
    (if recovered then 0 else healthy)
    (match paused_until h with Some p => if time_After p at_ then Some p else None | None => None end).

Definition observe_transient (o : HostObservation) (h : HostRow) (at_ : Z) (available : Q) : HostRow :=
  let third := ho_ConsecutiveFailures o =? 3 in
  let conc := current_concurrency h - 1 in
  let conc := if conc <? 1 then 1 else conc in
  mkHost (baseline_rps h)
    (numeric_of_float8 1000 (if third then halved_rps h else rps_float (current_rps h))) (burst h)
    (capped_tokens h available) at_ (baseline_concurrency h)
    (if third then conc else current_concurrency h) (consecutive_429s h) (last_429_at h) 0 (paused_until h).

Definition observe_other (h : HostRow) (at_ : Z) (available : Q) : HostRow :=
  mkHost (baseline_rps h) (current_rps h) (burst h) (capped_tokens h available) at_
    (baseline_concurrency h) (current_concurrency h) (consecutive_429s h) (last_429_at h) 0 (paused_until h).

Definition ObserveHost (o : HostObservation) (db : DB) : result RepoError DB :=
  if blank (ho_Host o) || time_IsZero (ho_ObservedAt o)
  then Err (ErrInvalid "host observation requires host and observed time")
  else
    match db_hosts db !! ho_Host o with
    | None => Err (ErrInvalid "host state not found")
    | Some h =>
        let at_ := if time_Before (ho_ObservedAt o) (tokens_updated_at h) then tokens_updated_at h
                   else ho_ObservedAt o in
        let available := refillTokens h at_ in
        write_host (ho_Host o)
          (match ho_Outcome o with
           | RRateLimited => observe_rate_limited o h at_ available
           | RAuthError => observe_auth_error h at_ available
           | RChanged | RUnchanged | RNotModified => observe_success h at_ available
           | RTransientError => observe_transient o h at_ available
           | _ => observe_other h at_ available
           end) db
    end.

(** * HostController ([internal/scraper/host_controller.go]) *)

Definition HostController_Acquire (permitTTL : Z) (target : ScrapeTarget) (workerID : string) (now : Z) (db : DB)
    : result RepoError (DB * PermitDecision) :=
  if (st_ID target <=? 0) || (st_LeaseGeneration target <=? 0) then Err ErrLeaseLost
  else if blank workerID then Err (ErrInvalid "host permit worker ID is required")
  else AcquireHostPermit
    {| ar_Host := ref_Host (st_Ref target); ar_TargetID := st_ID target; ar_WorkerID := workerID;
       ar_LeaseGeneration := st_LeaseGeneration target; ar_Now := now; ar_TTL := permitTTL |} db.

Definition HostController_Release (permit : option HostPermit) (db : DB) : DB :=
  match permit with None => db | Some p => ReleaseHostPermit (hp_ID p) db end.

Definition HostController_Observe (o : HostObservation) (db : DB) : result RepoError DB := ObserveHost o db.
End host.
