(* ===== verification/Maintenance.v ===== *)
(** Retention, repair, audit and the commit-event outbox
    ([internal/db/snapshot_repository.go]: Prune, FindStaleTargets,
    RepairStaleTargets, AuditSnapshotIntegrity, the listener checkpoints,
    MissedEvents, CompactedMissedEvents, PruneCommitEvents). *)

From stdpp Require Import base list numbers strings gmap sorting.
From Stdlib Require Import ZArith Lia.
From S2P Require Import Prelude Domain Canonical Tables Leases Reads.

Local Open Scope Z_scope.
Local Open Scope stdpp_scope.
Local Open Scope go_scope.

(** * Prune *)

Record PruneRequest := {
  pr_Now : Z;
  pr_SnapshotRetention : Z;
  pr_RunRetention : Z;
  pr_BatchSize : Z
}.

Record PruneResult := { ps_SnapshotsDeleted : Z; ps_RunsDeleted : Z; ps_PermitsDeleted : Z }.

(** ROW_NUMBER() OVER (PARTITION BY target_id ORDER BY version DESC) *)
Definition snap_position (snaps : gmap Z SnapRow) (s : SnapRow) : nat :=
  S (size (filter (λ kv, s_target kv.2 = s_target s ∧ s_version s < s_version kv.2) snaps)).

Definition prunable_snap (cutoff : Z) (db : DB) (id : Z) (s : SnapRow) : bool :=
  (3 <? snap_position (db_snaps db) s)%nat && (s_content_fetched_at s <? cutoff) &&
  match db_targets db !! s_target s with
  | None => false
  | Some t => bool_decide (current_snapshot_id (t_pub t) ≠ Some id)
  end.

Definition less_snap : Z * SnapRow → Z * SnapRow → bool :=
  lex_by Z.ltb (λ p, s_content_fetched_at p.2) (lex_by Z.ltb fst no_less).

Definition snap_batch (cutoff batch : Z) (db : DB) : list Z :=
  map fst (take (Z.to_nat batch) (sort_stable less_snap
    (filter (λ p, prunable_snap cutoff db p.1 p.2 = true) (map_to_list (db_snaps db))))).

Definition points_into (ids : list Z) (t : TargetRow) : bool :=
  match current_snapshot_id (t_pub t) with Some sid => bool_decide (sid ∈ ids) | None => false end.

(** DELETE FROM scrape_snapshots; the deferred foreign key of current_snapshot_id is
    checked when the statement commits. *)
Definition delete_snaps (ids : list Z) (db : DB) : result RepoError DB :=
  if bool_decide (map_Forall (λ _ t, points_into ids t = false) (db_targets db))
  then Ok (set_snaps (filter (λ kv, kv.1 ∉ ids) (db_snaps db)) db)
  else Err (ErrConstraint "scrape_targets_current_snapshot_fk").

Definition prunable_run (cutoff : Z) (db : DB) (id : Z) (r : RunRow) : bool :=
  (r_finished_at r <? cutoff) &&
  bool_decide (map_Forall (λ _ s, s_run s ≠ Some id) (db_snaps db)).

Definition less_run : Z * RunRow → Z * RunRow → bool :=
  lex_by Z.ltb (λ p, r_finished_at p.2) (lex_by Z.ltb fst no_less).

Definition run_batch (cutoff batch : Z) (db : DB) : list Z :=
  map fst (take (Z.to_nat batch) (sort_stable less_run
    (filter (λ p, prunable_run cutoff db p.1 p.2 = true) (map_to_list (db_runs db))))).

Definition delete_runs (ids : list Z) (db : DB) : DB :=
  set_runs (filter (λ kv, kv.1 ∉ ids) (db_runs db)) db.

(** The two loops: each pass is a transaction of its own; [None] is fuel running out,
    which the theorems exclude.  A pass that fails keeps the earlier ones. *)
Fixpoint prune_snap_loop (fuel : nat) (cutoff batch : Z) (db : DB) (deleted : Z)
    : option (DB * Z * option RepoError) :=
  match fuel with
  | O => None
  | S fuel' =>
      let ids := snap_batch cutoff batch db in
      match delete_snaps ids db with
      | Err e => Some (db, deleted, Some e)
      | Ok db' =>
          let n := Z.of_nat (length ids) in
          if n <? batch then Some (db', deleted + n, None)
          else prune_snap_loop fuel' cutoff batch db' (deleted + n)
      end
  end.

Fixpoint prune_run_loop (fuel : nat) (cutoff batch : Z) (db : DB) (deleted : Z) : option (DB * Z) :=
  match fuel with
  | O => None
  | S fuel' =>
      let ids := run_batch cutoff batch db in
      let db' := delete_runs ids db in
      let n := Z.of_nat (length ids) in
      if n <? batch then Some (db', deleted + n)
      else prune_run_loop fuel' cutoff batch db' (deleted + n)
  end.

Definition expired_permits (now : Z) (db : DB) : gmap Z PermitRow :=
  filter (λ kv, pm_expires_at kv.2 ≤ now) (db_permits db).

Definition delete_expired_permits (now : Z) (db : DB) : DB :=
  set_permits (filter (λ kv, ¬ (pm_expires_at kv.2 ≤ now)) (db_permits db)) db.

Definition Prune (r : PruneRequest) (db : DB) : option (DB * PruneResult * option RepoError) :=
  let zero := {| ps_SnapshotsDeleted := 0; ps_RunsDeleted := 0; ps_PermitsDeleted := 0 |} in
  if (pr_BatchSize r <=? 0) || (5000 <? pr_BatchSize r)
  then Some (db, zero, Some (ErrInvalid "prune batch size must be between 1 and 5000"))
  else if (pr_SnapshotRetention r <=? 0) || (pr_RunRetention r <=? 0) || time_IsZero (pr_Now r)
  then Some (db, zero, Some (ErrInvalid "prune retention and time must be positive"))
  else
    x ← prune_snap_loop (S (size (db_snaps db))) (time_Add (pr_Now r) (- pr_SnapshotRetention r))
          (pr_BatchSize r) db 0;
    let '(db1, n1, e1) := x in
    match e1 with
    | Some e => Some (db1, {| ps_SnapshotsDeleted := n1; ps_RunsDeleted := 0; ps_PermitsDeleted := 0 |}, Some e)
    | None =>
        y ← prune_run_loop (S (size (db_runs db1))) (time_Add (pr_Now r) (- pr_RunRetention r))
              (pr_BatchSize r) db1 0;
        let '(db2, n2) := y in
        Some (delete_expired_permits (pr_Now r) db2,
              {| ps_SnapshotsDeleted := n1; ps_RunsDeleted := n2;
                 ps_PermitsDeleted := Z.of_nat (size (expired_permits (pr_Now r) db2)) |}, None)
    end.

(** * Stale targets *)

Record StaleTarget := {
  sg_ID : Z;
  sg_Host : string;
  sg_Kind : SnapshotKind;
  sg_ResourceKey : string;
  sg_NextRunAt : Z;
  sg_LeaseOwner : string;
  sg_LeaseExpiresAt : option Z;
  sg_LifecycleState : LifecycleState;
  sg_ConsecutiveFailures : Z;
  sg_CurrentIntervalSeconds : Z
}.

Definition orphaned (now : Z) (t : TargetRow) : bool :=
  match lease_expires_at (t_lease t) with Some e => e <? now - Hour | None => false end.

Definition stale_row (now slack : Z) (t : TargetRow) : bool :=
  bool_decide (lifecycle_state (t_life t) = LifeActive) && enabled (t_life t) &&
  ((now + slack <? next_run_at (t_sched t)) || orphaned now t).

Definition stale_target (id : Z) (t : TargetRow) : StaleTarget :=
  {| sg_ID := id; sg_Host := ref_Host (t_ref t); sg_Kind := ref_Kind (t_ref t);
     sg_ResourceKey := ref_ResourceKey (t_ref t); sg_NextRunAt := next_run_at (t_sched t);
     sg_LeaseOwner := default "" (lease_owner (t_lease t)); sg_LeaseExpiresAt := lease_expires_at (t_lease t);
     sg_LifecycleState := lifecycle_state (t_life t);
     sg_ConsecutiveFailures := consecutive_failures (t_sched t);
     sg_CurrentIntervalSeconds := current_interval_seconds (t_sched t) |}.

(** LIMIT 100 without an order: any hundred rows, here the first of the scan.  The
    query casts an integer to an interval; a server without that cast rejects it. *)
Definition FindStaleTargets `{Postgres} (now : Z) (db : DB) : result RepoError (list StaleTarget) :=
  match interval_of_int 0 with
  | None => Err (ErrInvalid "find stale targets: cannot cast type integer to interval")
  | Some _ =>
      Ok (map (λ p, stale_target p.1 p.2)
        (take 100 (filter (λ p, stale_row now
            (default 0 (interval_of_int (3 * current_interval_seconds (t_sched p.2)))) p.2 = true)
          (map_to_list (db_targets db)))))
  end.

Definition repair_row (now : Z) (t : TargetRow) : TargetRow :=
  let t' := set_next_run (Z.min (next_run_at (t_sched t)) now) t in
  if orphaned now t then clear_lease t' else t'.

Definition RepairStaleTargets (targets : list StaleTarget) (now : Z) (db : DB)
    : result RepoError (DB * Z) :=
  match targets with
  | [] => Ok (db, 0)
  | _ => update_where (λ id _, bool_decide (id ∈ map sg_ID targets)) (repair_row now) db
  end.

(** * Audit *)

Record AuditResult := {
  OrphanedSnapshots : Z;
  MismatchedTargets : Z;
  InvalidVersionOrder : Z;
  RejectedPayloadTargets : Z
}.

Definition count_targets (db : DB) (p : Z → TargetRow → bool) : Z :=
  Z.of_nat (size (filter (λ kv, p kv.1 kv.2 = true) (db_targets db))).

Definition orphan (db : DB) (id : Z) (t : TargetRow) : bool :=
  match current_snapshot_id (t_pub t) with
  | None => false
  | Some sid =>
      match db_snaps db !! sid with
      | Some s => negb (s_target s =? id)
      | None => true
      end
  end.

Definition mismatched (db : DB) (t : TargetRow) : bool :=
  match current_snap db t with
  | Some (_, s) => negb (s_version s =? current_version (t_pub t))
  | None => false
  end.

Definition rejected_payload (db : DB) (t : TargetRow) : bool :=
  bool_decide (lifecycle_state (t_life t) = LifeActive) &&
  match current_snap db t with
  | Some (_, s) =>
      match s_run s ≫= λ r, db_runs db !! r with
      | Some r => bool_decide (r_outcome r = RInvalidPayload ∨ r_outcome r = RRateLimited)
      | None => false
      end
  | None => false
  end.

Definition AuditSnapshotIntegrity (db : DB) : AuditResult :=
  {| OrphanedSnapshots := count_targets db (orphan db);
     MismatchedTargets := count_targets db (λ _ t, mismatched db t);
     InvalidVersionOrder := count_targets db (λ _ t, current_version (t_pub t) <? 0);
     RejectedPayloadTargets := count_targets db (λ _ t, rejected_payload db t) |}.

(** * The outbox *)

Record CommitEvent := {
  ce_Sequence : Z;
  ce_SnapshotID : Z;
  ce_TargetID : Z;
  ce_SnapshotVersion : Z;
  ce_TargetKind : SnapshotKind;
  ce_CommittedAt : Z
}.

Definition commit_event (seq : Z) (e : EventRow) : CommitEvent :=
  {| ce_Sequence := seq; ce_SnapshotID := e_snapshot e; ce_TargetID := e_target e;
     ce_SnapshotVersion := e_version e; ce_TargetKind := e_kind e; ce_CommittedAt := e_committed_at e |}.

Definition GetListenerCheckpoint (consumer : string) (db : DB) : Z :=
  default 0 (db_checkpoints db !! consumer).

Definition UpdateListenerCheckpoint (consumer : string) (sequence : Z) (db : DB) : DB :=
  set_checkpoints (<[consumer := sequence]> (db_checkpoints db)) db.

Definition default_limit (limit : Z) : Z := if limit <=? 0 then 100 else limit.

Definition events_after (seq : Z) (db : DB) : list CommitEvent :=
  map (λ p, commit_event p.1 p.2)
    (filter (λ p, seq < p.1) (map_to_list (db_events db))).

Definition less_sequence : CommitEvent → CommitEvent → bool := lex_by Z.ltb ce_Sequence no_less.

Definition MissedEvents (afterSequence limit : Z) (db : DB) : list CommitEvent :=
  take (Z.to_nat (default_limit limit)) (sort_stable less_sequence (events_after afterSequence db)).

(** DISTINCT ON (target_id) ... ORDER BY target_id, sequence DESC: the newest event of
    each target, in target order. *)
Definition less_compact : CommitEvent → CommitEvent → bool :=
  lex_by Z.ltb ce_TargetID (lex_by (λ a b, Z.ltb b a) ce_Sequence no_less).

Fixpoint distinct_target (last : option Z) (l : list CommitEvent) : list CommitEvent :=
  match l with
  | [] => []
  | e :: l' =>
      if bool_decide (last = Some (ce_TargetID e)) then distinct_target last l'
      else e :: distinct_target (Some (ce_TargetID e)) l'
  end.

Definition CompactedMissedEvents (afterSequence limit : Z) (db : DB) : list CommitEvent :=
  take (Z.to_nat (default_limit limit))
    (distinct_target None (sort_stable less_compact (events_after afterSequence db))).

(** COALESCE(MIN(last_sequence), 0) *)
Definition min_checkpoint (db : DB) : Z :=
  match map snd (map_to_list (db_checkpoints db)) with
  | [] => 0
  | x :: l => foldr Z.min x l
  end.

Definition prunable_event (now : Z) (db : DB) (seq : Z) (e : EventRow) : bool :=
  (seq <? min_checkpoint db - 1000) && (e_committed_at e <? time_Add now (- (7 * 24 * Hour))).

Definition PruneCommitEvents (now : Z) (db : DB) : DB * Z :=
  (set_events (filter (λ kv, prunable_event now db kv.1 kv.2 = false) (db_events db)) db,
   Z.of_nat (size (filter (λ kv, prunable_event now db kv.1 kv.2 = true) (db_events db)))).
