(* ===== verification/Store.v ===== *)
(** The invariant of the snapshot store and the order in which it evolves.

    [wf] is what every reachable database satisfies beyond the constraints PostgreSQL
    enforces; [evolves] is what no transaction ever undoes: leases are only released
    or superseded, versions and sequences only grow, runs and published content are
    written once.  Both are proved of each statement and composed per method. *)

From stdpp Require Import base list numbers strings gmap sorting.
From Stdlib Require Import ZArith Lia.
From S2P Require Import Prelude Sanitize Domain Canonical Tables Leases.
From S2P Require Import Lifecycle Reads Commit HostState Maintenance.

Local Open Scope Z_scope.
Local Open Scope stdpp_scope.
Local Open Scope go_scope.

(** * Leases *)

(** A lease generation that can no longer commit: superseded, or released. *)
Definition dead_lease (l : LeaseCols) (g : Z) : Prop :=
  g < lease_generation l ∨ g = lease_generation l ∧ lease_owner l = None.

Definition dead (db : DB) (targetID g : Z) : Prop :=
  ∃ t, db_targets db !! targetID = Some t ∧ dead_lease (t_lease t) g.

Definition lease_step (l l' : LeaseCols) : Prop :=
  lease_generation l < lease_generation l' ∨
  lease_generation l' = lease_generation l ∧
    (lease_owner l' = lease_owner l ∨ lease_owner l' = None).

#[export] Instance lease_step_preorder : PreOrder lease_step.
Proof.
  split.
  - intros l. right. auto.
  - intros a b c [H|[H H']] [G|[G G']]; [left; lia|left; lia|left; lia|].
    right. split; [lia|]. destruct H' as [H'|H'], G' as [G'|G']; rewrite ?G', ?H'; auto.
Qed.

Lemma dead_lease_step l l' g : lease_step l l' → dead_lease l g → dead_lease l' g.
Proof.
  unfold lease_step, dead_lease. intros [H|[H [H'|H']]] [G|[G G']]; try lia.
  - right. split; [lia|congruence].
  - right. split; [lia|congruence].
Qed.

(** * How a row may change outside a commit: its published columns stay. *)

Definition row_step (t t' : TargetRow) : Prop :=
  t_ref t' = t_ref t ∧ t_pub t' = t_pub t ∧ lease_step (t_lease t) (t_lease t').

#[export] Instance row_step_preorder : PreOrder row_step.
Proof.
  split.
  - intros t. split_and!; done || reflexivity.
  - intros a b c (? & ? & ?) (? & ? & ?). split_and!; try congruence. by transitivity (t_lease b).
Qed.

(** The tables behind published content. *)
Definition same_content (db db' : DB) : Prop :=
  db_runs db' = db_runs db ∧ db_snaps db' = db_snaps db ∧ db_events db' = db_events db ∧
  db_notified db' = db_notified db ∧
  q_run (db_seqs db') = q_run (db_seqs db) ∧ q_snap (db_seqs db') = q_snap (db_seqs db) ∧
  q_event (db_seqs db') = q_event (db_seqs db).

Definition keeps_rows (db db' : DB) : Prop :=
  ∀ i t, db_targets db !! i = Some t → ∃ t', db_targets db' !! i = Some t' ∧ row_step t t'.

Definition frames (db db' : DB) : Prop :=
  same_content db db' ∧ keeps_rows db db' ∧ q_target (db_seqs db) ≤ q_target (db_seqs db').

#[export] Instance frames_preorder : PreOrder frames.
Proof.
  split.
  - intros db. split_and!; try done. intros i t Ht. by exists t.
  - intros a b c (Hc & Hr & Hq) (Gc & Gr & Gq). split_and!.
    + destruct Hc as (?&?&?&?&?&?&?), Gc as (?&?&?&?&?&?&?). split_and!; congruence.
    + intros i t Ht. destruct (Hr i t Ht) as (u & Hu & Hs).
      destruct (Gr i u Hu) as (v & Hv & Gs). exists v. split; [done|]. by transitivity u.
    + lia.
Qed.

(** * The invariant *)

Definition run_ok (db : DB) (r : RunRow) : Prop :=
  run_check r = true ∧ dead db (r_target r) (r_generation r).

Definition snap_ok (db : DB) (s : SnapRow) : Prop :=
  0 < s_version s ∧
  (∃ t, db_targets db !! s_target s = Some t ∧ s_version s ≤ current_version (t_pub t)) ∧
  (∀ rid, s_run s = Some rid → ∃ r, db_runs db !! rid = Some r ∧ r_target r = s_target s ∧
     r_outcome r = RChanged ∧ is_Some (r_validation_seq_after r)).

Definition event_ok (db : DB) (e : EventRow) : Prop :=
  0 < e_version e ∧
  ∃ t, db_targets db !! e_target e = Some t ∧ e_version e ≤ current_version (t_pub t) ∧
    e_kind e = ref_Kind (t_ref t).

(** The published columns of a target and the snapshot they point to. *)
Definition pub_ok (db : DB) (i : Z) (p : PubCols) : Prop :=
  current_version p ≤ validation_seq p ∧
  ∀ sid, current_snapshot_id p = Some sid → ∃ s, db_snaps db !! sid = Some s ∧
    s_target s = i ∧ s_version s = current_version p ∧ current_content_hash p = Some (s_hash s) ∧
    is_Some (last_validated_at p).

Record wf (db : DB) : Prop := {
  wf_check : ∀ i t, db_targets db !! i = Some t → target_check t = true;
  wf_pub : ∀ i t, db_targets db !! i = Some t → pub_ok db i (t_pub t);
  wf_refs : ∀ i j t u, db_targets db !! i = Some t → db_targets db !! j = Some u →
    t_ref t = t_ref u → i = j;
  wf_runs : ∀ rid r, db_runs db !! rid = Some r → run_ok db r;
  wf_run_unique : ∀ i j r r', db_runs db !! i = Some r → db_runs db !! j = Some r' →
    r_target r = r_target r' → r_generation r = r_generation r' → i = j;
  wf_snaps : ∀ sid s, db_snaps db !! sid = Some s → snap_ok db s;
  wf_snap_unique : ∀ i j s s', db_snaps db !! i = Some s → db_snaps db !! j = Some s' →
    s_target s = s_target s' → s_version s = s_version s' → i = j;
  wf_snap_run : ∀ i j s s' rid, db_snaps db !! i = Some s → db_snaps db !! j = Some s' →
    s_run s = Some rid → s_run s' = Some rid → i = j;
  wf_events : ∀ q e, db_events db !! q = Some e → event_ok db e;
  wf_event_order : ∀ i j e e', db_events db !! i = Some e → db_events db !! j = Some e' →
    e_target e = e_target e' → i < j → e_version e < e_version e';
  wf_target_ids : ∀ i, is_Some (db_targets db !! i) → 0 < i ≤ q_target (db_seqs db);
  wf_run_ids : ∀ i, is_Some (db_runs db !! i) → 0 < i ≤ q_run (db_seqs db);
  wf_snap_ids : ∀ i, is_Some (db_snaps db !! i) → 0 < i ≤ q_snap (db_seqs db);
  wf_event_ids : ∀ i, is_Some (db_events db !! i) → 0 < i ≤ q_event (db_seqs db);
  wf_seqs : 0 ≤ q_target (db_seqs db) ∧ 0 ≤ q_run (db_seqs db) ∧ 0 ≤ q_snap (db_seqs db) ∧
    0 ≤ q_event (db_seqs db)
}.

Lemma wf_empty : wf empty_db.
Proof. split; cbn; intros; try done; try (by destruct H as [? H]); lia. Qed.

(** * Evolution *)

(** A row keeps its identity; its version grows, and its validation sequence at least as
    much. *)
Definition row_le (t t' : TargetRow) : Prop :=
  t_ref t' = t_ref t ∧ lease_step (t_lease t) (t_lease t') ∧
  current_version (t_pub t) ≤ current_version (t_pub t') ∧
  validation_seq (t_pub t) + (current_version (t_pub t') - current_version (t_pub t)) ≤ validation_seq (t_pub t').

#[export] Instance row_le_preorder : PreOrder row_le.
Proof.
  split.
  - intros t. split_and!; done || reflexivity || lia.
  - intros a b c (? & ? & ? & ?) (? & ? & ? & ?). split_and!; try congruence; try lia.
    by transitivity (t_lease b).
Qed.

(** What a snapshot row never changes. *)
Definition same_snap (s s' : SnapRow) : Prop :=
  s_target s' = s_target s ∧ s_run s' = s_run s ∧ s_version s' = s_version s ∧
  s_hash s' = s_hash s ∧ s_payload s' = s_payload s ∧
  s_content_fetched_at s' = s_content_fetched_at s ∧ s_manifest s' = s_manifest s.

#[export] Instance same_snap_equivalence : Equivalence same_snap.
Proof.
  split.
  - by intros s.
  - intros s s' (?&?&?&?&?&?&?). by split_and!.
  - intros a b c (?&?&?&?&?&?&?) (?&?&?&?&?&?&?). split_and!; congruence.
Qed.

(** A snapshot row a later transaction added: a later run, a later version. *)
Definition new_snap (db : DB) (sid : Z) (s : SnapRow) : Prop :=
  q_snap (db_seqs db) < sid ∧ (∀ rid, s_run s = Some rid → q_run (db_seqs db) < rid) ∧
  ∀ t, db_targets db !! s_target s = Some t → current_version (t_pub t) < s_version s.

Record evolves (db db' : DB) : Prop := {
  ev_rows : ∀ i t, db_targets db !! i = Some t → ∃ t', db_targets db' !! i = Some t' ∧ row_le t t';
  ev_runs : ∀ rid r, db_runs db' !! rid = Some r →
    db_runs db !! rid = Some r ∨ q_run (db_seqs db) < rid ∧ ¬ dead db (r_target r) (r_generation r);
  ev_snaps : ∀ sid s, db_snaps db' !! sid = Some s →
    (∃ s0, db_snaps db !! sid = Some s0 ∧ same_snap s0 s) ∨ new_snap db sid s;
  ev_seqs : q_run (db_seqs db) ≤ q_run (db_seqs db') ∧ q_snap (db_seqs db) ≤ q_snap (db_seqs db') ∧
    q_event (db_seqs db) ≤ q_event (db_seqs db')
}.

Lemma evolves_dead db db' i g : evolves db db' → dead db i g → dead db' i g.
Proof.
  intros Hev (t & Ht & Hd). destruct (ev_rows _ _ Hev i t Ht) as (t' & Ht' & _ & Hl & _).
  exists t'. split; [done|]. by eapply dead_lease_step.
Qed.

#[export] Instance evolves_preorder : PreOrder evolves.
Proof.
  split.
  - intros db. split; eauto.
    + intros i t Ht. exists t. split; [done|reflexivity].
    + intros sid s Hs. left. exists s. split; [done|reflexivity].
    + lia.
  - intros a b c Hab Hbc. pose proof (ev_seqs _ _ Hab). pose proof (ev_seqs _ _ Hbc).
    split; [| | |lia].
    + intros i t Ht. destruct (ev_rows _ _ Hab i t Ht) as (u & Hu & Hle).
      destruct (ev_rows _ _ Hbc i u Hu) as (v & Hv & Hle'). exists v. split; [done|].
      by transitivity u.
    + intros rid r Hr. destruct (ev_runs _ _ Hbc rid r Hr) as [Hb|[Hq Hd]].
      * by apply (ev_runs _ _ Hab).
      * right. split; [lia|]. intros Hda. by apply Hd, (evolves_dead a).
    + intros sid s Hs. destruct (ev_snaps _ _ Hbc sid s Hs) as [(s1 & Hs1 & E1)|(Hq & Hrun & Hver)].
      2:{ right. split_and!; [lia| |].
          - intros rid Hrid. specialize (Hrun rid Hrid). lia.
          - intros t Ht. destruct (ev_rows _ _ Hab _ t Ht) as (u & Hu & _ & _ & ? & _).
            specialize (Hver u Hu). lia. }
      destruct (ev_snaps _ _ Hab sid s1 Hs1) as [(s0 & Hs0 & E0)|(Hq & Hrun & Hver)].
      * left. exists s0. split; [done|]. by transitivity s1.
      * right. destruct E1 as (Et & Er & Ev & _). unfold new_snap. by rewrite Et, Er, Ev.
Qed.

(** A transaction that keeps the invariant and evolves the store. *)
Definition good (db db' : DB) : Prop := wf db → wf db' ∧ evolves db db'.

#[export] Instance good_preorder : PreOrder good.
Proof.
  split.
  - intros db Hwf. by split.
  - intros a b c Hab Hbc Hwf. destruct (Hab Hwf) as [Hb E]. destruct (Hbc Hb) as [Hc E'].
    split; [done|]. by transitivity b.
Qed.

(** * Statements that leave published content alone *)

Lemma frames_evolves db db' : frames db db' → evolves db db'.
Proof.
  intros ((Hr & Hs & He & Hnt & Hqr & Hqs & Hqe) & Hk & _). split.
  - intros i t Ht. destruct (Hk i t Ht) as (t' & Ht' & E1 & E2 & E3). exists t'.
    split; [done|]. split_and!; try done; rewrite E2; lia.
  - intros rid r. rewrite Hr. auto.
  - intros sid s. rewrite Hs. intros Es. left. exists s. by split.
  - lia.
Qed.

(** A row a frame adds has nothing published. *)
Definition blank_pub (p : PubCols) : Prop :=
  current_version p = 0 ∧ current_snapshot_id p = None ∧ validation_seq p = 0.

Definition rows_ok (db : DB) : Prop :=
  (∀ i t, db_targets db !! i = Some t → target_check t = true) ∧
  (∀ i j t u, db_targets db !! i = Some t → db_targets db !! j = Some u → t_ref t = t_ref u → i = j).

Definition new_rows_ok (db db' : DB) : Prop :=
  ∀ i t', db_targets db' !! i = Some t' → db_targets db !! i = None →
    0 < i ≤ q_target (db_seqs db') ∧ blank_pub (t_pub t').

Lemma frames_wf db db' : frames db db' → rows_ok db' → new_rows_ok db db' → wf db → wf db'.
Proof.
  intros Hf [Hc Hu] Hn W. pose proof (frames_evolves _ _ Hf) as Hev.
  destruct Hf as ((Hr & Hs & He & Hnt & Hqr & Hqs & Hqe) & Hk & Hqt).
  pose proof (wf_seqs _ W).
  split; rewrite ?Hr, ?Hs, ?He, ?Hqr, ?Hqs, ?Hqe; try done; try apply W.
  - intros i t' Ht'. destruct (db_targets db !! i) as [t|] eqn:Et.
    + destruct (Hk i t Et) as (u & Hu' & _ & E & _). rewrite Ht' in Hu'. simplify_eq.
      unfold pub_ok. rewrite E, Hs. by apply (wf_pub _ W).
    + destruct (Hn i t' Ht' Et) as (_ & Hv & Hsid & Hseq). unfold pub_ok.
      rewrite Hsid. split; [lia|done].
  - intros rid r Hr'. destruct (wf_runs _ W rid r Hr') as [? Hd].
    split; [done|by eapply evolves_dead].
  - intros sid s Hs'. destruct (wf_snaps _ W sid s Hs') as (Hv & (t & Ht & Hle) & Hrun).
    split; [done|]. split; [|by rewrite Hr].
    destruct (Hk _ t Ht) as (t' & Ht' & _ & E & _). exists t'. by rewrite E.
  - intros q e He'. destruct (wf_events _ W q e He') as (Hv & t & Ht & Hle & Hkd).
    split; [done|]. destruct (Hk _ t Ht) as (t' & Ht' & E1 & E2 & _). exists t'.
    by rewrite E1, E2.
  - intros i [t' Ht']. destruct (db_targets db !! i) as [t|] eqn:Et.
    + pose proof (wf_target_ids _ W i (ex_intro _ t Et)). lia.
    + by apply (Hn i t').
  - lia.
Qed.

Lemma frames_good db db' :
  frames db db' → (wf db → rows_ok db') → (wf db → new_rows_ok db db') → good db db'.
Proof.
  intros Hf Hr Hn W. split; [|by apply frames_evolves]. eapply frames_wf; eauto.
Qed.

(** A frame that is also good: what the methods around a commit satisfy. *)
Definition harmless (db db' : DB) : Prop := frames db db' ∧ good db db'.

#[export] Instance harmless_preorder : PreOrder harmless.
Proof.
  split; [intros db; split; reflexivity|].
  intros a b c [? ?] [? ?]. split; by transitivity b.
Qed.

(** ** UPDATE *)

Lemma update_where_harmless p f db db' n :
  (∀ i t, p i t = true → row_step t (f t)) →
  update_where p f db = Ok (db', n) → harmless db db'.
Proof.
  intros Hf E. pose proof (λ i, update_where_lookup _ _ _ _ _ i E) as Hl.
  pose proof (update_where_others _ _ _ _ _ E) as Ho.
  assert (Hback : ∀ i t', db_targets db' !! i = Some t' →
    ∃ t, db_targets db !! i = Some t ∧ row_step t t' ∧ (t' = f t ∧ p i t = true ∨ t' = t)).
  { intros i t'. rewrite Hl. destruct (db_targets db !! i) as [t|]; cbn; [|done].
    intros [= <-]. exists t. split; [done|].
    destruct (p i t) eqn:Ep; (split; [first [by eapply Hf|reflexivity]|]); auto. }
  assert (Hfr : frames db db').
  { rewrite Ho. split_and!; try done. intros i t Ht. cbn. rewrite Hl, Ht. cbn.
    destruct (p i t) eqn:Ep; eexists; (split; [done|]); [by eapply Hf|reflexivity]. }
  split; [done|]. apply frames_good; [done| |].
  - intros W. split.
    + intros i t' Ht'. destruct (Hback i t' Ht') as (t & Ht & _ & [[-> Hp]| ->]).
      * by eapply update_where_check.
      * by apply (wf_check _ W i).
    + intros i j t' u' Ht' Hu' Er.
      destruct (Hback i t' Ht') as (t & Ht & (E1 & _) & _).
      destruct (Hback j u' Hu') as (u & Hu & (E2 & _) & _).
      apply (wf_refs _ W i j t u); try done. congruence.
  - intros W i t' Ht' Hnone. destruct (Hback i t' Ht') as (t & Ht & _). congruence.
Qed.

(** ** Seeds *)

Lemma seed_conflict_step s t : row_step t (seed_conflict s t).
Proof. split_and!; done || reflexivity. Qed.

Lemma set_row_harmless db i t t' :
  db_targets db !! i = Some t → row_step t t' → target_check t' = true →
  harmless db (set_targets (<[i := t']> (db_targets db)) db).
Proof.
  intros Ht Hstep Hc.
  assert (Hfr : frames db (set_targets (<[i := t']> (db_targets db)) db)).
  { split_and!; try done. intros j u Hu. cbn. destruct (decide (j = i)) as [->|Hj].
    - rewrite lookup_insert_eq. simplify_eq. eauto.
    - rewrite lookup_insert_ne by done. exists u. split; [done|reflexivity]. }
  assert (Hback : ∀ j u', <[i := t']> (db_targets db) !! j = Some u' →
    ∃ u, db_targets db !! j = Some u ∧ t_ref u' = t_ref u ∧ (u' = t' ∨ u' = u)).
  { intros j u' Hj. destruct (decide (j = i)) as [->|Hj'].
    - rewrite lookup_insert_eq in Hj. simplify_eq. exists t. destruct Hstep as [? _]. auto.
    - rewrite lookup_insert_ne in Hj by done. eauto. }
  split; [done|]. apply frames_good; [done| |].
  - intros W. split; cbn.
    + intros j u' Hj. destruct (Hback j u' Hj) as (u & Hu & _ & [-> | ->]); [done|].
      by apply (wf_check _ W j).
    + intros j k u' v' Hj Hk Er. destruct (Hback j u' Hj) as (u & Hu & E1 & _).
      destruct (Hback k v' Hk) as (v & Hv & E2 & _).
      apply (wf_refs _ W j k u v); try done. congruence.
  - intros W j u' Hj Hnone. destruct (Hback j u' Hj) as (u & Hu & _). congruence.
Qed.

Lemma insert_target_harmless db t :
  target_check t = true → blank_pub (t_pub t) →
  (∀ i u, db_targets db !! i = Some u → t_ref u ≠ t_ref t) →
  wf db → frames db (insert_target t db) ∧ wf (insert_target t db).
Proof.
  intros Hc Hb Hfresh W.
  assert (Hnew : db_targets db !! (q_target (db_seqs db) + 1) = None).
  { destruct (db_targets db !! _) as [u|] eqn:Eu; [|done].
    pose proof (wf_target_ids _ W _ (ex_intro _ u Eu)). lia. }
  pose proof (wf_seqs _ W).
  assert (Hfr : frames db (insert_target t db)).
  { split_and!; try done; [|cbn; lia]. intros i u Hu. cbn.
    rewrite lookup_insert_ne by congruence. exists u. split; [done|reflexivity]. }
  split; [done|]. apply (frames_wf db); [done| | |done].
  - split; cbn.
    + intros i u [[<- <-]|[_ Hu]]%lookup_insert_Some; [done|by apply (wf_check _ W i)].
    + intros i j u v [[<- <-]|[Hi Hu]]%lookup_insert_Some [[<- <-]|[Hj Hv]]%lookup_insert_Some Er;
        [done| | |by apply (wf_refs _ W i j u v)].
      * by destruct (Hfresh j v Hv).
      * by destruct (Hfresh i u Hu).
  - intros i u' Hu' Hnone. cbn in *. apply lookup_insert_Some in Hu' as [[<- <-]|[_ ?]]; [|congruence].
    split; [lia|done].
Qed.

(** Seeding needs the invariant to choose a fresh key, so its frame is conditional. *)
Definition harmless' (db db' : DB) : Prop := wf db → wf db' ∧ frames db db'.

Lemma harmless_wf db db' : harmless db db' → harmless' db db'.
Proof. intros [Hf Hg] W. destruct (Hg W). by split. Qed.

Lemma harmless'_good db db' : harmless' db db' → good db db'.
Proof. intros Hh W. destruct (Hh W). split; [done|by apply frames_evolves]. Qed.

#[export] Instance harmless'_preorder : PreOrder harmless'.
Proof.
  split; [intros db W; by split|].
  intros a b c Hab Hbc W. destruct (Hab W) as [Wb ?]. destruct (Hbc Wb). split; [done|].
  by transitivity b.
Qed.

Lemma upsert_seed_harmless s db db' : upsert_seed s db = Ok db' → harmless' db db'.
Proof.
  unfold upsert_seed. destruct (target_check (seed_row s)) eqn:Ec0; [cbn|done].
  destruct (find_target db (sd_Ref s)) as [[i t]|] eqn:Ef.
  - destruct (target_check (seed_conflict s t)) eqn:Ec; [|done]. intros [= <-].
    apply find_target_Some in Ef as [Ht _]. apply harmless_wf.
    eapply set_row_harmless; [done|apply seed_conflict_step|done].
  - destruct (is_none _); [done|]. intros [= <-] W. destruct (insert_target_harmless db (seed_row s)) as [? ?]; try done.
    intros i u Hu. by eapply find_target_None.
Qed.

Lemma upsert_all_harmless seeds db db' : upsert_all seeds db = Ok db' → harmless' db db'.
Proof.
  revert db. induction seeds as [|s seeds IH]; intros db E; cbn in E; [by simplify_eq|].
  destruct (upsert_seed s db) as [db1|] eqn:E1; cbn in E; [|done].
  transitivity db1; [by eapply upsert_seed_harmless|by apply IH].
Qed.

Lemma upsertSeeds_harmless `{GoLib} seeds db db' : upsertSeeds seeds db = Ok db' → harmless' db db'.
Proof.
  unfold upsertSeeds. intros E. destruct (validate_seeds seeds); [|done].
  by apply upsert_all_harmless in E.
Qed.

(** ** The other statements on targets *)

Lemma claim_row_step w now l t : row_step t (claim_row w now l t).
Proof. split_and!; try done. left. cbn. lia. Qed.

Lemma clear_lease_step t : row_step t (clear_lease t).
Proof. split_and!; try done. right. auto. Qed.

Lemma set_next_run_step n t : row_step t (set_next_run n t).
Proof. split_and!; done || reflexivity. Qed.

Lemma set_life_step f t : row_step t (set_life f t).
Proof. split_and!; done || reflexivity. Qed.

Lemma activate_row_step v now t : row_step t (activate_row v now t).
Proof. split_and!; done || reflexivity. Qed.

Lemma repair_row_step now t : row_step t (repair_row now t).
Proof.
  unfold repair_row. destruct (orphaned now t); [|apply set_next_run_step].
  transitivity (set_next_run (Z.min (next_run_at (t_sched t)) now) t);
    [apply set_next_run_step|apply clear_lease_step].
Qed.

#[export] Hint Resolve claim_row_step clear_lease_step set_next_run_step set_life_step
  activate_row_step repair_row_step seed_conflict_step : godb.

(** Runs one [update_where] of a method. *)
Ltac by_update :=
  match goal with
  | E : update_where _ _ ?db = Ok (?d, _) |- harmless ?db ?d =>
      eapply update_where_harmless; [|exact E]; intros; cbn beta; auto with godb
  end.

Lemma ClaimDue_harmless req locked db db' ts : ClaimDue req locked db = Ok (db', ts) → harmless db db'.
Proof.
  unfold ClaimDue. intros E. destruct (cr_Limit req <=? 0); [done|]. cbn in E.
  destruct (validateClaim _ _ _); [|done]. cbn in E.
  destruct (update_where _ _ _) as [[d n]|] eqn:Eu; [|done]. cbn in E. simplify_eq. by_update.
Qed.

Lemma ClaimOne_harmless req locked db db' t : ClaimOne req locked db = Ok (db', t) → harmless db db'.
Proof.
  unfold ClaimOne. intros E. destruct (ref_check _); [|done]. cbn in E.
  destruct (validateClaim _ _ _); [|done]. cbn in E.
  destruct (find_target _ _) as [[i row]|]; [|done]. destruct (_ && _).
  - destruct (update_where _ _ _) as [[d n]|] eqn:Eu; [|done]. cbn in E. simplify_eq. by_update.
  - repeat case_match; done.
Qed.

Lemma ReleaseLease_harmless i g db db' : ReleaseLease i g db = Ok db' → harmless db db'.
Proof.
  unfold ReleaseLease. intros E. destruct (_ || _); [done|].
  destruct (update_where _ _ _) as [[d n]|] eqn:Eu; [|done]. cbn in E. simplify_eq. by_update.
Qed.

Lemma RenewLease_harmless i w g d now db db' : RenewLease i w g d now db = Ok db' → harmless db db'.
Proof.
  unfold RenewLease. intros E. destruct (_ || _); [done|]. destruct (blank w); [done|].
  destruct (d <=? 0); [done|]. destruct (update_where _ _ _) as [[x n]|] eqn:Eu; [|done]. cbn in E.
  destruct (n =? 0); [done|]. simplify_eq.
  eapply update_where_harmless; [|exact Eu]. intros j t _. split_and!; try done. right. auto.
Qed.

Lemma SetDueNow_harmless ref now db db' : SetDueNow ref now db = Ok db' → harmless db db'.
Proof.
  unfold SetDueNow. intros E. destruct (ref_check _); [|done]. cbn in E.
  destruct (update_where _ _ _) as [[d n]|] eqn:Eu; [|done]. cbn in E.
  destruct (n =? 0); [done|]. simplify_eq. by_update.
Qed.

Lemma RescheduleLease_harmless i g next db db' : RescheduleLease i g next db = Ok db' → harmless db db'.
Proof.
  unfold RescheduleLease. intros E. destruct (update_where _ _ _) as [[d n]|] eqn:Eu; [|done].
  cbn in E. destruct (n =? 0); [done|]. simplify_eq.
  eapply update_where_harmless; [|exact Eu]. intros j t _.
  transitivity (set_next_run next t); auto with godb.
Qed.

Lemma RepairStaleTargets_harmless ts now db db' n : RepairStaleTargets ts now db = Ok (db', n) → harmless db db'.
Proof.
  unfold RepairStaleTargets. destruct ts; [intros; simplify_eq; reflexivity|]. intros Eu. by_update.
Qed.

Lemma applyChildPresence_harmless parent seen db db' :
  applyChildPresence parent seen db = Ok db' → harmless db db'.
Proof.
  unfold applyChildPresence. destruct (child_scope parent) as [[ck cp]|]; [|intros; simplify_eq; reflexivity].
  cbv zeta. set (keys := seen_keys _ _ _ _). clearbody keys. intros E.
  destruct (match keys with [] => Ok db | _ => _ end) as [db1|] eqn:E1; [|done]. cbn in E.
  destruct (update_where _ _ db1) as [[d n]|] eqn:Eu; [|done]. cbn in E. simplify_eq.
  transitivity db1; [|by_update]. destruct keys as [|k ks]; [by simplify_eq|].
  destruct (update_where _ _ db) as [[d0 n0]|] eqn:Eu0; [|done]. cbn in E1. simplify_eq. by_update.
Qed.

Lemma ReconcileLifecycle_harmless `{GoLib} input now db db' :
  ReconcileLifecycle input now db = Ok db' → harmless' db db'.
Proof.
  unfold ReconcileLifecycle. destruct (child_scope _) as [[ck cp]|]; [|intros; simplify_eq; reflexivity].
  cbv zeta. set (keys := seen_keys _ _ _ _). clearbody keys. intros E.
  destruct (upsertSeeds _ db) as [db0|] eqn:E0; [|done]. cbn in E.
  destruct (match keys with [] => Ok db0 | _ => _ end) as [db1|] eqn:E1; [|done]. cbn in E.
  destruct (update_where _ _ db1) as [[d n]|] eqn:Eu; [|done]. cbn in E. simplify_eq.
  transitivity db0; [by eapply upsertSeeds_harmless|]. apply harmless_wf.
  transitivity db1; [|by_update]. destruct keys as [|k ks]; [by simplify_eq|].
  destruct (update_where _ _ db0) as [[d0 n0]|] eqn:Eu0; [|done]. cbn in E1. simplify_eq. by_update.
Qed.

(** ** Statements on other tables *)

Definition same_core (db db' : DB) : Prop :=
  db_targets db' = db_targets db ∧ db_runs db' = db_runs db ∧ db_snaps db' = db_snaps db ∧
  db_events db' = db_events db ∧ db_notified db' = db_notified db ∧
  (∃ q, db_seqs db' = mkSeqs (q_target (db_seqs db)) (q_run (db_seqs db)) (q_snap (db_seqs db))
    (q_event (db_seqs db)) q).

Lemma same_core_harmless db db' : same_core db db' → harmless db db'.
Proof.
  intros (Ht & Hr & Hs & He & Hnt & q & Hq).
  assert (Hfr : frames db db').
  { split; [split_and!; by rewrite ?Hq|]. split; [|rewrite Hq; cbn; lia].
    intros i t Hi. exists t. rewrite Ht. split; [done|reflexivity]. }
  split; [done|]. apply frames_good; [done| |].
  - intros W. split; rewrite Ht; apply W.
  - intros W i t. rewrite Ht. congruence.
Qed.

Lemma same_core_refl db : same_core db db.
Proof. split_and!; try done. exists (q_permit (db_seqs db)). by destruct (db_seqs db). Qed.

Lemma same_core_seqs db db' :
  db_targets db' = db_targets db → db_runs db' = db_runs db → db_snaps db' = db_snaps db →
  db_events db' = db_events db → db_notified db' = db_notified db →
  db_seqs db' = db_seqs db → same_core db db'.
Proof.
  intros ? ? ? ? ? E. split_and!; try done. exists (q_permit (db_seqs db)). rewrite E.
  by destruct (db_seqs db).
Qed.

#[export] Instance same_core_preorder : PreOrder same_core.
Proof.
  split; [exact same_core_refl|].
  intros a b c (?&?&?&?&?&q&Eq) (?&?&?&?&?&q'&Eq'). split_and!; try congruence.
  exists q'. rewrite Eq', Eq. done.
Qed.

Lemma write_host_core host h db db' : write_host host h db = Ok db' → same_core db db'.
Proof.
  unfold write_host. destruct (host_check h); [|done]. intros [= <-]. by apply same_core_seqs.
Qed.

Lemma drop_expired_core host now db : same_core db (drop_expired host now db).
Proof. by apply same_core_seqs. Qed.

Lemma insert_permit_core p db db' id : insert_permit p db = Ok (db', id) → same_core db db'.
Proof.
  unfold insert_permit. destruct (_ || _); [done|]. intros [= <- <-].
  split_and!; try done. by eexists.
Qed.

Section hosts.
Context `{Postgres}.

Lemma SeedHost_core seed now db db' : SeedHost seed now db = Ok db' → same_core db db'.
Proof.
  unfold SeedHost. intros E. inv_ok E; eauto using write_host_core.
Qed.

Lemma decide_permit_core r h now db db' d : decide_permit r h now db = Ok (db', d) → same_core db db'.
Proof.
  unfold decide_permit. intros E. destruct (paused_at h now); [simplify_eq; reflexivity|].
  cbv zeta in E. destruct (_ <=? _); [|destruct (Float64.flt _ _)].
  - destruct (persistTokens _ _ _ _ _) as [db1|] eqn:E1; [|done]. cbn in E. simplify_eq.
    by eapply write_host_core.
  - destruct (persistTokens _ _ _ _ _) as [db1|] eqn:E1; [|done]. cbn in E. simplify_eq.
    by eapply write_host_core.
  - destruct (persistTokens _ _ _ _ _) as [db1|] eqn:E1; [|done]. cbn in E.
    destruct (insert_permit _ db1) as [[db2 id]|] eqn:E2; [|done]. cbn in E. simplify_eq.
    transitivity db1; [by eapply write_host_core|by eapply insert_permit_core].
Qed.

Lemma AcquireHostPermit_core r db db' d : AcquireHostPermit r db = Ok (db', d) → same_core db db'.
Proof.
  unfold AcquireHostPermit. intros E. destruct (_ || _); [done|]. cbn in E.
  destruct (_ || _ || _ || _); [done|]. cbn in E.
  destruct (existing_permit _ _ _ _) as [[id p]|]; [simplify_eq; reflexivity|].
  destruct (db_hosts db !! ar_Host r) as [h|]; [|done].
  destruct (negb _); [done|]. etransitivity; [apply drop_expired_core|by eapply decide_permit_core].
Qed.

Lemma ReleaseHostPermit_core id db : same_core db (ReleaseHostPermit id db).
Proof. unfold ReleaseHostPermit. destruct (id <=? 0); by apply same_core_seqs. Qed.

Lemma ObserveHost_core o db db' : ObserveHost o db = Ok db' → same_core db db'.
Proof.
  unfold ObserveHost. destruct (_ || _); [done|]. destruct (db_hosts db !! _); [|done].
  apply write_host_core.
Qed.
End hosts.

Lemma UpdateListenerCheckpoint_core c n db : same_core db (UpdateListenerCheckpoint c n db).
Proof. by apply same_core_seqs. Qed.

Lemma insert_candidates_core `{Postgres} cs db db' :
  insert_candidates cs db = Ok db' → same_core db db'.
Proof.
  revert db. induction cs as [|c cs IH]; intros db E; cbn in E; [by simplify_eq|].
  destruct (insertCandidate c db) as [db1|] eqn:E1; [|done]. cbn in E.
  transitivity db1; [|by apply IH]. unfold insertCandidate in E1.
  destruct (_ || _); [done|]. destruct (candidate_row c); simplify_eq. by apply same_core_seqs.
Qed.

(** * Deletions *)

(** Rows may go from the content tables as long as nothing kept refers to them. *)
Record shrinks (db db' : DB) : Prop := {
  sh_targets : db_targets db' = db_targets db;
  sh_seqs : db_seqs db' = db_seqs db;
  sh_runs : db_runs db' ⊆ db_runs db;
  sh_snaps : db_snaps db' ⊆ db_snaps db;
  sh_events : db_events db' ⊆ db_events db;
  sh_current : ∀ i t sid s, db_targets db !! i = Some t → current_snapshot_id (t_pub t) = Some sid →
    db_snaps db !! sid = Some s → db_snaps db' !! sid = Some s;
  sh_run_of : ∀ sid s rid r, db_snaps db' !! sid = Some s → s_run s = Some rid →
    db_runs db !! rid = Some r → db_runs db' !! rid = Some r
}.

Lemma shrinks_good db db' : shrinks db db' → good db db'.
Proof.
  intros [Ht Hq Hr Hs He Hc Hro] W.
  assert (Hd : ∀ i g, dead db i g → dead db' i g) by (unfold dead; by rewrite Ht).
  split.
  - split; rewrite ?Ht, ?Hq; try apply W.
    + intros i t Hi. destruct (wf_pub _ W i t Hi) as [? Hcur]. split; [done|].
      intros sid Hsid. destruct (Hcur sid Hsid) as (s & Es & ?). exists s. split; [|done]. eauto.
    + intros rid r Hrid. eapply lookup_weaken in Hrid as Hrid'; [|exact Hr].
      destruct (wf_runs _ W rid r Hrid'). split; auto.
    + intros i j r r' Hi Hj. eapply (wf_run_unique _ W); by eapply lookup_weaken.
    + intros sid s Hsid. eapply lookup_weaken in Hsid as Hsid'; [|exact Hs].
      destruct (wf_snaps _ W sid s Hsid') as (? & ? & Hrun). split_and!; [done|by rewrite Ht|].
      intros rid Hrid. destruct (Hrun rid Hrid) as (r & Er & ?). exists r. split; [|done]. eauto.
    + intros i j s s' Hi Hj. eapply (wf_snap_unique _ W); by eapply lookup_weaken.
    + intros i j s s' rid Hi Hj. eapply (wf_snap_run _ W); by eapply lookup_weaken.
    + intros q e Hqe. eapply lookup_weaken in Hqe; [|exact He].
      destruct (wf_events _ W q e Hqe) as (? & t & ?). split; [done|]. exists t. by rewrite Ht.
    + intros i j e e' Hi Hj. eapply (wf_event_order _ W); by eapply lookup_weaken.
    + intros i [r Hi]. apply (wf_run_ids _ W). exists r. by eapply lookup_weaken.
    + intros i [r Hi]. apply (wf_snap_ids _ W). exists r. by eapply lookup_weaken.
    + intros i [r Hi]. apply (wf_event_ids _ W). exists r. by eapply lookup_weaken.
  - split; rewrite ?Ht, ?Hq; [| | |lia].
    + intros i t Hi. exists t. split; [done|reflexivity].
    + intros rid r Hrid. left. by eapply lookup_weaken.
    + intros sid s Hsid. left. exists s. split; [by eapply lookup_weaken|reflexivity].
Qed.

Lemma PruneCommitEvents_good now db : good db (PruneCommitEvents now db).1.
Proof. apply shrinks_good. split; cbn; try done. apply map_filter_subseteq. Qed.

Lemma delete_snaps_shrinks ids db db' : delete_snaps ids db = Ok db' → shrinks db db'.
Proof.
  unfold delete_snaps. case_bool_decide as Hc; [|done]. intros [= <-].
  split; cbn; try done; [apply map_filter_subseteq|].
  intros i t sid s Hi Hsid Hs. apply map_lookup_filter_Some. split; [done|]. cbn.
  pose proof (Hc i t Hi) as Hp. unfold points_into in Hp. rewrite Hsid in Hp.
  by apply bool_decide_eq_false in Hp.
Qed.

(** Membership in a batch of the pruning loops. *)
Lemma elem_of_batch {A} (less : Z * A → Z * A → bool) (p : Z → A → bool) n (m : gmap Z A) id :
  id ∈ map fst (take n (sort_stable less (filter (λ x, p x.1 x.2 = true) (map_to_list m)))) →
  ∃ a, m !! id = Some a ∧ p id a = true.
Proof.
  intros ([i a] & -> & Hin)%list_elem_of_fmap.
  apply elem_of_take in Hin as (k & Hk & _). apply list_elem_of_lookup_2 in Hk.
  rewrite sort_stable_perm in Hk. apply list_elem_of_filter in Hk as [Hp Hk].
  apply elem_of_map_to_list in Hk. eauto.
Qed.

Lemma delete_runs_shrinks cutoff batch db :
  shrinks db (delete_runs (run_batch cutoff batch db) db).
Proof.
  split; cbn; try done; [apply map_filter_subseteq|].
  intros sid s rid r Hs Hrid Hr. apply map_lookup_filter_Some. split; [done|]. cbn.
  intros Hin. apply elem_of_batch in Hin as (r' & Hr' & Hp). unfold prunable_run in Hp.
  bool_to_prop. match goal with H : map_Forall _ _ |- _ => by apply (H sid s Hs) end.
Qed.

