(* ===== verification/CommitSpec.v ===== *)
(** The commit keeps the store's invariant and evolves it; what each branch writes. *)

From stdpp Require Import base list numbers strings gmap sorting.
From Stdlib Require Import ZArith Lia.
From S2P Require Import Prelude Sanitize Domain Canonical Tables Leases.
From S2P Require Import Lifecycle Reads Commit HostState Maintenance Store.

Local Open Scope Z_scope.
Local Open Scope stdpp_scope.
Local Open Scope go_scope.

(** * Inversion of the statements *)

Lemma lock_target_inv input db t :
  lock_target input db = Ok t →
  db_targets db !! ci_TargetID input = Some t ∧
  lease_generation (t_lease t) = ci_LeaseGeneration input ∧
  lease_owner (t_lease t) = Some (ci_WorkerID input).
Proof.
  unfold lock_target. destruct (db_targets db !! _) as [u|] eqn:E; [|done].
  destruct (negb _) eqn:Eg; [done|]. case_bool_decide as Ho; [done|]. intros [= ->].
  by bool_to_prop.
Qed.

Lemma insert_run_inv r db db' id :
  insert_run r db = Ok (db', id) →
  db' = add_run r db ∧ id = q_run (db_seqs db) + 1 ∧ run_check r = true ∧
  (∀ rid r', db_runs db !! rid = Some r' → ¬ (r_target r' = r_target r ∧ r_generation r' = r_generation r)).
Proof.
  unfold insert_run. destruct (run_check r) eqn:Ec; [|done]. cbn.
  destruct (run_of db _ _) eqn:Er; [done|]. cbn. intros [= <- <-]. split_and!; try done.
  exact (proj1 (head_filter_None _ _) Er).
Qed.

Lemma insert_snapshot_inv s db db' id :
  insert_snapshot s db = Ok (db', id) →
  db' = add_snap s db ∧ id = q_snap (db_seqs db) + 1 ∧ 0 < s_version s ∧
  (∀ rid, s_run s = Some rid → ∀ sid s', db_snaps db !! sid = Some s' → s_run s' ≠ Some rid).
Proof.
  unfold insert_snapshot. destruct (_ || _) eqn:Ec; [done|]. intros [= <- <-]. bool_to_prop.
  split_and!; try done. intros rid Hr sid s' Hs.
  destruct (s_run s) as [x|]; [|done]. simplify_eq.
  destruct (snap_of_run db rid) eqn:E; [done|]. by apply (proj1 (head_filter_None _ _) E sid s').
Qed.

Lemma update_leased_inv input f db db' t :
  db_targets db !! ci_TargetID input = Some t →
  lease_generation (t_lease t) = ci_LeaseGeneration input →
  update_leased input f db = Ok db' →
  target_check (f t) = true ∧ db' = set_targets (<[ci_TargetID input := f t]> (db_targets db)) db.
Proof.
  intros Ht Hg. unfold update_leased. intros E.
  destruct (update_where _ _ db) as [[d n]|] eqn:Eu; [|done]. cbn in E.
  destruct (n =? 1); [|done]. simplify_eq.
  assert (Hh : held (ci_TargetID input) (ci_LeaseGeneration input) (ci_TargetID input) t = true).
  { unfold held. by rewrite Z.eqb_refl, Hg, Z.eqb_refl. }
  split; [by eapply update_where_check|].
  eapply update_where_one; [done|done|done|]. intros j u Hj. unfold held in Hj. bool_to_prop. done.
Qed.

Lemma wrap64_succ v : 0 ≤ v ≤ max_int64 → 0 ≤ wrap64 (v + 1) → wrap64 (v + 1) = v + 1.
Proof.
  intros Hv Hw. destruct (decide (v = max_int64)) as [->|Hne]; [by vm_compute in Hw|].
  unfold wrap64, max_int64 in *. rewrite Z.mod_small by lia. lia.
Qed.

(** The columns of a checked row that the commit's arithmetic needs. *)
Lemma target_check_counters t :
  target_check t = true →
  0 ≤ validation_seq (t_pub t) ≤ max_int64 ∧ 0 ≤ current_version (t_pub t) ≤ max_int64 ∧
  0 ≤ lease_generation (t_lease t) ≤ max_int64.
Proof.
  unfold target_check, int8. intros H. bool_to_prop. lia.
Qed.

Lemma target_check_pub t :
  target_check t = true → current_snapshot_id (t_pub t) = None ↔ current_version (t_pub t) = 0.
Proof.
  unfold target_check. intros H.
  repeat match goal with H : (_ && _)%bool = true |- _ => apply andb_true_iff in H as [? ?] end.
  match goal with H : (_ || _)%bool = true |- _ => apply orb_true_iff in H as [H|H] end;
    bool_to_prop; destruct (current_snapshot_id (t_pub t)); cbn in *; try done; try lia.
  split; [done|lia].
Qed.

Lemma next_validation_seq_inv input t seq :
  next_validation_seq input t = Ok seq →
  seq = if successfulOutcome (ci_Outcome input) then wrap64 (validation_seq (t_pub t) + 1)
        else validation_seq (t_pub t).
Proof.
  unfold next_validation_seq. destruct (successfulOutcome _); [|by intros [= ->]].
  destruct (ci_ValidationSeqAfter input); [|by intros [= ->]].
  destruct (_ =? _); [by intros [= ->]|done].
Qed.

(** * The rows a commit writes *)

(** What the UPDATE of a held target does to its row. *)
Record ends_lease (t t' : TargetRow) : Prop := {
  el_ref : t_ref t' = t_ref t;
  el_lease : t_lease t' = released (t_lease t);
  el_check : target_check t' = true;
  el_version : current_version (t_pub t) ≤ current_version (t_pub t');
  el_seq : validation_seq (t_pub t) + (current_version (t_pub t') - current_version (t_pub t)) ≤ validation_seq (t_pub t')
}.

Lemma ends_lease_le t t' : ends_lease t t' → row_le t t'.
Proof.
  intros [? El ? ? ?]. split_and!; try done. rewrite El. right. auto.
Qed.

(** A held generation is not dead; after the UPDATE it is. *)
Lemma held_not_dead db i t w :
  db_targets db !! i = Some t → lease_owner (t_lease t) = Some w →
  ¬ dead db i (lease_generation (t_lease t)).
Proof.
  intros Ht Ho (u & Hu & Hd). rewrite Ht in Hu. injection Hu as <-.
  destruct Hd as [?|[_ ?]]; [lia|congruence].
Qed.

Section write.
Context (db db' : DB) (tid : Z) (t t' : TargetRow) (w : string) (r : RunRow).
Hypothesis W : wf db.
Hypothesis Ht : db_targets db !! tid = Some t.
Hypothesis Hown : lease_owner (t_lease t) = Some w.
Hypothesis Hend : ends_lease t t'.
Hypothesis Hrt : r_target r = tid.
Hypothesis Hrg : r_generation r = lease_generation (t_lease t).
Hypothesis Hrc : run_check r = true.
Hypothesis Hrnew : ∀ rid r', db_runs db !! rid = Some r' →
  ¬ (r_target r' = r_target r ∧ r_generation r' = r_generation r).
Hypothesis Ets : db_targets db' = <[tid := t']> (db_targets db).
Hypothesis Ers : db_runs db' = <[q_run (db_seqs db) + 1 := r]> (db_runs db).
Hypothesis Ees : db_events db' = db_events db.
Hypothesis Eqt : q_target (db_seqs db') = q_target (db_seqs db).
Hypothesis Eqr : q_run (db_seqs db') = q_run (db_seqs db) + 1.
Hypothesis Eqe : q_event (db_seqs db') = q_event (db_seqs db).

Lemma write_rows i u : db_targets db !! i = Some u → ∃ u', db_targets db' !! i = Some u' ∧ row_le u u'.
Proof.
  intros Hu. rewrite Ets. destruct (decide (i = tid)) as [->|Hi].
  - rewrite Ht in Hu. injection Hu as <-. rewrite lookup_insert_eq. eauto using ends_lease_le.
  - rewrite lookup_insert_ne by done. exists u. split; [done|reflexivity].
Qed.

Lemma write_rows_back i u' :
  db_targets db' !! i = Some u' → i = tid ∧ u' = t' ∨ i ≠ tid ∧ db_targets db !! i = Some u'.
Proof. rewrite Ets. intros [[<- <-]|[? ?]]%lookup_insert_Some; auto. Qed.

Lemma write_dead i g : dead db i g → dead db' i g.
Proof.
  intros (u & Hu & Hd). destruct (write_rows i u Hu) as (u' & Hu' & _ & Hl & _).
  exists u'. split; [done|]. by eapply dead_lease_step.
Qed.

Lemma write_run_fresh : db_runs db !! (q_run (db_seqs db) + 1) = None.
Proof.
  destruct (db_runs db !! _) as [x|] eqn:E; [|done].
  pose proof (wf_run_ids _ W _ (ex_intro _ x E)). lia.
Qed.

Lemma write_run_keep rid x : db_runs db !! rid = Some x → db_runs db' !! rid = Some x.
Proof.
  intros Hx. rewrite Ers. rewrite lookup_insert_ne; [done|]. intros E.
  rewrite <- E, write_run_fresh in Hx. done.
Qed.

Lemma write_run_dead : dead db' tid (lease_generation (t_lease t)).
Proof.
  exists t'. rewrite Ets, lookup_insert_eq. split; [done|]. rewrite (el_lease _ _ Hend). by right.
Qed.

(** Everything of the invariant that does not mention snapshots. *)
Lemma write_wf :
  (∀ i u, db_targets db' !! i = Some u → pub_ok db' i (t_pub u)) →
  (∀ sid s, db_snaps db' !! sid = Some s → snap_ok db' s) →
  (∀ i j s s', db_snaps db' !! i = Some s → db_snaps db' !! j = Some s' →
    s_target s = s_target s' → s_version s = s_version s' → i = j) →
  (∀ i j s s' rid, db_snaps db' !! i = Some s → db_snaps db' !! j = Some s' →
    s_run s = Some rid → s_run s' = Some rid → i = j) →
  (∀ i, is_Some (db_snaps db' !! i) → 0 < i ≤ q_snap (db_seqs db')) →
  0 ≤ q_snap (db_seqs db') → wf db'.
Proof.
  intros Hpub Hsnap Hsu Hsr Hsi Hsq. pose proof (wf_seqs _ W).
  split; try done; rewrite ?Eqt, ?Eqe.
  - intros i u' Hu'. destruct (write_rows_back i u' Hu') as [[-> ->]|[_ Hu]];
      [apply Hend|by apply (wf_check _ W i)].
  - intros i j u v Hu Hv Er. destruct Hend as [Eref _ _ _ _].
    destruct (write_rows_back i u Hu) as [[-> ->]|[Hi Hu']],
      (write_rows_back j v Hv) as [[-> ->]|[Hj Hv']]; try done.
    + apply (wf_refs _ W tid j t v); congruence.
    + apply (wf_refs _ W i tid u t); congruence.
    + by apply (wf_refs _ W i j u v).
  - intros rid x. rewrite Ers. intros [[<- <-]|[_ Hx]]%lookup_insert_Some.
    + split; [done|]. rewrite Hrt, Hrg. apply write_run_dead.
    + destruct (wf_runs _ W rid x Hx) as [? Hd]. split; [done|by apply write_dead].
  - intros i j x y. rewrite Ers.
    intros [[<- <-]|[_ Hx]]%lookup_insert_Some [[<- <-]|[_ Hy]]%lookup_insert_Some E1 E2; try done.
    + by destruct (Hrnew j y Hy).
    + by destruct (Hrnew i x Hx).
    + by apply (wf_run_unique _ W i j x y).
  - rewrite Ees. intros q e He. destruct (wf_events _ W q e He) as (? & u & Hu & Hle & Hk).
    split; [done|]. destruct (write_rows _ u Hu) as (u' & Hu' & Er & _ & Hv & _).
    exists u'. split_and!; [done|lia|by rewrite Er].
  - rewrite Ees. apply (wf_event_order _ W).
  - intros i [u' Hu']. destruct (write_rows_back i u' Hu') as [[-> ->]|[_ Hu]];
      [apply (wf_target_ids _ W); eauto|apply (wf_target_ids _ W); eauto].
  - intros i. rewrite Ers, Eqr. intros [x [[<- <-]|[_ Hx]]%lookup_insert_Some]; [lia|].
    pose proof (wf_run_ids _ W i (ex_intro _ x Hx)). lia.
  - rewrite Ees. apply W.
  - lia.
Qed.

Lemma write_evolves :
  (∀ sid s, db_snaps db' !! sid = Some s →
    (∃ s0, db_snaps db !! sid = Some s0 ∧ same_snap s0 s) ∨ new_snap db sid s) →
  q_snap (db_seqs db) ≤ q_snap (db_seqs db') → evolves db db'.
Proof.
  intros Hs Hq. split; [exact write_rows| |exact Hs|lia].
  intros rid x. rewrite Ers. intros [[<- <-]|[_ Hx]]%lookup_insert_Some; [|by left].
  right. split; [lia|]. rewrite Hrt, Hrg. by eapply held_not_dead.
Qed.

(** Published columns that still point to the same snapshot. *)
Definition same_pub (p p' : PubCols) : Prop :=
  current_version p' = current_version p ∧ current_snapshot_id p' = current_snapshot_id p ∧
  current_content_hash p' = current_content_hash p ∧
  (is_Some (last_validated_at p) → is_Some (last_validated_at p')).

(** The snapshots that were there stay consistent, with older versions and runs. *)
Lemma old_snap_ok sid x : db_snaps db !! sid = Some x → snap_ok db' x.
Proof.
  intros Hx. destruct (wf_snaps _ W sid x Hx) as (Hv & (u & Hu & Hle) & Hrun). split_and!; [done| |].
  - destruct (write_rows _ u Hu) as (u' & Hu' & _ & _ & ? & _). exists u'. split; [done|lia].
  - intros rid Hrid. destruct (Hrun rid Hrid) as (y & Hy & ?). eauto using write_run_keep.
Qed.

Lemma old_snap_version sid x :
  db_snaps db !! sid = Some x → s_target x = tid → s_version x ≤ current_version (t_pub t).
Proof.
  intros Hx Et. destruct (wf_snaps _ W sid x Hx) as (_ & (u & Hu & ?) & _).
  rewrite Et, Ht in Hu. by injection Hu as <-.
Qed.

Lemma old_snap_run sid x : db_snaps db !! sid = Some x → s_run x ≠ Some (q_run (db_seqs db) + 1).
Proof.
  intros Hx Er. destruct (wf_snaps _ W sid x Hx) as (_ & _ & Hrun).
  destruct (Hrun _ Er) as (y & Hy & _). by rewrite write_run_fresh in Hy.
Qed.

(** The run is recorded and no version is added. *)
Lemma write_same :
  q_snap (db_seqs db') = q_snap (db_seqs db) →
  (∀ sid s', db_snaps db' !! sid = Some s' → ∃ s, db_snaps db !! sid = Some s ∧ same_snap s s') →
  (∀ sid s, db_snaps db !! sid = Some s → ∃ s', db_snaps db' !! sid = Some s' ∧ same_snap s s') →
  same_pub (t_pub t) (t_pub t') → wf db' ∧ evolves db db'.
Proof.
  intros Eq Hback Hfwd (Ev & Esid & Eh & Elv). pose proof (wf_seqs _ W).
  assert (Hpub : ∀ i p, pub_ok db i p → pub_ok db' i p).
  { intros i p [? Hp]. split; [done|]. intros sid Hsid.
    destruct (Hp sid Hsid) as (s & Hs & ? & ? & ? & ?).
    destruct (Hfwd sid s Hs) as (s' & Hs' & ? & _ & ? & ? & _). exists s'.
    split_and!; congruence. }
  split.
  - apply write_wf; rewrite ?Eq; [| | | | |lia].
    + intros i u Hu. destruct (write_rows_back i u Hu) as [[-> ->]|[_ Hu']].
      * destruct (Hpub tid (t_pub t) (wf_pub _ W tid t Ht)) as [Hle Hcur]. destruct Hend.
        split; [lia|]. rewrite Esid, Ev, Eh. intros sid Hsid.
        destruct (Hcur sid Hsid) as (s & ? & ? & ? & ? & ?). exists s. split_and!; auto.
      * by apply Hpub, (wf_pub _ W i).
    + intros sid s' Hs'. destruct (Hback sid s' Hs') as (s & Hs & E1 & E2 & E3 & _).
      unfold snap_ok. rewrite E1, E2, E3. by apply (old_snap_ok sid).
    + intros i j s s' Hi Hj E1 E2.
      destruct (Hback i s Hi) as (a & Ha & A1 & _ & A3 & _).
      destruct (Hback j s' Hj) as (b & Hb & B1 & _ & B3 & _).
      apply (wf_snap_unique _ W i j a b); congruence.
    + intros i j s s' rid Hi Hj E1 E2.
      destruct (Hback i s Hi) as (a & Ha & _ & A2 & _).
      destruct (Hback j s' Hj) as (b & Hb & _ & B2 & _).
      apply (wf_snap_run _ W i j a b rid); congruence.
    + intros i [s' Hs']. destruct (Hback i s' Hs') as (s & Hs & _). apply (wf_snap_ids _ W). eauto.
  - apply write_evolves; [|lia]. intros sid s Hs. left. auto.
Qed.

(** The run is recorded and the next version published. *)
Lemma write_new s :
  q_snap (db_seqs db') = q_snap (db_seqs db) + 1 →
  db_snaps db' = <[q_snap (db_seqs db) + 1 := s]> (db_snaps db) →
  s_target s = tid → s_version s = current_version (t_pub t) + 1 →
  s_run s = Some (q_run (db_seqs db) + 1) → r_outcome r = RChanged →
  is_Some (r_validation_seq_after r) →
  current_version (t_pub t') = current_version (t_pub t) + 1 →
  current_snapshot_id (t_pub t') = Some (q_snap (db_seqs db) + 1) →
  current_content_hash (t_pub t') = Some (s_hash s) → is_Some (last_validated_at (t_pub t')) →
  validation_seq (t_pub t') = validation_seq (t_pub t) + 1 → wf db' ∧ evolves db db'.
Proof.
  intros Eq Es Est Esv Esr Eout Eseq Ev Esid Eh Elv Evs. pose proof (wf_seqs _ W).
  assert (Hfresh : db_snaps db !! (q_snap (db_seqs db) + 1) = None).
  { destruct (db_snaps db !! _) as [x|] eqn:E; [|done].
    pose proof (wf_snap_ids _ W _ (ex_intro _ x E)). lia. }
  split.
  - apply write_wf; rewrite ?Eq, ?Es; [| | | | |lia].
    + intros i u Hu. destruct (write_rows_back i u Hu) as [[-> ->]|[Hi Hu']].
      * destruct (wf_pub _ W tid t Ht) as [Hle _]. split; [lia|]. rewrite Esid, Es.
        intros sid [= <-]. exists s. rewrite lookup_insert_eq. split_and!; congruence.
      * destruct (wf_pub _ W i u Hu') as [? Hcur]. split; [done|]. intros sid Hsid.
        destruct (Hcur sid Hsid) as (x & Hx & ?). exists x. rewrite Es.
        rewrite lookup_insert_ne by congruence. done.
    + intros sid x [[<- <-]|[_ Hx]]%lookup_insert_Some.
      * destruct (target_check_counters t (wf_check _ W tid t Ht)) as (_ & ? & _).
        split; [lia|]. split.
        -- exists t'. rewrite Est, Ets, lookup_insert_eq. split; [done|lia].
        -- intros rid Hrid. rewrite Esr in Hrid. injection Hrid as <-. exists r.
           rewrite Ers, lookup_insert_eq. split_and!; congruence.
      * by eapply old_snap_ok.
    + intros i j x y [[<- <-]|[_ Hx]]%lookup_insert_Some [[<- <-]|[_ Hy]]%lookup_insert_Some E1 E2; try done.
      * assert (s_version y ≤ current_version (t_pub t)) by (apply (old_snap_version j); congruence). lia.
      * assert (s_version x ≤ current_version (t_pub t)) by (apply (old_snap_version i); congruence). lia.
      * by apply (wf_snap_unique _ W i j x y).
    + intros i j x y rid [[<- <-]|[_ Hx]]%lookup_insert_Some [[<- <-]|[_ Hy]]%lookup_insert_Some E1 E2;
        try done.
      * destruct (old_snap_run j y Hy). congruence.
      * destruct (old_snap_run i x Hx). congruence.
      * by apply (wf_snap_run _ W i j x y rid).
    + intros i [x [[<- <-]|[_ Hx]]%lookup_insert_Some]; [lia|].
      pose proof (wf_snap_ids _ W i (ex_intro _ x Hx)). lia.
  - apply write_evolves; [|lia]. rewrite Es.
    intros sid x [[<- <-]|[_ Hx]]%lookup_insert_Some.
    { right. unfold new_snap. rewrite Esr, Est, Esv, Ht. split_and!; [lia|intros rid [= <-]; lia|].
      intros u [= <-]. lia. }
    left. exists x. split; [done|reflexivity].
Qed.
End write.

(** * The three ways a commit writes the target's own rows *)

Inductive writes `{Postgres} (input : CommitInput) (db : DB) (t : TargetRow) : DB → Written → Prop :=
| writes_changed payload :
    let seq := validation_seq (t_pub t) + 1 in
    let version := current_version (t_pub t) + 1 in
    let run := q_run (db_seqs db) + 1 in
    let sid := q_snap (db_seqs db) + 1 in
    let t' := success_row input seq version (Some sid) t in
    successfulOutcome (ci_Outcome input) = true → ci_Changed input = true →
    jsonb_text (ci_Payload input) = Some payload →
    target_check t' = true → run_check (run_row input seq) = true →
    writes input db t
      (set_targets (<[ci_TargetID input := t']> (db_targets db))
         (add_snap (snap_row input run version payload) (add_run (run_row input seq) db)))
      {| w_target := t; w_run := run; w_snap := Some sid; w_version := version; w_seq := seq |}
| writes_verified :
    let seq := validation_seq (t_pub t) + 1 in
    let version := current_version (t_pub t) in
    let t' := success_row input seq version None t in
    successfulOutcome (ci_Outcome input) = true → ci_Changed input = false →
    target_check t' = true → run_check (run_row input seq) = true →
    writes input db t
      (refresh_current (ci_TargetID input) (timestamptz (validated_at input))
         (set_targets (<[ci_TargetID input := t']> (db_targets db)) (add_run (run_row input seq) db)))
      {| w_target := t; w_run := q_run (db_seqs db) + 1; w_snap := None; w_version := version; w_seq := seq |}
| writes_failed :
    let seq := validation_seq (t_pub t) in
    let t' := failure_row input t in
    successfulOutcome (ci_Outcome input) = false →
    target_check t' = true → run_check (run_row input seq) = true →
    writes input db t
      (set_targets (<[ci_TargetID input := t']> (db_targets db)) (add_run (run_row input seq) db))
      {| w_target := t; w_run := q_run (db_seqs db) + 1; w_snap := None;
         w_version := current_version (t_pub t); w_seq := seq |}.

Record holds (input : CommitInput) (db : DB) (t : TargetRow) : Prop := {
  ho_row : db_targets db !! ci_TargetID input = Some t;
  ho_gen : lease_generation (t_lease t) = ci_LeaseGeneration input;
  ho_own : lease_owner (t_lease t) = Some (ci_WorkerID input);
  ho_new : ∀ rid r, db_runs db !! rid = Some r →
    ¬ (r_target r = ci_TargetID input ∧ r_generation r = ci_LeaseGeneration input)
}.

Lemma success_seq `{Postgres} input t seq version sid :
  target_check t = true → seq = wrap64 (validation_seq (t_pub t) + 1) →
  target_check (success_row input seq version sid t) = true → seq = validation_seq (t_pub t) + 1.
Proof.
  intros Hc -> Hc'. apply target_check_counters in Hc as (Hs & _). apply target_check_counters in Hc' as (Hs' & _).
  cbn in Hs'. apply wrap64_succ; lia.
Qed.

Lemma write_own_inv `{Postgres} input db db' x :
  wf db → write_own input db = Ok (db', x) → ∃ t, holds input db t ∧ writes input db t db' x.
Proof.
  intros W E. unfold write_own in E.
  destruct (lock_target input db) as [t|] eqn:El; [|done]. cbn in E.
  apply lock_target_inv in El as (Ht & Hg & Ho).
  destruct (next_validation_seq input t) as [seq|] eqn:Es; [|done]. cbn in E.
  apply next_validation_seq_inv in Es.
  destruct (insert_run _ db) as [[d1 rid]|] eqn:Er; [|done]. cbn in E.
  apply insert_run_inv in Er as (-> & -> & Hrc & Hnew).
  pose proof (wf_check _ W _ _ Ht) as Hc.
  exists t. split; [by split|].
  destruct (successfulOutcome (ci_Outcome input)) eqn:Eo; cbn in E.
  - destruct (ci_Changed input) eqn:Ec; cbn in E.
    + destruct (jsonb_text (ci_Payload input)) as [payload|] eqn:Ej; [|done].
      destruct (insert_snapshot _ _) as [[d2 sid]|] eqn:Ei; [|done]. cbn in E.
      apply insert_snapshot_inv in Ei as (-> & -> & Hv & _). cbn in Hv.
      destruct (update_leased _ _ _) as [d3|] eqn:Eu; [|done]. cbn in E. simplify_eq.
      eapply update_leased_inv in Eu as [Hc' ->]; [|done|done].
      pose proof (success_seq _ _ _ _ _ Hc eq_refl Hc') as Eseq.
      apply target_check_counters in Hc as Hcc.
      assert (Ever : wrap64 (current_version (t_pub t) + 1) = current_version (t_pub t) + 1)
        by (apply wrap64_succ; lia).
      rewrite Eseq, Ever in *. exact (writes_changed input db t payload Eo Ec Ej Hc' Hrc).
    + destruct (update_leased _ _ _) as [d3|] eqn:Eu; [|done]. cbn in E. simplify_eq.
      eapply update_leased_inv in Eu as [Hc' ->]; [|done|done].
      pose proof (success_seq _ _ _ _ _ Hc eq_refl Hc') as Eseq.
      rewrite Eseq in *. exact (writes_verified input db t Eo Ec Hc' Hrc).
  - destruct (update_leased _ _ _) as [d3|] eqn:Eu; [|done]. cbn in E. simplify_eq.
    eapply update_leased_inv in Eu as [Hc' ->]; [|done|done]. exact (writes_failed input db t Eo Hc' Hrc).
Qed.

Lemma refresh_snaps db sid at_ k :
  alter (verify_snap at_) sid (db_snaps db) !! k =
  if decide (k = sid) then verify_snap at_ <$> db_snaps db !! k else db_snaps db !! k.
Proof.
  destruct (decide (k = sid)) as [->|Hk]; [apply lookup_alter_eq|by apply lookup_alter_ne].
Qed.

Lemma verify_snap_same at_ s : same_snap s (verify_snap at_ s).
Proof. by split_and!. Qed.

Lemma alter_verify_back at_ sid (m : gmap Z SnapRow) k s' :
  alter (verify_snap at_) sid m !! k = Some s' → ∃ s, m !! k = Some s ∧ same_snap s s'.
Proof.
  destruct (decide (k = sid)) as [->|Hk].
  - rewrite lookup_alter_eq. destruct (m !! sid) as [s|]; [|done]. cbn. intros [= <-].
    exists s. split; [done|apply verify_snap_same].
  - rewrite lookup_alter_ne by done. intros Hs. exists s'. split; [done|reflexivity].
Qed.

Lemma alter_verify_fwd at_ sid (m : gmap Z SnapRow) k s :
  m !! k = Some s → ∃ s', alter (verify_snap at_) sid m !! k = Some s' ∧ same_snap s s'.
Proof.
  intros Hs. destruct (decide (k = sid)) as [->|Hk].
  - rewrite lookup_alter_eq, Hs. cbn. eexists. split; [done|apply verify_snap_same].
  - rewrite lookup_alter_ne by done. exists s. split; [done|reflexivity].
Qed.

(** [refresh_current] only touches snapshots. *)
Lemma refresh_current_eq i at_ db :
  refresh_current i at_ db = db ∨
  ∃ sid, refresh_current i at_ db = set_snaps (alter (verify_snap at_) sid (db_snaps db)) db.
Proof. unfold refresh_current. repeat case_match; eauto. Qed.

Lemma writes_ends_lease `{Postgres} input db t db' x :
  holds input db t → writes input db t db' x →
  ∃ t', db_targets db' !! ci_TargetID input = Some t' ∧ ends_lease t t' ∧
    current_version (t_pub t') = w_version x.
Proof.
  intros Hh [? ? ? ? ? t' | ? ? t' | ? t']; exists t'.
  - split; [apply lookup_insert_eq|]. split; [|done]. split; try done; cbn; lia.
  - split; [|split; [|done]].
    + destruct (refresh_current_eq (ci_TargetID input) (timestamptz (validated_at input))
        (set_targets (<[ci_TargetID input:=t']> (db_targets db)) (add_run (run_row input seq) db)))
        as [-> | [sid ->]]; apply lookup_insert_eq.
    + split; try done; cbn; lia.
  - split; [apply lookup_insert_eq|]. split; [|done]. split; try done; cbn; lia.
Qed.

Lemma writes_good `{Postgres} input db t db' x :
  wf db → holds input db t → (ci_Changed input = true → ci_Outcome input = RChanged) →
  writes input db t db' x → wf db' ∧ evolves db db'.
Proof.
  intros W Hh Hch Hw. destruct (writes_ends_lease _ _ _ _ _ Hh Hw) as (u & Hu & Hend & _).
  destruct Hh as [Ht Hg Ho Hn].
  destruct Hw as [payload seq version run sid t' Hs Hc Hj Hck Hrc | seq version t' Hs Hc Hck Hrc | seq t' Hs Hck Hrc].
  - cbn in Hu. rewrite lookup_insert_eq in Hu. injection Hu as <-.
    eapply (write_new db _ (ci_TargetID input) t t' (ci_WorkerID input) (run_row input seq) W Ht Ho Hend);
      try done; cbn; rewrite ?Hs, ?Hc; by eauto.
  - set (d := set_targets _ _) in *.
    assert (E : db_targets (refresh_current (ci_TargetID input) (timestamptz (validated_at input)) d) = db_targets d ∧
      db_runs (refresh_current (ci_TargetID input) (timestamptz (validated_at input)) d) = db_runs d ∧
      db_events (refresh_current (ci_TargetID input) (timestamptz (validated_at input)) d) = db_events d ∧
      db_seqs (refresh_current (ci_TargetID input) (timestamptz (validated_at input)) d) = db_seqs d).
    { by destruct (refresh_current_eq (ci_TargetID input) (timestamptz (validated_at input)) d) as [-> | [k ->]]. }
    destruct E as (E1 & E2 & E3 & E4). rewrite E1 in Hu. cbn in Hu.
    rewrite lookup_insert_eq in Hu. injection Hu as <-.
    eapply (write_same db _ (ci_TargetID input) t t' (ci_WorkerID input) (run_row input seq) W Ht Ho Hend);
      rewrite ?E1, ?E2, ?E3, ?E4; try done.
    + destruct (refresh_current_eq (ci_TargetID input) (timestamptz (validated_at input)) d) as [-> | [k ->]];
        intros j s' Hj; [exists s'; split; [done|reflexivity]|exact (alter_verify_back _ k (db_snaps db) j s' Hj)].
    + destruct (refresh_current_eq (ci_TargetID input) (timestamptz (validated_at input)) d) as [-> | [k ->]];
        intros j s' Hj; [exists s'; split; [done|reflexivity]|exact (alter_verify_fwd _ k (db_snaps db) j s' Hj)].
  - cbn in Hu. rewrite lookup_insert_eq in Hu. injection Hu as <-.
    eapply (write_same db _ (ci_TargetID input) t t' (ci_WorkerID input) (run_row input seq) W Ht Ho Hend);
      try done; eauto.
    + intros j s' Hj. exists s'. split; [done|reflexivity].
    + intros j s' Hj. exists s'. split; [done|reflexivity].
Qed.

(** * The outbox event *)

Lemma add_event_good e m db t :
  db_targets db !! e_target e = Some t → e_version e = current_version (t_pub t) → 0 < e_version e →
  e_kind e = ref_Kind (t_ref t) → event_of_version db (e_target e) (e_version e) = None →
  good db (add_event e m db).
Proof.
  intros Ht Hv Hpos Hk Hnone W. pose proof (wf_seqs _ W).
  assert (Hlt : ∀ q e', db_events db !! q = Some e' → e_target e' = e_target e → e_version e' < e_version e).
  { intros q e' He' Et. destruct (wf_events _ W q e' He') as (_ & u & Hu & Hle & _).
    rewrite Et, Ht in Hu. injection Hu as <-.
    pose proof (proj1 (head_filter_None _ _) Hnone q e' He') as Hne. cbn in Hne.
    assert (e_version e' ≠ e_version e) by tauto. lia. }
  assert (Hid : ∀ q e', db_events db !! q = Some e' → 0 < q ≤ q_event (db_seqs db)).
  { intros q e' He'. apply (wf_event_ids _ W). eauto. }
  split.
  - split; cbn; try apply W.
    + intros q x [[<- <-]|[_ Hx]]%lookup_insert_Some.
      * split; [done|]. exists t. split_and!; [done|lia|done].
      * exact (wf_events _ W q x Hx).
    + intros i j x y [[<- <-]|[Hi Hx]]%lookup_insert_Some [[<- <-]|[Hj Hy]]%lookup_insert_Some Et Hij.
      * lia.
      * pose proof (Hid j y Hy). lia.
      * by apply (Hlt i).
      * by apply (wf_event_order _ W i j).
    + intros i [x [[<- <-]|[_ Hx]]%lookup_insert_Some]; [lia|]. pose proof (Hid i x Hx). lia.
    + lia.
  - split; cbn; [| | |lia].
    + intros i u Hu. exists u. split; [done|reflexivity].
    + auto.
    + intros sid s Hs. left. exists s. split; [done|reflexivity].
Qed.

Lemma publish_inv `{GoLib} e m db db' :
  publish e m db = Ok db' →
  db' = add_event e m db ∧ event_of_version db (e_target e) (e_version e) = None ∧
  (String.length (json_MarshalMetadata m) < 8000)%nat.
Proof.
  unfold publish. destruct (8000 <=? _)%nat eqn:El; [done|].
  destruct (event_of_version _ _ _); [done|]. intros [= <-]. apply Nat.leb_gt in El. done.
Qed.

(** * The statements after the target's own rows are invisible to readers *)

Definition quiet (t t' : TargetRow) : Prop :=
  t_ref t' = t_ref t ∧ t_pub t' = t_pub t ∧
  lifecycle_state (t_life t') = lifecycle_state (t_life t).

#[export] Instance quiet_preorder : PreOrder quiet.
Proof. split; [by intros t|]. intros a b c (?&?&?) (?&?&?). split_and!; congruence. Qed.

Definition quiet_rows (db db' : DB) : Prop :=
  ∀ i t, db_targets db !! i = Some t → ∃ t', db_targets db' !! i = Some t' ∧ quiet t t'.

#[export] Instance quiet_rows_preorder : PreOrder quiet_rows.
Proof.
  split; [intros db i t Ht; by exists t|].
  intros a b c Hab Hbc i t Ht. destruct (Hab i t Ht) as (u & Hu & Q).
  destruct (Hbc i u Hu) as (v & Hv & Q'). exists v. split; [done|by transitivity u].
Qed.

Lemma update_where_quiet p f db db' n :
  (∀ t, quiet t (f t)) → update_where p f db = Ok (db', n) → quiet_rows db db'.
Proof.
  intros Hf E i t Ht. rewrite (update_where_lookup _ _ _ _ _ i E), Ht. cbn.
  destruct (p i t); eexists; (split; [done|]); [apply Hf|reflexivity].
Qed.

Lemma same_targets_quiet db db' : db_targets db' = db_targets db → quiet_rows db db'.
Proof. intros E i t Ht. exists t. rewrite E. by split. Qed.

Lemma upsert_seed_quiet s db db' : wf db → upsert_seed s db = Ok db' → quiet_rows db db'.
Proof.
  intros W. unfold upsert_seed. destruct (target_check (seed_row s)); [cbn|done]. destruct (find_target db (sd_Ref s)) as [[i t]|] eqn:Ef.
  - destruct (target_check _); [|done]. intros [= <-]. apply find_target_Some in Ef as [Ht _].
    intros j u Hu. cbn. destruct (decide (j = i)) as [->|Hj].
    + rewrite lookup_insert_eq. simplify_eq. by eexists.
    + rewrite lookup_insert_ne by done. by exists u.
  - destruct (is_none _); [done|]. intros [= <-] j u Hu. cbn.
    pose proof (wf_target_ids _ W j (ex_intro _ u Hu)). rewrite lookup_insert_ne by lia. by exists u.
Qed.

Lemma upsert_all_quiet seeds db db' : wf db → upsert_all seeds db = Ok db' → quiet_rows db db'.
Proof.
  revert db. induction seeds as [|s seeds IH]; intros db W E; cbn in E; [by simplify_eq|].
  destruct (upsert_seed s db) as [db1|] eqn:E1; [|done]. cbn in E.
  transitivity db1; [by eapply upsert_seed_quiet|]. apply IH; [|done].
  by apply (upsert_seed_harmless s db db1 E1).
Qed.

(** * The whole commit *)

Section commit.
Context `{GoLib, Postgres}.

Lemma tail_quiet input db1 db2 db3 db4 parent :
  wf db1 → upsertSeeds (ci_Discovered input) db1 = Ok db2 →
  insert_candidates (ci_Candidates input) db2 = Ok db3 →
  (if successfulOutcome (ci_Outcome input) && ci_Changed input
   then applyChildPresence parent (ci_SeenChildRefs input) db3 else Ok db3) = Ok db4 →
  quiet_rows db1 db4.
Proof.
  intros W E2 E3 E4. transitivity db2.
  { unfold upsertSeeds in E2. destruct (validate_seeds _); [|done]. by eapply upsert_all_quiet. }
  transitivity db3; [apply same_targets_quiet; by apply (insert_candidates_core (ci_Candidates input))|].
  destruct (_ && _); [|by simplify_eq]. unfold applyChildPresence in E4.
  destruct (child_scope parent) as [[ck cp]|]; [|by simplify_eq].
  cbv zeta in E4. set (keys := seen_keys _ _ _ _) in E4. clearbody keys.
  destruct (match keys with [] => Ok db3 | _ => _ end) as [d|] eqn:E5; [|done]. cbn in E4.
  destruct (update_where _ _ d) as [[d' n]|] eqn:Eu; [|done]. cbn in E4. simplify_eq.
  transitivity d; [|by eapply update_where_quiet; [|done]].
  destruct keys as [|k ks]; [by simplify_eq|].
  destruct (update_where _ _ db3) as [[d0 n0]|] eqn:Eu0; [|done]. cbn in E5. simplify_eq.
  by eapply update_where_quiet; [|done].
Qed.

(** The statements between the target's own rows and the publication. *)
Lemma commit_tail_harmless input db1 db2 db3 db4 parent :
  upsertSeeds (ci_Discovered input) db1 = Ok db2 →
  insert_candidates (ci_Candidates input) db2 = Ok db3 →
  (if successfulOutcome (ci_Outcome input) && ci_Changed input
   then applyChildPresence parent (ci_SeenChildRefs input) db3 else Ok db3) = Ok db4 →
  harmless' db1 db4.
Proof.
  intros E2 E3 E4. transitivity db2; [by eapply upsertSeeds_harmless|].
  transitivity db3; [by apply harmless_wf, same_core_harmless, (insert_candidates_core (ci_Candidates input))|].
  destruct (_ && _); [|by simplify_eq]. by eapply harmless_wf, applyChildPresence_harmless.
Qed.

(** What an applied commit did: [db1] is the store after the target's own rows. *)
Record applied (input : CommitInput) (dbnow : Z) (db db' : DB) (res : CommitResult)
    (t : TargetRow) (db1 : DB) (x : Written) : Prop := {
  ap_holds : holds input db t;
  ap_writes : writes input db t db1 x;
  ap_run : cm_RunID res = w_run x;
  ap_publish :
    match w_snap x with
    | None => cm_Snapshot res = None ∧ cm_Metadata res = None ∧ frames db1 db'
    | Some sid =>
        let m := published_metadata input t (w_version x) (w_seq x) in
        cm_Snapshot res = Some (published_snapshot input t sid (w_version x) (w_seq x)) ∧
        cm_Metadata res = Some m ∧
        ∃ db4, frames db1 db4 ∧
          db' = add_event (mkEvent sid (ci_TargetID input) (w_version x) (ref_Kind (t_ref t)) dbnow) m db4
    end;
  ap_own : wf db1 ∧ evolves db db1;
  ap_quiet : quiet_rows db1 db';
  ap_good : wf db' ∧ evolves db1 db'
}.

Lemma commit_locked_inv input dbnow db db' res :
  wf db → (ci_Changed input = true → ci_Outcome input = RChanged) →
  commit_locked input dbnow db = Ok (db', res) →
  ∃ t db1 x, applied input dbnow db db' res t db1 x.
Proof.
  intros W Hch E. unfold commit_locked in E.
  destruct (write_own input db) as [[db1 x]|] eqn:Ew; [|done]. cbn in E.
  apply write_own_inv in Ew as (t & Hh & Hw); [|done].
  pose proof (writes_good _ _ _ _ _ W Hh Hch Hw) as [W1 E1].
  assert (Et : w_target x = t) by (by destruct Hw). rewrite Et in E. clear Et.
  destruct (upsertSeeds _ db1) as [db2|] eqn:E2; [|done]. cbn in E.
  destruct (insert_candidates _ db2) as [db3|] eqn:E3; [|done]. cbn in E.
  destruct (if successfulOutcome _ && _ then _ else _) as [db4|] eqn:E4; [|done]. cbn in E.
  destruct (commit_tail_harmless _ _ _ _ _ _ E2 E3 E4 W1) as [W4 F4].
  pose proof (tail_quiet _ _ _ _ _ _ W1 E2 E3 E4) as Q4.
  exists t, db1, x. destruct (w_snap x) as [sid|] eqn:Esn.
  - destruct (publish _ _ db4) as [db5|] eqn:E5; [|done]. cbn in E. simplify_eq.
    apply publish_inv in E5 as (-> & Hnone & _). cbn in Hnone.
    destruct (writes_ends_lease _ _ _ _ _ Hh Hw) as (u & Hu & Hend & Hver).
    destruct (proj1 (proj2 F4) _ u Hu) as (v & Hv & Er & Ep & _).
    split; try done; rewrite ?Esn; cbn.
    + split_and!; try done. by exists db4.
    + assert (G : good db4 (add_event (mkEvent sid (ci_TargetID input) (w_version x)
        (ref_Kind (t_ref t)) dbnow)
        (published_metadata input t (w_version x) (w_seq x)) db4)).
      { apply (add_event_good _ _ _ v); cbn; try done; [by rewrite Ep| |by rewrite Er, (el_ref _ _ Hend)].
        destruct Hw as [? ? version ? ? t' _ _ _ Hck _| |]; [|done..].
        cbn. destruct (target_check_counters _ (wf_check _ W _ _ (ho_row _ _ _ Hh))) as (_ & ? & _).
        subst version. lia. }
      destruct (G W4) as [W5 Ev5]. split; [done|]. etransitivity; [|exact Ev5].
      by apply frames_evolves.
  - simplify_eq. split; rewrite ?Esn; try done. split; [done|]. by apply frames_evolves.
Qed.

Lemma validateCommit_changed input :
  validateCommit input = Ok tt →
  ci_Changed input = true → ci_Outcome input = RChanged ∧ sm_Complete (ci_Manifest input) = true ∧
    IsZeroContentHash (ci_ContentHash input) = false.
Proof.
  intros E Hc. unfold validateCommit in E. rewrite Hc in E.
  repeat match type of E with context [guard_err ?c _] => destruct c eqn:?; cbn in E; try done end.
  bool_to_prop. split_and!; try done.
  destruct (decide (ci_Outcome input = RChanged)); [done|by exfalso].
Qed.

Lemma Commit_inv input now dbnow db db' res :
  wf db → Commit input now dbnow db = Ok (db', res) →
  validateCommit input = Ok tt ∧
  ((db' = db ∧ existingCommitResult db (ci_TargetID input) (ci_LeaseGeneration input) now = Ok (Some res)) ∨
   (existingCommitResult db (ci_TargetID input) (ci_LeaseGeneration input) now = Ok None ∧
    ∃ t db1 x, applied input dbnow db db' res t db1 x)).
Proof.
  intros W E. unfold Commit in E.
  destruct (validateCommit input) as [[]|] eqn:Ev; [|done]. cbn in E. split; [done|].
  destruct (existingCommitResult _ _ _ _) as [[r|]|] eqn:Ee; [|by right; split; [done|];
    eapply commit_locked_inv; [|intros; eapply validateCommit_changed|]|done].
  cbn in E. simplify_eq. by left.
Qed.

Lemma Commit_good input now dbnow db db' res : Commit input now dbnow db = Ok (db', res) → good db db'.
Proof.
  intros E W. destruct (Commit_inv _ _ _ _ _ _ W E) as (_ & [[-> _]|(_ & t & db1 & x & A)]); [done|].
  destruct (ap_own _ _ _ _ _ _ _ _ A), (ap_good _ _ _ _ _ _ _ _ A). split; [done|].
  by transitivity db1.
Qed.
End commit.
