(* ===== verification/System.v ===== *)
(** The snapshot store as a transition system: every method of the repository is a
    step, and the theorems are about any number of steps by any number of workers. *)

From stdpp Require Import base list numbers strings gmap sorting.
From Stdlib Require Import ZArith Lia.
From S2P Require Import Prelude Sanitize Domain Canonical Tables Leases Lifecycle.
From S2P Require Import Reads Commit HostState Maintenance Store CommitSpec.

Local Open Scope Z_scope.
Local Open Scope stdpp_scope.
Local Open Scope go_scope.

Section system.
Context `{GoLib, Postgres}.

(** One transaction; the reads do not change the store and have no step.  Each pass of [Prune]
    is a transaction of its own. *)
Inductive db_step (db : DB) : DB → Prop :=
| step_SeedHost seed now db' : SeedHost seed now db = Ok db' → db_step db db'
| step_Seed seeds db' : Seed seeds db = Ok db' → db_step db db'
| step_ClaimDue req locked db' ts : ClaimDue req locked db = Ok (db', ts) → db_step db db'
| step_ClaimOne req locked db' t : ClaimOne req locked db = Ok (db', t) → db_step db db'
| step_ReleaseLease i g db' : ReleaseLease i g db = Ok db' → db_step db db'
| step_RenewLease i w g d now db' : RenewLease i w g d now db = Ok db' → db_step db db'
| step_SetDueNow ref now db' : SetDueNow ref now db = Ok db' → db_step db db'
| step_RescheduleLease i g next db' : RescheduleLease i g next db = Ok db' → db_step db db'
| step_Commit input now dbnow db' res : Commit input now dbnow db = Ok (db', res) → db_step db db'
| step_ReconcileLifecycle input dbnow db' : ReconcileLifecycle input dbnow db = Ok db' → db_step db db'
| step_AcquireHostPermit r db' d : AcquireHostPermit r db = Ok (db', d) → db_step db db'
| step_ReleaseHostPermit id : db_step db (ReleaseHostPermit id db)
| step_ObserveHost o db' : ObserveHost o db = Ok db' → db_step db db'
| step_prune_snaps cutoff batch db' : delete_snaps (snap_batch cutoff batch db) db = Ok db' → db_step db db'
| step_prune_runs cutoff batch : db_step db (delete_runs (run_batch cutoff batch db) db)
| step_prune_permits now : db_step db (delete_expired_permits now db)
| step_RepairStaleTargets ts now db' n : RepairStaleTargets ts now db = Ok (db', n) → db_step db db'
| step_UpdateListenerCheckpoint c n : db_step db (UpdateListenerCheckpoint c n db)
| step_PruneCommitEvents now : db_step db (PruneCommitEvents now db).1.

(** Any number of transactions, in any interleaving. *)
Notation steps := (rtc db_step).

Definition reachable (db : DB) : Prop := rtc db_step empty_db db.

Lemma step_good db db' : db_step db db' → good db db'.
Proof.
  destruct 1 as [? ? ? E|seeds ? E|? ? ? ? E|? ? ? ? E|? ? ? E|? ? ? ? ? ? E|? ? ? E|? ? ? ? E|
    ? ? ? ? ? E|? ? ? E|? ? ? E|?|? ? E|? ? ? E|? ?|?|? ? ? ? E|? ?|?].
  - by eapply same_core_harmless, SeedHost_core.
  - apply harmless'_good. unfold Seed in E. destruct seeds; [by simplify_eq|by eapply upsertSeeds_harmless].
  - by eapply ClaimDue_harmless.
  - by eapply ClaimOne_harmless.
  - by eapply ReleaseLease_harmless.
  - by eapply RenewLease_harmless.
  - by eapply SetDueNow_harmless.
  - by eapply RescheduleLease_harmless.
  - by eapply Commit_good.
  - by eapply harmless'_good, ReconcileLifecycle_harmless.
  - by eapply same_core_harmless, AcquireHostPermit_core.
  - apply same_core_harmless, ReleaseHostPermit_core.
  - by eapply same_core_harmless, ObserveHost_core.
  - by eapply shrinks_good, delete_snaps_shrinks.
  - apply shrinks_good, delete_runs_shrinks.
  - by apply same_core_harmless, same_core_seqs.
  - by eapply RepairStaleTargets_harmless.
  - apply same_core_harmless, UpdateListenerCheckpoint_core.
  - apply PruneCommitEvents_good.
Qed.

(** A call of [Prune] is a run of its passes. *)
Lemma prune_snap_loop_steps fuel cutoff batch db n db' n' e :
  prune_snap_loop fuel cutoff batch db n = Some (db', n', e) → steps db db'.
Proof.
  revert db n. induction fuel as [|f IH]; intros db n E; cbn in E; [done|].
  destruct (delete_snaps _ db) as [d|] eqn:Ed; [|by simplify_eq]. eapply rtc_l; [by eapply step_prune_snaps|].
  destruct (_ <? batch); [by simplify_eq|by eapply IH].
Qed.

Lemma prune_run_loop_steps fuel cutoff batch db n db' n' :
  prune_run_loop fuel cutoff batch db n = Some (db', n') → steps db db'.
Proof.
  revert db n. induction fuel as [|f IH]; intros db n E; cbn in E; [done|].
  eapply rtc_l; [by apply (step_prune_runs _ cutoff batch)|]. destruct (_ <? batch); [by simplify_eq|by eapply IH].
Qed.

Lemma Prune_steps r db db' res e : Prune r db = Some (db', res, e) → steps db db'.
Proof.
  unfold Prune. destruct (_ || _); [by intros; simplify_eq|]. destruct (_ || _); [by intros; simplify_eq|].
  destruct (prune_snap_loop _ _ _ _ _) as [[[d1 n1] e1]|] eqn:E1; [|done]. cbn -[prune_run_loop].
  apply prune_snap_loop_steps in E1. destruct e1; [intros; by simplify_eq|].
  destruct (prune_run_loop _ _ _ _ _) as [[d2 n2]|] eqn:E2; [|done]. cbn.
  apply prune_run_loop_steps in E2. intros; simplify_eq. etrans; [exact E1|]. eapply rtc_r; [exact E2|]. apply step_prune_permits.
Qed.

Lemma steps_good db db' : steps db db' → good db db'.
Proof.
  induction 1 as [|a b c Hab _ IH]; [reflexivity|].
  transitivity b; [by apply step_good|done].
Qed.

Lemma reachable_wf db : reachable db → wf db.
Proof. intros Hr. by apply (steps_good _ _ Hr wf_empty). Qed.

(** * Commits and their replays *)

(** The published snapshot [sn] is the row [s] of run [r] and target [t]. *)
Definition describes (sn : Snapshot) (tid : Z) (t : TargetRow) (r : RunRow) (s : SnapRow) : Prop :=
  sn_TargetID sn = tid ∧ sn_Ref sn = t_ref t ∧ sn_Version sn = s_version s ∧
  sn_ContentHash sn = s_hash s ∧ sn_Manifest sn = s_manifest s ∧
  Some (sn_ValidationSeq sn) = r_validation_seq_after r.

(** [kept] is the payload [given], or the form in which the JSONB column returns it. *)
Definition kept_payload (given kept : string) : Prop := kept = given ∨ jsonb_text given = Some kept.

(** The store holds the run of a commit and, if it published, its snapshot. *)
Definition records (db : DB) (tid g : Z) (res : CommitResult) : Prop :=
  ∃ t r, db_targets db !! tid = Some t ∧ db_runs db !! cm_RunID res = Some r ∧ r_target r = tid ∧
    r_generation r = g ∧
    (∀ sn, cm_Snapshot res = Some sn → ∃ s, db_snaps db !! sn_ID sn = Some s ∧
       s_run s = Some (cm_RunID res) ∧ describes sn tid t r s ∧ kept_payload (sn_Payload sn) (s_payload s)) ∧
    (∀ sid s, db_snaps db !! sid = Some s → s_run s = Some (cm_RunID res) →
       ∃ sn, cm_Snapshot res = Some sn ∧ sn_ID sn = sid).

Lemma existing_records db tid g now res :
  wf db → existingCommitResult db tid g now = Ok (Some res) →
  dead db tid g ∧
  ∃ t r, db_targets db !! tid = Some t ∧ db_runs db !! cm_RunID res = Some r ∧ r_target r = tid ∧
    r_generation r = g ∧
    ∀ sn, cm_Snapshot res = Some sn → ∃ s, db_snaps db !! sn_ID sn = Some s ∧
       s_run s = Some (cm_RunID res) ∧ describes sn tid t r s ∧ sn_Payload sn = s_payload s.
Proof.
  intros W E. unfold existingCommitResult in E.
  destruct (run_of db tid g) as [[rid r]|] eqn:Er; [|done].
  apply head_filter_Some in Er as (Hr & Et & Eg). cbn in *.
  destruct (wf_runs _ W rid r Hr) as [_ Hd]. rewrite Et, Eg in Hd. split; [done|].
  destruct Hd as (t & Ht & _). exists t, r.
  case_bool_decide as Ho; [by simplify_eq|].
  destruct (snapshotByRun db rid now) as [[sn q]|] eqn:Es; [|done]. cbn in E. simplify_eq. cbn.
  split_and!; try done. intros sn' [= <-]. unfold snapshotByRun in Es. rewrite Hr in Es.
  destruct (snap_of_run db rid) as [[sid s]|] eqn:Ef; [|done].
  apply head_filter_Some in Ef as (Hs & Esr). cbn in *.
  destruct (wf_snaps _ W sid s Hs) as (_ & _ & Hrun). destruct (Hrun rid Esr) as (r' & Hr' & Ert & _ & _).
  rewrite Hr in Hr'. injection Hr' as <-. rewrite <- Ert, Ht in Es.
  destruct (r_validation_seq_after r) as [seq|] eqn:Eseq; [|done]. simplify_eq. cbn.
  exists s. by split_and!.
Qed.

Lemma existing_full db tid g now res :
  wf db → existingCommitResult db tid g now = Ok (Some res) → records db tid g res.
Proof.
  intros W E. destruct (existing_records _ _ _ _ _ W E) as (_ & t & r & Ht & Hr & Et & Eg & Hsn).
  exists t, r. split_and!; try done.
  { intros sn Esn. destruct (Hsn sn Esn) as (s & Hs & Er & De & Ep). exists s. split_and!; [done|done|done|by left]. }
  intros sid s Hs Esr.
  unfold existingCommitResult in E.
  destruct (run_of db tid g) as [[rid r']|] eqn:Er; [|done].
  apply head_filter_Some in Er as (Hr' & _ & _). cbn in *.
  case_bool_decide as Ho.
  - simplify_eq. cbn in *. destruct (wf_snaps _ W sid s Hs) as (_ & _ & Hrun).
    destruct (Hrun _ Esr) as (x & Hx & _ & Hx' & _). congruence.
  - destruct (snapshotByRun db rid now) as [[sn q]|] eqn:Es; [|done]. cbn in E. simplify_eq. cbn in *.
    exists sn. split; [done|]. destruct (Hsn sn eq_refl) as (s' & Hs' & Esr' & _).
    by apply (wf_snap_run _ W _ _ s' s rid).
Qed.

Lemma writes_run input db t db1 x :
  writes input db t db1 x →
  w_run x = q_run (db_seqs db) + 1 ∧
  ∃ r, db_runs db1 = <[q_run (db_seqs db) + 1 := r]> (db_runs db) ∧ r = run_row input (w_seq x).
Proof.
  intros [? ? ? ? ? t' | ? ? t' | ? t']; cbn; split; eauto.
  destruct (refresh_current_eq (ci_TargetID input) (timestamptz (validated_at input))
    (set_targets (<[ci_TargetID input:=t']> (db_targets db)) (add_run (run_row input seq) db)))
    as [-> | [sid ->]]; eauto.
Qed.

(** Which snapshot row belongs to the run of a commit. *)
Lemma writes_snaps input db t db1 x :
  wf db → writes input db t db1 x →
  ∀ sid s, db_snaps db1 !! sid = Some s → s_run s = Some (w_run x) ↔ w_snap x = Some sid.
Proof.
  intros W Hw.
  assert (Hold : ∀ sid s, db_snaps db !! sid = Some s → s_run s ≠ Some (q_run (db_seqs db) + 1)).
  { intros sid s Hs Er. destruct (wf_snaps _ W sid s Hs) as (_ & _ & Hrun).
    destruct (Hrun _ Er) as (y & Hy & _). pose proof (wf_run_ids _ W _ (ex_intro _ y Hy)). lia. }
  destruct Hw as [payload seq version run sid0 t' | seq version t' | seq t']; cbn; intros sid s Hs.
  - apply lookup_insert_Some in Hs as [[<- <-]|[Hne Hs]]; [done|].
    split; [intros Er; by destruct (Hold sid s Hs)|intros [= E]; by destruct Hne].
  - split; [|done]. intros Er. exfalso.
    assert (G : ∃ s0, db_snaps db !! sid = Some s0 ∧ same_snap s0 s).
    { destruct (refresh_current_eq (ci_TargetID input) (timestamptz (validated_at input))
        (set_targets (<[ci_TargetID input:=t']> (db_targets db)) (add_run (run_row input seq) db)))
        as [E | [k E]]; rewrite E in Hs; [by exists s|].
      exact (alter_verify_back _ k (db_snaps db) sid s Hs). }
    destruct G as (s0 & Hs0 & _ & Er' & _). apply (Hold sid s0 Hs0). congruence.
  - split; [|done]. intros Er. by destruct (Hold sid s Hs).
Qed.

Lemma applied_snaps input dbnow db db' res t db1 x :
  applied input dbnow db db' res t db1 x →
  db_snaps db' = db_snaps db1 ∧ db_runs db' = db_runs db1 ∧ keeps_rows db1 db'.
Proof.
  intros A. pose proof (ap_publish _ _ _ _ _ _ _ _ A) as Hp. destruct (w_snap x) as [sid|].
  - destruct Hp as (_ & _ & db4 & ((Hr & Hs & _) & Hk & _) & ->). by split_and!.
  - destruct Hp as (_ & _ & ((Hr & Hs & _) & Hk & _)). by split_and!.
Qed.

Lemma applied_records input dbnow db db' res t db1 x :
  wf db → applied input dbnow db db' res t db1 x →
  records db' (ci_TargetID input) (ci_LeaseGeneration input) res ∧
  dead db' (ci_TargetID input) (ci_LeaseGeneration input).
Proof.
  intros W A. pose proof (ap_holds _ _ _ _ _ _ _ _ A) as Hh. pose proof (ap_writes _ _ _ _ _ _ _ _ A) as Hw.
  destruct (applied_snaps _ _ _ _ _ _ _ _ A) as (Es & Er & Hk).
  destruct (writes_ends_lease _ _ _ _ _ Hh Hw) as (t1 & Ht1 & Hend & _).
  destruct (Hk _ t1 Ht1) as (t' & Ht' & Eref & _ & Hl).
  destruct (writes_run _ _ _ _ _ Hw) as (Erun & r & Eruns & Erow).
  pose proof (writes_snaps _ _ _ _ _ W Hw) as Hsn. split.
  - exists t', r. rewrite (ap_run _ _ _ _ _ _ _ _ A), Er, Eruns, Erun, lookup_insert_eq, Es.
    split_and!; try done; try by rewrite Erow.
    + intros sn Esn. pose proof (ap_publish _ _ _ _ _ _ _ _ A) as Hp.
      destruct Hw as [payload seq version run sid0 t0 Hs Hc Hj _ _| |]; cbn in Hp; [|by destruct Hp; congruence..].
      destruct Hp as (Esn' & _ & _). rewrite Esn' in Esn. injection Esn as <-. cbn.
      exists (snap_row input run version payload). rewrite lookup_insert_eq. split; [done|]. split; [done|]. split; [|by right].
      rewrite Erow. split_and!; try done; cbn; [|by rewrite Hs].
      by rewrite Eref, (el_ref _ _ Hend).
    + intros sid s Hs Esr. rewrite <- Erun in Esr. apply (Hsn sid s Hs) in Esr.
      pose proof (ap_publish _ _ _ _ _ _ _ _ A) as Hp. rewrite Esr in Hp. destruct Hp as (-> & _).
      eexists. split; [done|done].
  - exists t'. split; [done|]. eapply dead_lease_step; [exact Hl|].
    rewrite (el_lease _ _ Hend), <- (ho_gen _ _ _ Hh). by right.
Qed.

Lemma Commit_records input now dbnow db db' res :
  wf db → Commit input now dbnow db = Ok (db', res) →
  records db' (ci_TargetID input) (ci_LeaseGeneration input) res ∧
  dead db' (ci_TargetID input) (ci_LeaseGeneration input).
Proof.
  intros W E. destruct (Commit_inv _ _ _ _ _ _ W E) as (_ & [[-> Ex]|(_ & t & db1 & x & A)]).
  - split; [by eapply existing_full|]. by eapply existing_records.
  - by eapply applied_records.
Qed.

(** A dead lease cannot be applied again. *)
Lemma dead_not_held input db t :
  holds input db t → ¬ dead db (ci_TargetID input) (ci_LeaseGeneration input).
Proof. intros [Ht Hg Ho _]. rewrite <- Hg. by eapply held_not_dead. Qed.

(** Two published snapshots carry the same version: [b] is [a], or [a] as it is read back. *)
Definition same_version (a b : Snapshot) : Prop :=
  sn_ID a = sn_ID b ∧ sn_TargetID a = sn_TargetID b ∧ sn_Ref a = sn_Ref b ∧
  sn_Version a = sn_Version b ∧ sn_ValidationSeq a = sn_ValidationSeq b ∧
  sn_ContentHash a = sn_ContentHash b ∧ kept_payload (sn_Payload a) (sn_Payload b).

(** C1: a lease generation commits at most once.  Whatever the other workers do after a
    commit succeeded, a second commit of the same target and generation that
    succeeds changes nothing, and returns the run of the first one with the same
    published version, hash and payload (or what the JSONB column keeps of the payload,
    when the first one returned the text it was given). *)
Theorem Commit_exactly_once db in1 now1 dbnow1 db1 res1 db2 in2 now2 dbnow2 db3 res2 :
  reachable db → Commit in1 now1 dbnow1 db = Ok (db1, res1) → steps db1 db2 →
  ci_TargetID in2 = ci_TargetID in1 → ci_LeaseGeneration in2 = ci_LeaseGeneration in1 →
  Commit in2 now2 dbnow2 db2 = Ok (db3, res2) →
  db3 = db2 ∧ cm_RunID res2 = cm_RunID res1 ∧
  ∀ s2, cm_Snapshot res2 = Some s2 → ∃ s1, cm_Snapshot res1 = Some s1 ∧ same_version s1 s2.
Proof.
  intros W%reachable_wf E1 Hst Et Eg E2.
  destruct (Commit_records _ _ _ _ _ _ W E1) as [R1 D1].
  destruct (Commit_good _ _ _ _ _ _ E1 W) as [W1 _].
  destruct (steps_good _ _ Hst W1) as [W2 Ev].
  pose proof (evolves_dead _ _ _ _ Ev D1) as D2. rewrite <- Et, <- Eg in D2.
  destruct (Commit_inv _ _ _ _ _ _ W2 E2) as (_ & [[-> Ex]|(_ & t & ? & x & A)]).
  2:{ by destruct (dead_not_held _ _ _ (ap_holds _ _ _ _ _ _ _ _ A)). }
  split; [done|]. rewrite Et, Eg in Ex.
  destruct (existing_records _ _ _ _ _ W2 Ex) as (_ & t2 & r2 & Ht2 & Hr2 & Ert & Erg & Hsn2).
  destruct R1 as (t1 & r1 & Ht1 & Hr1 & Ert1 & Erg1 & Hsn1 & Hback).
  assert (Hr2' : db_runs db1 !! cm_RunID res2 = Some r2).
  { destruct (ev_runs _ _ Ev _ _ Hr2) as [?|[_ Hnd]]; [done|]. by rewrite Ert, Erg in Hnd. }
  assert (Erid : cm_RunID res2 = cm_RunID res1) by (apply (wf_run_unique _ W1 _ _ r2 r1); congruence).
  split; [done|]. intros s2 Es2.
  destruct (Hsn2 s2 Es2) as (s & Hs & Esr & De2 & P2). rewrite Erid in Esr, Hr2'.
  rewrite Hr1 in Hr2'. injection Hr2' as <-.
  destruct (ev_snaps _ _ Ev _ _ Hs) as [(s0 & Hs0 & Sm)|(_ & Hnew & _)].
  2:{ pose proof (Hnew _ Esr). pose proof (wf_run_ids _ W1 _ (ex_intro _ r1 Hr1)). lia. }
  destruct Sm as (M1 & M2 & M3 & M4 & M5 & M6 & M7).
  destruct (Hback _ s0 Hs0) as (s1 & Es1 & Eid); [congruence|].
  exists s1. split; [done|]. destruct (Hsn1 s1 Es1) as (s' & Hs' & _ & De1 & P1).
  rewrite Eid, Hs0 in Hs'. injection Hs' as <-.
  destruct (ev_rows _ _ Ev _ _ Ht1) as (t2' & Ht2' & Eref & _). rewrite Ht2 in Ht2'. injection Ht2' as <-.
  destruct De1 as (A1 & A2 & A3 & A4 & A5 & A6), De2 as (B1 & B2 & B3 & B4 & B5 & B6).
  split_and!; congruence.
Qed.
End system.
