(* ===== verification/Published.v ===== *)
(** What readers see across commits: the published version is replaced by a changed
    commit, verified by an unchanged one and kept by a failed one; the outbox gets one
    event per version; the integrity audit finds nothing. *)

From stdpp Require Import base list numbers strings gmap sorting.
From Stdlib Require Import ZArith Lia.
From S2P Require Import Prelude Sanitize Domain Canonical Tables Leases Lifecycle Reads Commit.
From S2P Require Import HostState Maintenance Store CommitSpec System.

Local Open Scope Z_scope.
Local Open Scope stdpp_scope.
Local Open Scope go_scope.

Section published.
Context `{GoLib, Postgres}.

(** * Reading the current snapshot *)

Lemma find_target_row db i t : wf db → db_targets db !! i = Some t → find_target db (t_ref t) = Some (i, t).
Proof.
  intros W Ht. apply head_filter_unique; [done|done|]. intros j u Hu Er. cbn in Er.
  by apply (wf_refs _ W j i u t).
Qed.

(** A row that [Current] serves. *)
Record serves (db : DB) (ref : TargetRef) (i : Z) (t : TargetRow) (sid : Z) (s : SnapRow) (v : Z) : Prop := {
  sv_row : db_targets db !! i = Some t;
  sv_ref : t_ref t = ref;
  sv_active : lifecycle_state (t_life t) = LifeActive;
  sv_id : current_snapshot_id (t_pub t) = Some sid;
  sv_snap : db_snaps db !! sid = Some s;
  sv_validated : last_validated_at (t_pub t) = Some v
}.

Lemma Current_serves db ref sn :
  Current ref db = Ok sn → ref_check ref = Ok tt ∧
  ∃ i t sid s v, serves db ref i t sid s v ∧ sn = current_row ref i t sid s v.
Proof.
  unfold Current. destruct (ref_check ref) as [[]|]; [|done]. cbn. intros E. split; [done|].
  destruct (find_target db ref) as [[i t]|] eqn:Ef; [|done]. apply find_target_Some in Ef as [Ht Er].
  case_bool_decide as Ha; [done|]. unfold current_snap in E.
  destruct (current_snapshot_id (t_pub t)) as [sid|] eqn:Esid; [|done]. cbn in E.
  destruct (db_snaps db !! sid) as [s|] eqn:Es; [|done]. cbn in E.
  destruct (last_validated_at (t_pub t)) as [v|] eqn:Ev; [|done]. simplify_eq.
  exists i, t, sid, s, v. split; [|done]. split; try done.
Qed.

Lemma serves_Current db ref i t sid s v :
  wf db → ref_check ref = Ok tt → serves db ref i t sid s v →
  Current ref db = Ok (current_row ref i t sid s v).
Proof.
  intros W Hc [Ht <- Ha Hsid Hs Hv]. unfold Current. rewrite Hc. cbn.
  rewrite (find_target_row _ _ _ W Ht), bool_decide_eq_false_2 by (rewrite Ha; tauto).
  unfold current_snap. rewrite Hsid. cbn. rewrite Hs. cbn. by rewrite Hv.
Qed.

(** A fresh commit is applied, not replayed. *)
Lemma Commit_fresh input now dbnow db db' res :
  wf db → run_of db (ci_TargetID input) (ci_LeaseGeneration input) = None →
  Commit input now dbnow db = Ok (db', res) →
  validateCommit input = Ok tt ∧ ∃ t db1 x, applied input dbnow db db' res t db1 x.
Proof.
  intros W Hr E. destruct (Commit_inv _ _ _ _ _ _ W E) as (Hv & [[_ Ex]|[_ A]]); [|done].
  unfold existingCommitResult in Ex. by rewrite Hr in Ex.
Qed.

(** * What a commit leaves of a row and of a snapshot *)

Lemma refresh_current_core i at_ db :
  db_targets (refresh_current i at_ db) = db_targets db ∧ db_events (refresh_current i at_ db) = db_events db ∧
  db_notified (refresh_current i at_ db) = db_notified db ∧ db_seqs (refresh_current i at_ db) = db_seqs db.
Proof. by destruct (refresh_current_eq i at_ db) as [-> | [sid ->]]. Qed.

Lemma writes_outbox input db t db1 x :
  writes input db t db1 x →
  db_events db1 = db_events db ∧ db_notified db1 = db_notified db ∧
  q_event (db_seqs db1) = q_event (db_seqs db).
Proof.
  intros [? ? ? ? ? t' | ? ? t' | ? t']; try done.
  set (d := set_targets _ _). by destruct (refresh_current_core (ci_TargetID input) (timestamptz (validated_at input)) d)
    as (_ & -> & -> & ->).
Qed.

(** A commit that publishes nothing keeps what each target points to. *)
Lemma writes_keep_row input db t db1 x i u :
  holds input db t → writes input db t db1 x → w_snap x = None → db_targets db !! i = Some u →
  ∃ u1, db_targets db1 !! i = Some u1 ∧ t_ref u1 = t_ref u ∧
    lifecycle_state (t_life u1) = lifecycle_state (t_life u) ∧
    current_snapshot_id (t_pub u1) = current_snapshot_id (t_pub u) ∧
    (is_Some (last_validated_at (t_pub u)) → is_Some (last_validated_at (t_pub u1))) ∧
    (successfulOutcome (ci_Outcome input) = false →
      last_validated_at (t_pub u1) = last_validated_at (t_pub u) ∧
      validation_seq (t_pub u1) = validation_seq (t_pub u)).
Proof.
  intros [Ht _ _ _] Hw Hn Hu.
  assert (G : ∃ t1, db_targets db1 = <[ci_TargetID input := t1]> (db_targets db) ∧ t_ref t1 = t_ref t ∧
    t_life t1 = t_life t ∧ current_snapshot_id (t_pub t1) = current_snapshot_id (t_pub t) ∧
    (is_Some (last_validated_at (t_pub t)) → is_Some (last_validated_at (t_pub t1))) ∧
    (successfulOutcome (ci_Outcome input) = false →
      last_validated_at (t_pub t1) = last_validated_at (t_pub t) ∧
      validation_seq (t_pub t1) = validation_seq (t_pub t))).
  { destruct Hw as [? ? ? ? ? t' | ? ? t' Hs | ? t']; [done| |]; exists t'.
    - split; [by destruct (refresh_current_core (ci_TargetID input) (timestamptz (validated_at input))
        (set_targets (<[ci_TargetID input:=t']> (db_targets db)) (add_run (run_row input seq) db))) as [-> _]|].
      rewrite Hs. split_and!; done || by eauto.
    - by split_and!. }
  destruct G as (t1 & Ets & E1 & E2 & E3 & E4 & E5). rewrite Ets.
  destruct (decide (i = ci_TargetID input)) as [->|Hi].
  - rewrite Ht in Hu. injection Hu as <-. exists t1. rewrite lookup_insert_eq, E2. by split_and!.
  - rewrite lookup_insert_ne by done. exists u. split_and!; done || eauto.
Qed.

Lemma writes_keep_snap input db t db1 x sid s :
  writes input db t db1 x → w_snap x = None → db_snaps db !! sid = Some s →
  ∃ s1, db_snaps db1 !! sid = Some s1 ∧ same_snap s s1 ∧
    (successfulOutcome (ci_Outcome input) = false → s1 = s).
Proof.
  intros [? ? ? ? ? t' | seq ? t' Hs | ? t'] Hn Hsid; [done| |by exists s; split_and!].
  rewrite Hs. destruct (refresh_current_eq (ci_TargetID input) (timestamptz (validated_at input))
    (set_targets (<[ci_TargetID input:=t']> (db_targets db)) (add_run (run_row input seq) db)))
    as [-> | [k ->]].
  - by exists s; split_and!.
  - destruct (alter_verify_fwd (timestamptz (validated_at input)) k (db_snaps db) sid s Hsid) as (s1 & Hs1 & Sm).
    exists s1. by split_and!.
Qed.

(** What two readings of a target share when the content, and when also the validation,
    is the same. *)
Definition same_reading (a b : Snapshot) : Prop :=
  sn_ID b = sn_ID a ∧ sn_Version b = sn_Version a ∧ sn_ContentHash b = sn_ContentHash a ∧
  sn_Payload b = sn_Payload a.
Definition same_validation (a b : Snapshot) : Prop :=
  sn_ValidationSeq b = sn_ValidationSeq a ∧ sn_ValidatedAt b = sn_ValidatedAt a ∧
  sn_VerifiedAt b = sn_VerifiedAt a.

(** A commit that publishes nothing keeps what readers see of every target. *)
Lemma unpublished_keeps input now dbnow db db' res ref sn :
  wf db → run_of db (ci_TargetID input) (ci_LeaseGeneration input) = None →
  Commit input now dbnow db = Ok (db', res) → cm_Snapshot res = None →
  Current ref db = Ok sn →
  ∃ sn', Current ref db' = Ok sn' ∧ same_reading sn sn' ∧
    (successfulOutcome (ci_Outcome input) = false → same_validation sn sn').
Proof.
  intros W Hr E Enone Ecur.
  destruct (Commit_fresh _ _ _ _ _ _ W Hr E) as (_ & t & db1 & x & A).
  destruct (Current_serves _ _ _ Ecur) as (Hc & i & u & sid & s & v & [Hu Eu Hact Hsid Hs Hv] & ->).
  pose proof (ap_publish _ _ _ _ _ _ _ _ A) as Hp.
  destruct (applied_snaps _ _ _ _ _ _ _ _ A) as (Es & _ & _).
  destruct (ap_good _ _ _ _ _ _ _ _ A) as [W' _].
  assert (Hn : w_snap x = None) by (destruct (w_snap x); [by destruct Hp; congruence|done]).
  destruct (writes_keep_row _ _ _ _ _ _ _ (ap_holds _ _ _ _ _ _ _ _ A) (ap_writes _ _ _ _ _ _ _ _ A) Hn Hu)
    as (u1 & Hu1 & Er1 & El1 & Esid1 & Hv1 & Hf1).
  destruct (writes_keep_snap _ _ _ _ _ _ _ (ap_writes _ _ _ _ _ _ _ _ A) Hn Hs) as (s1 & Hs1 & Sm & Hf2).
  destruct (ap_quiet _ _ _ _ _ _ _ _ A i u1 Hu1) as (u2 & Hu2 & Er2 & Ep2 & El2).
  destruct Hv1 as [v1 Hv1]; [by eexists|].
  assert (Sv : serves db' ref i u2 sid s1 v1) by (split; rewrite ?Ep2, ?El2, ?Es; congruence).
  eexists. split; [by apply serves_Current|]. cbn.
  destruct Sm as (_ & _ & ? & ? & ? & _). split; [by split_and!|].
  intros Hfail. destruct (Hf1 Hfail) as [Evl Evs]. unfold same_validation. cbn. rewrite Ep2, Evs, (Hf2 Hfail). split_and!; congruence.
Qed.

(** * Theorems *)

(** A fresh version is reported fresh as long as its target may be served. *)
Lemma deriveQualityState_fresh verified age now :
  time_Sub now verified ≤ age → deriveQualityState DataQualityVerifiedFresh (Some verified) age now = DataQualityVerifiedFresh.
Proof.
  intros Hl. unfold deriveQualityState. cbn. destruct (_ || _); [done|]. by rewrite (proj2 (Z.ltb_ge _ _)) by lia.
Qed.

(** [Metadata] of a row that [Current] serves. *)
Lemma serves_Metadata db ref i t sid s v at_ :
  wf db → serves db ref i t sid s v →
  ∃ md, Metadata ref at_ db = Ok md ∧ md_Version md = current_version (t_pub t) ∧ md_ValidatedAt md = v ∧
    md_QualityState md = deriveQualityState (quality_state (t_pub t)) (s_verified_at s)
      (secs (max_serve_age_seconds (t_sched t))) at_.
Proof.
  intros W [Ht <- Ha Hsid Hs Hv]. unfold Metadata. rewrite (find_target_row _ _ _ W Ht).
  rewrite bool_decide_eq_false_2 by (rewrite Ha; tauto). unfold current_snap. rewrite Hsid. cbn. rewrite Hs. cbn.
  unfold metadata_row. rewrite Hv. by eexists.
Qed.

(** A changed commit takes the branch that inserts a version. *)
Lemma changed_writes input db t db1 x :
  ci_Changed input = true → successfulOutcome (ci_Outcome input) = true → writes input db t db1 x →
  ∃ payload, jsonb_text (ci_Payload input) = Some payload ∧
    let seq := validation_seq (t_pub t) + 1 in let version := current_version (t_pub t) + 1 in
    let sid := q_snap (db_seqs db) + 1 in
    x = {| w_target := t; w_run := q_run (db_seqs db) + 1; w_snap := Some sid; w_version := version; w_seq := seq |} ∧
    db_targets db1 !! ci_TargetID input = Some (success_row input seq version (Some sid) t) ∧
    db_snaps db1 !! sid = Some (snap_row input (q_run (db_seqs db) + 1) version payload).
Proof.
  intros Hc Hs [payload ? ? ? ? ? _ _ Hj _ _|? ? ? _ Hn|? ? Hn]; [|congruence..].
  exists payload. split; [done|]. split; [done|]. split; cbn; by rewrite lookup_insert_eq.
Qed.

(** C2: a changed commit is what readers see next.  A commit that says its content changed
    and succeeds publishes: the version is the previous one plus one and carries the
    committed hash and payload.  If the target is active and its reference well-formed,
    [Current] of it returns this version: its payload is the committed one in the form the
    JSONB column gives it, its validation and verification times are the committed ones as
    TIMESTAMPTZ columns keep them.  [Metadata]
    reports this version and validation time too, and reports it fresh until the age up to
    which [Current] allows to serve it has passed since the verification. *)
Theorem Commit_publishes input now dbnow db db' res t :
  reachable db → run_of db (ci_TargetID input) (ci_LeaseGeneration input) = None →
  Commit input now dbnow db = Ok (db', res) → ci_Changed input = true →
  db_targets db !! ci_TargetID input = Some t → lifecycle_state (t_life t) = LifeActive →
  ref_check (t_ref t) = Ok tt →
  ∃ sn sn', cm_Snapshot res = Some sn ∧ sn_Version sn = current_version (t_pub t) + 1 ∧
    sn_Payload sn = ci_Payload input ∧ sn_ContentHash sn = ci_ContentHash input ∧
    sn_ValidatedAt sn = validated_at input ∧
    Current (t_ref t) db' = Ok sn' ∧ same_version sn sn' ∧
    jsonb_text (ci_Payload input) = Some (sn_Payload sn') ∧
    sn_ValidatedAt sn' = timestamptz (validated_at input) ∧
    sn_VerifiedAt sn' = timestamptz (ci_FinishedAt input) ∧
    ∀ at_, ∃ md, Metadata (t_ref t) at_ db' = Ok md ∧ md_Version md = sn_Version sn ∧
      md_ValidatedAt md = sn_ValidatedAt sn' ∧
      (time_Sub at_ (sn_VerifiedAt sn') ≤ sn_MaxServeAge sn' → md_QualityState md = DataQualityVerifiedFresh).
Proof.
  intros W%reachable_wf Hr E Hch Ht Ha Hc.
  destruct (Commit_fresh _ _ _ _ _ _ W Hr E) as (Hv & t0 & db1 & x & A).
  pose proof (ap_holds _ _ _ _ _ _ _ _ A) as Hh. rewrite (ho_row _ _ _ Hh) in Ht. injection Ht as ->.
  destruct (validateCommit_changed _ Hv Hch) as (Ho & _).
  destruct (changed_writes _ _ _ _ _ Hch ltac:(by rewrite Ho) (ap_writes _ _ _ _ _ _ _ _ A)) as (payload & Hj & -> & Hrow & Hsnap).
  destruct (applied_snaps _ _ _ _ _ _ _ _ A) as (Es & _). destruct (ap_good _ _ _ _ _ _ _ _ A) as [W' _].
  destruct (ap_publish _ _ _ _ _ _ _ _ A) as (Esn & _).
  destruct (ap_quiet _ _ _ _ _ _ _ _ A _ _ Hrow) as (t2 & Ht2 & Er2 & Ep2 & El2).
  assert (Sv : serves db' (t_ref t) (ci_TargetID input) t2 (q_snap (db_seqs db) + 1)
    (snap_row input (q_run (db_seqs db) + 1) (current_version (t_pub t) + 1) payload) (timestamptz (validated_at input))).
  { split; rewrite ?Ep2, ?El2, ?Es; done. }
  do 2 eexists. split; [exact Esn|]. do 4 (split; [done|]). split; [by apply serves_Current|].
  split; [split_and!; cbn; rewrite ?Ep2; try done; by right|]. do 3 (split; [done|]). intros at_.
  destruct (serves_Metadata _ _ _ _ _ _ _ at_ W' Sv) as (md & Em & Ev & Eat & Eq). exists md.
  split; [exact Em|]. rewrite Ev, Eat, Eq, Ep2. do 2 (split; [done|]). by apply deriveQualityState_fresh.
Qed.

(** C3: a commit that publishes nothing keeps the last known good content of every
    target: whatever [Current] returned before it, it returns after it with the same
    identity, version, hash and payload; and after a failed outcome also with the same
    validation sequence, validation time and verification time. *)
Theorem Commit_keeps_last_known_good input now dbnow db db' res ref sn :
  reachable db → run_of db (ci_TargetID input) (ci_LeaseGeneration input) = None →
  Commit input now dbnow db = Ok (db', res) → cm_Snapshot res = None →
  Current ref db = Ok sn →
  ∃ sn', Current ref db' = Ok sn' ∧ same_reading sn sn' ∧
    (successfulOutcome (ci_Outcome input) = false → same_validation sn sn').
Proof. intros W%reachable_wf. by apply unpublished_keeps. Qed.

(** C4: the outbox.  A commit that publishes version v of a target appends exactly one
    event, for that target and version, under the next sequence number, and notifies
    once; a commit that publishes nothing leaves the outbox alone. *)
Theorem Commit_outbox input now dbnow db db' res :
  reachable db → run_of db (ci_TargetID input) (ci_LeaseGeneration input) = None →
  Commit input now dbnow db = Ok (db', res) →
  match cm_Snapshot res, cm_Metadata res with
  | Some sn, Some m =>
      db_events db' = <[q_event (db_seqs db) + 1 :=
        mkEvent (sn_ID sn) (ci_TargetID input) (sn_Version sn) (ref_Kind (sn_Ref sn)) dbnow]> (db_events db) ∧
      db_notified db' = db_notified db ++ [m] ∧ md_Version m = sn_Version sn ∧
      md_ValidationSeq m = sn_ValidationSeq sn
  | None, None => db_events db' = db_events db ∧ db_notified db' = db_notified db
  | _, _ => False
  end.
Proof.
  intros W%reachable_wf Hr E. destruct (Commit_fresh _ _ _ _ _ _ W Hr E) as (_ & t & db1 & x & A).
  destruct (writes_outbox _ _ _ _ _ (ap_writes _ _ _ _ _ _ _ _ A)) as (E1 & E2 & E3).
  pose proof (ap_publish _ _ _ _ _ _ _ _ A) as Hp. destruct (w_snap x) as [sid|].
  - destruct Hp as (-> & -> & db4 & ((_ & _ & F1 & F2 & _ & _ & F3) & _) & ->). cbn.
    rewrite F1, F2, F3, E1, E2, E3. by split_and!.
  - destruct Hp as (-> & -> & ((_ & _ & F1 & F2 & _) & _)). rewrite F1, F2. done.
Qed.

(** Two reads of a target: versions and validation sequences do not decrease, the version
    grows no faster than the sequence, and one version has one content. *)
Lemma Current_later db db' ref a b :
  reachable db → rtc db_step db db' → Current ref db = Ok a → Current ref db' = Ok b →
  sn_TargetID b = sn_TargetID a ∧ sn_Version a ≤ sn_Version b ∧
  sn_ValidationSeq a + (sn_Version b - sn_Version a) ≤ sn_ValidationSeq b ∧
  (sn_Version a = sn_Version b → sn_ID a = sn_ID b ∧ sn_ContentHash a = sn_ContentHash b ∧
     sn_Payload a = sn_Payload b).
Proof.
  intros W%reachable_wf Hst Ea Eb. destruct (steps_good _ _ Hst W) as [W' Ev].
  destruct (Current_serves _ _ _ Ea) as (_ & i & t & sid & s & v & [Ht Er _ Hsid Hs _] & ->).
  destruct (Current_serves _ _ _ Eb) as (_ & j & u & sid' & s' & v' & [Hu Er' _ Hsid' Hs' _] & ->). cbn.
  destruct (ev_rows _ _ Ev i t Ht) as (u' & Hu' & Er'' & _ & Hle & Hseq).
  assert (j = i) as -> by (apply (wf_refs _ W' j i u u'); congruence).
  rewrite Hu in Hu'. injection Hu' as <-.
  destruct (proj2 (wf_pub _ W i t Ht) sid Hsid) as (x & Hx & Ext & Exv & _).
  rewrite Hs in Hx. injection Hx as <-.
  destruct (proj2 (wf_pub _ W' i u Hu) sid' Hsid') as (x & Hx & Ext' & Exv' & _).
  rewrite Hs' in Hx. injection Hx as <-.
  split; [done|]. split; [lia|]. split; [lia|]. intros Eveq.
  destruct (ev_snaps _ _ Ev sid' s' Hs') as [(s0 & Hs0 & Sm)|(_ & _ & Hnew)].
  - destruct Sm as (M1 & M2 & M3 & M4 & M5 & _).
    assert (sid' = sid) as -> by (apply (wf_snap_unique _ W sid' sid s0 s); congruence).
    rewrite Hs in Hs0. injection Hs0 as <-. by split_and!.
  - rewrite Ext' in Hnew. specialize (Hnew t Ht). lia.
Qed.

(** C5: readers never go back.  Between two reads of a target, whatever happens, the
    version and the validation sequence do not decrease, and one version has one
    content. *)
Theorem Current_monotone db db' ref a b :
  reachable db → rtc db_step db db' → Current ref db = Ok a → Current ref db' = Ok b →
  sn_TargetID b = sn_TargetID a ∧ sn_Version a ≤ sn_Version b ∧ sn_ValidationSeq a ≤ sn_ValidationSeq b ∧
  (sn_Version a = sn_Version b → sn_ID a = sn_ID b ∧ sn_ContentHash a = sn_ContentHash b ∧
     sn_Payload a = sn_Payload b).
Proof.
  intros Hr Hs Ea Eb. destruct (Current_later _ _ _ _ _ Hr Hs Ea Eb) as (? & ? & ? & ?). split_and!; [done|done|lia|done].
Qed.

Lemma count_targets_zero db p :
  (∀ i t, db_targets db !! i = Some t → p i t = false) → count_targets db p = 0.
Proof.
  intros Hp. unfold count_targets. replace (filter _ _) with (∅ : gmap Z TargetRow); [done|].
  symmetry. apply map_empty. intros i. apply map_lookup_filter_None. right.
  intros t Hi. cbn. by rewrite (Hp i t Hi).
Qed.

(** C6: the integrity audit is clean on every reachable store: no dangling or foreign
    current snapshot, no version mismatch, no negative version, and no served content
    that came from a rejected run. *)
Theorem audit_clean db :
  reachable db →
  AuditSnapshotIntegrity db = {| OrphanedSnapshots := 0; MismatchedTargets := 0;
    InvalidVersionOrder := 0; RejectedPayloadTargets := 0 |}.
Proof.
  intros W%reachable_wf. unfold AuditSnapshotIntegrity.
  assert (Hcur : ∀ i t sid s, db_targets db !! i = Some t → current_snap db t = Some (sid, s) →
    db_snaps db !! sid = Some s ∧ s_version s = current_version (t_pub t)).
  { intros i t sid s Ht E. unfold current_snap in E.
    destruct (current_snapshot_id (t_pub t)) as [sid'|] eqn:Esid; [|done]. cbn in E.
    destruct (db_snaps db !! sid') as [s'|] eqn:Es; [|done]. cbn in E. simplify_eq.
    destruct (proj2 (wf_pub _ W i t Ht) sid Esid) as (x & Hx & _ & Hxv & _). split; congruence. }
  f_equal; apply count_targets_zero; intros i t Ht.
  - unfold orphan. destruct (current_snapshot_id (t_pub t)) as [sid|] eqn:Esid; [|done].
    destruct (proj2 (wf_pub _ W i t Ht) sid Esid) as (s & -> & -> & _). by rewrite Z.eqb_refl.
  - unfold mismatched. destruct (current_snap db t) as [[sid s]|] eqn:E; [|done].
    destruct (Hcur _ _ _ _ Ht E) as [_ ->]. by rewrite Z.eqb_refl.
  - apply Z.ltb_ge. by destruct (target_check_counters _ (wf_check _ W i t Ht)) as (_ & ? & _); lia.
  - unfold rejected_payload. destruct (bool_decide _); [|done]. cbn.
    destruct (current_snap db t) as [[sid s]|] eqn:E; [|done].
    destruct (Hcur _ _ _ _ Ht E) as [Hs _]. destruct (wf_snaps _ W sid s Hs) as (_ & _ & Hrun).
    destruct (s_run s) as [rid|]; [|done]. cbn. destruct (Hrun rid eq_refl) as (r & -> & _ & Ho & _).
    apply bool_decide_eq_false. rewrite Ho. by intros [?|?].
Qed.
End published.
