(* ===== verification/Claims.v ===== *)
(** Leases end to end: what a claim returns, that generations are never reused, and
    that a worker whose lease was taken over can no longer write. *)

From stdpp Require Import base list numbers strings gmap sorting.
From Stdlib Require Import ZArith Lia.
From S2P Require Import Prelude Sanitize Domain Canonical Tables Leases Lifecycle Reads Commit.
From S2P Require Import HostState Maintenance Store CommitSpec System.

Local Open Scope Z_scope.
Local Open Scope stdpp_scope.
Local Open Scope go_scope.

(** * What ClaimDue selects *)

Lemma elem_of_select_due db now limit locked i t :
  (i, t) ∈ select_due db now limit locked →
  db_targets db !! i = Some t ∧ due db now t = true ∧ i ∉ locked.
Proof.
  unfold select_due. intros (k & Hk & _)%elem_of_take. apply list_elem_of_lookup_2 in Hk.
  rewrite sort_stable_perm in Hk. apply list_elem_of_filter in Hk as [[Hd Hl] Hin].
  by apply elem_of_map_to_list in Hin.
Qed.

Lemma due_candidate db now (locked : gset Z) i t :
  db_targets db !! i = Some t → due db now t = true → i ∉ locked →
  (i, t) ∈ filter (λ p, due db now p.2 = true ∧ p.1 ∉ locked) (map_to_list (db_targets db)).
Proof.
  intros Ht Hd Hl. apply list_elem_of_filter. split; [done|]. by apply elem_of_map_to_list.
Qed.

Lemma due_not_leased db now t e :
  due db now t = true → lease_expires_at (t_lease t) = Some e → e ≤ now.
Proof. unfold due. intros Hd He. bool_to_prop. rewrite He in *. cbn in *. by bool_to_prop. Qed.

Section claims.
Context `{GoLib, Postgres}.

(** * Claims as one notion *)

(** [a] is a target some worker got from a claim that took the store from [db] to [db']. *)
Inductive claims (db db' : DB) (a : ScrapeTarget) : Prop :=
| claims_due req locked ts : ClaimDue req locked db = Ok (db', ts) → a ∈ ts → claims db db' a
| claims_one req locked : ClaimOne req locked db = Ok (db', a) → claims db db' a.

Lemma ClaimDue_inv req locked db db' ts :
  ClaimDue req locked db = Ok (db', ts) →
  0 < cr_Limit req ∧ validateClaim (cr_Now req) (cr_WorkerID req) (cr_LeaseDuration req) = Ok tt ∧
  let picked := select_due db (cr_Now req) (cr_Limit req) locked in
  let f := claim_row (cr_WorkerID req) (cr_Now req) (cr_LeaseDuration req) in
  (∀ i, db_targets db' !! i = (λ t, if bool_decide (i ∈ map fst picked) then f t else t) <$> db_targets db !! i) ∧
  ts ≡ₚ map (λ p, scanScrapeTarget p.1 (f p.2)) picked.
Proof.
  unfold ClaimDue. destruct (cr_Limit req <=? 0) eqn:El; [done|]. cbn.
  destruct (validateClaim _ _ _) as [[]|]; [|done]. cbn. intros E.
  destruct (update_where _ _ db) as [[d n]|] eqn:Eu; [|done]. cbn in E. simplify_eq. bool_to_prop.
  split_and!; [done|done| |].
  - intros i. apply (update_where_lookup _ _ _ _ _ i Eu).
  - rewrite sort_stable_perm, map_map. done.
Qed.

Lemma picked_id db now limit locked i t :
  db_targets db !! i = Some t → i ∈ map fst (select_due db now limit locked) →
  (i, t) ∈ select_due db now limit locked.
Proof.
  intros Ht ([j u] & -> & Hin)%list_elem_of_fmap. cbn in *.
  apply elem_of_select_due in Hin as Hin'. destruct Hin' as [Hu _]. by simplify_eq.
Qed.

(** A claim bumps the generation of an existing row and hands it to one worker. *)
Lemma claims_inv db db' a :
  claims db db' a →
  ∃ t t', db_targets db !! st_ID a = Some t ∧ db_targets db' !! st_ID a = Some t' ∧
    a = scanScrapeTarget (st_ID a) t' ∧ lease_generation (t_lease t') = lease_generation (t_lease t) + 1.
Proof.
  intros [req locked ts E Ha|req locked E].
  - apply ClaimDue_inv in E as (_ & _ & Hl & Hp). rewrite Hp in Ha.
    apply list_elem_of_fmap in Ha as ([i t] & -> & Hin). cbn.
    apply elem_of_select_due in Hin as Hin'. destruct Hin' as (Ht & _).
    eexists t, _. rewrite Hl, Ht. cbn. rewrite bool_decide_eq_true_2; [done|].
    apply list_elem_of_fmap. by exists (i, t).
  - unfold ClaimOne in E. destruct (ref_check _); [|done]. cbn in E.
    destruct (validateClaim _ _ _); [|done]. cbn in E.
    destruct (find_target _ _) as [[i t]|] eqn:Ef; [|done]. apply find_target_Some in Ef as [Ht _].
    destruct (_ && _); [|by repeat case_match].
    destruct (update_where _ _ _) as [[d n]|] eqn:Eu; [|done]. cbn in E. simplify_eq. cbn.
    eexists t, _. rewrite (update_where_lookup _ _ _ _ _ i Eu), Ht. cbn.
    by rewrite bool_decide_eq_true_2.
Qed.

Lemma claims_step db db' a : claims db db' a → db_step db db'.
Proof. intros [req locked ts E _|req locked E]; [by eapply step_ClaimDue|by eapply step_ClaimOne]. Qed.

(** A claim kills every earlier generation. *)
Lemma claims_kill db db' a g : claims db db' a → g < st_LeaseGeneration a → dead db' (st_ID a) g.
Proof.
  intros (t & t' & _ & Ht' & Ea & _)%claims_inv Hg. exists t'. split; [done|]. left.
  rewrite Ea in Hg. exact Hg.
Qed.

(** * The fence *)

Lemma lock_target_dead input db :
  dead db (ci_TargetID input) (ci_LeaseGeneration input) → lock_target input db = Err ErrLeaseLost.
Proof.
  intros (t & Ht & Hd). unfold lock_target. rewrite Ht.
  destruct (_ =? _) eqn:Eg; cbn; [|done]. bool_to_prop.
  destruct Hd as [?|[_ Ho]]; [lia|]. by rewrite Ho, bool_decide_eq_true_2.
Qed.

Lemma Commit_dead input now dbnow db :
  dead db (ci_TargetID input) (ci_LeaseGeneration input) → validateCommit input = Ok tt →
  run_of db (ci_TargetID input) (ci_LeaseGeneration input) = None →
  Commit input now dbnow db = Err ErrLeaseLost.
Proof.
  intros Hd Hv Hr. unfold Commit, existingCommitResult. rewrite Hv, Hr. cbn.
  unfold commit_locked, write_own. by rewrite lock_target_dead.
Qed.

Lemma RenewLease_dead i w g d now db db' : dead db i g → RenewLease i w g d now db ≠ Ok db'.
Proof.
  intros (t & Ht & Hd). unfold RenewLease. destruct (_ || _); [done|]. destruct (blank w); [done|].
  destruct (d <=? 0); [done|]. destruct (update_where _ _ db) as [[x n]|] eqn:Eu; [|done]. cbn.
  replace (n =? 0) with true; [done|]. symmetry. apply Z.eqb_eq.
  apply (update_where_zero _ _ _ _ _ Eu). intros j u Hu. unfold held.
  destruct (j =? i) eqn:Ej; [|done]. bool_to_prop. subst j. rewrite Ht in Hu. injection Hu as <-. cbn.
  destruct Hd as [Hg|[Hg Ho]].
  - by replace (_ =? _) with false by (symmetry; apply Z.eqb_neq; lia).
  - by rewrite Ho, andb_false_r.
Qed.

(** A host permit asks for the current generation. *)
Lemma permit_fence_dead r db :
  dead db (ar_TargetID r) (ar_LeaseGeneration r) → permit_fence r db = true →
  ∃ t, db_targets db !! ar_TargetID r = Some t ∧ lease_owner (t_lease t) = None.
Proof.
  intros (t & Ht & Hd). unfold permit_fence. rewrite Ht. intros Hf. bool_to_prop.
  exists t. split; [done|]. destruct Hd as [?|[_ ?]]; [lia|done].
Qed.

(** C7: a takeover fences the previous worker.  When a target claimed as [a] is claimed
    again as [b], the second generation is larger; and however long the first worker
    sleeps, its commit is rejected as a lost lease (or answered from its own earlier
    run) and its lease cannot be renewed. *)
Theorem takeover_fences db db1 a db2 db3 b db4 input now dbnow :
  reachable db → claims db db1 a → rtc db_step db1 db2 → claims db2 db3 b → st_ID b = st_ID a →
  rtc db_step db3 db4 →
  ci_TargetID input = st_ID a → ci_LeaseGeneration input = st_LeaseGeneration a →
  st_LeaseGeneration a < st_LeaseGeneration b ∧
  (validateCommit input = Ok tt → run_of db4 (st_ID a) (st_LeaseGeneration a) = None →
     Commit input now dbnow db4 = Err ErrLeaseLost) ∧
  (∀ w d renew_now db5, RenewLease (st_ID a) w (st_LeaseGeneration a) d renew_now db4 ≠ Ok db5).
Proof.
  intros W%reachable_wf Ca S12 Cb Eid S34 Et Eg.
  destruct (step_good _ _ (claims_step _ _ _ Ca) W) as [W1 _].
  destruct (steps_good _ _ S12 W1) as [W2 Ev12].
  destruct (step_good _ _ (claims_step _ _ _ Cb) W2) as [W3 _].
  destruct (steps_good _ _ S34 W3) as [W4 Ev34].
  destruct (claims_inv _ _ _ Ca) as (_ & t1 & _ & Ht1 & Ea & _).
  destruct (claims_inv _ _ _ Cb) as (t2 & t3 & Ht2 & Ht3 & Eb & Egen). rewrite Eid in *.
  destruct (ev_rows _ _ Ev12 _ _ Ht1) as (t2' & Ht2' & _ & Hl & _).
  rewrite Ht2 in Ht2'. injection Ht2' as <-.
  assert (Hlt : st_LeaseGeneration a < st_LeaseGeneration b).
  { rewrite Ea, Eb. cbn. destruct Hl as [?|[? _]]; lia. }
  split; [done|].
  assert (D4 : dead db4 (st_ID a) (st_LeaseGeneration a)).
  { eapply evolves_dead; [exact Ev34|]. rewrite <- Eid. by eapply claims_kill. }
  split.
  - intros Hv Hr. rewrite <- Et, <- Eg in *. by apply Commit_dead.
  - intros w d n db5. by apply RenewLease_dead.
Qed.

(** C8: ClaimDue returns at most [Limit] targets; each was due, unlocked and without a
    live lease, is handed to the caller under the next generation until the requested
    deadline, and no other row changes; a due target that was left out means the
    batch is full of targets that come before it in (priority, next_run_at, id). *)
Theorem ClaimDue_spec req locked db db' ts :
  ClaimDue req locked db = Ok (db', ts) →
  Z.of_nat (length ts) ≤ cr_Limit req ∧
  (∀ a, a ∈ ts → ∃ t, db_targets db !! st_ID a = Some t ∧ due db (cr_Now req) t = true ∧
     st_ID a ∉ locked ∧ (∀ e, lease_expires_at (t_lease t) = Some e → e ≤ cr_Now req) ∧
     st_LeaseOwner a = cr_WorkerID req ∧
     st_LeaseGeneration a = lease_generation (t_lease t) + 1 ∧
     st_LeaseExpiresAt a = Some (cr_Now req + secs (durationSeconds (cr_LeaseDuration req))) ∧
     db_targets db' !! st_ID a = Some (claim_row (cr_WorkerID req) (cr_Now req) (cr_LeaseDuration req) t)) ∧
  (∀ i, i ∉ map st_ID ts → db_targets db' !! i = db_targets db !! i) ∧
  (∀ i t, db_targets db !! i = Some t → due db (cr_Now req) t = true → i ∉ locked → i ∉ map st_ID ts →
     Z.of_nat (length ts) = cr_Limit req ∧
     ∀ a u, a ∈ ts → db_targets db !! st_ID a = Some u → not_after less_due (st_ID a, u) (i, t)).
Proof.
  intros E. apply ClaimDue_inv in E as (Hlim & _ & Hl & Hp).
  set (picked := select_due db (cr_Now req) (cr_Limit req) locked) in *.
  assert (Hids : map st_ID ts ≡ₚ map fst picked).
  { rewrite Hp, map_map. cbn. by apply reflexive_eq. }
  assert (Hin : ∀ a, a ∈ ts → ∃ t, (st_ID a, t) ∈ picked ∧ a = scanScrapeTarget (st_ID a)
    (claim_row (cr_WorkerID req) (cr_Now req) (cr_LeaseDuration req) t)).
  { intros a. rewrite Hp. intros ([i t] & -> & Ht)%list_elem_of_fmap. by exists t. }
  split_and!.
  - rewrite Hp, length_map. unfold picked, select_due. rewrite length_take. lia.
  - intros a Ha. destruct (Hin a Ha) as (t & Ht & Ea). exists t.
    pose proof (elem_of_select_due _ _ _ _ _ _ Ht) as (Hrow & Hd & Hlk).
    rewrite Hl, Hrow. cbn. rewrite bool_decide_eq_true_2
      by (apply list_elem_of_fmap; by exists (st_ID a, t)).
    rewrite Ea. cbn. split_and!; try done. intros e He. by eapply due_not_leased.
  - intros i Hi. rewrite Hids in Hi. rewrite Hl, bool_decide_eq_false_2 by done.
    by destruct (db_targets db !! i).
  - intros i t Ht Hd Hlk Hi. rewrite Hids in Hi.
    assert (Hc : (i, t) ∉ picked).
    { intros Hc. apply Hi, list_elem_of_fmap. by exists (i, t). }
    pose proof (due_candidate _ _ _ _ _ Ht Hd Hlk) as Hcand. split.
    + rewrite Hp, length_map. unfold picked, select_due in *.
      rewrite (take_sorted_all _ _ _ _ Hcand Hc). lia.
    + intros a u Ha Hu. destruct (Hin a Ha) as (t' & Ht' & _).
      pose proof (elem_of_select_due _ _ _ _ _ _ Ht') as (Hrow & _). rewrite Hrow in Hu. injection Hu as <-.
      exact (take_sorted_least less_due _ _ _ _ Ht' Hcand Hc).
Qed.
End claims.
