(* ===== verification/LifecycleSpec.v ===== *)
(** What reconciliation does to the children of a parent, and how many reconciliations
    without a child end in a tombstone. *)

From stdpp Require Import base list numbers strings gmap sorting.
From Stdlib Require Import ZArith Lia.
From S2P Require Import Prelude Sanitize Domain Canonical Tables Leases Lifecycle Reads Commit.
From S2P Require Import HostState Maintenance Store CommitSpec System.

Local Open Scope Z_scope.
Local Open Scope stdpp_scope.
Local Open Scope go_scope.

(** * Seeding does not touch the lifecycle *)

Definition same_life (t t' : TargetRow) : Prop :=
  t_ref t' = t_ref t ∧ t_pub t' = t_pub t ∧
  lifecycle_state (t_life t') = lifecycle_state (t_life t) ∧
  consecutive_missing_count (t_life t') = consecutive_missing_count (t_life t).

#[export] Instance same_life_preorder : PreOrder same_life.
Proof. split; [by intros t|]. intros a b c (?&?&?&?) (?&?&?&?). split_and!; congruence. Qed.

Lemma upsert_seed_life s db db' i t :
  wf db → upsert_seed s db = Ok db' → db_targets db !! i = Some t →
  ∃ t', db_targets db' !! i = Some t' ∧ same_life t t'.
Proof.
  intros W E Ht. unfold upsert_seed in E. destruct (target_check (seed_row s)); [cbn in E|done]. destruct (find_target db (sd_Ref s)) as [[j u]|] eqn:Ef.
  - destruct (target_check _); [|done]. simplify_eq. apply find_target_Some in Ef as [Hu _]. cbn.
    destruct (decide (i = j)) as [->|Hij].
    + rewrite lookup_insert_eq. simplify_eq. by eexists.
    + rewrite lookup_insert_ne by done. by exists t.
  - destruct (is_none _); [done|]. simplify_eq. cbn.
    pose proof (wf_target_ids _ W i (ex_intro _ t Ht)). rewrite lookup_insert_ne by lia. by exists t.
Qed.

Lemma upsert_all_life seeds db db' i t :
  wf db → upsert_all seeds db = Ok db' → db_targets db !! i = Some t →
  ∃ t', db_targets db' !! i = Some t' ∧ same_life t t'.
Proof.
  revert db t. induction seeds as [|s seeds IH]; intros db t W E Ht; cbn in E.
  - simplify_eq. by exists t.
  - destruct (upsert_seed s db) as [db1|] eqn:E1; [|done]. cbn in E.
    destruct (upsert_seed_life _ _ _ _ _ W E1 Ht) as (t1 & Ht1 & L1).
    destruct (upsert_seed_harmless _ _ _ E1 W) as [W1 _].
    destruct (IH db1 t1 W1 E Ht1) as (t2 & Ht2 & L2). exists t2. split; [done|]. by transitivity t1.
Qed.

(** * Reconciliation of one child *)

Section lifecycle.
Context `{GoLib, Postgres}.

(** The state and the miss count after one reconciliation. *)
Definition reconciled (threshold : Z) (present : bool) (l : LifeCols) : LifecycleState * Z :=
  if present then (LifeActive, 0)
  else
    match lifecycle_state l with
    | LifeTombstoned => (LifeTombstoned, consecutive_missing_count l)
    | _ =>
        let n := consecutive_missing_count l + 1 in
        ((if threshold <=? n then LifeTombstoned else LifeMissing), n)
    end.

Definition is_child (parent : TargetRef) (t : TargetRow) : bool :=
  match child_scope parent with
  | Some (ck, cp) => in_scope (ref_Host parent) ck cp t
  | None => false
  end.

Definition child_threshold (parent : TargetRef) : Z :=
  match child_scope parent with
  | Some (ck, _) => tombstoneThresholdForChildKind ck
  | None => 0
  end.

(** A reference of the listing is the child itself. *)
Definition listed_child (seen : list TargetRef) (t : TargetRow) : bool := bool_decide (t_ref t ∈ seen).

Lemma seen_keys_listed parent ck cp seen t :
  in_scope (ref_Host parent) ck cp t = true →
  listed (seen_keys (ref_Host parent) ck cp seen) t = listed_child seen t.
Proof.
  unfold in_scope, listed, listed_child, seen_keys. intros (Hh & Hk & Hp)%bool_decide_eq_true_1.
  apply bool_decide_ext. rewrite list_elem_of_fmap. split.
  - intros (r & Er & Hr). apply list_elem_of_filter in Hr as [(Fh & Fk & Fp) Hr].
    replace (t_ref t) with r; [done|]. destruct r, (t_ref t); cbn in *. congruence.
  - intros Hr. exists (t_ref t). split; [done|]. by apply list_elem_of_filter.
Qed.

(** C14: reconciliation, child by child.  A child in the listing is active with no
    misses and enabled; a child missing from it counts one more miss and is
    tombstoned and disabled exactly when the threshold is reached; a tombstoned child
    and every target outside the parent's scope keep their state.  Published columns
    never change. *)
Theorem ReconcileLifecycle_spec input dbnow db db' i t :
  reachable db → ReconcileLifecycle input dbnow db = Ok db' → db_targets db !! i = Some t →
  let parent := lr_ParentRef input in
  let present := listed_child (lr_SeenChildRefs input) t in
  ∃ t', db_targets db' !! i = Some t' ∧ t_ref t' = t_ref t ∧ t_pub t' = t_pub t ∧
    (if is_child parent t then
       (lifecycle_state (t_life t'), consecutive_missing_count (t_life t')) =
         reconciled (child_threshold parent) present (t_life t) ∧
       (present = true → enabled (t_life t') = true) ∧
       (lifecycle_state (t_life t) ≠ LifeTombstoned → lifecycle_state (t_life t') = LifeTombstoned →
          enabled (t_life t') = false)
     else
       lifecycle_state (t_life t') = lifecycle_state (t_life t) ∧
       consecutive_missing_count (t_life t') = consecutive_missing_count (t_life t)).
Proof.
  intros W%reachable_wf E Ht parent present. unfold ReconcileLifecycle in E. fold parent in E.
  unfold is_child, child_threshold.
  destruct (child_scope parent) as [[ck cp]|]; [|simplify_eq; by exists t].
  cbv zeta in E. destruct (upsertSeeds _ db) as [db0|] eqn:E0; [|done]. cbn in E.
  unfold upsertSeeds in E0. destruct (validate_seeds _); [|done]. cbn in E0.
  destruct (upsert_all_life _ _ _ _ _ W E0 Ht) as (t0 & Ht0 & Er0 & Ep0 & Es0 & Ec0).
  set (keys := seen_keys _ _ _ _) in E.
  destruct (match keys with [] => Ok db0 | _ => _ end) as [db1|] eqn:E1; [|done]. cbn in E.
  destruct (update_where _ _ db1) as [[d n]|] eqn:Eu; [|done]. cbn in E. simplify_eq.
  assert (Escope : in_scope (ref_Host parent) ck cp t0 = in_scope (ref_Host parent) ck cp t)
    by (unfold in_scope; by rewrite Er0).
  assert (Elisted : in_scope (ref_Host parent) ck cp t = true → listed keys t0 = present).
  { intros Hs. rewrite <- Escope in Hs. unfold keys. rewrite (seen_keys_listed _ _ _ _ _ Hs).
    unfold present, listed_child. by rewrite Er0. }
  assert (H1 : db_targets db1 !! i = Some (if in_scope (ref_Host parent) ck cp t0 && listed keys t0
    then activate_row (lr_ParentVersion input) dbnow t0 else t0)).
  { destruct keys as [|k ks].
    - simplify_eq. rewrite Ht0. by destruct (in_scope _ _ _ t0).
    - destruct (update_where _ _ db0) as [[d0 n0]|] eqn:Eu0; [|done]. cbn in E1. simplify_eq.
      by rewrite (update_where_lookup _ _ _ _ _ i Eu0), Ht0. }
  rewrite (update_where_lookup _ _ _ _ _ i Eu), H1. cbn [fmap option_fmap option_map]. eexists. split; [done|].
  destruct (in_scope (ref_Host parent) ck cp t) eqn:Hs; rewrite Escope; cbn.
  - rewrite (Elisted eq_refl). destruct present eqn:Hp; cbn.
    + replace (in_scope _ _ _ (activate_row _ _ t0)) with true by (symmetry; exact Escope).
      replace (listed keys (activate_row _ _ t0)) with true by (symmetry; exact (Elisted eq_refl)). cbn.
      split_and!; done.
    + rewrite Escope, (Elisted eq_refl). cbn. unfold not_tombstoned. unfold reconciled. rewrite <- Es0, <- Ec0.
      case_bool_decide as Hb; destruct (lifecycle_state (t_life t0)) eqn:El; cbn; rewrite ?El; cbn;
        try (by destruct Hb; auto); try (by destruct Hb);
        try (destruct (_ <=? _) eqn:Eth; cbn); by split_and!.
  - rewrite Escope. cbn. by split_and!.
Qed.
End lifecycle.
