(* ===== verification/MaintenanceSpec.v ===== *)
(** Retention: the pruning loops terminate, delete exactly what they may, and keep what
    readers and replays need; the outbox is read in order without gaps. *)

From stdpp Require Import base list numbers strings gmap sorting.
From Stdlib Require Import ZArith Lia.
From S2P Require Import Prelude Sanitize Domain Canonical Tables Leases Lifecycle Reads Commit.
From S2P Require Import HostState Maintenance Store CommitSpec System.

Local Open Scope Z_scope.
Local Open Scope stdpp_scope.
Local Open Scope go_scope.

(** * Batches *)

Section batch.
Context {A : Type} (less : Z * A → Z * A → bool) (p : Z → A → bool) (m : gmap Z A) (batch : Z).
Let ids := map fst (take (Z.to_nat batch)
  (sort_stable less (filter (λ x, p x.1 x.2 = true) (map_to_list m)))).

Lemma batch_length : Z.of_nat (length ids) ≤ Z.max 0 batch.
Proof. unfold ids. rewrite length_map, length_take. lia. Qed.

(** A batch that is not full holds every candidate. *)
Lemma batch_all i a : Z.of_nat (length ids) < batch → m !! i = Some a → p i a = true → i ∈ ids.
Proof.
  unfold ids. rewrite length_map. intros Hlen Hi Hp. destruct (decide (i ∈ ids)) as [?|Hn]; [done|]. exfalso.
  assert (Hc : (i, a) ∈ filter (λ x, p x.1 x.2 = true) (map_to_list m)).
  { apply list_elem_of_filter. split; [done|]. by apply elem_of_map_to_list. }
  rewrite (take_sorted_all less _ _ _ Hc) in Hlen; [lia|].
  intros Hin. apply Hn. unfold ids. apply list_elem_of_fmap. by exists (i, a).
Qed.

(** A batch that is not empty makes the table smaller. *)
Lemma batch_shrinks : ids ≠ [] → (size (filter (λ kv : Z * A, kv.1 ∉ ids) m) < size m)%nat.
Proof.
  intros Hne. destruct ids as [|i l] eqn:E; [done|].
  assert (Hin : i ∈ ids) by (rewrite E; left).
  destruct (elem_of_batch less p (Z.to_nat batch) m i Hin) as (a & Ha & _).
  apply map_subset_size. apply map_subset_alt. split; [apply map_filter_subseteq|].
  exists i. split; [|by eexists]. apply map_lookup_filter_None. right. intros x _. cbn. intros Hx.
  apply Hx. left.
Qed.
End batch.

(** * The snapshot loop *)

Lemma snap_position_mono snaps snaps' s :
  snaps' ⊆ snaps → (snap_position snaps' s ≤ snap_position snaps s)%nat.
Proof.
  intros Hs. unfold snap_position. apply le_n_S, map_subseteq_size. by apply map_filter_subseteq_mono.
Qed.

(** What retention keeps: the newest three versions, recent content, the current one. *)
Definition keep_snap (cutoff : Z) (db : DB) (id : Z) (s : SnapRow) : Prop :=
  (snap_position (db_snaps db) s ≤ 3)%nat ∨ cutoff ≤ s_content_fetched_at s ∨
  ∃ t, db_targets db !! s_target s = Some t ∧ current_snapshot_id (t_pub t) = Some id.

Lemma keep_not_prunable cutoff db id s : keep_snap cutoff db id s → prunable_snap cutoff db id s = false.
Proof.
  unfold prunable_snap. intros [Hp|[Hc|(t & -> & Hcur)]].
  - apply Nat.ltb_ge in Hp. by rewrite Hp.
  - apply Z.ltb_ge in Hc. by rewrite Hc, andb_false_r.
  - rewrite bool_decide_eq_false_2 by tauto. apply andb_false_r.
Qed.

(** Deleting other snapshots never makes one prunable. *)
Lemma prunable_snap_mono cutoff db db' id s :
  db_targets db' = db_targets db → db_snaps db' ⊆ db_snaps db →
  prunable_snap cutoff db' id s = true → prunable_snap cutoff db id s = true.
Proof.
  unfold prunable_snap. intros -> Hs H. bool_to_prop. pose proof (snap_position_mono _ _ s Hs).
  repeat (apply andb_true_iff; split); try done.
  - apply Nat.ltb_lt. match goal with H : (_ <? _)%nat = true |- _ => apply Nat.ltb_lt in H end. lia.
  - by apply Z.ltb_lt.
Qed.

Lemma keep_snap_mono cutoff db db' id s :
  db_targets db' = db_targets db → db_snaps db' ⊆ db_snaps db →
  keep_snap cutoff db id s → keep_snap cutoff db' id s.
Proof.
  unfold keep_snap. intros -> Hs [H|[H|H]]; [left|by right; left|by right; right].
  pose proof (snap_position_mono _ _ s Hs). lia.
Qed.

(** On a well-formed store a batch never deletes a current snapshot. *)
Lemma delete_batch_ok cutoff batch db :
  wf db → delete_snaps (snap_batch cutoff batch db) db =
    Ok (set_snaps (filter (λ kv, kv.1 ∉ snap_batch cutoff batch db) (db_snaps db)) db).
Proof.
  intros W. unfold delete_snaps. rewrite bool_decide_eq_true_2; [done|].
  intros i t Ht. unfold points_into. destruct (current_snapshot_id (t_pub t)) as [sid|] eqn:Esid; [|done].
  apply bool_decide_eq_false. intros Hin. apply elem_of_batch in Hin as (s & Hs & Hp).
  destruct (proj2 (wf_pub _ W i t Ht) sid Esid) as (s' & Hs' & Et & _). rewrite Hs in Hs'. injection Hs' as <-.
  rewrite keep_not_prunable in Hp; [done|]. right; right. exists t. by rewrite Et.
Qed.

Lemma prune_snap_loop_spec fuel cutoff batch db n :
  wf db → 0 < batch → (size (db_snaps db) < fuel)%nat →
  ∃ snaps' n', prune_snap_loop fuel cutoff batch db n = Some (set_snaps snaps' db, n', None) ∧
    snaps' ⊆ db_snaps db ∧
    (∀ sid s, db_snaps db !! sid = Some s → keep_snap cutoff db sid s → snaps' !! sid = Some s) ∧
    (∀ sid s, snaps' !! sid = Some s → prunable_snap cutoff (set_snaps snaps' db) sid s = false).
Proof.
  revert db n. induction fuel as [|f IH]; intros db n W Hb Hf; [lia|]. cbn [prune_snap_loop].
  rewrite (delete_batch_ok _ _ _ W).
  pose proof (delete_snaps_shrinks _ _ _ (delete_batch_ok cutoff batch db W)) as Hsh.
  set (ids := snap_batch cutoff batch db) in *.
  set (kept := filter (λ kv : Z * SnapRow, kv.1 ∉ ids) (db_snaps db)) in *.
  assert (Hsub : kept ⊆ db_snaps db) by apply map_filter_subseteq.
  assert (Hkeep : ∀ sid s, db_snaps db !! sid = Some s → keep_snap cutoff db sid s → kept !! sid = Some s).
  { intros sid s Hs Hk. apply map_lookup_filter_Some. split; [done|]. cbn. intros Hin.
    apply elem_of_batch in Hin as (s' & Hs' & Hp). rewrite Hs in Hs'. injection Hs' as <-.
    by rewrite keep_not_prunable in Hp. }
  destruct (Z.of_nat (length ids) <? batch) eqn:El; bool_to_prop.
  - exists kept, (n + Z.of_nat (length ids)). split_and!; try done. intros sid s Hs.
    destruct (prunable_snap cutoff (set_snaps kept db) sid s) eqn:Ep; [|done].
    apply (prunable_snap_mono cutoff db) in Ep; [|done|done].
    apply map_lookup_filter_Some in Hs as [Hs Hni]. destruct Hni. by eapply batch_all.
  - destruct (shrinks_good _ _ Hsh W) as [W' _].
    destruct (IH (set_snaps kept db) (n + Z.of_nat (length ids)) W' Hb) as (snaps' & n' & E & Hs1 & Hs2 & Hs3).
    { cbn. assert (Hne : ids ≠ []) by (destruct ids; [cbn in *; lia|done]).
      pose proof (batch_shrinks less_snap (prunable_snap cutoff db) (db_snaps db) batch Hne) as Hlt.
      unfold kept, ids, snap_batch in *. lia. }
    exists snaps', n'. rewrite E. split_and!; try done; [by transitivity kept|].
    intros sid s Hs Hk. apply Hs2; [by apply Hkeep|]. by apply (keep_snap_mono cutoff db).
Qed.

(** * The run loop *)

Lemma prune_run_loop_spec fuel cutoff batch db n :
  0 < batch → (size (db_runs db) < fuel)%nat →
  ∃ runs' n', prune_run_loop fuel cutoff batch db n = Some (set_runs runs' db, n') ∧
    runs' ⊆ db_runs db ∧
    (∀ rid r, db_runs db !! rid = Some r →
       runs' !! rid = if prunable_run cutoff db rid r then None else Some r).
Proof.
  revert db n. induction fuel as [|f IH]; intros db n Hb Hf; [lia|]. cbn [prune_run_loop].
  set (ids := run_batch cutoff batch db) in *. unfold delete_runs.
  set (kept := filter (λ kv : Z * RunRow, kv.1 ∉ ids) (db_runs db)) in *.
  assert (Hsub : kept ⊆ db_runs db) by apply map_filter_subseteq.
  assert (Hkeep : ∀ rid r, db_runs db !! rid = Some r → prunable_run cutoff db rid r = false →
    kept !! rid = Some r).
  { intros rid r Hr Hp. apply map_lookup_filter_Some. split; [done|]. cbn. intros Hin.
    apply elem_of_batch in Hin as (r' & Hr' & Hp'). rewrite Hr in Hr'. injection Hr' as <-. congruence. }
  destruct (Z.of_nat (length ids) <? batch) eqn:El; bool_to_prop.
  - exists kept, (n + Z.of_nat (length ids)). split_and!; try done. intros rid r Hr.
    destruct (prunable_run cutoff db rid r) eqn:Ep; [|by apply Hkeep].
    apply map_lookup_filter_None. right. intros x _. cbn. intros Hni. apply Hni. by eapply batch_all.
  - destruct (IH (set_runs kept db) (n + Z.of_nat (length ids)) Hb) as (runs' & n' & E & Hs1 & Hs2).
    { cbn. assert (Hne : ids ≠ []) by (destruct ids; [cbn in *; lia|done]).
      pose proof (batch_shrinks less_run (prunable_run cutoff db) (db_runs db) batch Hne) as Hlt.
      unfold kept, ids, run_batch in *. lia. }
    exists runs', n'. rewrite E. split_and!; try done; [by transitivity kept|].
    intros rid r Hr. destruct (kept !! rid) as [r'|] eqn:Ek.
    + eapply lookup_weaken in Ek as Ek'; [|exact Hsub]. rewrite Hr in Ek'. injection Ek' as <-.
      exact (Hs2 rid r Ek).
    + destruct (prunable_run cutoff db rid r) eqn:Ep; [|by rewrite (Hkeep rid r Hr Ep) in Ek].
      destruct (runs' !! rid) as [r'|] eqn:Er; [|done].
      pose proof (lookup_weaken _ _ _ _ Er Hs1) as Ek'. cbn in Ek'. congruence.
Qed.

Section maintenance.
Context `{GoLib, Postgres}.

Lemma Prune_returns r db : wf db → is_Some (Prune r db).
Proof.
  intros W. unfold Prune. destruct ((pr_BatchSize r <=? 0) || _) eqn:Eb; [done|]. destruct (_ || _ || _); [done|].
  bool_to_prop.
  destruct (prune_snap_loop_spec (S (size (db_snaps db))) (time_Add (pr_Now r) (- pr_SnapshotRetention r))
    (pr_BatchSize r) db 0) as (snaps & n & -> & _); [done|lia|lia|]. cbn.
  destruct (prune_run_loop_spec (S (size (db_runs db))) (time_Add (pr_Now r) (- pr_RunRetention r)) (pr_BatchSize r)
    (set_snaps snaps db) 0) as (runs & n' & E & _); [lia|cbn; lia|]. cbn in E. by rewrite E.
Qed.

(** C18: Prune terminates without an error on every reachable store.  It keeps the
    current snapshot and the newest three versions of every target and everything
    fetched after the cutoff, leaves no prunable snapshot behind, deletes exactly the
    old runs no kept snapshot refers to, and drops the expired permits. *)
Theorem Prune_spec r db :
  reachable db → 0 < pr_BatchSize r ≤ 5000 → 0 < pr_SnapshotRetention r → 0 < pr_RunRetention r →
  pr_Now r ≠ 0 →
  let cutoff := pr_Now r - pr_SnapshotRetention r in
  let run_cutoff := pr_Now r - pr_RunRetention r in
  ∃ db' res, Prune r db = Some (db', res, None) ∧ db_targets db' = db_targets db ∧
    db_events db' = db_events db ∧ db_snaps db' ⊆ db_snaps db ∧
    (∀ sid s, db_snaps db !! sid = Some s → keep_snap cutoff db sid s → db_snaps db' !! sid = Some s) ∧
    (∀ sid s, db_snaps db' !! sid = Some s → prunable_snap cutoff db' sid s = false) ∧
    (∀ rid run, db_runs db !! rid = Some run →
       (db_runs db' !! rid = None ↔ r_finished_at run < run_cutoff ∧
          ∀ sid s, db_snaps db' !! sid = Some s → s_run s ≠ Some rid)) ∧
    (∀ pid p, db_permits db' !! pid = Some p ↔ db_permits db !! pid = Some p ∧ pr_Now r < pm_expires_at p).
Proof.
  intros W%reachable_wf [Hb1 Hb2] Hs Hr Hn cutoff run_cutoff. unfold Prune.
  replace ((pr_BatchSize r <=? 0) || (5000 <? pr_BatchSize r)) with false
    by (symmetry; apply orb_false_iff; split; [apply Z.leb_gt|apply Z.ltb_ge]; lia).
  replace ((pr_SnapshotRetention r <=? 0) || (pr_RunRetention r <=? 0) || time_IsZero (pr_Now r)) with false
    by (symmetry; apply orb_false_iff; split; [apply orb_false_iff; split; apply Z.leb_gt; lia|
        by apply Z.eqb_neq]).
  assert (Ec : time_Add (pr_Now r) (- pr_SnapshotRetention r) = cutoff) by (unfold time_Add, cutoff; lia).
  assert (Ec' : time_Add (pr_Now r) (- pr_RunRetention r) = run_cutoff) by (unfold time_Add, run_cutoff; lia).
  rewrite Ec, Ec'.
  destruct (prune_snap_loop_spec (S (size (db_snaps db))) cutoff (pr_BatchSize r) db 0 W Hb1)
    as (snaps' & n1 & -> & Hs1 & Hs2 & Hs3); [lia|]. cbn -[prune_run_loop].
  destruct (prune_run_loop_spec (S (size (db_runs db))) run_cutoff (pr_BatchSize r) (set_snaps snaps' db) 0 Hb1)
    as (runs' & n2 & -> & Hr1 & Hr2); [cbn; lia|]. cbn.
  eexists _, _. split; [done|]. cbn. split_and!; try done.
  - intros rid run Hrid. rewrite (Hr2 rid run Hrid). unfold prunable_run. cbn. rewrite <- Z.ltb_lt.
    destruct (r_finished_at run <? run_cutoff); cbn; [|by split; [|intros [? _]]].
    case_bool_decide as Hm; split; try done.
    intros [_ Hall]. destruct Hm. intros sid s Hsid. by eapply Hall.
  - intros pid p. rewrite map_lookup_filter_Some. cbn. split; intros [? ?]; split; try done; lia.
Qed.
End maintenance.

(** * Reading the outbox *)

Definition by_sequence (a b : CommitEvent) : Prop := ce_Sequence a < ce_Sequence b.

(** Every event after a checkpoint, in order. *)
Definition all_after (after : Z) (db : DB) : list CommitEvent :=
  sort_stable less_sequence (events_after after db).

(** The checkpoint a consumer stores after a page. *)
Definition page_checkpoint (after : Z) (page : list CommitEvent) : Z :=
  match last page with Some e => ce_Sequence e | None => after end.

Lemma not_after_sequence a b : not_after less_sequence a b ↔ ce_Sequence a ≤ ce_Sequence b.
Proof.
  unfold not_after, less_sequence, lex_by, no_less.
  case_bool_decide; rewrite ?Z.ltb_ge; split; intros; try done; lia.
Qed.

Lemma elem_of_events_after after db e :
  e ∈ events_after after db ↔
  ∃ q r, db_events db !! q = Some r ∧ after < q ∧ e = commit_event q r.
Proof.
  unfold events_after. rewrite list_elem_of_fmap. split.
  - intros ([q r] & -> & Hin). apply list_elem_of_filter in Hin as [Hq Hin].
    apply elem_of_map_to_list in Hin. by exists q, r.
  - intros (q & r & Hr & Hq & ->). exists (q, r). split; [done|]. apply list_elem_of_filter.
    split; [done|]. by apply elem_of_map_to_list.
Qed.

Lemma events_after_NoDup after db : NoDup (map ce_Sequence (events_after after db)).
Proof.
  unfold events_after. rewrite map_map. cbn [ce_Sequence commit_event].
  pose proof (NoDup_fst_map_to_list (db_events db)) as Hnd.
  induction (map_to_list (db_events db)) as [|[q r] l IH]; [constructor|].
  apply NoDup_cons in Hnd as [Hq Hnd]. rewrite filter_cons. case_decide; [|by apply IH].
  cbn. apply NoDup_cons. split; [|by apply IH]. intros Hin. apply Hq.
  apply list_elem_of_fmap in Hin as (x & -> & Hx). apply list_elem_of_filter in Hx as [_ Hx].
  apply list_elem_of_fmap. by exists x.
Qed.

Lemma StronglySorted_strict l :
  StronglySorted (not_after less_sequence) l → NoDup (map ce_Sequence l) → StronglySorted by_sequence l.
Proof.
  induction 1 as [|e l Hl IH He]; intros Hnd; cbn in *; constructor.
  - apply IH. by apply NoDup_cons in Hnd as [_ ?].
  - apply NoDup_cons in Hnd as [Hn _]. rewrite Forall_forall in *. intros x Hx.
    pose proof (proj1 (not_after_sequence _ _) (He x Hx)). unfold by_sequence.
    assert (ce_Sequence x ≠ ce_Sequence e); [|lia].
    intros E. apply Hn. rewrite <- E. apply list_elem_of_fmap. by exists x.
Qed.

Lemma all_after_sorted after db : StronglySorted by_sequence (all_after after db).
Proof.
  apply StronglySorted_strict; [apply sort_stable_sorted; apply _|].
  unfold all_after. rewrite sort_stable_perm. apply events_after_NoDup.
Qed.

(** Past the last sequence of a prefix of a strictly sorted list comes its rest. *)
Lemma filter_past l1 l2 e :
  StronglySorted by_sequence (l1 ++ l2) → last l1 = Some e →
  filter (λ x, ce_Sequence e < ce_Sequence x) (l1 ++ l2) = l2.
Proof.
  intros Hs Hl. apply last_Some in Hl as [l0 ->]. rewrite filter_app.
  assert (H1 : Forall (λ x, ce_Sequence x ≤ ce_Sequence e) (l0 ++ [e])).
  { clear -Hs. induction l0 as [|a l0 IH]; cbn in *; [by constructor|].
    apply StronglySorted_inv in Hs as [Hs Ha]. constructor; [|by apply IH].
    rewrite Forall_forall in Ha. assert (by_sequence a e); [|unfold by_sequence in *; lia].
    apply Ha. rewrite !elem_of_app, list_elem_of_singleton. auto. }
  assert (H2 : Forall (λ x, ce_Sequence e < ce_Sequence x) l2).
  { clear -Hs. induction l0 as [|a l0 IH]; cbn in *.
    - by apply StronglySorted_inv in Hs as [_ ?].
    - apply StronglySorted_inv in Hs as [Hs _]. by apply IH. }
  rewrite (filter_all _ l2) by done. rewrite filter_none; [done|].
  eapply Forall_impl; [exact H1|]. cbn. lia.
Qed.

Lemma events_after_filter after c db :
  after ≤ c → events_after c db ≡ₚ filter (λ x, c < ce_Sequence x) (events_after after db).
Proof.
  intros Hc. apply NoDup_Permutation.
  - eapply (NoDup_fmap_1 ce_Sequence), events_after_NoDup.
  - apply NoDup_filter. eapply (NoDup_fmap_1 ce_Sequence), events_after_NoDup.
  - intros e. rewrite list_elem_of_filter, !elem_of_events_after. split.
    + intros (q & r & Hr & Hq & ->). split; [done|]. exists q, r. split_and!; try done. lia.
    + intros [Hs (q & r & Hr & Hq & ->)]. exists q, r. by split_and!.
Qed.

Section outbox.
Context `{GoLib, Postgres}.

(** Catching up from the outbox loses nothing.  A page of missed events is in
    sequence order and within the limit, and the events after the page's last
    sequence are exactly those the page left out: reading page after page delivers
    every event after the checkpoint once, in commit order. *)
Lemma MissedEvents_pages after limit db :
  let page := MissedEvents after limit db in
  StronglySorted by_sequence page ∧ (length page ≤ Z.to_nat (default_limit limit))%nat ∧
  page ++ all_after (page_checkpoint after page) db = all_after after db ∧
  (page = [] → all_after after db = []).
Proof.
  cbv zeta. unfold MissedEvents. fold (all_after after db).
  set (n := Z.to_nat (default_limit limit)).
  assert (Hn : (0 < n)%nat).
  { unfold n, default_limit. destruct (limit <=? 0) eqn:E; bool_to_prop; lia. }
  pose proof (all_after_sorted after db) as Hs. split_and!.
  - rewrite <- (take_drop n (all_after after db)) in Hs.
    by apply StronglySorted_app_1_l in Hs.
  - rewrite length_take. lia.
  - rewrite <- (take_drop n (all_after after db)) at 3. f_equal. unfold page_checkpoint.
    destruct (last (take n (all_after after db))) as [e|] eqn:El.
    + rewrite <- (take_drop n (all_after after db)) in Hs.
      pose proof (filter_past _ _ _ Hs El) as Hf. rewrite take_drop in Hf.
      assert (Hae : after ≤ ce_Sequence e).
      { apply last_Some_elem_of in El. apply elem_of_take in El as (k & Hk & _). apply list_elem_of_lookup_2 in Hk.
        unfold all_after in Hk. rewrite sort_stable_perm in Hk.
        apply elem_of_events_after in Hk as (q & r & _ & ? & ->). cbn. lia. }
      assert (Hp : all_after (ce_Sequence e) db ≡ₚ drop n (all_after after db)).
      { rewrite <- Hf. unfold all_after at 1. rewrite sort_stable_perm, (events_after_filter after) by done.
        unfold all_after. by rewrite sort_stable_perm. }
      assert (Hnd : NoDup (map ce_Sequence (all_after (ce_Sequence e) db))).
      { unfold all_after. rewrite sort_stable_perm. apply events_after_NoDup. }
      apply (sorted_unique less_sequence); [| | |done].
      * intros x y Hx Hy Hxy Hyx. apply not_after_sequence in Hxy, Hyx.
        apply list_elem_of_lookup in Hx as [i Hi]. apply list_elem_of_lookup in Hy as [j Hj].
        assert (i = j) as ->; [|congruence].
        eapply NoDup_lookup; [exact Hnd| |]; rewrite list_lookup_fmap, ?Hi, ?Hj; cbn; [done|f_equal; lia].
      * apply sort_stable_sorted. apply _.
      * apply StronglySorted_app_1_r in Hs. clear -Hs. induction Hs as [|a l Hl IH Ha]; constructor; [done|].
        eapply Forall_impl; [exact Ha|]. intros x Hx. apply not_after_sequence. unfold by_sequence in Hx. lia.
    + apply last_None in El. destruct (all_after after db) as [|a l] eqn:Ea; [|destruct n; [lia|done]].
      by rewrite drop_nil.
  - intros Hnil. destruct (all_after after db); [done|]. destruct n; [lia|done].
Qed.
End outbox.
