(* ===== verification/HostSpec.v ===== *)
(** The host limiter respects its bounds: the float64 arithmetic never leaves the ranges
    the schema checks, a permit is granted only under the concurrency limit, with a
    token and outside a pause, and back-off and recovery move the limits the right way. *)

From stdpp Require Import base list numbers strings gmap sorting.
From Stdlib Require Import ZArith QArith Qround Lia Lqa.
From S2P Require Import Prelude Float64 Domain Canonical Tables HostState.

Local Open Scope Z_scope.
Local Open Scope stdpp_scope.
Local Open Scope go_scope.

(** What the code relies on of the conversion of a float8 to a NUMERIC column: it is
    monotone, and a NUMERIC value of at most twelve digits read as float8 and written
    back is unchanged. *)
Class PostgresLaws `{Postgres} : Prop := {
  numeric_mono : ∀ k x y, 0 < k → (x <= y)%Q → numeric_of_float8 k x ≤ numeric_of_float8 k y;
  numeric_exact : ∀ k n, k = 1000%positive ∨ k = 1000000%positive → 0 ≤ n ≤ 10 ^ 12 →
    numeric_of_float8 (Z.pos k) (rne (n # k)) = n
}.

Lemma scaled_int z k : (z * Z.pos k # k == inject_Z z)%Q.
Proof. unfold Qeq, inject_Z. cbn. lia. Qed.

Section laws.
Context `{PostgresLaws}.

Lemma numeric_proper k x y : 0 < k → (x == y)%Q → numeric_of_float8 k x = numeric_of_float8 k y.
Proof.
  intros Hk E. apply Z.le_antisymm; apply numeric_mono; try done; rewrite E; apply Qle_refl.
Qed.

Lemma numeric_int k z :
  k = 1000%positive ∨ k = 1000000%positive → 0 ≤ z ≤ 10 ^ 6 →
  numeric_of_float8 (Z.pos k) (inject_Z z) = z * Z.pos k.
Proof.
  intros Hk Hz. rewrite <- (numeric_exact k (z * Z.pos k) Hk) by (destruct Hk as [-> | ->]; lia).
  apply numeric_proper; [done|]. rewrite scaled_int. symmetry. apply rne_int. lia.
Qed.

Lemma numeric_between k x lo hi :
  k = 1000%positive ∨ k = 1000000%positive → 0 ≤ lo ≤ 10 ^ 6 → 0 ≤ hi ≤ 10 ^ 6 →
  (inject_Z lo <= x)%Q → (x <= inject_Z hi)%Q →
  lo * Z.pos k ≤ numeric_of_float8 (Z.pos k) x ≤ hi * Z.pos k.
Proof.
  intros Hk Hlo Hhi H1 H2. rewrite <- (numeric_int k lo), <- (numeric_int k hi) by done.
  split; apply numeric_mono; done.
Qed.
End laws.

(** * Rates *)

Lemma rne_quarter : (rne quarter == quarter)%Q.
Proof. vm_compute. reflexivity. Qed.

Lemma rps_float_ge n : 250 ≤ n → (quarter <= rps_float n)%Q.
Proof.
  intros Hn. rewrite <- rne_quarter. apply rne_mono. unfold quarter, Qle. cbn. lia.
Qed.

Lemma rps_float_le n m : n ≤ 1000 * m → 0 ≤ m ≤ 1000 → (rps_float n <= inject_Z m)%Q.
Proof.
  intros Hn Hm. unfold rps_float. apply rne_le_int; [lia|]. unfold Qle, inject_Z. cbn. lia.
Qed.

Lemma rps_float_pos n : 250 ≤ n → (0 < n # 1000)%Q.
Proof. intros Hn. unfold Qlt. cbn. lia. Qed.

Lemma halved_bounds h :
  250 ≤ current_rps h ≤ 5000 →
  (quarter <= halved_rps h ∧ halved_rps h <= rps_float (current_rps h))%Q.
Proof.
  intros Hn. unfold halved_rps. set (n := current_rps h) in *.
  pose proof (rps_float_ge n (proj1 Hn)) as H1.
  assert (H2 : (fdiv (rps_float n) 2 <= rps_float n)%Q).
  { unfold rps_float. rewrite rne_half.
    2:{ assert (E : (p2 (-2) == quarter)%Q) by (vm_compute; reflexivity). rewrite E.
        unfold quarter, Qle. cbn. lia. }
    change (rne (n # 1000)) with (rps_float n). unfold Qdiv. change (/ 2)%Q with (1 # 2)%Q.
    unfold quarter in *. lra. }
  destruct (flt (fdiv (rps_float n) 2) quarter) eqn:E.
  - split; [apply Qle_refl|done].
  - split; [|done]. unfold flt in E. apply negb_false_iff in E. by apply Qle_bool_iff.
Qed.

(** * Tokens *)

Lemma refill_bounds h now :
  1 ≤ burst h ≤ 5 → (0 <= refillTokens h now ∧ refillTokens h now <= inject_Z (burst h))%Q.
Proof.
  intros Hb. unfold refillTokens. set (x := fadd _ _).
  assert (Eb : (f_of_int (burst h) == inject_Z (burst h))%Q) by (apply f_of_int_exact; lia).
  assert (Hb0 : (0 <= inject_Z (burst h))%Q) by (change 0%Q with (inject_Z 0); rewrite <- Zle_Qle; lia).
  assert (Hy : ((if fgt x (f_of_int (burst h)) then f_of_int (burst h) else x) <= inject_Z (burst h))%Q).
  { destruct (fgt x _) eqn:E; [rewrite Eb; apply Qle_refl|]. apply fgt_false in E. by rewrite Eb in E. }
  set (y := if fgt x _ then _ else _) in *. clearbody y. clear x.
  destruct (flt y 0) eqn:E; [split; [apply Qle_refl|done]|].
  unfold flt in E. apply negb_false_iff, Qle_bool_iff in E. done.
Qed.

Section tokens.
Context `{PostgresLaws}.

Lemma stored_tokens x b :
  1 ≤ b ≤ 5 → (0 <= x)%Q → (x <= inject_Z b)%Q → 0 ≤ numeric_of_float8 1000000 x ≤ 1000000 * b.
Proof.
  intros Hb Hx0 Hx1.
  pose proof (numeric_between 1000000 x 0 b (or_intror eq_refl)) as Hn.
  destruct Hn; done || lia.
Qed.

Lemma capped_ok h now : 1 ≤ burst h ≤ 5 → 0 ≤ capped_tokens h (refillTokens h now) ≤ 1000000 * burst h.
Proof.
  intros Hb. unfold capped_tokens. destruct (refill_bounds h now Hb) as [Hl Hu].
  pose proof (stored_tokens _ _ Hb Hl Hu). lia.
Qed.

Lemma rps_stored n : 250 ≤ n ≤ 5000 → numeric_of_float8 1000 (rps_float n) = n.
Proof. intros Hn. apply (numeric_exact 1000); [by left|lia]. Qed.

Lemma quarter_stored : numeric_of_float8 1000 quarter = 250.
Proof.
  rewrite <- (numeric_exact 1000 250) by (by left || lia).
  apply numeric_proper; [done|]. rewrite <- rne_quarter. reflexivity.
Qed.

Lemma halved_stored h :
  250 ≤ current_rps h ≤ 5000 → 250 ≤ numeric_of_float8 1000 (halved_rps h) ≤ current_rps h.
Proof.
  intros Hr. destruct (halved_bounds h Hr) as [Hl Hu]. split.
  - rewrite <- quarter_stored. by apply numeric_mono.
  - etransitivity; [by apply numeric_mono|]. by rewrite rps_stored.
Qed.

(** The additive increase is capped by the baseline and never a decrease. *)
Lemma raised_stored h :
  250 ≤ current_rps h ≤ 5000 → 250 ≤ baseline_rps h ≤ 5000 →
  let raised := fadd (rps_float (current_rps h)) quarter in
  let raised := if fgt raised (rps_float (baseline_rps h)) then rps_float (baseline_rps h) else raised in
  250 ≤ numeric_of_float8 1000 raised ≤ baseline_rps h ∧
  (current_rps h ≤ baseline_rps h → current_rps h ≤ numeric_of_float8 1000 raised).
Proof.
  intros Hc Hb. cbv zeta. set (x := fadd _ _).
  assert (Hx : (rps_float (current_rps h) <= x)%Q).
  { unfold x, fadd, rps_float. rewrite <- (rne_idemp (current_rps h # 1000)) at 1
      by (apply rps_float_pos; lia).
    apply rne_mono. unfold quarter. lra. }
  pose proof (rps_float_ge _ (proj1 Hc)) as Hc1. pose proof (rps_float_ge _ (proj1 Hb)) as Hb1.
  assert (Hcb : current_rps h ≤ baseline_rps h → (rps_float (current_rps h) <= rps_float (baseline_rps h))%Q).
  { intros. apply rne_mono. unfold Qle. cbn. lia. }
  set (y := if fgt x _ then _ else _).
  assert (Hy : (quarter <= y)%Q ∧ (y <= rps_float (baseline_rps h))%Q ∧
    (current_rps h ≤ baseline_rps h → rps_float (current_rps h) <= y)%Q).
  { unfold y. destruct (fgt x _) eqn:E; [|apply fgt_false in E]; split_and!; intros; try done; auto;
      try apply Qle_refl. eapply Qle_trans; [exact Hc1|exact Hx]. }
  destruct Hy as (Hy1 & Hy2 & Hy3). split; [split|].
  - rewrite <- quarter_stored. by apply numeric_mono.
  - etransitivity; [by apply numeric_mono|]. by rewrite rps_stored.
  - intros Hcb'. rewrite <- (rps_stored (current_rps h)) at 1 by done. apply numeric_mono; [done|auto].
Qed.
End tokens.

(** * ObserveHost *)

Lemma host_check_inv h :
  host_check h = true →
  250 ≤ baseline_rps h ≤ 5000 ∧ 250 ≤ current_rps h ≤ 5000 ∧ 1 ≤ burst h ≤ 5 ∧
  0 ≤ available_tokens h ≤ 1000000 * burst h ∧ 1 ≤ baseline_concurrency h ≤ 4 ∧
  1 ≤ current_concurrency h ≤ 4 ∧ 0 ≤ consecutive_429s h < 2 ^ 31 ∧ 0 ≤ healthy_streak h < 2 ^ 31.
Proof. unfold host_check, int4. intros E. bool_to_prop. lia. Qed.

Lemma host_check_intro h :
  250 ≤ baseline_rps h ≤ 5000 → 250 ≤ current_rps h ≤ 5000 → 1 ≤ burst h ≤ 5 →
  0 ≤ available_tokens h ≤ 1000000 * burst h → 1 ≤ baseline_concurrency h ≤ 4 →
  1 ≤ current_concurrency h ≤ 4 → 0 ≤ consecutive_429s h < 2 ^ 31 → 0 ≤ healthy_streak h < 2 ^ 31 →
  host_check h = true.
Proof.
  intros. unfold host_check, int4.
  repeat (apply andb_true_iff; split); first [apply Z.leb_le|apply Z.ltb_lt]; lia.
Qed.

(** The clock of the bucket at an observation or a request. *)
Definition bucket_clock (h : HostRow) (at_ : Z) : Z := Z.max at_ (tokens_updated_at h).

Lemma bucket_clock_eq h at_ :
  (if time_Before at_ (tokens_updated_at h) then tokens_updated_at h else at_) = bucket_clock h at_.
Proof.
  unfold time_Before, bucket_clock. destruct (at_ <? tokens_updated_at h) eqn:E; bool_to_prop; lia.
Qed.

(** How an observation moves the limits of a host. *)
Definition adjusts (o : HostObservation) (h h' : HostRow) : Prop :=
  let at_ := bucket_clock h (ho_ObservedAt o) in
  match ho_Outcome o with
  | RRateLimited =>
      current_rps h' ≤ current_rps h ∧ current_concurrency h' = 1 ∧ healthy_streak h' = 0 ∧
      ∃ until, paused_until h' = Some until ∧ at_ + 15 * Minute ≤ until ∧ at_ + ho_RetryAfter o ≤ until ∧
        (∀ last, last_429_at h = Some last → 0 ≤ at_ - last ≤ Hour → at_ + Hour ≤ until)
  | RAuthError => paused_until h' = Some (at_ + 15 * Minute) ∧ current_rps h' = current_rps h ∧
      current_concurrency h' = current_concurrency h
  | RChanged | RUnchanged | RNotModified =>
      (healthy_streak h + 1 < 20 → current_rps h' = current_rps h ∧
         current_concurrency h' = current_concurrency h ∧ healthy_streak h' = healthy_streak h + 1) ∧
      (20 ≤ healthy_streak h + 1 → healthy_streak h' = 0 ∧ current_rps h' ≤ baseline_rps h ∧
         current_concurrency h' = Z.min (baseline_concurrency h) (current_concurrency h + 1) ∧
         (current_rps h ≤ baseline_rps h → current_rps h ≤ current_rps h'))
  | RTransientError =>
      current_rps h' ≤ current_rps h ∧ current_concurrency h' ≤ current_concurrency h ∧
      (ho_ConsecutiveFailures o ≠ 3 → current_rps h' = current_rps h ∧
         current_concurrency h' = current_concurrency h)
  | _ => current_rps h' = current_rps h ∧ current_concurrency h' = current_concurrency h ∧
      paused_until h' = paused_until h
  end.

Section observe.
Context `{PostgresLaws} (o : HostObservation) (h : HostRow).
Hypothesis Hck : host_check h = true.
Let at_ := bucket_clock h (ho_ObservedAt o).
Let available := refillTokens h at_.

Lemma rate_limited_ok :
  consecutive_429s h + 1 < 2 ^ 31 →
  host_check (observe_rate_limited o h at_ available) = true.
Proof.
  intros H429. destruct (host_check_inv _ Hck) as (Hb & Hr & Hbu & Ht & Hbc & Hc & H4 & Hs).
  pose proof (capped_ok h at_ Hbu). pose proof (halved_stored _ Hr).
  apply host_check_intro; cbn -[refillTokens]; unfold available; lia.
Qed.

Lemma rate_limited_pause :
  ∃ until, paused_until (observe_rate_limited o h at_ available) = Some until ∧
    at_ + 15 * Minute ≤ until ∧ at_ + ho_RetryAfter o ≤ until ∧
    (∀ last, last_429_at h = Some last → 0 ≤ at_ - last ≤ Hour → at_ + Hour ≤ until).
Proof.
  unfold observe_rate_limited. cbn -[refillTokens Minute Hour]. eexists. split; [done|].
  set (p := if 15 * Minute <? _ then _ else _).
  assert (Hp : 15 * Minute ≤ p ∧ ho_RetryAfter o ≤ p).
  { unfold p. destruct (_ <? _) eqn:E; bool_to_prop; lia. }
  set (q := match last_429_at h with Some _ => _ | None => _ end).
  assert (Hq : p ≤ q ∧ (∀ last, last_429_at h = Some last → 0 ≤ at_ - last ≤ Hour → Hour ≤ q)).
  { unfold q. destruct (last_429_at h) as [l|]; [|done].
    assert (Hin : 0 ≤ at_ - l ≤ Hour → time_Sub at_ l ≤ Hour).
    { intros Hl. unfold time_Sub. rewrite clamp64_id; [lia|].
      unfold in_int64, min_int64, max_int64, Hour, Minute, Second in *. lia. }
    destruct (time_Sub at_ l <=? Hour) eqn:E1, (p <? Hour) eqn:E2; cbn [andb]; bool_to_prop;
      (split; [lia|]); intros l' [= <-] Hl; specialize (Hin Hl); lia. }
  unfold time_Add. destruct Hq as [Hq1 Hq2]. split_and!; [lia|lia|].
  intros l El Hl. specialize (Hq2 l El Hl). lia.
Qed.

Lemma auth_error_ok : host_check (observe_auth_error h at_ available) = true.
Proof.
  destruct (host_check_inv _ Hck) as (Hb & Hr & Hbu & Ht & Hbc & Hc & H4 & Hs).
  pose proof (capped_ok h at_ Hbu). apply host_check_intro; cbn -[refillTokens]; unfold available; lia.
Qed.

Lemma other_ok : host_check (observe_other h at_ available) = true.
Proof.
  destruct (host_check_inv _ Hck) as (Hb & Hr & Hbu & Ht & Hbc & Hc & H4 & Hs).
  pose proof (capped_ok h at_ Hbu). apply host_check_intro; cbn -[refillTokens]; unfold available; lia.
Qed.

Lemma transient_ok :
  host_check (observe_transient o h at_ available) = true ∧
  current_rps (observe_transient o h at_ available) ≤ current_rps h ∧
  current_concurrency (observe_transient o h at_ available) ≤ current_concurrency h ∧
  (ho_ConsecutiveFailures o ≠ 3 →
     current_rps (observe_transient o h at_ available) = current_rps h ∧
     current_concurrency (observe_transient o h at_ available) = current_concurrency h).
Proof.
  destruct (host_check_inv _ Hck) as (Hb & Hr & Hbu & Ht & Hbc & Hc & H4 & Hs).
  pose proof (capped_ok h at_ Hbu). pose proof (halved_stored _ Hr). pose proof (rps_stored _ Hr) as Hrs.
  unfold observe_transient. destruct (ho_ConsecutiveFailures o =? 3) eqn:E3,
    (current_concurrency h - 1 <? 1) eqn:E1; bool_to_prop; cbn -[refillTokens]; rewrite ?Hrs;
    split_and!; try lia; (apply host_check_intro; cbn -[refillTokens]; unfold available; lia).
Qed.

Lemma success_ok :
  let h' := observe_success h at_ available in
  host_check h' = true ∧
  (healthy_streak h + 1 < 20 → current_rps h' = current_rps h ∧
     current_concurrency h' = current_concurrency h ∧ healthy_streak h' = healthy_streak h + 1) ∧
  (20 ≤ healthy_streak h + 1 → healthy_streak h' = 0 ∧ current_rps h' ≤ baseline_rps h ∧
     current_concurrency h' = Z.min (baseline_concurrency h) (current_concurrency h + 1) ∧
     (current_rps h ≤ baseline_rps h → current_rps h ≤ current_rps h')).
Proof.
  destruct (host_check_inv _ Hck) as (Hb & Hr & Hbu & Ht & Hbc & Hc & H4 & Hs).
  pose proof (capped_ok h at_ Hbu). pose proof (raised_stored h Hr Hb) as Hra. cbv zeta in Hra.
  pose proof (rps_stored _ Hr) as Hrs. cbv zeta. unfold observe_success. cbv zeta.
  set (raised := if fgt _ _ then _ else _) in *. clearbody raised.
  destruct (20 <=? healthy_streak h + 1) eqn:E20,
    (baseline_concurrency h <? current_concurrency h + 1) eqn:E1; bool_to_prop; cbn -[refillTokens];
    rewrite ?Hrs; split_and!; try lia; (apply host_check_intro; cbn -[refillTokens]; unfold available; lia).
Qed.

(** Observing a host never fails on a valid row and never breaks its limits: the
    rate stays between 0.25 and 5 requests per second, the tokens between 0 and the
    burst, the concurrency between 1 and 4, the bucket's clock does not run
    backwards, and the limits move as the outcome demands (halved and paused after a
    429, restored by steps after twenty successes, halved on a third transient
    failure). *)
Lemma ObserveHost_spec db :
  db_hosts db !! ho_Host o = Some h → blank (ho_Host o) = false → ho_ObservedAt o ≠ 0 →
  consecutive_429s h + 1 < 2 ^ 31 →
  ∃ h', ObserveHost o db = Ok (set_hosts (<[ho_Host o := h']> (db_hosts db)) db) ∧
    host_check h' = true ∧ tokens_updated_at h ≤ tokens_updated_at h' ∧ adjusts o h h'.
Proof.
  intros Hh Hbl Hz H429. unfold ObserveHost. rewrite Hbl, Hh.
  replace (time_IsZero _) with false by (symmetry; by apply Z.eqb_neq).
  cbn [orb]. rewrite bucket_clock_eq. fold at_. fold available.
  assert (Hclk : tokens_updated_at h ≤ at_) by (unfold at_, bucket_clock; lia).
  destruct (host_check_inv _ Hck) as (_ & Hr & _).
  pose proof success_ok as (Hs1 & Hs2 & Hs3). pose proof transient_ok as (Ht1 & Ht2 & Ht3 & Ht4).
  pose proof other_ok as Ho. pose proof auth_error_ok as Ha. pose proof (rate_limited_ok H429) as Hrl.
  unfold write_host, adjusts. fold at_. destruct (ho_Outcome o);
    rewrite ?Hs1, ?Ht1, ?Ho, ?Ha, ?Hrl; eexists; (split; [done|]); (split; [done|]); (split; [done|]); try by split_and!.
  split; [exact (proj2 (halved_stored _ Hr))|]. split_and!; try done. exact rate_limited_pause.
Qed.
End observe.

(** * Permits *)

Definition active_map (host : string) (now : Z) (m : gmap Z PermitRow) : gmap Z PermitRow :=
  filter (λ kv, pm_host kv.2 = host ∧ now < pm_expires_at kv.2) m.

Lemma active_count db host now :
  length (active_permits db host now) = size (active_map host now (db_permits db)).
Proof.
  unfold active_permits, active_map. rewrite length_map.
  rewrite <- length_map_to_list. apply Permutation_length. symmetry. apply map_to_list_filter.
Qed.

Lemma active_drop_expired db host now :
  active_map host now (db_permits (drop_expired host now db)) = active_map host now (db_permits db).
Proof.
  unfold active_map, drop_expired. cbn. rewrite map_filter_filter.
  apply map_filter_ext. intros i p _. cbn. split; [tauto|]. intros [? ?]. split; [done|]. lia.
Qed.

Section permits.
Context `{Postgres}.

Lemma write_host_inv host h db db' :
  write_host host h db = Ok db' → host_check h = true ∧ db' = set_hosts (<[host := h]> (db_hosts db)) db.
Proof. unfold write_host. destruct (host_check h); [|done]. by intros [= <-]. Qed.

Lemma insert_permit_inv p db db' id :
  insert_permit p db = Ok (db', id) →
  id = q_permit (db_seqs db) + 1 ∧ db_hosts db' = db_hosts db ∧
  db_permits db' = <[q_permit (db_seqs db) + 1 := p]> (db_permits db) ∧ pm_acquired_at p < pm_expires_at p.
Proof.
  unfold insert_permit. destruct (_ || _) eqn:E; [done|]. intros [= <- <-]. bool_to_prop. by split_and!.
Qed.

(** What a granted permit was granted on. *)
Lemma grant_inv r db db' p :
  AcquireHostPermit r db = Ok (db', permit_decision p) →
  existing_permit db (ar_TargetID r) (ar_LeaseGeneration r) (ar_Now r) = None →
  db_permits db !! (q_permit (db_seqs db) + 1) = None →
  ∃ h, db_hosts db !! ar_Host r = Some h ∧
    let now := bucket_clock h (ar_Now r) in
    let active := length (active_permits db (ar_Host r) now) in
    (∃ t, db_targets db !! ar_TargetID r = Some t ∧ ref_Host (t_ref t) = ar_Host r ∧
       lease_generation (t_lease t) = ar_LeaseGeneration r) ∧
    (∀ u, paused_until h = Some u → u ≤ now) ∧
    Z.of_nat active < current_concurrency h ∧ (1 <= refillTokens h now)%Q ∧
    db_hosts db' !! ar_Host r =
      Some (set_tokens (numeric_of_float8 1000000 (fsub (refillTokens h now) 1)) now h) ∧
    hp_ExpiresAt p = now + ar_TTL r ∧
    length (active_permits db' (ar_Host r) now) = S active.
Proof.
  intros E Hex Hfresh. unfold AcquireHostPermit in E.
  destruct (_ || _); [done|]. cbn [result_bind guard_err] in E.
  destruct (_ || _ || _ || _); [done|]. cbn [result_bind guard_err] in E. rewrite Hex in E.
  destruct (db_hosts db !! ar_Host r) as [h|] eqn:Hh; [|done]. exists h. split; [done|].
  rewrite bucket_clock_eq in E. set (now := bucket_clock h (ar_Now r)) in *. cbv zeta.
  destruct (permit_fence r _) eqn:Ef; cbn [negb] in E; [|done].
  unfold decide_permit in E. destruct (paused_at h now) eqn:Ep; [done|]. cbv zeta in E.
  rewrite active_count, active_drop_expired, <- active_count in E.
  destruct (_ <=? Z.of_nat _) eqn:Ec; [by destruct (persistTokens _ _ _ _ _)|].
  destruct (flt _ 1) eqn:Et; [by destruct (persistTokens _ _ _ _ _)|].
  destruct (persistTokens _ _ _ _ _) as [db1|] eqn:Ew; [|done]. cbn [result_bind] in E.
  apply write_host_inv in Ew as (Hck & ->).
  destruct (insert_permit _ _) as [[db2 id]|] eqn:Ei; [|done]. cbn [result_bind] in E.
  apply insert_permit_inv in Ei as (-> & Ehosts & Eperms & Hlt). simplify_eq/=. bool_to_prop.
  split_and!.
  - unfold permit_fence, drop_expired in Ef. cbn in Ef.
    destruct (db_targets db !! ar_TargetID r) as [t|] eqn:Ett; [|done]. bool_to_prop. by exists t.
  - intros u Hu. unfold paused_at in Ep. rewrite Hu in Ep. unfold time_After in Ep. bool_to_prop. lia.
  - lia.
  - unfold flt in Et. apply negb_false_iff in Et. by apply Qle_bool_iff.
  - rewrite Ehosts. cbn. apply lookup_insert_eq.
  - done.
  - rewrite !active_count, Eperms. unfold active_map at 1.
    rewrite map_filter_insert_True by (cbn; unfold time_Add in *; split; [done|lia]).
    change (filter _ _) with (active_map (ar_Host r) now (db_permits (drop_expired (ar_Host r) now db))).
    rewrite active_drop_expired.
    apply map_size_insert_None. apply map_lookup_filter_None. by left.
Qed.
End permits.
