(* ===== verification/Permits.v ===== *)
(** The permits of a host over the whole life of the store: on every reachable store at
    most four requests to a host are in flight. *)

From stdpp Require Import base list numbers strings gmap sorting.
From Stdlib Require Import ZArith QArith Lia.
From S2P Require Import Prelude Float64 Sanitize Domain Canonical Tables Leases Lifecycle Reads Commit.
From S2P Require Import HostState Maintenance Store CommitSpec System HostSpec.

Local Open Scope Z_scope.
Local Open Scope stdpp_scope.
Local Open Scope go_scope.

(** * The invariant *)

Definition bounded_host (db : DB) (host : string) (h : HostRow) : Prop :=
  (size (active_map host (tokens_updated_at h) (db_permits db)) ≤ 4)%nat.

Record permits_wf (db : DB) : Prop := {
  pw_ids : ∀ id p, db_permits db !! id = Some p → id ≤ q_permit (db_seqs db) ∧ is_Some (db_hosts db !! pm_host p);
  pw_bound : ∀ host h, db_hosts db !! host = Some h → bounded_host db host h;
  pw_hosts : ∀ host h, db_hosts db !! host = Some h → host_check h = true
}.

(** A step that grants nothing: permits only disappear, hosts stay and their clocks do
    not run back, and a row that is written satisfies its CHECK. *)
Record permits_frame (db db' : DB) : Prop := {
  pf_permits : db_permits db' ⊆ db_permits db;
  pf_seq : q_permit (db_seqs db') = q_permit (db_seqs db);
  pf_kept : ∀ host h, db_hosts db !! host = Some h →
    ∃ h', db_hosts db' !! host = Some h' ∧ tokens_updated_at h ≤ tokens_updated_at h';
  pf_hosts : ∀ host h', db_hosts db' !! host = Some h' → host_check h' = true ∨ db_hosts db !! host = Some h'
}.

#[export] Instance permits_frame_preorder : PreOrder permits_frame.
Proof.
  split.
  - intros db. split; [done|done| |by right]. intros host h Hh. by exists h.
  - intros a b c [P1 S1 K1 C1] [P2 S2 K2 C2]. split; [by transitivity (db_permits b)|lia| |].
    + intros host h Hh. destruct (K1 _ _ Hh) as (h1 & Hh1 & ?). destruct (K2 _ _ Hh1) as (h2 & Hh2 & ?).
      exists h2. split; [done|lia].
    + intros host h Hh. destruct (C2 _ _ Hh) as [?|?]; [by left|by apply C1].
Qed.

Lemma active_map_mono host now now' (m m' : gmap Z PermitRow) :
  m' ⊆ m → now ≤ now' → active_map host now' m' ⊆ active_map host now m.
Proof.
  intros Hm Hn. apply map_subseteq_spec. intros i p (Hp & ? & ?)%map_lookup_filter_Some. cbn in *.
  apply map_lookup_filter_Some. split; [by eapply lookup_weaken|]. cbn. split; [done|lia].
Qed.

Lemma permits_frame_wf db db' : permits_frame db db' → permits_wf db → permits_wf db'.
Proof.
  intros [Hp Hs Hk Hc] [Hi Hb Hv]. split; [| |intros host h Hh; destruct (Hc _ _ Hh); [done|by eapply Hv]].
  - intros id p Hid. destruct (Hi id p (lookup_weaken _ _ _ _ Hid Hp)) as [? [h Hh]].
    destruct (Hk _ _ Hh) as (h' & Hh' & _). split; [lia|by exists h'].
  - intros host h' Hh'. unfold bounded_host. destruct (db_hosts db !! host) as [h|] eqn:Hh.
    + destruct (Hk _ _ Hh) as (h'' & Hh'' & Hle). rewrite Hh' in Hh''. injection Hh'' as <-.
      etransitivity; [|exact (Hb host h Hh)]. apply map_subseteq_size. by apply active_map_mono.
    + (* a host that was not there has no permits *)
      replace (active_map _ _ _) with (∅ : gmap Z PermitRow); [rewrite map_size_empty; lia|]. symmetry. apply map_empty. intros i.
      apply map_lookup_filter_None. right. intros p Hpi (Eh & _). cbn in Eh.
      destruct (Hi i p (lookup_weaken _ _ _ _ Hpi Hp)) as [_ [h Hh0]]. congruence.
Qed.

(** * The steps *)

Lemma same_tables_frame db db' :
  db_permits db' = db_permits db → q_permit (db_seqs db') = q_permit (db_seqs db) →
  db_hosts db' = db_hosts db → permits_frame db db'.
Proof.
  intros E1 E2 E3. split; [by rewrite E1|done| |]; intros host h Hh; [exists h; by rewrite E3|].
  right. by rewrite <- E3.
Qed.

Lemma update_where_frame p f db db' n : update_where p f db = Ok (db', n) → permits_frame db db'.
Proof. intros E. rewrite (update_where_others _ _ _ _ _ E). by apply same_tables_frame. Qed.

Lemma upsert_all_frame seeds db db' : upsert_all seeds db = Ok db' → permits_frame db db'.
Proof.
  revert db. induction seeds as [|s seeds IH]; intros db E; cbn in E; [by simplify_eq|].
  destruct (upsert_seed s db) as [db1|] eqn:E1; [|done]. cbn in E. transitivity db1; [|by apply IH].
  unfold upsert_seed in E1. destruct (target_check (seed_row s)); [cbn in E1|done]. destruct (find_target _ _) as [[i t]|].
  - destruct (target_check _); simplify_eq. by apply same_tables_frame.
  - destruct (is_none _); [done|]. simplify_eq. by apply same_tables_frame.
Qed.

Section steps.
Context `{GoLib, Postgres}.

Lemma upsertSeeds_frame seeds db db' : upsertSeeds seeds db = Ok db' → permits_frame db db'.
Proof. unfold upsertSeeds. destruct (validate_seeds seeds); [|done]. apply upsert_all_frame. Qed.

(** Inverts one bound statement of a method and closes the frame it leaves. *)
Ltac frame_step E :=
  match type of E with
  | context [update_where ?p ?f ?d] =>
      let Eu := fresh "Eu" in destruct (update_where p f d) as [[? ?]|] eqn:Eu; [|done]; cbn in E;
      apply update_where_frame in Eu
  end.

Lemma applyChildPresence_frame parent seen db db' : applyChildPresence parent seen db = Ok db' → permits_frame db db'.
Proof.
  unfold applyChildPresence. destruct (child_scope parent) as [[ck cp]|]; [|intros; by simplify_eq].
  cbv zeta. set (keys := seen_keys _ _ _ _). clearbody keys. intros E.
  destruct (match keys with [] => Ok db | _ => _ end) as [db1|] eqn:E1; [|done]. cbn in E. frame_step E. simplify_eq.
  transitivity db1; [|done]. destruct keys; [by simplify_eq|]. frame_step E1. by simplify_eq.
Qed.

Lemma ReconcileLifecycle_frame input now db db' : ReconcileLifecycle input now db = Ok db' → permits_frame db db'.
Proof.
  unfold ReconcileLifecycle. destruct (child_scope _) as [[ck cp]|]; [|intros; by simplify_eq].
  cbv zeta. set (keys := seen_keys _ _ _ _). clearbody keys. intros E.
  destruct (upsertSeeds _ db) as [db0|] eqn:E0; [|done]. cbn in E. apply upsertSeeds_frame in E0.
  destruct (match keys with [] => Ok db0 | _ => _ end) as [db1|] eqn:E1; [|done]. cbn in E. frame_step E. simplify_eq.
  transitivity db0; [done|]. transitivity db1; [|done]. destruct keys; [by simplify_eq|]. frame_step E1. by simplify_eq.
Qed.

Lemma insert_candidates_frame cs db db' : insert_candidates cs db = Ok db' → permits_frame db db'.
Proof.
  revert db. induction cs as [|c cs IH]; intros db E; cbn in E; [by simplify_eq|].
  destruct (insertCandidate c db) as [db1|] eqn:E1; [|done]. cbn in E. transitivity db1; [|by apply IH].
  unfold insertCandidate in E1. destruct (_ || _), (candidate_row c); simplify_eq. by apply same_tables_frame.
Qed.

Lemma update_leased_frame input f db db' : update_leased input f db = Ok db' → permits_frame db db'.
Proof. unfold update_leased. intros E. frame_step E. by destruct (_ =? 1); simplify_eq. Qed.

Lemma refresh_current_frame i at_ db : permits_frame db (refresh_current i at_ db).
Proof. destruct (refresh_current_eq i at_ db) as [-> | [sid ->]]; by apply same_tables_frame. Qed.

Lemma write_own_frame input db db' x : write_own input db = Ok (db', x) → permits_frame db db'.
Proof.
  unfold write_own. intros E. destruct (lock_target input db) as [t|]; [|done]. cbn in E.
  destruct (next_validation_seq input t) as [seq|]; [|done]. cbn in E.
  destruct (insert_run _ db) as [[d1 rid]|] eqn:Er; [|done]. cbn in E.
  apply insert_run_inv in Er as (-> & -> & _).
  assert (F1 : permits_frame db (add_run (run_row input seq) db)) by (by apply same_tables_frame).
  destruct (if successfulOutcome _ && _ then _ else Ok _) as [[d2 sid]|] eqn:Es; [|done]. cbn in E.
  assert (F2 : permits_frame (add_run (run_row input seq) db) d2).
  { destruct (_ && _); [|by simplify_eq].
    destruct (jsonb_text _); [|done]. destruct (insert_snapshot _ _) as [[d3 s3]|] eqn:Ei; [|done]. cbn in Es. simplify_eq.
    apply insert_snapshot_inv in Ei as (-> & -> & _). by apply same_tables_frame. }
  destruct (if successfulOutcome _ then _ else update_leased _ _ _) as [d4|] eqn:Eu; [|done]. cbn in E. simplify_eq.
  transitivity (add_run (run_row input seq) db); [done|]. transitivity d2; [done|].
  destruct (successfulOutcome _); [|by eapply update_leased_frame].
  destruct (update_leased _ _ d2) as [d5|] eqn:Eu5; [|done]. cbn in Eu. simplify_eq.
  apply update_leased_frame in Eu5. destruct sid; [done|].
  transitivity d5; [done|apply refresh_current_frame].
Qed.

Lemma Commit_frame input now dbnow db db' res : Commit input now dbnow db = Ok (db', res) → permits_frame db db'.
Proof.
  unfold Commit. intros E. destruct (validateCommit input); [|done]. cbn in E.
  destruct (existingCommitResult _ _ _ _) as [[r|]|]; cbn in E; [by simplify_eq| |done].
  unfold commit_locked in E. destruct (write_own input db) as [[d1 x]|] eqn:E1; [|done]. cbn in E.
  apply write_own_frame in E1. destruct (upsertSeeds _ d1) as [d2|] eqn:E2; [|done]. cbn in E.
  apply upsertSeeds_frame in E2. destruct (insert_candidates _ d2) as [d3|] eqn:E3; [|done]. cbn in E.
  apply insert_candidates_frame in E3.
  destruct (if _ && _ then applyChildPresence _ _ _ else _) as [d4|] eqn:E4; [|done]. cbn in E.
  assert (F : permits_frame db d4).
  { do 3 (etransitivity; [eassumption|]). destruct (_ && _); [by eapply applyChildPresence_frame|by simplify_eq]. }
  destruct (w_snap x); [|by simplify_eq]. destruct (publish _ _ d4) as [d5|] eqn:E5; [|done]. cbn in E. simplify_eq.
  transitivity d4; [done|]. unfold publish in E5. destruct (_ <=? _)%nat; [done|].
  destruct (is_some _); simplify_eq. by apply same_tables_frame.
Qed.

(** ** The host rows *)

Lemma write_host_frame host h h' db db' :
  write_host host h' db = Ok db' →
  (db_hosts db !! host = None ∨ db_hosts db !! host = Some h ∧ tokens_updated_at h ≤ tokens_updated_at h') →
  permits_frame db db'.
Proof.
  intros (Hv & ->)%write_host_inv Hh. split; [done|done| |]; cbn; intros k x Hk.
  2: { apply lookup_insert_Some in Hk as [[_ <-]|[_ Hk]]; [by left|by right]. }
  destruct (decide (k = host)) as [->|Hne].
  - rewrite lookup_insert_eq. exists h'. split; [done|]. destruct Hh as [?|[? ?]]; congruence.
  - rewrite lookup_insert_ne by done. by exists x.
Qed.

Lemma SeedHost_frame seed now db db' : SeedHost seed now db = Ok db' → permits_frame db db'.
Proof.
  unfold SeedHost. intros E. repeat (destruct (_ : bool); [done|cbn in E]).
  destruct (db_hosts db !! hs_Host seed) as [h|] eqn:Hh.
  - eapply (write_host_frame _ h); [exact E|]. by right.
  - eapply (write_host_frame _ (mkHost 0 0 0 0 0 0 0 0 None 0 None)); [exact E|]. by left.
Qed.

Lemma ObserveHost_frame o db db' : ObserveHost o db = Ok db' → permits_frame db db'.
Proof.
  unfold ObserveHost. destruct (_ || _); [done|]. destruct (db_hosts db !! ho_Host o) as [h|] eqn:Hh; [|done].
  rewrite bucket_clock_eq. intros E. eapply (write_host_frame _ h); [exact E|]. right. split; [done|].
  unfold bucket_clock. destruct (ho_Outcome o); cbn -[refillTokens]; lia.
Qed.

Lemma ReleaseHostPermit_frame id db : permits_frame db (ReleaseHostPermit id db).
Proof.
  unfold ReleaseHostPermit. destruct (id <=? 0); [done|]. split; [apply delete_subseteq|done| |by right].
  intros host h Hh. by exists h.
Qed.

Lemma drop_expired_frame host now db : permits_frame db (drop_expired host now db).
Proof. split; [apply map_filter_subseteq|done| |by right]. intros k h Hh. by exists h. Qed.

Lemma delete_snaps_frame ids db db' : delete_snaps ids db = Ok db' → permits_frame db db'.
Proof. unfold delete_snaps. intros E. case_bool_decide; simplify_eq. by apply same_tables_frame. Qed.

Lemma delete_expired_frame now db : permits_frame db (delete_expired_permits now db).
Proof. split; [apply map_filter_subseteq|done| |by right]. intros host h Hh. by exists h. Qed.

(** ** Granting *)

Lemma insert_permit_wf p db db' id h :
  permits_wf db → db_hosts db !! pm_host p = Some h →
  (size (active_map (pm_host p) (tokens_updated_at h) (db_permits db)) < 4)%nat →
  insert_permit p db = Ok (db', id) → permits_wf db'.
Proof.
  intros [Hi Hb Hv] Hh Hlt Ei. pose proof Ei as (-> & Eh & Ep & _)%insert_permit_inv.
  assert (Eq : q_permit (db_seqs db') = q_permit (db_seqs db) + 1).
  { unfold insert_permit in Ei. destruct (_ || _); by simplify_eq. }
  split; [| |by rewrite Eh].
  - intros id q. rewrite Ep, Eq, Eh. intros [[<- <-]|[_ Hq]]%lookup_insert_Some; [split; [lia|by exists h]|].
    destruct (Hi id q Hq). split; [lia|done].
  - intros host h'. rewrite Eh. intros Hh'. unfold bounded_host. rewrite Ep. unfold active_map.
    destruct (decide (pm_host p = host ∧ tokens_updated_at h' < pm_expires_at p)) as [Hp|Hp].
    + destruct Hp as [<- Hx]. rewrite Hh in Hh'. injection Hh' as <-.
      rewrite map_filter_insert_True by done. rewrite map_size_insert.
      change (filter _ _) with (active_map (pm_host p) (tokens_updated_at h) (db_permits db)).
      destruct (active_map _ _ _ !! _); unfold id; lia.
    + rewrite map_filter_insert_False by done. etransitivity; [|exact (Hb host h' Hh')].
      apply map_subseteq_size, map_filter_subseteq_mono, delete_subseteq.
Qed.

Lemma AcquireHostPermit_wf r db db' d :
  AcquireHostPermit r db = Ok (db', d) → permits_wf db → permits_wf db'.
Proof.
  unfold AcquireHostPermit. intros E W. destruct (_ || _); [done|]. cbn [result_bind guard_err] in E.
  destruct (_ || _ || _ || _); [done|]. cbn [result_bind guard_err] in E.
  destruct (existing_permit _ _ _ _) as [[id p]|]; [by simplify_eq|].
  destruct (db_hosts db !! ar_Host r) as [h|] eqn:Hh; [|done].
  rewrite bucket_clock_eq in E. set (now := bucket_clock h (ar_Now r)) in *. cbv zeta in E.
  destruct (permit_fence r _); cbn [negb] in E; [|done].
  pose proof (permits_frame_wf _ _ (drop_expired_frame (ar_Host r) now db) W) as W1.
  set (d1 := drop_expired (ar_Host r) now db) in *.
  assert (Hh1 : db_hosts d1 !! ar_Host r = Some h) by done. clearbody d1.
  assert (Hnow : tokens_updated_at h ≤ now) by (unfold now, bucket_clock; lia).
  unfold decide_permit in E. destruct (paused_at h now); [by simplify_eq|]. cbv zeta in E.
  assert (Hw : ∀ x d2, persistTokens (ar_Host r) h x now d1 = Ok d2 → permits_wf d2).
  { intros x d2 Ex. eapply permits_frame_wf; [|exact W1]. eapply (write_host_frame _ h); [exact Ex|]. by right. }
  rewrite active_count in E. destruct (current_concurrency h <=? _) eqn:Ec; [|destruct (flt _ 1)].
  - destruct (persistTokens _ _ _ _ _) as [d2|] eqn:Ex; [|done]. cbn [result_bind] in E. simplify_eq. by eapply Hw.
  - destruct (persistTokens _ _ _ _ _) as [d2|] eqn:Ex; [|done]. cbn [result_bind] in E. simplify_eq. by eapply Hw.
  - destruct (persistTokens _ _ _ _ _) as [d2|] eqn:Ex; [|done]. cbn [result_bind] in E.
    pose proof (Hw _ _ Ex) as W2. apply write_host_inv in Ex as (Hck & ->).
    destruct (insert_permit _ _) as [[d3 id]|] eqn:Ei; [|done]. cbn [result_bind] in E. simplify_eq/=.
    refine (insert_permit_wf _ _ _ _ _ W2 _ _ Ei); [cbn -[refillTokens]; apply lookup_insert_eq|].
    apply host_check_inv in Hck. cbn -[refillTokens Z.mul] in *. bool_to_prop. lia.
Qed.

Lemma step_permits db db' : db_step db db' → permits_wf db → permits_wf db'.
Proof.
  intros Hs. destruct Hs as [? ? ? E|seeds ? E|? ? ? ? E|? ? ? ? E|? ? ? E|? ? ? ? ? ? E|? ? ? E|? ? ? ? E|
    ? ? ? ? ? E|? ? ? E|? ? ? E|?|? ? E|? ? ? E|? ?|?|? ? ? ? E|? ?|?];
    first [by eapply AcquireHostPermit_wf; exact E|apply permits_frame_wf].
  - by eapply SeedHost_frame.
  - unfold Seed in E. destruct seeds; [by simplify_eq|by eapply upsertSeeds_frame].
  - unfold ClaimDue in E. destruct (cr_Limit _ <=? 0); [done|]. cbn in E.
    destruct (validateClaim _ _ _); [|done]. cbn in E. frame_step E. by simplify_eq.
  - unfold ClaimOne in E. destruct (ref_check _); [|done]. cbn in E. destruct (validateClaim _ _ _); [|done]. cbn in E.
    destruct (find_target _ _) as [[i row]|]; [|done]. destruct (_ && _); [frame_step E; by simplify_eq|].
    destruct (db_hosts db !! _); [|done]. by repeat destruct (negb _).
  - unfold ReleaseLease in E. destruct (_ || _); [done|]. frame_step E. by simplify_eq.
  - unfold RenewLease in E. destruct (_ || _); [done|]. destruct (blank _); [done|]. destruct (_ <=? 0); [done|].
    frame_step E. destruct (_ =? 0); by simplify_eq.
  - unfold SetDueNow in E. destruct (ref_check _); [|done]. cbn in E. frame_step E. destruct (_ =? 0); by simplify_eq.
  - unfold RescheduleLease in E. frame_step E. destruct (_ =? 0); by simplify_eq.
  - by eapply Commit_frame.
  - by eapply ReconcileLifecycle_frame.
  - apply ReleaseHostPermit_frame.
  - by eapply ObserveHost_frame.
  - by eapply delete_snaps_frame.
  - by apply same_tables_frame.
  - apply delete_expired_frame.
  - unfold RepairStaleTargets in E. destruct ts; [by simplify_eq|]. by apply update_where_frame in E.
  - by apply same_tables_frame.
  - by apply same_tables_frame.
Qed.

Lemma reachable_permits db : reachable db → permits_wf db.
Proof.
  intros Hr. assert (W0 : permits_wf empty_db) by (split; by intros ? ?).
  unfold reachable in Hr. revert W0. generalize empty_db Hr. clear. intros e Hr W0.
  induction Hr as [|a b c Hab _ IH]; [done|]. apply IH. by eapply step_permits.
Qed.

(** * Theorems *)

(** C15: a permit is granted only to the current lease generation of a target of the
    host, outside a pause, when fewer permits are active than the concurrency limit
    and at least one token is available; it costs one token and becomes the one new
    active permit. *)
Theorem permit_granted r db db' p :
  reachable db → AcquireHostPermit r db = Ok (db', permit_decision p) →
  existing_permit db (ar_TargetID r) (ar_LeaseGeneration r) (ar_Now r) = None →
  ∃ h, db_hosts db !! ar_Host r = Some h ∧
    let now := bucket_clock h (ar_Now r) in
    let active := length (active_permits db (ar_Host r) now) in
    (∃ t, db_targets db !! ar_TargetID r = Some t ∧ ref_Host (t_ref t) = ar_Host r ∧
       lease_generation (t_lease t) = ar_LeaseGeneration r) ∧
    (∀ u, paused_until h = Some u → u ≤ now) ∧
    Z.of_nat active < current_concurrency h ∧ (1 <= refillTokens h now)%Q ∧
    db_hosts db' !! ar_Host r =
      Some (set_tokens (numeric_of_float8 1000000 (fsub (refillTokens h now) 1)) now h) ∧
    hp_ExpiresAt p = now + ar_TTL r ∧
    length (active_permits db' (ar_Host r) now) = S active.
Proof.
  intros [Hi _ _]%reachable_permits E Hex. apply (grant_inv _ _ _ _ E Hex).
  destruct (db_permits db !! _) as [q|] eqn:Hq; [|done]. destruct (Hi _ _ Hq). lia.
Qed.

Lemma active_bounded db host h now :
  reachable db → db_hosts db !! host = Some h → tokens_updated_at h ≤ now →
  (length (active_permits db host now) ≤ 4)%nat.
Proof.
  intros [_ Hb _]%reachable_permits Hh Hn. rewrite active_count. etransitivity; [|exact (Hb host h Hh)].
  apply map_subseteq_size. by apply active_map_mono.
Qed.

(** C16: the concurrency of a host is bounded for good: on every store the system can
    reach, however workers acquire, release, observe, prune and reseed, at most four
    permits of a host are active at any time from the host's bucket clock on. *)
Theorem permits_bounded db host h now :
  reachable db → db_hosts db !! host = Some h → tokens_updated_at h ≤ now →
  (length (active_permits db host now) ≤ 4)%nat.
Proof. apply active_bounded. Qed.
End steps.
