(* ===== verification/Coordinator.v ===== *)
(** One scrape run ([internal/scraper/coordinator.go]): classification of the fetch,
    the publication decision, the evidence rows, the schedule, and the sequence of
    calls on the store and the host limiter.

    The store is an interface ([Store]); the fetches, the clock and the random source
    are what they return to this run. *)

From stdpp Require Import base list numbers strings gmap sorting.
From Stdlib Require Import ZArith QArith Lia.
From S2P Require Import Prelude Float64 Sanitize Domain Policy Canonical Validation Tables Lifecycle.

Local Open Scope Z_scope.
Local Open Scope stdpp_scope.
Local Open Scope go_scope.

(** * The interfaces of the coordinator *)

(** What the code asks of an [error] value: [errors.Is], [errors.As] and its text. *)
Record GoErr := {
  err_NotModified : bool;
  err_Status : option (Z * Z);
  err_AuthExpired : bool;
  err_AuthConflict : bool;
  err_Fetch : option FetchErrorKind;
  err_DeadlineExceeded : bool;
  err_Canceled : bool;
  err_Text : string
}.

Record ResponseMetadata := {
  rm_StatusCode : Z;
  rm_ContentType : string;
  rm_ETag : string;
  rm_LastModified : string;
  rm_CacheControl : string;
  rm_RawBodyHash : string
}.

Record SnapshotFetchResult := {
  fr_Value : Value;
  fr_Metadata : ResponseMetadata;
  fr_BytesRead : Z;
  fr_ReportedCount : Z;
  fr_ExpectedPages : Z;
  fr_FetchedPages : Z
}.

Definition ParserVersion : string := "warwick-v1".
Definition SchemaVersion : string := "schema-v1".
Definition CanonicalizerVersion : string := "canonical-v1".

(** The [Store] and [HostObserver] interfaces over a state. *)
Class Store (S : Type) := {
  store_Commit : CommitInput → S → result RepoError (S * CommitResult);
  store_Current : TargetRef → S → result RepoError Snapshot;
  store_ReleaseLease : Z → Z → S → result RepoError S;
  store_ReconcileLifecycle : LifecycleReconcileInput → S → result RepoError S;
  store_Observe : HostObservation → S → result RepoError S
}.

(** The attribute documents ([encoding/json]) and the [fmt] text of two error types. *)
Class CoordLib := {
  json_session_status : string → SessionStatus;
  json_course_attributes : string → CourseStatus → string;
  json_session_attributes : SessionStatus → string;
  canon_error_text : CanonError → string;
  validation_error_text : ValidationError → string
}.

(** What the random sources give this run. *)
Record Randoms := {
  rd_Schedule : Rng;
  rd_Child : nat → Z;
  rd_RequestID : string;
  rd_ConfirmRequestID : string;
  rd_Group : string
}.

(** * Classification *)

Definition statusCodeValue (status : option Z) : Z := default 0 status.

Definition isSuccessfulOutcome (o : RunOutcome) : bool :=
  match o with RChanged | RUnchanged | RNotModified => true | _ => false end.

(** Outcome, error kind, status code and Retry-After of a fetch; the error is [None] for
    nil. *)
Definition classifyFetch (result : SnapshotFetchResult) (err : option GoErr)
    : RunOutcome * string * option Z * Z :=
  let code := rm_StatusCode (fr_Metadata result) in
  let statusCode := if 0 <? code then Some code else None in
  match err with
  | None => (RUnchanged, "", statusCode, 0)
  | Some e =>
      if err_NotModified e then (RNotModified, "", statusCode, 0)
      else
        match err_Status e with
        | Some (status, retryAfter) =>
            if status =? 429 then (RRateLimited, "rate_limited", Some status, retryAfter)
            else if bool_decide (status ∈ [408; 425; 500; 502; 503; 504])
            then (RTransientError, "upstream_status", Some status, retryAfter)
            else if bool_decide (status ∈ [404; 410]) then (RNotFound, "not_found", Some status, 0)
            else if (400 <=? status) && (status <? 500)
            then (RPermanentError, "upstream_status", Some status, 0)
            else (RTransientError, "upstream_status", Some status, 0)
        | None =>
            if err_AuthExpired e || err_AuthConflict e then (RAuthError, "authentication", statusCode, 0)
            else
              match err_Fetch e with
              | Some ErrKindInvalidPayload => (RInvalidPayload, "invalid_payload", statusCode, 0)
              | Some ErrKindRateLimited => (RRateLimited, "rate_limited", statusCode, 0)
              | Some ErrKindAuthExpired | Some ErrKindAuthConflict =>
                  (RAuthError, "authentication", statusCode, 0)
              | Some _ => (RTransientError, "network", statusCode, 0)
              | None =>
                  if err_DeadlineExceeded e then (RTransientError, "timeout", statusCode, 0)
                  else (RTransientError, "network", statusCode, 0)
              end
        end
  end.

Definition rejectionDisposition (o : RunOutcome) : CandidateDisposition :=
  match o with
  | RAuthError => CandidateRejectedAuthentication
  | RInvalidPayload => CandidateRejectedParse
  | _ => CandidateRejectedTransport
  end.

(** * Schedules *)

Definition policyForTarget `{CoordLib} (target : ScrapeTarget) : Policy :=
  let p := PolicyFor (ref_Kind (st_Ref target)) (json_session_status (st_Attributes target)) in
  mkPolicy
    (if 0 <? st_CurrentInterval target then st_CurrentInterval target else p_Initial p)
    (if 0 <? st_MinInterval target then st_MinInterval target else p_Min p)
    (if 0 <? st_MaxInterval target then st_MaxInterval target else p_Max p)
    (if 0 <? st_MaxServeAge target then st_MaxServeAge target else p_MaxServeAge p).

Definition failureNextRun (now : Z) (o : RunOutcome) (consecutiveFailures retryAfter : Z) (rng : Rng) : Z :=
  match o with
  | RRateLimited => time_Add now (if retryAfter <? 15 * Minute then 15 * Minute else retryAfter)
  | RAuthError => time_Add now (15 * Minute)
  | RNotFound => time_Add now (24 * Hour)
  | RPermanentError => time_Add now (24 * Hour)
  | RInvalidPayload => time_Add now Hour
  | RQuarantined => time_Add now Hour
  | _ =>
      let delay := FullJitter (FailureDelay consecutiveFailures) (Some rng) in
      time_Add now (if delay <? retryAfter then retryAfter else delay)
  end.

(** * Discovery of children *)

Definition child_seed (ref : TargetRef) (attrs : string) (prio : Z) (p : Policy) (now : Z) : TargetSeed :=
  {| sd_Ref := ref; sd_Attributes := attrs; sd_Priority := prio; sd_InitialInterval := p_Initial p;
     sd_MinInterval := p_Min p; sd_MaxInterval := p_Max p; sd_MaxServeAge := p_MaxServeAge p;
     sd_NextRunAt := now |}.

Definition course_seed `{CoordLib} (host : string) (now : Z) (c : CourseSummary) : TargetSeed :=
  child_seed (mkRef host SnapshotCourseDetail (cs_CourseID c) "")
    (json_course_attributes (cs_Name c) (cs_Status c)) PriorityActiveCourse
    (PolicyFor SnapshotCourseDetail (SessionStatusOther "")) now.

Definition session_seed `{CoordLib} (host course : string) (now : Z) (s : SessionSummary) : TargetSeed :=
  child_seed (mkRef host SnapshotSessionDetail (ss_SessionID s) course)
    (json_session_attributes (ss_Status s)) (DefaultPriority SnapshotSessionDetail (ss_Status s))
    (PolicyFor SnapshotSessionDetail (ss_Status s)) now.

Definition less_seed : TargetSeed → TargetSeed → bool :=
  lex_by str_lt (λ s, IdentityKey (sd_Ref s)) no_less.

Definition discoverTargets `{CoordLib} (parent : ScrapeTarget) (value : Value) (now : Z)
    : list TargetSeed * list TargetRef :=
  let host := ref_Host (st_Ref parent) in
  let seeds :=
    match ref_Kind (st_Ref parent), value with
    | SnapshotCourseCatalog, VCourses courses => map (course_seed host now) courses
    | SnapshotCourseDetail, VCourseDetail d
    | SnapshotCourseDetail, VCourseDetailPtr (Some d) =>
        map (session_seed host (ref_ResourceKey (st_Ref parent)) now) (cd_Sessions d)
    | _, _ => []
    end in
  let seeds := sort_stable less_seed seeds in
  (seeds, map sd_Ref seeds).

(** The jitter loop over the discovered children. *)
Definition jitter_seeds (child : nat → Z) (seeds : list TargetSeed) : list TargetSeed :=
  imap (λ i s, child_seed (sd_Ref s) (sd_Attributes s) (sd_Priority s)
    (mkPolicy (sd_InitialInterval s) (sd_MinInterval s) (sd_MaxInterval s) (sd_MaxServeAge s))
    (time_Add (sd_NextRunAt s) (child i))) seeds.

(** * Evidence *)

(** [snapshotIDs]: [None] is Go's nil map. *)
Definition snapshotIDs `{GoLib} (kind : SnapshotKind) (payload : string) : option (gset string) :=
  if bool_decide (payload = "") then None
  else
    match kind, json_Unmarshal kind payload with
    | SnapshotCourseCatalog, Some (VCourses l) => Some (id_set cs_CourseID l)
    | SnapshotCourseDetail, Some (VCourseDetail d) => Some (id_set ss_SessionID (cd_Sessions d))
    | SnapshotSessionDetail, Some (VSessionDetail d) => Some (id_set sc_StudentID (sd_Students d))
    | SnapshotStudentProfiles, Some (VProfiles l) => Some (id_set sp_StudentID l)
    | _, _ => None
    end.

Definition count_manifest (result : SnapshotFetchResult) (parsed unique : Z) : SnapshotManifest :=
  let complete :=
    ((fr_ExpectedPages result <=? 0) || (fr_ExpectedPages result <=? fr_FetchedPages result)) &&
    ((fr_ReportedCount result <=? 0) || (parsed =? fr_ReportedCount result)) in
  {| sm_SourceReportedCount := fr_ReportedCount result; sm_ParsedCount := parsed; sm_UniqueCount := unique;
     sm_ExpectedPageCount := fr_ExpectedPages result; sm_FetchedPageCount := fr_FetchedPages result;
     sm_FirstRecordKey := ""; sm_LastRecordKey := ""; sm_Complete := complete;
     sm_IncompleteReasons := if complete then [] else ["parsed count differs from reported count"] |}.

Definition buildSnapshotManifest (result : SnapshotFetchResult) (v : ValidatedPayload) : SnapshotManifest :=
  count_manifest result (vp_RecordCount v) (vp_DistinctIDs v).

Definition manifestFromEvidence (result : SnapshotFetchResult) (parsedCount : Z) : SnapshotManifest :=
  count_manifest result parsedCount parsedCount.

Definition buildValidationReport (manifest : SnapshotManifest) (warnings : list ValidationWarning)
    (requiresConfirmation : bool) : ValidationReport :=
  let r0 := {| vr_Complete := sm_Complete manifest; vr_RequiresConfirmation := requiresConfirmation;
               vr_Violations := [] |} in
  let r1 := if sm_Complete manifest then r0
            else report_Add "incomplete_manifest" SeverityFatal "" "candidate collection is incomplete" r0 in
  let r2 := foldl (λ r w, report_Add (vw_Code w) SeverityWarning "" (vw_Message w) r) r1 warnings in
  if requiresConfirmation
  then report_Add "suspicious_change" SeverityWarning "" "record count change requires independent confirmation" r2
  else r2.

(** * Confirmation of a suspicious change *)

Section run.
Context `{GoLib, CoordLib}.

Definition confirmation_evidence (target : ScrapeTarget) (second : SnapshotFetchResult)
    (code message payload hash : string) (count at_ : Z) (rd : Randoms) (group : string) : ScrapeCandidate :=
  {| sca_TargetID := st_ID target; sca_LeaseGeneration := st_LeaseGeneration target;
     sca_AttemptNumber := 2; sca_FetchedAt := at_; sca_RequestID := rd_ConfirmRequestID rd;
     sca_HTTPStatus := rm_StatusCode (fr_Metadata second);
     sca_ContentType := rm_ContentType (fr_Metadata second); sca_ContentLength := fr_BytesRead second;
     sca_ETag := rm_ETag (fr_Metadata second); sca_LastModified := rm_LastModified (fr_Metadata second);
     sca_RawBodyHash := rm_RawBodyHash (fr_Metadata second); sca_CanonicalHash := hash;
     sca_ParserVersion := ParserVersion; sca_SchemaVersion := SchemaVersion;
     sca_CanonicalizerVersion := CanonicalizerVersion; sca_Payload := payload;
     sca_Manifest := manifestFromEvidence second count;
     sca_Validation := {| vr_Complete := (count =? fr_ReportedCount second) || (fr_ReportedCount second <=? 0);
       vr_RequiresConfirmation := false;
       vr_Violations := [{| vv_Code := code; vv_Severity := SeverityFatal; vv_Path := ""; vv_Message := message |}] |};
     sca_Disposition := CandidateQuarantinedAnomaly; sca_RejectionCode := code;
     sca_ConfirmationGroupUUID := group |}.

(** [confirm] is [None] when the source cannot confirm, otherwise the second fetch. *)
Definition confirmChange (limit : Z) (target : ScrapeTarget) (firstHash : string) (firstCount : Z)
    (firstRawHash : string) (firstFetchedPages : Z) (confirm : option (result GoErr SnapshotFetchResult))
    (at_ : Z) (rd : Randoms) : bool * string * option ScrapeCandidate :=
  match confirm with
  | None => (false, "confirmation_unavailable", None)
  | Some (Err _) => (false, "confirmation_fetch_failed", None)
  | Some (Ok second) =>
      match Canonicalize (ref_Kind (st_Ref target)) (fr_Value second) limit with
      | Err _ => (false, "confirmation_parse_failed", None)
      | Ok (secondPayload, secondHash, secondCount) =>
          if bool_decide (secondHash = firstHash) && (secondCount =? firstCount) then (true, "", None)
          else
            let raw := rm_RawBodyHash (fr_Metadata second) in
            let same_bytes := nonempty raw && bool_decide (raw = firstRawHash) &&
              negb (bool_decide (secondHash = firstHash)) && (firstFetchedPages <=? 1) &&
              (fr_FetchedPages second <=? 1) in
            let code := if same_bytes then "confirmation_parser_nondeterminism" else "confirmation_mismatch" in
            let message :=
              if same_bytes then "confirmation fetch had identical raw bytes but canonicalized to a different hash"
              else "independent confirmation fetch did not match the original candidate" in
            (false, code,
             Some (confirmation_evidence target second code message secondPayload secondHash secondCount at_ rd ""))
      end
  end.

(** * The decision on a fetched body *)

Inductive RunError :=
| REFetch (e : GoErr)
| RECanon (e : CanonError)
| REValidation (e : ValidationError)
| REUnconfirmed (code : string)
| RENotModified.

Definition run_error_text (e : RunError) : string :=
  match e with
  | REFetch e => err_Text e
  | RECanon e => canon_error_text e
  | REValidation e => validation_error_text e
  | REUnconfirmed code => "suspicious change was not independently confirmed: " +:+ code
  | RENotModified => "upstream returned not modified without a current snapshot"
  end.

(** The local variables of the run once the body has been assessed. *)
Record Assessment := {
  as_Outcome : RunOutcome;
  as_ErrorKind : string;
  as_Error : option RunError;
  as_Payload : string;
  as_Hash : string;
  as_Changed : bool;
  as_Records : Z;
  as_Manifest : SnapshotManifest;
  as_Report : ValidationReport;
  as_Group : string;
  as_Rejection : string;
  as_Evidence : list ScrapeCandidate
}.

Definition plain_outcome (o : RunOutcome) (kind : string) (e : option RunError) : Assessment :=
  {| as_Outcome := o; as_ErrorKind := kind; as_Error := e; as_Payload := ""; as_Hash := zero_hash;
     as_Changed := false; as_Records := 0; as_Manifest := zero_manifest; as_Report := zero_report;
     as_Group := ""; as_Rejection := ""; as_Evidence := [] |}.

Definition rejected (o : RunOutcome) (kind : string) (e : RunError) : Assessment :=
  plain_outcome o kind (Some e).

(** The raw-hash fast path. *)
Definition rawHashUnchanged (prev : result RepoError Snapshot) (fr : SnapshotFetchResult) : bool :=
  match prev with
  | Err _ => false
  | Ok p =>
      nonempty (sn_RawBodyHash p) && bool_decide (rm_RawBodyHash (fr_Metadata fr) = sn_RawBodyHash p) &&
      bool_decide (sn_ParserVersion p = ParserVersion) && (fr_FetchedPages fr <=? 1)
  end.

Definition set_group (g : string) (c : ScrapeCandidate) : ScrapeCandidate :=
  {| sca_TargetID := sca_TargetID c; sca_LeaseGeneration := sca_LeaseGeneration c;
     sca_AttemptNumber := sca_AttemptNumber c; sca_FetchedAt := sca_FetchedAt c;
     sca_RequestID := sca_RequestID c; sca_HTTPStatus := sca_HTTPStatus c;
     sca_ContentType := sca_ContentType c; sca_ContentLength := sca_ContentLength c;
     sca_ETag := sca_ETag c; sca_LastModified := sca_LastModified c; sca_RawBodyHash := sca_RawBodyHash c;
     sca_CanonicalHash := sca_CanonicalHash c; sca_ParserVersion := sca_ParserVersion c;
     sca_SchemaVersion := sca_SchemaVersion c; sca_CanonicalizerVersion := sca_CanonicalizerVersion c;
     sca_Payload := sca_Payload c; sca_Manifest := sca_Manifest c; sca_Validation := sca_Validation c;
     sca_Disposition := sca_Disposition c; sca_RejectionCode := sca_RejectionCode c;
     sca_ConfirmationGroupUUID := g |}.

(** [classification.Status == suspicious] of a validated body. *)
Definition suspiciousChange (target : ScrapeTarget) (prev : result RepoError Snapshot) (v : ValidatedPayload) : bool :=
  let previousCount := if st_HasCurrentSnapshot target then st_PreviousRecordCount target else 0 in
  let previousIDs :=
    match prev with Ok p => snapshotIDs (ref_Kind (st_Ref target)) (sn_Payload p) | Err _ => None end in
  cc_Suspicious (ClassifyChangeAgainst DefaultChangeSafetyPolicy v previousCount previousIDs).

(** The body that canonicalized to [(payload, hash, count)] and validated as [v]. *)
Definition assess_valid (limit : Z) (target : ScrapeTarget) (fr : SnapshotFetchResult)
    (prev : result RepoError Snapshot) (confirm : option (result GoErr SnapshotFetchResult)) (at_ : Z)
    (rd : Randoms) (payload hash : string) (count : Z) (v : ValidatedPayload) : Assessment :=
  let suspicious := suspiciousChange target prev v in
  let manifest := buildSnapshotManifest fr v in
  let report := buildValidationReport manifest (vp_Warnings v) suspicious in
  let '(confirmed, code, evidence) :=
    if suspicious
    then confirmChange limit target hash count (rm_RawBodyHash (fr_Metadata fr)) (fr_FetchedPages fr) confirm at_ rd
    else (true, "", None) in
  let group := if suspicious then rd_Group rd else "" in
  if confirmed then
    let changed := negb (HasContentHash target) || negb (bool_decide (hash = st_CurrentContentHash target)) in
    {| as_Outcome := if changed then RChanged else RUnchanged; as_ErrorKind := ""; as_Error := None;
       as_Payload := if changed then payload else ""; as_Hash := if changed then hash else zero_hash;
       as_Changed := changed; as_Records := count; as_Manifest := manifest; as_Report := report;
       as_Group := group; as_Rejection := ""; as_Evidence := [] |}
  else
    {| as_Outcome := RQuarantined; as_ErrorKind := "confirmation"; as_Error := Some (REUnconfirmed code);
       as_Payload := payload; as_Hash := hash; as_Changed := false; as_Records := count;
       as_Manifest := manifest; as_Report := report; as_Group := group; as_Rejection := code;
       as_Evidence := match evidence with Some c => [set_group group c] | None => [] end |}.

(** The whole decision; [prev] is what [Current] returned. *)
Definition assess (limit : Z) (target : ScrapeTarget) (fr : SnapshotFetchResult) (err : option GoErr)
    (prev : result RepoError Snapshot) (confirm : option (result GoErr SnapshotFetchResult)) (at_ : Z)
    (rd : Randoms) : Assessment :=
  let '(outcome, errorKind, _, _) := classifyFetch fr err in
  match err with
  | Some e =>
      if err_NotModified e then
        if st_HasCurrentSnapshot target then plain_outcome RNotModified errorKind None
        else rejected RInvalidPayload "not_modified_without_snapshot" RENotModified
      else plain_outcome outcome errorKind (Some (REFetch e))
  | None =>
      if rawHashUnchanged prev fr then plain_outcome RUnchanged errorKind None
      else
        match Canonicalize (ref_Kind (st_Ref target)) (fr_Value fr) limit with
        | Err e => rejected RInvalidPayload "canonicalization" (RECanon e)
        | Ok (payload, hash, count) =>
            match ValidatePayload (ref_Kind (st_Ref target)) (fr_Value fr) (ref_ResourceKey (st_Ref target)) with
            | Err e => rejected RInvalidPayload "validation" (REValidation e)
            | Ok v => assess_valid limit target fr prev confirm at_ rd payload hash count v
            end
        end
  end.

(** * The evidence row, the schedule and the commit *)

Definition last_rejection (a : Assessment) : string :=
  if nonempty (as_Rejection a) then as_Rejection a
  else if negb (isSuccessfulOutcome (as_Outcome a)) then as_ErrorKind a else "".

(** The candidate of the first fetch. *)
Definition run_candidate (target : ScrapeTarget) (fr : SnapshotFetchResult) (status : option Z) (finishedAt : Z)
    (rd : Randoms) (a : Assessment) (hash payload : string) (m : SnapshotManifest) (r : ValidationReport)
    (d : CandidateDisposition) (code group : string) : ScrapeCandidate :=
  {| sca_TargetID := st_ID target; sca_LeaseGeneration := st_LeaseGeneration target;
     sca_AttemptNumber := 1; sca_FetchedAt := finishedAt; sca_RequestID := rd_RequestID rd;
     sca_HTTPStatus := statusCodeValue status; sca_ContentType := rm_ContentType (fr_Metadata fr);
     sca_ContentLength := fr_BytesRead fr; sca_ETag := rm_ETag (fr_Metadata fr);
     sca_LastModified := rm_LastModified (fr_Metadata fr); sca_RawBodyHash := rm_RawBodyHash (fr_Metadata fr);
     sca_CanonicalHash := hash; sca_ParserVersion := ParserVersion; sca_SchemaVersion := SchemaVersion;
     sca_CanonicalizerVersion := CanonicalizerVersion; sca_Payload := payload; sca_Manifest := m;
     sca_Validation := r; sca_Disposition := d; sca_RejectionCode := code; sca_ConfirmationGroupUUID := group |}.

Definition run_candidates (target : ScrapeTarget) (fr : SnapshotFetchResult) (status : option Z)
    (finishedAt : Z) (rd : Randoms) (a : Assessment) : list ScrapeCandidate :=
  let parsed d code := run_candidate target fr status finishedAt rd a (as_Hash a) (as_Payload a)
    (as_Manifest a) (as_Report a) d code (as_Group a) in
  let evidence := run_candidate target fr status finishedAt rd a "" "" zero_manifest zero_report
    (rejectionDisposition (as_Outcome a)) (as_ErrorKind a) "" in
  as_Evidence a ++
  match as_Outcome a with
  | RChanged => [parsed CandidateAccepted ""]
  | RUnchanged => [parsed CandidateUnchanged ""]
  | RQuarantined => [parsed CandidateQuarantinedAnomaly (last_rejection a)]
  | RRateLimited | RAuthError | RNotFound | RPermanentError | RTransientError | RInvalidPayload => [evidence]
  | _ => []
  end.

(** Interval, history, failures and next run after the outcome. *)
Record RunSchedule := { rs_Interval : Z; rs_History : list bool; rs_Failures : Z; rs_NextRunAt : Z }.

Definition schedule_outcome (o : RunOutcome) : Outcome :=
  match o with RChanged => OutcomeChanged | RNotModified => OutcomeNotModified | _ => OutcomeUnchanged end.

Definition run_schedule (target : ScrapeTarget) (o : RunOutcome) (finishedAt retryAfter : Z) (rng : Rng)
    : RunSchedule :=
  if isSuccessfulOutcome o then
    let s := NextSchedule (policyForTarget target) (st_CurrentInterval target) (st_RecentChanges target)
               (schedule_outcome o) in
    {| rs_Interval := sch_Interval s; rs_History := sch_History s; rs_Failures := 0;
       rs_NextRunAt := time_Add finishedAt (ApplyJitter (sch_Interval s) tenth (Some rng)) |}
  else
    let failures := wrap64 (st_ConsecutiveFailures target + 1) in
    {| rs_Interval := st_CurrentInterval target; rs_History := st_RecentChanges target; rs_Failures := failures;
       rs_NextRunAt := failureNextRun finishedAt o failures retryAfter rng |}.

Definition discovered (target : ScrapeTarget) (fr : SnapshotFetchResult) (o : RunOutcome) (finishedAt : Z)
    (rd : Randoms) : list TargetSeed * list TargetRef :=
  match o with
  | RChanged | RUnchanged =>
      let '(seeds, seen) := discoverTargets target (fr_Value fr) finishedAt in
      (jitter_seeds (rd_Child rd) seeds, seen)
  | _ => ([], [])
  end.

Definition commit_input (target : ScrapeTarget) (fr : SnapshotFetchResult) (err : option GoErr)
    (startedAt finishedAt : Z) (rd : Randoms) (a : Assessment) : CommitInput :=
  let '(_, _, status, retryAfter) := classifyFetch fr err in
  let o := as_Outcome a in
  let s := run_schedule target o finishedAt retryAfter (rd_Schedule rd) in
  let '(seeds, seen) := discovered target fr o finishedAt rd in
  let quarantined := bool_decide (o = RQuarantined) in
  {| ci_TargetID := st_ID target; ci_WorkerID := st_LeaseOwner target;
     ci_LeaseGeneration := st_LeaseGeneration target; ci_Outcome := o; ci_StartedAt := startedAt;
     ci_FinishedAt := finishedAt; ci_HTTPStatus := status; ci_BytesRead := fr_BytesRead fr;
     ci_ErrorKind := as_ErrorKind a;
     ci_ErrorMessage := match as_Error a with None => "" | Some e => safeUpstreamError (run_error_text e) end;
     ci_NextRunAt := rs_NextRunAt s; ci_CurrentInterval := rs_Interval s;
     ci_ConsecutiveFailures := rs_Failures s; ci_RecentChanges := rs_History s;
     ci_ValidatedAt := if isSuccessfulOutcome o then Some finishedAt else None;
     ci_ValidationSeqAfter := if isSuccessfulOutcome o then Some (wrap64 (st_ValidationSeq target + 1)) else None;
     ci_ETag := rm_ETag (fr_Metadata fr); ci_LastModified := rm_LastModified (fr_Metadata fr);
     ci_CacheControl := rm_CacheControl (fr_Metadata fr); ci_Changed := as_Changed a;
     ci_ContentHash := if quarantined then zero_hash else as_Hash a;
     ci_Payload := if quarantined then "" else as_Payload a;
     ci_Discovered := seeds; ci_SeenChildRefs := seen; ci_RecordsCount := as_Records a;
     ci_Manifest := if quarantined then zero_manifest else as_Manifest a;
     ci_Validation := if quarantined then zero_report else as_Report a;
     ci_ParserVersion := ParserVersion; ci_SchemaVersion := SchemaVersion;
     ci_RawBodyHash := rm_RawBodyHash (fr_Metadata fr); ci_LastRejectionCode := last_rejection a;
     ci_Candidates := run_candidates target fr status finishedAt rd a |}.

Definition observation (target : ScrapeTarget) (fr : SnapshotFetchResult) (err : option GoErr)
    (startedAt finishedAt : Z) (o : RunOutcome) : HostObservation :=
  let '(_, _, status, retryAfter) := classifyFetch fr err in
  {| ho_Host := ref_Host (st_Ref target); ho_Outcome := o; ho_StatusCode := statusCodeValue status;
     ho_RetryAfter := retryAfter; ho_Latency := time_Sub finishedAt startedAt;
     ho_ConsecutiveFailures := if isSuccessfulOutcome o then 0 else wrap64 (st_ConsecutiveFailures target + 1);
     ho_ObservedAt := finishedAt |}.

(** * RunClaimedWithRelease *)

Record RunResult := {
  rr_TargetID : Z;
  rr_LeaseGeneration : Z;
  rr_Outcome : RunOutcome;
  rr_Succeeded : bool;
  rr_Changed : bool;
  rr_NextRunAt : Z;
  rr_Commit : CommitResult
}.

Inductive CoordError :=
| CErrLeaseLost
| CErrRef (e : DomainError)
| CErrCanceled (release : option RepoError)
| CErrCommit (commit : RepoError) (observe : option RepoError)
| CErrObserve (result : RunResult) (observe : RepoError).

(** What the environment gives the run: the fetch, whether the context was canceled when
    it returned, the confirmation fetch, and the three clock readings. *)
Record RunEnv := {
  en_Fetch : SnapshotFetchResult;
  en_FetchErr : option GoErr;
  en_CtxDone : bool;
  en_Confirm : option (result GoErr SnapshotFetchResult);
  en_StartedAt : Z;
  en_FinishedAt : Z;
  en_ConfirmedAt : Z;
  en_Random : Randoms
}.

Definition canceledFetch (done : bool) (err : option GoErr) : bool :=
  done || match err with Some e => err_Canceled e | None => false end.

(** A call that may fail: a failed transaction leaves the state. *)
Definition attempt {S E A} (s : S) (r : result E (S * A)) : S * result E A :=
  match r with Ok (s', a) => (s', Ok a) | Err e => (s, Err e) end.
Definition attempt_ {S E} (s : S) (r : result E S) : S * option E :=
  match r with Ok s' => (s', None) | Err e => (s, Some e) end.

(** What the lifecycle is reconciled with after a successful run. *)
Definition reconcile_input (target : ScrapeTarget) (input : CommitInput) (cr : CommitResult)
    : LifecycleReconcileInput :=
  {| lr_ParentRef := st_Ref target;
     lr_ParentVersion := match cm_Snapshot cr with Some sn => sn_Version sn | None => st_CurrentVersion target end;
     lr_DiscoveredSeeds := ci_Discovered input; lr_SeenChildRefs := ci_SeenChildRefs input |}.

(** [other n] is what the rest of the system does to the store before the run's n-th
    call on it. *)
Definition RunClaimedWithRelease {S} `{Store S} (limit : Z) (target : ScrapeTarget) (env : RunEnv)
    (other : nat → S → S) (s : S) : S * result CoordError RunResult :=
  if (st_ID target <=? 0) || (st_LeaseGeneration target <=? 0) then (s, Err CErrLeaseLost)
  else
    match ref_Validate (st_Ref target) with
    | Err e => (s, Err (CErrRef e))
    | Ok _ =>
        let s0 := other 0%nat s in
        if canceledFetch (en_CtxDone env) (en_FetchErr env) then
          let '(s1, e) := attempt_ s0 (store_ReleaseLease (st_ID target) (st_LeaseGeneration target) s0) in
          (s1, Err (CErrCanceled e))
        else
          let fr := en_Fetch env in
          let err := en_FetchErr env in
          let prev := store_Current (st_Ref target) s0 in
          let a := assess limit target fr err prev (en_Confirm env) (en_ConfirmedAt env) (en_Random env) in
          let o := as_Outcome a in
          let s1 := other 1%nat s0 in
          let '(s2, obs) := attempt_ s1
            (store_Observe (observation target fr err (en_StartedAt env) (en_FinishedAt env) o) s1) in
          let input := commit_input target fr err (en_StartedAt env) (en_FinishedAt env) (en_Random env) a in
          let s3 := other 2%nat s2 in
          let '(s4, committed) := attempt s3 (store_Commit input s3) in
          match committed with
          | Err e => (s4, Err (CErrCommit e obs))
          | Ok cr =>
              let s5 :=
                if isSuccessfulOutcome o then
                  let s' := other 3%nat s4 in
                  (attempt_ s' (store_ReconcileLifecycle (reconcile_input target input cr) s')).1
                else s4 in
              let res := {| rr_TargetID := st_ID target; rr_LeaseGeneration := st_LeaseGeneration target;
                            rr_Outcome := o; rr_Succeeded := isSuccessfulOutcome o; rr_Changed := as_Changed a;
                            rr_NextRunAt := ci_NextRunAt input; rr_Commit := cr |} in
              (s5, match obs with None => Ok res | Some e => Err (CErrObserve res e) end)
          end
    end.
End run.
