(* ===== verification/CoordinatorSpec.v ===== *)
(** What a run of the coordinator decides, schedules and asks the store to do. *)

From stdpp Require Import base list numbers strings gmap sorting.
From Stdlib Require Import ZArith QArith Lia.
From S2P Require Import Prelude Float64 Sanitize Domain Policy Canonical Validation Tables Leases Lifecycle.
From S2P Require Import Reads Commit Coordinator.

Local Open Scope Z_scope.
Local Open Scope stdpp_scope.
Local Open Scope go_scope.

Section decision.
Context `{GoLib, CoordLib}.

(** * Outcomes *)

Definition known_outcome (o : RunOutcome) : bool := match o with ROther _ => false | _ => true end.

Lemma classifyFetch_outcome fr e :
  let '(o, _, _, _) := classifyFetch fr (Some e) in
  known_outcome o = true ∧ o ≠ RChanged ∧ (err_NotModified e = false → isSuccessfulOutcome o = false).
Proof. unfold classifyFetch. repeat case_match; simplify_eq; split_and!; try done; congruence. Qed.

Lemma classifyFetch_retry fr err :
  let '(o, _, _, retry) := classifyFetch fr err in
  retry = 0 ∨ ∃ e status, err = Some e ∧ err_Status e = Some (status, retry).
Proof. unfold classifyFetch. repeat case_match; simplify_eq; eauto. Qed.

(** What confirmation established. *)
Definition confirmed_by (limit : Z) (kind : SnapshotKind) (hash : string) (count : Z)
    (confirm : option (result GoErr SnapshotFetchResult)) : Prop :=
  ∃ second payload, confirm = Some (Ok second) ∧
    Canonicalize kind (fr_Value second) limit = Ok (payload, hash, count).

Lemma confirmChange_true limit target hash count raw pages confirm at_ rd :
  (confirmChange limit target hash count raw pages confirm at_ rd).1.1 = true ↔
  confirmed_by limit (ref_Kind (st_Ref target)) hash count confirm.
Proof.
  unfold confirmChange, confirmed_by. destruct confirm as [[second|e]|]; cbn.
  2,3: by split; [done|]; intros (? & ? & ? & ?).
  destruct (Canonicalize _ _ _) as [[[p h] n]|e] eqn:E; cbn.
  2: by split; [done|]; intros (s & ? & [= <-] & ?); congruence.
  split.
  - destruct (_ && _) eqn:Eb; [|done]. bool_to_prop. subst. eauto.
  - intros (s & p' & [= <-] & E'). rewrite E in E'. injection E' as -> -> ->.
    by rewrite bool_decide_eq_true_2, Z.eqb_refl by done.
Qed.

(** The branches of the decision on a valid body. *)
Definition differs (target : ScrapeTarget) (hash : string) : Prop :=
  HasContentHash target = true → hash ≠ st_CurrentContentHash target.

Lemma differs_true target hash :
  negb (HasContentHash target) || negb (bool_decide (hash = st_CurrentContentHash target)) = true ↔
  differs target hash.
Proof.
  unfold differs. destruct (HasContentHash target); cbn; [|by split].
  case_bool_decide; cbn; split; try done. intros Hd. by destruct (Hd eq_refl).
Qed.

Lemma assess_valid_changed limit target fr prev confirm at_ rd payload hash count v :
  let a := assess_valid limit target fr prev confirm at_ rd payload hash count v in
  (as_Changed a = true ↔
    (suspiciousChange target prev v = true → confirmed_by limit (ref_Kind (st_Ref target)) hash count confirm) ∧
    differs target hash) ∧
  (as_Changed a = true → as_Outcome a = RChanged ∧ as_Payload a = payload ∧ as_Hash a = hash ∧
    as_Records a = count ∧ as_Manifest a = buildSnapshotManifest fr v) ∧
  (as_Changed a = false → as_Outcome a = RUnchanged ∨ as_Outcome a = RQuarantined).
Proof.
  cbv zeta. unfold assess_valid. pose proof (differs_true target hash) as Hd.
  set (b := negb (HasContentHash target) || _) in *. clearbody b.
  destruct (suspiciousChange target prev v) eqn:Es.
  - pose proof (confirmChange_true limit target hash count (rm_RawBodyHash (fr_Metadata fr))
      (fr_FetchedPages fr) confirm at_ rd) as Hc.
    destruct (confirmChange _ _ _ _ _ _ _ _ _) as [[[] code] ev]; cbn in Hc |- *.
    + split; [tauto|]. destruct b; split; auto; done.
    + split; [split; [done|]; intros [Hk _]; by apply Hc, Hk|]. split; [done|auto].
  - cbn. split; [rewrite Hd; split; [intros; by split|by intros [_ ?]]|].
    destruct b; split; auto; done.
Qed.

(** What a fetched body must satisfy to be published, with its canonical form. *)
Record vetted (limit : Z) (target : ScrapeTarget) (fr : SnapshotFetchResult) (err : option GoErr)
    (prev : result RepoError Snapshot) (confirm : option (result GoErr SnapshotFetchResult))
    (payload hash : string) (count : Z) (v : ValidatedPayload) : Prop := {
  vt_fetched : err = None;
  vt_new_body : rawHashUnchanged prev fr = false;
  vt_canonical : Canonicalize (ref_Kind (st_Ref target)) (fr_Value fr) limit = Ok (payload, hash, count);
  vt_valid : ValidatePayload (ref_Kind (st_Ref target)) (fr_Value fr) (ref_ResourceKey (st_Ref target)) = Ok v;
  vt_confirmed : suspiciousChange target prev v = true →
    confirmed_by limit (ref_Kind (st_Ref target)) hash count confirm;
  vt_differs : differs target hash
}.

(** C9: a run publishes exactly vetted content.  The commit is marked changed if and
    only if the fetch succeeded, the body is not byte-identical to the served one, it
    canonicalizes within the limit and passes validation, a suspicious change was
    confirmed by a second fetch with the same hash and count, and its hash differs
    from the served one, if there is one; and whenever these conditions hold, the commit
    has the outcome changed and carries exactly the canonical payload, its hash and its
    count. *)
Theorem commit_publishes_vetted limit target fr err prev confirm started finished at_ rd :
  let input := commit_input target fr err started finished rd (assess limit target fr err prev confirm at_ rd) in
  (ci_Changed input = true ↔
     ∃ payload hash count v, vetted limit target fr err prev confirm payload hash count v) ∧
  (∀ payload hash count v, vetted limit target fr err prev confirm payload hash count v →
     ci_Outcome input = RChanged ∧ ci_Payload input = payload ∧ ci_ContentHash input = hash ∧
     ci_RecordsCount input = count ∧ ci_Manifest input = buildSnapshotManifest fr v).
Proof.
  intros input. set (a := assess limit target fr err prev confirm at_ rd) in *.
  set (kind := ref_Kind (st_Ref target)).
  assert (Ei : ci_Changed input = as_Changed a ∧ ci_Outcome input = as_Outcome a ∧
    ci_RecordsCount input = as_Records a ∧ (as_Outcome a = RChanged → ci_Payload input = as_Payload a ∧
      ci_ContentHash input = as_Hash a ∧ ci_Manifest input = as_Manifest a)).
  { unfold input, commit_input. destruct (classifyFetch fr err) as [[[o k] st] retry].
    destruct (discovered _ _ _ _ _) as [seeds seen]. cbn. split_and!; try done.
    intros ->. by rewrite bool_decide_eq_false_2. }
  destruct Ei as (-> & -> & -> & Hcar). clearbody input.
  assert (Hno : ∀ o k e, a = plain_outcome o k e → as_Changed a = true → False) by (by intros ? ? ? ->).
  unfold a, assess in *. fold kind in Hcar, Hno |- *. destruct (classifyFetch fr err) as [[[o k] st] retry].
  destruct err as [e|].
  { split; [|by intros ? ? ? ? [? _ _ _ _ _]]. split; [intros Hx; exfalso|by intros (? & ? & ? & ? & [? _ _ _ _ _])].
    revert Hno Hx. unfold rejected. destruct (err_NotModified e); [destruct (st_HasCurrentSnapshot target)|]; eauto. }
  destruct (rawHashUnchanged prev fr) eqn:Er.
  { split; [split; [done|]; intros (? & ? & ? & ? & [_ ? _ _ _ _])|intros ? ? ? ? [_ ? _ _ _ _]]; congruence. }
  destruct (Canonicalize kind _ limit) as [[[payload hash] count]|e] eqn:Ec.
  2:{ split; [split; [done|]; intros (? & ? & ? & ? & [_ _ ? _ _ _])|intros ? ? ? ? [_ _ ? _ _ _]]; unfold kind in *; congruence. }
  destruct (ValidatePayload kind _ _) as [v|e] eqn:Ev.
  2:{ split; [split; [done|]; intros (? & ? & ? & ? & [_ _ _ ? _ _])|intros ? ? ? ? [_ _ _ ? _ _]]; unfold kind in *; congruence. }
  destruct (assess_valid_changed limit target fr prev confirm at_ rd payload hash count v) as (Hi & Hp & _).
  cbv zeta in Hi, Hp. fold kind in Hi.
  assert (Hsame : ∀ p h n w, Canonicalize kind (fr_Value fr) limit = Ok (p, h, n) →
    ValidatePayload kind (fr_Value fr) (ref_ResourceKey (st_Ref target)) = Ok w →
    p = payload ∧ h = hash ∧ n = count ∧ w = v) by (unfold kind in *; intros; split_and!; congruence).
  split; [split|].
  - intros [Hs Hd]%Hi. exists payload, hash, count, v. split; assumption || reflexivity.
  - intros (p & h & n & w & [_ _ Ecw Evw Hs Hd]). destruct (Hsame _ _ _ _ Ecw Evw) as (-> & -> & -> & ->). apply Hi. by split.
  - intros p h n w [_ _ Ecw Evw Hs Hd]. destruct (Hsame _ _ _ _ Ecw Evw) as (-> & -> & -> & ->).
    destruct (Hp (proj2 Hi (conj Hs Hd))) as (Eo & Epl & Eh & En & Em).
    destruct (Hcar Eo) as (-> & -> & ->). by split_and!.
Qed.

(** * The schedule after a run *)

(** What a claimed row guarantees of the target handed to the run. *)
Record claimed (t : ScrapeTarget) : Prop := {
  cl_id : 0 < st_ID t;
  cl_generation : 0 < st_LeaseGeneration t;
  cl_owner : blank (st_LeaseOwner t) = false;
  cl_interval : 0 < st_CurrentInterval t;
  cl_min : 0 < st_MinInterval t;
  cl_max : st_MinInterval t ≤ st_MaxInterval t ≤ 2 ^ 52;
  cl_failures : 0 ≤ st_ConsecutiveFailures t < max_int64
}.

Lemma policy_bounds t : claimed t →
  p_Min (policyForTarget t) = st_MinInterval t ∧ p_Max (policyForTarget t) = st_MaxInterval t.
Proof.
  intros C. unfold policyForTarget. cbn. pose proof (cl_min _ C). pose proof (cl_max _ C).
  rewrite !(proj2 (Z.ltb_lt 0 _)) by lia. done.
Qed.

Lemma FullJitter_range cap rng : 0 < cap ≤ Hour → rng_ok rng → 0 ≤ FullJitter cap (Some rng) ≤ cap.
Proof.
  intros Hc [_ Hr]. unfold FullJitter. rewrite (proj2 (Z.leb_gt _ _)) by lia.
  unfold Hour, Minute, Second in Hc.
  rewrite wrap64_id by (unfold in_int64, min_int64, max_int64; lia). specialize (Hr (cap + 1)). lia.
Qed.

(** When the next attempt after a failure may start, relative to the end of the run. *)
Definition failure_window (o : RunOutcome) (failures retryAfter : Z) : Z * Z :=
  match o with
  | RRateLimited => (Z.max retryAfter (15 * Minute), Z.max retryAfter (15 * Minute))
  | RAuthError => (15 * Minute, 15 * Minute)
  | RNotFound | RPermanentError => (24 * Hour, 24 * Hour)
  | RInvalidPayload | RQuarantined => (Hour, Hour)
  | _ => (Z.max retryAfter 0, Z.max retryAfter (FailureDelay failures))
  end.

Lemma failureNextRun_window now o failures retryAfter rng :
  rng_ok rng →
  now + (failure_window o failures retryAfter).1 ≤ failureNextRun now o failures retryAfter rng ≤
  now + (failure_window o failures retryAfter).2.
Proof.
  intros Hr. pose proof (FailureDelay_range failures) as Hd.
  assert (Hj : 0 ≤ FullJitter (FailureDelay failures) (Some rng) ≤ FailureDelay failures).
  { apply FullJitter_range; [|done]. unfold Minute, Second in *. lia. }
  unfold failureNextRun, failure_window, time_Add. destruct o; cbn [fst snd]; try lia;
    destruct (_ <? _) eqn:E; bool_to_prop; lia.
Qed.

Lemma success_schedule target o finishedAt retryAfter rng :
  claimed target → rng_ok rng → isSuccessfulOutcome o = true →
  let s := run_schedule target o finishedAt retryAfter rng in
  st_MinInterval target ≤ rs_Interval s ≤ st_MaxInterval target ∧ rs_Failures s = 0 ∧
  (length (rs_History s) ≤ 10)%nat ∧
  finishedAt + rs_Interval s - (rs_Interval s / 10 + 1) ≤ rs_NextRunAt s ≤
    finishedAt + rs_Interval s + (rs_Interval s / 10 + 1) ∧ finishedAt ≤ rs_NextRunAt s.
Proof.
  intros C Hr Eo s. unfold s, run_schedule. rewrite Eo. cbn [rs_Interval rs_History rs_Failures rs_NextRunAt].
  destruct (policy_bounds _ C) as [Emin Emax]. pose proof (cl_min _ C). pose proof (cl_max _ C).
  destruct (NextSchedule_interval (policyForTarget target) (st_CurrentInterval target)
    (st_RecentChanges target) (schedule_outcome o)) as [Hi Hl]; [lia..|].
  rewrite Emin, Emax in Hi. set (i := sch_Interval _) in *.
  destruct (ApplyJitter_bounds i rng) as [Hj Hj0]; [lia|lia|done|].
  unfold time_Add. split_and!; try done; lia.
Qed.

Lemma failure_schedule target o finishedAt retryAfter rng :
  claimed target → rng_ok rng → isSuccessfulOutcome o = false →
  let s := run_schedule target o finishedAt retryAfter rng in
  rs_Interval s = st_CurrentInterval target ∧ rs_History s = st_RecentChanges target ∧
  rs_Failures s = st_ConsecutiveFailures target + 1 ∧
  finishedAt + (failure_window o (rs_Failures s) retryAfter).1 ≤ rs_NextRunAt s ≤
    finishedAt + (failure_window o (rs_Failures s) retryAfter).2 ∧ finishedAt ≤ rs_NextRunAt s.
Proof.
  intros C Hr Eo s. unfold s, run_schedule. rewrite Eo. cbn [rs_Interval rs_History rs_Failures rs_NextRunAt]. pose proof (cl_failures _ C).
  rewrite wrap64_id by (unfold in_int64, min_int64, max_int64 in *; lia).
  set (f := st_ConsecutiveFailures target + 1).
  pose proof (failureNextRun_window finishedAt o f retryAfter rng Hr) as [Hlo Hhi].
  assert (0 ≤ (failure_window o f retryAfter).1).
  { unfold failure_window, Hour, Minute, Second. destruct o; cbn; lia. }
  split_and!; done || lia.
Qed.

(** C11: the schedule after a run.  After a success the interval is within the target's
    bounds, the failure count is zero, the history holds at most ten outcomes, and the
    next run is one interval later up to a tenth of it; after a failure the interval
    and the history are kept, the failure count grows by one, and the next run falls in
    the window of its outcome, never before the Retry-After the upstream asked for on
    a rate limit or a transient error. *)
Theorem run_schedule_spec target o finishedAt retryAfter rng :
  claimed target → rng_ok rng →
  let s := run_schedule target o finishedAt retryAfter rng in
  if isSuccessfulOutcome o then
    st_MinInterval target ≤ rs_Interval s ≤ st_MaxInterval target ∧ rs_Failures s = 0 ∧
    (length (rs_History s) ≤ 10)%nat ∧
    finishedAt + rs_Interval s - (rs_Interval s / 10 + 1) ≤ rs_NextRunAt s ≤
      finishedAt + rs_Interval s + (rs_Interval s / 10 + 1) ∧ finishedAt ≤ rs_NextRunAt s
  else
    rs_Interval s = st_CurrentInterval target ∧ rs_History s = st_RecentChanges target ∧
    rs_Failures s = st_ConsecutiveFailures target + 1 ∧
    finishedAt + (failure_window o (rs_Failures s) retryAfter).1 ≤ rs_NextRunAt s ≤
      finishedAt + (failure_window o (rs_Failures s) retryAfter).2 ∧ finishedAt ≤ rs_NextRunAt s.
Proof.
  intros C Hr s. destruct (isSuccessfulOutcome o) eqn:Eo.
  - by apply success_schedule.
  - by apply failure_schedule.
Qed.

(** * The store accepts what the run submits *)

Lemma assess_outcome limit target fr err prev confirm at_ rd :
  let a := assess limit target fr err prev confirm at_ rd in
  known_outcome (as_Outcome a) = true ∧ (as_Changed a = true ↔ as_Outcome a = RChanged).
Proof.
  cbv zeta. unfold assess. pose proof (classifyFetch_outcome fr) as Hc.
  destruct (classifyFetch fr err) as [[[o k] st] retry] eqn:E. destruct err as [e|].
  - specialize (Hc e). rewrite E in Hc. destruct Hc as (Ho & Hn & _).
    destruct (err_NotModified e); [destruct (st_HasCurrentSnapshot target)|]; by cbn.
  - destruct (rawHashUnchanged prev fr); [done|].
    destruct (Canonicalize _ _ _) as [[[p h] n]|]; [|done].
    destruct (ValidatePayload _ _ _) as [v|]; [|done].
    destruct (assess_valid_changed limit target fr prev confirm at_ rd p h n v) as (_ & Hp & Hq).
    cbv zeta in *. destruct (as_Changed _).
    + destruct (Hp eq_refl) as (-> & _). done.
    + by destruct (Hq eq_refl) as [-> | ->].
Qed.

Lemma assess_changed_payload `{!GoLibLaws} limit target fr err prev confirm at_ rd :
  let a := assess limit target fr err prev confirm at_ rd in
  as_Changed a = true → as_Payload a ≠ "" ∧ json_Valid (as_Payload a) = true.
Proof.
  cbv zeta. unfold assess. destruct (classifyFetch fr err) as [[[o k] st] retry]. destruct err as [e|].
  { destruct (err_NotModified e); [destruct (st_HasCurrentSnapshot target)|]; done. }
  destruct (rawHashUnchanged prev fr); [done|].
  destruct (Canonicalize _ _ _) as [[[p h] n]|] eqn:Ec; [|done].
  destruct (ValidatePayload _ _ _) as [v|]; [|done].
  destruct (assess_valid_changed limit target fr prev confirm at_ rd p h n v) as (_ & Hp & _).
  cbv zeta in *. intros Hx. destruct (Hp Hx) as (_ & -> & _).
  apply Canonicalize_inv in Ec as (w & _ & Em & _). by eapply marshal_valid.
Qed.

(** Only a fetch that succeeded and validated changes anything, with its own manifest. *)
Lemma assess_changed_manifest limit target fr err prev confirm at_ rd :
  let a := assess limit target fr err prev confirm at_ rd in
  as_Changed a = true → err = None ∧
  ∃ v, ValidatePayload (ref_Kind (st_Ref target)) (fr_Value fr) (ref_ResourceKey (st_Ref target)) = Ok v ∧
       as_Manifest a = buildSnapshotManifest fr v.
Proof.
  cbv zeta. unfold assess. destruct (classifyFetch fr err) as [[[o k] st] retry]. destruct err as [e|].
  { destruct (err_NotModified e); [destruct (st_HasCurrentSnapshot target)|]; done. }
  destruct (rawHashUnchanged prev fr); [done|].
  destruct (Canonicalize _ _ _) as [[[p h] n]|] eqn:Ec; [|done].
  destruct (ValidatePayload _ _ _) as [v|]; [|done].
  destruct (assess_valid_changed limit target fr prev confirm at_ rd p h n v) as (_ & Hp & _).
  cbv zeta in *. intros Hx. destruct (Hp Hx) as (_ & _ & _ & _ & ->). eauto.
Qed.

Lemma commit_input_validates `{!GoLibLaws} limit target fr err prev confirm started finished at_ rd :
  let a := assess limit target fr err prev confirm at_ rd in
  claimed target → rng_ok (rd_Schedule rd) → 0 < started → 0 < finished → 0 ≤ fr_BytesRead fr →
  (as_Changed a = true → as_Hash a ≠ zero_hash) →
  validateCommit (commit_input target fr err started finished rd a) =
    if as_Changed a && negb (sm_Complete (as_Manifest a))
    then Err (ErrInvalid "changed commit requires a complete manifest") else Ok tt.
Proof.
  intros a C Hr Hst Hfi Hb Hz.
  destruct (assess_outcome limit target fr err prev confirm at_ rd) as [Hk Hch]. fold a in Hk, Hch.
  pose proof (assess_changed_payload limit target fr err prev confirm at_ rd) as Hpl. cbv zeta in Hpl. fold a in Hpl.
  clearbody a. unfold commit_input. destruct (classifyFetch fr err) as [[[o k] st] retry].
  pose proof (success_schedule target (as_Outcome a) finished retry (rd_Schedule rd) C Hr) as Hs.
  pose proof (failure_schedule target (as_Outcome a) finished retry (rd_Schedule rd) C Hr) as Hf. cbv zeta in Hs, Hf.
  set (s := run_schedule _ _ _ _ _) in *.
  destruct (discovered _ _ _ _ _) as [seeds seen]. unfold validateCommit. cbn.
  pose proof (cl_id _ C). pose proof (cl_generation _ C). pose proof (cl_interval _ C).
  pose proof (cl_min _ C). pose proof (cl_failures _ C).
  assert (Hn : 0 < rs_NextRunAt s ∧ 0 < rs_Interval s ∧ 0 ≤ rs_Failures s).
  { destruct (isSuccessfulOutcome _);
      [destruct (Hs eq_refl) as (? & -> & _ & _ & ?)|destruct (Hf eq_refl) as (-> & _ & -> & _ & ?)]; lia. }
  rewrite (cl_owner _ C), !(proj2 (Z.leb_gt _ _)), !(proj2 (Z.ltb_ge _ _)) by lia. unfold time_IsZero. cbn.
  rewrite !(proj2 (Z.eqb_neq _ _)) by lia. cbn.
  replace (match as_Outcome a with ROther _ => true | _ => false end) with false by (by destruct (as_Outcome a)).
  destruct (as_Changed a); cbn; [|done]. rewrite (proj1 Hch eq_refl).
  rewrite !(bool_decide_eq_false_2 (RChanged = RQuarantined)), (bool_decide_eq_false_2 (RChanged ≠ RChanged)) by naive_solver.
  destruct (Hpl eq_refl) as [Hne Hv]. cbn. destruct (sm_Complete (as_Manifest a)); cbn; [|done].
  unfold IsZeroContentHash. rewrite (bool_decide_eq_false_2 (as_Hash a = zero_hash)) by auto. cbn.
  by rewrite bool_decide_eq_false_2, Hv by done.
Qed.

(** C12: the store's validation accepts every commit a run submits, with one exception:
    changed content whose manifest is incomplete.  Such a run is submitted and refused
    as a whole. *)
Theorem commit_input_accepted `{!GoLibLaws} limit target fr err prev confirm started finished at_ rd :
  let a := assess limit target fr err prev confirm at_ rd in
  claimed target → rng_ok (rd_Schedule rd) → 0 < started → 0 < finished → 0 ≤ fr_BytesRead fr →
  (as_Changed a = true → as_Hash a ≠ zero_hash) →
  validateCommit (commit_input target fr err started finished rd a) =
    if as_Changed a && negb (sm_Complete (as_Manifest a))
    then Err (ErrInvalid "changed commit requires a complete manifest") else Ok tt.
Proof. exact (commit_input_validates limit target fr err prev confirm started finished at_ rd). Qed.
End decision.
