(* ===== verification/RunSystem.v ===== *)
(** Runs of the coordinator against a store: the laws the coordinator relies on, the
    snapshot repository as an instance of them, and what a whole run guarantees. *)

From stdpp Require Import base list numbers strings gmap sorting.
From Stdlib Require Import ZArith QArith Lia.
From S2P Require Import Prelude Float64 Sanitize Domain Policy Canonical Validation Tables Leases Lifecycle.
From S2P Require Import Reads Commit HostState Maintenance Store CommitSpec System Published LifecycleSpec.
From S2P Require Import Coordinator CoordinatorSpec.

Local Open Scope Z_scope.
Local Open Scope stdpp_scope.
Local Open Scope go_scope.

(** * The contract of a store *)

(** Every reading of the first state is a reading of the second, with the same content
    and validation. *)
Definition keeps {S} `{Store S} (s s' : S) : Prop :=
  ∀ ref sn, store_Current ref s = Ok sn →
    ∃ sn', store_Current ref s' = Ok sn' ∧ same_reading sn sn' ∧ same_validation sn sn'.

#[export] Instance keeps_preorder {S} `{Store S} : PreOrder keeps.
Proof.
  split.
  - intros s ref sn E. exists sn. by split_and!.
  - intros a b c Hab Hbc ref sn E. destruct (Hab ref sn E) as (sn1 & E1 & (?&?&?&?) & (?&?&?)).
    destruct (Hbc ref sn1 E1) as (sn2 & E2 & (?&?&?&?) & (?&?&?)).
    exists sn2. split; [done|]. split; split_and!; congruence.
Qed.

(** What a store promises to the coordinator about its invariant and its readers. *)
Class StoreLaws (S : Type) `{Store S} (Inv : S → Prop) : Prop := {
  law_commit_inv : ∀ i s s' r, Inv s → store_Commit i s = Ok (s', r) → Inv s';
  law_observe_inv : ∀ o s s', Inv s → store_Observe o s = Ok s' → Inv s';
  law_release_inv : ∀ t g s s', Inv s → store_ReleaseLease t g s = Ok s' → Inv s';
  law_reconcile_inv : ∀ i s s', Inv s → store_ReconcileLifecycle i s = Ok s' → Inv s';
  law_failed_commit : ∀ i s s' r, Inv s → isSuccessfulOutcome (ci_Outcome i) = false →
    store_Commit i s = Ok (s', r) → keeps s s';
  law_observe : ∀ o s s', Inv s → store_Observe o s = Ok s' → keeps s s';
  law_release : ∀ t g s s', Inv s → store_ReleaseLease t g s = Ok s' → keeps s s'
}.

Section client.
Context `{GoLib, CoordLib} {S : Type} `{Store S} (Inv : S → Prop) `{!StoreLaws S Inv}.

(** What the rest of the system does between the calls: it keeps the invariant and does
    not republish anything. *)
Definition quiet_others (other : nat → S → S) : Prop :=
  ∀ n s, Inv s → Inv (other n s) ∧ keeps s (other n s).

Definition reported_success (r : result CoordError RunResult) : bool :=
  match r with
  | Ok res | Err (CErrObserve res _) => rr_Succeeded res
  | _ => false
  end.

Lemma attempt_observe o s s' e :
  Inv s → attempt_ s (store_Observe o s) = (s', e) → Inv s' ∧ keeps s s'.
Proof.
  intros Hi E. unfold attempt_ in E. destruct (store_Observe o s) as [x|] eqn:Ex; simplify_eq.
  - split; [by eapply law_observe_inv|by eapply law_observe].
  - by split.
Qed.

Lemma commit_input_outcome target fr err started finished rd a :
  ci_Outcome (commit_input target fr err started finished rd a) = as_Outcome a.
Proof.
  unfold commit_input. destruct (classifyFetch fr err) as [[[? ?] ?] ?].
  by destruct (discovered _ _ _ _ _).
Qed.

Lemma attempt_failed_commit i s s' r :
  Inv s → isSuccessfulOutcome (ci_Outcome i) = false → attempt s (store_Commit i s) = (s', r) → keeps s s'.
Proof.
  intros Hi Ho E. unfold attempt in E. destruct (store_Commit i s) as [[x y]|] eqn:Ex; simplify_eq.
  - by eapply law_failed_commit.
  - done.
Qed.

(** C10: a run that does not report success leaves every reading of the store as it was,
    content and validation alike: canceled, rejected, quarantined or refused runs never
    disturb the last known good snapshots, with any store that meets its contract. *)
Theorem failed_run_keeps_readings limit target env other s s' r :
  Inv s → quiet_others other →
  RunClaimedWithRelease limit target env other s = (s', r) → reported_success r = false → keeps s s'.
Proof.
  intros Hi Hq E Hr. unfold RunClaimedWithRelease in E. destruct (_ || _); [by simplify_eq|].
  destruct (ref_Validate _) as [_|]; [|by simplify_eq]. destruct (Hq 0%nat s Hi) as [Hi0 K0].
  destruct (canceledFetch _ _).
  { unfold attempt_ in E. destruct (store_ReleaseLease _ _ _) as [s1|] eqn:Er; simplify_eq; [|done].
    etransitivity; [exact K0|]. by eapply law_release. }
  destruct (Hq 1%nat _ Hi0) as [Hi1 K1]. cbv zeta in E. set (a := assess _ _ _ _ _ _ _ _) in E.
  destruct (attempt_ (other 1%nat _) _) as [s2 obs] eqn:Eo. apply attempt_observe in Eo as [Hi2 K2]; [|done].
  destruct (Hq 2%nat _ Hi2) as [Hi3 K3]. set (input := commit_input _ _ _ _ _ _ _) in E.
  destruct (attempt (other 2%nat _) _) as [s4 cm] eqn:Ec.
  assert (K03 : keeps s (other 2%nat s2)) by (do 3 (etransitivity; [eassumption|]); done).
  destruct cm as [cr|e].
  - assert (Ho : isSuccessfulOutcome (as_Outcome a) = false) by (by destruct obs; simplify_eq).
    rewrite Ho in E. apply attempt_failed_commit in Ec; [|done|by unfold input; rewrite commit_input_outcome].
    simplify_eq. by transitivity (other 2%nat s2).
  - unfold attempt in Ec. destruct (store_Commit _ _) as [[? ?]|]; simplify_eq. done.
Qed.
End client.

(** * The repository meets the contract *)

Section repository.
Context `{GoLib, CoordLib, Postgres}.

(** The repository with its clocks, and the host controller's Observe over it. *)
Definition repository (now dbnow : Z) : Store DB := {|
  store_Commit := λ i db, Commit i now dbnow db;
  store_Current := Current;
  store_ReleaseLease := ReleaseLease;
  store_ReconcileLifecycle := λ i db, ReconcileLifecycle i dbnow db;
  store_Observe := HostController_Observe
|}.

(** Readers only depend on the published columns, the lifecycle and the snapshots. *)
Lemma quiet_keeps now dbnow db db' :
  wf db' → db_snaps db' = db_snaps db → quiet_rows db db' → @keeps DB (repository now dbnow) db db'.
Proof.
  intros W Es Hq ref sn E. destruct (Current_serves _ _ _ E) as (Hc & i & t & sid & s & v & [Ht Er Ha Hsid Hs Hv] & ->).
  destruct (Hq i t Ht) as (t' & Ht' & Er' & Ep' & El').
  exists (current_row ref i t' sid s v). split.
  - apply serves_Current; [done|done|]. split; rewrite ?Ep', ?El', ?Es; congruence.
  - unfold same_reading, same_validation. cbn. by rewrite Ep'.
Qed.

Lemma ReleaseLease_quiet i g db db' : ReleaseLease i g db = Ok db' → db_snaps db' = db_snaps db ∧ quiet_rows db db'.
Proof.
  unfold ReleaseLease. intros E. destruct (_ || _); [done|].
  destruct (update_where _ _ _) as [[d n]|] eqn:Eu; [|done]. cbn in E. simplify_eq.
  split; [by rewrite (update_where_others _ _ _ _ _ Eu)|].
  intros j t Ht. rewrite (update_where_lookup _ _ _ _ _ j Eu), Ht. cbn. eexists. split; [done|].
  destruct (held _ _ _ _); by split_and!.
Qed.

#[export] Instance repository_laws now dbnow : @StoreLaws DB (repository now dbnow) reachable.
Proof.
  split; cbn.
  - intros. by eapply rtc_r; [|eapply step_Commit].
  - intros. by eapply rtc_r; [|eapply step_ObserveHost].
  - intros. by eapply rtc_r; [|eapply step_ReleaseLease].
  - intros. by eapply rtc_r; [|eapply step_ReconcileLifecycle].
  - intros i db db' r Hr Ho E. pose proof (reachable_wf _ Hr) as W.
    destruct (Commit_inv _ _ _ _ _ _ W E) as (_ & [[-> _]|(Hno & t & db1 & x & A)]); [done|].
    intros ref sn Ecur. destruct (unpublished_keeps i now dbnow db db' r ref sn) as (sn' & E' & Hs & Hv); try done.
    + pose proof (ap_holds _ _ _ _ _ _ _ _ A) as [_ _ _ Hnew]. apply head_filter_None.
      intros rid x0 Hx. by apply Hnew with (rid := rid).
    + pose proof (ap_publish _ _ _ _ _ _ _ _ A) as Hp.
      destruct (ap_writes _ _ _ _ _ _ _ _ A) as [? ? ? ? ? Hs| |]; [|by destruct Hp..].
      change (successfulOutcome (ci_Outcome i) = false) in Ho. congruence.
    + exists sn'. split_and!; auto.
  - intros o db db' Hr E. destruct (ObserveHost_core _ _ _ E) as (Et & _ & Es & _).
    apply quiet_keeps; [by eapply reachable_wf, rtc_r; [|eapply step_ObserveHost]|done|].
    intros i t Ht. exists t. rewrite Et. by split_and!.
  - intros t g db db' Hr E. destruct (ReleaseLease_quiet _ _ _ _ E).
    apply quiet_keeps; [by eapply reachable_wf, rtc_r; [|eapply step_ReleaseLease]|done|done].
Qed.

(** * A not-modified answer *)

(** Reconciling with an empty listing. *)
Lemma reconcile_nothing parent version dbnow db db' i t :
  ReconcileLifecycle {| lr_ParentRef := parent; lr_ParentVersion := version; lr_DiscoveredSeeds := [];
    lr_SeenChildRefs := [] |} dbnow db = Ok db' →
  db_targets db !! i = Some t → is_child parent t = true →
  db_targets db' !! i = Some (if not_tombstoned t
    then set_life (missing_life (child_threshold parent) dbnow) t else t).
Proof.
  unfold ReconcileLifecycle, is_child, child_threshold. cbn. destruct (child_scope parent) as [[ck cp]|]; [|done].
  intros E Ht Hc. cbn in E. destruct (update_where _ _ db) as [[d n]|] eqn:Eu; [|done]. cbn in E. simplify_eq.
  rewrite (update_where_lookup _ _ _ _ _ i Eu), Ht. cbn. by rewrite Hc.
Qed.

(** A run whose upstream answers 304 Not Modified counts as a success with an empty
    listing, so the reconciliation that follows it counts a miss for every child of the
    target: none of them can be read afterwards, and a child at its last allowed miss
    is tombstoned and disabled. *)
Lemma not_modified_hides_children limit target fr e prev confirm started finished at_ rd cr dbnow db db' i t :
  err_NotModified e = true → st_HasCurrentSnapshot target = true → reachable db →
  let a := assess limit target fr (Some e) prev confirm at_ rd in
  let input := commit_input target fr (Some e) started finished rd a in
  ReconcileLifecycle (reconcile_input target input cr) dbnow db = Ok db' →
  db_targets db !! i = Some t → is_child (st_Ref target) t = true → ref_check (t_ref t) = Ok tt →
  isSuccessfulOutcome (as_Outcome a) = true ∧ Current (t_ref t) db' = Err ErrSnapshotNotFound ∧
  ∃ t', db_targets db' !! i = Some t' ∧
    (child_threshold (st_Ref target) ≤ consecutive_missing_count (t_life t) + 1 →
     lifecycle_state (t_life t) ≠ LifeTombstoned →
     lifecycle_state (t_life t') = LifeTombstoned ∧ enabled (t_life t') = false).
Proof.
  intros He Hsn Hr a input E Ht Hc Href.
  assert (Ea : a = plain_outcome RNotModified "" None).
  { unfold a, assess, classifyFetch. by rewrite He, Hsn. }
  assert (W' : wf db') by (by eapply reachable_wf, rtc_r; [|eapply step_ReconcileLifecycle]).
  assert (Ein : ci_Discovered input = [] ∧ ci_SeenChildRefs input = []).
  { unfold input. rewrite Ea. unfold commit_input, classifyFetch. by rewrite He. }
  unfold reconcile_input in E. destruct Ein as [Ed Es]. rewrite Ed, Es in E.
  pose proof (reconcile_nothing _ _ _ _ _ _ _ E Ht Hc) as Ht'. rewrite Ea. split; [done|].
  set (t' := if not_tombstoned t then _ else t) in Ht'.
  assert (G : lifecycle_state (t_life t') ≠ LifeActive ∧ t_ref t' = t_ref t).
  { unfold t', not_tombstoned. case_bool_decide as Hb; cbn.
    - by destruct (_ <=? _).
    - split; [|done]. intros El. apply Hb. auto. }
  destruct G as [Hna Er]. split.
  - unfold Current. rewrite Href. cbn. rewrite <- Er, (find_target_row _ _ _ W' Ht').
    by rewrite bool_decide_eq_true_2.
  - exists t'. split; [done|]. intros Hth Hnt. unfold t', not_tombstoned.
    rewrite bool_decide_eq_true_2 by (destruct (lifecycle_state (t_life t)); auto; done). cbn.
    by rewrite (proj2 (Z.leb_le _ _) Hth).
Qed.
End repository.
