(* ===== verification/Scheduler.v ===== *)
(** The scheduler's work on one claimed target ([internal/scraper/scheduler.go]:
    NewScheduler, executeClaimed with its permit loop, releaseUnstarted, leaseHeartbeat, the refresh
    delay, daily maintenance and the watchdog).

    The permit loop waits; the iterations it made are a list of what the environment
    gave each of them, and [None] is a call that has not returned yet. *)

From stdpp Require Import base list numbers strings gmap sorting.
From Stdlib Require Import ZArith QArith Lia.
From S2P Require Import Prelude Float64 Sanitize Domain Policy Canonical Validation Tables Leases Lifecycle.
From S2P Require Import Reads Commit HostState Maintenance Store CommitSpec System Coordinator RunSystem.

Local Open Scope Z_scope.
Local Open Scope stdpp_scope.
Local Open Scope go_scope.

Record SchedulerConfig := {
  sc_WorkerID : string;
  sc_MaxConcurrency : Z;
  sc_PrefetchFactor : Z;
  sc_LeaseDuration : Z;
  sc_CommitGrace : Z;
  sc_TickLimit : Z;
  sc_PollInterval : Z;
  sc_RefreshPollInterval : Z;
  sc_RefreshPollMax : Z;
  sc_SnapshotRetention : Z;
  sc_RunRetention : Z;
  sc_PruneBatchSize : Z;
  sc_WatchdogInterval : Z;
  sc_PermitTTL : Z
}.

(** The settings the scheduler works with; [None] is a panic of the constructor.  The
    time-to-live of permits is the host controller's and passes through. *)
Definition NewScheduler (c : SchedulerConfig) : option SchedulerConfig :=
  if bool_decide (sc_WorkerID c = "") then None
  else if sc_MaxConcurrency c <=? 0 then None
  else if sc_PrefetchFactor c <=? 0 then None
  else if (sc_LeaseDuration c <=? 0) || (sc_CommitGrace c <? 0) then None
  else if sc_TickLimit c <=? 0 then None
  else if (sc_PollInterval c <=? 0) || (sc_RefreshPollInterval c <=? 0) then None
  else
    let pollMax := if sc_RefreshPollMax c =? 0 then 500 * Millisecond else sc_RefreshPollMax c in
    if pollMax <? sc_RefreshPollInterval c then None
    else Some
      {| sc_WorkerID := sc_WorkerID c; sc_MaxConcurrency := sc_MaxConcurrency c;
         sc_PrefetchFactor := sc_PrefetchFactor c; sc_LeaseDuration := sc_LeaseDuration c;
         sc_CommitGrace := sc_CommitGrace c; sc_TickLimit := sc_TickLimit c; sc_PollInterval := sc_PollInterval c;
         sc_RefreshPollInterval := sc_RefreshPollInterval c; sc_RefreshPollMax := pollMax;
         sc_SnapshotRetention := sc_SnapshotRetention c; sc_RunRetention := sc_RunRetention c;
         sc_PruneBatchSize := if sc_PruneBatchSize c <=? 0 then 1000 else sc_PruneBatchSize c;
         sc_WatchdogInterval := if sc_WatchdogInterval c <=? 0 then 5 * Minute else sc_WatchdogInterval c;
         sc_PermitTTL := sc_PermitTTL c |}.

Inductive CtxError := CtxCanceled | CtxDeadlineExceeded.

Inductive SchedError :=
| SErrCtx (e : CtxError)
| SErrPermit (e : RepoError)
| SErrReschedule (e : RepoError)
| SErrRun (e : CoordError).

(** One iteration of the permit loop: the context, the clock, the end of the wait, and
    what the rest of the system does before the permit is asked for and before the
    iteration's last call on the store. *)
Record Attempt := {
  at_Ctx : option CtxError;
  at_Now : Z;
  at_Wait : option CtxError;
  at_Other : DB → DB;
  at_Later : DB → DB
}.

(** The run under the permit: what the coordinator sees, and what the rest of the
    system does before the permit is released and before a canceled lease is. *)
Record RunPart := {
  rp_Env : RunEnv;
  rp_Other : nat → DB → DB;
  rp_AppNow : Z;
  rp_DbNow : Z;
  rp_BeforePermit : DB → DB;
  rp_BeforeRelease : DB → DB
}.

Definition releaseUnstarted (target : ScrapeTarget) (db : DB) : DB :=
  (attempt_ db (ReleaseLease (st_ID target) (st_LeaseGeneration target) db)).1.

(** [errors.Is(runErr, context.Canceled) || errors.Is(runErr, context.DeadlineExceeded)] *)
Definition run_canceled (env : RunEnv) (e : CoordError) : bool :=
  match e with
  | CErrCanceled release =>
      match en_FetchErr env with
      | Some f => err_Canceled f || err_DeadlineExceeded f
      | None => match release with None => true | Some _ => false end
      end
  | _ => false
  end.

(** The normalised time of the next attempt. *)
Definition retry_at (cfg : SchedulerConfig) (decision : PermitDecision) (now : Z) : Z :=
  if time_IsZero (pd_RetryAt decision) || time_Before (pd_RetryAt decision) now
  then time_Add now (sc_RefreshPollInterval cfg) else pd_RetryAt decision.

(** The retry would come too late for the lease. *)
Definition past_lease (cfg : SchedulerConfig) (target : ScrapeTarget) (retryAt : Z) : bool :=
  match st_LeaseExpiresAt target with
  | None => false
  | Some e => negb (time_Before retryAt (time_Add e (- sc_CommitGrace cfg)))
  end.

Section scheduler.
Context `{GoLib, CoordLib, Postgres} (cfg : SchedulerConfig) (limit : Z).

(** The run once a permit was granted: run, release the permit, release a canceled lease. *)
Definition run_permitted (target : ScrapeTarget) (permit : HostPermit) (part : RunPart) (db : DB)
    : DB * result SchedError RunResult :=
  let '(db1, r) := @RunClaimedWithRelease _ _ _ (repository (rp_AppNow part) (rp_DbNow part))
                     limit target (rp_Env part) (rp_Other part) db in
  let db2 := HostController_Release (Some permit) (rp_BeforePermit part db1) in
  match r with
  | Ok res => (db2, Ok res)
  | Err e => (if run_canceled (rp_Env part) e then releaseUnstarted target (rp_BeforeRelease part db2) else db2,
              Err (SErrRun e))
  end.

(** Whether the target was attempted, and the outcome; a rescheduled lease is an
    unattempted success. *)
Fixpoint executeClaimed (target : ScrapeTarget) (attempts : list Attempt) (part : RunPart) (db : DB)
    : option (DB * (bool * result SchedError (option RunResult))) :=
  match attempts with
  | [] => None
  | a :: attempts' =>
      match at_Ctx a with
      | Some e => Some (releaseUnstarted target (at_Other a db), (false, Err (SErrCtx e)))
      | None =>
          let now := at_Now a in
          let db0 := at_Other a db in
          match HostController_Acquire (sc_PermitTTL cfg) target (sc_WorkerID cfg) now db0 with
          | Err e => Some (releaseUnstarted target (at_Later a db0), (false, Err (SErrPermit e)))
          | Ok (db1, decision) =>
              match pd_Permit decision with
              | Some permit =>
                  let '(db2, r) := run_permitted target permit part db1 in
                  Some (db2, (true, match r with Ok res => Ok (Some res) | Err e => Err e end))
              | None =>
                  let retryAt := retry_at cfg decision now in
                  if past_lease cfg target retryAt then
                    let db2 := at_Later a db1 in
                    match RescheduleLease (st_ID target) (st_LeaseGeneration target) retryAt db2 with
                    | Ok db3 => Some (db3, (false, Ok None))
                    | Err e => Some (db2, (false, Err (SErrReschedule e)))
                    end
                  else
                    match at_Wait a with
                    | Some e => Some (releaseUnstarted target (at_Later a db1), (false, Err (SErrCtx e)))
                    | None => executeClaimed target attempts' part (at_Later a db1)
                    end
              end
          end
      end
  end.

(** ** The other loops of the scheduler *)

(** One beat of [leaseHeartbeat]; [false] ends it. *)
Definition heartbeat (target : ScrapeTarget) (now : Z) (db : DB) : DB * bool :=
  match RenewLease (st_ID target) (sc_WorkerID cfg) (st_LeaseGeneration target) (sc_LeaseDuration cfg) now db with
  | Ok db' => (db', true)
  | Err _ => (db, false)
  end.

Definition heartbeat_interval : Z :=
  let interval := Z.quot (sc_LeaseDuration cfg) 3 in
  if 10 * Second <? interval then 10 * Second else interval.

Definition refreshPollDelay (rng : Rng) : Z :=
  if sc_RefreshPollMax cfg =? sc_RefreshPollInterval cfg then sc_RefreshPollInterval cfg
  else
    let span := wrap64 (sc_RefreshPollMax cfg - sc_RefreshPollInterval cfg) in
    wrap64 (sc_RefreshPollInterval cfg + rng_Int63n rng (wrap64 (span + 1))).

Definition seedForRef (ref : TargetRef) (now : Z) : TargetSeed :=
  child_seed ref "" 0 (PolicyFor ref.(ref_Kind) SessionStatusActive) now.

(** [lastDay] is the day of the last maintenance and [day] the formatted day of [now];
    [done] is whether the context has ended when Prune returns. *)
Definition runDailyMaintenance (now : Z) (day lastDay : string) (done : bool) (db : DB)
    : option (DB * string) :=
  if (sc_SnapshotRetention cfg <=? 0) || (sc_RunRetention cfg <=? 0) then Some (db, lastDay)
  else if bool_decide (lastDay = day) then Some (db, lastDay)
  else
    '(db', _, e) ← Prune {| pr_Now := now; pr_SnapshotRetention := sc_SnapshotRetention cfg;
                            pr_RunRetention := sc_RunRetention cfg; pr_BatchSize := sc_PruneBatchSize cfg |} db;
    Some (db', if negb (is_none e) && negb done then lastDay else if done then lastDay else day).

(** [done] is whether the context has ended; the repair events it logs are left out. *)
Definition RunWatchdog (done : bool) (now : Z) (db : DB) : DB :=
  if done then db
  else match FindStaleTargets now db with
  | Err _ => db
  | Ok [] => db
  | Ok stale => match RepairStaleTargets stale now db with Ok (db', _) => db' | Err _ => db end
  end.
End scheduler.
