(* ===== verification/SchedulerSpec.v ===== *)
(** A claimed target is not left leased: when the scheduler is done with it, the lease is
    over, whatever path it took, except when the store refused the run's commit. *)

From stdpp Require Import base list numbers strings gmap sorting.
From Stdlib Require Import ZArith QArith Lia.
From S2P Require Import Prelude Float64 Sanitize Domain Policy Canonical Validation Tables Leases Lifecycle.
From S2P Require Import Reads Commit HostState Maintenance Store CommitSpec System Coordinator CoordinatorSpec.
From S2P Require Import RunSystem Scheduler.

Local Open Scope Z_scope.
Local Open Scope stdpp_scope.
Local Open Scope go_scope.

(** * Leases that are over *)

(** The generation was handed out for this target. *)
Definition handed_out (db : DB) (id g : Z) : Prop :=
  ∃ t, db_targets db !! id = Some t ∧ g ≤ lease_generation (t_lease t).

Lemma evolves_handed_out db db' id g : evolves db db' → handed_out db id g → handed_out db' id g.
Proof.
  intros Ev (t & Ht & Hg). destruct (ev_rows _ _ Ev id t Ht) as (t' & Ht' & _ & Hl & _).
  exists t'. split; [done|]. destruct Hl as [?|[? _]]; lia.
Qed.

Lemma clear_lease_check t : target_check t = true → target_check (clear_lease t) = true.
Proof. unfold target_check. cbn. rewrite !andb_true_iff. intros Hc. destruct_and! Hc. by split_and!. Qed.

Lemma set_next_run_check n t : target_check t = true → target_check (set_next_run n t) = true.
Proof. done. Qed.

(** Clearing the lease under its generation leaves it over. *)
Lemma cleared_dead p f db db' n id g :
  update_where p f db = Ok (db', n) → handed_out db id g →
  (∀ t, db_targets db !! id = Some t → p id t = (lease_generation (t_lease t) =? g)) →
  (∀ t, lease_owner (t_lease (f t)) = None ∧ lease_generation (t_lease (f t)) = lease_generation (t_lease t)) →
  dead db' id g.
Proof.
  intros E (t & Ht & Hg) Hp Hf. exists (if p id t then f t else t).
  rewrite (update_where_lookup _ _ _ _ _ id E), Ht. split; [done|]. rewrite (Hp t Ht).
  destruct (_ =? g) eqn:Eg; bool_to_prop.
  - destruct (Hf t) as [Ho Hgen]. right. rewrite Ho, Hgen. by split.
  - left. lia.
Qed.

Section leases.
Context `{GoLib, CoordLib, Postgres}.

Lemma held_id id g t : held id g id t = (lease_generation (t_lease t) =? g).
Proof. unfold held. by rewrite Z.eqb_refl. Qed.

(** A good state for the work on a claimed target. *)
Record working (db : DB) (id g : Z) : Prop := {
  wk_reach : reachable db;
  wk_out : handed_out db id g
}.

Lemma working_steps db db' id g : rtc db_step db db' → working db id g → working db' id g.
Proof.
  intros Hs [Hr Ho]. destruct (steps_good _ _ Hs (reachable_wf _ Hr)) as [_ Ev]. split; [|by eapply evolves_handed_out].
  unfold reachable in *. by transitivity db.
Qed.

Lemma dead_steps db db' id g : reachable db → rtc db_step db db' → dead db id g → dead db' id g.
Proof. intros Hr Hs. apply evolves_dead. by apply (steps_good _ _ Hs (reachable_wf _ Hr)). Qed.

(** A statement whose rewriting keeps the checks cannot fail on a reachable store. *)
Lemma update_where_total p f db :
  reachable db → (∀ t, target_check t = true → target_check (f t) = true) →
  ∃ db' n, update_where p f db = Ok (db', n).
Proof.
  intros Hr Hf. unfold update_where. rewrite bool_decide_eq_true_2; [eauto|].
  intros i t (u & <- & (Hu & _)%map_lookup_filter_Some)%lookup_fmap_Some. apply Hf.
  by apply (wf_check _ (reachable_wf _ Hr) i).
Qed.

Lemma ReleaseLease_ends id g db :
  0 < id → 0 < g → working db id g →
  ∃ db', ReleaseLease id g db = Ok db' ∧ working db' id g ∧ dead db' id g.
Proof.
  intros Hi Hg W. destruct (update_where_total (held id g) clear_lease db (wk_reach _ _ _ W) clear_lease_check)
    as (db' & n & E).
  assert (Er : ReleaseLease id g db = Ok db').
  { unfold ReleaseLease. rewrite !(proj2 (Z.leb_gt _ _)) by lia. cbn [orb]. by rewrite E. }
  exists db'. split; [done|]. split.
  - eapply working_steps; [|exact W]. eapply rtc_once, step_ReleaseLease. exact Er.
  - eapply cleared_dead; [exact E|exact (wk_out _ _ _ W)|by intros; apply held_id|done].
Qed.

Lemma RescheduleLease_ends id g next db :
  working db id g →
  match RescheduleLease id g next db with
  | Ok db' => working db' id g ∧ dead db' id g
  | Err _ => dead db id g
  end.
Proof.
  intros W. destruct (update_where_total (held id g) (λ t, clear_lease (set_next_run next t)) db (wk_reach _ _ _ W))
    as (db' & n & E); [intros; by apply clear_lease_check|].
  destruct (RescheduleLease id g next db) as [d|e] eqn:Er.
  - pose proof Er as Er'. unfold RescheduleLease in Er'. rewrite E in Er'. cbn in Er'.
    destruct (n =? 0); simplify_eq. split.
    + eapply working_steps; [|exact W]. eapply rtc_once, step_RescheduleLease. exact Er.
    + eapply cleared_dead; [exact E|exact (wk_out _ _ _ W)|by intros; apply held_id|done].
  - unfold RescheduleLease in Er. rewrite E in Er. cbn in Er. destruct (n =? 0) eqn:En; [|done]. bool_to_prop.
    destruct (wk_out _ _ _ W) as (t & Ht & Hg). exists t. split; [done|]. left.
    assert (held id g id t = false) as Hh by (by apply (proj1 (update_where_zero _ _ _ _ _ E) En id t)).
    rewrite held_id in Hh. bool_to_prop. lia.
Qed.

(** * A run ends its lease *)

(** What the rest of the system does between two calls. *)
Definition only_steps (f : DB → DB) : Prop := ∀ db, reachable db → rtc db_step db (f db).

Lemma working_other f db id g : only_steps f → working db id g → working (f db) id g.
Proof. intros Hf W. eapply working_steps; [|exact W]. apply Hf, (wk_reach _ _ _ W). Qed.

Lemma dead_other f db id g : only_steps f → reachable db → dead db id g → dead (f db) id g.
Proof. intros Hf Hr. by apply dead_steps, Hf. Qed.

(** The run's commit was refused, or its reference is malformed: the lease is left to
    expire. *)
Definition lease_left (e : CoordError) : bool :=
  match e with CErrCommit _ _ | CErrRef _ => true | _ => false end.

Definition run_over (db : DB) (id g : Z) (r : result CoordError RunResult) : Prop :=
  working db id g ∧ (match r with Err e => lease_left e = false | Ok _ => True end → dead db id g).

Lemma RunClaimed_ends limit target env other now dbnow db db' r :
  let id := st_ID target in let g := st_LeaseGeneration target in
  0 < id → 0 < g → working db id g → (∀ n, only_steps (other n)) →
  @RunClaimedWithRelease _ _ _ (repository now dbnow) limit target env other db = (db', r) →
  run_over db' id g r.
Proof.
  intros id g Hi Hg W Hoth E. unfold RunClaimedWithRelease in E. fold id g in E.
  rewrite !(proj2 (Z.leb_gt _ _)) in E by lia. cbn [orb] in E.
  destruct (ref_Validate _) as [_|e]; [|simplify_eq; by split].
  pose proof (working_other _ _ _ _ (Hoth 0%nat) W) as W0. destruct (canceledFetch _ _).
  { destruct (ReleaseLease_ends id g _ Hi Hg W0) as (d & Ed & Wd & Dd). cbn in E. rewrite Ed in E. cbn in E.
    simplify_eq. by split. }
  pose proof (working_other _ _ _ _ (Hoth 1%nat) W0) as W1. cbv zeta in E.
  set (a := assess _ _ _ _ _ _ _ _) in E. set (o := observation _ _ _ _ _ _) in E.
  destruct (attempt_ (other 1%nat _) _) as [s2 obs] eqn:Eo.
  assert (W2 : working s2 id g).
  { unfold attempt_ in Eo. destruct (store_Observe _ _) as [x|] eqn:Ex; simplify_eq; [|done].
    eapply working_steps; [|exact W1]. eapply rtc_once, step_ObserveHost. exact Ex. }
  pose proof (working_other _ _ _ _ (Hoth 2%nat) W2) as W3. set (input := commit_input _ _ _ _ _ _ _) in E.
  assert (Ein : ci_TargetID input = id ∧ ci_LeaseGeneration input = g).
  { unfold input, commit_input. destruct (classifyFetch _ _) as [[[? ?] ?] ?]. by destruct (discovered _ _ _ _ _). }
  destruct Ein as [Eid Eg]. unfold attempt in E. destruct (store_Commit _ _) as [[s4 cr]|e] eqn:Ec.
  2:{ simplify_eq. by split. }
  pose proof (working_steps _ _ _ _ (rtc_once _ _ (step_Commit _ _ _ _ _ _ Ec)) W3) as W4.
  destruct (Commit_records _ _ _ _ _ _ (reachable_wf _ (wk_reach _ _ _ W3)) Ec) as [_ D4]. rewrite Eid, Eg in D4.
  assert (G : working db' id g ∧ dead db' id g).
  { injection E as <- _. destruct (isSuccessfulOutcome _); [|done].
    pose proof (working_other _ _ _ _ (Hoth 3%nat) W4) as W5.
    pose proof (dead_other _ _ _ _ (Hoth 3%nat) (wk_reach _ _ _ W4) D4) as D5. unfold attempt_.
    destruct (ReconcileLifecycle _ _ _) as [s6|] eqn:Er; cbn; [|done].
    assert (S6 : rtc db_step (other 3%nat s4) s6) by (eapply rtc_once, step_ReconcileLifecycle; exact Er).
    split; [by eapply working_steps|by eapply dead_steps; [apply (wk_reach _ _ _ W5)| |]]. }
  destruct G. by split.
Qed.

(** ** The scheduler's side *)

Lemma releaseUnstarted_ends target db :
  0 < st_ID target → 0 < st_LeaseGeneration target → working db (st_ID target) (st_LeaseGeneration target) →
  working (releaseUnstarted target db) (st_ID target) (st_LeaseGeneration target) ∧
  dead (releaseUnstarted target db) (st_ID target) (st_LeaseGeneration target).
Proof.
  intros Hi Hg W. destruct (ReleaseLease_ends _ _ _ Hi Hg W) as (db' & E & W' & D).
  unfold releaseUnstarted. by rewrite E.
Qed.

Lemma Acquire_steps ttl target w now db db' d :
  HostController_Acquire ttl target w now db = Ok (db', d) → rtc db_step db db'.
Proof.
  unfold HostController_Acquire. destruct (_ || _); [done|]. destruct (blank w); [done|].
  intros E. by eapply rtc_once, step_AcquireHostPermit.
Qed.

Definition quiet_attempt (a : Attempt) : Prop := only_steps (at_Other a) ∧ only_steps (at_Later a).
Definition quiet_part (p : RunPart) : Prop :=
  (∀ n, only_steps (rp_Other p n)) ∧ only_steps (rp_BeforePermit p) ∧ only_steps (rp_BeforeRelease p).

(** The outcomes after which the lease is left to expire. *)
Definition left_leased {A} (r : result SchedError A) : bool :=
  match r with Err (SErrRun e) => lease_left e | _ => false end.

Lemma run_permitted_ends limit target permit part db db' r :
  let id := st_ID target in let g := st_LeaseGeneration target in
  0 < id → 0 < g → working db id g → quiet_part part →
  run_permitted limit target permit part db = (db', r) →
  working db' id g ∧ (left_leased r = false → dead db' id g).
Proof.
  intros id g Hi Hg W (Ho & Hp & Hb) E. unfold run_permitted in E.
  destruct (RunClaimedWithRelease _ _ _ _ _) as [db1 r1] eqn:E1.
  destruct (RunClaimed_ends _ _ _ _ _ _ _ _ _ Hi Hg W Ho E1) as [W1 D1].
  pose proof (working_other _ _ _ _ Hp W1) as W2. set (d2 := HostController_Release _ _) in E.
  assert (S2 : rtc db_step (rp_BeforePermit part db1) d2) by (apply rtc_once, step_ReleaseHostPermit).
  pose proof (working_steps _ _ _ _ S2 W2) as W3.
  assert (D3 : dead db1 id g → dead d2 id g).
  { intros D. eapply dead_steps; [apply (wk_reach _ _ _ W2)|exact S2|]. by eapply dead_other; [|apply (wk_reach _ _ _ W1)|]. }
  destruct r1 as [res|e]; [simplify_eq; split; [done|]; intros _; by apply D3, D1|].
  destruct (run_canceled _ e); simplify_eq; [|split; [done|]; intros Hl; by apply D3, D1].
  destruct (releaseUnstarted_ends target (rp_BeforeRelease part d2)); [done|done|by apply working_other|done].
Qed.

(** A return of the permit loop, by any path, ends the lease. *)
Lemma executeClaimed_ends cfg limit target attempts part db db' attempted r :
  let id := st_ID target in let g := st_LeaseGeneration target in
  0 < id → 0 < g → reachable db → handed_out db id g →
  Forall quiet_attempt attempts → quiet_part part →
  executeClaimed cfg limit target attempts part db = Some (db', (attempted, r)) →
  working db' id g ∧ (left_leased r = false → dead db' id g).
Proof.
  intros id g Hi Hg Hr Ho Ha Hp E. assert (W : working db id g) by (by split). clear Hr Ho.
  revert db W E. induction Ha as [|a attempts [Hq Hq'] _ IH]; intros db W E; [done|]. cbn [executeClaimed] in E.
  pose proof (working_other _ _ _ _ Hq W) as W0.
  assert (G : ∀ d, working d id g → working (releaseUnstarted target d) id g ∧ (left_leased r = false → dead (releaseUnstarted target d) id g)).
  { intros d Wd. destruct (releaseUnstarted_ends target d Hi Hg Wd). by split. }
  destruct (at_Ctx a); [simplify_eq; by apply G|]. cbv zeta in E.
  destruct (HostController_Acquire _ _ _ _ _) as [[db1 d]|e] eqn:Ea.
  2:{ simplify_eq. by apply G, working_other. }
  pose proof (working_steps _ _ _ _ (Acquire_steps _ _ _ _ _ _ _ Ea) W0) as W1.
  pose proof (working_other _ _ _ _ Hq' W1) as W2.
  destruct (pd_Permit d) as [permit|].
  - destruct (run_permitted _ _ _ _ _) as [db2 r2] eqn:E2. injection E as <- <- <-.
    destruct (run_permitted_ends _ _ _ _ _ _ _ Hi Hg W1 Hp E2). split; [done|]. by destruct r2.
  - destruct (past_lease _ _ _).
    + pose proof (RescheduleLease_ends id g (retry_at cfg d (at_Now a)) _ W2) as Hre. fold id g in E.
      destruct (RescheduleLease _ _ _ _); simplify_eq; [by destruct Hre|done].
    + destruct (at_Wait a); [simplify_eq; by apply G|]. by apply (IH _ W2).
Qed.

Lemma retry_at_ge cfg d now : 0 ≤ sc_RefreshPollInterval cfg → now ≤ retry_at cfg d now.
Proof. unfold retry_at, time_Before, time_Add. destruct (time_IsZero _), (Z.ltb_spec (pd_RetryAt d) now); cbn; lia. Qed.

(** The time from which a refused permit gives the lease back. *)
Definition lease_deadline (cfg : SchedulerConfig) (expires : Z) : Z := time_Add expires (- sc_CommitGrace cfg).

(** The permit loop does not wait past the lease. *)
Lemma executeClaimed_returns cfg limit target attempts part expires db :
  0 ≤ sc_RefreshPollInterval cfg → st_LeaseExpiresAt target = Some expires →
  Exists (λ a, lease_deadline cfg expires ≤ at_Now a) attempts →
  is_Some (executeClaimed cfg limit target attempts part db).
Proof.
  intros Hi He Hx. revert db. induction Hx as [a attempts Hd|a attempts _ IH]; intros db; cbn [executeClaimed]; cbv zeta.
  all: destruct (at_Ctx a); [done|].
  all: destruct (HostController_Acquire _ _ _ _ _) as [[db1 d]|e]; [|done].
  all: destruct (pd_Permit d) as [permit|]; [by destruct (run_permitted _ _ _ _ _)|].
  all: destruct (past_lease _ _ _) eqn:Ep; [by destruct (RescheduleLease _ _ _ _)|].
  - exfalso. pose proof (retry_at_ge cfg d (at_Now a) Hi) as Hr. unfold past_lease, time_Before in Ep.
    rewrite He in Ep. apply negb_false_iff, Z.ltb_lt in Ep. unfold lease_deadline in Hd. lia.
  - destruct (at_Wait a); [done|apply IH].
Qed.

(** C13: the scheduler finishes with a claimed target and does not leak its lease.  If
    its clock gets as far as the lease's deadline, its work on the target returns, by
    one of many paths (canceled, permit refused or too late, waited, ran, ran and was
    canceled) and whatever other workers do in between; the lease it worked under is
    then over: released, rescheduled, committed or taken over.  The exceptions
    are a run whose commit the store refused and a target whose reference is malformed,
    whose leases are left to expire. *)
Theorem executeClaimed_ends_lease cfg limit target attempts part expires db :
  let id := st_ID target in let g := st_LeaseGeneration target in
  0 < id → 0 < g → reachable db → handed_out db id g →
  0 ≤ sc_RefreshPollInterval cfg → st_LeaseExpiresAt target = Some expires →
  Exists (λ a, lease_deadline cfg expires ≤ at_Now a) attempts →
  Forall quiet_attempt attempts → quiet_part part →
  ∃ db' attempted r,
    executeClaimed cfg limit target attempts part db = Some (db', (attempted, r)) ∧
    (left_leased r = false → dead db' id g).
Proof.
  intros id g Hi Hg Hr Ho Hp He Hx Ha Hq.
  destruct (executeClaimed_returns cfg limit target attempts part expires db Hp He Hx) as [[db' [attempted r]] E].
  exists db', attempted, r. split; [done|].
  by apply (executeClaimed_ends cfg limit target attempts part db db' attempted r).
Qed.
End leases.
