(* ===== verification/SchedulerLoop.v ===== *)
(** The scheduler's batch loop ([internal/scraper/scheduler.go]:
    RunDue and a turn of Run).

    RunDue claims a batch and works on its targets in goroutines of their own.  Each
    worker is followed from the store it starts on to the store it leaves; what the
    siblings and other processes do lies between its calls, as for [executeClaimed], and
    the store after the batch comes after every worker's last one. *)

From stdpp Require Import base list numbers strings gmap sorting relations.
From Stdlib Require Import ZArith QArith Lia.
From S2P Require Import Prelude Float64 Sanitize Domain Policy Canonical Validation Tables Leases Lifecycle.
From S2P Require Import Reads Commit HostState Maintenance Store CommitSpec System Claims MaintenanceSpec Coordinator.
From S2P Require Import CoordinatorSpec RunSystem Scheduler SchedulerSpec.

Local Open Scope Z_scope.
Local Open Scope stdpp_scope.
Local Open Scope go_scope.

(** * RunDue *)

Record TickResult := {
  tk_Claimed : Z;
  tk_Attempted : Z;
  tk_Succeeded : Z;
  tk_Changed : Z;
  tk_Failed : Z;
  tk_Canceled : Z;
  tk_RemainingDue : Z
}.

Definition zero_tick : TickResult :=
  {| tk_Claimed := 0; tk_Attempted := 0; tk_Succeeded := 0; tk_Changed := 0; tk_Failed := 0; tk_Canceled := 0;
     tk_RemainingDue := 0 |}.

(** What RunDue joins into its error. *)
Inductive TickError :=
| TErrLimit
| TErrClaim (e : RepoError)
| TErrRun (e : SchedError)
| TErrCtx (e : CtxError).

(** One worker: whether it got a slot before the context ended, the store it starts on,
    and what the environment gives [executeClaimed]. *)
Record WorkerRun := {
  wr_Started : bool;
  wr_Start : DB;
  wr_Attempts : list Attempt;
  wr_Part : RunPart
}.

Inductive WorkerEnd :=
| WCanceled
| WEnd (attempted : bool) (r : result SchedError (option RunResult)).

(** One iteration of the loop: the context, the clock, the rows other transactions have
    locked, the workers, and the store when all of them are done. *)
Record TickEnv := {
  te_Done : bool;
  te_Now : Z;
  te_Locked : gset Z;
  te_Worker : ScrapeTarget → WorkerRun;
  te_Final : DB
}.

(** The end of a tick: maintenance and the count, with the context's error by then. *)
Record TickTail := {
  tt_MaintNow : Z;
  tt_Day : string;
  tt_MaintDone : bool;
  tt_CountNow : Z;
  tt_Ctx : option CtxError
}.

(** [errors.Is(runErr, context.Canceled) || errors.Is(runErr, context.DeadlineExceeded)] *)
Definition worker_canceled (part : RunPart) (e : SchedError) : bool :=
  match e with
  | SErrCtx _ => true
  | SErrRun e' => run_canceled (rp_Env part) e'
  | SErrPermit _ | SErrReschedule _ => false
  end.

Definition count (claimed attempted succeeded changed failed canceled : Z) (r : TickResult) : TickResult :=
  {| tk_Claimed := tk_Claimed r + claimed; tk_Attempted := tk_Attempted r + attempted;
     tk_Succeeded := tk_Succeeded r + succeeded; tk_Changed := tk_Changed r + changed;
     tk_Failed := tk_Failed r + failed; tk_Canceled := tk_Canceled r + canceled;
     tk_RemainingDue := tk_RemainingDue r |}.

(** What a worker adds to the result and to the joined error. *)
Definition tally (part : RunPart) (e : WorkerEnd) (acc : TickResult * list TickError) : TickResult * list TickError :=
  let '(r, errs) := acc in
  match e with
  | WCanceled => (count 0 0 0 0 0 1 r, errs)
  | WEnd attempted (Err err) =>
      let n := Z.b2z attempted in
      if worker_canceled part err then (count 0 n 0 0 0 1 r, errs) else (count 0 n 0 0 1 0 r, errs ++ [TErrRun err])
  | WEnd attempted (Ok None) => (count 0 (Z.b2z attempted) 0 0 0 0 r, errs)
  | WEnd attempted (Ok (Some res)) =>
      if negb attempted then (r, errs)
      else if rr_Succeeded res then (count 0 1 1 (Z.b2z (rr_Changed res)) 0 0 r, errs)
      else (count 0 1 0 0 1 0 r, errs)
  end.

Section loop.
Context `{GoLib, CoordLib, Postgres} (cfg : SchedulerConfig) (maxBytes : Z).

Definition worker_exec (target : ScrapeTarget) (w : WorkerRun) : option (DB * WorkerEnd) :=
  if wr_Started w then
    '(db, (attempted, r)) ← executeClaimed cfg maxBytes target (wr_Attempts w) (wr_Part w) (wr_Start w);
    Some (db, WEnd attempted r)
  else Some (releaseUnstarted target (wr_Start w), WCanceled).

(** The goroutines of a batch, joined; they are counted in the order of the batch, and
    the counts do not depend on it. *)
Fixpoint run_batch (targets : list ScrapeTarget) (worker : ScrapeTarget → WorkerRun) (acc : TickResult * list TickError)
    : option ((TickResult * list TickError) * list (ScrapeTarget * WorkerEnd)) :=
  match targets with
  | [] => Some (acc, [])
  | t :: targets' =>
      '(_, e) ← worker_exec t (worker t);
      '(acc', ends) ← run_batch targets' worker (tally (wr_Part (worker t)) e acc);
      Some (acc', (t, e) :: ends)
  end.

Definition claim_limit (limit claimed : Z) : Z :=
  let remaining := limit - claimed in
  let n := wrap64 (sc_MaxConcurrency cfg * sc_PrefetchFactor cfg) in
  if remaining <? n then remaining else n.

Definition tick_claim (limit claimed : Z) (e : TickEnv) (db : DB) : result RepoError (DB * list ScrapeTarget) :=
  ClaimDue {| cr_Now := te_Now e; cr_Limit := claim_limit limit claimed; cr_WorkerID := sc_WorkerID cfg;
              cr_LeaseDuration := sc_LeaseDuration cfg |} (te_Locked e) db.

(** The claim loop.  It also lists how each claimed target ended. *)
Fixpoint due_loop (limit : Z) (envs : list TickEnv) (acc : TickResult * list TickError) (db : DB)
    : option (DB * (TickResult * list TickError) * list (ScrapeTarget * WorkerEnd)) :=
  if limit <=? tk_Claimed acc.1 then Some (db, acc, [])
  else
    match envs with
    | [] => None
    | e :: envs' =>
        if te_Done e then Some (db, acc, [])
        else
          match tick_claim limit (tk_Claimed acc.1) e db with
          | Err err => Some (db, (acc.1, acc.2 ++ [TErrClaim err]), [])
          | Ok (db1, []) => Some (db1, acc, [])
          | Ok (db1, targets) =>
              let n := Z.of_nat (length targets) in
              '(acc', ends) ← run_batch targets (te_Worker e) (count n 0 0 0 0 0 acc.1, acc.2);
              if n <? claim_limit limit (tk_Claimed acc.1) then Some (te_Final e, acc', ends)
              else
                '(db2, acc2, ends2) ← due_loop limit envs' acc' (te_Final e);
                Some (db2, acc2, ends ++ ends2)
          end
    end.

Definition tick_limit (limit : Z) : Z := if sc_TickLimit cfg <? limit then sc_TickLimit cfg else limit.

(** [lastDay] is the day of the last maintenance. *)
Definition RunDue (limit : Z) (envs : list TickEnv) (tail : TickTail) (lastDay : string) (db : DB)
    : option (DB * string * (TickResult * list TickError) * list (ScrapeTarget * WorkerEnd)) :=
  if limit <=? 0 then Some (db, lastDay, (zero_tick, [TErrLimit]), [])
  else
    '(db1, (r, errs), ends) ← due_loop (tick_limit limit) envs (zero_tick, []) db;
    '(db2, day) ← runDailyMaintenance cfg (tt_MaintNow tail) (tt_Day tail) lastDay (tt_MaintDone tail) db1;
    let r' := {| tk_Claimed := tk_Claimed r; tk_Attempted := tk_Attempted r; tk_Succeeded := tk_Succeeded r;
                 tk_Changed := tk_Changed r; tk_Failed := tk_Failed r; tk_Canceled := tk_Canceled r;
                 tk_RemainingDue := CountDue (tt_CountNow tail) db2 |} in
    Some (db2, day, (r', errs ++ match tt_Ctx tail with Some e => [TErrCtx e] | None => [] end), ends).

(** One turn of the loop of Run: the watchdog if its ticker fired (with the context and the
    clock it sees), then a tick; [gap] is what happens in between.  Run repeats it with a
    wait of the poll interval until the context ends. *)
Definition Run_iteration (watch : option (bool * Z)) (gap : DB → DB) (envs : list TickEnv) (tail : TickTail)
    (lastDay : string) (db : DB) : option (DB * string) :=
  let db1 := match watch with Some (done, now) => RunWatchdog done now db | None => db end in
  '(db2, day, _, _) ← RunDue (sc_TickLimit cfg) envs tail lastDay (gap db1);
  Some (db2, day).

(** * What a tick promises *)

(** The permit was refused until too late and the lease given back for a later run. *)
Definition rescheduled (e : WorkerEnd) : bool := match e with WEnd false (Ok None) => true | _ => false end.
Definition end_left (e : WorkerEnd) : bool := match e with WEnd _ r => left_leased r | WCanceled => false end.

(** The lease a claim handed out. *)
Definition lease_of (t : ScrapeTarget) : Z * Z := (st_ID t, st_LeaseGeneration t).

(** A worker starts after the claim, meets only other transactions, reaches the lease's
    deadline if nothing ends it before, and is done before the batch is. *)
Record worker_ok (target : ScrapeTarget) (db final : DB) (w : WorkerRun) : Prop := {
  wo_start : rtc db_step db (wr_Start w);
  wo_attempts : Forall quiet_attempt (wr_Attempts w);
  wo_part : quiet_part (wr_Part w);
  wo_deadline : ∀ x, st_LeaseExpiresAt target = Some x → wr_Started w = true →
    Exists (λ a, lease_deadline cfg x ≤ at_Now a) (wr_Attempts w);
  wo_final : ∀ db' e, worker_exec target w = Some (db', e) → rtc db_step db' final
}.

Fixpoint due_ok (limit claimed : Z) (envs : list TickEnv) (db : DB) : Prop :=
  match envs with
  | [] => True
  | e :: envs' =>
      ∀ db1 targets, te_Done e = false → tick_claim limit claimed e db = Ok (db1, targets) →
        rtc db_step db1 (te_Final e) ∧
        Forall (λ t, worker_ok t db1 (te_Final e) (te_Worker e t)) targets ∧
        due_ok limit (claimed + Z.of_nat (length targets)) envs' (te_Final e)
  end.

(** ** Workers *)

Lemma executeClaimed_shape target attempts part db db' attempted r :
  executeClaimed cfg maxBytes target attempts part db = Some (db', (attempted, r)) →
  match r with Ok None => attempted = false | Ok (Some _) => attempted = true | Err _ => True end.
Proof.
  revert db. induction attempts as [|a attempts IH]; intros db E; [done|]. cbn [executeClaimed] in E. cbv zeta in E.
  destruct (at_Ctx a); [by simplify_eq|]. destruct (HostController_Acquire _ _ _ _ _) as [[db1 d]|]; [|by simplify_eq].
  destruct (pd_Permit d) as [permit|].
  - destruct (run_permitted _ _ _ _ _) as [db2 [res|e]]; by simplify_eq.
  - destruct (past_lease _ _ _); [destruct (RescheduleLease _ _ _ _); by simplify_eq|].
    destruct (at_Wait a); [by simplify_eq|by eapply IH].
Qed.

(** The worker of a claimed target returns and its lease is over. *)
Lemma worker_exec_ends target db final w :
  0 ≤ sc_RefreshPollInterval cfg → 0 < st_ID target → 0 < st_LeaseGeneration target →
  is_Some (st_LeaseExpiresAt target) → reachable db → handed_out db (st_ID target) (st_LeaseGeneration target) →
  worker_ok target db final w → reachable final →
  ∃ db' e, worker_exec target w = Some (db', e) ∧
    (end_left e = false → dead final (st_ID target) (st_LeaseGeneration target)).
Proof.
  intros Hp Hi Hg [x Hx] Hr Ho Hw Hrf. destruct Hw as [Hs Ha Hpt Hd Hf].
  assert (W : working (wr_Start w) (st_ID target) (st_LeaseGeneration target)).
  { eapply working_steps; [exact Hs|]. by split. }
  unfold worker_exec in *. destruct (wr_Started w).
  - destruct (executeClaimed_returns cfg maxBytes target (wr_Attempts w) (wr_Part w) x (wr_Start w) Hp Hx)
      as [[db' [attempted r]] E]; [by apply Hd|]. rewrite E in Hf |- *. cbn in *.
    exists db', (WEnd attempted r). split; [done|]. intros Hl.
    destruct (executeClaimed_ends cfg maxBytes target (wr_Attempts w) (wr_Part w) (wr_Start w) db' attempted r
      Hi Hg (wk_reach _ _ _ W) (wk_out _ _ _ W) Ha Hpt E) as [W' D].
    eapply dead_steps; [apply (wk_reach _ _ _ W')|by eapply Hf|by apply D].
  - eexists _, _. split; [done|]. intros _. destruct (releaseUnstarted_ends _ _ Hi Hg W) as [W' D].
    eapply dead_steps; [apply (wk_reach _ _ _ W')|by eapply Hf|done].
Qed.

(** ** Claims *)

(** What the loop knows of a claimed target. *)
Record claimed_lease (db db1 : DB) (t : ScrapeTarget) : Prop := {
  cl_id : 0 < st_ID t;
  cl_gen : 0 < st_LeaseGeneration t;
  cl_expires : is_Some (st_LeaseExpiresAt t);
  cl_out : handed_out db1 (st_ID t) (st_LeaseGeneration t);
  cl_new : ¬ handed_out db (st_ID t) (st_LeaseGeneration t)
}.

Lemma select_due_ids db now limit locked : NoDup (fst <$> select_due db now limit locked).
Proof.
  eapply sublist_NoDup; [|apply fmap_sublist, sublist_take]. rewrite sort_stable_perm.
  eapply sublist_NoDup; [apply (NoDup_fst_map_to_list (db_targets db))|]. apply fmap_sublist, sublist_filter.
Qed.

Lemma tick_claim_claimed limit n e db db1 targets :
  reachable db → tick_claim limit n e db = Ok (db1, targets) →
  db_step db db1 ∧ Forall (claimed_lease db db1) targets ∧ NoDup (lease_of <$> targets) ∧
  Z.of_nat (length targets) ≤ claim_limit limit n ∧ 0 < claim_limit limit n.
Proof.
  intros Hr E. split; [by eapply step_ClaimDue|]. pose proof E as (Hlim & _ & _ & Hp)%ClaimDue_inv. cbn in Hlim, Hp.
  split_and!; [| | |done].
  - apply Forall_forall. intros t Ht. assert (C : claims db db1 t) by (by eapply claims_due).
    destruct (claims_inv _ _ _ C) as (u & u' & Hu & Hu' & Et & Eg).
    pose proof (wf_target_ids _ (reachable_wf _ Hr) _ (ex_intro _ u Hu)) as [Hid _].
    pose proof (wf_check _ (reachable_wf _ Hr) _ _ Hu) as Hc. unfold target_check in Hc. bool_to_prop.
    assert (Ege : st_LeaseGeneration t = lease_generation (t_lease u')) by (by rewrite Et).
    split; [done|lia| | |].
    + rewrite Hp in Ht. by apply list_elem_of_fmap in Ht as ([i v] & -> & _).
    + exists u'. split; [done|lia].
    + intros (v & Hv & Hle). rewrite Hu in Hv. injection Hv as <-. lia.
  - apply (NoDup_fmap_1 fst). rewrite <- list_fmap_compose. change (fst ∘ lease_of) with st_ID.
    rewrite Hp. rewrite <- list_fmap_compose. apply select_due_ids.
  - rewrite Hp, length_map. unfold select_due. rewrite length_take. lia.
Qed.

(** ** Counting *)

Definition finished (r : TickResult) : Z := tk_Succeeded r + tk_Failed r + tk_Canceled r.
Definition settled_ends (ends : list (ScrapeTarget * WorkerEnd)) : Z :=
  Z.of_nat (length (base.filter (λ p, rescheduled p.2 = false) ends)).

(** [r'] counts [ends] on top of [r]. *)
Record counted (r r' : TickResult) (ends : list (ScrapeTarget * WorkerEnd)) : Prop := {
  co_finished : finished r' = finished r + settled_ends ends;
  co_changed : 0 ≤ tk_Changed r' - tk_Changed r ≤ tk_Succeeded r' - tk_Succeeded r;
  co_succeeded : tk_Succeeded r' - tk_Succeeded r ≤ tk_Attempted r' - tk_Attempted r;
  co_attempted : tk_Attempted r' - tk_Attempted r ≤ settled_ends ends
}.

Lemma counted_nil r : counted r r [].
Proof. split; unfold settled_ends; cbn; lia. Qed.

Lemma counted_app r1 r2 r3 e1 e2 : counted r1 r2 e1 → counted r2 r3 e2 → counted r1 r3 (e1 ++ e2).
Proof.
  intros [] []. unfold settled_ends in *. split; unfold settled_ends; rewrite ?filter_app, ?length_app; lia.
Qed.

Lemma settled_one p : settled_ends [p] = if rescheduled p.2 then 0 else 1.
Proof. unfold settled_ends. rewrite filter_cons, filter_nil. by destruct (rescheduled p.2). Qed.

Lemma tally_counted part t db w e r errs :
  worker_exec t w = Some (db, e) →
  counted r (tally part e (r, errs)).1 [(t, e)] ∧ tk_Claimed (tally part e (r, errs)).1 = tk_Claimed r.
Proof.
  intros E. assert (Hs : match e with
    | WEnd a (Ok None) => a = false | WEnd a (Ok (Some _)) => a = true | _ => True end).
  { unfold worker_exec in E. destruct (wr_Started w); [|by simplify_eq].
    destruct (executeClaimed _ _ _ _ _ _) as [[d [a x]]|] eqn:Ex; [|done]. cbn in E. simplify_eq.
    by apply executeClaimed_shape in Ex. }
  unfold tally. destruct e as [|[] [[res|]|err]]; simpl; try done.
  all: repeat case_match; simplify_eq; cbn; try destruct (rr_Changed _); cbn; (split; [split; rewrite ?settled_one; unfold finished; cbn|]; try lia).
Qed.

(** ** A batch *)

Lemma run_batch_spec targets worker db db0 final acc :
  0 ≤ sc_RefreshPollInterval cfg → reachable db → reachable final → Forall (claimed_lease db0 db) targets →
  Forall (λ t, worker_ok t db final (worker t)) targets →
  ∃ r' errs' ends, run_batch targets worker acc = Some ((r', errs'), ends) ∧ ends.*1 = targets ∧
    counted acc.1 r' ends ∧ tk_Claimed r' = tk_Claimed acc.1 ∧
    Forall (λ p, end_left p.2 = false → dead final (st_ID p.1) (st_LeaseGeneration p.1)) ends.
Proof.
  intros Hp Hr Hrf Hc Hw. revert acc. induction Hc as [|t targets [] _ IH]; intros [r errs].
  { exists r, errs, []. split_and!; try done. apply counted_nil. }
  apply Forall_cons in Hw as [Ht Hw]. cbn [run_batch].
  destruct (worker_exec_ends t db final (worker t)) as (db' & e & E & D); [done..|].
  destruct (tally_counted (wr_Part (worker t)) t db' (worker t) e r errs E) as [C1 C2]. rewrite E.
  cbn [mbind option_bind]. destruct (tally _ _ _) as [r1 errs1]. cbn [fst snd] in *.
  destruct (IH Hw (r1, errs1)) as (r' & errs' & ends & E' & Ef & C & Cl & Hd). rewrite E'. cbn [fst snd mbind option_bind] in *.
  exists r', errs', ((t, e) :: ends). split_and!; try done; [by rewrite <- Ef|exact (counted_app _ _ _ [_] _ C1 C)|lia|].
  by constructor.
Qed.

(** ** The loop *)

Record loop_done (limit : Z) (r r' : TickResult) (db db' : DB) (ends : list (ScrapeTarget * WorkerEnd)) : Prop := {
  ld_steps : rtc db_step db db';
  ld_counted : counted r r' ends;
  ld_claimed : tk_Claimed r' = tk_Claimed r + Z.of_nat (length ends);
  ld_limit : tk_Claimed r ≤ limit → tk_Claimed r' ≤ limit;
  ld_over : Forall (λ p, end_left p.2 = false → dead db' (st_ID p.1) (st_LeaseGeneration p.1)) ends;
  ld_new : Forall (λ p, ¬ handed_out db (st_ID p.1) (st_LeaseGeneration p.1)) ends;
  ld_once : NoDup (lease_of ∘ fst <$> ends)
}.

Lemma loop_done_nil limit r db db' : rtc db_step db db' → loop_done limit r r db db' [].
Proof. intros Hs. split; cbn; try done; [apply counted_nil|lia|constructor]. Qed.

Lemma handed_out_steps db db' id g : reachable db → rtc db_step db db' → handed_out db id g → handed_out db' id g.
Proof. intros Hr Hs. apply evolves_handed_out. by apply (steps_good _ _ Hs (reachable_wf _ Hr)). Qed.

(** The leases of a batch are not handed out again. *)
Lemma loop_done_app limit r1 r2 r3 db db1 db2 db3 ends ends' :
  reachable db → db_step db db1 → rtc db_step db1 db2 →
  Forall (λ p, claimed_lease db db1 p.1) ends → NoDup (lease_of ∘ fst <$> ends) →
  counted r1 r2 ends → tk_Claimed r2 = tk_Claimed r1 + Z.of_nat (length ends) →
  (tk_Claimed r1 ≤ limit → tk_Claimed r2 ≤ limit) →
  Forall (λ p, end_left p.2 = false → dead db2 (st_ID p.1) (st_LeaseGeneration p.1)) ends →
  loop_done limit r2 r3 db2 db3 ends' → loop_done limit r1 r3 db db3 (ends ++ ends').
Proof.
  intros Hr S1 S2 Hc Hn C2 Cl Cm Hd [S3 C3 Cl3 Cm3 Hd3 Hn3 Ho3].
  assert (R1 : reachable db1) by (by eapply rtc_r). assert (R2 : reachable db2) by (unfold reachable in *; by etrans).
  split.
  - eapply rtc_l; [done|]. by etrans.
  - by eapply counted_app.
  - rewrite length_app. lia.
  - auto.
  - apply Forall_app. split; [|done]. eapply Forall_impl; [exact Hd|]. intros p D Hl. eapply dead_steps; eauto.
  - apply Forall_app. split; [by eapply Forall_impl; [exact Hc|intros p []]|].
    eapply Forall_impl; [exact Hn3|]. intros p Hx Hy. apply Hx. eapply handed_out_steps; [exact Hr| |exact Hy].
    by eapply rtc_l.
  - rewrite fmap_app. apply NoDup_app. split_and!; [done| |done]. intros l Hl Hl'.
    apply list_elem_of_fmap in Hl as (p & -> & Hp). apply list_elem_of_fmap in Hl' as (q & Eq & Hq).
    rewrite Forall_forall in Hc, Hn3. apply (Hn3 q Hq). cbn in Eq. injection Eq as <- <-.
    eapply handed_out_steps; [exact R1|exact S2|]. apply (cl_out _ _ _ (Hc p Hp)).
Qed.

Lemma due_loop_spec limit envs acc db :
  0 ≤ sc_RefreshPollInterval cfg → reachable db → due_ok limit (tk_Claimed acc.1) envs db →
  (Z.to_nat (limit - tk_Claimed acc.1) ≤ length envs)%nat →
  ∃ db' r' errs' ends, due_loop limit envs acc db = Some (db', (r', errs'), ends) ∧
    loop_done limit acc.1 r' db db' ends.
Proof.
  intros Hp. revert acc db. induction envs as [|e envs IH]; intros [r errs] db Hr Hok Hlen; cbn [due_loop fst snd] in *.
  { destruct (Z.leb_spec limit (tk_Claimed r)) as [Hl|Hl]; [|cbn in Hlen; lia].
    eexists _, _, _, _. split; [done|by apply loop_done_nil]. }
  destruct (Z.leb_spec limit (tk_Claimed r)) as [Hl|Hl].
  { eexists _, _, _, _. split; [done|by apply loop_done_nil]. }
  destruct (te_Done e) eqn:Ed; [eexists _, _, _, _; split; [done|by apply loop_done_nil]|].
  destruct (tick_claim _ _ _ _) as [[db1 targets]|err] eqn:Ec.
  2:{ eexists _, _, _, _. split; [done|by apply loop_done_nil]. }
  destruct (tick_claim_claimed _ _ _ _ _ _ Hr Ec) as (S1 & Hc & Hnd & Hcl & Hpos).
  destruct (Hok db1 targets Ed Ec) as (S2 & Hw & Hok').
  assert (R1 : reachable db1) by (by eapply rtc_r).
  assert (R2 : reachable (te_Final e)) by (unfold reachable in *; by etrans).
  destruct (decide (targets = [])) as [->|Hne].
  { eexists _, _, _, _. split; [done|]. apply loop_done_nil. by apply rtc_once. }
  set (n := Z.of_nat (length targets)) in *.
  assert (Hn0 : 0 < n) by (unfold n; destruct targets; [done|cbn; lia]).
  destruct (run_batch_spec targets (te_Worker e) db1 db (te_Final e) (count n 0 0 0 0 0 r, errs))
    as (r2 & errs2 & ends & E & Ef & C & Cl & Hd); [done..|].
  assert (Hle : length ends = length targets) by (by rewrite <- Ef, length_fmap).
  assert (Hrem : claim_limit limit (tk_Claimed r) ≤ limit - tk_Claimed r)
    by (unfold claim_limit; destruct (Z.ltb_spec (limit - tk_Claimed r) (wrap64 (sc_MaxConcurrency cfg * sc_PrefetchFactor cfg))); lia).
  assert (J : ∀ r3 db3 ends', loop_done limit r2 r3 (te_Final e) db3 ends' → loop_done limit r r3 db db3 (ends ++ ends')).
  { intros r3 db3 ends'. apply (loop_done_app limit r r2 r3 db db1 (te_Final e) db3); try done.
    - apply Forall_forall. intros p Hin. rewrite Forall_forall in Hc. apply Hc. rewrite <- Ef.
      by apply list_elem_of_fmap_2.
    - by rewrite list_fmap_compose, Ef.
    - destruct C. split; cbn in *; unfold finished in *; cbn in *; lia.
    - rewrite Cl. cbn. lia.
    - rewrite Cl. cbn. lia. }
  assert (Hgoal : ∀ (A : Type) (x y : A), match targets with [] => x | _ => y end = y) by (by destruct targets).
  rewrite Hgoal. fold n. rewrite E. cbn [mbind option_bind]. destruct (n <? _).
  - eexists _, _, _, _. split; [done|]. rewrite <- (app_nil_r ends). apply J. by apply loop_done_nil.
  - destruct (IH (r2, errs2) (te_Final e)) as (db3 & r3 & errs3 & ends' & E3 & L3); [done| | |].
    + cbn [fst]. by rewrite Cl.
    + cbn [fst]. rewrite Cl. cbn. cbn in Hlen. lia.
    + rewrite E3. cbn [mbind option_bind]. eexists _, _, _, _. split; [done|]. by apply J.
Qed.

Lemma maintenance_steps now day last done db :
  reachable db → ∃ db' day', runDailyMaintenance cfg now day last done db = Some (db', day') ∧ rtc db_step db db'.
Proof.
  intros Hr. unfold runDailyMaintenance. destruct (_ || _); [by eexists _, _|]. case_bool_decide; [by eexists _, _|].
  destruct (Prune_returns {| pr_Now := now; pr_SnapshotRetention := sc_SnapshotRetention cfg;
    pr_RunRetention := sc_RunRetention cfg; pr_BatchSize := sc_PruneBatchSize cfg |} db (reachable_wf _ Hr))
    as [[[db' res] e] E]. rewrite E. cbn. eexists _, _. split; [done|]. by eapply Prune_steps.
Qed.

(** C22: a scheduler tick ends, stays within its limit and accounts for every target it
    claimed.  Whatever the workers and the rest of the system do, as long as each
    worker's clock gets to the deadline of its lease: RunDue returns after at most
    [limit] rounds of claiming; it claims no more than the limit and the tick limit, and
    no lease twice; every claimed target is counted once as succeeded, failed or
    canceled, or was rescheduled for want of a permit; changed runs are among the
    succeeded, those among the attempted; and when it returns every lease it claimed is
    over, except those of runs whose commit was refused or whose reference is bad. *)
Theorem RunDue_accounts raw limit envs tail lastDay db :
  NewScheduler raw = Some cfg → 0 < limit → reachable db →
  (Z.to_nat (tick_limit limit) ≤ length envs)%nat → due_ok (tick_limit limit) 0 envs db →
  ∃ db' day r errs ends,
    RunDue limit envs tail lastDay db = Some (db', day, (r, errs), ends) ∧ rtc db_step db db' ∧
    tk_Claimed r ≤ limit ∧ tk_Claimed r ≤ sc_TickLimit cfg ∧ tk_Claimed r = Z.of_nat (length ends) ∧
    NoDup (lease_of ∘ fst <$> ends) ∧
    tk_Claimed r = tk_Succeeded r + tk_Failed r + tk_Canceled r +
      Z.of_nat (length (base.filter (λ p, rescheduled p.2 = true) ends)) ∧
    0 ≤ tk_Changed r ≤ tk_Succeeded r ∧ tk_Succeeded r ≤ tk_Attempted r ≤ tk_Claimed r ∧
    tk_RemainingDue r = CountDue (tt_CountNow tail) db' ∧
    (∀ t e, (t, e) ∈ ends → end_left e = false → dead db' (st_ID t) (st_LeaseGeneration t)).
Proof.
  intros Hn Hl Hr Hlen Hok.
  assert (Hcfg : 0 ≤ sc_RefreshPollInterval cfg ∧ 0 < sc_TickLimit cfg).
  { unfold NewScheduler in Hn. repeat case_match; try done; injection Hn as <-; cbn; bool_to_prop; lia. }
  assert (Ht : 0 < tick_limit limit ∧ tick_limit limit ≤ limit ∧ tick_limit limit ≤ sc_TickLimit cfg)
    by (unfold tick_limit; destruct (Z.ltb_spec (sc_TickLimit cfg) limit); lia).
  destruct (due_loop_spec (tick_limit limit) envs (zero_tick, []) db) as (db1 & r & errs & ends & E & L);
    [by apply Hcfg|done|done|by rewrite Z.sub_0_r|]. cbn [fst] in L. destruct L as [S1 [C1 C2 C3 C4] Cl Cm Hd _ Hnd].
  assert (R1 : reachable db1) by (unfold reachable in *; by etrans).
  destruct (maintenance_steps (tt_MaintNow tail) (tt_Day tail) lastDay (tt_MaintDone tail) db1 R1) as (db2 & day & Em & S2).
  unfold RunDue. rewrite (proj2 (Z.leb_gt _ _)) by done. rewrite E. cbn [mbind option_bind]. rewrite Em.
  cbn [mbind option_bind]. eexists _, _, _, _, _. split; [done|]. cbn in *.
  assert (Hf : Z.of_nat (length ends) = settled_ends ends +
    Z.of_nat (length (base.filter (λ p : ScrapeTarget * WorkerEnd, rescheduled p.2 = true) ends))).
  { unfold settled_ends. clear. induction ends as [|p ends IH]; [done|]. rewrite !filter_cons.
    repeat case_decide; destruct (rescheduled p.2); try done; cbn [length]; lia. }
  unfold finished in *. cbn in *. split_and!; try done; try lia; [by etrans|].
  intros t e Hin Hle. rewrite Forall_forall in Hd. eapply dead_steps; [exact R1|exact S2|]. by apply (Hd (t, e)).
Qed.
End loop.
