(* ===== verification/Refresh.v ===== *)
(** The on-demand refresh of one target ([internal/scraper/scheduler.go]: RefreshNow): claim
    and run it, or wait for the worker that already holds it. *)

From stdpp Require Import base list numbers strings gmap sorting relations.
From Stdlib Require Import ZArith QArith Lia.
From S2P Require Import Prelude Float64 Sanitize Domain Policy Canonical Validation Tables Leases Lifecycle.
From S2P Require Import Reads Commit HostState Maintenance Store CommitSpec System Published Claims Coordinator.
From S2P Require Import CoordinatorSpec RunSystem Scheduler SchedulerSpec.

Local Open Scope Z_scope.
Local Open Scope stdpp_scope.
Local Open Scope go_scope.

Inductive RefreshError :=
| RErrRef (e : DomainError)
| RErrRepo (e : RepoError)
| RErrWait (e : CtxError)
| RErrRun (e : SchedError)
| RErrOutcome (o : option RunOutcome)
| RErrCoalesced.

(** The permit loop and the run of a claimed target. *)
Definition Work : Type := list Attempt * RunPart.

(** One poll: how the wait ended, what happened before the read and before the claim,
    the clock, the locked rows and the work if the claim succeeds. *)
Record PollEnv := {
  po_Wait : option CtxError;
  po_BeforeRead : DB → DB;
  po_Now : Z;
  po_BeforeClaim : DB → DB;
  po_Locked : gset Z;
  po_Work : ScrapeTarget → Work
}.

(** The calls before the polling: what happened before the n-th of them, the clock
    readings, the locked rows and the work. *)
Record RefreshEnv := {
  rf_Gap : nat → DB → DB;
  rf_SeedNow : Z;
  rf_DueNow : Z;
  rf_ClaimNow : Z;
  rf_Locked : gset Z;
  rf_Work : ScrapeTarget → Work
}.

Section refresh.
Context `{GoLib, CoordLib, Postgres} (cfg : SchedulerConfig) (maxBytes : Z).

(** executeClaimed and what RefreshNow makes of its result. *)
Definition refresh_run (target : ScrapeTarget) (work : Work) (db : DB) : option (DB * result RefreshError unit) :=
  '(db', (attempted, r)) ← executeClaimed cfg maxBytes target work.1 work.2 db;
  Some (db', match r with
             | Err e => Err (RErrRun e)
             | Ok res =>
                 let succeeded := match res with Some x => rr_Succeeded x | None => false end in
                 if negb attempted || negb succeeded then Err (RErrOutcome (rr_Outcome <$> res)) else Ok tt
             end).

Definition refresh_claim (ref : TargetRef) (now : Z) (locked : gset Z) (db : DB) : result RepoError (DB * ScrapeTarget) :=
  ClaimOne {| co_Ref := ref; co_Now := now; co_WorkerID := sc_WorkerID cfg; co_LeaseDuration := sc_LeaseDuration cfg |}
    locked db.

(** [current.LeaseExpiresAt != nil && current.LeaseExpiresAt.After(now)] *)
Definition lease_running (t : ScrapeTarget) (now : Z) : bool :=
  match st_LeaseExpiresAt t with Some e => time_After e now | None => false end.

Fixpoint refresh_poll (ref : TargetRef) (baseline : ScrapeTarget) (polls : list PollEnv) (db : DB)
    : option (DB * result RefreshError unit) :=
  match polls with
  | [] => None
  | p :: polls' =>
      match po_Wait p with
      | Some e => Some (db, Err (RErrWait e))
      | None =>
          let db1 := po_BeforeRead p db in
          match Target ref db1 with
          | Err e => Some (db1, Err (RErrRepo e))
          | Ok current =>
              if st_ValidationSeq baseline <? st_ValidationSeq current then Some (db1, Ok tt)
              else if st_ConsecutiveFailures baseline <? st_ConsecutiveFailures current then Some (db1, Err RErrCoalesced)
              else if lease_running current (po_Now p) then refresh_poll ref baseline polls' db1
              else
                let db2 := po_BeforeClaim p db1 in
                match refresh_claim ref (po_Now p) (po_Locked p) db2 with
                | Err ErrTargetLeased => refresh_poll ref baseline polls' db2
                | Err e => Some (db2, Err (RErrRepo e))
                | Ok (db3, target) => refresh_run target (po_Work p target) db3
                end
          end
      end
  end.

(** The first read, after a seed if the target is new. *)
Definition refresh_baseline (ref : TargetRef) (env : RefreshEnv) (db : DB) : DB * result RepoError ScrapeTarget :=
  let db0 := rf_Gap env 0%nat db in
  match Target ref db0 with
  | Err ErrSnapshotNotFound =>
      let db1 := rf_Gap env 1%nat db0 in
      match Seed [seedForRef ref (rf_SeedNow env)] db1 with
      | Err e => (db1, Err e)
      | Ok db2 => let db3 := rf_Gap env 2%nat db2 in (db3, Target ref db3)
      end
  | r => (db0, r)
  end.

Definition RefreshNow (ref : TargetRef) (env : RefreshEnv) (polls : list PollEnv) (db : DB)
    : option (DB * result RefreshError unit) :=
  match ref_Validate ref with
  | Err e => Some (db, Err (RErrRef e))
  | Ok _ =>
      match refresh_baseline ref env db with
      | (db1, Err e) => Some (db1, Err (RErrRepo e))
      | (db1, Ok baseline) =>
          let db2 := rf_Gap env 3%nat db1 in
          match SetDueNow ref (rf_DueNow env) db2 with
          | Err e => Some (db2, Err (RErrRepo e))
          | Ok db3 =>
              let db4 := rf_Gap env 4%nat db3 in
              match refresh_claim ref (rf_ClaimNow env) (rf_Locked env) db4 with
              | Ok (db5, target) => refresh_run target (rf_Work env target) db5
              | Err ErrTargetLeased => refresh_poll ref baseline polls db4
              | Err e => Some (db4, Err (RErrRepo e))
              end
          end
      end
  end.

(** * What other workers may do *)

(** No run is recorded under this lease. *)
Definition uncommitted (db : DB) (id g : Z) : Prop :=
  ∀ rid r, db_runs db !! rid = Some r → ¬ (r_target r = id ∧ r_generation r = g).

(** Other workers run transactions, but none commits under this lease. *)
Definition foreign (id g : Z) (f : DB → DB) : Prop :=
  only_steps f ∧ ∀ db, reachable db → uncommitted db id g → uncommitted (f db) id g.

Definition foreign_work (t : ScrapeTarget) (w : Work) : Prop :=
  let fo := foreign (st_ID t) (st_LeaseGeneration t) in
  Forall (λ a, fo (at_Other a) ∧ fo (at_Later a)) w.1 ∧
  (∀ n, fo (rp_Other w.2 n)) ∧ only_steps (rp_BeforePermit w.2) ∧ only_steps (rp_BeforeRelease w.2).

(** The worker's clock gets to the deadline of the lease. *)
Definition reaches_deadline (t : ScrapeTarget) (w : Work) : Prop :=
  ∀ x, st_LeaseExpiresAt t = Some x → Exists (λ a, lease_deadline cfg x ≤ at_Now a) w.1.

(** * Validation grows *)

(** The validation sequence of the target row is larger afterwards. *)
Definition grown (id : Z) (db db' : DB) : Prop :=
  ∃ t', db_targets db' !! id = Some t' ∧
    ∀ t, db_targets db !! id = Some t → validation_seq (t_pub t) < validation_seq (t_pub t').

Lemma grown_around id db a b db' :
  reachable db → rtc db_step db a → grown id a b → reachable b → rtc db_step b db' → grown id db db'.
Proof.
  intros Hr S1 (t1 & Ht1 & Hg) Hb S2.
  destruct (steps_good _ _ S2 (reachable_wf _ Hb)) as [_ Ev2]. destruct (ev_rows _ _ Ev2 _ _ Ht1) as (t2 & Ht2 & _ & _ & Hc2 & Hv).
  exists t2. split; [done|]. intros t Ht.
  destruct (steps_good _ _ S1 (reachable_wf _ Hr)) as [_ Ev1]. destruct (ev_rows _ _ Ev1 _ _ Ht) as (u & Hu & _ & _ & Hc1 & Hv').
  specialize (Hg u Hu). lia.
Qed.

Lemma existing_uncommitted db id g now :
  uncommitted db id g → existingCommitResult db id g now = Ok None.
Proof.
  intros Hu. unfold existingCommitResult. destruct (run_of db id g) as [[rid r]|] eqn:Er; [|done].
  apply head_filter_Some in Er as (Hr & Hm). by destruct (Hu rid r Hr).
Qed.

Lemma Commit_grows input now dbnow db db' res :
  wf db → uncommitted db (ci_TargetID input) (ci_LeaseGeneration input) →
  successfulOutcome (ci_Outcome input) = true → Commit input now dbnow db = Ok (db', res) →
  grown (ci_TargetID input) db db'.
Proof.
  intros W Hu Hs E. destruct (Commit_inv _ _ _ _ _ _ W E) as (_ & [[_ Ex]|(_ & t & db1 & x & A)]).
  { by rewrite existing_uncommitted in Ex. }
  assert (Hrow : ∃ t1, db_targets db1 !! ci_TargetID input = Some t1 ∧
    validation_seq (t_pub t1) = validation_seq (t_pub t) + 1).
  { destruct (ap_writes _ _ _ _ _ _ _ _ A) as [? ? ? ? ? t' |? ? t' |]; [| |congruence].
    - exists t'. split; [apply lookup_insert_eq|done].
    - exists t'. split; [|done].
      destruct (refresh_current_eq (ci_TargetID input) (timestamptz (validated_at input))
        (set_targets (<[ci_TargetID input:=t']> (db_targets db)) (add_run (run_row input seq) db)))
        as [-> | [sid ->]]; apply lookup_insert_eq. }
  destruct Hrow as (t1 & Ht1 & Hv). destruct (ap_good _ _ _ _ _ _ _ _ A) as [_ Ev].
  destruct (ev_rows _ _ Ev _ _ Ht1) as (t2 & Ht2 & _ & _ & Hc2 & Hv2). exists t2. split; [done|].
  intros u Hrow. rewrite (ho_row _ _ _ (ap_holds _ _ _ _ _ _ _ _ A)) in Hrow. injection Hrow as <-. lia.
Qed.

(** The state of the work on a lease nobody has committed under. *)
Record open (db : DB) (id g : Z) : Prop := {
  op_working : working db id g;
  op_uncommitted : uncommitted db id g
}.

Lemma open_foreign f db id g : foreign id g f → open db id g → open (f db) id g.
Proof. intros [Hs Hf] [W U]. split; [by apply working_other|apply Hf; [apply (wk_reach _ _ _ W)|done]]. Qed.

Lemma open_core db db' id g : db_step db db' → same_core db db' → open db id g → open db' id g.
Proof.
  intros S (_ & Hr & _) [W U]. split; [eapply working_steps; [by apply rtc_once|done]|].
  intros rid r. rewrite Hr. apply U.
Qed.

Lemma RunClaimed_grows limit target env other now dbnow db db' res :
  let id := st_ID target in let g := st_LeaseGeneration target in
  open db id g → (∀ n, foreign id g (other n)) →
  @RunClaimedWithRelease _ _ _ (repository now dbnow) limit target env other db = (db', Ok res) →
  rr_Succeeded res = true → grown id db db' ∧ rtc db_step db db'.
Proof.
  intros id g O Ho E Hs. unfold RunClaimedWithRelease in E. destruct (_ || _); [done|].
  destruct (ref_Validate _) as [[]|]; [|done]. pose proof (open_foreign _ _ _ _ (Ho 0%nat) O) as O0.
  destruct (canceledFetch _ _).
  { by destruct (attempt_ (other 0%nat db) _). }
  pose proof (open_foreign _ _ _ _ (Ho 1%nat) O0) as O1. cbv zeta in E.
  set (a := assess _ _ _ _ _ _ _ _) in E. set (o := observation _ _ _ _ _ _) in E.
  destruct (attempt_ (other 1%nat _) _) as [s2 obs] eqn:Eo.
  assert (O2 : open s2 id g ∧ rtc db_step (other 1%nat (other 0%nat db)) s2).
  { unfold attempt_ in Eo. destruct (store_Observe _ _) as [x|] eqn:Ex; simplify_eq; [|done].
    assert (S : db_step (other 1%nat (other 0%nat db)) s2) by (eapply step_ObserveHost; exact Ex).
    split; [|by apply rtc_once]. eapply open_core; [exact S|eapply ObserveHost_core; exact Ex|done]. }
  destruct O2 as [O2 S2]. pose proof (open_foreign _ _ _ _ (Ho 2%nat) O2) as O3. set (input := commit_input _ _ _ _ _ _ _) in E.
  assert (Ein : ci_TargetID input = id ∧ ci_LeaseGeneration input = g).
  { unfold input, commit_input. destruct (classifyFetch _ _) as [[[? ?] ?] ?]. by destruct (discovered _ _ _ _ _). }
  destruct Ein as [Eid Eg]. assert (Eout : ci_Outcome input = as_Outcome a) by (apply commit_input_outcome).
  unfold attempt in E. destruct (store_Commit _ _) as [[s4 cr]|e] eqn:Ec; [|done].
  destruct obs; [done|]. injection E as <- <-. cbn in Hs. rewrite Hs.
  assert (R : ∀ x, open x id g → reachable x) by (intros x Ox; apply (wk_reach _ _ _ (op_working _ _ _ Ox))).
  assert (S03 : rtc db_step db (other 2%nat s2)).
  { etrans; [by apply (Ho 0%nat), R|]. etrans; [by apply (Ho 1%nat), R|]. etrans; [exact S2|]. by apply (Ho 2%nat), R. }
  assert (S4 : db_step (other 2%nat s2) s4) by (eapply step_Commit; exact Ec).
  assert (R4 : reachable s4) by (eapply rtc_r; [by apply R|done]).
  match goal with |- grown _ _ ?d ∧ _ => set (s5 := d) end. assert (S5 : rtc db_step s4 s5).
  { etrans; [by apply (Ho 3%nat)|]. unfold s5, attempt_. cbn. destruct (ReconcileLifecycle _ _ _) eqn:Er; cbn; [|done].
    eapply rtc_once, step_ReconcileLifecycle. exact Er. }
  split; [|by etrans; [exact S03|]; eapply rtc_l].
  eapply grown_around; [by apply R|exact S03| |exact R4|exact S5]. rewrite <- Eid.
  eapply Commit_grows; [apply reachable_wf, R, O3|rewrite Eid, Eg; apply O3| |exact Ec]. by rewrite Eout.
Qed.

Lemma executeClaimed_grows target attempts part db db' attempted res :
  let id := st_ID target in let g := st_LeaseGeneration target in
  open db id g → foreign_work target (attempts, part) →
  executeClaimed cfg maxBytes target attempts part db = Some (db', (attempted, Ok (Some res))) →
  rr_Succeeded res = true → grown id db db' ∧ rtc db_step db db'.
Proof.
  intros id g O [Ha (Ho & Hp & _)] E Hs. cbn [fst snd] in *. revert db O E.
  induction Ha as [|a attempts [Hq Hq'] _ IH]; intros db O E; [done|]. cbn [executeClaimed] in E.
  assert (R : ∀ x, open x id g → reachable x) by (intros x Ox; apply (wk_reach _ _ _ (op_working _ _ _ Ox))).
  pose proof (open_foreign _ _ _ _ Hq O) as O0. destruct (at_Ctx a); [done|]. cbv zeta in E.
  destruct (HostController_Acquire _ _ _ _ _) as [[db1 d]|e] eqn:Ea; [|done].
  assert (O1 : open db1 id g ∧ rtc db_step (at_Other a db) db1).
  { unfold HostController_Acquire in Ea. destruct (_ || _); [done|]. destruct (blank _); [done|].
    assert (S : db_step (at_Other a db) db1) by (by eapply step_AcquireHostPermit).
    split; [|by apply rtc_once]. eapply open_core; [exact S|by eapply AcquireHostPermit_core|done]. }
  destruct O1 as [O1 S1]. assert (S01 : rtc db_step db db1) by (etrans; [apply Hq, R, O|exact S1]).
  destruct (pd_Permit d) as [permit|].
  - destruct (run_permitted _ _ _ _ _) as [db2 [r2|]] eqn:E2; [|done]. injection E as <- <- <-.
    unfold run_permitted in E2. destruct (RunClaimedWithRelease _ _ _ _ _) as [db3 [res3|e3]] eqn:E3; [|by destruct (run_canceled _ _)].
    injection E2 as <- <-. destruct (RunClaimed_grows _ _ _ _ _ _ _ _ _ O1 Ho E3 Hs) as [G S3].
    assert (R3 : reachable db3) by (unfold reachable in *; etrans; [exact (R _ O1)|exact S3]).
    assert (S4 : rtc db_step db3 (HostController_Release (Some permit) (rp_BeforePermit part db3))).
    { etrans; [by apply Hp|]. apply rtc_once, step_ReleaseHostPermit. }
    split; [|by etrans; [exact S01|]; etrans]. eapply grown_around; [by apply R|exact S01|exact G|exact R3|exact S4].
  - destruct (past_lease _ _ _); [by destruct (RescheduleLease _ _ _ _)|]. destruct (at_Wait a); [done|].
    pose proof (open_foreign _ _ _ _ Hq' O1) as O2. destruct (IH _ O2 E) as [G S2].
    assert (S02 : rtc db_step db (at_Later a db1)) by (etrans; [exact S01|apply Hq', R, O1]).
    assert (R' : reachable db') by (unfold reachable in *; etrans; [exact (R _ O2)|exact S2]).
    split; [|by etrans]. eapply grown_around; [by apply R|exact S02|exact G|exact R'|apply rtc_refl].
Qed.

(** * The refresh *)

(** The validation sequence the target has, 0 before it is known. *)
Definition seq_of (ref : TargetRef) (db : DB) : Z :=
  match find_target db ref with Some (_, t) => validation_seq (t_pub t) | None => 0 end.

Lemma seq_of_row db i t : wf db → db_targets db !! i = Some t → seq_of (t_ref t) db = validation_seq (t_pub t).
Proof. intros W Ht. unfold seq_of. by rewrite (find_target_row _ _ _ W Ht). Qed.

Lemma seq_of_steps ref db db' : reachable db → rtc db_step db db' → seq_of ref db ≤ seq_of ref db'.
Proof.
  intros Hr Hs. destruct (steps_good _ _ Hs (reachable_wf _ Hr)) as [W' Ev]. unfold seq_of at 1.
  destruct (find_target db ref) as [[i t]|] eqn:E.
  - apply find_target_Some in E as [Ht <-]. destruct (ev_rows _ _ Ev _ _ Ht) as (t' & Ht' & Er & _ & Hc & Hv).
    rewrite <- Er. rewrite (seq_of_row _ _ _ W' Ht'). lia.
  - unfold seq_of. destruct (find_target db' ref) as [[i t]|] eqn:E'; [|done]. apply find_target_Some in E' as [Ht _].
    pose proof (wf_check _ W' _ _ Ht) as Hc. unfold target_check in Hc. bool_to_prop. lia.
Qed.

Lemma seq_of_grown db db' i t :
  wf db → wf db' → evolves db db' → db_targets db !! i = Some t → grown i db db' → seq_of (t_ref t) db < seq_of (t_ref t) db'.
Proof.
  intros W W' Ev Ht (t' & Ht' & Hg). destruct (ev_rows _ _ Ev _ _ Ht) as (u & Hu & Er & _). rewrite Ht' in Hu. injection Hu as <-.
  rewrite (seq_of_row _ _ _ W Ht), <- Er, (seq_of_row _ _ _ W' Ht'). by apply Hg.
Qed.

(** A fresh claim: an open lease on the row of the reference. *)
Lemma refresh_claim_open ref now locked db db' target :
  reachable db → refresh_claim ref now locked db = Ok (db', target) →
  db_step db db' ∧ open db' (st_ID target) (st_LeaseGeneration target) ∧ is_Some (st_LeaseExpiresAt target) ∧
  ∃ t, db_targets db' !! st_ID target = Some t ∧ t_ref t = ref.
Proof.
  intros Hr E. assert (S : db_step db db') by (by eapply step_ClaimOne). split; [done|].
  assert (Hr' : reachable db') by (by eapply rtc_r). unfold refresh_claim, ClaimOne in E. cbn [co_Ref co_Now co_WorkerID co_LeaseDuration] in E.
  destruct (ref_check _); [|done]. cbn in E. destruct (validateClaim _ _ _); [|done]. cbn in E.
  destruct (find_target _ _) as [[i t]|] eqn:Ef; [|done]. apply find_target_Some in Ef as [Ht Href].
  destruct (_ && _); [|by repeat case_match]. destruct (update_where _ _ _) as [[d n]|] eqn:Eu; [|done]. cbn in E.
  injection E as <- <-. cbn [st_ID st_LeaseGeneration st_LeaseExpiresAt scanScrapeTarget].
  pose proof (update_where_lookup _ _ _ _ _ i Eu) as Hi. rewrite Ht in Hi. cbn in Hi. rewrite bool_decide_eq_true_2 in Hi by done.
  split_and!; [|done|by eexists].
  split; [split; [done|]; by eexists|]. intros rid r Hrun [Et Eg].
  destruct (wf_runs _ (reachable_wf _ Hr') rid r Hrun) as [_ D]. rewrite Et, Eg in D. revert D.
  by eapply held_not_dead.
Qed.

Lemma refresh_run_fresh ref now locked target work db db' db1 :
  reachable db → refresh_claim ref now locked db = Ok (db1, target) → foreign_work target work →
  refresh_run target work db1 = Some (db', Ok tt) → rtc db_step db db' ∧ seq_of ref db < seq_of ref db'.
Proof.
  intros Hr Ec Hw E. destruct (refresh_claim_open _ _ _ _ _ _ Hr Ec) as (S1 & O & _ & t & Ht & Href).
  assert (R1 : reachable db1) by (by eapply rtc_r). destruct work as [attempts part].
  unfold refresh_run in E. cbn [fst snd] in E. destruct (executeClaimed _ _ _ _ _ _) as [[db2 [a r]]|] eqn:Ex; [|done].
  cbn in E. destruct r as [[res|]|]; [|by rewrite orb_true_r in E|done]. destruct (negb a || negb _) eqn:En; [done|].
  injection E as <-. bool_to_prop.
  destruct (executeClaimed_grows target attempts part db1 db2 a res O Hw Ex) as [G S2]; [by destruct (rr_Succeeded res)|].
  destruct (steps_good _ _ S2 (reachable_wf _ R1)) as [W2 Ev].
  pose proof (seq_of_grown _ _ _ _ (reachable_wf _ R1) W2 Ev Ht G) as Hlt. rewrite Href in Hlt.
  pose proof (seq_of_steps ref db db1 Hr (rtc_once _ _ S1)). split; [by eapply rtc_l|lia].
Qed.

Lemma refresh_run_returns target work db :
  0 ≤ sc_RefreshPollInterval cfg → is_Some (st_LeaseExpiresAt target) → reaches_deadline target work →
  is_Some (refresh_run target work db).
Proof.
  intros Hp [x Hx] Hd. unfold refresh_run.
  destruct (executeClaimed_returns cfg maxBytes target work.1 work.2 x db Hp Hx (Hd x Hx)) as [[db' [a r]] ->]. done.
Qed.

(** What the environment owes: other transactions only, none under a lease of this
    call, and a clock that gets to the deadline of its lease. *)
Definition work_ok (work : ScrapeTarget → Work) : Prop := ∀ t, foreign_work t (work t) ∧ reaches_deadline t (work t).
Definition poll_ok (p : PollEnv) : Prop :=
  only_steps (po_BeforeRead p) ∧ only_steps (po_BeforeClaim p) ∧ work_ok (po_Work p).
Definition refresh_ok (env : RefreshEnv) : Prop := (∀ n, only_steps (rf_Gap env n)) ∧ work_ok (rf_Work env).

Lemma reachable_other f db : only_steps f → reachable db → rtc db_step db (f db) ∧ reachable (f db).
Proof. intros Hf Hr. pose proof (Hf db Hr) as S. split; [done|]. unfold reachable in *. by etrans. Qed.

Lemma Target_seq ref db target : Target ref db = Ok target → seq_of ref db = st_ValidationSeq target.
Proof.
  unfold Target, seq_of. destruct (ref_check ref); [|done]. cbn. by destruct (find_target db ref) as [[i t]|]; intros [= <-].
Qed.

Lemma refresh_poll_spec ref baseline polls db :
  0 ≤ sc_RefreshPollInterval cfg → reachable db → Forall poll_ok polls →
  (Exists (λ p, is_Some (po_Wait p)) polls → is_Some (refresh_poll ref baseline polls db)) ∧
  (∀ db', refresh_poll ref baseline polls db = Some (db', Ok tt) →
     rtc db_step db db' ∧ (st_ValidationSeq baseline < seq_of ref db' ∨ seq_of ref db < seq_of ref db')).
Proof.
  intros Hp Hr Hok. revert db Hr. induction Hok as [|p polls (Hb & Hc & Hw) _ IH]; intros db Hr.
  { split; [by intros ?%Exists_nil|done]. }
  cbn [refresh_poll]. destruct (po_Wait p) as [e|] eqn:Ew; [by split|]. cbv zeta.
  destruct (reachable_other _ _ Hb Hr) as [S1 R1]. pose proof (seq_of_steps ref _ _ Hr S1) as Q1.
  destruct (reachable_other _ _ Hc R1) as [S2 R2]. pose proof (seq_of_steps ref _ _ R1 S2) as Q2.
  rewrite Exists_cons, Ew. destruct (Target ref _) as [current|] eqn:Et; [|by split].
  destruct (st_ValidationSeq baseline <? _) eqn:Ev.
  { split; [done|]. intros db' [= <-]. split; [done|]. left. rewrite (Target_seq _ _ _ Et). by apply Z.ltb_lt. }
  destruct (st_ConsecutiveFailures baseline <? _); [by split|].
  assert (Hstep : ∀ d, rtc db_step db d → reachable d → seq_of ref db ≤ seq_of ref d →
    (is_Some (@None CtxError) ∨ Exists (λ p, is_Some (po_Wait p)) polls → is_Some (refresh_poll ref baseline polls d)) ∧
    (∀ db', refresh_poll ref baseline polls d = Some (db', Ok tt) →
       rtc db_step db db' ∧ (st_ValidationSeq baseline < seq_of ref db' ∨ seq_of ref db < seq_of ref db'))).
  { intros d Sd Rd Qd. destruct (IH d Rd) as [I1 I2]. split; [by intros [[? [=]]|?]; auto|].
    intros db' E. destruct (I2 db' E) as [S' [?|?]]; (split; [by etrans|]); [by left|right; lia]. }
  destruct (lease_running _ _); [by apply Hstep|].
  destruct (refresh_claim _ _ _ _) as [[db3 target]|[]] eqn:Ec; try (by split); [|apply Hstep; [by etrans|done|lia]].
  destruct (refresh_claim_open _ _ _ _ _ _ R2 Ec) as (_ & _ & Hx & _). destruct (Hw target) as [Hf Hd]. split.
  - intros _. by apply refresh_run_returns.
  - intros db' E. destruct (refresh_run_fresh _ _ _ _ _ _ _ _ R2 Ec Hf E) as [S3 Q3]. split; [|right; lia].
    etrans; [exact S1|]. by etrans.
Qed.

Lemma refresh_baseline_spec ref env db db1 r :
  reachable db → refresh_ok env → refresh_baseline ref env db = (db1, r) →
  rtc db_step db db1 ∧ ∀ t, r = Ok t → Target ref db1 = Ok t.
Proof.
  intros Hr [Hg _] E. unfold refresh_baseline in E. destruct (reachable_other _ _ (Hg 0%nat) Hr) as [S0 R0].
  cbv zeta in E. destruct (Target ref (rf_Gap env 0%nat db)) as [t0|e0] eqn:E0; [by simplify_eq; split; [|intros ? [= <-]]|].
  destruct (reachable_other _ _ (Hg 1%nat) R0) as [S1 R1].
  destruct e0; try (by simplify_eq). destruct (Seed _ _) as [db2|] eqn:Es.
  - assert (R2 : reachable db2) by (eapply rtc_r; [exact R1|by eapply step_Seed]).
    destruct (reachable_other _ _ (Hg 2%nat) R2) as [S3 R3]. injection E as <- <-. split; [|done].
    etrans; [exact S0|]. etrans; [exact S1|]. eapply rtc_l; [by eapply step_Seed|done].
  - injection E as <- <-. split; [by etrans|done].
Qed.

(** A refresh that reports success made the target newer, by transactions of the store, and
    it returns. *)
Lemma RefreshNow_newer raw ref env polls db :
  NewScheduler raw = Some cfg → reachable db → refresh_ok env → Forall poll_ok polls →
  (Exists (λ p, is_Some (po_Wait p)) polls → is_Some (RefreshNow ref env polls db)) ∧
  (∀ db', RefreshNow ref env polls db = Some (db', Ok tt) → rtc db_step db db' ∧ seq_of ref db < seq_of ref db').
Proof.
  intros Hn Hr Henv Hpolls.
  assert (Hcfg : 0 ≤ sc_RefreshPollInterval cfg).
  { unfold NewScheduler in Hn. repeat case_match; try done; injection Hn as <-; cbn; bool_to_prop; lia. }
  unfold RefreshNow. destruct (ref_Validate ref); [|by split].
  destruct (refresh_baseline ref env db) as [db1 rb] eqn:Eb.
  destruct (refresh_baseline_spec _ _ _ _ _ Hr Henv Eb) as [S1 Hb]. destruct rb as [baseline|]; [|by split].
  pose proof (Target_seq _ _ _ (Hb _ eq_refl)) as Hbase. destruct Henv as [Hg Hw].
  assert (R1 : reachable db1) by (unfold reachable in *; by etrans). cbv zeta.
  destruct (reachable_other _ _ (Hg 3%nat) R1) as [S2 R2]. destruct (SetDueNow _ _ _) as [db3|] eqn:Ed; [|by split].
  assert (S3 : db_step (rf_Gap env 3%nat db1) db3) by (by eapply step_SetDueNow).
  assert (R3 : reachable db3) by (by eapply rtc_r). destruct (reachable_other _ _ (Hg 4%nat) R3) as [S4 R4].
  pose proof (seq_of_steps ref _ _ Hr S1). pose proof (seq_of_steps ref _ _ R1 S2).
  pose proof (seq_of_steps ref _ _ R2 (rtc_once _ _ S3)). pose proof (seq_of_steps ref _ _ R3 S4).
  assert (S5 : rtc db_step db (rf_Gap env 4%nat db3)).
  { etrans; [exact S1|]. etrans; [exact S2|]. eapply rtc_l; [exact S3|exact S4]. }
  destruct (refresh_claim _ _ _ _) as [[db5 target]|[]] eqn:Ec; try (by split).
  - destruct (refresh_claim_open _ _ _ _ _ _ R4 Ec) as (_ & _ & Hx & _). destruct (Hw target) as [Hf Hd]. split.
    + intros _. by apply refresh_run_returns.
    + intros db' E. destruct (refresh_run_fresh _ _ _ _ _ _ _ _ R4 Ec Hf E). split; [by etrans|lia].
  - destruct (refresh_poll_spec ref baseline polls _ Hcfg R4 Hpolls) as [P1 P2]. split; [done|].
    intros db' E. destruct (P2 db' E) as [S6 Q6]. split; [by etrans|destruct Q6; lia].
Qed.

(** C23: a refresh that reports success made the data newer.  Whatever other workers do
    (as long as none commits under the lease of this call): if RefreshNow returns nil,
    the target has been validated since it was called, by its own run or by the worker
    it waited for; and RefreshNow returns once the caller's context ends, provided the
    clock of a run of its own gets to the deadline of its lease. *)
Theorem RefreshNow_validates raw ref env polls db :
  NewScheduler raw = Some cfg → reachable db → refresh_ok env → Forall poll_ok polls →
  (Exists (λ p, is_Some (po_Wait p)) polls → is_Some (RefreshNow ref env polls db)) ∧
  (∀ db', RefreshNow ref env polls db = Some (db', Ok tt) → seq_of ref db < seq_of ref db').
Proof.
  intros Hn Hr He Hp. destruct (RefreshNow_newer raw ref env polls db Hn Hr He Hp) as [Hret Hnew].
  split; [done|]. intros db' E. apply (Hnew db' E).
Qed.
End refresh.
