(* ===== verification/EventHub.v ===== *)
(** The in-process event hub ([internal/service/event_hub.go]).

    One owner goroutine ([EventHub.run]) takes events from a bounded ingress channel and
    copies each to the bounded channel of every subscriber, dropping where a channel is
    full.  A step of the model is one communication: a publication, one turn of the
    owner's loop, a subscriber's receive, the close.  The channels live in a store of
    their own, since a subscriber keeps its channel after the owner has forgotten it. *)

From stdpp Require Import base list numbers strings gmap sorting.
From Stdlib Require Import ZArith Lia.
From S2P Require Import Prelude.

Local Open Scope Z_scope.
Local Open Scope stdpp_scope.

Record AppEvent (D : Type) := { ev_Type : string; ev_Data : D }.
Arguments ev_Type {D} _.
Arguments ev_Data {D} _.

(** A buffered channel of events. *)
Record EventChan (D : Type) := { ch_buf : list (AppEvent D); ch_closed : bool }.
Arguments Build_EventChan {D} _ _.
Arguments ch_buf {D} _.
Arguments ch_closed {D} _.

(** The fields of [EventHub] and the local variables of [run]: [eh_subscribers] are the
    keys of its map, whose channels are in [eh_chans]. *)
Record EventHub (D : Type) := {
  eh_publishDepth : Z;
  eh_subscriberDepth : Z;
  eh_publishCh : list (AppEvent D);
  eh_done : bool;
  eh_stopped : bool;
  eh_closed : bool;
  eh_dropped : Z;
  eh_lastDropWarning : Z;
  eh_subscribers : gset Z;
  eh_nextID : Z;
  eh_chans : gmap Z (EventChan D)
}.
Arguments Build_EventHub {D} _ _ _ _ _ _ _ _ _ _ _.
Arguments eh_publishDepth {D} _.
Arguments eh_subscriberDepth {D} _.
Arguments eh_publishCh {D} _.
Arguments eh_done {D} _.
Arguments eh_stopped {D} _.
Arguments eh_closed {D} _.
Arguments eh_dropped {D} _.
Arguments eh_lastDropWarning {D} _.
Arguments eh_subscribers {D} _.
Arguments eh_nextID {D} _.
Arguments eh_chans {D} _.

Definition eventHubDropWarningInterval : Z := Minute.

Section hub.
Context {D : Type}.
Implicit Types (h : EventHub D) (ev : AppEvent D).

Definition NewEventHub (publishDepth subscriberDepth : Z) : EventHub D :=
  {| eh_publishDepth := if publishDepth <=? 0 then 100 else publishDepth;
     eh_subscriberDepth := if subscriberDepth <=? 0 then 256 else subscriberDepth;
     eh_publishCh := []; eh_done := false; eh_stopped := false; eh_closed := false;
     eh_dropped := 0; eh_lastDropWarning := 0; eh_subscribers := ∅; eh_nextID := 0; eh_chans := ∅ |}.

Definition set_publishCh (q : list (AppEvent D)) h : EventHub D :=
  {| eh_publishDepth := eh_publishDepth h; eh_subscriberDepth := eh_subscriberDepth h; eh_publishCh := q;
     eh_done := eh_done h; eh_stopped := eh_stopped h; eh_closed := eh_closed h; eh_dropped := eh_dropped h;
     eh_lastDropWarning := eh_lastDropWarning h; eh_subscribers := eh_subscribers h; eh_nextID := eh_nextID h;
     eh_chans := eh_chans h |}.

Definition set_drops (dropped last : Z) h : EventHub D :=
  {| eh_publishDepth := eh_publishDepth h; eh_subscriberDepth := eh_subscriberDepth h;
     eh_publishCh := eh_publishCh h; eh_done := eh_done h; eh_stopped := eh_stopped h; eh_closed := eh_closed h;
     eh_dropped := dropped; eh_lastDropWarning := last; eh_subscribers := eh_subscribers h;
     eh_nextID := eh_nextID h; eh_chans := eh_chans h |}.

Definition set_subs (subs : gset Z) (next : Z) (chans : gmap Z (EventChan D)) h : EventHub D :=
  {| eh_publishDepth := eh_publishDepth h; eh_subscriberDepth := eh_subscriberDepth h;
     eh_publishCh := eh_publishCh h; eh_done := eh_done h; eh_stopped := eh_stopped h; eh_closed := eh_closed h;
     eh_dropped := eh_dropped h; eh_lastDropWarning := eh_lastDropWarning h; eh_subscribers := subs;
     eh_nextID := next; eh_chans := chans |}.

Definition set_flags (closed done stopped : bool) h : EventHub D :=
  {| eh_publishDepth := eh_publishDepth h; eh_subscriberDepth := eh_subscriberDepth h;
     eh_publishCh := eh_publishCh h; eh_done := done; eh_stopped := stopped; eh_closed := closed;
     eh_dropped := eh_dropped h; eh_lastDropWarning := eh_lastDropWarning h; eh_subscribers := eh_subscribers h;
     eh_nextID := eh_nextID h; eh_chans := eh_chans h |}.

(** The counter and the time of the last warning; [now] is the clock in nanoseconds. *)
Definition recordDrop (now : Z) h : EventHub D :=
  let dropped := (eh_dropped h + 1) mod 2 ^ 64 in
  let last := eh_lastDropWarning h in
  if negb (last =? 0) && (wrap64 (now - last) <? eventHubDropWarningInterval)
  then set_drops dropped last h else set_drops dropped now h.

(** [closed] is what the caller's atomic load returned: a false one may be out of date. *)
Definition EventHub_Publish ev (closed : bool) (now : Z) h : EventHub D * bool :=
  if closed then (h, false)
  else if Z.of_nat (length (eh_publishCh h)) <? eh_publishDepth h
  then (set_publishCh (eh_publishCh h ++ [ev]) h, true)
  else (recordDrop now h, false).

Definition chan_push ev (c : EventChan D) : EventChan D :=
  {| ch_buf := ch_buf c ++ [ev]; ch_closed := ch_closed c |}.
Definition chan_close (c : EventChan D) : EventChan D := {| ch_buf := ch_buf c; ch_closed := true |}.
Definition chan_full h (c : EventChan D) : bool := negb (Z.of_nat (length (ch_buf c)) <? eh_subscriberDepth h).

(** The inner select of [run]: send or drop. *)
Definition send_or_drop ev (now : Z → Z) h (id : Z) : EventHub D :=
  match eh_chans h !! id with
  | None => h
  | Some c =>
      if chan_full h c then recordDrop (now id) h
      else set_subs (eh_subscribers h) (eh_nextID h) (<[id := chan_push ev c]> (eh_chans h)) h
  end.

(** The turns of [run]'s loop.  [order] is the order in which the map is ranged over. *)
Definition run_event (order : list Z) (now : Z → Z) h : option (EventHub D * AppEvent D) :=
  match eh_publishCh h with
  | [] => None
  | ev :: rest =>
      if eh_stopped h || negb (bool_decide (order ≡ₚ elements (eh_subscribers h))) then None
      else Some (foldl (send_or_drop ev now) (set_publishCh rest h) order, ev)
  end.

Definition run_subscribe h : EventHub D * Z :=
  let id := (eh_nextID h + 1) mod 2 ^ 64 in
  (set_subs ({[id]} ∪ eh_subscribers h) id (<[id := Build_EventChan [] false]> (eh_chans h)) h, id).

Definition run_unsubscribe (id : Z) h : EventHub D :=
  if bool_decide (id ∈ eh_subscribers h)
  then set_subs (eh_subscribers h ∖ {[id]}) (eh_nextID h) (alter chan_close id (eh_chans h)) h
  else h.

Definition run_done h : EventHub D :=
  let chans := map_imap (λ id c, Some (if bool_decide (id ∈ eh_subscribers h) then chan_close c else c)) (eh_chans h) in
  set_flags (eh_closed h) (eh_done h) true (set_subs ∅ (eh_nextID h) chans h).

(** The caller's side.  [sent] is the case its first select took (the owner's receive or
    [done]); with [None] it holds a closed channel.  After a send the owner has made the
    subscription; a caller whose second select finds [done] closed before it reads the
    answer holds a closed channel instead of this one, and is to the hub a subscriber that
    never receives. *)
Definition EventHub_Subscribe (sent : bool) h : option (EventHub D * option Z) :=
  if eh_closed h then Some (h, None)
  else if sent then if eh_stopped h then None else let '(h', id) := run_subscribe h in Some (h', Some id)
  else if eh_done h then Some (h, None) else None.

Definition EventHub_unsubscribe (sent : bool) (id : Z) h : option (EventHub D) :=
  if sent then if eh_stopped h then None else Some (run_unsubscribe id h)
  else if eh_done h then Some h else None.

Definition EventHub_Close h : EventHub D :=
  if eh_done h then h else set_flags true true (eh_stopped h) h.

Definition receive (id : Z) h : option (EventHub D * option (AppEvent D)) :=
  match eh_chans h !! id with
  | None => None
  | Some c =>
      match ch_buf c with
      | ev :: rest =>
          Some (set_subs (eh_subscribers h) (eh_nextID h) (<[id := Build_EventChan rest (ch_closed c)]> (eh_chans h)) h,
                Some ev)
      | [] => if ch_closed c then Some (h, None) else None
      end
  end.
End hub.

Definition EventHubEventClass (eventType : string) : string :=
  if bool_decide (eventType ∈ ["SnapshotCommitted"; "SnapshotStateSync"]) then "snapshot"
  else if bool_decide (eventType ∈ ["RoomCreated"; "RoomUpdated"; "RoomDeleted"; "FullStateSync"; "ROOM_CHANGED";
                                    "CHECKIN_UPDATED"; "CHECKINS_UPDATED"; "SESSION_STATS_UPDATED"]) then "room"
  else "application".

(** * Histories *)

Inductive HubOp (D : Type) :=
| OpPublish (ev : AppEvent D) (closed : bool) (now : Z)
| OpEvent (order : list Z) (now : Z → Z)
| OpSubscribe (sent : bool)
| OpUnsubscribe (sent : bool) (id : Z)
| OpReceive (id : Z)
| OpClose
| OpDone.
Arguments OpPublish {D} _ _ _.
Arguments OpEvent {D} _ _.
Arguments OpSubscribe {D} _.
Arguments OpUnsubscribe {D} _ _.
Arguments OpReceive {D} _.
Arguments OpClose {D}.
Arguments OpDone {D}.

(** What happened so far: the accepted and the dispatched events, how many publications
    were refused for want of room, which subscribers missed an event, how much had been
    dispatched when each subscription began and what each subscriber has received. *)
Record HubHist (D : Type) := {
  hh_accepted : list (AppEvent D);
  hh_dispatched : list (AppEvent D);
  hh_refused : nat;
  hh_missed : list Z;
  hh_since : gmap Z nat;
  hh_received : gmap Z (list (AppEvent D))
}.
Arguments Build_HubHist {D} _ _ _ _ _ _.
Arguments hh_accepted {D} _.
Arguments hh_dispatched {D} _.
Arguments hh_refused {D} _.
Arguments hh_missed {D} _.
Arguments hh_since {D} _.
Arguments hh_received {D} _.

Section history.
Context {D : Type}.
Implicit Types (h : EventHub D) (ev : AppEvent D) (hi : HubHist D).

Definition no_history : HubHist D := Build_HubHist [] [] 0 [] ∅ ∅.

Definition full_at h (id : Z) : bool :=
  match eh_chans h !! id with Some c => chan_full h c | None => false end.

Definition received hi (id : Z) : list (AppEvent D) := default [] (hh_received hi !! id).

Definition hub_step (op : HubOp D) (s : EventHub D * HubHist D) : option (EventHub D * HubHist D) :=
  let '(h, hi) := s in
  match op with
  | OpPublish ev closed now =>
      if closed && negb (eh_closed h) then None
      else
        let '(h', ok) := EventHub_Publish ev closed now h in
        Some (h', Build_HubHist (if ok then hh_accepted hi ++ [ev] else hh_accepted hi) (hh_dispatched hi)
                    (if ok || closed then hh_refused hi else S (hh_refused hi)) (hh_missed hi) (hh_since hi)
                    (hh_received hi))
  | OpEvent order now =>
      '(h', ev) ← run_event order now h;
      Some (h', Build_HubHist (hh_accepted hi) (hh_dispatched hi ++ [ev]) (hh_refused hi)
                  (hh_missed hi ++ base.filter (λ id, full_at h id = true) order) (hh_since hi) (hh_received hi))
  | OpSubscribe sent =>
      '(h', id) ← EventHub_Subscribe sent h;
      Some (h', match id with
                | None => hi
                | Some id => Build_HubHist (hh_accepted hi) (hh_dispatched hi) (hh_refused hi) (hh_missed hi)
                               (<[id := length (hh_dispatched hi)]> (hh_since hi)) (hh_received hi)
                end)
  | OpUnsubscribe sent id => h' ← EventHub_unsubscribe sent id h; Some (h', hi)
  | OpReceive id =>
      '(h', r) ← receive id h;
      Some (h', match r with
                | None => hi
                | Some ev => Build_HubHist (hh_accepted hi) (hh_dispatched hi) (hh_refused hi) (hh_missed hi)
                               (hh_since hi) (<[id := received hi id ++ [ev]]> (hh_received hi))
                end)
  | OpClose => Some (EventHub_Close h, hi)
  | OpDone => if eh_done h && negb (eh_stopped h) then Some (run_done h, hi) else None
  end.

Definition hub_run (ops : list (HubOp D)) (s : EventHub D * HubHist D) : option (EventHub D * HubHist D) :=
  foldl (λ r op, s ← r; hub_step op s) (Some s) ops.

(** What has reached a subscriber: received, or waiting in its channel. *)
Definition stream h hi (id : Z) : list (AppEvent D) :=
  received hi id ++ match eh_chans h !! id with Some c => ch_buf c | None => [] end.

(** * The fan-out of one event *)

Definition push_unless_full h ev (c : EventChan D) : EventChan D :=
  if chan_full h c then c else chan_push ev c.

(** [h'] differs from [h] in channels and drop counters only. *)
Record same_but_chans h h' : Prop := {
  sc_pub : eh_publishCh h' = eh_publishCh h;
  sc_pd : eh_publishDepth h' = eh_publishDepth h;
  sc_sd : eh_subscriberDepth h' = eh_subscriberDepth h;
  sc_done : eh_done h' = eh_done h;
  sc_stop : eh_stopped h' = eh_stopped h;
  sc_closed : eh_closed h' = eh_closed h;
  sc_subs : eh_subscribers h' = eh_subscribers h;
  sc_next : eh_nextID h' = eh_nextID h
}.

Lemma recordDrop_frame now h :
  same_but_chans h (recordDrop now h) ∧ eh_chans (recordDrop now h) = eh_chans h ∧
  eh_dropped (recordDrop now h) = (eh_dropped h + 1) mod 2 ^ 64.
Proof. unfold recordDrop. destruct (_ && _); by repeat split. Qed.

Lemma same_but_chans_trans h1 h2 h3 : same_but_chans h1 h2 → same_but_chans h2 h3 → same_but_chans h1 h3.
Proof. intros [] []. split; congruence. Qed.

Lemma send_or_drop_frame ev now h id :
  same_but_chans h (send_or_drop ev now h id) ∧
  eh_chans (send_or_drop ev now h id) = alter (push_unless_full h ev) id (eh_chans h) ∧
  eh_dropped (send_or_drop ev now h id) = (if full_at h id then (eh_dropped h + 1) mod 2 ^ 64 else eh_dropped h).
Proof.
  unfold send_or_drop, full_at. destruct (eh_chans h !! id) as [c|] eqn:Ec.
  2:{ split; [by split|]. split; [|done]. apply map_eq. intros j. destruct (decide (j = id)) as [->|].
      - by rewrite lookup_alter_eq, Ec.
      - by rewrite lookup_alter_ne. }
  destruct (chan_full h c) eqn:Ef.
  - destruct (recordDrop_frame (now id) h) as (F & Hc & Hd). split; [done|]. split; [|done]. rewrite Hc.
    apply map_eq. intros j. destruct (decide (j = id)) as [->|].
    + rewrite lookup_alter_eq, Ec. cbn. unfold push_unless_full. by rewrite Ef.
    + by rewrite lookup_alter_ne.
  - split; [by split|]. split; [|done]. cbn. apply map_eq. intros j. destruct (decide (j = id)) as [->|].
    + rewrite lookup_alter_eq, lookup_insert_eq, Ec. cbn. unfold push_unless_full. by rewrite Ef.
    + by rewrite lookup_alter_ne, lookup_insert_ne.
Qed.

Lemma full_at_other ev h h' id j :
  same_but_chans h h' → eh_chans h' = alter (push_unless_full h ev) id (eh_chans h) → j ≠ id →
  full_at h' j = full_at h j.
Proof. intros F E Hj. unfold full_at, chan_full. rewrite E, lookup_alter_ne, (sc_sd _ _ F) by done. done. Qed.

Lemma fan_out ev now order h :
  NoDup order →
  let h' := foldl (send_or_drop ev now) h order in
  same_but_chans h h' ∧
  (∀ id, eh_chans h' !! id =
         if bool_decide (id ∈ order) then push_unless_full h ev <$> eh_chans h !! id else eh_chans h !! id) ∧
  eh_dropped h' mod 2 ^ 64 = (eh_dropped h + Z.of_nat (length (base.filter (λ id, full_at h id = true) order))) mod 2 ^ 64.
Proof.
  intros Hnd. revert h. induction Hnd as [|i order Hi Hnd IH]; intros h; cbn [foldl].
  { split; [by split|]. split; [done|]. cbn. f_equal. lia. }
  destruct (send_or_drop_frame ev now h i) as (F & Ec & Ed). set (h1 := send_or_drop ev now h i) in *.
  destruct (IH h1) as (F' & Ec' & Ed'). split; [by eapply same_but_chans_trans|]. split.
  - intros id. rewrite Ec', Ec. destruct (decide (id = i)) as [->|Hne].
    + rewrite bool_decide_eq_false_2, bool_decide_eq_true_2 by (done || left). by rewrite lookup_alter_eq.
    + rewrite lookup_alter_ne by done.
      rewrite (bool_decide_ext (id ∈ i :: order) (id ∈ order)) by set_solver.
      destruct (bool_decide _); [|done]. unfold push_unless_full, chan_full. by rewrite (sc_sd _ _ F).
  - rewrite Ed'. rewrite filter_cons. assert (Hf : base.filter (λ id, full_at h1 id = true) order = base.filter (λ id, full_at h id = true) order).
    { clear -F Ec Hi. induction order as [|j order IHo]; [done|].
      rewrite !filter_cons, IHo by set_solver. rewrite (full_at_other ev h h1 i j) by (done || set_solver). done. }
    rewrite Hf, Ed. destruct (full_at h i).
    + rewrite decide_True by done. cbn [length]. rewrite <- Zplus_mod_idemp_l, Zmod_mod, Zplus_mod_idemp_l. f_equal. lia.
    + rewrite decide_False by done. done.
Qed.

(** * The invariant *)

Record chan_ok h hi (id : Z) (c : EventChan D) : Prop := {
  ck_id : id ≤ eh_nextID h;
  ck_bound : Z.of_nat (length (ch_buf c)) ≤ eh_subscriberDepth h;
  ck_closed : ch_closed c = negb (bool_decide (id ∈ eh_subscribers h));
  ck_stream : ∃ k, hh_since hi !! id = Some k ∧ (k ≤ length (hh_dispatched hi))%nat ∧
    received hi id ++ ch_buf c `sublist_of` drop k (hh_dispatched hi) ∧
    (id ∈ eh_subscribers h → id ∉ hh_missed hi → received hi id ++ ch_buf c = drop k (hh_dispatched hi))
}.

Record hub_inv (n : nat) h hi : Prop := {
  hv_split : hh_accepted hi = hh_dispatched hi ++ eh_publishCh h;
  hv_ingress : Z.of_nat (length (eh_publishCh h)) ≤ eh_publishDepth h;
  hv_depth : 0 < eh_subscriberDepth h;
  hv_next : 0 ≤ eh_nextID h ≤ Z.of_nat n;
  hv_subs : ∀ id, id ∈ eh_subscribers h → is_Some (eh_chans h !! id);
  hv_missed : ∀ id, id ∈ hh_missed hi → id ≤ eh_nextID h;
  hv_received : ∀ id, is_Some (hh_received hi !! id) → id ≤ eh_nextID h;
  hv_dropped : eh_dropped h mod 2 ^ 64 = (Z.of_nat (hh_refused hi) + Z.of_nat (length (hh_missed hi))) mod 2 ^ 64;
  hv_stopped : eh_stopped h = true → eh_subscribers h = ∅;
  hv_chan : ∀ id c, eh_chans h !! id = Some c → chan_ok h hi id c
}.

Lemma hub_inv_new pd sd : hub_inv 0 (NewEventHub pd sd) no_history.
Proof.
  split; cbn; try (done || set_solver || lia).
  - destruct (pd <=? 0) eqn:E; bool_to_prop; lia.
  - destruct (sd <=? 0) eqn:E; bool_to_prop; lia.
  - intros id [? Hl]. done.
Qed.

Lemma hub_inv_weaken n m h hi : (n ≤ m)%nat → hub_inv n h hi → hub_inv m h hi.
Proof. intros Hnm []. split; try done. lia. Qed.

Lemma hub_publish_inv n ev closed now h hi h' hi' :
  hub_step (OpPublish ev closed now) (h, hi) = Some (h', hi') → hub_inv n h hi → hub_inv n h' hi'.
Proof.
  cbn. destruct (closed && _); [done|]. unfold EventHub_Publish. destruct closed; cbn.
  { intros [= <- <-]. by destruct hi. }
  destruct (_ <? _) eqn:El; cbn; intros [= <- <-] I; destruct I.
  - split; cbn; try done.
    + by rewrite hv_split0, app_assoc.
    + rewrite length_app. cbn. bool_to_prop. lia.
    + intros id c Hc. by destruct (hv_chan0 id c Hc).
  - destruct (recordDrop_frame now h) as ([] & Ec & Ed).
    split; cbn; rewrite ?Ec, ?Ed, ?sc_pub0, ?sc_pd0, ?sc_sd0, ?sc_subs0, ?sc_next0, ?sc_stop0; try done.
    + rewrite Zmod_mod, <- Zplus_mod_idemp_l, hv_dropped0, Zplus_mod_idemp_l. f_equal. lia.
    + intros id c Hc. destruct (hv_chan0 id c Hc). split; cbn; by rewrite ?sc_next0, ?sc_sd0, ?sc_subs0.
Qed.

(** One dispatched event extends every stream by it or by nothing. *)
Lemma chan_ok_event h h' hi ev rest id c missed :
  eh_publishCh h = ev :: rest → same_but_chans (set_publishCh rest h) h' →
  chan_ok h hi id c →
  (id ∈ eh_subscribers h → chan_full h c = true → id ∈ missed) →
  chan_ok h' (Build_HubHist (hh_accepted hi) (hh_dispatched hi ++ [ev]) (hh_refused hi) (hh_missed hi ++ missed)
                (hh_since hi) (hh_received hi)) id
    (if bool_decide (id ∈ eh_subscribers h) then push_unless_full h ev c else c).
Proof.
  intros Hq [] [Hid Hb Hc (k & Hk & Hkl & Hs & Hx)] Hm. cbn in *.
  split; rewrite ?sc_next0, ?sc_sd0, ?sc_subs0.
  - done.
  - destruct (bool_decide _); [|done]. unfold push_unless_full, chan_full. destruct (_ <? _) eqn:El; cbn; [|done].
    rewrite length_app. cbn. bool_to_prop. lia.
  - rewrite <- Hc. destruct (bool_decide _); [|done]. unfold push_unless_full. by destruct (chan_full h c).
  - exists k. cbn. split; [done|]. split; [rewrite length_app; lia|]. rewrite drop_app_le by done.
    change (received _ id) with (received hi id). destruct (bool_decide (id ∈ eh_subscribers h)) eqn:Eb; bool_to_prop.
    + unfold push_unless_full. destruct (chan_full h c) eqn:Ef; cbn.
      * split; [by apply sublist_inserts_r|]. intros _ Hn. exfalso. apply Hn, elem_of_app. by right; apply Hm.
      * rewrite app_assoc. split; [by apply sublist_app|]. intros Hin Hn. f_equal. apply Hx; [done|]. set_solver.
    + split; [by apply sublist_inserts_r|]. done.
Qed.

Lemma event_inv n order now h hi h' hi' :
  hub_step (OpEvent order now) (h, hi) = Some (h', hi') → hub_inv n h hi → hub_inv n h' hi'.
Proof.
  cbn. unfold run_event. destruct (eh_publishCh h) as [|ev rest] eqn:Hq; [done|]. cbn.
  destruct (eh_stopped h) eqn:Hst; cbn; [done|]. destruct (bool_decide _) eqn:Hp; cbn; [|done].
  bool_to_prop. intros [= <- <-] I. assert (Hnd : NoDup order) by (rewrite Hp; apply NoDup_elements).
  assert (Hin : ∀ id, id ∈ order ↔ id ∈ eh_subscribers h) by (intros id; rewrite Hp; apply elem_of_elements).
  destruct (fan_out ev now order (set_publishCh rest h) Hnd) as (F & Ec & Ed).
  set (h' := foldl _ _ _) in *. pose proof F as []. cbn in *. destruct I. rewrite Hq in *.
  change (λ id : Z, full_at (set_publishCh rest h) id = true) with (λ id : Z, full_at h id = true) in Ed.
  split; cbn; rewrite ?sc_pub0, ?sc_pd0, ?sc_sd0, ?sc_subs0, ?sc_next0, ?sc_stop0; try done.
  - by rewrite hv_split0, <- app_assoc.
  - cbn in hv_ingress0. lia.
  - intros id Hs. rewrite Ec. destruct (bool_decide _); [|by apply hv_subs0].
    by apply fmap_is_Some, hv_subs0.
  - intros id [?|[_ Ho%Hin]%list_elem_of_filter]%elem_of_app; [by apply hv_missed0|].
    destruct (hv_subs0 id Ho) as [c Hc]. apply (ck_id _ _ _ _ (hv_chan0 id c Hc)).
  - rewrite Ed, length_app, <- Zplus_mod_idemp_l, hv_dropped0, Zplus_mod_idemp_l. f_equal. rewrite Nat2Z.inj_add, Z.add_assoc. reflexivity.
  - intros id c'. rewrite Ec. rewrite (bool_decide_ext _ _ (Hin id)). intros Hc'.
    assert (∃ c, eh_chans h !! id = Some c ∧
      c' = if bool_decide (id ∈ eh_subscribers h) then push_unless_full h ev c else c) as (c & Hc & ->).
    { destruct (bool_decide _); [apply fmap_Some in Hc' as (c & ? & ->)|]; eauto. }
    eapply chan_ok_event; [done|done|by apply hv_chan0|]. intros Hs Hf. apply list_elem_of_filter.
    split; [|by apply Hin]. unfold full_at. by rewrite Hc.
Qed.

Lemma subscribe_inv n sent h hi h' hi' :
  Z.of_nat n + 1 < 2 ^ 64 →
  hub_step (OpSubscribe sent) (h, hi) = Some (h', hi') → hub_inv n h hi → hub_inv (S n) h' hi'.
Proof.
  intros Hn. cbn. unfold EventHub_Subscribe.
  assert (Hsame : Some (h, hi) = Some (h', hi') → hub_inv n h hi → hub_inv (S n) h' hi').
  { intros [= <- <-]. apply hub_inv_weaken. lia. }
  destruct (eh_closed h); [done|]. destruct sent.
  2:{ by destruct (eh_done h). }
  destruct (eh_stopped h) eqn:Hst; [done|]. clear Hsame. intros [= <- <-] I. destruct I.
  rewrite Z.mod_small by lia. set (id := eh_nextID h + 1).
  split; cbn; try done.
  - lia.
  - intros i [->%elem_of_singleton|Hi]%elem_of_union; [rewrite lookup_insert_eq; eauto|].
    destruct (decide (i = id)) as [->|]; [rewrite lookup_insert_eq; eauto|].
    rewrite lookup_insert_ne by done. by apply hv_subs0.
  - intros i Hi. pose proof (hv_missed0 i Hi). lia.
  - intros i Hi. pose proof (hv_received0 i Hi). lia.
  - by rewrite Hst.
  - intros i c. destruct (decide (i = id)) as [->|Hne].
    + rewrite lookup_insert_eq. intros [= <-]. split; cbn; [lia|lia| |].
      * rewrite bool_decide_eq_true_2; [done|set_solver].
      * exists (length (hh_dispatched hi)). rewrite lookup_insert_eq. split; [done|]. split; [lia|].
        unfold received. cbn. destruct (hh_received hi !! id) eqn:Er.
        { exfalso. pose proof (hv_received0 id (ex_intro _ _ Er)). lia. }
        rewrite drop_all. cbn. done.
    + rewrite lookup_insert_ne by done. intros Hc. destruct (hv_chan0 i c Hc) as [? ? Hcl (k & Hk & ?)].
      split; cbn; [lia|done| |].
      * rewrite Hcl. f_equal. apply bool_decide_ext. set_solver.
      * exists k. rewrite lookup_insert_ne by done. split; [done|]. destruct_and!. split; [done|]. split; [done|].
        intros Hin. assert (i ∈ eh_subscribers h) by set_solver. auto.
Qed.

(** A step that only ends subscriptions and closes their channels. *)
Lemma chan_ok_shrink h h' hi id c :
  eh_nextID h' = eh_nextID h → eh_subscriberDepth h' = eh_subscriberDepth h → eh_subscribers h' ⊆ eh_subscribers h →
  chan_ok h hi id c →
  chan_ok h' hi id (if bool_decide (id ∈ eh_subscribers h ∖ eh_subscribers h') then chan_close c else c).
Proof.
  intros E1 E2 Hs [Hid Hb Hc (k & Hk & Hkl & Hsub & Hx)].
  assert (Hbuf : ch_buf (if bool_decide (id ∈ eh_subscribers h ∖ eh_subscribers h') then chan_close c else c) = ch_buf c)
    by (by destruct (bool_decide (id ∈ eh_subscribers h ∖ eh_subscribers h'))).
  split; rewrite ?E1, ?E2, ?Hbuf; try done.
  - destruct (bool_decide (id ∈ eh_subscribers h ∖ eh_subscribers h')) eqn:Eb; bool_to_prop; cbn.
    + rewrite bool_decide_eq_false_2; [done|set_solver].
    + rewrite Hc. f_equal. apply bool_decide_ext. destruct (decide (id ∈ eh_subscribers h')); set_solver.
  - exists k. split_and!; try done. intros Hin. apply Hx. set_solver.
Qed.

Lemma shrink_inv n h h' hi :
  eh_publishCh h' = eh_publishCh h → eh_publishDepth h' = eh_publishDepth h →
  eh_nextID h' = eh_nextID h → eh_subscriberDepth h' = eh_subscriberDepth h → eh_dropped h' = eh_dropped h →
  eh_subscribers h' ⊆ eh_subscribers h →
  (eh_stopped h' = true → eh_subscribers h' = ∅) →
  (∀ id, eh_chans h' !! id =
    (λ c, if bool_decide (id ∈ eh_subscribers h ∖ eh_subscribers h') then chan_close c else c) <$> eh_chans h !! id) →
  hub_inv n h hi → hub_inv n h' hi.
Proof.
  intros E1 E2 E3 E4 E5 Hs Hst Hc []. split; rewrite ?E1, ?E2, ?E3, ?E4, ?E5; try done.
  - intros id Hin. rewrite Hc. apply fmap_is_Some, hv_subs0. set_solver.
  - intros id c'. rewrite Hc. intros (c & Hc' & ->)%fmap_Some. eapply chan_ok_shrink; [..|by apply hv_chan0]; done.
Qed.

Lemma end_inv n op h hi h' hi' :
  match op with OpUnsubscribe _ _ | OpClose | OpDone => True | _ => False end →
  hub_step op (h, hi) = Some (h', hi') → hub_inv n h hi → hub_inv n h' hi'.
Proof.
  destruct op as [| | |sent id| | |]; try done; intros _; cbn.
  - unfold EventHub_unsubscribe. destruct sent.
    2:{ destruct (eh_done h); [|done]. by intros [= <- <-]. }
    destruct (eh_stopped h) eqn:Hst; [done|]. intros [= <- <-] I. unfold run_unsubscribe.
    destruct (bool_decide _) eqn:Eb; [|done]. bool_to_prop.
    eapply shrink_inv; [..|exact I]; cbn; try done; try set_solver; [by rewrite Hst|].
    intros j. destruct (decide (j = id)) as [->|].
    + rewrite lookup_alter_eq, bool_decide_eq_true_2 by set_solver. done.
    + rewrite lookup_alter_ne, bool_decide_eq_false_2 by set_solver. by destruct (eh_chans h !! j).
  - unfold EventHub_Close. intros [= <- <-] I. destruct (eh_done h); [done|]. destruct I. split; try done.
    intros id c Hc. destruct (hv_chan0 id c Hc). by split.
  - destruct (_ && _); [|done]. intros [= <- <-] I. eapply shrink_inv; [..|exact I]; cbn; try done; try set_solver.
    intros j. rewrite map_lookup_imap. destruct (eh_chans h !! j); cbn; [|done]. by rewrite difference_empty_L.
Qed.

Lemma receive_inv n id h hi h' hi' :
  hub_step (OpReceive id) (h, hi) = Some (h', hi') → hub_inv n h hi → hub_inv n h' hi'.
Proof.
  cbn. unfold receive. destruct (eh_chans h !! id) as [c|] eqn:Ec; [|done].
  destruct (ch_buf c) as [|ev rest] eqn:Eb; cbn.
  { destruct (ch_closed c); [|done]. by intros [= <- <-]. }
  intros [= <- <-] I. destruct I. split; cbn; try done.
  - intros j Hj. destruct (decide (j = id)) as [->|]; [rewrite lookup_insert_eq; eauto|].
    rewrite lookup_insert_ne by done. by apply hv_subs0.
  - intros j Hj. destruct (decide (j = id)) as [->|]; [apply (ck_id _ _ _ _ (hv_chan0 id c Ec))|].
    rewrite lookup_insert_ne in Hj by done. by apply hv_received0.
  - intros j c'. destruct (decide (j = id)) as [->|Hne].
    + rewrite lookup_insert_eq. intros [= <-]. destruct (hv_chan0 id c Ec) as [? Hb Hcl (k & Hk & Hkl & Hs & Hx)].
      rewrite Eb in *. assert (Hr : ∀ a b d e, received (Build_HubHist a b d e (hh_since hi)
        (<[id := received hi id ++ [ev]]> (hh_received hi))) id = received hi id ++ [ev]).
      { intros. unfold received at 1. cbn. by rewrite lookup_insert_eq. }
      split; cbn; try done; [cbn in Hb; lia|]. exists k. rewrite Hr, <- app_assoc. by split_and!.
    + rewrite lookup_insert_ne by done. intros Hc. destruct (hv_chan0 j c' Hc) as [? ? ? (k & ?)]. split; try done.
      exists k. unfold received in *. cbn. by rewrite lookup_insert_ne.
Qed.

Lemma hub_step_inv n op s s' :
  Z.of_nat n + 1 < 2 ^ 64 → hub_step op s = Some s' → hub_inv n s.1 s.2 → hub_inv (S n) s'.1 s'.2.
Proof.
  destruct s as [h hi], s' as [h' hi']. intros Hn E I. cbn [fst snd] in *.
  destruct op as [ev closed now|order now|sent|sent id|id| |]; [..|by eapply (hub_inv_weaken n), (end_inv n OpDone); [lia|..]].
  1, 2, 5: apply (hub_inv_weaken n); [lia|]; eauto using hub_publish_inv, event_inv, receive_inv.
  - by eapply subscribe_inv.
  - by eapply (hub_inv_weaken n), (end_inv n (OpUnsubscribe sent id)); [lia|..].
  - by eapply (hub_inv_weaken n), (end_inv n OpClose); [lia|..].
Qed.

Lemma hub_run_inv ops pd sd h hi :
  Z.of_nat (length ops) < 2 ^ 64 → hub_run ops (NewEventHub pd sd, no_history) = Some (h, hi) →
  hub_inv (length ops) h hi.
Proof.
  revert h hi. induction ops as [|op ops IH] using rev_ind; intros h hi Hn.
  { intros [= <- <-]. apply hub_inv_new. }
  unfold hub_run. rewrite foldl_app. cbn [foldl]. fold (hub_run ops (NewEventHub pd sd, no_history)).
  rewrite length_app in *. cbn [length] in *. destruct (hub_run ops _) as [[h0 hi0]|]; [|done]. cbn [mbind option_bind].
  intros E. rewrite Nat.add_1_r. eapply (hub_step_inv _ op (h0, hi0) (h, hi)); [lia|done|]. apply IH; [lia|done].
Qed.

(** C26: the hub delivers in order and accounts for every loss.  Whatever publishers,
    subscribers and the owner do, the buffers stay within their depths and nothing
    blocks on them; what a subscriber has received, followed by what waits in its
    channel, is a subsequence of the events dispatched since it subscribed, and all of
    them if it missed none; dispatched events are the accepted ones in order; the drop
    counter counts the refused publications and the missed deliveries; the channel of a
    finished subscription is closed, so its reader ends. *)
Theorem hub_streams ops pd sd h hi :
  Z.of_nat (length ops) < 2 ^ 64 → hub_run ops (NewEventHub pd sd, no_history) = Some (h, hi) →
  hh_accepted hi = hh_dispatched hi ++ eh_publishCh h ∧
  Z.of_nat (length (eh_publishCh h)) ≤ eh_publishDepth h ∧
  eh_dropped h mod 2 ^ 64 = (Z.of_nat (hh_refused hi) + Z.of_nat (length (hh_missed hi))) mod 2 ^ 64 ∧
  ∀ id c, eh_chans h !! id = Some c →
    Z.of_nat (length (ch_buf c)) ≤ eh_subscriberDepth h ∧
    (ch_closed c = false ↔ id ∈ eh_subscribers h) ∧
    ∃ k, hh_since hi !! id = Some k ∧
      stream h hi id `sublist_of` drop k (hh_dispatched hi) ∧
      (id ∈ eh_subscribers h → id ∉ hh_missed hi → stream h hi id = drop k (hh_dispatched hi)).
Proof.
  intros Hn E. destruct (hub_run_inv _ _ _ _ _ Hn E). split_and!; try done.
  intros id c Hc. destruct (hv_chan0 id c Hc) as [_ Hb Hcl (k & Hk & _ & Hs & Hx)].
  split; [done|]. split. { rewrite Hcl, negb_false_iff. apply bool_decide_eq_true. }
  exists k. unfold stream. rewrite Hc. by split_and!.
Qed.
End history.
