(* ===== verification/Activity.v ===== *)
(** The activity controller ([internal/service/activity_controller.go]): the active/idle
    lifecycle of the background workers.

    A step of the model is one shared-memory or channel operation of a goroutine, so
    that requests (RecordActivity, BeginActivity, Finish) interleave with every point
    of the loop of [Run]; the workers, the idle handlers and the timer are the environment. *)

From stdpp Require Import base list numbers strings relations.
From Stdlib Require Import ZArith Lia.
From S2P Require Import Prelude.

Local Open Scope Z_scope.
Local Open Scope stdpp_scope.

(** A Go timer: running, expired with its value unread in the channel, or neither. *)
Inductive TimerState := TArmed | TFired | TStopped.
#[export] Instance timer_eq_dec : EqDecision TimerState.
Proof. solve_decision. Defined.

(** Where the loop of [Run] is. *)
Inductive RunPC :=
| PSelect                      (* waiting in the select *)
| PSignal                      (* received from activityCh *)
| PExpired (expiring : Z)      (* received from idleTimerC, before transitionMu *)
| PLocked (expiring : Z)       (* holds transitionMu, before the first load *)
| PChecked (expiring : Z)      (* no request in flight, before the second load *)
| PStopping (expiring : Z)     (* in stopWorkers *)
| PStopped (expiring : Z)      (* after stopWorkers, before the last load *)
| PIdle (expiring : Z)         (* the idle handlers run *)
| PFinal                       (* the context is done, in stopWorkers *)
| PFinalIdle                   (* the idle handlers run before Run returns, without transitionMu *)
| PReturned.
#[export] Instance run_pc_eq_dec : EqDecision RunPC.
Proof. solve_decision. Defined.

Record ActivityController := {
  ac_activityCh : bool;
  ac_activitySeq : Z;
  ac_inFlight : Z;
  ac_transitionMu : bool;
  ac_recording : nat;            (* goroutines in RecordActivity after its Add *)
  ac_leases : nat;               (* leases not finished *)
  ac_finishing : nat;            (* Finish(true) before its RecordActivity *)
  ac_pc : RunPC;
  ac_cancelWorkers : bool;       (* cancelWorkers is not nil *)
  ac_idleTimer : option TimerState;
  ac_idleTimerC : bool;          (* idleTimerC is not nil *)
  ac_handledActivity : Z;
  ac_generation : Z
}.

Definition NewActivityController : ActivityController :=
  {| ac_activityCh := false; ac_activitySeq := 0; ac_inFlight := 0; ac_transitionMu := false;
     ac_recording := 0; ac_leases := 0; ac_finishing := 0; ac_pc := PSelect; ac_cancelWorkers := false;
     ac_idleTimer := None; ac_idleTimerC := false; ac_handledActivity := 0; ac_generation := 0 |}.

(** The shared fields. *)
Definition with_shared (ch : bool) (sq fl : Z) (rec leases fin : nat) (c : ActivityController) : ActivityController :=
  {| ac_activityCh := ch; ac_activitySeq := sq; ac_inFlight := fl; ac_transitionMu := ac_transitionMu c;
     ac_recording := rec; ac_leases := leases; ac_finishing := fin; ac_pc := ac_pc c;
     ac_cancelWorkers := ac_cancelWorkers c; ac_idleTimer := ac_idleTimer c; ac_idleTimerC := ac_idleTimerC c;
     ac_handledActivity := ac_handledActivity c; ac_generation := ac_generation c |}.

(** The local variables of [Run]. *)
Definition with_run (mu : bool) (pc : RunPC) (workers : bool) (timer : option TimerState) (timerC : bool)
    (handled gen : Z) (c : ActivityController) : ActivityController :=
  {| ac_activityCh := ac_activityCh c; ac_activitySeq := ac_activitySeq c; ac_inFlight := ac_inFlight c;
     ac_transitionMu := mu; ac_recording := ac_recording c; ac_leases := ac_leases c;
     ac_finishing := ac_finishing c; ac_pc := pc; ac_cancelWorkers := workers; ac_idleTimer := timer;
     ac_idleTimerC := timerC; ac_handledActivity := handled; ac_generation := gen |}.

Definition goto (mu : bool) (pc : RunPC) (c : ActivityController) : ActivityController :=
  with_run mu pc (ac_cancelWorkers c) (ac_idleTimer c) (ac_idleTimerC c) (ac_handledActivity c) (ac_generation c) c.

Definition incr64 (n : Z) : Z := (n + 1) mod 2 ^ 64.

(** * Requests *)

(** [activitySeq.Add(1)], then the send that finds room or finds a signal waiting. *)
Definition RecordActivity_add (c : ActivityController) : ActivityController :=
  with_shared (ac_activityCh c) (incr64 (ac_activitySeq c)) (ac_inFlight c) (S (ac_recording c)) (ac_leases c)
    (ac_finishing c) c.

Definition RecordActivity_send (c : ActivityController) : option ActivityController :=
  match ac_recording c with
  | O => None
  | S n => Some (with_shared true (ac_activitySeq c) (ac_inFlight c) n (ac_leases c) (ac_finishing c) c)
  end.

Definition BeginActivity (c : ActivityController) : option ActivityController :=
  if ac_transitionMu c then None
  else Some (with_shared (ac_activityCh c) (ac_activitySeq c) (wrap64 (ac_inFlight c + 1)) (ac_recording c)
               (S (ac_leases c)) (ac_finishing c) c).

(** The first Finish of a lease; [once] makes later ones do nothing. *)
Definition lease_Finish (success : bool) (c : ActivityController) : option ActivityController :=
  match ac_leases c with
  | O => None
  | S n => Some (with_shared (ac_activityCh c) (ac_activitySeq c) (wrap64 (ac_inFlight c - 1)) (ac_recording c) n
                   (if success then S (ac_finishing c) else ac_finishing c) c)
  end.

Definition lease_record (c : ActivityController) : option ActivityController :=
  match ac_finishing c with
  | O => None
  | S n => Some (RecordActivity_add (with_shared (ac_activityCh c) (ac_activitySeq c) (ac_inFlight c)
                   (ac_recording c) (ac_leases c) n c))
  end.

(** * Run *)

(** [resetIdleTimer]: stopped and drained, or new, and started again. *)
Definition resetIdleTimer (mu : bool) (pc : RunPC) (c : ActivityController) : ActivityController :=
  with_run mu pc (ac_cancelWorkers c) (Some TArmed) true (ac_handledActivity c) (ac_generation c) c.

Definition timer_fires (c : ActivityController) : option ActivityController :=
  match ac_idleTimer c with
  | Some TArmed => Some (with_run (ac_transitionMu c) (ac_pc c) (ac_cancelWorkers c) (Some TFired) (ac_idleTimerC c)
                           (ac_handledActivity c) (ac_generation c) c)
  | _ => None
  end.

(** The three cases of the select. *)
Definition Run_receive (c : ActivityController) : option ActivityController :=
  match ac_pc c with
  | PSelect =>
      if ac_activityCh c
      then Some (with_shared false (ac_activitySeq c) (ac_inFlight c) (ac_recording c) (ac_leases c) (ac_finishing c)
                   (goto (ac_transitionMu c) PSignal c))
      else None
  | _ => None
  end.

Definition Run_expire (c : ActivityController) : option ActivityController :=
  match ac_pc c, ac_idleTimer c with
  | PSelect, Some TFired =>
      if ac_idleTimerC c
      then Some (with_run (ac_transitionMu c) (PExpired (ac_handledActivity c)) (ac_cancelWorkers c) (Some TStopped)
                   false (ac_handledActivity c) (ac_generation c) c)
      else None
  | _, _ => None
  end.

Definition Run_cancel (c : ActivityController) : option ActivityController :=
  match ac_pc c with PSelect => Some (goto (ac_transitionMu c) PFinal c) | _ => None end.

(** The rest of the loop's body, one shared operation at a time. *)
Definition Run_step (c : ActivityController) : option ActivityController :=
  match ac_pc c with
  | PSelect | PReturned => None
  | PSignal =>
      let handled := ac_activitySeq c in
      let gen := if ac_cancelWorkers c then ac_generation c else incr64 (ac_generation c) in
      Some (with_run (ac_transitionMu c) PSelect true (Some TArmed) true handled gen c)
  | PExpired e => Some (goto true (PLocked e) c)
  | PLocked e => Some (if 0 <? ac_inFlight c then resetIdleTimer false PSelect c else goto true (PChecked e) c)
  | PChecked e =>
      Some (if negb (ac_activitySeq c =? e) then resetIdleTimer false PSelect c else goto true (PStopping e) c)
  | PStopping e =>
      Some (with_run true (PStopped e) false (ac_idleTimer c) (ac_idleTimerC c) (ac_handledActivity c)
              (ac_generation c) c)
  | PStopped e => Some (if negb (ac_activitySeq c =? e) then goto false PSelect c else goto true (PIdle e) c)
  | PIdle e => Some (goto false PSelect c)
  | PFinal =>
      Some (with_run (ac_transitionMu c) PFinalIdle false (ac_idleTimer c) (ac_idleTimerC c) (ac_handledActivity c)
              (ac_generation c) c)
  | PFinalIdle =>
      Some (with_run (ac_transitionMu c) PReturned false (if ac_idleTimer c then Some TStopped else None)
              (ac_idleTimerC c) (ac_handledActivity c) (ac_generation c) c)
  end.

(** Every goroutine that holds a lease counts once: there are fewer than 2^63 of them. *)
Inductive activity_step : ActivityController → ActivityController → Prop :=
| act_add c : activity_step c (RecordActivity_add c)
| act_send c c' : RecordActivity_send c = Some c' → activity_step c c'
| act_begin c c' :
    Z.of_nat (S (ac_leases c)) ≤ max_int64 → BeginActivity c = Some c' → activity_step c c'
| act_finish b c c' : lease_Finish b c = Some c' → activity_step c c'
| act_record c c' : lease_record c = Some c' → activity_step c c'
| act_timer c c' : timer_fires c = Some c' → activity_step c c'
| act_receive c c' : Run_receive c = Some c' → activity_step c c'
| act_expire c c' : Run_expire c = Some c' → activity_step c c'
| act_cancel c c' : Run_cancel c = Some c' → activity_step c c'
| act_run c c' : Run_step c = Some c' → activity_step c c'.

Definition activity_reachable (c : ActivityController) : Prop := rtc activity_step NewActivityController c.

(** * The invariant *)

Definition finishing (pc : RunPC) : bool := match pc with PFinal | PFinalIdle | PReturned => true | _ => false end.
Definition in_transition (pc : RunPC) : bool :=
  match pc with PLocked _ | PChecked _ | PStopping _ | PStopped _ | PIdle _ => true | _ => false end.
Definition past_check (pc : RunPC) : bool :=
  match pc with PChecked _ | PStopping _ | PStopped _ | PIdle _ => true | _ => false end.
Definition expiring_of (pc : RunPC) : option Z :=
  match pc with
  | PExpired e | PLocked e | PChecked e | PStopping e | PStopped e | PIdle e => Some e
  | _ => None
  end.
Definition workers_joined (pc : RunPC) : bool :=
  match pc with PStopped _ | PIdle _ | PFinalIdle | PReturned => true | _ => false end.

Record activity_inv (c : ActivityController) : Prop := {
  ai_flight : ac_inFlight c = Z.of_nat (ac_leases c) ∧ Z.of_nat (ac_leases c) ≤ max_int64;
  ai_signal : finishing (ac_pc c) = false → ac_activitySeq c ≠ ac_handledActivity c →
    ac_activityCh c = true ∨ (0 < ac_recording c)%nat ∨ ac_pc c = PSignal;
  ai_mu : ac_transitionMu c = in_transition (ac_pc c);
  ai_excl : past_check (ac_pc c) = true → ac_leases c = 0%nat;
  ai_expiring : ∀ e, expiring_of (ac_pc c) = Some e → e = ac_handledActivity c;
  ai_workers : workers_joined (ac_pc c) = true → ac_cancelWorkers c = false;
  ai_timer : ac_pc c = PSelect → ac_cancelWorkers c = true →
    ac_idleTimerC c = true ∧ (ac_idleTimer c = Some TArmed ∨ ac_idleTimer c = Some TFired)
}.

Lemma activity_inv_new : activity_inv NewActivityController.
Proof. by split. Qed.

(** Case analysis of a step of a request or of the timer. *)
Ltac act_request :=
  repeat match goal with
  | H : context [match ?x with _ => _ end] |- _ => destruct x eqn:?; try discriminate
  end; simplify_eq; split; cbn in *; try done; try lia.

Lemma request_inv c c' :
  activity_inv c →
  (c' = RecordActivity_add c ∨ RecordActivity_send c = Some c' ∨
   (Z.of_nat (S (ac_leases c)) ≤ max_int64 ∧ BeginActivity c = Some c') ∨
   (∃ b, lease_Finish b c = Some c') ∨ lease_record c = Some c' ∨ timer_fires c = Some c') →
  activity_inv c'.
Proof.
  intros [[If Il] Is Im Ie Ix Iw It]. unfold max_int64 in *.
  intros [->|[E|[[Hl E]|[[b E]|[E|E]]]]].
  - split; cbn; try done. intros. right. left. lia.
  - unfold RecordActivity_send in E. act_request.
  - unfold BeginActivity in E. act_request.
    + rewrite wrap64_id, If by (unfold in_int64, min_int64, max_int64; lia). unfold max_int64. lia.
    + by rewrite Heqb.
    + intros Hp. exfalso. destruct (ac_pc c); cbn in *; congruence.
  - unfold lease_Finish in E. destruct (ac_leases c) as [|n] eqn:El; [done|]. injection E as <-.
    split; cbn; try done.
    + rewrite wrap64_id, If by (unfold in_int64, min_int64, max_int64; lia). unfold max_int64. lia.
    + intros Hp. specialize (Ie Hp). lia.
  - unfold lease_record in E. act_request.
  - unfold timer_fires in E. act_request. intros Hp Hw. destruct (It Hp Hw) as [-> _]. auto.
Qed.

Lemma run_inv c c' :
  activity_inv c →
  (Run_receive c = Some c' ∨ Run_expire c = Some c' ∨ Run_cancel c = Some c' ∨ Run_step c = Some c') →
  activity_inv c'.
Proof.
  intros [If Is Im Ie Ix Iw It] E.
  unfold Run_receive, Run_expire, Run_cancel, Run_step in E.
  destruct E as [E|[E|[E|E]]]; destruct (ac_pc c) eqn:Epc; try discriminate; cbn in *.
  - destruct (ac_activityCh c); [|done]. simplify_eq. split; cbn; try done. auto.
  - destruct (ac_idleTimer c) as [[]|]; try discriminate. destruct (ac_idleTimerC c); [|done]. simplify_eq.
    split; cbn; try done; [|congruence]. intros _ Hne. destruct (Is eq_refl Hne) as [?|[?|?]]; auto. done.
  - simplify_eq. by split.
  - simplify_eq. split; cbn; try done. auto.
  - simplify_eq. split; cbn; try done. intros _ Hne. destruct (Is eq_refl Hne) as [?|[?|?]]; auto. done.
  - destruct (0 <? ac_inFlight c) eqn:Ef; simplify_eq; split; cbn; try done; auto.
    + intros _ Hne. destruct (Is eq_refl Hne) as [?|[?|?]]; auto. done.
    + intros _ Hne. destruct (Is eq_refl Hne) as [?|[?|?]]; auto. done.
    + intros _. bool_to_prop. destruct If. lia.
  - destruct (negb _); simplify_eq; split; cbn; try done; auto;
      intros _ Hne; destruct (Is eq_refl Hne) as [?|[?|?]]; auto; done.
  - simplify_eq; split; cbn; try done; auto.
    intros _ Hne; destruct (Is eq_refl Hne) as [?|[?|?]]; auto; done.
  - destruct (negb _); simplify_eq; split; cbn; try done; auto;
      try (intros _ Hne; destruct (Is eq_refl Hne) as [?|[?|?]]; auto; done).
    intros _ Hw. rewrite (Iw eq_refl) in Hw. done.
  - simplify_eq; split; cbn; try done; auto.
    + intros _ Hne; destruct (Is eq_refl Hne) as [?|[?|?]]; auto; done.
    + intros _ Hw. rewrite (Iw eq_refl) in Hw. done.
  - simplify_eq. split; cbn; done || auto.
  - simplify_eq. split; cbn; done || auto.
Qed.

Lemma activity_reachable_inv c : activity_reachable c → activity_inv c.
Proof.
  revert c. apply rtc_ind_r; [apply activity_inv_new|]. intros c1 c2 _ S IH.
  destruct S; first [eapply request_inv; [exact IH|]; by eauto 8|eapply run_inv; [exact IH|]; by eauto].
Qed.

(** * Progress of the loop *)

(** The steps of [Run] alone, taking a waiting signal when it is in its select. *)
Definition Run_next (c : ActivityController) : ActivityController :=
  match ac_pc c with
  | PSelect => default c (Run_receive c)
  | _ => default c (Run_step c)
  end.

(** Every recorded activity has been seen, the workers run, and the idle timer runs. *)
Definition up_to_date (c : ActivityController) : Prop :=
  ac_pc c = PSelect ∧ ac_handledActivity c = ac_activitySeq c ∧ ac_cancelWorkers c = true ∧
  ac_idleTimer c = Some TArmed ∧ ac_idleTimerC c = true.

Lemma Run_next_step c : rtc activity_step c (Run_next c).
Proof.
  unfold Run_next. destruct (ac_pc c) eqn:Ep.
  1: destruct (Run_receive c) eqn:E; [by eapply rtc_once, act_receive|reflexivity].
  all: destruct (Run_step c) eqn:E; [by eapply rtc_once, act_run|reflexivity].
Qed.

Lemma Run_next_steps n c : rtc activity_step c (Nat.iter n Run_next c).
Proof. induction n as [|n IH]; [done|]. etransitivity; [apply IH|apply Run_next_step]. Qed.

(** From the select, two steps handle a waiting signal. *)
Lemma signal_handled c :
  ac_pc c = PSelect → ac_activityCh c = true → up_to_date (Run_next (Run_next c)).
Proof.
  intros Hp Hs. unfold Run_next at 2. rewrite Hp. unfold Run_receive. rewrite Hp, Hs. cbn.
  by repeat split.
Qed.

Definition steps_to_select (pc : RunPC) : nat :=
  match pc with
  | PSelect | PFinal | PFinalIdle | PReturned => 0
  | PSignal => 1
  | PIdle _ => 1
  | PStopped _ => 2
  | PStopping _ => 3
  | PChecked _ => 4
  | PLocked _ => 5
  | PExpired _ => 6
  end.

(** Every turn of the loop comes back to the select, keeping a waiting signal. *)
Lemma Run_next_closer c :
  finishing (ac_pc c) = false → ac_pc c ≠ PSelect → ac_activityCh c = true →
  finishing (ac_pc (Run_next c)) = false ∧ ac_activityCh (Run_next c) = true ∧
  (steps_to_select (ac_pc (Run_next c)) < steps_to_select (ac_pc c))%nat.
Proof.
  intros Hf Hn Hs. unfold Run_next, Run_step. destruct (ac_pc c) eqn:Ep; try done; cbn;
    repeat case_match; cbn; split_and!; try done; lia.
Qed.

Lemma Run_next_catches_up c :
  finishing (ac_pc c) = false → ac_activityCh c = true →
  ∃ n, (n ≤ steps_to_select (ac_pc c) + 2)%nat ∧ up_to_date (Nat.iter n Run_next c).
Proof.
  remember (steps_to_select (ac_pc c)) as m eqn:Em. revert c Em.
  induction (lt_wf m) as [m _ IH]. intros c -> Hf Hs.
  destruct (decide (ac_pc c = PSelect)) as [Hp|Hp].
  - exists 2%nat. rewrite Hp. split; [done|]. by apply signal_handled.
  - destruct (Run_next_closer c Hf Hp Hs) as (Hf' & Hs' & Hlt).
    destruct (IH _ Hlt _ eq_refl Hf' Hs') as (n & Hn & U). exists (S n). split; [lia|]. by rewrite Nat.iter_succ_r.
Qed.

(** The idle handlers run: at an expiry of the idle timer, or before [Run] returns. *)
Definition handlers_run (pc : RunPC) : bool := match pc with PIdle _ | PFinalIdle => true | _ => false end.

(** A shutdown waits for no request: the handlers run while a lease is outstanding. *)
Example shutdown_overlaps_request :
  ∃ c, activity_reachable c ∧ handlers_run (ac_pc c) = true ∧ ac_leases c = 1%nat.
Proof.
  set (begun := default NewActivityController (BeginActivity NewActivityController)).
  set (cancelled := default begun (Run_cancel begun)).
  exists (default cancelled (Run_step cancelled)). split; [|by split].
  apply rtc_l with begun; [by apply act_begin|]. apply rtc_l with cancelled; [by apply act_cancel|].
  apply rtc_once. by apply act_run.
Qed.

(** C25: activity is never lost while the controller runs, and until it shuts down idling does
    not overlap a request.  In every state the controller can reach, however requests interleave with its
    loop: (1) until its context is cancelled, activity the loop has not seen has its signal
    waiting, being sent or just received; (2) once it is sent, at most eight steps of the loop
    alone bring the workers up with the idle timer running, from wherever the loop is; (3)
    whenever the idle handlers run the workers are stopped, and handlers run by an expiry of
    the idle timer find no lease outstanding, and no new lease is possible until they are
    done; the only other handlers are those of the shutdown, which wait for no request and may
    overlap one ([shutdown_overlaps_request]); (4) running workers have an idle timer that
    will fire. *)
Theorem activity_never_lost c :
  activity_reachable c →
  (finishing (ac_pc c) = false → ac_activitySeq c ≠ ac_handledActivity c →
     ac_activityCh c = true ∨ (0 < ac_recording c)%nat ∨ ac_pc c = PSignal) ∧
  (finishing (ac_pc c) = false → ac_activityCh c = true →
     ∃ n, (n ≤ 8)%nat ∧ rtc activity_step c (Nat.iter n Run_next c) ∧ up_to_date (Nat.iter n Run_next c)) ∧
  (handlers_run (ac_pc c) = true →
     ac_cancelWorkers c = false ∧
     (ac_pc c = PFinalIdle ∨
      ∃ e, ac_pc c = PIdle e ∧ ac_inFlight c = 0 ∧ ac_leases c = 0%nat ∧ e = ac_handledActivity c ∧
        BeginActivity c = None)) ∧
  (ac_pc c = PSelect → ac_cancelWorkers c = true →
     ac_idleTimerC c = true ∧ (ac_idleTimer c = Some TArmed ∨ ac_idleTimer c = Some TFired)).
Proof.
  intros Hr. destruct (activity_reachable_inv c Hr) as [[If _] Is Im Ie Ix Iw It].
  split; [done|]. split; [|split; [|done]].
  - intros Hf Hs. destruct (Run_next_catches_up c Hf Hs) as (n & Hn & U). exists n.
    split; [|split; [apply Run_next_steps|done]]. transitivity (steps_to_select (ac_pc c) + 2)%nat; [done|].
    destruct (ac_pc c); cbn; lia.
  - intros Hh. destruct (ac_pc c) as [| | | | | | |e| | |] eqn:Hp; try done.
    + split; [by apply Iw|]. right. exists e. specialize (Ie eq_refl). rewrite If, Ie.
      split_and!; try done; [by apply Ix|]. unfold BeginActivity. by rewrite Im.
    + split; [by apply Iw|by left].
Qed.
