(* ===== verification/Inflight.v ===== *)
(** Coalescing of overlapping upstream reads ([internal/warwick/inflight.go]).

    Callers that ask for the same key while a producer runs share its result; a producer
    nobody waits for is cancelled; nothing is remembered once a producer is done.  A step
    of the model is one critical section of the group's mutex or one caller's return. *)

From stdpp Require Import base list numbers strings gmap relations.
From Stdlib Require Import ZArith Lia.
From S2P Require Import Prelude.

Local Open Scope Z_scope.
Local Open Scope stdpp_scope.

(** What [fn] did: it returned a value and an error (nil or not), or it panicked. *)
Inductive Produced (V : Type) :=
| Returned (value : option V) (err : option string)
| Panicked (recovered : string).
Arguments Returned {V} _ _.
Arguments Panicked {V} _.

(** The fields of [inflightCall]; [ic_Key] is the producer's argument and [ic_Canceled]
    says whether its context is cancelled. *)
Record inflightCall (V : Type) := {
  ic_Key : string;
  ic_Canceled : bool;
  ic_Result : option V * option string;
  ic_Waiters : Z;
  ic_Completed : bool
}.
Arguments Build_inflightCall {V} _ _ _ _ _.
Arguments ic_Key {V} _.
Arguments ic_Canceled {V} _.
Arguments ic_Result {V} _.
Arguments ic_Waiters {V} _.
Arguments ic_Completed {V} _.

(** A caller of [Do]: in its select, or returned with its own context's error, or with
    the shared result. *)
Inductive InflightCaller (V : Type) :=
| Waiting (call : nat) (shared : bool)
| Gone (shared : bool)
| Served (call : nat) (r : option V * option string) (shared : bool).
Arguments Waiting {V} _ _.
Arguments Gone {V} _.
Arguments Served {V} _ _ _.

(** [ig_calls] is the map of the group, with pointers into the store [ig_store]. *)
Record inflightGroup (V : Type) := {
  ig_calls : gmap string nat;
  ig_store : gmap nat (inflightCall V);
  ig_callers : gmap nat (InflightCaller V)
}.
Arguments Build_inflightGroup {V} _ _ _.
Arguments ig_calls {V} _.
Arguments ig_store {V} _.
Arguments ig_callers {V} _.

Section group.
Context {V : Type}.
Implicit Types (g : inflightGroup V) (c : inflightCall V).

Definition empty_group : inflightGroup V := Build_inflightGroup ∅ ∅ ∅.

Definition new_call (key : string) : inflightCall V := Build_inflightCall key false (None, None) 0 false.
Definition add_waiter c : inflightCall V :=
  Build_inflightCall (ic_Key c) (ic_Canceled c) (ic_Result c) (ic_Waiters c + 1) (ic_Completed c).

(** The first part of [Do], up to its select.  [id] names the caller. *)
Definition Do_enter (id : nat) (key : string) g : option (inflightGroup V) :=
  match ig_callers g !! id with
  | Some _ => None
  | None =>
      let shared := bool_decide (is_Some (ig_calls g !! key)) in
      let i := default (fresh (dom (ig_store g))) (ig_calls g !! key) in
      let call := default (new_call key) (ig_store g !! i) in
      Some (Build_inflightGroup (<[key := i]> (ig_calls g)) (<[i := add_waiter call]> (ig_store g))
              (<[id := Waiting i shared]> (ig_callers g)))
  end.

(** The critical section of [leave]. *)
Definition leave (i : nat) g : inflightGroup V :=
  match ig_store g !! i with
  | None => g
  | Some c =>
      if ic_Completed c || (ic_Waiters c =? 0) then g
      else
        let w := ic_Waiters c - 1 in
        if w =? 0 then
          Build_inflightGroup
            (if bool_decide (ig_calls g !! ic_Key c = Some i) then delete (ic_Key c) (ig_calls g) else ig_calls g)
            (<[i := Build_inflightCall (ic_Key c) true (ic_Result c) w (ic_Completed c)]> (ig_store g)) (ig_callers g)
        else
          Build_inflightGroup (ig_calls g)
            (<[i := Build_inflightCall (ic_Key c) (ic_Canceled c) (ic_Result c) w (ic_Completed c)]> (ig_store g))
            (ig_callers g)
  end.

Definition set_caller (id : nat) (s : InflightCaller V) g : inflightGroup V :=
  Build_inflightGroup (ig_calls g) (ig_store g) (<[id := s]> (ig_callers g)).

(** The two cases of the select of [Do]. *)
Definition Do_canceled (id : nat) g : option (inflightGroup V) :=
  match ig_callers g !! id with
  | Some (Waiting i shared) => Some (set_caller id (Gone shared) (leave i g))
  | _ => None
  end.

Definition Do_done (id : nat) g : option (inflightGroup V) :=
  match ig_callers g !! id with
  | Some (Waiting i shared) =>
      c ← ig_store g !! i;
      if ic_Completed c then Some (set_caller id (Served i (ic_Result c) shared) g) else None
  | _ => None
  end.

Definition produced (p : Produced V) : option V * option string :=
  match p with
  | Returned value err => (value, err)
  | Panicked recovered => (None, Some ("in-flight producer panic: " +:+ recovered))
  end.

(** The end of [run]: publish the result, forget the call, close [done], cancel. *)
Definition run_finish (i : nat) (p : Produced V) g : option (inflightGroup V) :=
  c ← ig_store g !! i;
  if ic_Completed c then None
  else Some (Build_inflightGroup
               (if bool_decide (ig_calls g !! ic_Key c = Some i) then delete (ic_Key c) (ig_calls g) else ig_calls g)
               (<[i := Build_inflightCall (ic_Key c) true (produced p) (ic_Waiters c) true]> (ig_store g))
               (ig_callers g)).

Inductive inflight_step : inflightGroup V → inflightGroup V → Prop :=
| if_enter id key g g' : Do_enter id key g = Some g' → inflight_step g g'
| if_canceled id g g' : Do_canceled id g = Some g' → inflight_step g g'
| if_done id g g' : Do_done id g = Some g' → inflight_step g g'
| if_finish i p g g' : run_finish i p g = Some g' → inflight_step g g'.

Definition inflight_reachable g : Prop := rtc inflight_step empty_group g.

(** * The invariant *)

Definition waits_on (i : nat) (s : InflightCaller V) : bool :=
  match s with Waiting j _ => (j =? i)%nat | _ => false end.

Definition waiting_count (i : nat) (m : gmap nat (InflightCaller V)) : Z :=
  Z.of_nat (size (filter (λ p : nat * InflightCaller V, waits_on i p.2 = true) m)).

Record call_ok g (i : nat) c : Prop := {
  co_waiters : ic_Completed c = false → ic_Waiters c = waiting_count i (ig_callers g);
  co_live : ic_Completed c = false → ic_Canceled c = false → ig_calls g !! ic_Key c = Some i;
  co_cancel : ic_Completed c = false → ic_Canceled c = true ↔ ic_Waiters c = 0
}.

Record inflight_inv g : Prop := {
  in_calls : ∀ k i, ig_calls g !! k = Some i →
    ∃ c, ig_store g !! i = Some c ∧ ic_Key c = k ∧ ic_Completed c = false ∧ ic_Canceled c = false;
  in_store : ∀ i c, ig_store g !! i = Some c → call_ok g i c;
  in_waiting : ∀ id i b, ig_callers g !! id = Some (Waiting i b) → is_Some (ig_store g !! i);
  in_served : ∀ id i r b, ig_callers g !! id = Some (Served i r b) →
    ∃ c, ig_store g !! i = Some c ∧ ic_Completed c = true ∧ ic_Result c = r
}.

Lemma waiting_count_insert id s i m :
  m !! id = None → waiting_count i (<[id := s]> m) = waiting_count i m + (if waits_on i s then 1 else 0).
Proof.
  intros Hid. unfold waiting_count. destruct (waits_on i s) eqn:Ew.
  - rewrite map_filter_insert_True by done. rewrite map_size_insert_None; [lia|].
    apply map_lookup_filter_None. by left.
  - rewrite map_filter_insert_False by (cbn; congruence). rewrite delete_id by done. lia.
Qed.

Lemma waiting_count_replace id s s' i m :
  m !! id = Some s →
  waiting_count i (<[id := s']> m) = waiting_count i m - (if waits_on i s then 1 else 0) + (if waits_on i s' then 1 else 0).
Proof.
  intros Hid. rewrite <- insert_delete_eq, waiting_count_insert by apply lookup_delete_eq.
  rewrite <- (insert_delete_id m id s Hid) at 2. rewrite waiting_count_insert by apply lookup_delete_eq. lia.
Qed.

Lemma waiting_count_pos id i b m : m !! id = Some (Waiting i b) → 0 < waiting_count i m.
Proof.
  intros Hid. rewrite <- (insert_delete_id m id _ Hid), waiting_count_insert by apply lookup_delete_eq.
  cbn. rewrite Nat.eqb_refl. unfold waiting_count. lia.
Qed.

Lemma inflight_inv_empty : inflight_inv empty_group.
Proof. split; intros *; cbn; rewrite lookup_empty; done. Qed.

Lemma waiting_count_none i m : (∀ id b, m !! id ≠ Some (Waiting i b)) → waiting_count i m = 0.
Proof.
  intros Hn. unfold waiting_count. rewrite (proj2 (map_empty_filter _ _)); [done|]. intros id s Hs. cbn.
  destruct s as [j b| |]; cbn; try done. rewrite Nat.eqb_eq. intros ->. by apply (Hn id b).
Qed.

(** * Its preservation *)

Lemma enter_inv id key g g' : inflight_inv g → Do_enter id key g = Some g' → inflight_inv g'.
Proof.
  intros [Ic Is Iw Iv] E. unfold Do_enter in E. destruct (ig_callers g !! id) eqn:Eid; [done|].
  set (i := default _ _) in E. set (sh := bool_decide _) in E. set (c0 := default (new_call key) _) in E.
  assert (Hc0 : ic_Key c0 = key ∧ ic_Completed c0 = false ∧ ic_Canceled c0 = false ∧
    ic_Waiters c0 = waiting_count i (ig_callers g) ∧ (ig_calls g !! key = Some i ∨ (ig_calls g !! key = None ∧ ig_store g !! i = None))).
  { unfold c0, i. destruct (ig_calls g !! key) as [j|] eqn:Ej; cbn.
    - destruct (Ic _ _ Ej) as (c & Hc & Hk & Hf & Hx). rewrite Hc. cbn. split_and!; auto.
      by apply (co_waiters _ _ _ (Is _ _ Hc)).
    - assert (Hn : ig_store g !! fresh (dom (ig_store g)) = None) by (apply not_elem_of_dom, is_fresh).
      rewrite Hn. cbn. split_and!; auto. symmetry. apply waiting_count_none. intros id' b Hw.
      destruct (Iw _ _ _ Hw). congruence. }
  clearbody i sh c0. destruct Hc0 as (Hk & Hf & Hx & Hw & Hcall). injection E as <-. split; cbn.
  - intros k j. destruct (decide (k = key)) as [->|Hne].
    + rewrite lookup_insert_eq. intros [= <-]. exists (add_waiter c0). rewrite lookup_insert_eq. by split_and!.
    + rewrite lookup_insert_ne by done. intros Hj. destruct (Ic _ _ Hj) as (c & Hc & Hck & Hcf & Hcx).
      exists c. rewrite lookup_insert_ne; [by split_and!|]. intros ->.
      destruct Hcall as [Hcall|[_ Hn]]; [|congruence]. destruct (Ic _ _ Hcall) as (c' & Hc' & Hk' & _). congruence.
  - intros j c. rewrite lookup_insert_Some. intros [[<- <-]|[Hji Hj]].
    + split; cbn.
      * intros _. rewrite waiting_count_insert by done. cbn. rewrite Nat.eqb_refl. lia.
      * intros _ _. by rewrite Hk, lookup_insert_eq.
      * intros _. rewrite Hx, Hw. split; [done|]. unfold waiting_count. lia.
    + destruct (Is _ _ Hj) as [J1 J2 J3]. split; cbn; try done.
      * intros Hcf. rewrite waiting_count_insert, J1 by done. cbn. rewrite (proj2 (Nat.eqb_neq i j)) by done. lia.
      * intros Hcf Hcx. specialize (J2 Hcf Hcx). rewrite lookup_insert_ne; [done|]. intros Hkc.
        destruct Hcall as [Hcall|[Hcall _]]; congruence.
  - intros id' j b. rewrite lookup_insert_Some. intros [[<- [= <- <-]]|[_ Hid']]; [rewrite lookup_insert_eq; eauto|].
    destruct (decide (j = i)) as [->|]; [rewrite lookup_insert_eq; eauto|]. rewrite lookup_insert_ne by done. by eapply Iw.
  - intros id' j r b. rewrite lookup_insert_Some. intros [[_ ?]|[_ Hid']]; [done|].
    destruct (Iv _ _ _ _ Hid') as (c & Hc & Hd & Hr). exists c. rewrite lookup_insert_ne; [by split_and!|]. intros <-.
    destruct Hcall as [Hcall|[_ Hn]]; [|congruence]. destruct (Ic _ _ Hcall) as (c' & Hc' & _ & ? & _). congruence.
Qed.

(** A call replaced in the store with the same key, and removed from the map when it ends. *)
Definition end_call (i : nat) c g : gmap string nat :=
  if bool_decide (ig_calls g !! ic_Key c = Some i) then delete (ic_Key c) (ig_calls g) else ig_calls g.

Lemma end_call_lookup g i c k j :
  inflight_inv g → ig_store g !! i = Some c → end_call i c g !! k = Some j → ig_calls g !! k = Some j ∧ j ≠ i.
Proof.
  intros [Ic _ _ _] Hc. unfold end_call. case_bool_decide as Hb.
  - rewrite lookup_delete_Some. intros [Hk Hj]. split; [done|]. intros ->.
    destruct (Ic _ _ Hj) as (c' & ? & ? & _). congruence.
  - intros Hj. split; [done|]. intros ->. destruct (Ic _ _ Hj) as (c' & ? & ? & _). congruence.
Qed.

Lemma end_call_keeps g i c k j : ig_calls g !! k = Some j → j ≠ i → end_call i c g !! k = Some j.
Proof.
  intros Hj Hne. unfold end_call. case_bool_decide; [|done]. apply lookup_delete_Some. split; [|done]. congruence.
Qed.

Lemma finish_inv i p g g' : inflight_inv g → run_finish i p g = Some g' → inflight_inv g'.
Proof.
  intros I E. unfold run_finish in E. destruct (ig_store g !! i) as [c|] eqn:Hc; cbn in E; [|done].
  destruct (ic_Completed c) eqn:Ed; [done|]. injection E as <-. fold (end_call i c g).
  pose proof I as [Ic Is Iw Iv]. split; cbn.
  - intros k j Hj. destruct (end_call_lookup _ _ _ _ _ I Hc Hj) as [Hj' Hne]. destruct (Ic _ _ Hj') as (c' & ?).
    exists c'. by rewrite lookup_insert_ne.
  - intros j c'. rewrite lookup_insert_Some. intros [[<- <-]|[Hne Hj]]; [by split|].
    destruct (Is _ _ Hj) as [J1 J2 J3]. split; try done. intros Hcf Hcx. cbn. apply end_call_keeps; auto.
  - intros id j b Hw. destruct (decide (j = i)) as [->|]; [rewrite lookup_insert_eq; eauto|].
    rewrite lookup_insert_ne by done. by eapply Iw.
  - intros id j r b Hs. destruct (Iv _ _ _ _ Hs) as (c' & Hc' & Hd & Hr). exists c'.
    rewrite lookup_insert_ne; [by split_and!|]. intros <-. congruence.
Qed.

Lemma done_inv id g g' : inflight_inv g → Do_done id g = Some g' → inflight_inv g'.
Proof.
  intros [Ic Is Iw Iv] E. unfold Do_done in E. destruct (ig_callers g !! id) as [[i b| |]|] eqn:Hid; try done.
  destruct (ig_store g !! i) as [c|] eqn:Hc; cbn in E; [|done]. destruct (ic_Completed c) eqn:Ed; [|done].
  injection E as <-. split; cbn; try done.
  - intros j c' Hj. destruct (Is _ _ Hj) as [J1 J2 J3]. split; cbn; try done. intros Hcf.
    rewrite (waiting_count_replace _ _ _ _ _ Hid), J1 by done. cbn.
    rewrite (proj2 (Nat.eqb_neq i j)) by congruence. lia.
  - intros id' j b'. rewrite lookup_insert_Some. intros [[_ ?]|[_ Hw]]; [done|]. by eapply Iw.
  - intros id' j r b'. rewrite lookup_insert_Some. intros [[_ [= <- <- <-]]|[_ Hs]]; [eauto|]. by eapply Iv.
Qed.

Lemma canceled_inv id g g' : inflight_inv g → Do_canceled id g = Some g' → inflight_inv g'.
Proof.
  intros I E. pose proof I as [Ic Is Iw Iv]. unfold Do_canceled in E.
  destruct (ig_callers g !! id) as [[i b| |]|] eqn:Hid; try done.
  injection E as <-. unfold leave. destruct (Iw _ _ _ Hid) as [c Hc]. rewrite Hc.
  assert (Hserved : ∀ id' j r b', <[id := Gone b]> (ig_callers g) !! id' = Some (Served j r b') →
    ∃ c, ig_store g !! j = Some c ∧ ic_Completed c = true ∧ ic_Result c = r).
  { intros id' j r b'. rewrite lookup_insert_Some. intros [[_ ?]|[_ Hs]]; [done|]. by eapply Iv. }
  assert (Hwait : ∀ id' j b', <[id := Gone b]> (ig_callers g) !! id' = Some (Waiting j b') → is_Some (ig_store g !! j)).
  { intros id' j b'. rewrite lookup_insert_Some. intros [[_ ?]|[_ Hs]]; [done|]. by eapply Iw. }
  assert (Hcount : ∀ j, waiting_count j (<[id := Gone b]> (ig_callers g)) =
    waiting_count j (ig_callers g) - if (i =? j)%nat then 1 else 0).
  { intros j. rewrite (waiting_count_replace _ _ _ _ _ Hid). cbn. lia. }
  pose proof (waiting_count_pos _ _ _ _ Hid) as Hpos. pose proof (Is _ _ Hc) as [K1 K2 K3].
  destruct (ic_Completed c) eqn:Ed; cbn.
  { split; cbn; try done. intros j c' Hj. destruct (Is _ _ Hj) as [J1 J2 J3]. split; cbn; try done. intros Hcf.
    rewrite Hcount, J1, (proj2 (Nat.eqb_neq i j)) by (done || congruence). lia. }
  specialize (K1 eq_refl). rewrite (proj2 (Z.eqb_neq _ _)) by lia.
  assert (Hnc : ic_Canceled c = false).
  { destruct (ic_Canceled c) eqn:Ex; [|done]. pose proof (proj1 (K3 eq_refl) eq_refl). lia. }
  destruct (ic_Waiters c - 1 =? 0) eqn:Ew; bool_to_prop; cbn [ig_calls ig_store ig_callers set_caller].
  - fold (end_call i c g). split; cbn.
    + intros k j Hj. destruct (end_call_lookup _ _ _ _ _ I Hc Hj) as [Hj' Hne]. destruct (Ic _ _ Hj') as (c' & ?).
      exists c'. by rewrite lookup_insert_ne.
    + intros j c'. rewrite lookup_insert_Some. intros [[<- <-]|[Hne Hj]].
      * split; cbn; try done. intros _. rewrite Hcount, Nat.eqb_refl. lia.
      * destruct (Is _ _ Hj) as [J1 J2 J3]. split; cbn; try done.
        -- intros Hcf. rewrite Hcount, J1, (proj2 (Nat.eqb_neq i j)) by done. lia.
        -- intros Hcf Hcx. apply end_call_keeps; auto.
    + intros id' j b' Hw. destruct (decide (j = i)) as [->|]; [rewrite lookup_insert_eq; eauto|].
      rewrite lookup_insert_ne by done. by eapply Hwait.
    + intros id' j r b' Hs. destruct (Hserved _ _ _ _ Hs) as (c' & Hc' & Hd & Hr). exists c'.
      rewrite lookup_insert_ne; [by split_and!|]. intros <-. congruence.
  - split; cbn.
    + intros k j Hj. destruct (Ic _ _ Hj) as (c' & Hc' & Hk & ?). destruct (decide (j = i)) as [->|].
      * rewrite lookup_insert_eq. simplify_eq. eexists. split; [done|]. by destruct_and!.
      * exists c'. by rewrite lookup_insert_ne.
    + intros j c'. rewrite lookup_insert_Some. intros [[<- <-]|[Hne Hj]].
      * split; cbn; [intros _; rewrite Hcount, Nat.eqb_refl; lia|by intros _ _; apply K2|]. intros _. rewrite Hnc. split; [done|lia].
      * destruct (Is _ _ Hj) as [J1 J2 J3]. split; cbn; try done.
        intros Hcf. rewrite Hcount, J1, (proj2 (Nat.eqb_neq i j)) by done. lia.
    + intros id' j b' Hw. destruct (decide (j = i)) as [->|]; [rewrite lookup_insert_eq; eauto|].
      rewrite lookup_insert_ne by done. by eapply Hwait.
    + intros id' j r b' Hs. destruct (Hserved _ _ _ _ Hs) as (c' & Hc' & Hd & Hr). exists c'.
      rewrite lookup_insert_ne; [by split_and!|]. intros <-. congruence.
Qed.

Lemma inflight_reachable_inv g : inflight_reachable g → inflight_inv g.
Proof.
  revert g. apply rtc_ind_r; [apply inflight_inv_empty|]. intros g1 g2 _ S I.
  destruct S; eauto using enter_inv, canceled_inv, done_inv, finish_inv.
Qed.

(** Overlapping reads of a key share one producer, and nothing is cached.  Whatever
    callers and producers do: (1) at most one producer per key has callers; (2) a caller
    that waits has a producer that is done or not cancelled, so no caller's departure
    takes the result from another; (3) a producer nobody waits for is cancelled; (4) the
    callers served by a producer all got its one result; (5) a caller that enters joins
    a producer that has not completed, and starts one exactly when the key has none. *)
Lemma inflight_shared g :
  inflight_reachable g →
  (∀ i j c d, ig_store g !! i = Some c → ig_store g !! j = Some d → ic_Key c = ic_Key d →
     ic_Completed c = false → ic_Completed d = false → 0 < ic_Waiters c → 0 < ic_Waiters d → i = j) ∧
  (∀ id i b, ig_callers g !! id = Some (Waiting i b) →
     ∃ c, ig_store g !! i = Some c ∧ (ic_Completed c = true ∨ ic_Canceled c = false)) ∧
  (∀ i c, ig_store g !! i = Some c → ic_Completed c = false →
     (∀ id b, ig_callers g !! id ≠ Some (Waiting i b)) → ic_Canceled c = true) ∧
  (∀ id id' i r r' b b', ig_callers g !! id = Some (Served i r b) → ig_callers g !! id' = Some (Served i r' b') → r = r') ∧
  (∀ id key, ig_callers g !! id = None →
     ∃ g' i c shared, Do_enter id key g = Some g' ∧ ig_callers g' !! id = Some (Waiting i shared) ∧
       ig_store g' !! i = Some c ∧ ic_Key c = key ∧ ic_Completed c = false ∧ ic_Canceled c = false ∧
       (shared = true ↔ ∃ d, ig_store g !! i = Some d) ∧ (shared = true ↔ is_Some (ig_calls g !! key))).
Proof.
  intros Hr. pose proof (inflight_reachable_inv g Hr) as I. pose proof I as [Ic Is Iw Iv]. split_and!.
  - intros i j c d Hc Hd Hk Hcf Hdf Hcw Hdw.
    assert (Hlive : ∀ i c, ig_store g !! i = Some c → ic_Completed c = false → 0 < ic_Waiters c →
              ig_calls g !! ic_Key c = Some i).
    { intros i' c' Hc' Hf' Hw'. destruct (Is _ _ Hc') as [_ L X]. apply L; [done|].
      destruct (ic_Canceled c'); [|done]. pose proof (proj1 (X Hf') eq_refl). lia. }
    pose proof (Hlive _ _ Hc Hcf Hcw) as L1. pose proof (Hlive _ _ Hd Hdf Hdw) as L2. rewrite Hk in L1. congruence.
  - intros id i b Hw. destruct (Iw _ _ _ Hw) as [c Hc]. exists c. split; [done|].
    destruct (ic_Completed c) eqn:Ed; [by left|right]. destruct (Is _ _ Hc) as [W _ X]. specialize (W Ed).
    destruct (ic_Canceled c); [|done]. pose proof (proj1 (X Ed) eq_refl). pose proof (waiting_count_pos _ _ _ _ Hw). lia.
  - intros i c Hc Hf Hn. destruct (Is _ _ Hc) as [W _ X]. apply (X Hf). rewrite (W Hf). by apply waiting_count_none.
  - intros id id' i r r' b b' H1 H2. destruct (Iv _ _ _ _ H1) as (c & ? & _ & <-). destruct (Iv _ _ _ _ H2) as (c' & ? & _ & <-).
    congruence.
  - intros id key Hid. unfold Do_enter. rewrite Hid. eexists _, _, _, _. split; [done|]. cbn. rewrite !lookup_insert_eq.
    split; [done|]. split; [done|]. destruct (ig_calls g !! key) as [j|] eqn:Ej; cbn.
    + destruct (Ic _ _ Ej) as (c & Hc & Hk & Hf & Hx). rewrite Hc. cbn. split_and!; try done; split; eauto.
    + assert (Hn : ig_store g !! fresh (dom (ig_store g)) = None) by (apply not_elem_of_dom, is_fresh).
      rewrite Hn. cbn.
      split_and!; try done; (split; [done|intros [? ?]; done]).
Qed.
End group.
