(* ===== verification/SessionPool.v ===== *)
(** Upstream sessions ([internal/warwick/session_pool.go] and [auth.go]).

    A pool hands out logged-in sessions per traffic tier through bounded queues of
    session indexes; a session that was kicked out by a human login backs off.  A
    session is worked on only by the goroutine that took its index, so the operations
    on one session are sequential; takes, logins and releases of different goroutines
    interleave.  [clock n] is the n-th reading of the clock in a call, and the login's
    outcome is an input. *)

From stdpp Require Import base list numbers strings gmap relations.
From Stdlib Require Import ZArith Lia.
From S2P Require Import Prelude.

Local Open Scope Z_scope.
Local Open Scope stdpp_scope.

Inductive SessionTier := TierQR | TierTeacher | TierInteractive.
#[export] Instance tier_eq_dec : EqDecision SessionTier.
Proof. solve_decision. Defined.

Definition tier_String (t : SessionTier) : string :=
  match t with TierQR => "qr" | TierTeacher => "teacher" | TierInteractive => "interactive" end.

Definition sessionMinValidAge : Z := 2 * Minute.
Definition sessionMaxValidAge : Z := 55 * Minute.
Definition sessionBackoffInitial : Z := 30 * Second.
Definition sessionBackoffMax : Z := 15 * Minute.
Definition sessionBackoffMaxAttempts : Z := 6.
Definition sessionRefreshBuffer : Z := 5 * Minute.
Definition sessionTTL : Z := 60 * Minute.

(** The end of a context, and why a login failed. *)
Inductive CtxEnd := Canceled | DeadlineExceeded.
Inductive LoginError := LoginCtx (e : CtxEnd) | LoginFailed (msg : string).

Inductive SessionError :=
| SessCtx (e : CtxEnd)
| ErrAuthConflict
| SessLogin (e : LoginError)
| ErrNoAvailableSessions.

Definition wrapu64 (n : Z) : Z := n mod 2 ^ 64.

(** * One pooled session *)

Record pooledSession := {
  ps_cookie : string;
  ps_obtainedAt : Z;
  ps_expiresAt : Z;
  ps_generation : Z;
  ps_backedOffUntil : Z;
  ps_backoffCount : Z
}.

Definition with_backoff (until count : Z) (s : pooledSession) : pooledSession :=
  {| ps_cookie := ps_cookie s; ps_obtainedAt := ps_obtainedAt s; ps_expiresAt := ps_expiresAt s;
     ps_generation := ps_generation s; ps_backedOffUntil := until; ps_backoffCount := count |}.

(** The count after [applyBackoff]'s two adjustments. *)
Definition backoff_count (since count : Z) : Z :=
  let count := wrap64 (count + 1) in
  let count := if (count =? 1) && (since <=? sessionMinValidAge) then sessionBackoffMaxAttempts else count in
  if sessionBackoffMaxAttempts <? count then sessionBackoffMaxAttempts else count.

Definition backoff_duration (count : Z) : Z :=
  let d := wrap64 (sessionBackoffInitial * Z.shiftl 1 (count - 1)) in
  if sessionBackoffMax <? d then sessionBackoffMax else d.

(** [now] is the clock of [time.Since], [at_] that of the new window. *)
Definition applyBackoff (now at_ : Z) (s : pooledSession) : pooledSession :=
  let count := backoff_count (time_Sub now (ps_obtainedAt s)) (ps_backoffCount s) in
  with_backoff (time_Add at_ (backoff_duration count)) count s.

Definition resetBackoff (s : pooledSession) : pooledSession := with_backoff 0 0 s.
Definition isBackedOff (now : Z) (s : pooledSession) : bool := time_After (ps_backedOffUntil s) now.
Definition isKickCandidate (now : Z) (s : pooledSession) : bool :=
  negb (time_IsZero (ps_obtainedAt s)) && (time_Sub now (ps_obtainedAt s) <=? sessionMaxValidAge).

Definition doLoginLocked (login : result LoginError string) (now : Z) (s : pooledSession)
    : pooledSession * result LoginError (string * Z) :=
  match login with
  | Err e => (s, Err e)
  | Ok cookie =>
      let gen := wrapu64 (ps_generation s + 1) in
      ({| ps_cookie := cookie; ps_obtainedAt := now; ps_expiresAt := time_Add now sessionTTL; ps_generation := gen;
          ps_backedOffUntil := ps_backedOffUntil s; ps_backoffCount := ps_backoffCount s |}, Ok (cookie, gen))
  end.

Definition still_valid (now : Z) (s : pooledSession) : bool :=
  nonempty (ps_cookie s) && time_Before now (time_Add (ps_expiresAt s) (- sessionRefreshBuffer)).

(** [ctx] is the context's error at the start, if it is done by then. *)
Definition ensureValidSession (ctx : option CtxEnd) (clock : nat → Z) (login : result LoginError string)
    (s : pooledSession) : pooledSession * result SessionError (string * Z) :=
  match ctx with
  | Some e => (s, Err (SessCtx e))
  | None =>
      if still_valid (clock 0%nat) s || still_valid (clock 1%nat) s then (s, Ok (ps_cookie s, ps_generation s))
      else if isBackedOff (clock 2%nat) s then (s, Err ErrAuthConflict)
      else
        match doLoginLocked login (clock 3%nat) s with
        | (s1, Ok r) => (resetBackoff s1, Ok r)
        | (s1, Err (LoginCtx e)) => (s1, Err (SessLogin (LoginCtx e)))
        | (s1, Err e) =>
            if isKickCandidate (clock 4%nat) s1 then (applyBackoff (clock 5%nat) (clock 6%nat) s1, Err ErrAuthConflict)
            else (s1, Err (SessLogin e))
        end
  end.

Definition ForceRefreshOnSessionContext (ctx : option CtxEnd) (clock : nat → Z) (login : result LoginError string)
    (s : pooledSession) : pooledSession * result SessionError (string * Z) :=
  match ctx with
  | Some e => (s, Err (SessCtx e))
  | None =>
      if isBackedOff (clock 0%nat) s then (s, Err ErrAuthConflict)
      else
        match doLoginLocked login (clock 1%nat) s with
        | (s1, Ok r) => (resetBackoff s1, Ok r)
        | (s1, Err e) =>
            if isKickCandidate (clock 2%nat) s1 then (applyBackoff (clock 3%nat) (clock 4%nat) s1, Err ErrAuthConflict)
            else (s1, Err (SessLogin e))
        end
  end.

(** * The pool *)

Record SessionPool := {
  sp_sessions : list pooledSession;
  sp_qrAvailable : list nat;
  sp_teacherAvailable : list nat;
  sp_interactiveAvailable : list nat;
  sp_qrSize : nat;
  sp_teacherSize : nat;
  sp_interactiveSize : nat
}.

(** A session before its first login; [stagger] spreads the expiries over the past. *)
Definition fresh_session (now stagger : Z) : pooledSession :=
  {| ps_cookie := ""; ps_obtainedAt := 0; ps_expiresAt := time_Add now (- (stagger * Second)); ps_generation := 0;
     ps_backedOffUntil := 0; ps_backoffCount := 0 |}.

Definition NewSessionPool (qr teacher interactive : Z) (now : Z) (stagger : nat → Z) : result string SessionPool :=
  if qr <? 1 then Err "warwick: qrSessions must be >= 1"
  else if teacher <? 1 then Err "warwick: teacherSessions must be >= 1"
  else if interactive <? 1 then Err "warwick: interactiveSessions must be >= 1"
  else
    let q := Z.to_nat qr in let t := Z.to_nat teacher in let i := Z.to_nat interactive in
    Ok {| sp_sessions := (λ n, fresh_session now (stagger n)) <$> seq 0 (q + t + i);
          sp_qrAvailable := seq 0 q; sp_teacherAvailable := seq q t; sp_interactiveAvailable := seq (q + t) i;
          sp_qrSize := q; sp_teacherSize := t; sp_interactiveSize := i |}.

(** The queue of a tier, and its capacity. *)
Definition availableForTier (t : SessionTier) (p : SessionPool) : list nat * nat :=
  match t with
  | TierQR => (sp_qrAvailable p, sp_qrSize p)
  | TierTeacher => (sp_teacherAvailable p, sp_teacherSize p)
  | TierInteractive => (sp_interactiveAvailable p, sp_interactiveSize p)
  end.

Definition set_available (t : SessionTier) (q : list nat) (p : SessionPool) : SessionPool :=
  {| sp_sessions := sp_sessions p;
     sp_qrAvailable := if decide (t = TierQR) then q else sp_qrAvailable p;
     sp_teacherAvailable := if decide (t = TierTeacher) then q else sp_teacherAvailable p;
     sp_interactiveAvailable := if decide (t = TierInteractive) then q else sp_interactiveAvailable p;
     sp_qrSize := sp_qrSize p; sp_teacherSize := sp_teacherSize p; sp_interactiveSize := sp_interactiveSize p |}.

Definition set_session (i : nat) (s : pooledSession) (p : SessionPool) : SessionPool :=
  {| sp_sessions := <[i := s]> (sp_sessions p); sp_qrAvailable := sp_qrAvailable p;
     sp_teacherAvailable := sp_teacherAvailable p; sp_interactiveAvailable := sp_interactiveAvailable p;
     sp_qrSize := sp_qrSize p; sp_teacherSize := sp_teacherSize p; sp_interactiveSize := sp_interactiveSize p |}.

(** [available <- index]: [None] when the queue is full and the send would block. *)
Definition put_back (t : SessionTier) (i : nat) (p : SessionPool) : option SessionPool :=
  let '(q, cap) := availableForTier t p in
  if (length q <? cap)%nat then Some (set_available t (q ++ [i]) p) else None.

Record SessionRef := {
  sr_Cookie : string;
  sr_Generation : Z;
  sr_tier : SessionTier;
  sr_index : nat;
  sr_released : bool
}.

(** The environment of one acquisition: the context before the login and after it. *)
Record AcquireEnv := {
  ae_Ctx : option CtxEnd;
  ae_CtxAfter : option CtxEnd;
  ae_Clock : nat → Z;
  ae_Login : result LoginError string
}.

(** After an index was taken: log in if need be, or give the index back. *)
Definition acquireIndex (env : AcquireEnv) (t : SessionTier) (i : nat) (p : SessionPool)
    : option (SessionPool * result SessionError SessionRef) :=
  match ae_Ctx env with
  | Some e => p' ← put_back t i p; Some (p', Err (SessCtx e))
  | None =>
      s ← sp_sessions p !! i;
      let '(s', r) := ensureValidSession None (ae_Clock env) (ae_Login env) s in
      let p1 := set_session i s' p in
      match r, ae_CtxAfter env with
      | Err _, Some e | Ok _, Some e => p' ← put_back t i p1; Some (p', Err (SessCtx e))
      | Err e, None => p' ← put_back t i p1; Some (p', Err e)
      | Ok (cookie, gen), None =>
          Some (p1, Ok {| sr_Cookie := cookie; sr_Generation := gen; sr_tier := t; sr_index := i; sr_released := false |})
      end
  end.

(** The receive of [Acquire] and [AcquireWithTimeoutContext]. *)
Definition take_index (t : SessionTier) (p : SessionPool) : option (nat * SessionPool) :=
  match (availableForTier t p).1 with
  | [] => None
  | i :: q => Some (i, set_available t q p)
  end.

(** [Acquire]: never waits. *)
Definition pool_Acquire (env : AcquireEnv) (t : SessionTier) (p : SessionPool)
    : option (SessionPool * result SessionError SessionRef) :=
  match take_index t p with
  | None => Some (p, Err ErrNoAvailableSessions)
  | Some (i, p') => acquireIndex {| ae_Ctx := None; ae_CtxAfter := None; ae_Clock := ae_Clock env; ae_Login := ae_Login env |} t i p'
  end.

(** How the select of a waiting acquisition ends. *)
Inductive WaitCase := WaitDone (e : CtxEnd) | WaitIndex | WaitTimer.

Definition AcquireWithTimeoutContext (env : AcquireEnv) (ctx : option CtxEnd) (t : SessionTier) (timeout : Z)
    (case : WaitCase) (p : SessionPool) : option (SessionPool * result SessionError SessionRef) :=
  match ctx with
  | Some e => Some (p, Err (SessCtx e))
  | None =>
      if timeout <=? 0 then
        match take_index t p with
        | None => Some (p, Err ErrNoAvailableSessions)
        | Some (i, p') => acquireIndex env t i p'
        end
      else
        match case with
        | WaitDone e => Some (p, Err (SessCtx e))
        | WaitTimer => Some (p, Err ErrNoAvailableSessions)
        | WaitIndex => '(i, p') ← take_index t p; acquireIndex env t i p'
        end
  end.

(** [Release]: the reference is marked and its index put back, once. *)
Definition pool_Release (ref : SessionRef) (p : SessionPool) : option (SessionRef * SessionPool) :=
  let marked := {| sr_Cookie := sr_Cookie ref; sr_Generation := sr_Generation ref; sr_tier := sr_tier ref;
                   sr_index := sr_index ref; sr_released := true |} in
  if sr_released ref then Some (ref, p)
  else if (length (sp_sessions p) <=? sr_index ref)%nat then Some (marked, p)
  else p' ← put_back (sr_tier ref) (sr_index ref) p; Some (marked, p').

(** A forced refresh through a reference, which then carries the new cookie. *)
Definition pool_ForceRefresh (ctx : option CtxEnd) (clock : nat → Z) (login : result LoginError string)
    (ref : SessionRef) (p : SessionPool) : option (SessionRef * SessionPool * result SessionError (string * Z)) :=
  s ← sp_sessions p !! sr_index ref;
  let '(s', r) := ForceRefreshOnSessionContext ctx clock login s in
  let ref' := match r with
              | Ok (cookie, gen) => {| sr_Cookie := cookie; sr_Generation := gen; sr_tier := sr_tier ref;
                                       sr_index := sr_index ref; sr_released := sr_released ref |}
              | Err _ => ref
              end in
  Some (ref', set_session (sr_index ref) s' p, r).

(** * WarwickAuth: the single session without a pool *)

Record sessionState := { ss_cookieValue : string; ss_obtainedAt : Z; ss_expiresAt : Z; ss_generation : Z }.
Record WarwickAuth := { wa_session : option sessionState; wa_currentGen : Z }.

Definition performLogin (login : result LoginError string) (now gen : Z) : result LoginError sessionState :=
  match login with
  | Err e => Err e
  | Ok cookie => Ok {| ss_cookieValue := cookie; ss_obtainedAt := now; ss_expiresAt := time_Add now sessionTTL;
                       ss_generation := gen |}
  end.

Definition auth_fresh (now : Z) (s : option sessionState) : option sessionState :=
  match s with
  | Some st => if time_Before now (time_Add (ss_expiresAt st) (- sessionRefreshBuffer)) then Some st else None
  | None => None
  end.

(** [ctx] is the context's error when the call starts or waits for its gate. *)
Definition GetValidSessionContext (ctx : option CtxEnd) (clock : nat → Z) (login : result LoginError string)
    (a : WarwickAuth) : WarwickAuth * result SessionError (string * Z) :=
  match ctx with
  | Some e => (a, Err (SessCtx e))
  | None =>
      match auth_fresh (clock 0%nat) (wa_session a), auth_fresh (clock 1%nat) (wa_session a) with
      | Some st, _ | None, Some st => (a, Ok (ss_cookieValue st, ss_generation st))
      | None, None =>
          match performLogin login (clock 2%nat) (wa_currentGen a) with
          | Err e => (a, Err (SessLogin e))
          | Ok st => ({| wa_session := Some st; wa_currentGen := wa_currentGen a |},
                      Ok (ss_cookieValue st, ss_generation st))
          end
      end
  end.

(** [ctx'] is the context's error after the first attempt; [login'] is the second login. *)
Definition ForceRefreshContext (ctx ctx' : option CtxEnd) (clock : nat → Z) (login login' : result LoginError string)
    (a : WarwickAuth) : WarwickAuth * result SessionError (string * Z) :=
  match ctx with
  | Some e => (a, Err (SessCtx e))
  | None =>
      match GetValidSessionContext None clock login a with
      | (a1, Ok r) => (a1, Ok r)
      | (a1, Err _) =>
          match ctx' with
          | Some e => (a1, Err (SessCtx e))
          | None =>
              let gen := wrapu64 (wa_currentGen a1 + 1) in
              match performLogin login' (clock 3%nat) gen with
              | Err e => (a1, Err (SessLogin e))
              | Ok st => ({| wa_session := Some st; wa_currentGen := gen |}, Ok (ss_cookieValue st, ss_generation st))
              end
          end
      end
  end.

Definition IsStaleGeneration (gen : Z) (a : WarwickAuth) : bool := gen <? wa_currentGen a.

(** * Goroutines over one pool *)

(** What a goroutine is doing with the pool: logging in on the index it took, holding a
    reference, or done after a failed acquisition. *)
Inductive Holder :=
| Acquiring (t : SessionTier) (i : nat)
| Holding (ref : SessionRef)
| Failed.

Record PoolSys := { py_pool : SessionPool; py_holders : gmap nat Holder }.

Inductive pool_step : PoolSys → PoolSys → Prop :=
| ps_take id t i p p' hs :
    hs !! id = None → take_index t p = Some (i, p') →
    pool_step {| py_pool := p; py_holders := hs |} {| py_pool := p'; py_holders := <[id := Acquiring t i]> hs |}
| ps_acquired id env t i p p' r hs :
    hs !! id = Some (Acquiring t i) → acquireIndex env t i p = Some (p', r) →
    pool_step {| py_pool := p; py_holders := hs |}
      {| py_pool := p'; py_holders := <[id := match r with Ok ref => Holding ref | Err _ => Failed end]> hs |}
| ps_refresh id ctx clock login ref ref' r p p' hs :
    hs !! id = Some (Holding ref) → pool_ForceRefresh ctx clock login ref p = Some (ref', p', r) →
    pool_step {| py_pool := p; py_holders := hs |} {| py_pool := p'; py_holders := <[id := Holding ref']> hs |}
| ps_release id ref ref' p p' hs :
    hs !! id = Some (Holding ref) → pool_Release ref p = Some (ref', p') →
    pool_step {| py_pool := p; py_holders := hs |} {| py_pool := p'; py_holders := <[id := Holding ref']> hs |}.

Definition pool_reachable (p : SessionPool) (y : PoolSys) : Prop :=
  rtc pool_step {| py_pool := p; py_holders := ∅ |} y.

(** The index a goroutine keeps from the queue of a tier. *)
Definition holds (t : SessionTier) (h : Holder) : option nat :=
  match h with
  | Acquiring t' i => if decide (t' = t) then Some i else None
  | Holding ref => if sr_released ref then None else if decide (sr_tier ref = t) then Some (sr_index ref) else None
  | Failed => None
  end.

Definition held (t : SessionTier) (hs : gmap nat Holder) : list nat := omap (λ e, holds t e.2) (map_to_list hs).

(** The sessions of a tier: a range of indexes fixed when the pool is made. *)
Definition tier_range (t : SessionTier) (p : SessionPool) : list nat :=
  match t with
  | TierQR => seq 0 (sp_qrSize p)
  | TierTeacher => seq (sp_qrSize p) (sp_teacherSize p)
  | TierInteractive => seq (sp_qrSize p + sp_teacherSize p) (sp_interactiveSize p)
  end.

Definition available (t : SessionTier) (p : SessionPool) : list nat := (availableForTier t p).1.
Definition capacity (t : SessionTier) (p : SessionPool) : nat := (availableForTier t p).2.

(** [p'] has the tiers of [p] and as many sessions. *)
Definition same_shape (p p' : SessionPool) : Prop :=
  sp_qrSize p' = sp_qrSize p ∧ sp_teacherSize p' = sp_teacherSize p ∧ sp_interactiveSize p' = sp_interactiveSize p ∧
  length (sp_sessions p') = length (sp_sessions p).

Record pool_inv (y : PoolSys) : Prop := {
  pi_sessions : length (sp_sessions (py_pool y)) =
    (sp_qrSize (py_pool y) + sp_teacherSize (py_pool y) + sp_interactiveSize (py_pool y))%nat;
  pi_conserved : ∀ t, available t (py_pool y) ++ held t (py_holders y) ≡ₚ tier_range t (py_pool y)
}.

Lemma held_insert t id h hs :
  hs !! id = None → held t (<[id := h]> hs) ≡ₚ option_list (holds t h) ++ held t hs.
Proof.
  intros Hid. unfold held. rewrite map_to_list_insert by done. cbn. by destruct (holds t h).
Qed.

Lemma held_replace t id h h' hs :
  hs !! id = Some h → option_list (holds t h) ++ held t (<[id := h']> hs) ≡ₚ option_list (holds t h') ++ held t hs.
Proof.
  intros Hid. rewrite <- insert_delete_eq. rewrite held_insert by apply lookup_delete_eq.
  rewrite <- (insert_delete_id hs id h Hid) at 2. rewrite held_insert by apply lookup_delete_eq.
  rewrite !app_assoc. by rewrite (Permutation_app_comm (option_list (holds t h))).
Qed.

Lemma available_set t t' q p : available t' (set_available t q p) = if decide (t = t') then q else available t' p.
Proof. unfold available. by destruct t, t'. Qed.

Lemma same_shape_range p p' t : same_shape p p' → tier_range t p' = tier_range t p ∧ capacity t p' = capacity t p.
Proof. intros (E1 & E2 & E3 & _). unfold tier_range, capacity. by destruct t; cbn; rewrite ?E1, ?E2, ?E3. Qed.

Lemma tier_range_length t p : length (tier_range t p) = capacity t p.
Proof. destruct t; apply length_seq. Qed.

(** A change of one goroutine together with its tier's queue. *)
Lemma pool_inv_change p p' hs id h h' t :
  pool_inv {| py_pool := p; py_holders := hs |} → hs !! id = Some h → same_shape p p' →
  (∀ t', t' ≠ t → available t' p' = available t' p ∧ holds t' h = holds t' h') →
  available t p' ++ option_list (holds t h') ≡ₚ available t p ++ option_list (holds t h) →
  pool_inv {| py_pool := p'; py_holders := <[id := h']> hs |}.
Proof.
  intros [Hl Hc] Hid Hsh Hoth Hper. cbn in *. split; cbn.
  { destruct Hsh as (-> & -> & -> & ->). done. }
  intros t'. rewrite (proj1 (same_shape_range _ _ t' Hsh)), <- Hc. pose proof (held_replace t' id h h' hs Hid) as R.
  destruct (decide (t' = t)) as [->|Hne].
  - apply (Permutation_app_inv_l (option_list (holds t h))).
    transitivity (available t p' ++ (option_list (holds t h) ++ held t (<[id:=h']> hs))).
    { by rewrite !app_assoc, (Permutation_app_comm (option_list _)). }
    rewrite R, app_assoc, Hper, <- app_assoc, !(Permutation_app_comm (available t p)). by rewrite <- app_assoc.
  - destruct (Hoth _ Hne) as [-> E]. rewrite E in R. apply (Permutation_app_inv_l (option_list (holds t' h'))).
    rewrite (app_assoc _ (available t' p)), (Permutation_app_comm (option_list _) (available t' p)), <- app_assoc, R.
    by rewrite (app_assoc _ (available t' p)), (Permutation_app_comm (option_list _) (available t' p)), <- app_assoc.
Qed.

(** * Sends never block *)

(** A goroutine that keeps an index finds room in its queue. *)
Lemma put_back_room p hs id h t i :
  pool_inv {| py_pool := p; py_holders := hs |} → hs !! id = Some h → holds t h = Some i →
  put_back t i p = Some (set_available t (available t p ++ [i]) p) ∧ i ∈ tier_range t p.
Proof.
  intros [_ Hc] Hid Hh. cbn in Hc. specialize (Hc t). pose proof (held_replace t id h Failed hs Hid) as R. rewrite Hh in R.
  cbn in R. rewrite <- R in Hc. split.
  - unfold put_back. fold (available t p). destruct (availableForTier t p) as [q cap] eqn:E.
    assert (Hq : available t p = q) by (unfold available; by rewrite E).
    assert (Hcap : capacity t p = cap) by (unfold capacity; by rewrite E).
    rewrite (proj2 (Nat.ltb_lt _ _)); [by rewrite Hq|]. rewrite <- Hcap, <- tier_range_length, <- Hc, length_app, Hq. cbn. lia.
  - rewrite <- Hc. apply elem_of_app. right. by left.
Qed.

Lemma set_available_shape t q p : same_shape p (set_available t q p).
Proof. done. Qed.

Lemma set_session_shape i s p : same_shape p (set_session i s p).
Proof. unfold same_shape. cbn. by rewrite length_insert. Qed.

(** Giving an index back ends a goroutine's hold on it. *)
Lemma put_back_inv p p' hs id h h' t i s :
  pool_inv {| py_pool := p; py_holders := hs |} → hs !! id = Some h → holds t h = Some i →
  (∀ t', t' ≠ t → holds t' h = None) → (∀ t', holds t' h' = None) →
  put_back t i (match s with Some s => set_session i s p | None => p end) = Some p' →
  pool_inv {| py_pool := p'; py_holders := <[id := h']> hs |}.
Proof.
  intros I Hid Hh Ho Hf E. set (p0 := match s with Some s => set_session i s p | None => p end) in E.
  assert (Hsh : same_shape p p0) by (destruct s; [apply set_session_shape|done]).
  assert (Hav : ∀ t', available t' p0 = available t' p) by (intros t'; by destruct s, t').
  assert (I0 : pool_inv {| py_pool := p0; py_holders := hs |}).
  { destruct I as [Hl Hc]. split; cbn in *; [destruct Hsh as (-> & -> & -> & ->); done|].
    intros t'. by rewrite Hav, (proj1 (same_shape_range _ _ t' Hsh)). }
  destruct (put_back_room _ _ _ _ _ _ I0 Hid Hh) as [E' _]. rewrite E' in E. injection E as <-.
  eapply (pool_inv_change p0 _ hs id h h' t); [done|done|done| |].
  - intros t' Hne. rewrite available_set, decide_False by done. by rewrite Ho, Hf.
  - rewrite available_set, decide_True by done. by rewrite Hf, Hh, app_nil_r.
Qed.

Lemma pool_step_inv y y' : pool_step y y' → pool_inv y → pool_inv y'.
Proof.
  destruct 1 as [id t i p p' hs Hid E|id env t i p p' r hs Hid E|id ctx clock login ref ref' r p p' hs Hid E|id ref ref' p p' hs Hid E];
    intros I.
  - unfold take_index in E. fold (available t p) in E. destruct (available t p) as [|j q] eqn:Eq; [done|]. injection E as <- <-.
    destruct I as [Hl Hc]. split; cbn in *; [done|]. intros t'. rewrite held_insert, available_set by done. cbn.
    specialize (Hc t'). destruct (decide (t = t')) as [<-|]; [|done]. rewrite Eq in Hc. cbn in *. by rewrite <- Permutation_middle.
  - unfold acquireIndex in E.
    assert (Hf : ∀ s, put_back t i (match s with Some s => set_session i s p | None => p end) = Some p' →
      pool_inv {| py_pool := p'; py_holders := <[id := Failed]> hs |}).
    { intros s. apply (put_back_inv p p' hs id (Acquiring t i) Failed t i s); [done|done| |intros t' Hne|done]; cbn.
      - by rewrite decide_True.
      - by rewrite decide_False. }
    destruct (ae_Ctx env).
    { destruct (put_back t i p) eqn:Ep; [|done]. cbn in E. injection E as <- <-. by apply (Hf None). }
    destruct (sp_sessions p !! i) as [s|] eqn:Es; [|done]. cbn [mbind option_bind] in E.
    destruct (ensureValidSession _ _ _ _) as [s' r'].
    destruct r' as [[cookie gen]|e], (ae_CtxAfter env).
    2:{ injection E as <- <-. eapply (pool_inv_change p _ hs id (Acquiring t i) _ t); [done|done|apply set_session_shape| |].
        - intros t' Hne. cbn. by rewrite !decide_False.
        - cbn. by rewrite !decide_True. }
    all: destruct (put_back t i (set_session i s' p)) eqn:Ep; [|done]; cbn in E; injection E as <- <-; by apply (Hf (Some s')).
  - unfold pool_ForceRefresh in E. destruct (sp_sessions p !! sr_index ref) as [s|] eqn:Es; [|done]. cbn [mbind option_bind] in E.
    destruct (ForceRefreshOnSessionContext _ _ _ _) as [s' r']. injection E as <- <- <-.
    eapply (pool_inv_change p _ hs id (Holding ref) _ (sr_tier ref)); [done|done|apply set_session_shape| |].
    + intros t' Hne. by destruct r' as [[]|].
    + by destruct r' as [[]|].
  - unfold pool_Release in E. destruct (sr_released ref) eqn:Er.
    { injection E as <- <-. by rewrite insert_id. }
    assert (Hh : holds (sr_tier ref) (Holding ref) = Some (sr_index ref)) by (cbn; by rewrite Er, decide_True).
    destruct (put_back_room _ _ _ _ _ _ I Hid Hh) as [_ Hin]. rewrite (proj2 (Nat.leb_gt _ _)) in E.
    2:{ pose proof (pi_sessions _ I) as Hl. cbn in Hl. rewrite Hl. destruct (sr_tier ref); apply elem_of_seq in Hin; lia. }
    destruct (put_back _ _ _) eqn:Ep; [|done]. cbn in E. injection E as <- <-.
    eapply (put_back_inv p _ hs id (Holding ref) _ (sr_tier ref) (sr_index ref) None); try done.
    intros t' Hne. cbn. by rewrite Er, decide_False.
Qed.

Lemma pool_inv_new qr teacher interactive now stagger p :
  NewSessionPool qr teacher interactive now stagger = Ok p → pool_inv {| py_pool := p; py_holders := ∅ |}.
Proof.
  unfold NewSessionPool. repeat case_match; try done. intros [= <-]. split; cbn.
  - by rewrite length_fmap, length_seq.
  - intros t. unfold held. rewrite map_to_list_empty. cbn. rewrite app_nil_r. by destruct t.
Qed.

Lemma pool_reachable_inv qr teacher interactive now stagger p y :
  NewSessionPool qr teacher interactive now stagger = Ok p → pool_reachable p y → pool_inv y.
Proof.
  intros E. revert y. apply rtc_ind_r; [by eapply pool_inv_new|]. intros y1 y2 _ S I. by eapply pool_step_inv.
Qed.

(** In a reachable pool no goroutine's send blocks: its acquisition and its release go
    through. *)
Lemma pool_never_blocks p hs id h :
  pool_inv {| py_pool := p; py_holders := hs |} → hs !! id = Some h →
  match h with
  | Acquiring t i => ∀ env, is_Some (acquireIndex env t i p)
  | Holding ref => is_Some (pool_Release ref p)
  | Failed => True
  end.
Proof.
  intros I Hid. destruct h as [t i|ref|]; [intros env| |done].
  - assert (Hh : holds t (Acquiring t i) = Some i) by (cbn; by rewrite decide_True).
    destruct (put_back_room _ _ _ _ _ _ I Hid Hh) as [E Hin].
    assert (E' : ∀ s, is_Some (put_back t i (set_session i s p))).
    { intros s. unfold put_back in *. change (availableForTier t (set_session i s p)) with (availableForTier t p).
      destruct (availableForTier t p). destruct (_ <? _)%nat; [by eexists|done]. }
    unfold acquireIndex. destruct (ae_Ctx env); [by rewrite E|].
    destruct (lookup_lt_is_Some_2 (sp_sessions p) i) as [s ->].
    { pose proof (pi_sessions _ I) as Hl. cbn in Hl. rewrite Hl. destruct t; apply elem_of_seq in Hin; lia. }
    cbn [mbind option_bind]. destruct (ensureValidSession _ _ _ _) as [s' r']. destruct (E' s') as [p' Ep].
    destruct r' as [[]|], (ae_CtxAfter env); rewrite ?Ep; done.
  - unfold pool_Release. destruct (sr_released ref) eqn:Er; [done|]. destruct (_ <=? _)%nat; [done|].
    destruct (put_back_room p hs id (Holding ref) (sr_tier ref) (sr_index ref) I Hid) as [-> _]; [|done].
    cbn. by rewrite Er, decide_True.
Qed.

(** C28: the pool never loses, duplicates or mixes sessions.  However goroutines acquire,
    fail to log in, are cancelled, refresh and release (any number of times): (1) the
    queue of a tier and the indexes its goroutines hold are together exactly the tier's
    own sessions; (2) so no two goroutines work on one session; (3) the queue is full
    again once nobody holds an index of the tier; (4) no goroutine ever blocks on giving
    an index back. *)
Theorem pool_conserved qr teacher interactive now stagger p y :
  NewSessionPool qr teacher interactive now stagger = Ok p → pool_reachable p y →
  (∀ t, available t (py_pool y) ++ held t (py_holders y) ≡ₚ tier_range t (py_pool y)) ∧
  (∀ id id' t t' h h' i, py_holders y !! id = Some h → py_holders y !! id' = Some h' →
     holds t h = Some i → holds t' h' = Some i → id = id') ∧
  (∀ t, (∀ id h, py_holders y !! id = Some h → holds t h = None) →
     length (available t (py_pool y)) = capacity t (py_pool y)) ∧
  (∀ id h, py_holders y !! id = Some h →
     match h with
     | Acquiring t i => ∀ env, is_Some (acquireIndex env t i (py_pool y))
     | Holding ref => is_Some (pool_Release ref (py_pool y))
     | Failed => True
     end).
Proof.
  intros E Hr. pose proof (pool_reachable_inv _ _ _ _ _ _ _ E Hr) as I. destruct y as [q hs]. pose proof I as [_ Hc].
  cbn in *. split; [done|]. split_and!.
  - intros id id' t t' h h' i Hid Hid' Hh Hh'. destruct (decide (id = id')) as [|Hne]; [done|]. exfalso.
    destruct (put_back_room _ _ _ _ _ _ I Hid Hh) as [_ H1]. destruct (put_back_room _ _ _ _ _ _ I Hid' Hh') as [_ H2].
    assert (t' = t) as -> by (destruct t, t'; try done; apply elem_of_seq in H1, H2; lia).
    assert (Hnd : NoDup (held t hs)).
    { assert (Hx : NoDup (available t q ++ held t hs)) by (rewrite Hc; destruct t; apply NoDup_seq).
      by apply NoDup_app in Hx as (_ & _ & Hx). }
    pose proof (held_replace t id h Failed hs Hid) as R. rewrite Hh in R. cbn in R. rewrite <- R in Hnd.
    apply NoDup_cons in Hnd as [Hni _]. apply Hni. apply list_elem_of_omap. exists (id', h'). split; [|done].
    apply elem_of_map_to_list. by rewrite lookup_insert_ne.
  - intros t Hn. rewrite <- tier_range_length, <- Hc, length_app.
    assert (held t hs = []) as ->; [|cbn; lia]. unfold held. apply elem_of_nil_inv. intros i Hi.
    apply list_elem_of_omap in Hi as ([id h] & Hid%elem_of_map_to_list & Hh).
    cbn in Hh. by rewrite (Hn _ _ Hid) in Hh.
  - intros id h Hid. by eapply pool_never_blocks.
Qed.

(** * Back-off *)

(** After a kick the session is left alone for 30 seconds to 15 minutes, 15 at once when
    it was barely two minutes old. *)
Lemma applyBackoff_window now at_ s :
  0 ≤ ps_backoffCount s < max_int64 →
  let s' := applyBackoff now at_ s in
  1 ≤ ps_backoffCount s' ≤ 6 ∧
  at_ + sessionBackoffInitial ≤ ps_backedOffUntil s' ≤ at_ + sessionBackoffMax ∧
  (ps_backoffCount s = 0 → time_Sub now (ps_obtainedAt s) ≤ sessionMinValidAge → ps_backedOffUntil s' = at_ + sessionBackoffMax).
Proof.
  intros Hc. cbn. set (since := time_Sub now (ps_obtainedAt s)).
  assert (Hb : 1 ≤ backoff_count since (ps_backoffCount s) ≤ 6).
  { unfold backoff_count. rewrite wrap64_id by (unfold in_int64, min_int64; lia). unfold sessionBackoffMaxAttempts.
    destruct (_ && _); [done|]. destruct (6 <? _) eqn:El; bool_to_prop; lia. }
  set (k := backoff_count since (ps_backoffCount s)) in *. split; [done|]. unfold time_Add. split.
  - assert (k = 1 ∨ k = 2 ∨ k = 3 ∨ k = 4 ∨ k = 5 ∨ k = 6) as Hk by lia. clearbody k.
    destruct Hk as [->|[->|[->|[->|[->| ->]]]]]; vm_compute backoff_duration; unfold sessionBackoffInitial, sessionBackoffMax, Minute, Second; lia.
  - intros H0 Hs. unfold k, backoff_count. rewrite H0. change (wrap64 (0 + 1)) with 1. cbn [Z.eqb Pos.eqb andb].
    rewrite (proj2 (Z.leb_le _ _) Hs). f_equal.
Qed.

(** A login cut short by its caller's context backs the session off when it was forced,
    but not when it was lazy. *)
Lemma forced_cancel_backs_off clock e s :
  isBackedOff (clock 0%nat) s = false → isKickCandidate (clock 2%nat) s = true →
  ForceRefreshOnSessionContext None clock (Err (LoginCtx e)) s = (applyBackoff (clock 3%nat) (clock 4%nat) s, Err ErrAuthConflict).
Proof. intros Hb Hk. unfold ForceRefreshOnSessionContext. rewrite Hb. cbn. by rewrite Hk. Qed.

Lemma lazy_cancel_keeps_session ctx clock e s : (ensureValidSession ctx clock (Err (LoginCtx e)) s).1 = s.
Proof. unfold ensureValidSession. destruct ctx; [done|]. destruct (_ || _); [done|]. by destruct (isBackedOff _ _). Qed.

(** A forced refresh of the single session logs in only when the session has expired
    locally: after an upstream rejection of a session that is still young it returns
    the rejected cookie. *)
Lemma force_refresh_keeps_young_session ctx' clock login login' a st :
  wa_session a = Some st → clock 0%nat < ss_expiresAt st - sessionRefreshBuffer →
  ForceRefreshContext None ctx' clock login login' a = (a, Ok (ss_cookieValue st, ss_generation st)).
Proof.
  intros Hs Ht. unfold ForceRefreshContext, GetValidSessionContext, auth_fresh, time_Before, time_Add. rewrite Hs.
  by rewrite (proj2 (Z.ltb_lt _ _)) by lia.
Qed.
