(* ===== verification/Upstream.v ===== *)
(** Answers of the upstream site ([warwick/response_guard.go], and [requestJSON] with its
    helpers in [warwick/snapshot_source.go] and [warwick/classroom_client.go]): which
    responses count as JSON data, as a rejected session, or as an error of which kind. *)

From stdpp Require Import base list numbers strings pretty.
From Stdlib Require Import ZArith QArith Lia.
From S2P Require Import Prelude Float64 Sanitize Domain Policy Canonical Validation Coordinator.

Local Open Scope Z_scope.
Local Open Scope stdpp_scope.
Local Open Scope go_scope.

(** * Text *)

(** [strings.ToLower] as far as ASCII text can tell: besides the letters, two other code
    points (U+0130 and U+212A) have an ASCII lower case; every other one keeps to
    non-ASCII bytes. *)
Fixpoint lower_bytes (l : list nat) : list nat :=
  match l with
  | 196%nat :: 176%nat :: l' => 105%nat :: lower_bytes l'
  | 226%nat :: 132%nat :: 170%nat :: l' => 107%nat :: lower_bytes l'
  | b :: l' => (if ((65 <=? b) && (b <=? 90))%nat then (b + 32)%nat else b) :: lower_bytes l'
  | [] => []
  end.

Fixpoint contains_bytes (needle l : list nat) : bool :=
  match strip_prefix needle l with
  | Some _ => true
  | None => match l with [] => false | _ :: l' => contains_bytes needle l' end
  end.

Definition Contains (needle : string) (text : list nat) : bool := contains_bytes (bytes_of needle) text.

(** * The response guard *)

Definition authSignalThreshold : Z := 2.

Definition authSignalScore (body : string) (requireJSON : bool) : Z :=
  let text := lower_bytes (bytes_of body) in
  let quoted key := key +:+ (String (Ascii.ascii_of_nat 34) ("password" +:+ String (Ascii.ascii_of_nat 34) "")) in
  Z.b2z (Contains "<form" text) +
  Z.b2z (Contains (quoted "type=") text || Contains (quoted "name=") text) +
  Z.b2z (Contains "__viewstate" text) +
  Z.b2z (Contains "login" text || Contains "sign in" text) +
  (if Contains "idg-box-login-primary" text || Contains "idg-btn-sumbit" text then 2 else 0) +
  (if requireJSON then
     match bytes_of (TrimSpace body) with
     | [] => 1
     | b :: _ => Z.b2z (negb (b =? 123)%nat && negb (b =? 91)%nat)
     end
   else 0).

Inductive GuardError := ErrResponseTooLarge | ErrAuthenticationResponse.

Definition ValidateBody (maxBodyBytes : Z) (body : string) (requireJSON : bool) : result GuardError unit :=
  if maxBodyBytes <? Z.of_nat (String.length body) then Err ErrResponseTooLarge
  else if authSignalThreshold <=? authSignalScore body requireJSON then Err ErrAuthenticationResponse
  else Ok tt.

(** * Errors *)

Definition plain_err (text : string) : GoErr :=
  {| err_NotModified := false; err_Status := None; err_AuthExpired := false; err_AuthConflict := false;
     err_Fetch := None; err_DeadlineExceeded := false; err_Canceled := false; err_Text := text |}.

Definition FetchError_Error (kind : FetchErrorKind) (msg : string) : string :=
  match kind with
  | ErrKindAuthExpired => "warwick session expired"
  | ErrKindNetwork => "network request failed: " +:+ msg
  | ErrKindInvalidPayload => "invalid response payload: " +:+ msg
  | ErrKindRateLimited => "warwick rate limit exceeded"
  | ErrKindAuthConflict => "warwick auth conflict — human admin likely logged in"
  | ErrKindPoolExhausted => "pool exhausted — all sessions in use"
  end.

(** A [*domain.FetchError]; the two authentication errors are compared by identity. *)
Definition fetch_err (kind : FetchErrorKind) (msg : string) : GoErr :=
  {| err_NotModified := false; err_Status := None; err_AuthExpired := bool_decide (kind = ErrKindAuthExpired);
     err_AuthConflict := bool_decide (kind = ErrKindAuthConflict); err_Fetch := Some kind;
     err_DeadlineExceeded := false; err_Canceled := false; err_Text := FetchError_Error kind msg |}.

Definition ErrAuthExpired : GoErr := fetch_err ErrKindAuthExpired "".
Definition NewInvalidPayloadError (msg : string) : GoErr := fetch_err ErrKindInvalidPayload msg.
Definition NewNetworkError (msg : string) : GoErr := fetch_err ErrKindNetwork msg.

Definition ErrNotModified : GoErr :=
  {| err_NotModified := true; err_Status := None; err_AuthExpired := false; err_AuthConflict := false;
     err_Fetch := None; err_DeadlineExceeded := false; err_Canceled := false; err_Text := "upstream not modified" |}.

Definition UpstreamStatusError (code retryAfter : Z) : GoErr :=
  {| err_NotModified := false; err_Status := Some (code, retryAfter); err_AuthExpired := false;
     err_AuthConflict := false; err_Fetch := None; err_DeadlineExceeded := false; err_Canceled := false;
     err_Text := "upstream returned HTTP " +:+ pretty code |}.

(** The error of a context that has ended. *)
Inductive CtxDone := DoneCanceled | DoneDeadline.
Definition ctx_err (c : CtxDone) : GoErr :=
  {| err_NotModified := false; err_Status := None; err_AuthExpired := false; err_AuthConflict := false;
     err_Fetch := None; err_DeadlineExceeded := match c with DoneDeadline => true | _ => false end;
     err_Canceled := match c with DoneCanceled => true | _ => false end;
     err_Text := match c with DoneDeadline => "context deadline exceeded" | _ => "context canceled" end |}.

Definition requestError (ctx : option CtxDone) (msg : string) : GoErr :=
  match ctx with Some c => ctx_err c | None => NewNetworkError msg end.

(** A DataTables answer; the four response types differ in their rows. *)
Record DataTable (R : Type) := { dt_RecordsTotal : Z; dt_RecordsFiltered : Z; dt_Data : list R }.
Arguments Build_DataTable {R} _ _ _.
Arguments dt_RecordsTotal {R} _.
Arguments dt_RecordsFiltered {R} _.
Arguments dt_Data {R} _.

Definition zero_table {R} : DataTable R := Build_DataTable 0 0 [].

(** * Retry-After *)

(** [strconv.ParseInt(s, 10, 64)]: the value, saturated when it is out of range, and
    whether there was no error; a syntax error gives 0. *)
Fixpoint decimal (l : list nat) (acc : Z) : option Z :=
  match l with
  | [] => Some acc
  | b :: l' => match digit b with Some d => decimal l' (10 * acc + d) | None => None end
  end.

Definition ParseInt (s : string) : Z * bool :=
  let '(neg, l) := match bytes_of s with
                   | 45%nat :: l => (true, l)
                   | 43%nat :: l => (false, l)
                   | l => (false, l)
                   end in
  match l, decimal l 0 with
  | _ :: _, Some n => let v := if neg : bool then - n else n in (clamp64 v, bool_decide (clamp64 v = v))
  | _, _ => (0, false)
  end.

Definition parseRetryAfter (http_ParseTime : string → option Z) (value : string) (now : Z) : Z :=
  let value := TrimSpace value in
  if bool_decide (value = "") then 0
  else
    match ParseInt value with
    | (seconds, true) => if seconds <=? 0 then 0 else wrap64 (seconds * Second)
    | (_, false) =>
        match http_ParseTime value with
        | Some deadline => if time_After deadline now then time_Sub deadline now else 0
        | None => 0
        end
    end.

(** * requestJSON *)

(** A response; [hr_ReadErr] is an error met after the bytes of [hr_Body]. *)
Record HTTPResponse := {
  hr_StatusCode : Z;
  hr_Header : string → string;
  hr_Body : string;
  hr_ReadErr : option string
}.

(** One request: its response or the error of the transport, the context afterwards, and
    the clock. *)
Record RequestEnv := {
  re_Response : result string HTTPResponse;
  re_Ctx : option CtxDone;
  re_Now : Z
}.

Definition no_metadata : ResponseMetadata :=
  {| rm_StatusCode := 0; rm_ContentType := ""; rm_ETag := ""; rm_LastModified := ""; rm_CacheControl := "";
     rm_RawBodyHash := "" |}.

Definition responseMetadata (r : HTTPResponse) : ResponseMetadata :=
  {| rm_StatusCode := hr_StatusCode r; rm_ContentType := ""; rm_ETag := hr_Header r "ETag";
     rm_LastModified := hr_Header r "Last-Modified"; rm_CacheControl := hr_Header r "Cache-Control";
     rm_RawBodyHash := "" |}.

Definition with_content (ty hash : string) (m : ResponseMetadata) : ResponseMetadata :=
  {| rm_StatusCode := rm_StatusCode m; rm_ContentType := ty; rm_ETag := rm_ETag m;
     rm_LastModified := rm_LastModified m; rm_CacheControl := rm_CacheControl m; rm_RawBodyHash := hash |}.

(** [io.ReadAll] of a reader limited to one byte more than the limit. *)
Definition read_limited (limit : Z) (r : HTTPResponse) : string * option string :=
  if limit + 1 <=? Z.of_nat (String.length (hr_Body r))
  then (String.substring 0 (Z.to_nat (limit + 1)) (hr_Body r), None) else (hr_Body r, hr_ReadErr r).

Definition json_type (ty : string) : bool :=
  bool_decide (ty = "application/json") ||
  bool_decide (is_Some (strip_prefix (rev (bytes_of "+json")) (rev (bytes_of ty)))).

Section request.
Context `{GoLib} (mime_ParseMediaType : string → option string) (http_ParseTime : string → option Z) (limit : Z).

(** The metadata, the bytes read, what the destination holds, and the error; [decode] is
    the JSON decoder of the answer, with what it filled in beside its error. *)
Definition requestJSON {R} (decode : string → DataTable R * option string) (env : RequestEnv)
    : ResponseMetadata * Z * DataTable R * option GoErr :=
  match re_Response env with
  | Err msg => (no_metadata, 0, zero_table, Some (requestError (re_Ctx env) msg))
  | Ok r =>
      let m := responseMetadata r in
      let code := hr_StatusCode r in
      if code =? 304 then (m, 0, zero_table, Some ErrNotModified)
      else if (code =? 302) || (code =? 301) || (code =? 401) || (code =? 403)
      then (m, 0, zero_table, Some ErrAuthExpired)
      else if (code <? 200) || (300 <=? code)
      then (m, 0, zero_table, Some (UpstreamStatusError code
              (parseRetryAfter http_ParseTime (hr_Header r "Retry-After") (re_Now env))))
      else
        match mime_ParseMediaType (hr_Header r "Content-Type") with
        | None => (m, 0, zero_table, Some (NewInvalidPayloadError "unsupported upstream content type"))
        | Some ty =>
            if negb (json_type ty)
            then (m, 0, zero_table, Some (NewInvalidPayloadError "unsupported upstream content type"))
            else
              let m1 := with_content ty "" m in
              let '(payload, readErr) := read_limited limit r in
              let n := Z.of_nat (String.length payload) in
              match readErr with
              | Some msg => (m1, n, zero_table, Some (requestError (re_Ctx env) msg))
              | None =>
                  if limit <? n
                  then (m1, n, zero_table, Some (NewInvalidPayloadError "upstream response body exceeds configured limit"))
                  else
                    let m2 := with_content ty (sha256_Sum256 payload) m in
                    match ValidateBody limit payload true with
                    | Err ErrAuthenticationResponse => (m2, n, zero_table, Some ErrAuthExpired)
                    | Err ErrResponseTooLarge => (m2, n, zero_table, Some (NewInvalidPayloadError
                                                  "response guard: response body exceeds configured limit"))
                    | Ok _ =>
                        match decode payload with
                        | (d, None) => (m2, n, d, None)
                        | (d, Some e) => (m2, n, d, Some (NewInvalidPayloadError ("decode typed upstream response: " +:+ e)))
                        end
                    end
              end
        end
  end.
End request.
