(* ===== verification/Source.v ===== *)
(** The snapshot source ([warwick/snapshot_source.go]): the fetch of one target, which the
    coordinator gets as its input.  A fetch takes the upstream's answers in [FetchEnv];
    the pages of the profile listing come in the order in which they completed. *)

From stdpp Require Import base list numbers strings gmap sorting.
From Stdlib Require Import ZArith QArith Qround Lia.
From S2P Require Import Prelude Float64 Sanitize Domain Policy Canonical Validation HostState Coordinator SessionPool.
From S2P Require Import Upstream.

Local Open Scope Z_scope.
Local Open Scope stdpp_scope.
Local Open Scope go_scope.

Definition profilePageSize : Z := 500.
Definition maxProfileRecords : Z := 100000.

(** * Rows *)

(** An untyped JSON field. *)
Inductive JAny (F : Type) := JString (s : string) | JNumber (x : F) | JOther.
Arguments JString {F} _.
Arguments JNumber {F} _.
Arguments JOther {F}.

Record ClassAttendanceRow (F : Type) := {
  ca_ID : JAny F;
  ca_CourseName : string;
  ca_Enrolled : JAny F;
  ca_StartDate : JAny F;
  ca_EndDate : JAny F
}.
Arguments ca_ID {F} _.
Arguments ca_CourseName {F} _.
Arguments ca_Enrolled {F} _.
Arguments ca_StartDate {F} _.
Arguments ca_EndDate {F} _.

Record ClassAttendanceDetailRow (F : Type) := { cad_DID : JAny F; cad_DName : string; cad_DStatus : string }.
Arguments cad_DID {F} _.
Arguments cad_DName {F} _.
Arguments cad_DStatus {F} _.

Record StudentCheckInRow := {
  sci_StudentID : string;
  sci_StudentName : string;
  sci_StudentNickName : string;
  sci_StudentSchool : string;
  sci_StudentImg : string;
  sci_StudentCheckIn : bool;
  sci_StudentPPoint : Z
}.

Record UserGroupRow := {
  ug_StudentID : string;
  ug_StudentGuid : string;
  ug_FullName : string;
  ug_School : string
}.

(** Libraries that are not under [src]: the float64 values of JSON numbers with their
    text, media types, HTTP dates, the quoting of [%q], and the decoders of the four
    answers and of the target's course name. *)
Class SourceLib := {
  json_float : Type;
  float_value : json_float → Q;
  FormatFloat : json_float → string;
  mime_ParseMediaType : string → option string;
  http_ParseTime : string → option Z;
  strconv_Quote : string → string;
  json_ClassAttendanceSearch : string → DataTable (ClassAttendanceRow json_float) * option string;
  json_ClassAttendanceDetailSearch : string → DataTable (ClassAttendanceDetailRow json_float) * option string;
  json_StudentCheckInSearch : string → DataTable StudentCheckInRow * option string;
  json_UserGroupSearch : string → DataTable UserGroupRow * option string;
  json_course_name : string → string
}.

(** An integral number prints as digits. *)
Class SourceLaws `{SourceLib} : Prop :=
  format_nonblank : ∀ x, blank (FormatFloat x) = false.

(** * Checks *)

Definition validateCompleteDataTable (endpoint : string) (total filtered rows : Z) : option GoErr :=
  if (total <? 0) || (filtered <? 0) || (total <? filtered) || negb (rows =? filtered)
  then Some (NewInvalidPayloadError (endpoint +:+ " returned an incomplete or inconsistent collection")) else None.

Definition recordUniqueIdentifier (seen : gset string) (identifier endpoint field : string) : result GoErr (gset string) :=
  if bool_decide (identifier = "")
  then Err (NewInvalidPayloadError (endpoint +:+ (" returned an empty " +:+ (field +:+ " identifier"))))
  else if bool_decide (identifier ∈ seen)
  then Err (NewInvalidPayloadError (endpoint +:+ (" returned a duplicate " +:+ (field +:+ " identifier"))))
  else Ok ({[identifier]} ∪ seen).

(** [time.Parse("2006-01-02T15:04:05", ...)] after the date: an hour of one or two digits,
    minutes, seconds, and a fraction of a second, which it also takes. *)
Definition valid_fraction (l : list nat) : bool :=
  match l with
  | [] => true
  | c :: d :: l' => ((c =? 46) || (c =? 44))%nat && forallb (λ b, bool_decide (is_Some (digit b))) (d :: l')
  | _ => false
  end.

Definition valid_sixty (a b : nat) : bool := match digits2 a b with Some n => n <? 60 | None => false end.

Definition valid_minutes (l : list nat) : bool :=
  match l with
  | c :: m1 :: m2 :: c' :: s1 :: s2 :: l' =>
      ((c =? 58) && (c' =? 58))%nat && valid_sixty m1 m2 && valid_sixty s1 s2 && valid_fraction l'
  | _ => false
  end.

Definition valid_clock (l : list nat) : bool :=
  match l with
  | h1 :: h2 :: l' =>
      match digit h1, digit h2 with
      | Some a, Some b => (10 * a + b <? 24) && valid_minutes l'
      | Some _, None => valid_minutes (h2 :: l')
      | None, _ => false
      end
  | _ => false
  end.

(** A target with a reference and nothing else; a fetch does not read the lifecycle, whose
    empty value the type leaves out. *)
Definition bare_target (ref : TargetRef) : ScrapeTarget :=
  {| st_ID := 0; st_Ref := ref; st_Attributes := ""; st_Priority := 0; st_MissingCount := 0;
     st_CurrentContentHash := zero_hash; st_HasCurrentSnapshot := false; st_CurrentVersion := 0;
     st_ValidationSeq := 0; st_CurrentInterval := 0; st_MinInterval := 0; st_MaxInterval := 0;
     st_MaxServeAge := 0; st_NextRunAt := 0; st_LastValidatedAt := None; st_ConsecutiveFailures := 0;
     st_RecentChanges := []; st_Conditional := {| ch_ETag := ""; ch_LastModified := "" |}; st_LeaseOwner := "";
     st_LeaseGeneration := 0; st_LeaseExpiresAt := None; st_PreviousRecordCount := 0;
     st_LifecycleState := LifeActive; st_LastSeenParentVersion := None; st_ConsecutiveMissingCount := 0;
     st_TombstonedAt := None; st_ReactivatedAt := None |}.

Definition set_conditional (c : ConditionalHeaders) (t : ScrapeTarget) : ScrapeTarget :=
  {| st_ID := st_ID t; st_Ref := st_Ref t; st_Attributes := st_Attributes t; st_Priority := st_Priority t;
     st_MissingCount := st_MissingCount t; st_CurrentContentHash := st_CurrentContentHash t;
     st_HasCurrentSnapshot := st_HasCurrentSnapshot t; st_CurrentVersion := st_CurrentVersion t;
     st_ValidationSeq := st_ValidationSeq t; st_CurrentInterval := st_CurrentInterval t;
     st_MinInterval := st_MinInterval t; st_MaxInterval := st_MaxInterval t; st_MaxServeAge := st_MaxServeAge t;
     st_NextRunAt := st_NextRunAt t; st_LastValidatedAt := st_LastValidatedAt t;
     st_ConsecutiveFailures := st_ConsecutiveFailures t; st_RecentChanges := st_RecentChanges t;
     st_Conditional := c; st_LeaseOwner := st_LeaseOwner t; st_LeaseGeneration := st_LeaseGeneration t;
     st_LeaseExpiresAt := st_LeaseExpiresAt t; st_PreviousRecordCount := st_PreviousRecordCount t;
     st_LifecycleState := st_LifecycleState t; st_LastSeenParentVersion := st_LastSeenParentVersion t;
     st_ConsecutiveMissingCount := st_ConsecutiveMissingCount t; st_TombstonedAt := st_TombstonedAt t;
     st_ReactivatedAt := st_ReactivatedAt t |}.

Section source.
Context `{GoLib, SourceLib}.

Definition normalizeWarwickDate (value : JAny json_float) : string :=
  match value with
  | JString text =>
      let l := bytes_of text in
      let date := string_of_bytes (take 10 l) in
      match parse_date date, drop 10 l with
      | Some _, 84%nat :: clock => if valid_clock clock then date else ""
      | _, _ => ""
      end
  | _ => ""
  end.

Definition parseIntValue (value : JAny json_float) : Z :=
  match value with
  | JNumber x => duration_of_float (float_value x)
  | JString s => (ParseInt s).1
  | JOther => 0
  end.

Definition requiredDataTableIdentifier (value : JAny json_float) (endpoint field : string) : result GoErr string :=
  let invalid := Err (NewInvalidPayloadError (endpoint +:+ (" returned an invalid " +:+ (field +:+ " identifier")))) in
  let checked (identifier : string) :=
    if bool_decide (identifier = "")
    then Err (NewInvalidPayloadError (endpoint +:+ (" returned an empty " +:+ (field +:+ " identifier"))))
    else Ok identifier in
  match value with
  | JString s => checked (TrimSpace s)
  | JNumber x => if Qeq_bool (float_value x) (inject_Z (Qfloor (float_value x))) then checked (FormatFloat x) else invalid
  | JOther => invalid
  end.

Definition sessionStatusFromWarwick (status : string) : SessionStatus :=
  let s := lower_bytes (bytes_of (TrimSpace status)) in
  if bool_decide (s = []) then SessionStatusNotStarted
  else if bool_decide (s = bytes_of "finished") then SessionStatusDone
  else SessionStatusActive.

(** The loop over the rows of an answer: the identifier of each, which must be new, and
    the record built from it. *)
Fixpoint collect {R A} (ident : R → result GoErr string) (build : nat → string → R → A) (endpoint field : string)
    (seen : gset string) (index : nat) (rows : list R) : result GoErr (list A) :=
  match rows with
  | [] => Ok []
  | row :: rows' =>
      let* id := ident row in
      let* seen' := recordUniqueIdentifier seen id endpoint field in
      let* rest := collect ident build endpoint field seen' (S index) rows' in
      Ok (build index id row :: rest)
  end.

(** * The fetches *)

Record FetchEnv := {
  fe_Request : RequestEnv;
  fe_Clock : nat → Z;
  fe_Pages : list (nat * RequestEnv);
  fe_Again : RequestEnv
}.

Context (limit : Z).

Definition request {R} (decode : string → DataTable R * option string) (env : RequestEnv) :=
  requestJSON mime_ParseMediaType http_ParseTime limit decode env.

Definition one_page (m : ResponseMetadata) (bytes reported : Z) (value : Value) : SnapshotFetchResult :=
  {| fr_Value := value; fr_Metadata := m; fr_BytesRead := bytes; fr_ReportedCount := reported;
     fr_ExpectedPages := 1; fr_FetchedPages := 1 |}.

(** A listing that comes as one page. *)
Definition fetch_table {R A} (decode : string → DataTable R * option string) (endpoint field : string)
    (ident : R → result GoErr string) (build : nat → string → R → A) (value : list A → Value) (env : RequestEnv)
    : SnapshotFetchResult * option GoErr :=
  let '(m, bytes, response, err) := request decode env in
  let empty := one_page m bytes (dt_RecordsFiltered response) VNil in
  match err with
  | Some e => (empty, Some e)
  | None =>
      match validateCompleteDataTable endpoint (dt_RecordsTotal response) (dt_RecordsFiltered response)
              (Z.of_nat (length (dt_Data response))) with
      | Some e => (empty, Some e)
      | None =>
          match collect ident build endpoint field ∅ 0 (dt_Data response) with
          | Err e => (empty, Some e)
          | Ok records => (one_page m bytes (dt_RecordsFiltered response) (value records), None)
          end
      end
  end.

Definition catalog_course (clock : nat → Z) (index : nat) (id : string) (row : ClassAttendanceRow json_float) : CourseSummary :=
  let startDate := normalizeWarwickDate (ca_StartDate row) in
  let endDate := normalizeWarwickDate (ca_EndDate row) in
  {| cs_CourseID := id; cs_Name := ca_CourseName row; cs_StartDate := startDate; cs_EndDate := endDate;
     cs_EnrolledCount := parseIntValue (ca_Enrolled row); cs_TotalSessions := 0; cs_CompletedSessions := 0;
     cs_AvgAttendanceRate := 0%Q;
     cs_Status := match GetCourseStatus (clock index) startDate endDate with Ok s => s | Err _ => CourseStatusActive end |}.

(** The validators sent with a request. *)
Definition conditionalHeaders (target : ScrapeTarget) : list (string * string) :=
  if negb (st_HasCurrentSnapshot target) then []
  else
    (if nonempty (ch_ETag (st_Conditional target)) then [("If-None-Match", ch_ETag (st_Conditional target))] else []) ++
    (if nonempty (ch_LastModified (st_Conditional target))
     then [("If-Modified-Since", ch_LastModified (st_Conditional target))] else []).

Definition fetchCatalog (env : FetchEnv) : SnapshotFetchResult * option GoErr :=
  fetch_table json_ClassAttendanceSearch "ClassAttendanceSearch" "course"
    (λ row, requiredDataTableIdentifier (ca_ID row) "ClassAttendanceSearch" "course")
    (catalog_course (fe_Clock env)) VCourses (fe_Request env).

Definition course_session (index : nat) (id : string) (row : ClassAttendanceDetailRow json_float) : SessionSummary :=
  {| ss_SessionID := id; ss_SessionNumber := Z.of_nat index + 1; ss_Name := cad_DName row; ss_Date := "";
     ss_CheckedInCount := 0; ss_TotalStudents := 0; ss_Status := sessionStatusFromWarwick (cad_DStatus row) |}.

Definition course_value (target : ScrapeTarget) (sessions : list SessionSummary) : Value :=
  VCourseDetailPtr (Some
    {| cd_Summary := {| cs_CourseID := ref_ResourceKey (st_Ref target); 
         cs_Name := if nonempty (st_Attributes target) then json_course_name (st_Attributes target) else "";
         cs_StartDate := ""; cs_EndDate := ""; cs_EnrolledCount := 0;
         cs_TotalSessions := Z.of_nat (length sessions);
         cs_CompletedSessions := Z.of_nat (length (base.filter (λ s, session_status_string (ss_Status s) = "done") sessions));
         cs_AvgAttendanceRate := 0%Q; cs_Status := CourseStatusActive |};
       cd_Sessions := sessions |}).

Definition fetchCourse (target : ScrapeTarget) (env : FetchEnv) : SnapshotFetchResult * option GoErr :=
  fetch_table json_ClassAttendanceDetailSearch "ClassAttendanceDetailSearch" "session"
    (λ row, requiredDataTableIdentifier (cad_DID row) "ClassAttendanceDetailSearch" "session")
    course_session (course_value target) (fe_Request env).

Definition session_student (index : nat) (id : string) (row : StudentCheckInRow) : StudentCheckin :=
  {| sc_StudentID := id; sc_Name := sci_StudentName row; sc_Nickname := sci_StudentNickName row;
     sc_School := sci_StudentSchool row; sc_AvatarURL := sci_StudentImg row; sc_CheckedIn := sci_StudentCheckIn row;
     sc_CheckedInAt := None; sc_ParticipationPoints := sci_StudentPPoint row |}.

Definition session_value (target : ScrapeTarget) (students : list StudentCheckin) : Value :=
  VSessionDetailPtr (Some
    {| sd_Summary := {| ss_SessionID := ref_ResourceKey (st_Ref target); ss_SessionNumber := 0; ss_Name := "";
         ss_Date := ""; ss_CheckedInCount := checked_in students; ss_TotalStudents := Z.of_nat (length students);
         ss_Status := SessionStatusOther "" |};
       sd_Students := students; sd_QRActive := false; sd_QRExpiresAt := None |}).

Definition fetchSession (target : ScrapeTarget) (env : FetchEnv) : SnapshotFetchResult * option GoErr :=
  fetch_table json_StudentCheckInSearch "ClassAttendanceStudentCheckInSearch" "student"
    (λ row, Ok (TrimSpace (sci_StudentID row))) session_student (session_value target) (fe_Request env).

(** ** Profiles *)

Definition expectedProfilePageRows (total start : Z) : Z :=
  let expected := total - start in if profilePageSize <? expected then profilePageSize else expected.

Definition validateProfileRecordCounts (r : DataTable UserGroupRow) : option GoErr :=
  if (dt_RecordsTotal r <? 0) || (dt_RecordsFiltered r <? 0) || (dt_RecordsTotal r <? dt_RecordsFiltered r) ||
     (maxProfileRecords <? dt_RecordsFiltered r)
  then Some (NewInvalidPayloadError "UserGroupSearch record count outside supported range") else None.

Definition validateProfilePageRows (r : DataTable UserGroupRow) (total start : Z) : option GoErr :=
  let expected := expectedProfilePageRows total start in
  if (expected <? 0) || negb (Z.of_nat (length (dt_Data r)) =? expected)
  then Some (NewInvalidPayloadError "UserGroupSearch returned an incomplete page") else None.

Definition profile_of (row : UserGroupRow) : StudentProfile :=
  {| sp_StudentID := TrimSpace (ug_StudentID row); sp_StudentGuid := TrimSpace (ug_StudentGuid row);
     sp_FullName := ug_FullName row; sp_School := ug_School row |}.

(** The profiles so far with the identifiers seen. *)
Record Merged := { mg_Profiles : list StudentProfile; mg_IDs : gset string; mg_GUIDs : gset string }.

Fixpoint mergeProfileRows (acc : Merged) (rows : list UserGroupRow) : result GoErr Merged :=
  match rows with
  | [] => Ok acc
  | row :: rows' =>
      let p := profile_of row in
      let* ids := recordUniqueIdentifier (mg_IDs acc) (sp_StudentID p) "UserGroupSearch" "student" in
      let* guids := recordUniqueIdentifier (mg_GUIDs acc) (sp_StudentGuid p) "UserGroupSearch" "student GUID" in
      mergeProfileRows {| mg_Profiles := mg_Profiles acc ++ [p]; mg_IDs := ids; mg_GUIDs := guids |} rows'
  end.

(** The identity pairs of a page, sorted, joined and hashed. *)
Definition profile_identity (row : UserGroupRow) : string :=
  TrimSpace (ug_StudentID row) +:+ ("|" +:+ TrimSpace (ug_StudentGuid row)).

Definition join_lines (l : list string) : string :=
  match l with
  | [] => ""
  | s :: l' => foldl (λ acc x, acc +:+ (String (Ascii.ascii_of_nat 10) x)) s l'
  end.

Definition profilePageFingerprint (rows : list UserGroupRow) : string :=
  sha256_Sum256 (join_lines (sort_stable str_lt (map profile_identity rows))).

Definition expected_pages (total : Z) : Z := Z.quot (total + profilePageSize - 1) profilePageSize.

Definition Page : Type := ResponseMetadata * Z * DataTable UserGroupRow * option GoErr.
Definition page_table (p : Page) : DataTable UserGroupRow := p.1.2.
Definition page_bytes (p : Page) : Z := p.1.1.2.
Definition page_meta (p : Page) : ResponseMetadata := p.1.1.1.
Definition zero_page : Page := (no_metadata, 0, zero_table, None).

Definition fetchPage (env : RequestEnv) : Page := request json_UserGroupSearch env.

(** The results of the workers by page, the zero value where none came. *)
Definition page_results (remaining : nat) (done : list (nat * Page)) : list Page :=
  map (λ i, match base.filter (λ x, x.1 = i) done with x :: _ => x.2 | [] => zero_page end) (seq 0 remaining).

Definition first_page_error (done : list (nat * Page)) : option (GoErr * ResponseMetadata) :=
  head (omap (λ x, (λ e, (e, page_meta x.2)) <$> x.2.2) done).

(** The checks and the merge of the remaining pages, in page order. *)
Fixpoint merge_pages (total : Z) (index : Z) (pages : list Page) (acc : Merged) : result GoErr Merged :=
  match pages with
  | [] => Ok acc
  | p :: pages' =>
      let r := page_table p in
      match validateProfileRecordCounts r with
      | Some e => Err e
      | None =>
          if negb (dt_RecordsFiltered r =? total)
          then Err (NewInvalidPayloadError "UserGroupSearch record count changed during pagination")
          else
            match validateProfilePageRows r total ((index + 1) * profilePageSize) with
            | Some e => Err e
            | None => let* acc' := mergeProfileRows acc (dt_Data r) in merge_pages total (index + 1) pages' acc'
            end
      end
  end.

Definition without_validators (m : ResponseMetadata) : ResponseMetadata :=
  {| rm_StatusCode := rm_StatusCode m; rm_ContentType := rm_ContentType m; rm_ETag := ""; rm_LastModified := "";
     rm_CacheControl := ""; rm_RawBodyHash := rm_RawBodyHash m |}.

Definition failed_fetch (m : ResponseMetadata) (bytes : Z) (e : GoErr) : SnapshotFetchResult * option GoErr :=
  ({| fr_Value := VNil; fr_Metadata := m; fr_BytesRead := bytes; fr_ReportedCount := 0; fr_ExpectedPages := 0;
      fr_FetchedPages := 0 |}, Some e).

(** The second reading of the first page agrees with the first. *)
Definition stable_first (total : Z) (first again : DataTable UserGroupRow) : bool :=
  (dt_RecordsFiltered again =? total) &&
  (Z.of_nat (length (dt_Data again)) =? expectedProfilePageRows total 0) &&
  bool_decide (profilePageFingerprint (dt_Data again) = profilePageFingerprint (dt_Data first)).

(** The rest of the set and the second reading of the first page: the bytes read by then
    with the merged profiles, or with the metadata to report and the error. *)
Definition fetch_rest (total : Z) (first : DataTable UserGroupRow) (m : ResponseMetadata) (bytes : Z)
    (done : list (nat * Page)) (again : Page) (acc : Merged) : Z * result (ResponseMetadata * GoErr) Merged :=
  let results := page_results (Z.to_nat (expected_pages total - 1)) done in
  let bytes1 := bytes + foldr Z.add 0 (map page_bytes results) in
  match first_page_error done with
  | Some (e, m') => (bytes1, Err (m', e))
  | None =>
      match merge_pages total 0 results acc with
      | Err e => (bytes1, Err (m, e))
      | Ok acc' =>
          let bytes2 := bytes1 + page_bytes again in
          match again.2 with
          | Some e => (bytes2, Err (page_meta again, e))
          | None =>
              match validateProfileRecordCounts (page_table again) with
              | Some e => (bytes2, Err (m, e))
              | None =>
                  if stable_first total first (page_table again) then (bytes2, Ok acc')
                  else (bytes2, Err (m, NewInvalidPayloadError "UserGroupSearch pagination set was unstable"))
              end
          end
      end
  end.

Definition fetchProfiles (env : FetchEnv) : SnapshotFetchResult * option GoErr :=
  let page := fetchPage (fe_Request env) in
  let first := page_table page in
  let bytes := page_bytes page in
  let m := without_validators (page_meta page) in
  let total := dt_RecordsFiltered first in
  let pages := expected_pages total in
  match page.2 with
  | Some e => failed_fetch (page_meta page) bytes e
  | None =>
      match validateProfileRecordCounts first with
      | Some e => failed_fetch m bytes e
      | None =>
          match validateProfilePageRows first total 0 with
          | Some e => failed_fetch m bytes e
          | None =>
              match mergeProfileRows {| mg_Profiles := []; mg_IDs := ∅; mg_GUIDs := ∅ |} (dt_Data first) with
              | Err e => failed_fetch m bytes e
              | Ok acc =>
                  let '(bytes', rest) :=
                    if 1 <? pages
                    then fetch_rest total first m bytes (map (λ x, (x.1, fetchPage x.2)) (fe_Pages env))
                           (fetchPage (fe_Again env)) acc
                    else (bytes, Ok acc) in
                  match rest with
                  | Err (m', e) => failed_fetch m' bytes' e
                  | Ok acc' =>
                      if negb (Z.of_nat (length (mg_Profiles acc')) =? total)
                      then failed_fetch m bytes' (NewInvalidPayloadError "UserGroupSearch parsed count differs from reported count")
                      else ({| fr_Value := VProfiles (mg_Profiles acc'); fr_Metadata := m; fr_BytesRead := bytes';
                               fr_ReportedCount := total; fr_ExpectedPages := pages;
                               fr_FetchedPages := if 1 <? pages then pages + 1 else 1 |}, None)
                  end
              end
          end
      end
  end.

(** * Sessions and retries *)

(** What the site answers to a cookie and the validators sent. *)
Definition Upstream : Type := string → list (string * string) → FetchEnv.

Definition unknown_kind (k : SnapshotKind) : GoErr :=
  plain_err ("snapshot source: unknown kind " +:+ strconv_Quote (kind_string k)).

Definition fetchAuthenticated (target : ScrapeTarget) (ask : list (string * string) → FetchEnv)
    : SnapshotFetchResult * option GoErr :=
  match ref_Kind (st_Ref target) with
  | SnapshotCourseCatalog => fetchCatalog (ask (conditionalHeaders target))
  | SnapshotCourseDetail => fetchCourse target (ask (conditionalHeaders target))
  | SnapshotSessionDetail => fetchSession target (ask (conditionalHeaders target))
  | SnapshotStudentProfiles => fetchProfiles (ask [])
  | SnapshotOther k => failed_fetch no_metadata 0 (unknown_kind (SnapshotOther k))
  end.

Definition domain_ErrAuthConflict : GoErr := fetch_err ErrKindAuthConflict "".
Definition domain_ErrPoolExhausted : GoErr := fetch_err ErrKindPoolExhausted "".

(** How a session is got and renewed: the pool's (or the authenticator's) answer and the
    context after it. *)
Record SessionEnv := {
  se_Acquire : result SessionError string;
  se_AcquireCtx : option CtxDone;
  se_Refresh : result SessionError string;
  se_RefreshCtx : option CtxDone
}.

(** The error of an acquisition that failed, for the pool. *)
Definition acquire_error (ctx : option CtxDone) (e : SessionError) : GoErr :=
  match e with
  | ErrAuthConflict => domain_ErrAuthConflict
  | ErrNoAvailableSessions => domain_ErrPoolExhausted
  | _ => match ctx with Some c => ctx_err c | None => ErrAuthExpired end
  end.

Definition refresh_error (pool : bool) (ctx : option CtxDone) (e : SessionError) : GoErr :=
  match ctx with
  | Some c => ctx_err c
  | None => match e with ErrAuthConflict => if pool then domain_ErrAuthConflict else ErrAuthExpired | _ => ErrAuthExpired end
  end.

(** The two attempts of fetchWithPoolBudget and fetchWithAuth. *)
Definition fetch_attempts (pool : bool) (target : ScrapeTarget) (cookie : string) (upstream : Upstream)
    (se : SessionEnv) : SnapshotFetchResult * option GoErr :=
  match fetchAuthenticated target (upstream cookie) with
  | (r, Some e) =>
      if negb (err_AuthExpired e) then (r, Some e)
      else
        match se_Refresh se with
        | Err e' => (r, Some (refresh_error pool (se_RefreshCtx se) e'))
        | Ok cookie' =>
            match fetchAuthenticated target (upstream cookie') with
            | (r', Some e') => (r', Some (if negb (err_AuthExpired e') then e' else ErrAuthExpired))
            | r' => r'
            end
        end
  | r => r
  end.

Definition fetchWithPool (target : ScrapeTarget) (upstream : Upstream) (se : SessionEnv)
    : SnapshotFetchResult * option GoErr :=
  match se_Acquire se with
  | Err e => failed_fetch no_metadata 0 (acquire_error (se_AcquireCtx se) e)
  | Ok cookie => fetch_attempts true target cookie upstream se
  end.

Definition fetchWithAuth (target : ScrapeTarget) (upstream : Upstream) (se : SessionEnv)
    : SnapshotFetchResult * option GoErr :=
  match se_Acquire se with
  | Err _ => failed_fetch no_metadata 0 (match se_AcquireCtx se with Some c => ctx_err c | None => ErrAuthExpired end)
  | Ok cookie => fetch_attempts false target cookie upstream se
  end.

(** [source] tells whether there is a pool, the single session, or neither. *)
Definition Fetch (source : option bool) (target : ScrapeTarget) (upstream : Upstream) (se : SessionEnv)
    : SnapshotFetchResult * option GoErr :=
  if negb (kind_Valid (ref_Kind (st_Ref target)))
  then failed_fetch no_metadata 0 (unknown_kind (ref_Kind (st_Ref target)))
  else
    match source with
    | Some true => fetchWithPool target upstream se
    | Some false => fetchWithAuth target upstream se
    | None => failed_fetch no_metadata 0 (plain_err "snapshot source: classroom client has no authentication source")
    end.

Definition FetchConfirmation (source : option bool) (target : ScrapeTarget) (upstream : Upstream) (se : SessionEnv)
    : SnapshotFetchResult * option GoErr :=
  Fetch source (set_conditional {| ch_ETag := ""; ch_LastModified := "" |} target) upstream se.

(** The check-ins of a session, for the rooms; its target has a reference only. *)
Definition FetchSessionCheckins (source : option bool) (courseID sessionID : string) (upstream : Upstream)
    (se : SessionEnv) : result GoErr (list StudentCheckin) :=
  if bool_decide (sessionID = "") then Err (plain_err "snapshot source: session id is required")
  else
    match source with
    | Some true =>
        match fetchWithPool (bare_target (mkRef "" SnapshotSessionDetail sessionID courseID)) upstream se with
        | (_, Some e) => Err e
        | (r, None) =>
            match fr_Value r with
            | VSessionDetailPtr (Some d) => Ok (sd_Students d)
            | _ => Err (NewInvalidPayloadError "snapshot source: unexpected session check-in payload")
            end
        end
    | _ => Err (plain_err "snapshot source: session check-ins require a session pool")
    end.
End source.
