(* ===== verification/SourceSpec.v ===== *)
(** What the snapshot source promises to the coordinator: a fetch that succeeds carries a
    payload that validation accepts and that is complete, so the commit of a run on it is
    accepted; and a profile listing is the concatenation of its pages. *)

From stdpp Require Import base list numbers strings gmap sorting.
From Stdlib Require Import ZArith QArith Qround Lia.
From S2P Require Import Prelude Float64 Sanitize Domain Policy Canonical Validation Tables HostState Commit Coordinator.
From S2P Require Import CoordinatorSpec SessionPool Upstream Source.

Local Open Scope Z_scope.
Local Open Scope stdpp_scope.
Local Open Scope go_scope.

(** * Trimmed text *)

Lemma strip_prefix_complete p r : strip_prefix p (p ++ r) = Some r.
Proof. induction p as [|x p IH]; simpl; [done|]. by rewrite Nat.eqb_refl. Qed.

Lemma strip_first_None ps l : strip_first ps l = None ↔ ∀ p r, p ∈ ps → l ≠ p ++ r.
Proof.
  induction ps as [|p ps IH]; simpl; [by split; [intros _ ? ? ?%elem_of_nil|]|].
  destruct (strip_prefix p l) as [l'|] eqn:E.
  - split; [done|]. intros Hn. destruct (Hn p l'); [by left|by apply strip_prefix_app].
  - rewrite IH. split; intros Hn q r; [|intros Hq; by apply Hn; right].
    intros [->|Hq]%elem_of_cons; [|by apply Hn]. intros ->. by rewrite strip_prefix_complete in E.
Qed.

Lemma strip_first_Some ps l l' : strip_first ps l = Some l' → ∃ p, p ∈ ps ∧ l = p ++ l'.
Proof.
  induction ps as [|p ps IH]; simpl; [done|]. destruct (strip_prefix p l) as [r|] eqn:E.
  - intros [= <-]. exists p. split; [by left|by apply strip_prefix_app].
  - intros (q & ? & ?)%IH. exists q. split; [by right|done].
Qed.

(** With its fuel the trimming ends where no pattern is left in front. *)
Lemma trim_left_spec ps : (∀ p, p ∈ ps → p ≠ []) → ∀ fuel l, (length l ≤ fuel)%nat →
  strip_first ps (trim_left fuel ps l) = None ∧ ∃ p, l = p ++ trim_left fuel ps l.
Proof.
  intros Hne. induction fuel as [|fuel IH]; intros l Hl; simpl.
  - destruct l; [|simpl in Hl; lia]. split; [|by exists []].
    apply strip_first_None. intros p r Hp E. by destruct p; [destruct (Hne _ Hp)|].
  - destruct (strip_first ps l) as [l'|] eqn:E; [|by split; [|exists []]].
    apply strip_first_Some in E as (p & Hp & ->). pose proof (Hne _ Hp). rewrite length_app in Hl.
    destruct p as [|x p]; [done|]. simpl in Hl. destruct (IH l') as [Hn (q & Hq)]; [lia|].
    split; [done|]. exists ((x :: p) ++ q). rewrite <- app_assoc. by f_equal.
Qed.

Lemma trim_left_done ps fuel l : strip_first ps l = None → trim_left fuel ps l = l.
Proof. destruct fuel; simpl; [done|]. by intros ->. Qed.

Lemma white_space_nonempty p : p ∈ white_space → p ≠ [].
Proof. intros Hp ->. unfold white_space in Hp. set_solver. Qed.

(** A trimmed text is its own trimmed form. *)
Lemma TrimSpace_idemp s : TrimSpace (TrimSpace s) = TrimSpace s.
Proof.
  unfold TrimSpace. set (l := bytes_of s). set (ws' := map (@rev nat) white_space).
  destruct (trim_left_spec white_space white_space_nonempty (length l) l) as [H1 (p & Hp)]; [done|].
  set (l1 := trim_left (length l) white_space l) in *.
  destruct (trim_left_spec ws') with (fuel := length l1) (l := rev l1) as [H2 (q & Hq)].
  { unfold ws'. intros r (t & -> & Ht)%list_elem_of_fmap. intros E%(f_equal (@rev nat)).
    rewrite rev_involutive in E. by apply (white_space_nonempty t). }
  { by rewrite length_rev. }
  set (l2 := trim_left (length l1) ws' (rev l1)) in *.
  assert (Hsplit : l1 = rev l2 ++ rev q) by (rewrite <- (rev_involutive l1), Hq; apply rev_app_distr).
  assert (Hb : Forall is_byte (rev l2)).
  { pose proof (bytes_of_bytes s) as Hb. fold l in Hb. rewrite Hp, Hsplit in Hb.
    apply Forall_app in Hb as [_ Hb]. by apply Forall_app in Hb as [? _]. }
  rewrite bytes_string_roundtrip by done. f_equal.
  rewrite (trim_left_done white_space), rev_involutive, trim_left_done; [done|done|].
  apply strip_first_None. intros r t Hr E. apply (proj1 (strip_first_None _ _) H1 r (t ++ rev q)); [done|].
  by rewrite Hsplit, E, app_assoc.
Qed.

Lemma trimmed_nonblank s : TrimSpace s ≠ "" → blank (TrimSpace s) = false.
Proof. intros Hn. unfold blank. by rewrite TrimSpace_idemp, bool_decide_eq_false_2. Qed.

(** * Listings that come as one page *)

Lemma recordUniqueIdentifier_ok seen id endpoint field seen' :
  recordUniqueIdentifier seen id endpoint field = Ok seen' ↔ id ≠ "" ∧ id ∉ seen ∧ seen' = {[id]} ∪ seen.
Proof.
  unfold recordUniqueIdentifier. repeat case_bool_decide; split; try done; try naive_solver.
Qed.

Lemma recordUniqueIdentifier_err seen id endpoint field e :
  recordUniqueIdentifier seen id endpoint field = Err e → id ≠ "" → id ∉ seen → False.
Proof. unfold recordUniqueIdentifier. by repeat case_bool_decide. Qed.

Section source.
Context `{GoLib, SourceLib}.
Context (limit : Z).

(** What the loop over the rows leaves: a record for each row, with its identifier. *)
Lemma collect_ok {R A} (ident : R → result GoErr string) (build : nat → string → R → A) (proj : A → string)
    endpoint field :
  (∀ k id row, proj (build k id row) = id) →
  (∀ row id, ident row = Ok id → id ≠ "" → blank id = false) →
  ∀ rows seen index recs, collect ident build endpoint field seen index rows = Ok recs →
  length recs = length rows ∧ ids_ok proj recs ∧ Forall (λ r, proj r ∉ seen) recs ∧
  Forall (λ r, ∃ k id row, r = build k id row) recs.
Proof.
  intros Hproj Hblank. unfold ids_ok.
  induction rows as [|row rows IH]; intros seen index recs; cbn.
  { intros [= <-]. by repeat constructor. }
  destruct (ident row) as [id|] eqn:Ei; cbn; [|done].
  destruct (recordUniqueIdentifier _ _ _ _) as [seen'|] eqn:Eu; cbn; [|done].
  apply recordUniqueIdentifier_ok in Eu as (Hne & Hni & ->).
  destruct (collect _ _ _ _ _ _ _) as [rest|] eqn:Ec; cbn; [|done]. intros [= <-].
  apply IH in Ec as (Hl & [Hb Hn] & Hs & Hf). cbn. rewrite Hproj. split_and!.
  - by rewrite Hl.
  - constructor; [rewrite Hproj; eauto|done].
  - constructor; [|done]. intros (r & Er & Hr)%list_elem_of_fmap.
    pose proof (proj1 (Forall_forall _ _) Hs r Hr) as Hx. cbn in Hx. set_solver.
  - constructor; [by rewrite Hproj|]. eapply Forall_impl; [exact Hs|]. set_solver.
  - constructor; [eauto|done].
Qed.

Lemma requestJSON_bytes {R} (decode : string → DataTable R * option string) env m n d err :
  request limit decode env = (m, n, d, err) → 0 ≤ n.
Proof.
  unfold request, requestJSON. intros Hr. repeat (case_match; simplify_eq; try lia).
Qed.

Lemma fetch_table_ok {R A} (decode : string → DataTable R * option string) endpoint field ident
    (build : nat → string → R → A) (proj : A → string) value env fr :
  (∀ k id row, proj (build k id row) = id) →
  (∀ row id, ident row = Ok id → id ≠ "" → blank id = false) →
  fetch_table limit decode endpoint field ident build value env = (fr, None) →
  ∃ m bytes recs, fr = one_page m bytes (Z.of_nat (length recs)) (value recs) ∧ ids_ok proj recs ∧
    Forall (λ r, ∃ k id row, r = build k id row) recs.
Proof.
  intros Hproj Hblank. unfold fetch_table.
  destruct (request limit decode env) as [[[m n] d] [e|]]; [done|].
  destruct (validateCompleteDataTable _ _ _ _) eqn:Ev; [done|].
  destruct (collect _ _ _ _ _ _ _) as [recs|] eqn:Ec; [|done]. intros [= <-].
  eapply collect_ok in Ec as (Hl & Hi & _ & Hf); [|eassumption..].
  exists m, n, recs. split; [|done]. f_equal. unfold validateCompleteDataTable in Ev.
  destruct (_ || negb _) eqn:E; [done|]. rewrite Hl. bool_to_prop. lia.
Qed.

Lemma fetch_table_bytes {R A} (decode : string → DataTable R * option string) endpoint field ident
    (build : nat → string → R → A) value env :
  0 ≤ fr_BytesRead (fetch_table limit decode endpoint field ident build value env).1.
Proof.
  unfold fetch_table. destruct (request limit decode env) as [[[m n] d] e] eqn:E.
  apply requestJSON_bytes in E. by repeat case_match.
Qed.

Lemma requiredDataTableIdentifier_nonblank `{!SourceLaws} v endpoint field id :
  requiredDataTableIdentifier v endpoint field = Ok id → blank id = false.
Proof.
  unfold requiredDataTableIdentifier. repeat case_match; try done; case_bool_decide; intros; simplify_eq.
  - by apply trimmed_nonblank.
  - apply format_nonblank.
Qed.

(** * The profile listing *)

(** Rows whose trimmed identifiers and GUIDs are all non-empty and distinct. *)
Definition distinct_rows (rows : list UserGroupRow) : Prop :=
  Forall (λ p, sp_StudentID p ≠ "" ∧ sp_StudentGuid p ≠ "") (map profile_of rows) ∧
  NoDup (map sp_StudentID (map profile_of rows)) ∧ NoDup (map sp_StudentGuid (map profile_of rows)).

(** What has been merged after some rows. *)
Definition merged_of (rows : list UserGroupRow) : Merged :=
  {| mg_Profiles := map profile_of rows; mg_IDs := list_to_set (map sp_StudentID (map profile_of rows));
     mg_GUIDs := list_to_set (map sp_StudentGuid (map profile_of rows)) |}.

Lemma NoDup_snoc_iff {A} (l : list A) x : NoDup (l ++ [x]) ↔ NoDup l ∧ x ∉ l.
Proof. rewrite Permutation_app_comm. cbn. rewrite NoDup_cons. tauto. Qed.

Lemma distinct_rows_snoc rows row :
  distinct_rows (rows ++ [row]) ↔
  distinct_rows rows ∧ sp_StudentID (profile_of row) ≠ "" ∧ sp_StudentID (profile_of row) ∉ mg_IDs (merged_of rows) ∧
  sp_StudentGuid (profile_of row) ≠ "" ∧ sp_StudentGuid (profile_of row) ∉ mg_GUIDs (merged_of rows).
Proof.
  unfold distinct_rows, merged_of. rewrite !map_app. cbn [map mg_IDs mg_GUIDs].
  rewrite Forall_app, !NoDup_snoc_iff, Forall_singleton, !elem_of_list_to_set. tauto.
Qed.

Lemma distinct_rows_prefix rows rows' : distinct_rows (rows ++ rows') → distinct_rows rows.
Proof. unfold distinct_rows. rewrite !map_app, Forall_app, !NoDup_app. tauto. Qed.

Lemma merged_of_snoc rows row :
  merged_of (rows ++ [row]) =
    {| mg_Profiles := mg_Profiles (merged_of rows) ++ [profile_of row];
       mg_IDs := {[sp_StudentID (profile_of row)]} ∪ mg_IDs (merged_of rows);
       mg_GUIDs := {[sp_StudentGuid (profile_of row)]} ∪ mg_GUIDs (merged_of rows) |}.
Proof. unfold merged_of. rewrite !map_app, !list_to_set_app_L. cbn.
  by rewrite !(right_id_L ∅ (∪)), !(comm_L (∪) (list_to_set _)).
Qed.

Lemma mergeProfileRows_ok rows : ∀ before acc, distinct_rows before →
  mergeProfileRows (merged_of before) rows = Ok acc ↔
  distinct_rows (before ++ rows) ∧ acc = merged_of (before ++ rows).
Proof.
  induction rows as [|row rows IH]; intros before acc Hd; cbn [mergeProfileRows].
  { rewrite app_nil_r. naive_solver. }
  replace (before ++ row :: rows) with ((before ++ [row]) ++ rows) by (by rewrite <- app_assoc).
  assert (Hbad : ¬ distinct_rows (before ++ [row]) → distinct_rows ((before ++ [row]) ++ rows) → False)
    by eauto using distinct_rows_prefix.
  rewrite distinct_rows_snoc in Hbad.
  destruct (recordUniqueIdentifier (mg_IDs _) _ _ _) as [ids|g] eqn:E1; cbn.
  2:{ split; [done|]. intros [Hx _]. destruct Hbad; [|done]. intros (_ & ? & ? & _).
      by eapply recordUniqueIdentifier_err. }
  destruct (recordUniqueIdentifier _ _ _ "student GUID") as [guids|g] eqn:E2; cbn.
  2:{ split; [done|]. intros [Hx _]. destruct Hbad; [|done]. intros (_ & _ & _ & ? & ?).
      by eapply recordUniqueIdentifier_err. }
  apply recordUniqueIdentifier_ok in E1 as (? & ? & ->), E2 as (? & ? & ->).
  rewrite <- IH, merged_of_snoc; [done|]. by apply distinct_rows_snoc.
Qed.

(** Page [index] of a listing, and an answer that carries it. *)
Definition page_rows (rows : list UserGroupRow) (index : nat) : list UserGroupRow :=
  take 500 (drop (500 * index) rows).

Definition answers (rows : list UserGroupRow) (index : nat) (p : Page) : Prop :=
  p.2 = None ∧ dt_RecordsFiltered (page_table p) = Z.of_nat (length rows) ∧
  dt_RecordsFiltered (page_table p) ≤ dt_RecordsTotal (page_table p) ∧
  dt_Data (page_table p) = page_rows rows index.

Lemma counts_ok r : validateProfileRecordCounts r = None ↔
  0 ≤ dt_RecordsFiltered r ≤ dt_RecordsTotal r ∧ dt_RecordsFiltered r ≤ maxProfileRecords.
Proof.
  unfold validateProfileRecordCounts. destruct (_ || _) eqn:E; split; try done.
  - rewrite !orb_true_iff, !Z.ltb_lt in E. lia.
  - intros _. bool_to_prop. lia.
Qed.

Lemma page_rows_ok r total start : validateProfilePageRows r total start = None ↔
  0 ≤ total - start ∧ Z.of_nat (length (dt_Data r)) = Z.min 500 (total - start).
Proof.
  unfold validateProfilePageRows, expectedProfilePageRows, profilePageSize.
  destruct (500 <? total - start) eqn:E; bool_to_prop; cbn [orb].
  - destruct (Z.eqb_spec (Z.of_nat (length (dt_Data r))) 500); cbn; split; try done; lia.
  - destruct (Z.ltb_spec (total - start) 0); cbn; [split; [done|lia]|].
    destruct (Z.eqb_spec (Z.of_nat (length (dt_Data r))) (total - start)); cbn; split; try done; lia.
Qed.

(** Lists cut into pages of [size] elements are the pages of their concatenation. *)
Lemma chunks_of_concat {A} (size : nat) (pages : list (list A)) : ∀ total,
  (∀ k p, pages !! k = Some p → length p = Nat.min size (total - size * k)) →
  length (concat pages) = Nat.min total (size * length pages) ∧
  ∀ k p, pages !! k = Some p → p = take size (drop (size * k) (concat pages)).
Proof.
  induction pages as [|p0 pages IH]; intros total Hlen; [split; [cbn; lia|done]|].
  pose proof (Hlen O p0 eq_refl) as Hp0. rewrite Nat.mul_0_r, Nat.sub_0_r in Hp0.
  destruct (IH (total - size)%nat) as [Hl Hp].
  { intros k p Hk. rewrite (Hlen (S k) p Hk). f_equal. lia. }
  cbn [concat length]. split; [rewrite length_app, Hl, Hp0; nia|].
  destruct (decide (size ≤ total)%nat) as [Hs|Hs].
  - intros [|k] p Hk; cbn in Hk; [injection Hk as <-|].
    + rewrite Nat.mul_0_r, drop_0, take_app_le, take_ge by lia. done.
    + rewrite (Hp k p Hk) at 1. f_equal. rewrite drop_app_ge by lia. f_equal. lia.
  - assert (concat pages = []) as Hnil by (apply length_zero_iff_nil; lia). rewrite Hnil, app_nil_r.
    intros [|k] p Hk; cbn in Hk; [injection Hk as <-|].
    + rewrite Nat.mul_0_r, drop_0, take_ge by lia. done.
    + rewrite drop_ge by nia. apply (Hlen (S k)) in Hk. destruct p; [by rewrite take_nil|]. cbn in Hk. nia.
Qed.

Lemma concat_chunks {A} (size : nat) (rows : list A) : (0 < size)%nat → ∀ n start,
  (length rows ≤ size * n)%nat →
  concat (map (λ i, take size (drop (size * (i - start)) rows)) (seq start n)) = rows.
Proof.
  intros Hs n. revert rows. induction n as [|n IH]; intros rows start Hl.
  - destruct rows; [done|cbn in Hl; lia].
  - cbn [seq map concat]. rewrite Nat.sub_diag, Nat.mul_0_r, drop_0.
    transitivity (take size rows ++ drop size rows); [|apply take_drop]. f_equal.
    rewrite <- (IH (drop size rows) (S start)) by (rewrite length_drop; nia). f_equal.
    apply map_ext_in. intros i (Hi & _)%in_seq. rewrite drop_drop. do 2 f_equal. nia.
Qed.

Definition page_ok (total : Z) (index : nat) (r : DataTable UserGroupRow) : Prop :=
  validateProfileRecordCounts r = None ∧ dt_RecordsFiltered r = total ∧
  validateProfilePageRows r total (Z.of_nat index * profilePageSize) = None.

Lemma merge_pages_ok total pages : ∀ index before acc, distinct_rows before →
  merge_pages total (Z.of_nat index) pages (merged_of before) = Ok acc ↔
  (∀ k p, pages !! k = Some p → page_ok total (S (index + k)) (page_table p)) ∧
  let rows := before ++ concat (map (dt_Data ∘ page_table) pages) in
  distinct_rows rows ∧ acc = merged_of rows.
Proof.
  induction pages as [|p pages IH]; intros index before acc Hd.
  { cbn. rewrite app_nil_r. naive_solver. }
  assert (Hstep : (∀ k q, (p :: pages) !! k = Some q → page_ok total (S (index + k)) (page_table q)) ↔
    page_ok total (S index) (page_table p) ∧
    ∀ k q, pages !! k = Some q → page_ok total (S (S index + k)) (page_table q)).
  { split.
    - intros Hx. split; [rewrite <- (Nat.add_0_r index); by apply (Hx O)|].
      intros k q Hk. replace (S index + k)%nat with (index + S k)%nat by lia. by apply (Hx (S k)).
    - intros [Hp Hx] [|k] q Hk; cbn in Hk; [injection Hk as <-; by rewrite Nat.add_0_r|].
      replace (index + S k)%nat with (S index + k)%nat by lia. by apply Hx. }
  rewrite Hstep. cbn [map concat merge_pages]. unfold page_ok at 1. rewrite Nat2Z.inj_succ, <- Z.add_1_r.
  destruct (validateProfileRecordCounts _); [naive_solver|].
  destruct (Z.eqb_spec (dt_RecordsFiltered (page_table p)) total) as [Et|Et]; cbn [negb]; [|naive_solver].
  destruct (validateProfilePageRows _ _ _); [naive_solver|]. cbv zeta. rewrite app_assoc.
  change ((dt_Data ∘ page_table) p) with (dt_Data (page_table p)).
  destruct (mergeProfileRows _ _) as [acc'|e] eqn:Em; cbn [result_bind].
  - apply mergeProfileRows_ok in Em as [Hd' ->]; [|done].
    replace (Z.of_nat index + 1) with (Z.of_nat (S index)) by lia. rewrite IH by done. cbv zeta. tauto.
  - split; [done|]. intros (_ & Hd' & _). apply distinct_rows_prefix in Hd'.
    by rewrite (proj2 (mergeProfileRows_ok _ _ _ Hd) (conj Hd' eq_refl)) in Em.
Qed.

Lemma expected_pages_spec total n : 0 ≤ total →
  (n < Z.to_nat (expected_pages total - 1))%nat ↔ Z.of_nat (500 * S n) < total.
Proof.
  intros Ht. unfold expected_pages, profilePageSize. rewrite Z.quot_div_nonneg by lia.
  pose proof (Z.div_mod (total + 500 - 1) 500). pose proof (Z.mod_pos_bound (total + 500 - 1) 500). lia.
Qed.

Lemma expected_pages_many total : 0 ≤ total → (1 <? expected_pages total) = (500 <? total).
Proof.
  intros Ht. pose proof (expected_pages_spec total 0 Ht). apply Bool.eq_iff_eq_true. rewrite !Z.ltb_lt. lia.
Qed.

Lemma page_results_length remaining done : length (page_results remaining done) = remaining.
Proof. unfold page_results. by rewrite length_map, length_seq. Qed.

Lemma page_results_lookup remaining done i : (i < remaining)%nat →
  page_results remaining done !! i = Some (default zero_page (snd <$> head (base.filter (λ x, x.1 = i) done))).
Proof.
  intros Hi. unfold page_results. change (map ?f ?l) with (f <$> l).
  rewrite list_lookup_fmap, lookup_seq_lt by done. cbn. by destruct (base.filter _ done).
Qed.

Lemma first_page_error_None done : first_page_error done = None ↔ Forall (λ x, x.2.2 = None) done.
Proof.
  unfold first_page_error. induction done as [|[i [p e]] done IH]; cbn; [by split|].
  rewrite Forall_cons, <- IH. cbn. destruct e as [e|]; cbn; naive_solver.
Qed.

(** The second reading of the first page confirms the first. *)
Definition confirms (total : Z) (first : DataTable UserGroupRow) (again : Page) : Prop :=
  again.2 = None ∧ validateProfileRecordCounts (page_table again) = None ∧
  stable_first total first (page_table again) = true.

Definition rest_pages (total : Z) (done : list (nat * Page)) : list Page :=
  page_results (Z.to_nat (expected_pages total - 1)) done.

Definition all_rows (first : DataTable UserGroupRow) (rest : list Page) : list UserGroupRow :=
  dt_Data first ++ concat (map (dt_Data ∘ page_table) rest).

Lemma fetch_rest_ok total first m bytes done again b acc : distinct_rows (dt_Data first) →
  fetch_rest total first m bytes done again (merged_of (dt_Data first)) = (b, Ok acc) ↔
  Forall (λ x, x.2.2 = None) done ∧
  (∀ k p, rest_pages total done !! k = Some p → page_ok total (S k) (page_table p)) ∧
  distinct_rows (all_rows first (rest_pages total done)) ∧ acc = merged_of (all_rows first (rest_pages total done)) ∧
  confirms total first again ∧
  b = bytes + foldr Z.add 0 (map page_bytes (rest_pages total done)) + page_bytes again.
Proof.
  intros Hd. unfold fetch_rest, confirms. fold (rest_pages total done). cbv zeta. rewrite <- first_page_error_None.
  destruct (first_page_error done) as [[e m']|]; [naive_solver|].
  pose proof (λ acc, merge_pages_ok total (rest_pages total done) 0 (dt_Data first) acc Hd) as Hm. cbn in Hm.
  fold (all_rows first (rest_pages total done)) in Hm.
  destruct (merge_pages _ _ _ _) as [acc'|e].
  - destruct (proj1 (Hm acc') eq_refl) as (Hp & Hdr & ->).
    destruct (again.2); [naive_solver|]. destruct (validateProfileRecordCounts _); [naive_solver|].
    destruct (stable_first _ _ _); naive_solver.
  - split; [done|]. intros (_ & Hp & Hdr & -> & _). discriminate (proj2 (Hm _) (conj Hp (conj Hdr eq_refl))).
Qed.

(** ** The whole listing *)

Definition completed (env : FetchEnv) : list (nat * Page) := map (λ x, (x.1, fetchPage limit x.2)) (fe_Pages env).

(** The result of a fetch that found [rows]. *)
Definition profiles_result (env : FetchEnv) (rows : list UserGroupRow) : SnapshotFetchResult :=
  let total := Z.of_nat (length rows) in
  let first := fetchPage limit (fe_Request env) in
  let many := 500 <? total in
  {| fr_Value := VProfiles (map profile_of rows); fr_Metadata := without_validators (page_meta first);
     fr_BytesRead := page_bytes first +
       if many then foldr Z.add 0 (map page_bytes (rest_pages total (completed env))) +
                    page_bytes (fetchPage limit (fe_Again env))
       else 0;
     fr_ReportedCount := total; fr_ExpectedPages := expected_pages total;
     fr_FetchedPages := if many then expected_pages total + 1 else 1 |}.

Lemma fetchProfiles_ok env fr :
  let page := fetchPage limit (fe_Request env) in
  let first := page_table page in
  let total := dt_RecordsFiltered first in
  let rows := all_rows first (rest_pages total (completed env)) in
  fetchProfiles limit env = (fr, None) ↔
  page.2 = None ∧ page_ok total 0 first ∧
  (500 < total → Forall (λ x, x.2.2 = None) (completed env) ∧
     (∀ k p, rest_pages total (completed env) !! k = Some p → page_ok total (S k) (page_table p)) ∧
     confirms total first (fetchPage limit (fe_Again env))) ∧
  distinct_rows rows ∧ Z.of_nat (length rows) = total ∧ fr = profiles_result env rows.
Proof.
  cbv zeta. unfold fetchProfiles, page_ok, profiles_result. fold (completed env).
  set (page := fetchPage limit (fe_Request env)). set (first := page_table page). set (total := dt_RecordsFiltered first).
  destruct (page.2); [by split; [|intros (? & _)]|].
  destruct (validateProfileRecordCounts first) eqn:Ec; [by split; [|intros (_ & (? & _) & _)]|].
  apply counts_ok in Ec. fold total in Ec. change (Z.of_nat 0 * profilePageSize) with 0.
  destruct (validateProfilePageRows first total 0); [by split; [|intros (_ & (_ & _ & ?) & _)]|].
  pose proof (λ acc, mergeProfileRows_ok (dt_Data first) [] acc (conj (Forall_nil_2 _) (conj (NoDup_nil_2) NoDup_nil_2))) as Hm.
  change (merged_of []) with {| mg_Profiles := []; mg_IDs := ∅; mg_GUIDs := ∅ |} in Hm. cbn [app] in Hm.
  destruct (mergeProfileRows _ _) as [acc|e].
  2:{ split; [done|]. intros (_ & _ & _ & Hd & _). apply distinct_rows_prefix in Hd.
      discriminate (proj2 (Hm _) (conj Hd eq_refl)). }
  destruct (proj1 (Hm acc) eq_refl) as [Hd ->]. rewrite expected_pages_many by lia.
  destruct (Z.ltb_spec 500 total) as [Ht|Ht].
  - destruct (fetch_rest _ _ _ _ _ _ _) as [b [acc|[m' e]]] eqn:Er.
    + apply fetch_rest_ok in Er as (? & ? & ? & -> & ? & ->); [|done].
      cbn [mg_Profiles merged_of]. rewrite length_map.
      destruct (Z.eqb_spec (Z.of_nat (length (all_rows first (rest_pages total (completed env))))) total) as [El|El]; cbn [negb].
      * rewrite El, (proj2 (Z.ltb_lt _ _)) by lia. rewrite Z.add_assoc. split; [by intros [= <-]|by intros (_ & _ & _ & _ & _ & ->)].
      * split; [done|]. by intros (_ & _ & _ & _ & ? & _).
    + split; [done|]. intros (_ & _ & Hx & ? & _). destruct (Hx Ht) as (? & ? & ?).
      assert (Hr := proj2 (fetch_rest_ok total first (without_validators (page_meta page)) (page_bytes page)
        (completed env) (fetchPage limit (fe_Again env)) _ _ Hd)
        ltac:(split_and!; [eassumption..|reflexivity|eassumption|reflexivity])). by rewrite Hr in Er.
  - assert (rest_pages total (completed env) = []) as ->.
    { apply length_zero_iff_nil. unfold rest_pages. rewrite page_results_length.
      pose proof (expected_pages_spec total 0). lia. }
    unfold all_rows. cbn [map concat mg_Profiles merged_of]. rewrite app_nil_r, length_map.
    destruct (Z.eqb_spec (Z.of_nat (length (dt_Data first))) total) as [El|El]; cbn [negb].
    + rewrite El, (proj2 (Z.ltb_ge _ _)), Z.add_0_r by lia.
      split; [intros [= <-]; split_and!; [done..|lia|done|done|done]|by intros (_ & _ & _ & _ & _ & ->)].
    + split; [done|]. by intros (_ & _ & _ & _ & ? & _).
Qed.

(** The site serves [rows] to a fetch: each page is answered with its part of them, no
    page failed, and the first page was confirmed when there were more. *)
Definition serves (env : FetchEnv) (rows : list UserGroupRow) : Prop :=
  let first := fetchPage limit (fe_Request env) in
  answers rows 0 first ∧
  (500 < Z.of_nat (length rows) →
    Forall (λ x, x.2.2 = None) (completed env) ∧
    (∀ i, Z.of_nat (500 * S i) < Z.of_nat (length rows) → ∃ p,
       head (base.filter (λ x, x.1 = i) (completed env)) = Some (i, p) ∧ answers rows (S i) p) ∧
    confirms (Z.of_nat (length rows)) (page_table first) (fetchPage limit (fe_Again env))).

Lemma answers_page_ok rows index p : Z.of_nat (length rows) ≤ maxProfileRecords →
  (500 * index ≤ length rows)%nat → answers rows index p → page_ok (Z.of_nat (length rows)) index (page_table p).
Proof.
  intros Hm Hi (_ & Hf & Ht & Hd). split_and!; [apply counts_ok; lia|done|].
  apply page_rows_ok. rewrite Hd. unfold page_rows, profilePageSize. rewrite length_take, length_drop. lia.
Qed.

Lemma page_ok_length total index r : page_ok total index r →
  length (dt_Data r) = Nat.min 500 (Z.to_nat total - 500 * index).
Proof. intros (_ & _ & Hp). apply page_rows_ok in Hp. unfold profilePageSize in Hp. lia. Qed.

Lemma lookup_pages first rest k :
  (dt_Data first :: map (dt_Data ∘ page_table) rest) !! S k = (dt_Data ∘ page_table) <$> (rest !! k).
Proof. exact (list_lookup_fmap (dt_Data ∘ page_table) rest k). Qed.

(** Pages of the right sizes are the pages of what they make up. *)
Lemma all_rows_pages total first rest :
  0 ≤ total → page_ok total 0 first → (∀ k p, rest !! k = Some p → page_ok total (S k) (page_table p)) →
  dt_Data first = page_rows (all_rows first rest) 0 ∧
  ∀ k p, rest !! k = Some p → dt_Data (page_table p) = page_rows (all_rows first rest) (S k).
Proof.
  intros Ht Hf Hr. unfold all_rows, page_rows.
  destruct (chunks_of_concat 500 (dt_Data first :: map (dt_Data ∘ page_table) rest) (Z.to_nat total)) as [_ Hp].
  { intros [|k] p Hk; [injection Hk as <-; by apply page_ok_length|]. rewrite lookup_pages in Hk.
    apply fmap_Some in Hk as (q & Hq & ->). by apply page_ok_length, Hr. }
  split; [by apply (Hp O)|]. intros k p Hk. apply (Hp (S k)). by rewrite lookup_pages, Hk.
Qed.

(** Answers of a listing make it up again. *)
Lemma all_rows_answers rows first rest :
  (length rows ≤ 500 * S (length rest))%nat → dt_Data first = page_rows rows 0 →
  (∀ k p, rest !! k = Some p → dt_Data (page_table p) = page_rows rows (S k)) →
  all_rows first rest = rows.
Proof.
  intros Hl Hf Hr. unfold all_rows.
  assert (dt_Data first :: map (dt_Data ∘ page_table) rest =
    map (λ i, take 500 (drop (500 * (i - 0)) rows)) (seq 0 (S (length rest)))) as E.
  { apply list_eq. intros [|k]; [cbn; by rewrite Hf|]. rewrite lookup_pages.
    change (map ?f (seq 0 ?n)) with (f <$> seq 0 n). rewrite list_lookup_fmap. destruct (rest !! k) as [p|] eqn:Ek.
    - rewrite lookup_seq_lt by (apply lookup_lt_Some in Ek; lia). cbn [fmap option_fmap option_map compose].
      by rewrite (Hr k p Ek).
    - rewrite lookup_seq_ge by (apply lookup_ge_None in Ek; lia). done. }
  change (concat (dt_Data first :: map (dt_Data ∘ page_table) rest) = rows). rewrite E. apply concat_chunks; lia.
Qed.

Lemma Forall_head_filter {A} (P : A → Prop) (Q : A → Prop) `{∀ x, Decision (Q x)} (l : list A) x :
  Forall P l → head (base.filter Q l) = Some x → P x ∧ Q x.
Proof.
  intros Hl Hx. assert (x ∈ base.filter Q l) as Hin by (destruct (base.filter Q l); cbn in *; simplify_eq; by left).
  apply list_elem_of_filter in Hin as [HQ Hin]. by rewrite Forall_forall in Hl; auto.
Qed.

(** A page that passed the checks of a listing of more than one page came from a worker. *)
Lemma rest_page_answered total done i p :
  0 < total → Forall (λ x : nat * Page, x.2.2 = None) done → rest_pages total done !! i = Some p →
  page_ok total (S i) (page_table p) → head (base.filter (λ x, x.1 = i) done) = Some (i, p) ∧ p.2 = None.
Proof.
  intros Ht Hn Hp Hok. pose proof (lookup_lt_Some _ _ _ Hp) as Hi. unfold rest_pages in *.
  rewrite page_results_length in Hi. rewrite page_results_lookup in Hp by done.
  destruct (head _) as [[j q]|] eqn:Eh; cbn in Hp; injection Hp as <-.
  - by destruct (Forall_head_filter _ _ _ _ Hn Eh) as [Hq [= ->]].
  - destruct Hok as (_ & E & _). cbn in E. lia.
Qed.

Lemma fetchProfiles_served env fr :
  fetchProfiles limit env = (fr, None) ↔
  ∃ rows, serves env rows ∧ distinct_rows rows ∧ Z.of_nat (length rows) ≤ maxProfileRecords ∧
    fr = profiles_result env rows.
Proof.
  rewrite fetchProfiles_ok. cbv zeta. unfold serves. set (page := fetchPage limit (fe_Request env)).
  set (first := page_table page). split.
  - intros (Hn & Hp & Hm & Hd & Hl & ->). set (total := dt_RecordsFiltered first) in *.
    set (rest := rest_pages total (completed env)) in *. pose proof (proj1 Hp) as Hc. apply counts_ok in Hc.
    fold total in Hc.
    assert (Hrest : ∀ k p, rest !! k = Some p → 500 < total ∧ page_ok total (S k) (page_table p)).
    { intros k p Hk. pose proof (lookup_lt_Some _ _ _ Hk) as Hi. unfold rest, rest_pages in Hi.
      rewrite page_results_length, expected_pages_spec in Hi by lia. split; [lia|]. apply Hm; [lia|done]. }
    destruct (all_rows_pages total first rest) as [Hf Hr]; [lia|done|by apply Hrest|].
    exists (all_rows first rest). split_and!; try done; [unfold answers; fold first total; split_and!; [done|lia..|done]| |lia].
    rewrite Hl. intros Ht. destruct (Hm Ht) as (He & Hok & Hcf). split_and!; try done. intros i Hi.
    apply expected_pages_spec in Hi; [|lia].
    destruct (lookup_lt_is_Some_2 rest i) as [p Hk]; [unfold rest, rest_pages; by rewrite page_results_length|].
    exists p. destruct (rest_page_answered total (completed env) i p) as [Hh Hpn]; [lia|done..|by apply Hok|].
    split; [done|]. destruct (Hok i p Hk) as (Hcp%counts_ok & ? & _). unfold answers.
    split_and!; [done|lia..|by apply Hr].
  - intros (rows & [Ha Hm] & Hd & Hmax & ->). destruct (Ha) as (Hn & Hf & Ht & Hdf). fold first in Hf, Ht, Hdf.
    rewrite Hf. set (total := Z.of_nat (length rows)) in *. set (rest := rest_pages total (completed env)).
    assert (Hrest : ∀ k p, rest !! k = Some p → answers rows (S k) p ∧ (500 * S k ≤ length rows)%nat).
    { intros k p Hk. pose proof (lookup_lt_Some _ _ _ Hk) as Hi. unfold rest, rest_pages in Hi, Hk.
      rewrite page_results_length in Hi. rewrite page_results_lookup in Hk by done.
      apply expected_pages_spec in Hi; [|lia]. destruct Hm as (_ & Hpg & _); [lia|].
      destruct (Hpg k) as (q & Hh & Hq); [lia|]. rewrite Hh in Hk. injection Hk as <-. split; [done|lia]. }
    assert (all_rows first rest = rows) as Eall.
    { apply all_rows_answers; [|done|by intros k p Hk; apply Hrest in Hk as [(_ & _ & _ & ?) _]].
      unfold rest, rest_pages. rewrite page_results_length.
      pose proof (expected_pages_spec total (Z.to_nat (expected_pages total - 1))). lia. }
    rewrite Eall. split_and!; try done; [apply answers_page_ok; [done|lia|done]|].
    intros Hgt. destruct (Hm Hgt) as (He & _ & Hcf). split_and!; try done.
    intros k p Hk. apply Hrest in Hk as [? ?]. by apply answers_page_ok.
Qed.

Lemma filter_key_perm {A} (l l' : list (nat * A)) i : l ≡ₚ l' → NoDup (map fst l) →
  base.filter (λ x, x.1 = i) l = base.filter (λ x, x.1 = i) l'.
Proof.
  induction 1 as [|x l l' Hl IH|x y l|l l' l'' H1 IH1 H2 IH2]; intros Hn; cbn [map] in *.
  - done.
  - apply NoDup_cons in Hn as [_ Hn]. rewrite !filter_cons. by rewrite IH.
  - apply NoDup_cons in Hn as [Hn _]. rewrite !filter_cons. repeat case_decide; try done. set_solver.
  - rewrite IH1 by done. apply IH2. by rewrite <- (Permutation_map fst H1).
Qed.

(** C31: the profile listing.  A fetch of the student profiles succeeds exactly when the
    site served, page by page, one listing of at most 100000 rows with non-empty and
    pairwise distinct trimmed identifiers and GUIDs, no page failed, and a second reading
    of the first page confirmed it; the value is then every row of that listing, in
    order, with the reported total.  The order in which the workers completed the pages
    makes no difference. *)
Theorem fetchProfiles_listing env :
  (∀ fr, fetchProfiles limit env = (fr, None) ↔
    ∃ rows, serves env rows ∧ distinct_rows rows ∧ Z.of_nat (length rows) ≤ maxProfileRecords ∧
      fr = profiles_result env rows) ∧
  (∀ pages fr, NoDup (map fst (fe_Pages env)) → pages ≡ₚ fe_Pages env →
    fetchProfiles limit env = (fr, None) →
    fetchProfiles limit {| fe_Request := fe_Request env; fe_Clock := fe_Clock env; fe_Pages := pages;
                           fe_Again := fe_Again env |} = (fr, None)).
Proof.
  split; [apply fetchProfiles_served|]. intros pages fr Hn Hp (rows & [Ha Hm] & Hd & Hmax & ->)%fetchProfiles_served.
  apply fetchProfiles_served. exists rows. set (env' := Build_FetchEnv _ _ _ _).
  assert (Hc : completed env ≡ₚ completed env') by (apply Permutation_map; by symmetry).
  assert (Hf : ∀ i, base.filter (λ x, x.1 = i) (completed env) = base.filter (λ x, x.1 = i) (completed env')).
  { intros i. apply filter_key_perm; [done|]. unfold completed. by rewrite map_map. }
  split; [split; [done|]|].
  - intros Hgt. destruct (Hm Hgt) as (He & Hpg & Hcf). split_and!; [by rewrite <- Hc| |done].
    intros i Hi. rewrite <- Hf. by apply Hpg.
  - split_and!; try done. unfold profiles_result. f_equal.
    assert (∀ n, rest_pages n (completed env) = rest_pages n (completed env')) as ->; [|done].
    intros n. apply map_ext. intros i. by rewrite Hf.
Qed.

(** * A successful fetch is valid and complete *)

Definition value_records (v : Value) : Z :=
  match deref v with
  | VCourses l => Z.of_nat (length l)
  | VCourseDetail d => Z.of_nat (length (cd_Sessions d))
  | VSessionDetail d => Z.of_nat (length (sd_Students d))
  | VProfiles l => Z.of_nat (length l)
  | _ => 0
  end.

(** The payload validates as the target's, with as many records as were reported, and its
    manifest is complete. *)
Definition good_fetch (target : ScrapeTarget) (fr : SnapshotFetchResult) : Prop :=
  ∃ v, ValidatePayload (ref_Kind (st_Ref target)) (fr_Value fr) (ref_ResourceKey (st_Ref target)) = Ok v ∧
    vp_RecordCount v = fr_ReportedCount fr ∧ sm_Complete (buildSnapshotManifest fr v) = true.

Lemma good_fetch_intro target fr :
  payload_spec (ref_Kind (st_Ref target)) (fr_Value fr) (ref_ResourceKey (st_Ref target)) →
  value_records (fr_Value fr) = fr_ReportedCount fr → fr_ExpectedPages fr ≤ fr_FetchedPages fr →
  good_fetch target fr.
Proof.
  intros Hs Hr He. apply ValidatePayload_spec in Hs. unfold good_fetch.
  destruct (ValidatePayload _ _ _) as [v|] eqn:Ev; [|done]. exists v.
  destruct (ValidatePayload_shape _ _ _ _ Ev) as (_ & _ & Hc & Hd).
  fold (value_records (fr_Value fr)) in Hd. split_and!; [done|congruence|].
  cbn. rewrite Hc, Hd, Hr, Z.eqb_refl, (proj2 (Z.leb_le _ _) He). by rewrite !orb_true_r.
Qed.

Lemma course_session_ok index id row : session_ok (course_session index id row).
Proof.
  split; [|by left]. right. cbn. unfold sessionStatusFromWarwick. cbv zeta.
  repeat case_bool_decide; vm_compute; repeat constructor.
Qed.

Lemma distinct_ids_ok rows : distinct_rows rows → ids_ok sp_StudentID (map profile_of rows).
Proof.
  intros (Hn & Hd & _). split; [|done]. rewrite Forall_map in Hn |- *. eapply Forall_impl; [exact Hn|].
  intros row [Hi _]. by apply trimmed_nonblank.
Qed.

Lemma fetchProfiles_good target env fr : ref_Kind (st_Ref target) = SnapshotStudentProfiles →
  fetchProfiles limit env = (fr, None) → good_fetch target fr.
Proof.
  intros Hk (rows & _ & Hd & _ & ->)%fetchProfiles_served. apply good_fetch_intro.
  - rewrite Hk. by apply distinct_ids_ok.
  - cbn. by rewrite length_map.
  - cbn. pose proof (expected_pages_many (Z.of_nat (length rows)) ltac:(lia)) as He.
    destruct (500 <? _); [lia|]. bool_to_prop. lia.
Qed.

Lemma fetchAuthenticated_good `{!SourceLaws} target ask fr :
  fetchAuthenticated limit target ask = (fr, None) → good_fetch target fr.
Proof.
  unfold fetchAuthenticated. destruct (ref_Kind (st_Ref target)) eqn:Ek; [| | | |done].
  - intros Hf. eapply (fetch_table_ok _ _ _ _ _ cs_CourseID) in Hf as (m & b & recs & -> & Hi & _);
      [|done|by intros ? ? ?%requiredDataTableIdentifier_nonblank].
    apply good_fetch_intro; [by rewrite Ek|done..].
  - intros Hf. eapply (fetch_table_ok _ _ _ _ _ ss_SessionID) in Hf as (m & b & recs & -> & Hi & Hb);
      [|done|by intros ? ? ?%requiredDataTableIdentifier_nonblank].
    apply good_fetch_intro; [rewrite Ek|done..]. split_and!; [by right|done|].
    eapply Forall_impl; [exact Hb|]. intros ? (k & id & row & ->). apply course_session_ok.
  - intros Hf. eapply (fetch_table_ok _ _ _ _ _ sc_StudentID) in Hf as (m & b & recs & -> & Hi & _);
      [|done|by intros ? ? [= <-]; apply trimmed_nonblank].
    apply good_fetch_intro; [rewrite Ek|done..]. by split_and!; [right|..].
  - by apply fetchProfiles_good.
Qed.

Lemma Fetch_cases source target upstream se fr err (P : SnapshotFetchResult → option GoErr → Prop) :
  Fetch limit source target upstream se = (fr, err) →
  (∀ m n e, 0 ≤ n → P (failed_fetch m n e).1 (Some e)) →
  (∀ ask r e, fetchAuthenticated limit target ask = (r, e) → P r e) →
  (∀ ask r e e', fetchAuthenticated limit target ask = (r, Some e) → P r (Some e')) →
  P fr err.
Proof.
  intros Hf Hfail Hauth Hother.
  assert (Hatt : ∀ pool cookie, fetch_attempts limit pool target cookie upstream se = (fr, err) → P fr err).
  { unfold fetch_attempts. intros pool cookie.
    destruct (fetchAuthenticated limit target (upstream cookie)) as [r [e|]] eqn:E1; [|intros [= <- <-]; eauto].
    destruct (err_AuthExpired e); cbn; [|intros [= <- <-]; eauto].
    destruct (se_Refresh se) as [cookie'|e']; [|intros [= <- <-]; eauto].
    destruct (fetchAuthenticated limit target (upstream cookie')) as [r' [e'|]] eqn:E2; intros [= <- <-]; eauto. }
  assert (Hbad : ∀ e, failed_fetch no_metadata 0 e = (fr, err) → P fr err).
  { intros e [= <- <-]. by apply (Hfail no_metadata 0 e). }
  unfold Fetch in Hf. destruct (kind_Valid _); cbn in Hf; [|eauto]. destruct source as [[]|]; [| |eauto].
  - unfold fetchWithPool in Hf. destruct (se_Acquire se); eauto.
  - unfold fetchWithAuth in Hf. destruct (se_Acquire se); eauto.
Qed.

Lemma page_bytes_nonneg env : 0 ≤ page_bytes (fetchPage limit env).
Proof.
  unfold fetchPage, page_bytes. destruct (request _ _ env) as [[[m n] d] e] eqn:E. by apply requestJSON_bytes in E.
Qed.

Lemma rest_bytes_nonneg total done : Forall (λ x : nat * Page, 0 ≤ page_bytes x.2) done →
  0 ≤ foldr Z.add 0 (map page_bytes (rest_pages total done)).
Proof.
  intros Hd. unfold rest_pages, page_results. generalize (seq 0 (Z.to_nat (expected_pages total - 1))).
  induction l as [|i l IH]; cbn in *; [done|].
  assert (0 ≤ page_bytes (match base.filter (λ x, x.1 = i) done with x :: _ => x.2 | [] => zero_page end)); [|lia].
  destruct (base.filter _ done) as [|x l'] eqn:E; [done|].
  by apply (Forall_head_filter _ (λ x, x.1 = i) done x Hd); rewrite E.
Qed.

Lemma fetchProfiles_bytes env : 0 ≤ fr_BytesRead (fetchProfiles limit env).1.
Proof.
  unfold fetchProfiles. fold (completed env). pose proof (page_bytes_nonneg (fe_Request env)) as H1.
  assert (Hd : Forall (λ x : nat * Page, 0 ≤ page_bytes x.2) (completed env)).
  { unfold completed. rewrite Forall_map. apply Forall_true. intros x. apply page_bytes_nonneg. }
  pose proof (page_bytes_nonneg (fe_Again env)) as H2. set (t := dt_RecordsFiltered _).
  pose proof (rest_bytes_nonneg t (completed env) Hd) as H3. unfold rest_pages in H3.
  destruct (_.2); [done|]. destruct (validateProfileRecordCounts _); [done|].
  destruct (validateProfilePageRows _ _ _); [done|]. destruct (mergeProfileRows _ _) as [acc|]; [|done].
  destruct (1 <? expected_pages t).
  - unfold fetch_rest. cbv zeta. repeat case_match; simplify_eq; cbn; lia.
  - repeat case_match; simplify_eq; cbn; lia.
Qed.

Lemma fetchAuthenticated_bytes target ask : 0 ≤ fr_BytesRead (fetchAuthenticated limit target ask).1.
Proof.
  unfold fetchAuthenticated. destruct (ref_Kind _); [apply fetch_table_bytes..|apply fetchProfiles_bytes|done].
Qed.

Lemma Fetch_good `{!SourceLaws} source target upstream se fr :
  Fetch limit source target upstream se = (fr, None) → good_fetch target fr.
Proof.
  intros Hf. apply (Fetch_cases _ _ _ _ _ _ (λ fr err, err = None → good_fetch target fr) Hf); [done| |done|done].
  intros ask r e Ha ->. by eapply fetchAuthenticated_good.
Qed.

Lemma Fetch_bytes source target upstream se fr err :
  Fetch limit source target upstream se = (fr, err) → 0 ≤ fr_BytesRead fr.
Proof.
  intros Hf. apply (Fetch_cases _ _ _ _ _ _ (λ fr err, 0 ≤ fr_BytesRead fr) Hf); [done|..];
    intros ask r e; pose proof (fetchAuthenticated_bytes target ask) as Hb; intros; by destruct (fetchAuthenticated _ _ _); simplify_eq.
Qed.

(** C30: what the source hands to the coordinator is well formed.  A fetch that succeeds
    carries a payload that validation accepts as the target's, with exactly as many
    records as the site reported and a complete manifest; and whatever a fetch returned,
    with an error or without, the commit that a run builds from it is accepted by the
    store, so no run on this source is refused for an incomplete manifest. *)
Theorem fetch_valid `{!GoLibLaws, !CoordLib, !SourceLaws} source target upstream se fr err :
  Fetch limit source target upstream se = (fr, err) →
  (err = None → good_fetch target fr) ∧
  ∀ maxPayload prev confirm started finished at_ rd,
    let a := assess maxPayload target fr err prev confirm at_ rd in
    claimed target → rng_ok (rd_Schedule rd) → 0 < started → 0 < finished →
    (as_Changed a = true → as_Hash a ≠ zero_hash) →
    validateCommit (commit_input target fr err started finished rd a) = Ok tt.
Proof.
  intros Hf. split; [intros ->; by eapply Fetch_good|].
  intros maxPayload prev confirm started finished at_ rd a C Hr Hs Hfi Hz.
  unfold a in *. rewrite commit_input_validates; eauto using Fetch_bytes.
  destruct (as_Changed _) eqn:Ec; [|done]. apply assess_changed_manifest in Ec as (-> & v & Ev & ->).
  destruct (Fetch_good _ _ _ _ _ Hf) as (v' & Ev' & _ & Hc). rewrite Ev in Ev'. injection Ev' as <-. by rewrite Hc.
Qed.

(** A confirmation is asked for without validators, so it cannot be answered by a 304 that
    such a request would not get. *)
Lemma FetchConfirmation_unconditional source target upstream se :
  FetchConfirmation limit source target upstream se =
  FetchConfirmation limit source target (λ cookie _, upstream cookie []) se.
Proof.
  assert (E : ∀ cookie, fetchAuthenticated limit (set_conditional {| ch_ETag := ""; ch_LastModified := "" |} target)
      (upstream cookie) =
    fetchAuthenticated limit (set_conditional {| ch_ETag := ""; ch_LastModified := "" |} target) (λ _, upstream cookie [])).
  { intros cookie. unfold fetchAuthenticated, conditionalHeaders. cbn. by destruct (negb _). }
  unfold FetchConfirmation, Fetch, fetchWithPool, fetchWithAuth, fetch_attempts.
  destruct (negb _); [done|]. destruct source as [[]|]; [| |done].
  all: destruct (se_Acquire se) as [cookie|]; [|done]; rewrite !E; destruct (fetchAuthenticated _ _ _) as [r [e|]];
    [|done]; destruct (negb _); [done|]; destruct (se_Refresh se) as [cookie'|]; [|done]; by rewrite !E.
Qed.

(** The check-ins handed to the rooms are the students of the session, each once. *)
Lemma FetchSessionCheckins_ok `{!SourceLaws} source courseID sessionID upstream se l :
  FetchSessionCheckins limit source courseID sessionID upstream se = Ok l → ids_ok sc_StudentID l.
Proof.
  unfold FetchSessionCheckins. case_bool_decide as Hn; [done|]. destruct source as [[]|]; [|done..].
  set (t := bare_target _).
  destruct (fetchWithPool _ _ _ _) as [r [e|]] eqn:E; [done|].
  destruct (Fetch_good (Some true) t upstream se r) as (v & Hv & _); [by unfold Fetch; cbn|].
  assert (Hs : payload_spec SnapshotSessionDetail (fr_Value r) sessionID).
  { apply ValidatePayload_spec. cbn in Hv. by rewrite Hv. }
  unfold payload_spec in Hs. destruct (fr_Value r) as [| | | |[d|]| | |]; try done. intros [= <-]. by destruct Hs as (_ & ? & _).
Qed.

(** One request asks for at most 500 rows, and only the profiles are read page by page: a
    listing of another kind that the site reports as longer fails every time. *)
Lemma fetch_table_one_page {R A} (decode : string → DataTable R * option string) endpoint field ident
    (build : nat → string → R → A) value env m n d err :
  request limit decode env = (m, n, d, err) → (length (dt_Data d) ≤ 500)%nat → 500 < dt_RecordsFiltered d →
  is_Some (fetch_table limit decode endpoint field ident build value env).2.
Proof.
  intros Hr Hl Hf. unfold fetch_table. rewrite Hr. destruct err; [by eexists|].
  destruct (validateCompleteDataTable _ _ _ _) eqn:Ev; [by eexists|]. unfold validateCompleteDataTable in Ev.
  destruct (_ || negb _) eqn:E; [done|]. bool_to_prop. lia.
Qed.
End source.

(** The seconds of a Retry-After header are multiplied without a check: a large value comes
    out negative. *)
Lemma retry_after_overflows : parseRetryAfter (λ _, None) "10000000000" 0 = -8446744073709551616.
Proof. vm_compute. reflexivity. Qed.
