(* ===== verification/RoomRepo.v ===== *)
(** What the room manager works with: the rooms table ([db/repository.go]), the payloads of
    its events ([domain/room.go]) and the QR client ([warwick/client.go]). *)

From stdpp Require Import base list numbers strings gmap.
From Stdlib Require Import ZArith Lia.
From S2P Require Import Prelude Domain SessionPool Upstream.

Local Open Scope Z_scope.
Local Open Scope stdpp_scope.
Local Open Scope go_scope.

(** * The rooms table *)

(** The labels of the enum room_status. *)
Definition room_status : list string := ["idle"; "running"; "fetching"; "warning"; "auth_expired"; "stopped"].

Definition ToLower (s : string) : string := string_of_bytes (lower_bytes (bytes_of s)).

Definition roomStatusToString (status : RoomStatus) : string := ToLower (room_status_string status).

Definition stringToRoomStatus (s : string) : result string RoomStatus :=
  let l := ToLower s in
  if bool_decide (l = "idle") then Ok Idle
  else if bool_decide (l = "running") then Ok Running
  else if bool_decide (l = "fetching") then Ok Fetching
  else if bool_decide (l = "warning") then Ok Warning
  else if bool_decide (l = "auth_expired") then Ok AuthExpired
  else if bool_decide (l = "stopped") then Ok Stopped
  else Err ("unknown room status: " +:+ s).

Record RoomRow := {
  rr_class_id : string;
  rr_name : option string;
  rr_status : string;
  rr_qr_url : option string;
  rr_expires_at : option Z;
  rr_last_updated_at : option Z;
  rr_warning_message : option string;
  rr_error_message : option string;
  rr_last_fetch_at : option Z;
  rr_created_at : Z
}.

(** Rows by room_id. *)
Notation RoomTable := (gmap string RoomRow).

Inductive RoomRepoError := RoomNotFound (id : string) | RoomInvalidStatus (label : string) | RoomUnavailable.

Definition room_row (room : Room) (createdAt : Z) : RoomRow :=
  {| rr_class_id := rm_ClassID room; rr_name := rm_Name room; rr_status := roomStatusToString (rm_Status room);
     rr_qr_url := rm_QRURL room; rr_expires_at := rm_ExpiresAt room; rr_last_updated_at := rm_LastUpdatedAt room;
     rr_warning_message := rm_WarningMessage room; rr_error_message := rm_ErrorMessage room;
     rr_last_fetch_at := rm_LastFetchAt room; rr_created_at := createdAt |}.

Definition scanRoom (id : string) (row : RoomRow) : result RoomRepoError Room :=
  match stringToRoomStatus (rr_status row) with
  | Err _ => Err (RoomInvalidStatus (rr_status row))
  | Ok status =>
      Ok {| rm_RoomID := id; rm_ClassID := rr_class_id row; rm_Name := rr_name row; rm_Status := status;
            rm_QRURL := rr_qr_url row; rm_ExpiresAt := rr_expires_at row; rm_LastUpdatedAt := rr_last_updated_at row;
            rm_WarningMessage := rr_warning_message row; rm_ErrorMessage := rr_error_message row;
            rm_LastFetchAt := rr_last_fetch_at row; rm_UpstreamAttendanceLabel := None; rm_UpstreamVerifiedAt := None;
            rm_UpstreamVerificationError := None; rm_CreatedAt := rr_created_at row |}
  end.

Definition repo_GetRoom (id : string) (t : RoomTable) : result RoomRepoError Room :=
  match t !! id with Some row => scanRoom id row | None => Err (RoomNotFound id) end.

(** A label that is not of the enum is an error of the statement. *)
Definition repo_CreateRoom (room : Room) (dbnow : Z) (t : RoomTable) : RoomTable * result RoomRepoError Room :=
  let label := roomStatusToString (rm_Status room) in
  if bool_decide (label ∈ room_status) then
    let t' := match t !! rm_RoomID room with Some _ => t | None => <[rm_RoomID room := room_row room dbnow]> t end in
    (t', repo_GetRoom (rm_RoomID room) t')
  else (t, Err (RoomInvalidStatus label)).

(** The rows in some order; the first that cannot be read ends it. *)
Fixpoint scan_all (rows : list (string * RoomRow)) : result RoomRepoError (list Room) :=
  match rows with
  | [] => Ok []
  | (id, row) :: rows' =>
      match scanRoom id row with
      | Err e => Err e
      | Ok room => match scan_all rows' with Err e => Err e | Ok l => Ok (room :: l) end
      end
  end.

Definition repo_GetAllRooms (t : RoomTable) : result RoomRepoError (list Room) := scan_all (map_to_list t).

Definition repo_UpdateRoom (room : Room) (t : RoomTable) : RoomTable * result RoomRepoError Room :=
  let label := roomStatusToString (rm_Status room) in
  if bool_decide (label ∈ room_status) then
    match t !! rm_RoomID room with
    | Some row => (<[rm_RoomID room := room_row room (rr_created_at row)]> t, Ok room)
    | None => (t, Err (RoomNotFound (rm_RoomID room)))
    end
  else (t, Err (RoomInvalidStatus label)).

Definition repo_DeleteRoom (id : string) (t : RoomTable) : RoomTable * result RoomRepoError unit :=
  match t !! id with
  | Some _ => (delete id t, Ok tt)
  | None => (t, Err (RoomNotFound id))
  end.

Definition row_expired (now : Z) (row : RoomRow) : bool :=
  bool_decide (rr_qr_url row ≠ None) &&
  (match rr_expires_at row with None => true | Some e => time_Before e now end ||
   bool_decide (rr_status row ∈ ["stopped"; "idle"])).

Definition clear_row (row : RoomRow) : RoomRow :=
  {| rr_class_id := rr_class_id row; rr_name := rr_name row; rr_status := rr_status row; rr_qr_url := None;
     rr_expires_at := None; rr_last_updated_at := rr_last_updated_at row; rr_warning_message := rr_warning_message row;
     rr_error_message := rr_error_message row; rr_last_fetch_at := rr_last_fetch_at row;
     rr_created_at := rr_created_at row |}.

Definition ClearExpiredRoomQRs (now : Z) (t : RoomTable) : RoomTable * Z :=
  ((λ row, if row_expired now row then clear_row row else row) <$> t,
   Z.of_nat (size (filter (λ p, row_expired now p.2 = true) t))).

Definition row_stale (cutoff : Z) (row : RoomRow) : Prop :=
  rr_status row = "stopped" ∧ match rr_last_updated_at row with Some u => u < cutoff | None => False end.
#[export] Instance row_stale_dec cutoff row : Decision (row_stale cutoff row).
Proof. unfold row_stale. destruct (rr_last_updated_at row); apply _. Defined.

Definition DeleteStaleRooms (cutoff : Z) (t : RoomTable) : RoomTable * list string :=
  (filter (λ p, ¬ row_stale cutoff p.2) t, (map_to_list (filter (λ p, row_stale cutoff p.2) t)).*1).

(** A call whose connection fails reports an error, with or without its effect. *)
Inductive Conn := ConnOk | ConnRefused | ConnLost.

Definition over {A} (c : Conn) (r : RoomTable * result RoomRepoError A) (t : RoomTable)
    : RoomTable * result RoomRepoError A :=
  match c with
  | ConnOk => r
  | ConnRefused => (t, Err RoomUnavailable)
  | ConnLost => (r.1, Err RoomUnavailable)
  end.

(** * Events *)

Record RoomLite := {
  rl_RoomID : string;
  rl_ClassID : string;
  rl_Name : option string;
  rl_Status : RoomStatus;
  rl_ExpiresAt : option Z
}.

Definition NewRoomLite (room : Room) : RoomLite :=
  {| rl_RoomID := rm_RoomID room; rl_ClassID := rm_ClassID room; rl_Name := rm_Name room;
     rl_Status := rm_Status room; rl_ExpiresAt := rm_ExpiresAt room |}.

Record RoomChanged := {
  rc_RoomID : string;
  rc_ClassID : string;
  rc_Status : RoomStatus;
  rc_ExpiresAt : option Z;
  rc_HasQR : bool;
  rc_Revision : Z
}.

(** * The QR client *)

Record QrResponse := { qr_URL : string; qr_Time : Z }.

(** Its errors: the context's, or a [*domain.FetchError]. *)
Inductive QrError := QrCtx (c : CtxDone) | QrFetch (kind : FetchErrorKind) (msg : string).

Definition qr_error_text (e : QrError) : string :=
  match e with QrCtx c => Coordinator.err_Text (ctx_err c) | QrFetch kind msg => FetchError_Error kind msg end.

Definition qr_request_error (ctx : option CtxDone) (msg : string) : QrError :=
  match ctx with Some c => QrCtx c | None => QrFetch ErrKindNetwork msg end.

Definition authSignalsDetected (body : string) : bool := authSignalScore body false >=? authSignalThreshold.

Definition HasPrefix (prefix s : string) : bool := bool_decide (is_Some (strip_prefix (bytes_of prefix) (bytes_of s))).

(** [decode] is the JSON decoder of the answer. *)
Definition doFetchContext (decode : HTTPResponse → result string QrResponse) (env : RequestEnv)
    : result QrError QrResponse :=
  match re_Response env with
  | Err msg => Err (qr_request_error (re_Ctx env) msg)
  | Ok r =>
      let code := hr_StatusCode r in
      if (code =? 302) || (code =? 301) then Err (QrFetch ErrKindAuthExpired "")
      else if code =? 429 then Err (QrFetch ErrKindRateLimited "")
      else if Contains "text/html" (bytes_of (hr_Header r "Content-Type")) then
        match read_limited (2 ^ 20 - 1) r with
        | (_, Some msg) => Err (QrFetch ErrKindNetwork ("failed to read response body: " +:+ msg))
        | (body, None) =>
            if authSignalsDetected body then Err (QrFetch ErrKindAuthExpired "")
            else Err (QrFetch ErrKindInvalidPayload "Received unexpected HTML response")
        end
      else
        match decode r with
        | Err msg => Err (QrFetch ErrKindInvalidPayload ("JSON parse failed: " +:+ msg))
        | Ok qr =>
            if bool_decide (qr_URL qr = "") || negb (HasPrefix "data:image/" (qr_URL qr))
            then Err (QrFetch ErrKindInvalidPayload "qrUrl is empty or not a valid data URI") else Ok qr
        end
  end.

Definition qr_acquire_error (ctx : option CtxDone) (e : SessionError) : QrError :=
  match ctx with
  | Some c => QrCtx c
  | None =>
      match e with
      | ErrAuthConflict => QrFetch ErrKindAuthConflict ""
      | ErrNoAvailableSessions => QrFetch ErrKindPoolExhausted ""
      | _ => QrFetch ErrKindAuthExpired ""
      end
  end.

Definition qr_refresh_error (pool : bool) (ctx : option CtxDone) (e : SessionError) : QrError :=
  match ctx with
  | Some c => QrCtx c
  | None =>
      match e with
      | ErrAuthConflict => QrFetch (if pool then ErrKindAuthConflict else ErrKindAuthExpired) ""
      | _ => QrFetch ErrKindAuthExpired ""
      end
  end.

(** A session is [Ok] with its cookie or the error with the context after it; the pool and
    the single session differ in the error. *)
Definition SessionAnswer : Type := result (SessionError * option CtxDone) string.

Definition FetchQRContext (pool : bool) (session : SessionAnswer) (fetch : string → result QrError QrResponse)
    : result QrError QrResponse :=
  match session with
  | Ok cookie => fetch cookie
  | Err (e, ctx) => Err (if pool then qr_acquire_error ctx e else qr_refresh_error false ctx e)
  end.

(** The pool's session is acquired and then renewed; the single one only renewed. *)
Definition FetchQRWithFreshAuthContext (pool : bool) (acquire refresh : SessionAnswer)
    (fetch : string → result QrError QrResponse) : result QrError QrResponse :=
  match (if pool then acquire else Ok "") with
  | Err (e, ctx) => Err (qr_acquire_error ctx e)
  | Ok _ =>
      match refresh with
      | Ok cookie => fetch cookie
      | Err (e, ctx) => Err (qr_refresh_error pool ctx e)
      end
  end.

(** * Properties of the table *)

(** Every status but one survives the table; the label written for [AuthExpired] is not
    one of the enum's. *)
Lemma status_label_roundtrip s : s ≠ AuthExpired →
  roomStatusToString s ∈ room_status ∧ stringToRoomStatus (roomStatusToString s) = Ok s.
Proof.
  intros Hs. split; [|by destruct s].
  apply list_elem_of_In. destruct s; vm_compute; tauto.
Qed.

Lemma auth_expired_not_stored room t :
  rm_Status room = AuthExpired → repo_UpdateRoom room t = (t, Err (RoomInvalidStatus "authexpired")).
Proof. intros Hs. unfold repo_UpdateRoom. by rewrite Hs. Qed.

(** A room that was stored is read back, but for what the table has no column for. *)
Definition stored_form (room : Room) (createdAt : Z) : Room :=
  {| rm_RoomID := rm_RoomID room; rm_ClassID := rm_ClassID room; rm_Name := rm_Name room; rm_Status := rm_Status room;
     rm_QRURL := rm_QRURL room; rm_ExpiresAt := rm_ExpiresAt room; rm_LastUpdatedAt := rm_LastUpdatedAt room;
     rm_WarningMessage := rm_WarningMessage room; rm_ErrorMessage := rm_ErrorMessage room;
     rm_LastFetchAt := rm_LastFetchAt room; rm_UpstreamAttendanceLabel := None; rm_UpstreamVerifiedAt := None;
     rm_UpstreamVerificationError := None; rm_CreatedAt := createdAt |}.

Lemma scan_room_row room createdAt : rm_Status room ≠ AuthExpired →
  scanRoom (rm_RoomID room) (room_row room createdAt) = Ok (stored_form room createdAt).
Proof. intros Hs. unfold scanRoom. cbn. by rewrite (proj2 (status_label_roundtrip _ Hs)). Qed.

Lemma update_get room t row : t !! rm_RoomID room = Some row → rm_Status room ≠ AuthExpired →
  ∃ t', repo_UpdateRoom room t = (t', Ok room) ∧
        repo_GetRoom (rm_RoomID room) t' = Ok (stored_form room (rr_created_at row)) ∧
        ∀ id, id ≠ rm_RoomID room → repo_GetRoom id t' = repo_GetRoom id t.
Proof.
  intros Hr Hs. unfold repo_UpdateRoom. rewrite bool_decide_eq_true_2 by (by apply status_label_roundtrip).
  rewrite Hr. eexists. split; [done|]. unfold repo_GetRoom. split.
  - rewrite lookup_insert_eq. by apply scan_room_row.
  - intros id Hid. by rewrite lookup_insert_ne.
Qed.
