(* ===== verification/Rooms.v ===== *)
(** The room manager ([service/room_manager.go], [service/session_sync.go]): its state, and
    its operations as the sections of code between two points where other goroutines may
    run (a critical section of a mutex, a call of the repository or of the upstream site,
    a publication).  [RoomSystem] puts the sections together. *)

From stdpp Require Import base list numbers strings gmap.
From Stdlib Require Import ZArith Lia.
From S2P Require Import Prelude Domain EventHub Coordinator Upstream RoomRepo.

Local Open Scope Z_scope.
Local Open Scope stdpp_scope.
Local Open Scope go_scope.

Definition Millisecond : Z := 1000000.

Definition roomRecoveryInitialBackoff : Z := Second.
Definition roomRecoveryMaxBackoff : Z := 30 * Second.
Definition roomRecoveryMaxAttempts : nat := 10.
Definition minEmitInterval : Z := 5 * Second.

(** * State *)

Record CheckinUpdate := {
  cu_CourseID : string;
  cu_SessionID : string;
  cu_StudentID : string;
  cu_CheckedIn : bool;
  cu_ObservedAt : Z
}.

Record CheckinsUpdate := {
  cus_CourseID : string;
  cus_SessionID : string;
  cus_ObservedAt : Z;
  cus_Updates : list CheckinUpdate
}.

Inductive RoomData :=
| DataLite (r : RoomLite)
| DataChanged (r : RoomChanged)
| DataID (id : string)
| DataCheckin (u : CheckinUpdate)
| DataCheckins (u : CheckinsUpdate).

Definition RoomEvent : Type := AppEvent RoomData.

(** A context is the number under which [RoomManager] keeps it; [rst_persist] are the writes
    that persistRoomUpdate started and that have not ended (persistWG counts them). *)
Record RoomState := {
  rst_room : Room;
  rst_cancel : option nat;
  rst_done : option nat;
  rst_persist : list Room;
  rst_stopPersistPending : bool;
  rst_lastQrTime : Z;
  rst_courseID : string;
  rst_lastCheckins : option (gmap string bool);
  rst_lastSetDueAt : Z
}.

Definition new_state (room : Room) : RoomState :=
  {| rst_room := room; rst_cancel := None; rst_done := None; rst_persist := []; rst_stopPersistPending := false;
     rst_lastQrTime := 0; rst_courseID := ""; rst_lastCheckins := None; rst_lastSetDueAt := 0 |}.

(** The rooms are pointers, that is, indexes of [mgr_states]; a context is the room state it
    was made for and whether it is cancelled.  [mgr_stuck]: the mutex mu is held by a
    goroutine that is gone. *)
Record RoomManager := {
  mgr_rooms : gmap string nat;
  mgr_states : list RoomState;
  mgr_ctxs : list (nat * bool);
  mgr_lastEmittedAt : gmap string Z;
  mgr_emitSeqs : gmap string Z;
  mgr_table : RoomTable;
  mgr_stuck : bool
}.

Definition NewRoomManager (table : RoomTable) : RoomManager :=
  {| mgr_rooms := ∅; mgr_states := []; mgr_ctxs := []; mgr_lastEmittedAt := ∅; mgr_emitSeqs := ∅;
     mgr_table := table; mgr_stuck := false |}.

(** ** Updates of the state *)

Definition st_set_room (r : Room) (s : RoomState) : RoomState :=
  {| rst_room := r; rst_cancel := rst_cancel s; rst_done := rst_done s; rst_persist := rst_persist s;
     rst_stopPersistPending := rst_stopPersistPending s; rst_lastQrTime := rst_lastQrTime s;
     rst_courseID := rst_courseID s; rst_lastCheckins := rst_lastCheckins s; rst_lastSetDueAt := rst_lastSetDueAt s |}.

Definition st_set_cancel (c : option nat) (s : RoomState) : RoomState :=
  {| rst_room := rst_room s; rst_cancel := c; rst_done := rst_done s; rst_persist := rst_persist s;
     rst_stopPersistPending := rst_stopPersistPending s; rst_lastQrTime := rst_lastQrTime s;
     rst_courseID := rst_courseID s; rst_lastCheckins := rst_lastCheckins s; rst_lastSetDueAt := rst_lastSetDueAt s |}.

Definition st_set_done (d : option nat) (s : RoomState) : RoomState :=
  {| rst_room := rst_room s; rst_cancel := rst_cancel s; rst_done := d; rst_persist := rst_persist s;
     rst_stopPersistPending := rst_stopPersistPending s; rst_lastQrTime := rst_lastQrTime s;
     rst_courseID := rst_courseID s; rst_lastCheckins := rst_lastCheckins s; rst_lastSetDueAt := rst_lastSetDueAt s |}.

Definition st_set_persist (l : list Room) (s : RoomState) : RoomState :=
  {| rst_room := rst_room s; rst_cancel := rst_cancel s; rst_done := rst_done s; rst_persist := l;
     rst_stopPersistPending := rst_stopPersistPending s; rst_lastQrTime := rst_lastQrTime s;
     rst_courseID := rst_courseID s; rst_lastCheckins := rst_lastCheckins s; rst_lastSetDueAt := rst_lastSetDueAt s |}.

Definition st_set_pending (b : bool) (s : RoomState) : RoomState :=
  {| rst_room := rst_room s; rst_cancel := rst_cancel s; rst_done := rst_done s; rst_persist := rst_persist s;
     rst_stopPersistPending := b; rst_lastQrTime := rst_lastQrTime s;
     rst_courseID := rst_courseID s; rst_lastCheckins := rst_lastCheckins s; rst_lastSetDueAt := rst_lastSetDueAt s |}.

Definition st_set_qrTime (t : Z) (s : RoomState) : RoomState :=
  {| rst_room := rst_room s; rst_cancel := rst_cancel s; rst_done := rst_done s; rst_persist := rst_persist s;
     rst_stopPersistPending := rst_stopPersistPending s; rst_lastQrTime := t;
     rst_courseID := rst_courseID s; rst_lastCheckins := rst_lastCheckins s; rst_lastSetDueAt := rst_lastSetDueAt s |}.

Definition st_set_course (c : string) (s : RoomState) : RoomState :=
  {| rst_room := rst_room s; rst_cancel := rst_cancel s; rst_done := rst_done s; rst_persist := rst_persist s;
     rst_stopPersistPending := rst_stopPersistPending s; rst_lastQrTime := rst_lastQrTime s;
     rst_courseID := c; rst_lastCheckins := rst_lastCheckins s; rst_lastSetDueAt := rst_lastSetDueAt s |}.

Definition st_set_checkins (l : option (gmap string bool)) (s : RoomState) : RoomState :=
  {| rst_room := rst_room s; rst_cancel := rst_cancel s; rst_done := rst_done s; rst_persist := rst_persist s;
     rst_stopPersistPending := rst_stopPersistPending s; rst_lastQrTime := rst_lastQrTime s;
     rst_courseID := rst_courseID s; rst_lastCheckins := l; rst_lastSetDueAt := rst_lastSetDueAt s |}.

Definition st_set_due (t : Z) (s : RoomState) : RoomState :=
  {| rst_room := rst_room s; rst_cancel := rst_cancel s; rst_done := rst_done s; rst_persist := rst_persist s;
     rst_stopPersistPending := rst_stopPersistPending s; rst_lastQrTime := rst_lastQrTime s;
     rst_courseID := rst_courseID s; rst_lastCheckins := rst_lastCheckins s; rst_lastSetDueAt := t |}.

Definition mgr_set_states (l : list RoomState) (m : RoomManager) : RoomManager :=
  {| mgr_rooms := mgr_rooms m; mgr_states := l; mgr_ctxs := mgr_ctxs m; mgr_lastEmittedAt := mgr_lastEmittedAt m;
     mgr_emitSeqs := mgr_emitSeqs m; mgr_table := mgr_table m; mgr_stuck := mgr_stuck m |}.

Definition mgr_set_rooms (r : gmap string nat) (m : RoomManager) : RoomManager :=
  {| mgr_rooms := r; mgr_states := mgr_states m; mgr_ctxs := mgr_ctxs m; mgr_lastEmittedAt := mgr_lastEmittedAt m;
     mgr_emitSeqs := mgr_emitSeqs m; mgr_table := mgr_table m; mgr_stuck := mgr_stuck m |}.

Definition mgr_set_ctxs (c : list (nat * bool)) (m : RoomManager) : RoomManager :=
  {| mgr_rooms := mgr_rooms m; mgr_states := mgr_states m; mgr_ctxs := c; mgr_lastEmittedAt := mgr_lastEmittedAt m;
     mgr_emitSeqs := mgr_emitSeqs m; mgr_table := mgr_table m; mgr_stuck := mgr_stuck m |}.

Definition mgr_set_emit (l s : gmap string Z) (m : RoomManager) : RoomManager :=
  {| mgr_rooms := mgr_rooms m; mgr_states := mgr_states m; mgr_ctxs := mgr_ctxs m; mgr_lastEmittedAt := l;
     mgr_emitSeqs := s; mgr_table := mgr_table m; mgr_stuck := mgr_stuck m |}.

Definition mgr_set_table (t : RoomTable) (m : RoomManager) : RoomManager :=
  {| mgr_rooms := mgr_rooms m; mgr_states := mgr_states m; mgr_ctxs := mgr_ctxs m; mgr_lastEmittedAt := mgr_lastEmittedAt m;
     mgr_emitSeqs := mgr_emitSeqs m; mgr_table := t; mgr_stuck := mgr_stuck m |}.

Definition mgr_set_stuck (b : bool) (m : RoomManager) : RoomManager :=
  {| mgr_rooms := mgr_rooms m; mgr_states := mgr_states m; mgr_ctxs := mgr_ctxs m; mgr_lastEmittedAt := mgr_lastEmittedAt m;
     mgr_emitSeqs := mgr_emitSeqs m; mgr_table := mgr_table m; mgr_stuck := b |}.

(** Change one room state; the room in it. *)
Definition on_state (a : nat) (f : RoomState → RoomState) (m : RoomManager) : RoomManager :=
  mgr_set_states (alter f a (mgr_states m)) m.

Definition on_room (f : Room → Room) (s : RoomState) : RoomState := st_set_room (f (rst_room s)) s.

(** Context c is cancelled. *)
Definition ctx_done (m : RoomManager) (c : nat) : bool := match mgr_ctxs m !! c with Some (_, b) => b | None => false end.
Definition cancel_ctx (c : nat) (m : RoomManager) : RoomManager :=
  mgr_set_ctxs (alter (λ x, (x.1, true)) c (mgr_ctxs m)) m.

(** A transition whose refusal is only logged. *)
Definition try_transition (next : RoomStatus) (r : Room) : Room := (TransitionTo next r).1.

Definition set_qr (url : option string) (expires : option Z) (r : Room) : Room :=
  {| rm_RoomID := rm_RoomID r; rm_ClassID := rm_ClassID r; rm_Name := rm_Name r; rm_Status := rm_Status r;
     rm_QRURL := url; rm_ExpiresAt := expires; rm_LastUpdatedAt := rm_LastUpdatedAt r;
     rm_WarningMessage := rm_WarningMessage r; rm_ErrorMessage := rm_ErrorMessage r; rm_LastFetchAt := rm_LastFetchAt r;
     rm_UpstreamAttendanceLabel := rm_UpstreamAttendanceLabel r; rm_UpstreamVerifiedAt := rm_UpstreamVerifiedAt r;
     rm_UpstreamVerificationError := rm_UpstreamVerificationError r; rm_CreatedAt := rm_CreatedAt r |}.

Definition set_fetched (now : Z) (r : Room) : Room :=
  {| rm_RoomID := rm_RoomID r; rm_ClassID := rm_ClassID r; rm_Name := rm_Name r; rm_Status := rm_Status r;
     rm_QRURL := rm_QRURL r; rm_ExpiresAt := rm_ExpiresAt r; rm_LastUpdatedAt := Some now;
     rm_WarningMessage := rm_WarningMessage r; rm_ErrorMessage := rm_ErrorMessage r; rm_LastFetchAt := Some now;
     rm_UpstreamAttendanceLabel := rm_UpstreamAttendanceLabel r; rm_UpstreamVerifiedAt := rm_UpstreamVerifiedAt r;
     rm_UpstreamVerificationError := rm_UpstreamVerificationError r; rm_CreatedAt := rm_CreatedAt r |}.

Definition set_messages (warning error : option string) (r : Room) : Room :=
  {| rm_RoomID := rm_RoomID r; rm_ClassID := rm_ClassID r; rm_Name := rm_Name r; rm_Status := rm_Status r;
     rm_QRURL := rm_QRURL r; rm_ExpiresAt := rm_ExpiresAt r; rm_LastUpdatedAt := rm_LastUpdatedAt r;
     rm_WarningMessage := warning; rm_ErrorMessage := error; rm_LastFetchAt := rm_LastFetchAt r;
     rm_UpstreamAttendanceLabel := rm_UpstreamAttendanceLabel r; rm_UpstreamVerifiedAt := rm_UpstreamVerifiedAt r;
     rm_UpstreamVerificationError := rm_UpstreamVerificationError r; rm_CreatedAt := rm_CreatedAt r |}.

Definition set_upstream (label : option string) (at_ : option Z) (error : option string) (r : Room) : Room :=
  {| rm_RoomID := rm_RoomID r; rm_ClassID := rm_ClassID r; rm_Name := rm_Name r; rm_Status := rm_Status r;
     rm_QRURL := rm_QRURL r; rm_ExpiresAt := rm_ExpiresAt r; rm_LastUpdatedAt := rm_LastUpdatedAt r;
     rm_WarningMessage := rm_WarningMessage r; rm_ErrorMessage := rm_ErrorMessage r; rm_LastFetchAt := rm_LastFetchAt r;
     rm_UpstreamAttendanceLabel := label; rm_UpstreamVerifiedAt := at_;
     rm_UpstreamVerificationError := error; rm_CreatedAt := rm_CreatedAt r |}.

Definition set_error (error : option string) (r : Room) : Room := set_messages (rm_WarningMessage r) error r.
Definition set_warning (warning : option string) (r : Room) : Room := set_messages warning (rm_ErrorMessage r) r.

(** * Emission *)

(** Under emitMu: whether the change is emitted, and with which revision.  A room with a QR
    and a stopped one are never held back. *)
Definition emit_gate (now : Z) (room : Room) (m : RoomManager) : RoomManager * option Z :=
  let id := rm_RoomID room in
  let timeCritical := bool_decide (rm_QRURL room ≠ None) || bool_decide (rm_Status room = Stopped) in
  let held := match mgr_lastEmittedAt m !! id with
              | Some last => negb timeCritical && (time_Sub now last <? minEmitInterval)
              | None => false
              end in
  if held then (m, None)
  else
    let revision := wrap64 (default 0 (mgr_emitSeqs m !! id) + 1) in
    (mgr_set_emit (<[id := now]> (mgr_lastEmittedAt m)) (<[id := revision]> (mgr_emitSeqs m)) m, Some revision).

Definition room_events (room : Room) (revision : Z) : list RoomEvent :=
  [ {| ev_Type := "RoomUpdated"; ev_Data := DataLite (NewRoomLite room) |};
    {| ev_Type := "ROOM_CHANGED";
       ev_Data := DataChanged {| rc_RoomID := rm_RoomID room; rc_ClassID := rm_ClassID room; rc_Status := rm_Status room;
                    rc_ExpiresAt := rm_ExpiresAt room; rc_HasQR := bool_decide (rm_QRURL room ≠ None);
                    rc_Revision := revision |} |} ].

(** The events are published one after the other, after emitMu was released. *)
Definition emitRoomEvents (now : Z) (room : Room) (m : RoomManager) : RoomManager * list RoomEvent :=
  match emit_gate now room m with
  | (m', Some revision) => (m', room_events room revision)
  | (m', None) => (m', [])
  end.

Definition forget_emit (id : string) (m : RoomManager) : RoomManager :=
  mgr_set_emit (delete id (mgr_lastEmittedAt m)) (delete id (mgr_emitSeqs m)) m.

(** What a section leaves to do after its lock was released, in order. *)
Inductive Effect := EPersist (room : Room) | EEmit (room : Room) | EPublish (ev : RoomEvent).

(** * QR worker *)

Definition uint64_seconds (t : Z) : Z := wrap64 (wrap64 t * Second).

Definition shouldFetchQR (expiresAt : option Z) (lastQrTime now : Z) : bool :=
  match expiresAt with
  | None => true
  | Some e =>
      let ttl := if lastQrTime =? 0 then 60 else lastQrTime in
      let issuedAt := time_Add e (wrap64 (wrap64 (- wrap64 ttl) * Second)) in
      time_After now (time_Add issuedAt (uint64_seconds (CalculateNextFetchDelay ttl)))
  end.

(** A QR was fetched at [now]. *)
Definition fetched_room (resp : QrResponse) (now : Z) (r : Room) : Room :=
  set_fetched now (set_qr (Some (qr_URL resp)) (Some (time_Add now (uint64_seconds (qr_Time resp)))) r).

(** Critical sections of mu, on one room state: the new state, and what to do next. *)
Definition room_section (f : Room → Room) (effects : Room → list Effect) (a : nat) (m : RoomManager)
    : option (RoomManager * list Effect) :=
  if mgr_stuck m then None
  else
    s ← mgr_states m !! a;
    let r := f (rst_room s) in
    Some (on_state a (st_set_room r) m, effects r).

Definition persist_emit (r : Room) : list Effect := [EPersist r; EEmit r].

Definition handleNoQRClient : nat → RoomManager → option (RoomManager * list Effect) :=
  room_section (λ r, try_transition Stopped
                       (set_error (Some "QR client not available (session pool not initialized)") r)) persist_emit.

Definition handleRoomFetchSuccess (resp : QrResponse) (now : Z) (a : nat) (m : RoomManager)
    : option (RoomManager * list Effect) :=
  '(m', effects) ← room_section (λ r, set_messages None None (try_transition Running (fetched_room resp now r)))
                     persist_emit a m;
  Some (on_state a (st_set_qrTime (qr_Time resp)) m', effects).

Definition handleNonRecoverableError (e : QrError) : nat → RoomManager → option (RoomManager * list Effect) :=
  room_section (set_warning (Some ("Error: " +:+ qr_error_text e))) persist_emit.

Definition begin_fetch : nat → RoomManager → option (RoomManager * list Effect) :=
  room_section (try_transition Fetching) (λ r, [EEmit r]).

(** The status after a failed fetch, with the message when the session expired. *)
Definition failed_room (e : QrError) (r : Room) : Room :=
  let r1 := try_transition (match e with QrFetch kind _ => ToRoomStatus kind | QrCtx _ => Warning end) r in
  if bool_decide (rm_Status r1 = AuthExpired) then set_messages (Some "Session expired, retrying...") None r1 else r1.

Definition fetch_failed (e : QrError) : nat → RoomManager → option (RoomManager * list Effect) :=
  room_section (failed_room e)
    (λ r, if bool_decide (rm_Status r = AuthExpired) then persist_emit r else []).

(** Sections of recoveryLoop. *)
Definition recovered (resp : QrResponse) (now : Z) (a : nat) (m : RoomManager) : option (RoomManager * list Effect) :=
  '(m', effects) ← room_section
    (λ r, try_transition Running (try_transition Fetching (set_messages None None (fetched_room resp now r))))
    persist_emit a m;
  Some (on_state a (st_set_qrTime (qr_Time resp)) m', effects).

Definition recovery_conflict : nat → RoomManager → option (RoomManager * list Effect) :=
  room_section (λ r, try_transition Warning (set_messages (Some "Admin logged in, retrying...") None r)) persist_emit.

Definition recovery_invalid (msg : string) : nat → RoomManager → option (RoomManager * list Effect) :=
  room_section (λ r, try_transition Stopped (set_error (Some ("Invalid QR response: " +:+ msg)) r)) persist_emit.

(** After the last attempt.  Calling a nil cancel function panics with mu held. *)
Definition recovery_exhausted (a : nat) (m : RoomManager) : option (RoomManager * list Effect) :=
  '(m1, effects) ← room_section
    (λ r, try_transition Stopped (set_error (Some "Session recovery failed after 10 attempts") r)) persist_emit a m;
  s ← mgr_states m !! a;
  match rst_cancel s with
  | None => Some (mgr_set_stuck true m1, [])
  | Some c => Some (on_state a (st_set_cancel None) (cancel_ctx c m1), effects)
  end.

(** Where the worker is between two sections. *)
Inductive WorkerPC :=
| WStart
| WTick
| WBegin (classID : string) (now : Z)
| WFetch (classID : string) (now : Z)
| WFetched (classID : string) (now : Z) (r : result QrError QrResponse)
| WWarn (e : QrError)
| WRecover (classID : string) (attempts : nat) (backoff : Z)
| WRecovered (resp : QrResponse)
| WConflict
| WExhausted (classID : string) (attempts : nat) (backoff : Z)
| WInvalid (msg : string)
| WGiveUp
| WSleep.

(** What the environment decides: the clock, the branch of a select on the context, an
    answer of the site, the fate of a repository call, an iteration order. *)
Inductive Input :=
| InGo (now : Z)
| InCtx
| InQr (r : result QrError QrResponse)
| InLabel (r : result GoErr string)
| InCheckins (r : result GoErr (list StudentCheckin)) (now : Z) (order : list string)
| InConn (c : Conn) (dbnow : Z)
| InOrder (order : list string).

Definition recover_next (classID : string) (attempts : nat) (backoff : Z) : WorkerPC :=
  if decide (attempts < roomRecoveryMaxAttempts)%nat then WRecover classID attempts backoff else WGiveUp.

(** The answer to a fetch with fresh authentication. *)
Definition after_refetch (classID : string) (attempts : nat) (backoff : Z) (r : result QrError QrResponse) : WorkerPC :=
  match r with
  | Ok resp => WRecovered resp
  | Err (QrFetch ErrKindAuthConflict _) => WConflict
  | Err (QrFetch ErrKindPoolExhausted _) => WExhausted classID attempts backoff
  | Err (QrFetch ErrKindInvalidPayload msg) => WInvalid msg
  | Err _ => recover_next classID (S attempts) (Z.min (backoff * 2) roomRecoveryMaxBackoff)
  end.

(** A section that ends the goroutine, and one that goes on. *)
Definition and_end {P} (r : option (RoomManager * list Effect)) : option (RoomManager * list Effect * option P) :=
  '(m, e) ← r; Some (m, e, None).
Definition and_then {P} (p : P) (r : option (RoomManager * list Effect)) : option (RoomManager * list Effect * option P) :=
  '(m, e) ← r; Some (m, e, Some p).

(** runRoomWorker with roomWorkerTick and recoveryLoop, on room state [a] with context [c];
    [None] as the next point: the goroutine returned. *)
Definition worker_step (qrClient : bool) (a c : nat) (pc : WorkerPC) (i : Input) (m : RoomManager)
    : option (RoomManager * list Effect * option WorkerPC) :=
  match pc, i with
  | WStart, InGo _ => if qrClient then Some (m, [], Some WTick) else and_end (handleNoQRClient a m)
  | WTick, InGo now =>
      if mgr_stuck m then None
      else
        s ← mgr_states m !! a;
        Some (m, [], Some (if shouldFetchQR (rm_ExpiresAt (rst_room s)) (rst_lastQrTime s) now
                           then WBegin (rm_ClassID (rst_room s)) now else WSleep))
  | WBegin classID now, InGo _ => and_then (WFetch classID now) (begin_fetch a m)
  | WFetch classID now, InQr r => Some (m, [], if ctx_done m c then None else Some (WFetched classID now r))
  | WFetched classID now (Ok resp), InGo _ => and_then WSleep (handleRoomFetchSuccess resp now a m)
  | WFetched classID now (Err e), InGo _ =>
      s ← mgr_states m !! a;
      and_then (if bool_decide (rm_Status (failed_room e (rst_room s)) = AuthExpired)
                then WRecover classID 0 roomRecoveryInitialBackoff else WWarn e) (fetch_failed e a m)
  | WWarn e, InGo _ => and_then WSleep (handleNonRecoverableError e a m)
  | WRecover _ _ _, InCtx => if ctx_done m c then Some (m, [], None) else None
  | WRecover classID attempts backoff, InQr r => Some (m, [], Some (after_refetch classID attempts backoff r))
  | WRecovered resp, InGo now =>
      if mgr_stuck m then None
      else if ctx_done m c then Some (m, [], None)
      else and_then WSleep (recovered resp now a m)
  | WConflict, InGo _ => and_end (recovery_conflict a m)
  | WExhausted _ _ _, InCtx => if ctx_done m c then Some (m, [], None) else None
  | WExhausted classID attempts backoff, InGo _ => Some (m, [], Some (recover_next classID attempts backoff))
  | WInvalid msg, InGo _ => and_end (recovery_invalid msg a m)
  | WGiveUp, InGo _ => and_end (recovery_exhausted a m)
  | WSleep, InCtx => if ctx_done m c then Some (m, [], None) else None
  | WSleep, InGo _ => Some (m, [], Some WTick)
  | _, _ => None
  end.

(** * Attendance verification *)

Definition shouldRetryAttendanceVerification (err : option GoErr) : bool :=
  match err with
  | None => false
  | Some e => match err_Fetch e with Some kind => bool_decide (kind ≠ ErrKindInvalidPayload) | None => true end
  end.

Inductive AttendPC :=
| VStart
| VAttempt (roomID : string) (attempt : nat)
| VVerified (roomID label : string)
| VFailed (roomID : string).

(** Whether the room state is still the registered one and its worker runs. *)
Definition still_current (roomID : string) (a : nat) (m : RoomManager) : bool :=
  bool_decide (mgr_rooms m !! roomID = Some a) &&
  match mgr_states m !! a with Some s => bool_decide (rst_cancel s ≠ None) | None => false end.

(** runAttendanceVerification: three attempts, of which the second and third wait first. *)
Definition attend_step (a c : nat) (pc : AttendPC) (i : Input) (m : RoomManager)
    : option (RoomManager * list Effect * option AttendPC) :=
  match pc, i with
  | VStart, InGo _ =>
      if mgr_stuck m then None else s ← mgr_states m !! a; Some (m, [], Some (VAttempt (rm_RoomID (rst_room s)) 0))
  | VAttempt _ (S _), InCtx => if ctx_done m c then Some (m, [], None) else None
  | VAttempt roomID n, InLabel r =>
      let retry err := if ctx_done m c then None
                       else if negb (shouldRetryAttendanceVerification err) || bool_decide (n = 2%nat)
                       then Some (VFailed roomID) else Some (VAttempt roomID (S n)) in
      Some (m, [], match r with
                   | Ok label => if bool_decide (label = "") then retry None else Some (VVerified roomID label)
                   | Err e => retry (Some e)
                   end)
  | VVerified roomID label, InGo now =>
      if mgr_stuck m then None
      else if negb (still_current roomID a m) then Some (m, [], None)
      else and_end (room_section (set_upstream (Some label) (Some now) None) (λ r, [EEmit r]) a m)
  | VFailed roomID, InGo _ =>
      if mgr_stuck m then None
      else if negb (still_current roomID a m) then Some (m, [], None)
      else and_end (room_section (set_upstream None None
             (Some "Could not verify this QR against the Humantix attendance page.")) (λ r, [EEmit r]) a m)
  | _, _ => None
  end.

(** * Check-in synchronisation *)

Definition sessionSyncBaseInterval : Z := 3 * Second.
Definition sessionSyncJitter : Z := 2 * Second.
Definition sessionSyncMaxInterval : Z := 10 * Second.
Definition sessionSyncUnchangedToMax : Z := 7.
Definition sessionSyncRateLimitBackoff : Z := 30 * Second.
Definition sessionSyncSetDueMinInterval : Z := 3 * Second.
Definition sessionSyncMaxEventsPerCycle : nat := 8.

Definition checkinMap (students : list StudentCheckin) : gmap string bool :=
  foldl (λ acc s, <[sc_StudentID s := sc_CheckedIn s]> acc) ∅ students.

Definition growSyncInterval (unchanged : Z) : Z :=
  if sessionSyncUnchangedToMax <=? unchanged then sessionSyncMaxInterval
  else sessionSyncBaseInterval + unchanged * Second.

(** [r] is what rand.Int63n returned. *)
Definition jitteredSyncDelay (base r : Z) : Z := base + r.

(** The students that are new or whose state changed, in the order in which the map of the
    current states is walked. *)
Definition checkin_deltas (prev current : gmap string bool) (order : list string) : list (string * bool) :=
  omap (λ id, checked ← current !! id; if bool_decide (prev !! id = Some checked) then None else Some (id, checked)) order.

Definition checkin_update (courseID sessionID : string) (now : Z) (d : string * bool) : CheckinUpdate :=
  {| cu_CourseID := courseID; cu_SessionID := sessionID; cu_StudentID := d.1; cu_CheckedIn := d.2; cu_ObservedAt := now |}.

Definition delta_events (courseID sessionID : string) (now : Z) (updates : list CheckinUpdate) : list RoomEvent :=
  if decide (length updates ≤ sessionSyncMaxEventsPerCycle)%nat
  then map (λ u, {| ev_Type := "CHECKIN_UPDATED"; ev_Data := DataCheckin u |}) updates
  else [ {| ev_Type := "CHECKINS_UPDATED";
            ev_Data := DataCheckins {| cus_CourseID := courseID; cus_SessionID := sessionID; cus_ObservedAt := now;
                                       cus_Updates := updates |} |} ].

(** The updates, and the manager with the new baseline. *)
Definition publishCheckinDeltas (a : nat) (students : list StudentCheckin) (courseID sessionID : string) (now : Z)
    (order : list string) (m : RoomManager) : option (RoomManager * list CheckinUpdate) :=
  let current := checkinMap students in
  s ← mgr_states m !! a;
  if negb (walks order current) then None
  else
    Some (on_state a (st_set_checkins (Some current)) m,
          match rst_lastCheckins s with
          | None => []
          | Some prev => map (checkin_update courseID sessionID now) (checkin_deltas prev current order)
          end).

(** Whether a reconciliation is asked for now. *)
Definition triggerSyncReconcile (a : nat) (now : Z) (m : RoomManager) : option (RoomManager * bool) :=
  s ← mgr_states m !! a;
  if negb (time_IsZero (rst_lastSetDueAt s)) && (time_Sub now (rst_lastSetDueAt s) <? sessionSyncSetDueMinInterval)
  then Some (m, false) else Some (on_state a (st_set_due now) m, true).

(** The next interval and count after a fetch that failed. *)
Definition sync_after_error (e : GoErr) (unchanged : Z) : Z * Z :=
  if bool_decide (err_Fetch e = Some ErrKindRateLimited) || err_AuthExpired e || err_AuthConflict e
  then (sessionSyncRateLimitBackoff, unchanged)
  else if bool_decide (err_Fetch e = Some ErrKindPoolExhausted) then (growSyncInterval unchanged, unchanged)
  else (growSyncInterval (unchanged + 1), unchanged + 1).

Inductive SyncPC :=
| YStart
| YSeed (sessionID courseID : string)
| YLoop (sessionID courseID : string) (interval unchanged : Z)
| YTrigger (sessionID courseID : string) (now : Z)
| YSetDue (sessionID courseID : string).

(** runSessionSyncLoop with sessionSyncCycle; SetDueNow is a call out of the manager. *)
Definition sync_step (a c : nat) (pc : SyncPC) (i : Input) (m : RoomManager)
    : option (RoomManager * list Effect * option SyncPC) :=
  match pc, i with
  | YStart, InGo _ =>
      s ← mgr_states m !! a;
      let sessionID := rm_ClassID (rst_room s) in
      let courseID := rst_courseID s in
      Some (m, [], if bool_decide (sessionID = "") || bool_decide (courseID = "") then None
                   else Some (YSeed sessionID courseID))
  | YSeed sessionID courseID, InCheckins r _ _ =>
      let next := Some (YLoop sessionID courseID sessionSyncBaseInterval 0) in
      match r with
      | Ok students => Some (on_state a (st_set_checkins (Some (checkinMap students))) m, [], next)
      | Err _ => Some (m, [], next)
      end
  | YLoop _ _ _ _, InCtx => if ctx_done m c then Some (m, [], None) else None
  | YLoop sessionID courseID _ unchanged, InCheckins (Err e) _ _ =>
      let '(interval, unchanged') := sync_after_error e unchanged in
      Some (m, [], Some (YLoop sessionID courseID interval unchanged'))
  | YLoop sessionID courseID _ unchanged, InCheckins (Ok students) now order =>
      r ← publishCheckinDeltas a students courseID sessionID now order m;
      Some (match r.2 with
            | [] => (r.1, [], Some (YLoop sessionID courseID (growSyncInterval (unchanged + 1)) (unchanged + 1)))
            | updates => (r.1, map EPublish (delta_events courseID sessionID now updates),
                          Some (YTrigger sessionID courseID now))
            end)
  | YTrigger sessionID courseID now, InGo _ =>
      r ← triggerSyncReconcile a now m;
      Some (r.1, [], Some (if r.2 : bool then YSetDue sessionID courseID
                           else YLoop sessionID courseID sessionSyncBaseInterval 0))
  | YSetDue sessionID courseID, InGo _ => Some (m, [], Some (YLoop sessionID courseID sessionSyncBaseInterval 0))
  | _, _ => None
  end.

(** * Operations of the manager *)

Inductive RoomError :=
| RErrNotFound
| RErrSessionRequired
| RErrRepo (e : RoomRepoError)
| RErrStop (id : string) (e : DomainError)
| RErrRecover (id : string) (e : DomainError)
| RErrPersist (id : string) (e : RoomRepoError)
| RErrCtx.

Definition start_room (r : Room) : Room :=
  let r1 := if bool_decide (rm_Status r = Running) then r else set_messages None None (set_qr None None r) in
  try_transition Running (set_upstream None None None r1).

(** The critical section of StartRoom; with it the room state and the context of the
    goroutines to start, when there are any. *)
Definition StartRoom (id : string) (now : Z) (m : RoomManager)
    : option (RoomManager * list Effect * result RoomError (option (nat * nat))) :=
  if mgr_stuck m then None
  else
    match mgr_rooms m !! id with
    | None => Some (m, [], Err RErrNotFound)
    | Some a =>
        s ← mgr_states m !! a;
        match rst_cancel s with
        | Some _ => Some (m, [], Ok None)
        | None =>
            let c := length (mgr_ctxs m) in
            let r := start_room (rst_room s) in
            let m1 := on_state a (λ s, st_set_done (Some c) (st_set_cancel (Some c) (st_set_room r s)))
                        (mgr_set_ctxs (mgr_ctxs m ++ [(a, false)]) m) in
            let '(m2, events) := emitRoomEvents now r m1 in
            Some (m2, map EPublish events, Ok (Some (a, c)))
        end
    end.

(** Cancel the worker of a room state, if there is one. *)
Definition cancel_worker (s : RoomState) (m : RoomManager) : RoomManager :=
  match rst_cancel s with Some c => cancel_ctx c m | None => m end.

Definition StopRoom (id : string) (now : Z) (m : RoomManager)
    : option (RoomManager * list Effect * result RoomError unit) :=
  if mgr_stuck m then None
  else
    match mgr_rooms m !! id with
    | None => Some (m, [], Err RErrNotFound)
    | Some a =>
        s ← mgr_states m !! a;
        let r := set_qr None None (try_transition Stopped (rst_room s)) in
        let m1 := on_state a (λ s, st_set_persist (rst_persist s ++ [r]) (st_set_cancel None (st_set_room r s)))
                    (cancel_worker s m) in
        let '(m2, events) := emitRoomEvents now r m1 in
        Some (m2, map EPublish events, Ok tt)
    end.

(** DeleteRoom after the row was deleted. *)
Definition delete_registered (id : string) (m : RoomManager) : option RoomManager :=
  if mgr_stuck m then None
  else
    match mgr_rooms m !! id with
    | None => Some m
    | Some a =>
        let m1 := match mgr_states m !! a with Some s => cancel_worker s m | None => m end in
        Some (mgr_set_rooms (delete id (mgr_rooms m1)) m1)
    end.

(** A new room state under an id, over whatever is there. *)
Definition register (room : Room) (m : RoomManager) : option RoomManager :=
  if mgr_stuck m then None
  else Some (mgr_set_rooms (<[rm_RoomID room := length (mgr_states m)]> (mgr_rooms m))
               (mgr_set_states (mgr_states m ++ [new_state room]) m)).

(** CreateRoom when the row exists: registered under the id asked for unless it is. *)
Definition register_existing (id : string) (room : Room) (m : RoomManager) : option RoomManager :=
  if mgr_stuck m then None
  else
    match mgr_rooms m !! id with
    | Some _ => Some m
    | None => Some (mgr_set_rooms (<[id := length (mgr_states m)]> (mgr_rooms m))
                      (mgr_set_states (mgr_states m ++ [new_state room]) m))
    end.

(** EnsureSessionRoom after CreateRoom: whether the room has to be started. *)
Definition ensure_course (id courseID : string) (m : RoomManager) : option (RoomManager * option bool) :=
  if mgr_stuck m then None
  else
    match mgr_rooms m !! id with
    | None => Some (m, None)
    | Some a =>
        s ← mgr_states m !! a;
        let s' := if bool_decide (rst_courseID s = "") && bool_decide (courseID ≠ "") then st_set_course courseID s else s in
        Some (on_state a (λ _, s') m, Some (bool_decide (rst_cancel s = None)))
    end.

Definition GetRoom (id : string) (m : RoomManager) : option Room :=
  a ← mgr_rooms m !! id; s ← mgr_states m !! a; Some (rst_room s).

(** In any order. *)
Definition GetAllRooms (m : RoomManager) : list Room := omap (λ p, GetRoom p.1 m) (map_to_list (mgr_rooms m)).

Definition LoadRoomsFromDB (m : RoomManager) : option (result RoomError RoomManager) :=
  match repo_GetAllRooms (mgr_table m) with
  | Err e => Some (Err (RErrRepo e))
  | Ok rooms => m' ← foldl (λ m room, m ← m; register room m) (Some m) rooms; Some (Ok m')
  end.

(** A room whose QR is not served any more. *)
Definition room_expired (now : Z) (r : Room) : bool :=
  bool_decide (rm_QRURL r ≠ None) &&
  (match rm_ExpiresAt r with None => true | Some e => time_Before e now end ||
   bool_decide (rm_Status r = Stopped ∨ rm_Status r = Idle)).

Definition clear_room (now : Z) (m : RoomManager) (id : string) : RoomManager :=
  match mgr_rooms m !! id with
  | Some a => on_state a (on_room (λ r, if room_expired now r then set_qr None None r else r)) m
  | None => m
  end.

(** The critical section of ClearExpiredQRs. *)
Definition clear_expired (now : Z) (order : list string) (m : RoomManager) : option RoomManager :=
  if mgr_stuck m || negb (walks order (mgr_rooms m)) then None else Some (foldl (clear_room now) m order).

(** RetainRooms after its rows were deleted. *)
Definition drop_rooms (ids : list string) (m : RoomManager) : option RoomManager :=
  if mgr_stuck m then None else Some (mgr_set_rooms (foldr delete (mgr_rooms m) ids) m).

Definition forget_emits (ids : list string) (m : RoomManager) : RoomManager := foldl (λ m id, forget_emit id m) m ids.

(** A room that StopAllActiveRooms stops: the copy it writes, the room state, and the
    goroutines to wait for. *)
Record StoppedRoom := { sr_room : Room; sr_state : nat; sr_done : option nat }.

(** One room of the loop of StopAllActiveRooms. *)
Definition stop_one (id : string) (m : RoomManager) : RoomManager * result RoomError (option StoppedRoom) :=
  match (a ← mgr_rooms m !! id; s ← mgr_states m !! a; Some (a, s)) with
  | None => (m, Ok None)
  | Some (a, s) =>
      match rst_cancel s with
      | None =>
          (m, Ok (if rst_stopPersistPending s
                  then Some {| sr_room := rst_room s; sr_state := a; sr_done := rst_done s |} else None))
      | Some c =>
          let m1 := on_state a (st_set_cancel None) (cancel_ctx c m) in
          match TransitionTo Stopped (rst_room s) with
          | (_, Err e) => (m1, Err (RErrStop (rm_RoomID (rst_room s)) e))
          | (r, Ok _) =>
              (on_state a (λ s, st_set_pending true (st_set_room r s)) m1,
               Ok (Some {| sr_room := r; sr_state := a; sr_done := rst_done s |}))
          end
      end
  end.

(** The loop; an error ends it with the rooms before it already stopped. *)
Fixpoint stop_all (ids : list string) (m : RoomManager) : RoomManager * result RoomError (list StoppedRoom) :=
  match ids with
  | [] => (m, Ok [])
  | id :: ids' =>
      match stop_one id m with
      | (m1, Err e) => (m1, Err e)
      | (m1, Ok item) =>
          match stop_all ids' m1 with
          | (m2, Err e) => (m2, Err e)
          | (m2, Ok l) => (m2, Ok (match item with Some x => x :: l | None => l end))
          end
      end
  end.

(** One room of the loop of RecoverLoadedRooms. *)
Definition recover_one (id : string) (m : RoomManager) : RoomManager * result RoomError (option nat) :=
  match (a ← mgr_rooms m !! id; s ← mgr_states m !! a; Some (a, s)) with
  | None => (m, Ok None)
  | Some (a, s) =>
      if bool_decide (rm_Status (rst_room s) = Idle ∨ rm_Status (rst_room s) = Stopped) then (m, Ok None)
      else
        match TransitionTo Stopped (rst_room s) with
        | (_, Err e) => (m, Err (RErrRecover (rm_RoomID (rst_room s)) e))
        | (r, Ok _) => (on_state a (λ s, st_set_pending true (st_set_room r s)) m, Ok (Some a))
        end
  end.

Fixpoint recover_all (ids : list string) (m : RoomManager) : RoomManager * result RoomError (list nat) :=
  match ids with
  | [] => (m, Ok [])
  | id :: ids' =>
      match recover_one id m with
      | (m1, Err e) => (m1, Err e)
      | (m1, Ok item) =>
          match recover_all ids' m1 with
          | (m2, Err e) => (m2, Err e)
          | (m2, Ok l) => (m2, Ok (match item with Some x => x :: l | None => l end))
          end
      end
  end.
