(* ===== verification/RoomSystem.v ===== *)
(** The goroutines of the room manager as a transition system: every call of its API, the
    worker, verification and synchronisation goroutines that StartRoom starts, and the
    writes of persistRoomUpdate, interleaved at the sections of [Rooms]. *)

From stdpp Require Import base list numbers strings gmap relations.
From Stdlib Require Import ZArith Lia.
From S2P Require Import Prelude Domain EventHub Coordinator Upstream RoomRepo Rooms.

Local Open Scope Z_scope.
Local Open Scope stdpp_scope.
Local Open Scope go_scope.

(** Which parts are wired: the QR client, the label source, the sync driver. *)
Record RoomConfig := { cf_qrClient : bool; cf_labels : bool; cf_sync : bool }.

(** Where a call is.  [next] is the course of the EnsureSessionRoom that CreateRoom is part of;
    [errs] are the errors joined so far. *)
Inductive ApiPC :=
| CStart (id : string)
| CStop (id : string)
| CDelete (id : string)
| CDeleteMem (id : string)
| CDeleteEmit (id : string)
| CCreate (id classID : string) (name : option string) (next : option string)
| CCreateExisting (id : string) (room : Room) (next : option string)
| CCreateInsert (id classID : string) (name : option string) (next : option string)
| CCreateSaved (room : Room) (next : option string)
| CEnsure (id courseID : string)
| CEnsureStart (id : string)
| CLoad
| CRecover
| CRecoverWrite (pending : list nat) (errs : list RoomError)
| CRecoverClear (a : nat) (pending : list nat) (errs : list RoomError)
| CClear (now : Z)
| CClearRows (now : Z)
| CRetain (cutoff : Z)
| CRetainMem (ids : list string)
| CRetainEmit (ids : list string)
| CStopAll
| CStopWrite (items : list StoppedRoom) (errs : list RoomError)
| CStopWait (item : StoppedRoom) (items : list StoppedRoom) (errs : list RoomError)
| CStopPersist (item : StoppedRoom) (items : list StoppedRoom) (errs : list RoomError)
| CStopRewrite (item : StoppedRoom) (items : list StoppedRoom) (errs : list RoomError)
| CStopClear (item : StoppedRoom) (items : list StoppedRoom) (errs : list RoomError)
| CDone (errs : list RoomError).

(** The calls of the API. *)
Definition is_call (pc : ApiPC) : bool :=
  match pc with
  | CStart _ | CStop _ | CDelete _ | CCreate _ _ _ None | CLoad | CRecover | CClear _ | CRetain _ | CStopAll => true
  | CCreate id classID None (Some _) => bool_decide (classID = id) && bool_decide (id ≠ "")
  | _ => false
  end.

(** A goroutine of the group that StartRoom starts for room state [a] with context [c], or a
    call; the goroutine is over when nothing is left of its last section. *)
Inductive Job :=
| JWorker (a c : nat) (pc : WorkerPC)
| JAttend (a c : nat) (pc : AttendPC)
| JSync (a c : nat) (pc : SyncPC)
| JEnd (a c : nat)
| JApi (pc : ApiPC).

Record Thread := { th_effects : list Effect; th_job : Job }.

Definition job_group (j : Job) : option (nat * nat) :=
  match j with JWorker a c _ | JAttend a c _ | JSync a c _ | JEnd a c => Some (a, c) | JApi _ => None end.

(** The goroutine still runs, for context [c]. *)
Definition running_for (c : nat) (t : Thread) : Prop :=
  (∃ a, job_group (th_job t) = Some (a, c)) ∧ ∀ a, t ≠ {| th_effects := []; th_job := JEnd a c |}.
#[export] Instance running_for_dec c t : Decision (running_for c t).
Proof.
  refine (match t with
          | {| th_effects := es; th_job := JWorker a c' pc |} => cast_if (decide (c' = c))
          | {| th_effects := es; th_job := JAttend a c' pc |} => cast_if (decide (c' = c))
          | {| th_effects := es; th_job := JSync a c' pc |} => cast_if (decide (c' = c))
          | {| th_effects := []; th_job := JEnd a c' |} => right _
          | {| th_effects := e :: es; th_job := JEnd a c' |} => cast_if (decide (c' = c))
          | {| th_effects := es; th_job := JApi pc |} => right _
          end); unfold running_for; naive_solver.
Defined.

(** [sy_lifecycle]: the call that holds lifecycleMu. *)
Record RoomSys := {
  sy_mgr : RoomManager;
  sy_threads : gmap nat Thread;
  sy_next : nat;
  sy_lifecycle : option nat;
  sy_events : list RoomEvent
}.

Definition initial (table : RoomTable) : RoomSys :=
  {| sy_mgr := NewRoomManager table; sy_threads := ∅; sy_next := 0; sy_lifecycle := None; sy_events := [] |}.

(** The goroutines of the group have ended: the channel done is closed. *)
Definition group_done (c : nat) (threads : gmap nat Thread) : Prop :=
  map_Forall (λ _ t, ¬ running_for c t) threads.
#[export] Instance group_done_dec c threads : Decision (group_done c threads).
Proof. unfold group_done. apply _. Defined.

(** ** Calls *)

(** What a section of a call gives: the manager, who holds lifecycleMu, what is left to do,
    where the call goes on, and a group of goroutines to start. *)
Definition ApiResult : Type := RoomManager * option nat * list Effect * ApiPC * option (nat * nat).

Definition after_create (id : string) (next : option string) : ApiPC :=
  match next with Some courseID => CEnsure id courseID | None => CDone [] end.

Definition err_list {A} (r : result RoomError A) : list RoomError := match r with Ok _ => [] | Err e => [e] end.

(** The next room of StopAllActiveRooms, or its end, where lifecycleMu is released. *)
Definition stop_next (tid : nat) (items : list StoppedRoom) (errs : list RoomError) : option nat * ApiPC :=
  match items with [] => (None, CDone errs) | _ => (Some tid, CStopWrite items errs) end.

(** StartRoom and StopRoom hold lifecycleMu and mu throughout. *)
Definition start_stop_step (tid : nat) (pc : ApiPC) (i : Input) (s : RoomSys) : option ApiResult :=
  let m := sy_mgr s in
  let life := sy_lifecycle s in
  match pc, i with
  | CStart id, InGo now =>
      if life then None
      else r ← StartRoom id now m;
           Some (r.1.1, None, r.1.2, CDone (err_list r.2), match r.2 with Ok g => g | Err _ => None end)
  | CStop id, InGo now =>
      if life then None
      else r ← StopRoom id now m; Some (r.1.1, None, r.1.2, CDone (err_list r.2), None)
  | _, _ => None
  end.

(** DeleteRoom, under lifecycleMu. *)
Definition DeleteRoom_step (tid : nat) (pc : ApiPC) (i : Input) (s : RoomSys) : option ApiResult :=
  let m := sy_mgr s in
  let life := sy_lifecycle s in
  match pc, i with
  | CDelete id, InConn conn _ =>
      if life then None
      else
        let '(t, r) := over conn (repo_DeleteRoom id (mgr_table m)) (mgr_table m) in
        match r with
        | Err e => Some (mgr_set_table t m, None, [], CDone [RErrRepo e], None)
        | Ok _ => Some (mgr_set_table t m, Some tid, [], CDeleteMem id, None)
        end
  | CDeleteMem id, InGo _ => m' ← delete_registered id m; Some (m', life, [], CDeleteEmit id, None)
  | CDeleteEmit id, InGo _ =>
      Some (forget_emit id m, None, [EPublish {| ev_Type := "RoomDeleted"; ev_Data := DataID id |}], CDone [], None)
  | _, _ => None
  end.

(** CreateRoom. *)
Definition CreateRoom_step (tid : nat) (pc : ApiPC) (i : Input) (s : RoomSys) : option ApiResult :=
  let m := sy_mgr s in
  let life := sy_lifecycle s in
  match pc, i with
  | CCreate id classID name next, InConn conn _ =>
      let '(_, r) := over conn (mgr_table m, repo_GetRoom id (mgr_table m)) (mgr_table m) in
      Some (m, life, [], match r with
                         | Ok room => if bool_decide (rm_RoomID room = "") then CCreateInsert id classID name next
                                      else CCreateExisting id room next
                         | Err _ => CCreateInsert id classID name next
                         end, None)
  | CCreateExisting id room next, InGo _ =>
      m' ← register_existing id room m; Some (m', life, [], after_create id next, None)
  | CCreateInsert id classID name next, InConn conn dbnow =>
      let '(t, r) := over conn (repo_CreateRoom (NewRoom id classID name) dbnow (mgr_table m)) (mgr_table m) in
      Some (mgr_set_table t m, life, [], match r with
                                         | Ok saved => CCreateSaved saved next
                                         | Err e => CDone [RErrRepo e]
                                         end, None)
  | CCreateSaved room next, InGo _ =>
      m' ← register room m;
      Some (m', life, [EPublish {| ev_Type := "RoomCreated"; ev_Data := DataLite (NewRoomLite room) |}; EEmit room],
            after_create (rm_RoomID room) next, None)
  | _, _ => None
  end.

(** EnsureSessionRoom after CreateRoom. *)
Definition EnsureSessionRoom_step (tid : nat) (pc : ApiPC) (i : Input) (s : RoomSys) : option ApiResult :=
  let m := sy_mgr s in
  let life := sy_lifecycle s in
  match pc, i with
  | CEnsure id courseID, InGo _ =>
      r ← ensure_course id courseID m;
      Some (r.1, life, [], if r.2 is Some true then CEnsureStart id else CDone [], None)
  | CEnsureStart id, InGo now =>
      if life then None
      else r ← StartRoom id now m;
           Some (r.1.1, None, r.1.2, CDone (err_list r.2), match r.2 with Ok g => g | Err _ => None end)
  | _, _ => None
  end.

(** LoadRoomsFromDB. *)
Definition LoadRoomsFromDB_step (tid : nat) (pc : ApiPC) (i : Input) (s : RoomSys) : option ApiResult :=
  let m := sy_mgr s in
  let life := sy_lifecycle s in
  match pc, i with
  | CLoad, InGo _ =>
      r ← LoadRoomsFromDB m;
      Some (match r with Ok m' => (m', life, [], CDone [], None) | Err e => (m, life, [], CDone [e], None) end)
  | _, _ => None
  end.

(** RecoverLoadedRooms, under lifecycleMu. *)
Definition RecoverLoadedRooms_step (tid : nat) (pc : ApiPC) (i : Input) (s : RoomSys) : option ApiResult :=
  let m := sy_mgr s in
  let life := sy_lifecycle s in
  match pc, i with
  | CRecover, InOrder order =>
      if life then None
      else if mgr_stuck m || negb (walks order (mgr_rooms m)) then None
      else Some (match recover_all order m with
                 | (m', Err e) => (m', None, [], CDone [e], None)
                 | (m', Ok pending) => (m', Some tid, [], CRecoverWrite pending [], None)
                 end)
  | CRecoverWrite [] errs, InGo _ => Some (m, None, [], CDone errs, None)
  | CRecoverWrite (a :: pending) errs, InConn conn _ =>
      st ← mgr_states m !! a;
      let '(t, r) := over conn (repo_UpdateRoom (rst_room st) (mgr_table m)) (mgr_table m) in
      Some (mgr_set_table t m, life, [],
            match r with
            | Ok _ => CRecoverClear a pending errs
            | Err e => CRecoverWrite pending (errs ++ [RErrPersist (rm_RoomID (rst_room st)) e])
            end, None)
  | CRecoverClear a pending errs, InGo _ =>
      if mgr_stuck m then None
      else Some (on_state a (st_set_pending false) m, life, [], CRecoverWrite pending errs, None)
  | _, _ => None
  end.

(** ClearExpiredQRs: memory, then the table. *)
Definition ClearExpiredQRs_step (tid : nat) (pc : ApiPC) (i : Input) (s : RoomSys) : option ApiResult :=
  let m := sy_mgr s in
  let life := sy_lifecycle s in
  match pc, i with
  | CClear now, InOrder order => m' ← clear_expired now order m; Some (m', life, [], CClearRows now, None)
  | CClearRows now, InConn conn _ =>
      let '(t, n) := ClearExpiredRoomQRs now (mgr_table m) in
      let '(t', r) := over conn (t, Ok n) (mgr_table m) in
      Some (mgr_set_table t' m, life, [], CDone (match r with Ok _ => [] | Err e => [RErrRepo e] end), None)
  | _, _ => None
  end.

(** RetainRooms: the table, then memory. *)
Definition RetainRooms_step (tid : nat) (pc : ApiPC) (i : Input) (s : RoomSys) : option ApiResult :=
  let m := sy_mgr s in
  let life := sy_lifecycle s in
  match pc, i with
  | CRetain cutoff, InConn conn _ =>
      let '(t, ids) := DeleteStaleRooms cutoff (mgr_table m) in
      let '(t', r) := over conn (t, Ok ids) (mgr_table m) in
      Some (mgr_set_table t' m, life, [],
            match r with Err e => CDone [RErrRepo e] | Ok [] => CDone [] | Ok ids => CRetainMem ids end, None)
  | CRetainMem ids, InGo _ => m' ← drop_rooms ids m; Some (m', life, [], CRetainEmit ids, None)
  | CRetainEmit ids, InGo _ => Some (forget_emits ids m, life, [], CDone [], None)
  | _, _ => None
  end.

(** StopAllActiveRooms, under lifecycleMu: each room is written, its goroutines and older writes
    are waited for, and it is written again. *)
Definition StopAllActiveRooms_step (tid : nat) (pc : ApiPC) (i : Input) (s : RoomSys) : option ApiResult :=
  let m := sy_mgr s in
  let life := sy_lifecycle s in
  match pc, i with
  | CStopAll, InOrder order =>
      if life then None
      else if mgr_stuck m || negb (walks order (mgr_rooms m)) then None
      else Some (match stop_all order m with
                 | (m', Err e) => (m', None, [], CDone [e], None)
                 | (m', Ok items) => let '(life', pc') := stop_next tid items [] in (m', life', [], pc', None)
                 end)
  | CStopWrite (item :: items) errs, InConn conn _ =>
      let '(t, r) := over conn (repo_UpdateRoom (sr_room item) (mgr_table m)) (mgr_table m) in
      let errs' := match r with Ok _ => errs | Err e => errs ++ [RErrPersist (rm_RoomID (sr_room item)) e] end in
      Some (mgr_set_table t m, life, [], CStopWait item items errs', None)
  | CStopWait item items errs, InGo _ =>
      if match sr_done item with Some c => bool_decide (group_done c (sy_threads s)) | None => true end
      then Some (m, life, [], CStopPersist item items errs, None) else None
  | CStopWait item items errs, InCtx =>
      if sr_done item then Some (m, None, [], CDone (errs ++ [RErrCtx]), None) else None
  | CStopPersist item items errs, _ =>
      st ← mgr_states m !! sr_state item;
      match rst_persist st, i with
      | [], InGo _ => Some (m, life, [], CStopRewrite item items errs, None)
      | [], InCtx => Some (m, None, [], CDone (errs ++ [RErrCtx]), None)
      | _, _ => None
      end
  | CStopRewrite item items errs, InConn conn _ =>
      let '(t, r) := over conn (repo_UpdateRoom (sr_room item) (mgr_table m)) (mgr_table m) in
      match r with
      | Ok _ => Some (mgr_set_table t m, life, [], CStopClear item items errs, None)
      | Err e =>
          let '(life', pc') := stop_next tid items (errs ++ [RErrPersist (rm_RoomID (sr_room item)) e]) in
          Some (mgr_set_table t m, life', [EEmit (sr_room item)], pc', None)
      end
  | CStopClear item items errs, InGo _ =>
      if mgr_stuck m then None
      else
        let '(life', pc') := stop_next tid items errs in
        Some (on_state (sr_state item) (st_set_pending false) m, life', [EEmit (sr_room item)], pc', None)
  | _, _ => None
  end.

Definition api_step (tid : nat) (pc : ApiPC) (i : Input) (s : RoomSys) : option ApiResult :=
  match pc with
  | CStart _ | CStop _ => start_stop_step tid pc i s
  | CDelete _ | CDeleteMem _ | CDeleteEmit _ => DeleteRoom_step tid pc i s
  | CCreate _ _ _ _ | CCreateExisting _ _ _ | CCreateInsert _ _ _ _ | CCreateSaved _ _ => CreateRoom_step tid pc i s
  | CEnsure _ _ | CEnsureStart _ => EnsureSessionRoom_step tid pc i s
  | CLoad => LoadRoomsFromDB_step tid pc i s
  | CRecover | CRecoverWrite _ _ | CRecoverClear _ _ _ => RecoverLoadedRooms_step tid pc i s
  | CClear _ | CClearRows _ => ClearExpiredQRs_step tid pc i s
  | CRetain _ | CRetainMem _ | CRetainEmit _ => RetainRooms_step tid pc i s
  | CStopAll | CStopWrite _ _ | CStopWait _ _ _ | CStopPersist _ _ _ | CStopRewrite _ _ _ | CStopClear _ _ _ =>
      StopAllActiveRooms_step tid pc i s
  | CDone _ => None
  end.

(** ** Steps *)

Definition set_thread (tid : nat) (t : Thread) (s : RoomSys) : RoomSys :=
  {| sy_mgr := sy_mgr s; sy_threads := <[tid := t]> (sy_threads s); sy_next := sy_next s;
     sy_lifecycle := sy_lifecycle s; sy_events := sy_events s |}.

Definition set_mgr (m : RoomManager) (s : RoomSys) : RoomSys :=
  {| sy_mgr := m; sy_threads := sy_threads s; sy_next := sy_next s; sy_lifecycle := sy_lifecycle s;
     sy_events := sy_events s |}.

Definition set_lifecycle (l : option nat) (s : RoomSys) : RoomSys :=
  {| sy_mgr := sy_mgr s; sy_threads := sy_threads s; sy_next := sy_next s; sy_lifecycle := l; sy_events := sy_events s |}.

Definition publish (ev : RoomEvent) (s : RoomSys) : RoomSys :=
  {| sy_mgr := sy_mgr s; sy_threads := sy_threads s; sy_next := sy_next s; sy_lifecycle := sy_lifecycle s;
     sy_events := sy_events s ++ [ev] |}.

Definition spawn (j : Job) (s : RoomSys) : RoomSys :=
  {| sy_mgr := sy_mgr s; sy_threads := <[sy_next s := {| th_effects := []; th_job := j |}]> (sy_threads s);
     sy_next := S (sy_next s); sy_lifecycle := sy_lifecycle s; sy_events := sy_events s |}.

(** The goroutines StartRoom starts. *)
Definition spawn_group (cfg : RoomConfig) (a c : nat) (s : RoomSys) : RoomSys :=
  let s1 := if cf_labels cfg then spawn (JAttend a c VStart) s else s in
  let s2 := spawn (JWorker a c WStart) s1 in
  let course := match mgr_states (sy_mgr s) !! a with Some st => rst_courseID st | None => "" end in
  if cf_sync cfg && bool_decide (course ≠ "") then spawn (JSync a c YStart) s2 else s2.

(** The first thing a section left to do. *)
Definition effect_step (tid : nat) (j : Job) (e : Effect) (es : list Effect) (i : Input) (s : RoomSys) : option RoomSys :=
  match e, i with
  | EPersist room, InGo _ =>
      g ← job_group j;
      Some (set_thread tid {| th_effects := es; th_job := j |}
              (set_mgr (on_state g.1 (λ st, st_set_persist (rst_persist st ++ [room]) st) (sy_mgr s)) s))
  | EEmit room, InGo now =>
      let '(m, events) := emitRoomEvents now room (sy_mgr s) in
      Some (set_thread tid {| th_effects := map EPublish events ++ es; th_job := j |} (set_mgr m s))
  | EPublish ev, InGo _ => Some (set_thread tid {| th_effects := es; th_job := j |} (publish ev s))
  | _, _ => None
  end.

(** The next section of a goroutine of a group. *)
Definition group_step {P} (job : P → Job) (a c tid : nat) (r : option (RoomManager * list Effect * option P)) (s : RoomSys)
    : option RoomSys :=
  r ← r;
  Some (set_thread tid {| th_effects := r.1.2; th_job := match r.2 with Some pc => job pc | None => JEnd a c end |}
          (set_mgr r.1.1 s)).

Definition thread_step (cfg : RoomConfig) (tid : nat) (t : Thread) (i : Input) (s : RoomSys) : option RoomSys :=
  match th_effects t, th_job t with
  | e :: es, j => effect_step tid j e es i s
  | [], JWorker a c pc => group_step (JWorker a c) a c tid (worker_step (cf_qrClient cfg) a c pc i (sy_mgr s)) s
  | [], JAttend a c pc => group_step (JAttend a c) a c tid (attend_step a c pc i (sy_mgr s)) s
  | [], JSync a c pc => group_step (JSync a c) a c tid (sync_step a c pc i (sy_mgr s)) s
  | [], JEnd _ _ => None
  | [], JApi pc =>
      r ← api_step tid pc i s;
      let '(m, life, effects, pc', group) := r in
      let s' := set_thread tid {| th_effects := effects; th_job := JApi pc' |} (set_lifecycle life (set_mgr m s)) in
      Some (match group with Some (a, c) => spawn_group cfg a c s' | None => s' end)
  end.

(** One of the writes that persistRoomUpdate started; its error is only logged. *)
Definition persist_step (a n : nat) (conn : Conn) (s : RoomSys) : option RoomSys :=
  let m := sy_mgr s in
  st ← mgr_states m !! a;
  room ← rst_persist st !! n;
  let t := (over conn (repo_UpdateRoom room (mgr_table m)) (mgr_table m)).1 in
  Some (set_mgr (on_state a (st_set_persist (delete n (rst_persist st))) (mgr_set_table t m)) s).

Inductive RoomOp :=
| OpCall (pc : ApiPC)
| OpThread (tid : nat) (i : Input)
| OpPersist (a n : nat) (conn : Conn).

Definition room_step_op (cfg : RoomConfig) (op : RoomOp) (s : RoomSys) : option RoomSys :=
  match op with
  | OpCall pc => if is_call pc then Some (spawn (JApi pc) s) else None
  | OpThread tid i => t ← sy_threads s !! tid; thread_step cfg tid t i s
  | OpPersist a n conn => persist_step a n conn s
  end.

Definition sys_step (cfg : RoomConfig) (s s' : RoomSys) : Prop := ∃ op, room_step_op cfg op s = Some s'.

Definition sys_run (cfg : RoomConfig) (ops : list RoomOp) (s : RoomSys) : option RoomSys :=
  foldl (λ r op, s ← r; room_step_op cfg op s) (Some s) ops.

Lemma sys_run_reachable cfg ops s s' : sys_run cfg ops s = Some s' → rtc (sys_step cfg) s s'.
Proof.
  revert s s'. induction ops as [|op ops IH] using rev_ind; intros s s'; unfold sys_run.
  - intros [= ->]. done.
  - rewrite foldl_snoc. fold (sys_run cfg ops s). destruct (sys_run cfg ops s) as [s1|] eqn:E; [|done].
    cbn. intros Hs. eapply rtc_r; [by apply IH|by exists op].
Qed.
