(* ===== verification/RoomSpec.v ===== *)
(** Properties of the room manager: at most one live worker per room, status changes along
    the state machine only, emission of changes, check-in deltas. *)

From stdpp Require Import base list numbers strings gmap relations.
From Stdlib Require Import ZArith Lia.
From S2P Require Import Prelude Domain EventHub Coordinator Upstream RoomRepo Rooms RoomSystem.

Local Open Scope Z_scope.
Local Open Scope stdpp_scope.
Local Open Scope go_scope.

(** * What a section may do to the manager *)

(** What one TransitionTo to [next] may do to a status: nothing, or that transition if it is
    allowed. *)
Definition move_to (next : RoomStatus) : relation RoomStatus := λ s s', s' = s ∨ room_step s next ∧ s' = next.

#[export] Instance move_to_preorder next : PreOrder (move_to next).
Proof. split; [by left|]. intros s1 s2 s3 [->|[? ->]] [->|[? ->]]; unfold move_to; auto. Qed.

(** What a section that asks for these transitions, one after the other, may do to a status. *)
Fixpoint moves (asked : list RoomStatus) : relation RoomStatus :=
  match asked with
  | [] => eq
  | [next] => move_to next
  | next :: asked' => λ s s', ∃ s1, move_to next s s1 ∧ moves asked' s1 s'
  end.

Section moves.
Context (R : relation RoomStatus) `{!PreOrder R}.

(** The status changes as [R] allows and the identity of the room not at all. *)
Definition room_evolves (r r' : Room) : Prop :=
  R (rm_Status r) (rm_Status r') ∧ rm_RoomID r' = rm_RoomID r ∧ rm_ClassID r' = rm_ClassID r.

Definition states_evolve (m m' : RoomManager) : Prop :=
  ∀ a s, mgr_states m !! a = Some s → ∃ s', mgr_states m' !! a = Some s' ∧ room_evolves (rst_room s) (rst_room s').

(** The cancel functions and done channels of the room states and the contexts, as they are. *)
Definition own (s : RoomState) : option nat * option nat := (rst_cancel s, rst_done s).

Definition same_cancel (m m' : RoomManager) : Prop :=
  mgr_ctxs m' = mgr_ctxs m ∧
  (∀ a, own <$> mgr_states m' !! a = own <$> mgr_states m !! a ∨
        mgr_states m !! a = None ∧ own <$> mgr_states m' !! a = Some (None, None)).

Lemma room_evolves_refl r : room_evolves r r.
Proof. by split. Qed.

Lemma room_evolves_trans r1 r2 r3 : room_evolves r1 r2 → room_evolves r2 r3 → room_evolves r1 r3.
Proof. intros (? & ? & ?) (? & ? & ?). split_and!; [by etrans|congruence..]. Qed.

#[export] Instance room_evolves_preorder : PreOrder room_evolves.
Proof. split; [exact room_evolves_refl|exact room_evolves_trans]. Qed.

#[export] Instance states_evolve_preorder : PreOrder states_evolve.
Proof.
  split.
  - intros m a s Hs. eauto using room_evolves_refl.
  - intros m1 m2 m3 H1 H2 a s Hs. destruct (H1 a s Hs) as (s2 & Hs2 & E2). destruct (H2 a s2 Hs2) as (s3 & Hs3 & E3).
    eauto using room_evolves_trans.
Qed.

#[export] Instance same_cancel_preorder : PreOrder same_cancel.
Proof.
  split.
  - intros m. split; [done|]. by left.
  - intros m1 m2 m3 [C1 H1] [C2 H2]. split; [congruence|]. intros a.
    destruct (H2 a) as [E2|[E2 E2']], (H1 a) as [E1|[E1 E1']].
    + left. congruence.
    + right. split; congruence.
    + right. split; [|done]. rewrite E2 in E1. symmetry in E1. by apply fmap_None in E1.
    + by rewrite E2 in E1'.
Qed.

Lemma on_state_evolves a f m : (∀ s, mgr_states m !! a = Some s → room_evolves (rst_room s) (rst_room (f s))) →
  states_evolve m (on_state a f m).
Proof.
  intros Hf a' s Hs. cbn. destruct (decide (a = a')) as [->|Hne].
  - rewrite list_lookup_alter_eq, Hs. cbn. eauto.
  - rewrite list_lookup_alter_ne, Hs by done. eauto using room_evolves_refl.
Qed.

Lemma on_state_cancel a f m : (∀ s, own (f s) = own s) → same_cancel m (on_state a f m).
Proof.
  intros Hf. split; [done|]. intros a'. left. cbn. destruct (decide (a = a')) as [->|Hne].
  - rewrite list_lookup_alter_eq. destruct (mgr_states m !! a'); cbn; [by rewrite Hf|done].
  - by rewrite list_lookup_alter_ne.
Qed.

(** Steps that leave the workers alone. *)
Definition quiet (m m' : RoomManager) : Prop := same_cancel m m' ∧ states_evolve m m'.

#[export] Instance quiet_preorder : PreOrder quiet.
Proof.
  split; [by intros m; split|]. intros m1 m2 m3 [? ?] [? ?]. split; [by etrans|by etrans].
Qed.

Lemma on_state_quiet a f m :
  (∀ s, own (f s) = own s ∧ room_evolves (rst_room s) (rst_room (f s))) → quiet m (on_state a f m).
Proof. intros Hf. split; [by apply on_state_cancel; apply Hf|by apply on_state_evolves; intros; apply Hf]. Qed.

Lemma set_emit_quiet l q m : quiet m (mgr_set_emit l q m).
Proof. split; [split; [done|by left]|]. intros a s Hs. eauto using room_evolves_refl. Qed.

Lemma set_table_quiet t m : quiet m (mgr_set_table t m).
Proof. split; [split; [done|by left]|]. intros a s Hs. eauto using room_evolves_refl. Qed.

Lemma set_rooms_quiet r m : quiet m (mgr_set_rooms r m).
Proof. split; [split; [done|by left]|]. intros a s Hs. eauto using room_evolves_refl. Qed.

Lemma set_stuck_quiet b m : quiet m (mgr_set_stuck b m).
Proof. split; [split; [done|by left]|]. intros a s Hs. eauto using room_evolves_refl. Qed.

Lemma new_state_quiet room m : quiet m (mgr_set_states (mgr_states m ++ [new_state room]) m).
Proof.
  split.
  - split; [done|]. intros a. cbn. destruct (mgr_states m !! a) as [s|] eqn:E.
    + left. by rewrite lookup_app_l, E by (by eapply lookup_lt_Some).
    + rewrite lookup_app_r by (by apply lookup_ge_None). destruct (a - length (mgr_states m))%nat; [by right|by left].
  - intros a s Hs. cbn. rewrite lookup_app_l by (by eapply lookup_lt_Some). eauto using room_evolves_refl.
Qed.

Lemma emitRoomEvents_quiet now room m : quiet m (emitRoomEvents now room m).1.
Proof.
  unfold emitRoomEvents, emit_gate. destruct (mgr_lastEmittedAt m !! _); [destruct (negb _ && _)|];
    cbn; try apply set_emit_quiet; reflexivity.
Qed.

Lemma room_section_quiet f effects a m m' es :
  (∀ r, room_evolves r (f r)) → room_section f effects a m = Some (m', es) → quiet m m'.
Proof.
  intros Hf. unfold room_section. destruct (mgr_stuck m); [done|]. destruct (mgr_states m !! a) as [s|] eqn:E; [|done].
  cbn. intros [= <- <-]. split; [by apply on_state_cancel|].
  apply on_state_evolves. intros s' Hs'. simplify_eq. apply Hf.
Qed.

(** * Contexts and cancel functions *)

(** A context that is not cancelled is the one its room state can cancel; what a room state
    can cancel is a context of its own, the one whose goroutines close its done channel. *)
Record wf_core (m : RoomManager) : Prop := {
  core_live c a : mgr_ctxs m !! c = Some (a, false) → ∃ s, mgr_states m !! a = Some s ∧ rst_cancel s = Some c;
  core_own a s c : mgr_states m !! a = Some s → rst_cancel s = Some c →
    rst_done s = Some c ∧ ∃ b, mgr_ctxs m !! c = Some (a, b)
}.

Definition ctx_mono (m m' : RoomManager) : Prop :=
  ∀ c a b, mgr_ctxs m !! c = Some (a, b) → ∃ b', mgr_ctxs m' !! c = Some (a, b') ∧ (b = true → b' = true).

(** What every section satisfies. *)
Definition tame (m m' : RoomManager) : Prop :=
  (wf_core m → wf_core m') ∧ ctx_mono m m' ∧ states_evolve m m'.

#[export] Instance tame_preorder : PreOrder tame.
Proof.
  split.
  - intros m. split_and!; [done| |reflexivity]. intros c a b Hc. eauto.
  - intros m1 m2 m3 (W1 & C1 & E1) (W2 & C2 & E2). split_and!; [auto| |by etrans].
    intros c a b Hc. destruct (C1 c a b Hc) as (b2 & Hc2 & ?). destruct (C2 c a b2 Hc2) as (b3 & Hc3 & ?). eauto.
Qed.

Lemma quiet_tame m m' : quiet m m' → tame m m'.
Proof.
  intros [[Hc Hs] He]. split_and!; [|intros c a b; rewrite Hc; eauto|done].
  intros [W1 W2]. split.
  - intros c a Hca. rewrite Hc in Hca. destruct (W1 c a Hca) as (s & E & Ec).
    destruct (Hs a) as [Ea|[Ea _]]; [|congruence]. rewrite E in Ea. cbn in Ea.
    destruct (mgr_states m' !! a) as [s'|]; cbn in Ea; [|done]. injection Ea as Ea. exists s'. by rewrite Ea.
  - intros a s' c E Ec. rewrite Hc. destruct (Hs a) as [Ea|[_ Ea]]; rewrite E in Ea; cbn in Ea.
    + destruct (mgr_states m !! a) as [s|] eqn:E0; cbn in Ea; [|done]. injection Ea as Ea Eb. rewrite Eb. apply (W2 a s c E0). congruence.
    + injection Ea as Ea _. congruence.
Qed.

Lemma cancel_ctx_lookup c c' m :
  mgr_ctxs (cancel_ctx c m) !! c' = (if decide (c = c') then (λ x, (x.1, true)) <$> mgr_ctxs m !! c' else mgr_ctxs m !! c').
Proof.
  cbn. destruct (decide (c = c')) as [->|]; [by rewrite list_lookup_alter_eq|by rewrite list_lookup_alter_ne].
Qed.

(** Cancelling the worker of a room state, and forgetting its cancel function. *)
Lemma cancel_tame a s c f m :
  mgr_states m !! a = Some s → rst_cancel s = Some c → rst_cancel (f s) = None →
  room_evolves (rst_room s) (rst_room (f s)) → tame m (on_state a f (cancel_ctx c m)).
Proof.
  intros Hs Hcs Hf Hev. split_and!.
  - intros [W1 W2]. split.
    + intros c' a' Hl. change (mgr_ctxs (cancel_ctx c m) !! c' = Some (a', false)) in Hl.
      rewrite cancel_ctx_lookup in Hl. destruct (decide (c = c')) as [->|Hne].
      * destruct (mgr_ctxs m !! c') as [[]|]; done.
      * destruct (W1 c' a' Hl) as (s' & Hs' & Hc'). exists s'. cbn.
        rewrite list_lookup_alter_ne; [done|]. intros ->. simplify_eq.
    + intros a' s' c' Hs' Hc'. cbn in Hs'.
      change (rst_done s' = Some c' ∧ ∃ b, mgr_ctxs (cancel_ctx c m) !! c' = Some (a', b)).
      assert (mgr_states m !! a' = Some s' ∧ a ≠ a') as [Ho Hne].
      { destruct (decide (a = a')) as [->|Hne]; [|by rewrite list_lookup_alter_ne in Hs'].
        rewrite list_lookup_alter_eq, Hs in Hs'. cbn in Hs'. by simplify_eq. }
      destruct (W2 a' s' c' Ho Hc') as [Hd [b Hb]]. split; [done|]. rewrite cancel_ctx_lookup, Hb.
      destruct (decide (c = c')); cbn; eauto.
  - intros c' a' b Hb. change (∃ b', mgr_ctxs (cancel_ctx c m) !! c' = Some (a', b') ∧ (b = true → b' = true)).
    rewrite cancel_ctx_lookup, Hb. destruct (decide (c = c')); cbn; eauto.
  - intros a' s' Hs'. cbn. destruct (decide (a = a')) as [->|Hne].
    + rewrite list_lookup_alter_eq, Hs'. simplify_eq. cbn. eauto.
    + rewrite list_lookup_alter_ne, Hs' by done. eauto using room_evolves_refl.
Qed.

Lemma cancel_only_tame c m : tame m (cancel_ctx c m).
Proof.
  split_and!.
  - intros [W1 W2]. split.
    + intros c' a' Hl. rewrite cancel_ctx_lookup in Hl. destruct (decide (c = c')); [|by apply W1].
      destruct (mgr_ctxs m !! c') as [[]|]; done.
    + intros a' s' c' Hs' Hc'. destruct (W2 a' s' c' Hs' Hc') as [Hd [b Hb]]. split; [done|]. rewrite cancel_ctx_lookup, Hb.
      destruct (decide (c = c')); cbn; eauto.
  - intros c' a' b Hb. rewrite cancel_ctx_lookup, Hb. destruct (decide (c = c')); cbn; eauto.
  - intros a s Hs. eauto using room_evolves_refl.
Qed.

(** A new context for a room state that has none. *)
Lemma start_tame a s f m :
  mgr_states m !! a = Some s → rst_cancel s = None → own (f s) = (Some (length (mgr_ctxs m)), Some (length (mgr_ctxs m))) →
  room_evolves (rst_room s) (rst_room (f s)) →
  tame m (on_state a f (mgr_set_ctxs (mgr_ctxs m ++ [(a, false)]) m)).
Proof.
  intros Hs Hn [Hf Hfd]%pair_equal_spec Hev. split_and!.
  - intros [W1 W2]. split; cbn.
    + intros c a' Hl. apply lookup_app_Some in Hl as [Hl|[Hge Hl]].
      * destruct (W1 c a' Hl) as (s' & Hs' & Hc'). exists s'.
        rewrite list_lookup_alter_ne; [done|]. intros ->. simplify_eq.
      * apply list_lookup_singleton_Some in Hl as [Hc [= <-]]. exists (f s).
        rewrite list_lookup_alter_eq, Hs. split; [done|]. rewrite Hf. f_equal. lia.
    + intros a' s' c Hs' Hc'. destruct (decide (a = a')) as [->|Hne].
      * rewrite list_lookup_alter_eq, Hs in Hs'. cbn in Hs'. simplify_eq. split; [done|]. exists false.
        rewrite lookup_app_r, Nat.sub_diag by lia. done.
      * rewrite list_lookup_alter_ne in Hs' by done. destruct (W2 a' s' c Hs' Hc') as [Hd [b Hb]]. split; [done|]. exists b.
        by apply lookup_app_l_Some.
  - intros c a' b Hb. exists b. split; [|done]. cbn. by apply lookup_app_l_Some.
  - intros a' s' Hs'. cbn. destruct (decide (a = a')) as [->|Hne].
    + rewrite list_lookup_alter_eq, Hs'. simplify_eq. cbn. eauto.
    + rewrite list_lookup_alter_ne, Hs' by done. eauto using room_evolves_refl.
Qed.

(** * The sections are tame *)

Lemma set_room_fields_evolve (r r' : Room) : rm_Status r' = rm_Status r → rm_RoomID r' = rm_RoomID r →
  rm_ClassID r' = rm_ClassID r → room_evolves r r'.
Proof. intros Hs Hi Hc. unfold room_evolves. by rewrite Hs, Hi, Hc. Qed.

Lemma section_tame f effects a m m' es :
  (∀ r, room_evolves r (f r)) → room_section f effects a m = Some (m', es) → tame m m'.
Proof. intros. eapply quiet_tame, room_section_quiet; eassumption. Qed.

(** The step of a goroutine of a group. *)
Definition step_tame {P} (m : RoomManager) (r : option (RoomManager * list Effect * option P)) : Prop :=
  ∀ m' es next, r = Some (m', es, next) → tame m m'.

Lemma step_tame_stay {P} m es (next : option P) : step_tame m (Some (m, es, next)).
Proof. by intros m' es' n [= <- _ _]. Qed.

Lemma step_tame_none {P} m : step_tame (P := P) m None.
Proof. done. Qed.

Lemma step_tame_end {P} m r : (∀ m' es, r = Some (m', es) → tame m m') → step_tame (P := P) m (and_end r).
Proof. intros Hr m' es next. destruct r as [[m1 es1]|]; cbn; [|done]. intros [= <- <- _]. eauto. Qed.

Lemma step_tame_then {P} m r (p : P) : (∀ m' es, r = Some (m', es) → tame m m') → step_tame m (and_then p r).
Proof. intros Hr m' es next. destruct r as [[m1 es1]|]; cbn; [|done]. intros [= <- <- _]. eauto. Qed.

End moves.

Lemma try_transition_evolves next r : room_evolves (move_to next) r (try_transition next r).
Proof.
  unfold try_transition. rewrite TransitionTo_spec. case_bool_decide as H; [|done].
  split; [|done]. right. split; [by apply room_step_spec|done].
Qed.

Ltac evolve :=
  repeat (first [ reflexivity
                | apply set_room_fields_evolve; [apply _|reflexivity..]
                | etrans; [|apply try_transition_evolves]
                | etrans; [|apply set_room_fields_evolve; [apply _|reflexivity..]] ]).

Lemma start_room_evolves r : room_evolves (move_to Running) r (start_room r).
Proof.
  unfold start_room. etrans; [|apply try_transition_evolves].
  apply set_room_fields_evolve; [apply _|by case_bool_decide..].
Qed.

(** The status a failed fetch asks for. *)
Definition failure_status (e : QrError) : RoomStatus :=
  match e with QrFetch kind _ => ToRoomStatus kind | QrCtx _ => Warning end.

Lemma failed_room_evolves e r : room_evolves (move_to (failure_status e)) r (failed_room e r).
Proof.
  unfold failed_room. etrans; [apply (try_transition_evolves (failure_status e))|].
  apply set_room_fields_evolve; [apply _|by case_bool_decide..].
Qed.

Lemma qr_section_tame R `{!PreOrder R} f effects a t m m' es :
  (∀ r, room_evolves R r (f r)) →
  ('(m1, es1) ← room_section f effects a m; Some (on_state a (st_set_qrTime t) m1, es1)) = Some (m', es) → tame R m m'.
Proof.
  intros Hf. destruct (room_section f effects a m) as [[m1 es1]|] eqn:E; cbn; [|done]. intros [= <- <-].
  etrans; [eapply section_tame; [apply _|exact Hf|exact E]|]. apply quiet_tame, on_state_quiet; [apply _|]. intros s. split; [done|apply room_evolves_refl, _].
Qed.

Lemma exhausted_tame a m m' es : recovery_exhausted a m = Some (m', es) → tame (move_to Stopped) m m'.
Proof.
  unfold recovery_exhausted, room_section. destruct (mgr_stuck m); [done|].
  destruct (mgr_states m !! a) as [s|] eqn:Es; [|done]. cbn. set (r := try_transition _ _).
  assert (Hr : room_evolves (move_to Stopped) (rst_room s) r) by (unfold r; evolve).
  destruct (rst_cancel s) as [c|] eqn:Ec; intros [= <- <-].
  - set (m1 := on_state a (st_set_room r) m).
    assert (H1 : tame (move_to Stopped) m m1).
    { apply quiet_tame. split; [by apply on_state_cancel|]. apply on_state_evolves; [apply _|]. intros s' Hs'. by simplify_eq. }
    etrans; [exact H1|]. apply (cancel_tame _ a (st_set_room r s) c); [|done..].
    unfold m1. cbn. by rewrite list_lookup_alter_eq, Es.
  - etrans; [|apply quiet_tame, set_stuck_quiet, _]. apply quiet_tame.
    split; [by apply on_state_cancel|]. apply on_state_evolves; [apply _|]. intros s' Hs'. by simplify_eq.
Qed.

(** The transitions that the section at a point of the worker asks for. *)
Definition worker_asks (pc : WorkerPC) : list RoomStatus :=
  match pc with
  | WStart | WInvalid _ | WGiveUp => [Stopped]
  | WBegin _ _ => [Fetching]
  | WFetched _ _ (Ok _) => [Running]
  | WFetched _ _ (Err e) => [failure_status e]
  | WRecovered _ => [Fetching; Running]
  | WConflict => [Warning]
  | _ => []
  end.

Lemma tame_via n1 n2 m m1 m' : tame (move_to n1) m m1 → tame (move_to n2) m1 m' → tame (moves [n1; n2]) m m'.
Proof.
  intros (W1 & C1 & E1) (W2 & C2 & E2). split_and!; [auto| |].
  - intros c a b Hc. destruct (C1 c a b Hc) as (b2 & Hc2 & ?). destruct (C2 c a b2 Hc2) as (b3 & Hc3 & ?). eauto.
  - intros a s Hs. destruct (E1 a s Hs) as (s2 & Hs2 & M1 & I1 & J1). destruct (E2 a s2 Hs2) as (s3 & Hs3 & M2 & I2 & J2).
    exists s3. split; [done|]. split_and!; [by exists (rm_Status (rst_room s2))|congruence..].
Qed.

(** The section that asks for two transitions, cut between them. *)
Lemma recovered_tame resp now a m m' es : recovered resp now a m = Some (m', es) → tame (moves [Fetching; Running]) m m'.
Proof.
  unfold recovered, room_section. destruct (mgr_stuck m); [done|]. destruct (mgr_states m !! a) as [s|] eqn:Es; [|done].
  cbn [mbind option_bind]. intros [= <- _].
  set (r := try_transition Fetching (set_messages None None (fetched_room resp now (rst_room s)))).
  apply tame_via with (on_state a (st_set_room r) m).
  - apply quiet_tame. split; [by apply on_state_cancel|]. apply on_state_evolves; [apply _|]. intros s' Hs'. simplify_eq. cbn.
    unfold r, fetched_room. evolve.
  - set (m1 := on_state a (st_set_room r) m). etrans; [|apply quiet_tame, (on_state_quiet _ a (st_set_qrTime (qr_Time resp)));
      intros s'; split; [done|apply room_evolves_refl, _]].
    replace (on_state a (st_set_room (try_transition Running r)) m) with (on_state a (on_room (try_transition Running)) m1).
    + apply quiet_tame, on_state_quiet; [apply _|]. intros s'. split; [done|]. cbn. apply try_transition_evolves.
    + unfold m1, on_state, mgr_set_states. cbn. f_equal. apply list_eq. intros a'. destruct (decide (a = a')) as [<-|Hne].
      * by rewrite !list_lookup_alter_eq, Es.
      * by rewrite !list_lookup_alter_ne.
Qed.

Ltac section_of :=
  let m' := fresh in let es := fresh in let r := fresh in
  intros m' es; apply section_tame; [apply _|]; intros r.

Lemma worker_tame q a c pc i m : step_tame (moves (worker_asks pc)) m (worker_step q a c pc i m).
Proof.
  unfold worker_step. destruct pc as [| |cl n|cl n|cl n [resp|e]|e|cl k b|resp| |cl k b|msg| |], i; try apply step_tame_none;
    cbn [worker_asks moves]; try (apply step_tame_stay; apply _).
  - destruct q; [apply step_tame_stay, _|]. apply step_tame_end. section_of. evolve.
  - destruct (mgr_stuck m); [done|]. destruct (mgr_states m !! a); [apply step_tame_stay, _|done].
  - apply step_tame_then. section_of. evolve.
  - apply step_tame_then. intros m' es. apply qr_section_tame; [apply _|]. intros r. unfold fetched_room. evolve.
  - destruct (mgr_states m !! a); [|done]. cbn [mbind option_bind]. apply step_tame_then. section_of. apply failed_room_evolves.
  - apply step_tame_then. section_of. unfold set_warning. evolve.
  - destruct (ctx_done m c); [apply step_tame_stay, _|done].
  - destruct (mgr_stuck m); [done|]. destruct (ctx_done m c).
    + intros m' es next [= <- _ _]. by apply tame_via with m.
    + apply (step_tame_then (moves [Fetching; Running])). apply recovered_tame.
  - apply step_tame_end. section_of. evolve.
  - destruct (ctx_done m c); [apply step_tame_stay, _|done].
  - apply step_tame_end. section_of. unfold set_error. evolve.
  - apply step_tame_end. intros m' es. apply exhausted_tame.
  - destruct (ctx_done m c); [apply step_tame_stay, _|done].
Qed.

Lemma attend_tame a c pc i m : step_tame eq m (attend_step a c pc i m).
Proof.
  unfold attend_step. destruct pc as [|id [|n]|id label|id], i; try apply step_tame_none; try (apply step_tame_stay; apply _).
  - destruct (mgr_stuck m); [done|]. destruct (mgr_states m !! a); [apply step_tame_stay, _|done].
  - destruct (ctx_done m c); [apply step_tame_stay, _|done].
  - destruct (mgr_stuck m); [done|]. destruct (negb _); [apply step_tame_stay, _|]. apply step_tame_end. section_of. evolve.
  - destruct (mgr_stuck m); [done|]. destruct (negb _); [apply step_tame_stay, _|]. apply step_tame_end. section_of. evolve.
Qed.

Lemma sync_tame a c pc i m : step_tame eq m (sync_step a c pc i m).
Proof.
  assert (Hq : ∀ f, (∀ s, own (f s) = own s ∧ rst_room (f s) = rst_room s) → tame eq m (on_state a f m)).
  { intros f Hf. apply quiet_tame, on_state_quiet; [apply _|]. intros s. destruct (Hf s) as [-> ->]. split; [done|apply room_evolves_refl, _]. }
  intros m' es next. unfold sync_step.
  destruct pc, i as [| | | |r ? ?| |]; try done; cbn.
  - destruct (mgr_states m !! a); cbn; [|done]. by intros [= <- _ _].
  - destruct r; intros [= <- _ _]; [by apply Hq|done].
  - destruct (ctx_done m c); [|done]. by intros [= <- _ _].
  - destruct r as [students|e].
    + unfold publishCheckinDeltas. destruct (mgr_states m !! a) as [st|]; cbn; [|done].
      destruct (negb _); cbn; [done|]. intros Hx. assert (m' = on_state a (st_set_checkins (Some (checkinMap students))) m) as ->.
      { destruct (rst_lastCheckins st); [destruct (map _ _)|]; by simplify_eq. }
      by apply Hq.
    + destruct (sync_after_error _ _). by intros [= <- _ _].
  - unfold triggerSyncReconcile. destruct (mgr_states m !! a); cbn; [|done]. destruct (_ && _); intros [= <- _ _]; [done|by apply Hq].
  - by intros [= <- _ _].
Qed.

(** ** Calls *)

Lemma emit_tame R `{!PreOrder R} now room m : tame R m (emitRoomEvents now room m).1.
Proof. apply quiet_tame, emitRoomEvents_quiet, _. Qed.

Lemma emit_keeps now room m : mgr_ctxs (emitRoomEvents now room m).1 = mgr_ctxs m.
Proof. by destruct (emitRoomEvents_quiet eq now room m) as [[-> _] _]. Qed.

Lemma StartRoom_tame id now m m' es r :
  StartRoom id now m = Some (m', es, r) →
  tame (move_to Running) m m' ∧ ∀ a c, r = Ok (Some (a, c)) → mgr_ctxs m !! c = None ∧ mgr_ctxs m' !! c = Some (a, false).
Proof.
  unfold StartRoom. destruct (mgr_stuck m); [done|].
  destruct (mgr_rooms m !! id) as [a|]; [|by intros [= <- <- <-]]. destruct (mgr_states m !! a) as [s|] eqn:Es; cbn; [|done].
  destruct (rst_cancel s) as [c|] eqn:Ec; [by intros [= <- <- <-]|].
  set (f := λ s0, st_set_done _ _). set (m1 := on_state a f _). pose proof (emit_tame (move_to Running) now (start_room (rst_room s)) m1) as Ht.
  pose proof (emit_keeps now (start_room (rst_room s)) m1) as Hk.
  destruct (emitRoomEvents _ _ m1) as [m2 evs]. cbn in Ht, Hk. intros [= <- _ <-]. split.
  - etrans; [|exact Ht]. apply (start_tame (move_to Running) a s); try done. cbn. apply start_room_evolves.
  - intros a' c' [= <- <-]. split; [apply lookup_ge_None_2; lia|]. rewrite Hk. cbn.
    by rewrite lookup_app_r, Nat.sub_diag by lia.
Qed.

Lemma StopRoom_tame id now m m' es r : StopRoom id now m = Some (m', es, r) → tame (move_to Stopped) m m'.
Proof.
  unfold StopRoom. destruct (mgr_stuck m); [done|].
  destruct (mgr_rooms m !! id) as [a|]; [|by intros [= <- _ _]]. destruct (mgr_states m !! a) as [s|] eqn:Es; cbn; [|done].
  set (x := set_qr _ _ _). set (f := λ s0, st_set_persist _ _). set (m1 := on_state a f _).
  pose proof (emit_tame (move_to Stopped) now x m1) as Ht. destruct (emitRoomEvents _ _ m1) as [m2 evs]. cbn in Ht. intros [= <- _ _].
  etrans; [|exact Ht]. assert (Hx : room_evolves (move_to Stopped) (rst_room s) x) by (unfold x; evolve).
  unfold m1, cancel_worker. destruct (rst_cancel s) as [c|] eqn:Ec; [by apply (cancel_tame _ a s)|].
  apply quiet_tame. split.
  - split; [done|]. intros a'. left. cbn. destruct (decide (a = a')) as [->|]; [|by rewrite list_lookup_alter_ne].
    rewrite list_lookup_alter_eq, Es. cbn. unfold own. cbn. by rewrite Ec.
  - apply on_state_evolves; [apply _|]. intros s' Hs'. by simplify_eq.
Qed.

Lemma stop_one_tame id m : tame (move_to Stopped) m (stop_one id m).1.
Proof.
  unfold stop_one. destruct (mgr_rooms m !! id) as [a|]; cbn; [|done]. destruct (mgr_states m !! a) as [s|] eqn:Es; cbn; [|done].
  destruct (rst_cancel s) as [c|] eqn:Ec; [|done].
  assert (H1 : tame (move_to Stopped) m (on_state a (st_set_cancel None) (cancel_ctx c m)))
    by (apply (cancel_tame _ a s); try done; apply room_evolves_refl, _).
  destruct (TransitionTo Stopped (rst_room s)) as [r [[]|e]] eqn:Et; [|done]. cbn. etrans; [exact H1|].
  apply quiet_tame. split; [by apply on_state_cancel|]. apply on_state_evolves; [apply _|]. intros s' Hs'.
  cbn in Hs'. rewrite list_lookup_alter_eq, Es in Hs'. cbn in Hs'. simplify_eq. cbn.
  replace r with (try_transition Stopped (rst_room s)) by (unfold try_transition; by rewrite Et). evolve.
Qed.

Lemma stop_all_tame ids : ∀ m, tame (move_to Stopped) m (stop_all ids m).1.
Proof.
  induction ids as [|id ids IH]; intros m; cbn; [done|]. pose proof (stop_one_tame id m) as H1.
  destruct (stop_one id m) as [m1 [item|e]]; [|done]. specialize (IH m1).
  destruct (stop_all ids m1) as [m2 [l|e]]; cbn in *; by etrans.
Qed.

Lemma recover_one_tame id m : tame (move_to Stopped) m (recover_one id m).1.
Proof.
  unfold recover_one. destruct (mgr_rooms m !! id) as [a|]; cbn; [|done]. destruct (mgr_states m !! a) as [s|] eqn:Es; cbn; [|done].
  case_bool_decide; [done|]. destruct (TransitionTo Stopped (rst_room s)) as [r [[]|e]] eqn:Et; [|done]. cbn.
  apply quiet_tame. split; [by apply on_state_cancel|]. apply on_state_evolves; [apply _|]. intros s' Hs'. simplify_eq. cbn.
  replace r with (try_transition Stopped (rst_room s)) by (unfold try_transition; by rewrite Et). evolve.
Qed.

Lemma recover_all_tame ids : ∀ m, tame (move_to Stopped) m (recover_all ids m).1.
Proof.
  induction ids as [|id ids IH]; intros m; cbn; [done|]. pose proof (recover_one_tame id m) as H1.
  destruct (recover_one id m) as [m1 [item|e]]; [|done]. specialize (IH m1).
  destruct (recover_all ids m1) as [m2 [l|e]]; cbn in *; by etrans.
Qed.

Lemma delete_registered_tame R `{!PreOrder R} id m m' : delete_registered id m = Some m' → tame R m m'.
Proof.
  unfold delete_registered, cancel_worker. destruct (mgr_stuck m); [done|].
  destruct (mgr_rooms m !! id) as [a|]; intros [= <-]; [|done].
  etrans; [|apply quiet_tame, set_rooms_quiet, _]. destruct (mgr_states m !! a) as [s|]; [|done].
  destruct (rst_cancel s); [apply cancel_only_tame, _|done].
Qed.

Lemma register_tame R `{!PreOrder R} room m m' : register room m = Some m' → tame R m m'.
Proof.
  unfold register. destruct (mgr_stuck m); [done|]. intros [= <-].
  etrans; [apply quiet_tame, new_state_quiet, _|apply quiet_tame, set_rooms_quiet, _].
Qed.

Lemma register_existing_tame R `{!PreOrder R} id room m m' : register_existing id room m = Some m' → tame R m m'.
Proof.
  unfold register_existing. destruct (mgr_stuck m); [done|]. destruct (mgr_rooms m !! id); intros [= <-]; [done|].
  etrans; [apply quiet_tame, new_state_quiet, _|apply quiet_tame, set_rooms_quiet, _].
Qed.

Lemma load_tame R `{!PreOrder R} rooms : ∀ m m', foldl (λ m room, m ← m; register room m) (Some m) rooms = Some m' → tame R m m'.
Proof.
  induction rooms as [|room rooms IH] using rev_ind; intros m m'; [by intros [= <-]|].
  rewrite foldl_snoc. destruct (foldl _ _ rooms) as [m1|] eqn:E; cbn; [|done]. intros Hr.
  etrans; [by apply IH|by apply (register_tame R) in Hr].
Qed.

Lemma clear_tame R `{!PreOrder R} now order m m' : clear_expired now order m = Some m' → tame R m m'.
Proof.
  unfold clear_expired. destruct (_ || _); [done|]. intros [= <-]. revert m.
  induction order as [|id order IH]; intros m; cbn; [done|]. etrans; [|apply IH].
  unfold clear_room. destruct (mgr_rooms m !! id); [|done]. apply quiet_tame, on_state_quiet; [apply _|].
  intros s. split; [done|]. cbn. destruct (room_expired _ _); [by apply set_room_fields_evolve|apply room_evolves_refl, _].
Qed.

Lemma ensure_tame R `{!PreOrder R} id course m m' b : ensure_course id course m = Some (m', b) → tame R m m'.
Proof.
  unfold ensure_course. destruct (mgr_stuck m); [done|]. destruct (mgr_rooms m !! id) as [a|]; [|by intros [= <- _]].
  destruct (mgr_states m !! a) as [s|] eqn:Es; cbn; [|done]. intros [= <- _]. apply quiet_tame.
  set (s' := if _ && _ then st_set_course course s else s).
  assert (own s' = own s ∧ rst_room s' = rst_room s) as [Hc Hr] by (unfold s'; by destruct (_ && _)).
  split.
  - split; [done|]. intros a'. left. cbn. destruct (decide (a = a')) as [->|]; [|by rewrite list_lookup_alter_ne].
    rewrite list_lookup_alter_eq, Es. cbn. by rewrite Hc.
  - apply on_state_evolves; [apply _|]. intros s0 Hs0. simplify_eq. rewrite Hr. apply room_evolves_refl, _.
Qed.

Lemma forget_emits_tame R `{!PreOrder R} ids : ∀ m, tame R m (forget_emits ids m).
Proof.
  unfold forget_emits. induction ids as [|id ids IH]; intros m; cbn; [done|]. etrans; [|apply IH].
  apply quiet_tame, set_emit_quiet, _.
Qed.

Lemma stop_all_result ids m m' r : stop_all ids m = (m', r) → tame (move_to Stopped) m m'.
Proof. pose proof (stop_all_tame ids m) as Ht. by intros E; rewrite E in Ht. Qed.

Lemma recover_all_result ids m m' r : recover_all ids m = (m', r) → tame (move_to Stopped) m m'.
Proof. pose proof (recover_all_tame ids m) as Ht. by intros E; rewrite E in Ht. Qed.

Lemma set_table_tame R `{!PreOrder R} t m : tame R m (mgr_set_table t m).
Proof. apply quiet_tame, set_table_quiet, _. Qed.

Lemma set_rooms_tame R `{!PreOrder R} r m : tame R m (mgr_set_rooms r m).
Proof. apply quiet_tame, set_rooms_quiet, _. Qed.

Lemma set_pending_tame R `{!PreOrder R} a b m : tame R m (on_state a (st_set_pending b) m).
Proof. apply quiet_tame, on_state_quiet; [apply _|]. intros s. split; [done|apply room_evolves_refl, _]. Qed.

Lemma set_emit_tame R `{!PreOrder R} l q m : tame R m (mgr_set_emit l q m).
Proof. apply quiet_tame, set_emit_quiet, _. Qed.

Lemma StartRoom_result id now m r : StartRoom id now m = Some r → tame (move_to Running) m r.1.1.
Proof. destruct r as [[m' es] r]. intros H%StartRoom_tame. apply H. Qed.

Lemma StopRoom_result id now m r : StopRoom id now m = Some r → tame (move_to Stopped) m r.1.1.
Proof. destruct r as [[m' es] r]. apply StopRoom_tame. Qed.

Lemma ensure_result R `{!PreOrder R} id course m r : ensure_course id course m = Some r → tame R m r.1.
Proof. destruct r. apply ensure_tame, _. Qed.

Lemma drop_rooms_tame R `{!PreOrder R} ids m m' : drop_rooms ids m = Some m' → tame R m m'.
Proof. unfold drop_rooms. destruct (mgr_stuck m); [done|]. intros [= <-]. apply set_rooms_tame, _. Qed.

Lemma load_result R `{!PreOrder R} m r : LoadRoomsFromDB m = Some r → tame R m (match r with Ok m' => m' | Err _ => m end).
Proof.
  unfold LoadRoomsFromDB. destruct (repo_GetAllRooms _) as [rooms|e]; [|by intros [= <-]].
  destruct (foldl _ _ _) as [m'|] eqn:E; cbn; [|done]. intros [= <-]. by apply (load_tame R) in E.
Qed.

Create HintDb tame.
#[export] Hint Resolve stop_all_result recover_all_result set_table_tame set_rooms_tame set_pending_tame set_emit_tame
  StartRoom_result StopRoom_result ensure_result drop_rooms_tame delete_registered_tame register_tame
  register_existing_tame clear_tame forget_emits_tame : tame.
#[export] Hint Extern 0 (tame ?R ?m ?m) => reflexivity : tame.
#[export] Hint Extern 0 (PreOrder _) => apply _ : tame.

(** Follow the branches of a section to its result. *)
Ltac follow Hx :=
  repeat match type of Hx with
  | Some _ = Some _ => injection Hx as <-
  | None = Some _ => discriminate Hx
  | (?x ≫= _) = Some _ => destruct x eqn:?; cbn [mbind option_bind] in Hx
  | context [match ?x with _ => _ end] => destruct x eqn:?
  end.

Ltac unfold_api Hx :=
  unfold api_step, start_stop_step, DeleteRoom_step, CreateRoom_step, EnsureSessionRoom_step, LoadRoomsFromDB_step,
    RecoverLoadedRooms_step, ClearExpiredQRs_step, RetainRooms_step, StopAllActiveRooms_step in Hx.

(** The transition that the section at a point of a call asks for, of each room it touches. *)
Definition api_moves (pc : ApiPC) : list RoomStatus :=
  match pc with
  | CStart _ | CEnsureStart _ => [Running]
  | CStop _ | CStopAll | CRecover => [Stopped]
  | _ => []
  end.

(** The sections of the calls. *)
Lemma api_tame tid pc i s r : api_step tid pc i s = Some r → tame (moves (api_moves pc)) (sy_mgr s) r.1.1.1.1.
Proof.
  intros Hx. destruct pc, i; unfold_api Hx; cbv zeta in Hx; follow Hx; cbn [fst snd api_moves moves]; eauto with tame.
  - apply (load_result eq) in Heqo. by destruct r0.
  - destruct (recover_all _ _) as [m' [l|e]] eqn:E; eauto with tame.
  - destruct (stop_all _ _) as [m' [l|e]] eqn:E; [destruct (stop_next _ _ _)|]; eauto with tame.
Qed.

(** A group is started for a new context only. *)
Lemma api_group tid pc i s r a c : api_step tid pc i s = Some r → r.2 = Some (a, c) →
  mgr_ctxs (sy_mgr s) !! c = None ∧ mgr_ctxs r.1.1.1.1 !! c = Some (a, false).
Proof.
  intros Hx. destruct pc, i; unfold_api Hx; cbv zeta in Hx; follow Hx; cbn [fst snd]; try done.
  all: try (destruct p as [[m' es] [g|e]]; cbn [fst snd]; intros Hg; try done; subst g;
            by apply StartRoom_tame in Heqo0 as [_ Hs]; apply Hs).
  - by destruct r0.
  - destruct (recover_all _ _) as [m' [l|e]]; done.
  - destruct (stop_all _ _) as [m' [l|e]]; [destruct (stop_next _ _ _)|]; done.
Qed.

(** * The system *)

Record wf_sys (s : RoomSys) : Prop := {
  ws_core : wf_core (sy_mgr s);
  ws_next tid t : sy_threads s !! tid = Some t → (tid < sy_next s)%nat;
  ws_group tid t a c : sy_threads s !! tid = Some t → job_group (th_job t) = Some (a, c) →
    ∃ b, mgr_ctxs (sy_mgr s) !! c = Some (a, b);
  ws_unique tid1 tid2 t1 t2 a1 a2 c p1 p2 :
    sy_threads s !! tid1 = Some t1 → sy_threads s !! tid2 = Some t2 →
    th_job t1 = JWorker a1 c p1 → th_job t2 = JWorker a2 c p2 → tid1 = tid2
}.

(** A goroutine that goes on stays in its group and keeps its kind. *)
Definition same_kind (t t' : Thread) : Prop :=
  job_group (th_job t') = job_group (th_job t) ∧
  ∀ a c pc', th_job t' = JWorker a c pc' → ∃ pc, th_job t = JWorker a c pc.

Lemma wf_mgr R s m : wf_sys s → tame R (sy_mgr s) m → wf_sys (set_mgr m s).
Proof.
  intros [W1 W2 W3 W4] (Hw & Hc & _). split; cbn; eauto.
  intros tid t a c Ht Hg. destruct (W3 tid t a c Ht Hg) as [b Hb]. destruct (Hc c a b Hb) as (b' & ? & _). eauto.
Qed.

Lemma wf_thread s tid t t' : wf_sys s → sy_threads s !! tid = Some t → same_kind t t' → wf_sys (set_thread tid t' s).
Proof.
  intros [W1 W2 W3 W4] Ht [Hg Hk].
  assert (Hl : ∀ x u, <[tid := t']> (sy_threads s) !! x = Some u →
    ∃ u0, sy_threads s !! x = Some u0 ∧ same_kind u0 u).
  { intros x u Hx. destruct (decide (tid = x)) as [->|]; [|rewrite lookup_insert_ne in Hx by done; exists u; split; [done|split; eauto]].
    rewrite lookup_insert_eq in Hx. injection Hx as <-. by exists t. }
  split; cbn.
  - done.
  - intros x u (u0 & Hu0 & _)%Hl. eauto.
  - intros x u a c (u0 & Hu0 & Hug & _)%Hl Hj. rewrite Hug in Hj. eauto.
  - intros x1 x2 u1 u2 a1 a2 c p1 p2 (v1 & Hv1 & _ & K1)%Hl (v2 & Hv2 & _ & K2)%Hl J1 J2.
    apply K1 in J1 as [q1 J1]. apply K2 in J2 as [q2 J2]. eauto.
Qed.

Lemma wf_life s l : wf_sys s → wf_sys (set_lifecycle l s).
Proof. intros [W1 W2 W3 W4]. by split. Qed.

Lemma wf_publish s ev : wf_sys s → wf_sys (publish ev s).
Proof. intros [W1 W2 W3 W4]. by split. Qed.

(** A new goroutine whose worker, if it is one, is the first of its context. *)
Lemma wf_spawn s j :
  wf_sys s → (∀ a c, job_group j = Some (a, c) → ∃ b, mgr_ctxs (sy_mgr s) !! c = Some (a, b)) →
  (∀ a c pc, j = JWorker a c pc → ∀ tid t a' pc', sy_threads s !! tid = Some t → th_job t ≠ JWorker a' c pc') →
  wf_sys (spawn j s).
Proof.
  intros [W1 W2 W3 W4] Hg Hw.
  assert (Hl : ∀ x u, <[sy_next s := {| th_effects := []; th_job := j |}]> (sy_threads s) !! x = Some u →
    x = sy_next s ∧ th_job u = j ∨ sy_threads s !! x = Some u).
  { intros x u [[<- <-]|[_ Hx]]%lookup_insert_Some; [by left|by right]. }
  split; cbn.
  - done.
  - intros x u [[-> _]|Hx]%Hl; [lia|]. apply W2 in Hx. lia.
  - intros x u a c [[-> ->]|Hx]%Hl Hj; eauto.
  - intros x1 x2 u1 u2 a1 a2 c p1 p2 [[-> E1]|H1]%Hl [[-> E2]|H2]%Hl J1 J2; [done| | |by eauto].
    + rewrite E1 in J1. by destruct (Hw _ _ _ J1 _ _ a2 p2 H2).
    + rewrite E2 in J2. by destruct (Hw _ _ _ J2 _ _ a1 p1 H1).
Qed.

Lemma wf_spawn_group cfg s a c :
  wf_sys s → (∃ b, mgr_ctxs (sy_mgr s) !! c = Some (a, b)) →
  (∀ tid t a' pc', sy_threads s !! tid = Some t → th_job t ≠ JWorker a' c pc') →
  wf_sys (spawn_group cfg a c s).
Proof.
  intros W Hc Hw. unfold spawn_group.
  set (s1 := if cf_labels cfg then _ else s).
  assert (W1 : wf_sys s1 ∧ sy_mgr s1 = sy_mgr s ∧
    ∀ tid t a' pc', sy_threads s1 !! tid = Some t → th_job t ≠ JWorker a' c pc').
  { unfold s1. destruct (cf_labels cfg); [|done]. split_and!; [|done|].
    - apply wf_spawn; [done|by intros ? ? [= <- <-]|done].
    - intros tid t a' pc'. cbn. intros [[<- <-]|[_ Hx]]%lookup_insert_Some; [done|by eauto]. }
  destruct W1 as (W1 & M1 & N1).
  assert (W2 : wf_sys (spawn (JWorker a c WStart) s1)).
  { apply wf_spawn; [done|by intros ? ? [= <- <-]; rewrite M1|]. intros a0 c0 pc [= <- <- <-]. eauto. }
  destruct (_ && _); [|done]. apply wf_spawn; [done| |done]. intros ? ? [= <- <-]. cbn. by rewrite M1.
Qed.

Lemma effect_wf s tid t e es i s' :
  wf_sys s → sy_threads s !! tid = Some t → th_effects t = e :: es →
  effect_step tid (th_job t) e es i s = Some s' → wf_sys s' ∧ tame eq (sy_mgr s) (sy_mgr s').
Proof.
  intros W Ht He Hs. assert (K : ∀ es', same_kind t {| th_effects := es'; th_job := th_job t |}) by (split; eauto).
  assert (Hgo : ∀ m es', tame eq (sy_mgr s) m →
    wf_sys (set_thread tid {| th_effects := es'; th_job := th_job t |} (set_mgr m s)) ∧ tame eq (sy_mgr s) m).
  { intros m es' Hm. split; [|apply Hm]. eapply wf_thread; [by eapply wf_mgr|exact Ht|apply K]. }
  unfold effect_step in Hs. destruct e, i; try done.
  - destruct (job_group (th_job t)) as [g|]; cbn in Hs; [|done]. injection Hs as <-. apply Hgo.
    apply quiet_tame, on_state_quiet; [apply _|]. intros st. split; [done|apply room_evolves_refl, _].
  - pose proof (emit_tame eq now room (sy_mgr s)) as Hm. destruct (emitRoomEvents _ _ _) as [m evs]. injection Hs as <-.
    by apply Hgo.
  - injection Hs as <-. split; [|cbn; reflexivity]. eapply wf_thread; [by apply wf_publish|exact Ht|apply K].
Qed.

Lemma group_wf {P} R (job : P → Job) a c tid t r s s' :
  wf_sys s → sy_threads s !! tid = Some t → job_group (th_job t) = Some (a, c) →
  (∀ p, same_kind t {| th_effects := []; th_job := job p |}) →
  step_tame R (sy_mgr s) r → group_step job a c tid r s = Some s' →
  wf_sys s' ∧ tame R (sy_mgr s) (sy_mgr s').
Proof.
  intros W Ht Hg Hk Hr Hs. unfold group_step in Hs. destruct r as [[[m es] next]|]; cbn in Hs; [|done]. injection Hs as <-.
  pose proof (Hr m es next eq_refl) as Hm. split; [|apply Hm]. eapply wf_thread; [by eapply wf_mgr|exact Ht|].
  destruct next as [p|]; [by destruct (Hk p)|]. split; [done|]. by intros ? ? ?.
Qed.

Lemma api_wf cfg tid t pc i s s' :
  wf_sys s → sy_threads s !! tid = Some t → th_effects t = [] → th_job t = JApi pc →
  thread_step cfg tid t i s = Some s' → wf_sys s' ∧ tame (moves (api_moves pc)) (sy_mgr s) (sy_mgr s').
Proof.
  intros W Ht He Hj Hs. unfold thread_step in Hs. rewrite He, Hj in Hs.
  destruct (api_step tid pc i s) as [r|] eqn:Ea; cbn in Hs; [|done].
  pose proof (api_tame _ _ _ _ _ Ea) as Hm. pose proof (λ a c, api_group _ _ _ _ _ a c Ea) as Hg.
  destruct r as [[[[m life] es] pc'] g]. cbn in Hm, Hg. injection Hs as <-.
  set (s1 := set_thread _ _ _).
  assert (W1 : wf_sys s1).
  { eapply wf_thread; [by eapply wf_life, wf_mgr|exact Ht|]. split; [by rewrite Hj|done]. }
  destruct g as [[a c]|]; [|split; [done|apply Hm]]. destruct (Hg a c eq_refl) as [Hnew Hc].
  split; [apply wf_spawn_group; [done|by exists false|]|].
  - intros x u a' pc0 Hx Hu. assert (∃ u0, sy_threads s !! x = Some u0 ∧ job_group (th_job u0) = Some (a', c)) as (u0 & Hu0 & Hug).
    { cbn in Hx. apply lookup_insert_Some in Hx as [[<- <-]|[_ Hx]]; [done|]. exists u. by rewrite Hu. }
    destruct (ws_group _ W _ _ _ _ Hu0 Hug) as [b Hb]. congruence.
  - replace (sy_mgr (spawn_group cfg a c s1)) with m; [apply Hm|]. unfold spawn_group. by destruct (cf_labels cfg), (_ && _).
Qed.

(** The transitions that a step of the system asks for, one after the other: those of the
    section that the goroutine of the step is at. *)
Definition step_asks (s : RoomSys) (op : RoomOp) : list RoomStatus :=
  match op with
  | OpThread tid _ =>
      match sy_threads s !! tid with
      | Some {| th_effects := []; th_job := JWorker _ _ pc |} => worker_asks pc
      | Some {| th_effects := []; th_job := JApi pc |} => api_moves pc
      | _ => []
      end
  | OpCall _ | OpPersist _ _ _ => []
  end.

Lemma step_op_wf cfg op s s' : wf_sys s → room_step_op cfg op s = Some s' →
  wf_sys s' ∧ tame (moves (step_asks s op)) (sy_mgr s) (sy_mgr s').
Proof.
  intros W Hs. destruct op as [pc|tid i|a n conn]; cbn in Hs; cbn [step_asks moves].
  - destruct (is_call pc); [|done]. injection Hs as <-. split; [|cbn; reflexivity]. by apply wf_spawn.
  - destruct (sy_threads s !! tid) as [t|] eqn:Ht; cbn in Hs; [|done]. pose proof Hs as Hs'. unfold thread_step in Hs.
    destruct t as [[|e es] j]; cbn [th_effects th_job] in *.
    2:{ by apply (effect_wf s tid {| th_effects := e :: es; th_job := j |} e es i s'). }
    destruct j as [a c pc|a c pc|a c pc|a c|pc]; cbn [moves] in *; [| | |done|].
    + eapply group_wf in Hs; [exact Hs|done|exact Ht|done| |apply worker_tame].
      intros p. split; [done|]. intros ? ? ? [= <- <- <-]. eauto.
    + eapply group_wf in Hs; [exact Hs|done|exact Ht|done| |apply attend_tame]. intros p. by split.
    + eapply group_wf in Hs; [exact Hs|done|exact Ht|done| |apply sync_tame]. intros p. by split.
    + by eapply api_wf in Hs'.
  - unfold persist_step in Hs. destruct (mgr_states (sy_mgr s) !! a) as [st|] eqn:Es; cbn in Hs; [|done].
    destruct (rst_persist st !! n) as [room|]; cbn in Hs; [|done]. injection Hs as <-.
    assert (Hm : ∀ t, tame eq (sy_mgr s) (on_state a (st_set_persist (delete n (rst_persist st))) (mgr_set_table t (sy_mgr s)))).
    { intros t. etrans; [apply set_table_tame, _|]. apply quiet_tame, on_state_quiet; [apply _|].
      intros st'. split; [done|apply room_evolves_refl, _]. }
    split; [by eapply wf_mgr|apply Hm].
Qed.

Lemma step_wf cfg s s' : wf_sys s → sys_step cfg s s' → wf_sys s'.
Proof. intros W [op Hs]. by apply (step_op_wf cfg op s s' W Hs). Qed.

Lemma initial_wf table : wf_sys (initial table).
Proof. split; [split|..]; done. Qed.

Lemma rooms_reachable_wf cfg table s : rtc (sys_step cfg) (initial table) s → wf_sys s.
Proof.
  intros Hr. eapply rtc_ind_r with (P := wf_sys) in Hr; [done|apply initial_wf|].
  intros s1 s2 _ Hs W. by eapply step_wf.
Qed.

(** ** Stopping *)

Lemma stop_one_cancel id m : ∀ m' item, stop_one id m = (m', Ok item) →
  mgr_rooms m' = mgr_rooms m ∧
  (∀ a s', mgr_rooms m !! id = Some a → mgr_states m' !! a = Some s' → rst_cancel s' = None) ∧
  (∀ a s s', mgr_states m !! a = Some s → rst_cancel s = None → mgr_states m' !! a = Some s' → rst_cancel s' = None) ∧
  ∀ a, is_Some (mgr_states m' !! a) → is_Some (mgr_states m !! a).
Proof.
  intros m' item. unfold stop_one. destruct (mgr_rooms m !! id) as [a|] eqn:Er; cbn; [|naive_solver].
  destruct (mgr_states m !! a) as [s|] eqn:Es; cbn; [|naive_solver].
  destruct (rst_cancel s) as [c|] eqn:Ec; [|naive_solver].
  destruct (TransitionTo Stopped (rst_room s)) as [r [[]|e]]; [|done]. intros [= <- _].
  set (l := mgr_states _).
  assert (Hl : ∀ a', l !! a' = if decide (a = a') then Some (st_set_pending true (st_set_room r (st_set_cancel None s)))
                               else mgr_states m !! a').
  { intros a'. unfold l. cbn. destruct (decide (a = a')) as [->|Hne].
    - by rewrite !list_lookup_alter_eq, Es.
    - by rewrite !list_lookup_alter_ne. }
  split; [done|]. split_and!.
  - intros a' s' [= <-]. rewrite Hl, decide_True by done. by intros [= <-].
  - intros a' s0 s' H0 Hc0. rewrite Hl. destruct (decide (a = a')); [by intros [= <-]|congruence].
  - intros a'. rewrite Hl. destruct (decide (a = a')) as [<-|]; [by rewrite Es|done].
Qed.

Lemma stop_all_cancel ids : ∀ m m' items, stop_all ids m = (m', Ok items) →
  mgr_rooms m' = mgr_rooms m ∧
  (∀ id a s', id ∈ ids → mgr_rooms m !! id = Some a → mgr_states m' !! a = Some s' → rst_cancel s' = None) ∧
  (∀ a s s', mgr_states m !! a = Some s → rst_cancel s = None → mgr_states m' !! a = Some s' → rst_cancel s' = None) ∧
  ∀ a, is_Some (mgr_states m' !! a) → is_Some (mgr_states m !! a).
Proof.
  induction ids as [|id ids IH]; intros m m' items; cbn.
  { intros [= <- _]. split_and!; [done|by intros ? ? ? ?%elem_of_nil|naive_solver|done]. }
  destruct (stop_one id m) as [m1 [item|e]] eqn:E1; [|done].
  destruct (stop_one_cancel _ _ _ _ E1) as (R1 & S1 & K1 & D1).
  destruct (stop_all ids m1) as [m2 [l|e]] eqn:E2; [|done]. intros [= <- _].
  destruct (IH _ _ _ E2) as (R2 & S2 & K2 & D2). split_and!.
  - congruence.
  - intros x a s' [->|Hx]%elem_of_cons Ha Hs'.
    + destruct (D2 a) as [s1 Hs1]; [by eexists|]. eapply K2; [exact Hs1|by eapply S1|done].
    + eapply S2; [exact Hx|by rewrite R1|done].
  - intros a s s' Hs Hc Hs'. destruct (D2 a) as [s1 Hs1]; [by eexists|]. eapply K2; [exact Hs1|by eapply K1|done].
  - intros a Ha. auto.
Qed.

(** Every live registered room is among those to wait for, with the channel its goroutines close. *)
Lemma stop_one_other id m m1 item a s :
  stop_one id m = (m1, Ok item) → mgr_rooms m !! id ≠ Some a → mgr_states m !! a = Some s → mgr_states m1 !! a = Some s.
Proof.
  unfold stop_one. destruct (mgr_rooms m !! id) as [a'|] eqn:Er; cbn; [|by intros [= <- _]].
  intros Hs Hne Ha. assert (a' ≠ a) as Hna by congruence. destruct (mgr_states m !! a') as [s'|]; cbn in Hs; [|by simplify_eq].
  destruct (rst_cancel s') as [c|]; [|by simplify_eq]. destruct (TransitionTo _ _) as [r [[]|e]]; simplify_eq.
  cbn. by rewrite !list_lookup_alter_ne.
Qed.

Lemma stop_all_items ids : ∀ m m' items id a s c,
  stop_all ids m = (m', Ok items) → id ∈ ids → mgr_rooms m !! id = Some a → mgr_states m !! a = Some s →
  rst_cancel s = Some c → ∃ item, item ∈ items ∧ sr_done item = rst_done s.
Proof.
  induction ids as [|id0 ids IH]; intros m m' items id a s c; cbn; [by intros _ ?%elem_of_nil|].
  destruct (stop_one id0 m) as [m1 [item|e]] eqn:E1; [|done].
  destruct (stop_one_cancel _ _ _ _ E1) as (R1 & _).
  destruct (stop_all ids m1) as [m2 [l|e]] eqn:E2; [|done]. intros [= <- <-] Hin Hr Hs Hc.
  destruct (decide (mgr_rooms m !! id0 = Some a)) as [Ha|Ha].
  - unfold stop_one in E1. rewrite Ha in E1. cbn in E1. rewrite Hs in E1. cbn in E1. rewrite Hc in E1.
    destruct (TransitionTo _ _) as [r [[]|e]]; simplify_eq. eexists. split; [by left|done].
  - apply elem_of_cons in Hin as [->|Hin]; [done|].
    destruct (IH _ _ _ id a s c E2 Hin) as (x & Hx & Hd); [by rewrite R1|by eapply stop_one_other|done|].
    exists x. split; [|done]. destruct item; [by right|done].
Qed.

(** The goroutines after a step: as before, the next section of the one that stepped, which was
    not over, or new ones for a new context. *)
Definition ended (t : Thread) : Prop := ∃ a c, t = {| th_effects := []; th_job := JEnd a c |}.

Lemma spawn_group_threads cfg a c s x u :
  sy_threads (spawn_group cfg a c s) !! x = Some u → sy_threads s !! x = Some u ∨ job_group (th_job u) = Some (a, c).
Proof.
  unfold spawn_group, spawn. set (course := match mgr_states _ !! a with Some _ => _ | None => _ end). clearbody course.
  destruct (cf_labels cfg), (_ && _); cbn; intros H;
    repeat (apply lookup_insert_Some in H as [[_ <-]|[_ H]]; [by right|]); by left.
Qed.

Lemma threads_step cfg op s s' x u :
  wf_sys s → room_step_op cfg op s = Some s' → sy_threads s' !! x = Some u →
  sy_threads s !! x = Some u ∨
  (∃ t i, op = OpThread x i ∧ sy_threads s !! x = Some t ∧ ¬ ended t ∧ job_group (th_job u) = job_group (th_job t)) ∨
  (∀ a c, job_group (th_job u) = Some (a, c) → mgr_ctxs (sy_mgr s) !! c = None).
Proof.
  intros W Hs Hx. destruct op as [pc|tid i|a n conn]; cbn in Hs.
  - destruct (is_call pc); [|done]. injection Hs as <-. cbn in Hx.
    apply lookup_insert_Some in Hx as [[_ <-]|[_ Hx]]; [by right; right|by left].
  - destruct (sy_threads s !! tid) as [t|] eqn:Ht; cbn in Hs; [|done].
    set (new := ∀ a c, job_group (th_job u) = Some (a, c) → mgr_ctxs (sy_mgr s) !! c = None).
    assert (Hgo : ∀ s1 t', sy_threads s1 = sy_threads s → ¬ ended t → job_group (th_job t') = job_group (th_job t) →
      sy_threads (set_thread tid t' s1) !! x = Some u →
      sy_threads s !! x = Some u ∨
      (∃ t i0, OpThread tid i = OpThread x i0 ∧ sy_threads s !! x = Some t ∧ ¬ ended t ∧ job_group (th_job u) = job_group (th_job t)) ∨
      new).
    { intros s1 t' E1 Hne Hg Hu. cbn in Hu. rewrite E1 in Hu. apply lookup_insert_Some in Hu as [[<- <-]|[_ Hu]]; [|by left].
      right. left. exists t, i. by split_and!. }
    assert (Hna : th_effects t ≠ [] ∨ (∀ a c, th_job t ≠ JEnd a c) → ¬ ended t).
    { intros [Hn|Hn] (a & c & ->); [done|by destruct (Hn a c)]. }
    unfold thread_step in Hs. destruct t as [[|e es] j]; cbn [th_effects th_job] in *.
    + destruct j as [a c pc|a c pc|a c pc|a c|pc]; [| | |done|].
      1-3: unfold group_step in Hs;
           match type of Hs with (?r ≫= _) = _ => destruct r as [[[m es] next]|] end; cbn in Hs; [|done]; injection Hs as <-;
           (eapply Hgo; [| | |exact Hx]; [done|apply Hna; by right|by destruct next]).
      destruct (api_step tid pc i s) as [r|] eqn:Ea; cbn in Hs; [|done].
      pose proof (λ a c, api_group _ _ _ _ _ a c Ea) as Hg. destruct r as [[[[m life] es] pc'] g]. cbn in Hg. injection Hs as <-.
      set (s1 := set_thread _ _ _) in *.
      assert (Hx' : sy_threads s1 !! x = Some u ∨ ∃ a c, g = Some (a, c) ∧ job_group (th_job u) = Some (a, c)).
      { destruct g as [[a c]|]; [|by left]. apply spawn_group_threads in Hx as [?|?]; [by left|right; eauto]. }
      destruct Hx' as [Hx'|(a & c & -> & Hu)].
      * eapply Hgo; [| | |exact Hx']; [done|apply Hna; by right|done].
      * right. right. intros a' c' Hu'. rewrite Hu in Hu'. injection Hu' as <- <-. by apply (Hg a c).
    + unfold effect_step in Hs. destruct e, i; try done.
      * destruct (job_group j) as [g|] eqn:Ej; cbn in Hs; [|done]. injection Hs as <-.
        eapply Hgo; [| | |exact Hx]; [done|apply Hna; by left|by cbn].
      * destruct (emitRoomEvents _ _ _) as [m evs]. injection Hs as <-. eapply Hgo; [| | |exact Hx]; [done|apply Hna; by left|done].
      * injection Hs as <-. eapply Hgo; [| | |exact Hx]; [done|apply Hna; by left|done].
  - unfold persist_step in Hs. destruct (mgr_states (sy_mgr s) !! a) as [st|]; cbn in Hs; [|done].
    destruct (rst_persist st !! n); cbn in Hs; [|done]. injection Hs as <-. by left.
Qed.

(** A closed done channel stays closed. *)
Lemma group_done_step cfg s s' c :
  wf_sys s → sys_step cfg s s' → is_Some (mgr_ctxs (sy_mgr s) !! c) →
  group_done c (sy_threads s) → group_done c (sy_threads s').
Proof.
  intros W [op Hs] [x0 Hc] Hd x u Hu [[a Hg] Hne].
  destruct (threads_step _ _ _ _ _ _ W Hs Hu) as [Hx|[(t & i & _ & Hx & Hn & Hgt)|Hnew]].
  - apply (Hd x u Hx). split; [by exists a|done].
  - apply (Hd x t Hx). split; [exists a; congruence|]. intros a' ->. apply Hn. by exists a', c.
  - rewrite (Hnew a c Hg) in Hc. done.
Qed.

(** The other goroutines are left alone. *)
Lemma spawn_group_keeps cfg a c s x t :
  (x < sy_next s)%nat → sy_threads s !! x = Some t → sy_threads (spawn_group cfg a c s) !! x = Some t.
Proof.
  intros Hlt Hx. unfold spawn_group, spawn. set (course := match mgr_states _ !! a with Some _ => _ | None => _ end). clearbody course.
  destruct (cf_labels cfg), (_ && _); cbn; rewrite !lookup_insert_ne by lia; done.
Qed.

Lemma other_thread cfg tid t i s s' x u :
  wf_sys s → sy_threads s !! tid = Some t → thread_step cfg tid t i s = Some s' → tid ≠ x → sy_threads s !! x = Some u →
  sy_threads s' !! x = Some u.
Proof.
  intros W Ht Hs Hne Hx. pose proof (ws_next _ W _ _ Hx) as Hlt.
  assert (Hgo : ∀ t' s1, sy_threads s1 = sy_threads s → sy_threads (set_thread tid t' s1) !! x = Some u).
  { intros t' s1 E. cbn. by rewrite lookup_insert_ne, E. }
  unfold thread_step in Hs. destruct t as [[|e es] j]; cbn [th_effects th_job] in Hs.
  - destruct j as [a c pc|a c pc|a c pc|a c|pc]; [| | |done|].
    1-3: unfold group_step in Hs;
         match type of Hs with (?r ≫= _) = _ => destruct r as [[[m es] next]|] end; cbn in Hs; [|done]; injection Hs as <-; by apply Hgo.
    destruct (api_step tid pc i s) as [[[[[m life] es] pc'] g]|]; cbn in Hs; [|done]. injection Hs as <-.
    destruct g as [[a c]|]; [|by apply Hgo]. apply spawn_group_keeps; [done|by apply Hgo].
  - unfold effect_step in Hs. destruct e, i; try done.
    + destruct (job_group j); cbn in Hs; [|done]. injection Hs as <-. by apply Hgo.
    + destruct (emitRoomEvents _ _ _). injection Hs as <-. by apply Hgo.
    + injection Hs as <-. by apply Hgo.
Qed.

(** A call goes on by its own sections only. *)
Lemma call_step cfg op s s' tid es pc :
  wf_sys s → room_step_op cfg op s = Some s' → sy_threads s !! tid = Some {| th_effects := es; th_job := JApi pc |} →
  ∃ es' pc', sy_threads s' !! tid = Some {| th_effects := es'; th_job := JApi pc' |} ∧
    (pc' = pc ∨ es = [] ∧ ∃ i r, op = OpThread tid i ∧ api_step tid pc i s = Some r ∧ r.1.2 = pc').
Proof.
  intros W Hs Ht. destruct op as [pc0|x i|a n conn]; cbn in Hs.
  - destruct (is_call pc0); [|done]. injection Hs as <-. exists es, pc. split; [|by left]. cbn.
    pose proof (ws_next _ W _ _ Ht). by rewrite lookup_insert_ne by lia.
  - destruct (sy_threads s !! x) as [t|] eqn:Hx; cbn in Hs; [|done]. destruct (decide (x = tid)) as [->|Hne].
    + rewrite Ht in Hx. injection Hx as <-. unfold thread_step in Hs. destruct es as [|e es]; cbn [th_effects th_job] in Hs.
      * destruct (api_step tid pc i s) as [r|] eqn:Ea; cbn in Hs; [|done]. destruct r as [[[[m life] es'] pc'] g] eqn:Er.
        exists es', pc'. split; [|right; split; [done|]; by exists i, r; rewrite Er]. destruct g as [[a c]|]; injection Hs as <-.
        -- apply spawn_group_keeps; [|apply lookup_insert_eq]. cbn. by eapply ws_next.
        -- apply lookup_insert_eq.
      * exists (default [] (th_effects <$> sy_threads s' !! tid)), pc. split; [|by left]. unfold effect_step in Hs.
        destruct e, i; try done; [destruct (emitRoomEvents _ _ _) as [m evs]|]; injection Hs as <-; cbn; by rewrite lookup_insert_eq.
    + exists es, pc. split; [|by left]. exact (other_thread cfg x t i s s' tid _ W Hx Hs Hne Ht).
  - unfold persist_step in Hs. destruct (mgr_states (sy_mgr s) !! a) as [st|]; cbn in Hs; [|done].
    destruct (rst_persist st !! n); cbn in Hs; [|done]. injection Hs as <-. exists es, pc. split; [done|by left].
Qed.

(** The rooms a StopAllActiveRooms still waits for. *)
Definition waiting (pc : ApiPC) : option (list StoppedRoom) :=
  match pc with
  | CStopWrite items _ => Some items
  | CStopWait item items _ => Some (item :: items)
  | CStopPersist _ items _ | CStopRewrite _ items _ | CStopClear _ items _ => Some items
  | CDone _ => Some []
  | _ => None
  end.

(** An error other than that of a write. *)
Definition gave_up (errs : list RoomError) : Prop := ∃ e, e ∈ errs ∧ ∀ id e', e ≠ RErrPersist id e'.

(** It still waits for each of these goroutine groups, or they have ended, unless it gave up. *)
Definition stopping (tid : nat) (dones : list nat) (s : RoomSys) : Prop :=
  ∃ es pc, sy_threads s !! tid = Some {| th_effects := es; th_job := JApi pc |} ∧
    ((∃ errs, pc = CDone errs ∧ gave_up errs) ∨
     ∃ items, waiting pc = Some items ∧
       ∀ c, c ∈ dones → (∃ item, item ∈ items ∧ sr_done item = Some c) ∨ group_done c (sy_threads s)).

Lemma waiting_next tid items errs : waiting (stop_next tid items errs).2 = Some items.
Proof. by destruct items. Qed.

(** A section of the call waits for no fewer rooms, but for one whose goroutines have ended. *)
Lemma waiting_step tid pc i s r items : api_step tid pc i s = Some r → waiting pc = Some items →
  (∃ errs, r.1.2 = CDone errs ∧ gave_up errs) ∨
  ∃ items', waiting r.1.2 = Some items' ∧
    ∀ item c, item ∈ items → sr_done item = Some c → item ∈ items' ∨ group_done c (sy_threads s).
Proof.
  assert (Hctx : ∀ errs, gave_up (errs ++ [RErrCtx])).
  { intros errs. exists RErrCtx. split; [set_solver|done]. }
  intros Hs Hw. destruct pc; try done; cbn in Hw; injection Hw as <-.
  - destruct items0 as [|item items]; [done|]. cbn in Hs. destruct i; try done. destruct (over _ _ _) as [t r']. injection Hs as <-. right.
    eexists. split; [done|]. by left.
  - cbn in Hs. destruct i; try done.
    + destruct (match sr_done item with Some c => _ | None => _ end) eqn:Ed; [|done]. injection Hs as <-. right.
      eexists. split; [done|]. intros x c [->|Hx]%elem_of_cons Hc; [|by left]. right. rewrite Hc in Ed. by apply bool_decide_eq_true in Ed.
    + destruct (sr_done item); [|done]. injection Hs as <-. left. eexists. split; [done|apply Hctx].
  - cbn in Hs. destruct (mgr_states _ !! _) as [st|]; cbn in Hs; [|done].
    destruct (rst_persist st), i; try done; injection Hs as <-; [right|left].
    + eexists. split; [done|]. by left.
    + eexists. split; [done|apply Hctx].
  - cbn in Hs. destruct i; try done. destruct (over _ _ _) as [t [x|e]].
    + injection Hs as <-. right. eexists. split; [done|]. by left.
    + match type of Hs with context [stop_next ?a ?b ?c] => pose proof (waiting_next a b c) as Hn; destruct (stop_next a b c) end.
      injection Hs as <-. right. eexists. split; [exact Hn|]. by left.
  - cbn in Hs. destruct i; try done. destruct (mgr_stuck _); [done|].
    match type of Hs with context [stop_next ?a ?b ?c] => pose proof (waiting_next a b c) as Hn; destruct (stop_next a b c) end.
    injection Hs as <-. right. eexists. split; [exact Hn|]. by left.
Qed.

Lemma stopping_step cfg tid dones s s' :
  wf_sys s → (∀ c, c ∈ dones → is_Some (mgr_ctxs (sy_mgr s) !! c)) → sys_step cfg s s' →
  stopping tid dones s → stopping tid dones s'.
Proof.
  intros W Hc [op Hs] (es & pc & Ht & Hi).
  assert (Hmono : ∀ c, c ∈ dones → group_done c (sy_threads s) → group_done c (sy_threads s')).
  { intros c Hin. apply (group_done_step cfg); [done|by exists op|by apply Hc]. }
  destruct (call_step _ _ _ _ _ _ _ W Hs Ht) as (es' & pc' & Ht' & Hpc). exists es', pc'. split; [done|].
  destruct Hpc as [->|(_ & i & r & _ & Ha & <-)].
  - destruct Hi as [Hi|(items & Hw & Hi)]; [by left|]. right. exists items. split; [done|]. intros c Hin.
    destruct (Hi c Hin); eauto.
  - destruct Hi as [(errs & -> & _)|(items & Hw & Hi)]; [done|].
    destruct (waiting_step _ _ _ _ _ _ Ha Hw) as [Hg|(items' & Hw' & Hx)]; [by left|]. right. exists items'. split; [done|].
    intros c Hin. destruct (Hi c Hin) as [(item & Hitem & Hd)|]; [|by eauto]. destruct (Hx item c Hitem Hd); eauto.
Qed.

Lemma stopping_steps cfg tid dones s s' :
  rtc (sys_step cfg) s s' → wf_sys s → (∀ c, c ∈ dones → is_Some (mgr_ctxs (sy_mgr s) !! c)) →
  stopping tid dones s → stopping tid dones s'.
Proof.
  induction 1 as [|s s1 s' Hs _ IH]; [done|]. intros W Hc Hi. apply IH; [by eapply step_wf| |by eapply stopping_step].
  intros c Hin. destruct (Hc c Hin) as [[a b] Hb]. destruct Hs as [op Hs]. destruct (step_op_wf _ _ _ _ W Hs) as (_ & _ & Hm & _).
  destruct (Hm c a b Hb) as (b' & Hb' & _). by eexists.
Qed.

Lemma done_stays cfg tid s s' errs :
  rtc (sys_step cfg) s s' → wf_sys s →
  (∃ es, sy_threads s !! tid = Some {| th_effects := es; th_job := JApi (CDone errs) |}) →
  ∃ es, sy_threads s' !! tid = Some {| th_effects := es; th_job := JApi (CDone errs) |}.
Proof.
  induction 1 as [|s s1 s' Hs _ IH]; [done|]. intros W [es Ht]. apply IH; [by eapply step_wf|]. destruct Hs as [op Hs].
  destruct (call_step _ _ _ _ _ _ _ W Hs Ht) as (es' & pc' & Ht' & [->|(_ & i & r & _ & Ha & _)]); [by eexists|done].
Qed.

Lemma stop_all_error ids : ∀ m m' e, stop_all ids m = (m', Err e) → ∃ id e', e = RErrStop id e'.
Proof.
  induction ids as [|id ids IH]; intros m m' e; cbn; [done|]. unfold stop_one.
  destruct (a ← mgr_rooms m !! id; s ← mgr_states m !! a; Some (a, s)) as [[a s]|].
  - destruct (rst_cancel s); [destruct (TransitionTo Stopped (rst_room s)) as [r [[]|e']]|]; [|intros [= _ <-]; by eexists _, _|];
      destruct (stop_all ids _) as [m2 [l|e2]] eqn:E; intros [= _ <-]; by eapply IH.
  - destruct (stop_all ids _) as [m2 [l|e2]] eqn:E; intros [= _ <-]; by eapply IH.
Qed.

(** StopAllActiveRooms from its first section to its return. *)
Lemma stop_all_waits cfg tid order s s1 s2 es errs :
  wf_sys s → sy_threads s !! tid = Some {| th_effects := []; th_job := JApi CStopAll |} →
  room_step_op cfg (OpThread tid (InOrder order)) s = Some s1 → rtc (sys_step cfg) s1 s2 →
  sy_threads s2 !! tid = Some {| th_effects := es; th_job := JApi (CDone errs) |} → ¬ gave_up errs →
  ∀ id a c, mgr_rooms (sy_mgr s) !! id = Some a → mgr_ctxs (sy_mgr s) !! c = Some (a, false) →
    ctx_done (sy_mgr s1) c = true ∧ group_done c (sy_threads s2).
Proof.
  intros W Ht Hs Hr Hend Hok id a c Hid Hc. set (m := sy_mgr s) in *.
  pose proof (step_op_wf _ _ _ _ W Hs) as [W1 (_ & Hm & _)]. fold m in Hm.
  cbn in Hs. rewrite Ht in Hs. cbn in Hs. fold m in Hs. destruct (sy_lifecycle s); [done|].
  destruct (mgr_stuck m || negb (walks order (mgr_rooms m))) eqn:Ew; [done|]. cbn in Hs.
  apply orb_false_iff in Ew as [_ Ew]. apply negb_false_iff, bool_decide_eq_true in Ew as [_ Ew].
  assert (Hin : id ∈ order).
  { apply (elem_of_list_to_set (C := gset string)). rewrite Ew. by apply elem_of_dom_2 in Hid. }
  destruct (core_live _ (ws_core _ W) c a Hc) as (st & Hst & Hcst). fold m in Hst.
  destruct (core_own _ (ws_core _ W) a st c Hst Hcst) as [Hdst _].
  assert (Hdone : ∀ pc', sy_threads s1 !! tid = Some {| th_effects := []; th_job := JApi pc' |} →
    ((∃ errs, pc' = CDone errs ∧ gave_up errs) ∨
     ∃ items item, waiting pc' = Some items ∧ item ∈ items ∧ sr_done item = Some c) → group_done c (sy_threads s2)).
  { intros pc' Hpc' Hw.
    destruct (stopping_steps cfg tid [c] s1 s2 Hr W1) as (es2 & pc2 & Ht2 & Hi2).
    - intros x ->%list_elem_of_singleton. destruct (Hm c a false Hc) as (b' & Hb' & _). by eexists.
    - exists [], pc'. split; [done|]. destruct Hw as [Hw|(items & item & Hw & Hi & Hd)]; [by left|]. right. exists items.
      split; [done|]. intros x ->%list_elem_of_singleton. left. by exists item.
    - rewrite Hend in Ht2. injection Ht2 as <- <-. destruct Hi2 as [(errs' & [= <-] & Hg)|(items & [= <-] & Hi)]; [done|].
      destruct (Hi c) as [(item & ?%elem_of_nil & _)|]; [by left|done|done]. }
  destruct (stop_all order m) as [m' [items|e]] eqn:Es.
  - destruct (stop_all_items _ _ _ _ id a st c Es Hin Hid Hst Hcst) as (item & Hitem & Hd). rewrite Hdst in Hd.
    pose proof (waiting_next tid items []) as Hn. destruct (stop_next tid items []) as [life' pc'] eqn:En.
    injection Hs as <-. cbn in Hn. split.
    + destruct (ctx_done _ c) eqn:Ed; [done|exfalso]. cbn in Ed, Hm.
      destruct (stop_all_cancel _ _ _ _ Es) as (R & S & _). destruct (Hm c a false Hc) as (b' & Hb' & _).
      unfold ctx_done in Ed. rewrite Hb' in Ed. subst b'. destruct (core_live _ (ws_core _ W1) c a Hb') as (st' & Hst' & Hc').
      by rewrite (S id a st' Hin Hid Hst') in Hc'.
    + eapply Hdone; [apply lookup_insert_eq|]. right. by exists items, item.
  - injection Hs as <-. exfalso.
    destruct (done_stays cfg tid _ s2 [e] Hr W1) as [es' He]; [eexists; apply lookup_insert_eq|].
    rewrite Hend in He. injection He as <- ->. apply Hok. exists e. split; [by left|].
    destruct (stop_all_error _ _ _ _ Es) as (x & e' & ->). done.
Qed.

(** C32: workers.  In every interleaving of the manager's calls with its goroutines: a
    goroutine whose context is not cancelled belongs to the one context its room state can
    cancel, so a room state has at most one live QR worker and none once its cancel function
    is gone; when StopAllActiveRooms returns and reports nothing but failed writes, every
    goroutine that was live for a registered room when it took the lock was cancelled there
    and has ended; and a step changes the status of a room state only by the transitions its
    section asks for, each only when it is allowed from the status it finds (the recovery of
    a session asks for two, every other section for at most one), and its identity never. *)
Theorem rooms_one_worker cfg table s :
  rtc (sys_step cfg) (initial table) s →
  let m := sy_mgr s in
  (∀ tid t a c, sy_threads s !! tid = Some t → job_group (th_job t) = Some (a, c) → ctx_done m c = false →
     ∃ st, mgr_states m !! a = Some st ∧ rst_cancel st = Some c) ∧
  (∀ tid1 tid2 t1 t2 a c1 c2 p1 p2,
     sy_threads s !! tid1 = Some t1 → sy_threads s !! tid2 = Some t2 →
     th_job t1 = JWorker a c1 p1 → th_job t2 = JWorker a c2 p2 →
     ctx_done m c1 = false → ctx_done m c2 = false → tid1 = tid2) ∧
  (∀ tid order s1 s2 es errs,
     sy_threads s !! tid = Some {| th_effects := []; th_job := JApi CStopAll |} →
     room_step_op cfg (OpThread tid (InOrder order)) s = Some s1 → rtc (sys_step cfg) s1 s2 →
     sy_threads s2 !! tid = Some {| th_effects := es; th_job := JApi (CDone errs) |} →
     (∀ e, e ∈ errs → ∃ id e', e = RErrPersist id e') →
     ∀ id a c, mgr_rooms m !! id = Some a → mgr_ctxs m !! c = Some (a, false) →
       ctx_done (sy_mgr s1) c = true ∧ group_done c (sy_threads s2)) ∧
  (∀ op s', room_step_op cfg op s = Some s' → states_evolve (moves (step_asks s op)) m (sy_mgr s')).
Proof.
  intros Hr m. pose proof (rooms_reachable_wf _ _ _ Hr) as W. destruct (W) as [Wc Wn Wg Wu].
  assert (Hlive : ∀ tid t a c, sy_threads s !! tid = Some t → job_group (th_job t) = Some (a, c) → ctx_done m c = false →
     ∃ st, mgr_states m !! a = Some st ∧ rst_cancel st = Some c).
  { intros tid t a c Ht Hg Hd. destruct (Wg tid t a c Ht Hg) as [b Hb]. unfold ctx_done in Hd. fold m in Hb. rewrite Hb in Hd.
    subst b. by apply (core_live _ Wc). }
  split_and!; [exact Hlive| | |intros op s' Hs; by apply (step_op_wf cfg op s s' W Hs)].
  - intros tid1 tid2 t1 t2 a c1 c2 p1 p2 H1 H2 J1 J2 D1 D2.
    destruct (Hlive tid1 t1 a c1) as (st & Hst & Hc1); [done|by rewrite J1|done|].
    destruct (Hlive tid2 t2 a c2) as (st' & Hst' & Hc2); [done|by rewrite J2|done|].
    simplify_eq. by eapply Wu.
  - intros tid order s1 s2 es errs Ht Hs Hrt Hend Hok. eapply stop_all_waits; eauto.
    intros (e & He & Hn). destruct (Hok e He) as (id & e' & ->). by destruct (Hn id e').
Qed.

(** * Emission *)

(** Emissions one after the other: each with its revision, or held back. *)
Definition emit_next (acc : RoomManager * list (Z * Room * option Z)) (x : Z * Room) : RoomManager * list (Z * Room * option Z) :=
  let '(m', revision) := emit_gate x.1 x.2 acc.1 in (m', acc.2 ++ [(x, revision)]).

Definition emit_run (m : RoomManager) (l : list (Z * Room)) : RoomManager * list (Z * Room * option Z) :=
  foldl emit_next (m, []) l.

(** The emissions of a room: when, and under which revision. *)
Definition emitted (id : string) (l : list (Z * Room * option Z)) : list (Z * Z) :=
  omap (λ x, revision ← x.2; if decide (rm_RoomID x.1.2 = id) then Some (x.1.1, revision) else None) l.

Definition time_critical (r : Room) : Prop := rm_QRURL r ≠ None ∨ rm_Status r = Stopped.
#[export] Instance time_critical_dec r : Decision (time_critical r).
Proof. unfold time_critical. apply _. Defined.

(** A change is held back when it is not critical and another was emitted shortly before. *)
Definition held_back (now : Z) (last : option Z) (r : Room) : Prop :=
  ¬ time_critical r ∧ match last with Some t => time_Sub now t < minEmitInterval | None => False end.
#[export] Instance held_back_dec now last r : Decision (held_back now last r).
Proof. unfold held_back. destruct last; apply _. Defined.

Lemma emit_gate_spec now r m :
  emit_gate now r m =
    if decide (held_back now (mgr_lastEmittedAt m !! rm_RoomID r) r) then (m, None)
    else let revision := wrap64 (default 0 (mgr_emitSeqs m !! rm_RoomID r) + 1) in
         (mgr_set_emit (<[rm_RoomID r := now]> (mgr_lastEmittedAt m)) (<[rm_RoomID r := revision]> (mgr_emitSeqs m)) m,
          Some revision).
Proof.
  unfold emit_gate. set (held := match _ !! _ with Some _ => _ | None => _ end).
  assert (Hh : held = true ↔ held_back now (mgr_lastEmittedAt m !! rm_RoomID r) r).
  { unfold held, held_back, time_critical. destruct (mgr_lastEmittedAt m !! rm_RoomID r) as [t|]; [|naive_solver].
    rewrite andb_true_iff, negb_true_iff, orb_false_iff, !bool_decide_eq_false, Z.ltb_lt. naive_solver. }
  destruct held.
  - by rewrite decide_True by (by apply Hh).
  - rewrite decide_False; [done|]. intros Hx. by apply Hh in Hx.
Qed.

Lemma emit_run_snoc m l x : emit_run m (l ++ [x]) = emit_next (emit_run m l) x.
Proof. apply foldl_snoc. Qed.

Lemma emitted_snoc id l x : emitted id (l ++ [x]) = emitted id l ++ emitted id [x].
Proof. unfold emitted. by rewrite omap_app. Qed.

(** The counter of a room and the time of its last emission, after some emissions. *)
Lemma emit_run_state m l id : 
  let '(m', out) := emit_run m l in
  let q := default 0 (mgr_emitSeqs m !! id) in
  0 ≤ q → q + Z.of_nat (length l) < 2 ^ 63 →
  default 0 (mgr_emitSeqs m' !! id) = q + Z.of_nat (length (emitted id out)) ∧
  (length (emitted id out) ≤ length l)%nat ∧
  map snd (emitted id out) = seqZ (q + 1) (Z.of_nat (length (emitted id out))) ∧
  mgr_lastEmittedAt m' !! id = match last (emitted id out) with Some x => Some x.1 | None => mgr_lastEmittedAt m !! id end.
Proof.
  induction l as [|[now r] l IH] using rev_ind; [cbn; intros; split_and!; [lia|lia|done|done]|].
  rewrite emit_run_snoc. destruct (emit_run m l) as [m1 out]. unfold emit_next. cbn [fst snd].
  rewrite emit_gate_spec. cbv zeta. set (q := default 0 (mgr_emitSeqs m !! id)) in *. rewrite length_app. cbn [length].
  destruct (decide (held_back _ _ _)) as [Hh|Hh].
  - rewrite emitted_snoc. cbn. rewrite app_nil_r. intros Hq Hlt. destruct IH as (? & ? & ? & ?); [done|lia|].
    split_and!; [done|lia|done|done].
  - rewrite emitted_snoc. cbn. intros Hq Hlt. destruct IH as (I1 & I2 & I3 & I4); [done|lia|].
    destruct (decide (rm_RoomID r = id)) as [->|Hne]; cbn [app].
    + assert (wrap64 (default 0 (mgr_emitSeqs m1 !! id) + 1) = q + Z.of_nat (length (emitted id out)) + 1) as ->.
      { rewrite I1. unfold wrap64. rewrite Z.mod_small; lia. }
      rewrite !lookup_insert_eq, last_snoc, length_app, map_app, I3. cbn [default fst snd map length].
      split_and!; [cbn; lia|lia| |done].
      replace (Z.of_nat (length (emitted id out) + 1)) with (Z.of_nat (length (emitted id out)) + 1) by lia.
      rewrite seqZ_app by lia. f_equal. rewrite seqZ_cons by lia. f_equal. lia.
    + rewrite app_nil_r, !lookup_insert_ne by done. split_and!; [done|lia|done|done].
Qed.

(** Revisions.  As long as a room is not deleted, the changes emitted for it carry
    consecutive revisions; a change is held back exactly when the room serves no QR, is not
    stopped, and its last emitted change is less than five seconds old. *)
Lemma emit_revisions m l id now r :
  let q := default 0 (mgr_emitSeqs m !! id) in
  0 ≤ q → q + Z.of_nat (length l) < 2 ^ 63 →
  let out := (emit_run m l).2 in
  map snd (emitted id out) = seqZ (q + 1) (Z.of_nat (length (emitted id out))) ∧
  (rm_RoomID r = id →
   ((emitRoomEvents now r (emit_run m l).1).2 = [] ↔
    held_back now (match last (emitted id out) with Some x => Some x.1 | None => mgr_lastEmittedAt m !! id end) r)).
Proof.
  intros q Hq Hlt out. pose proof (emit_run_state m l id) as Hs. unfold out. destruct (emit_run m l) as [m' o].
  destruct (Hs Hq Hlt) as (_ & _ & Hrev & Hlast). split; [done|]. intros Hid. cbn [fst snd].
  rewrite <- Hlast, <- Hid. unfold emitRoomEvents. rewrite emit_gate_spec. destruct (decide _); cbn; [done|].
  by split.
Qed.

(** * Check-in deltas *)

(** A client that applies the events to what it knows. *)
Definition apply_update (known : gmap string bool) (u : CheckinUpdate) : gmap string bool :=
  <[cu_StudentID u := cu_CheckedIn u]> known.
Definition apply_event (known : gmap string bool) (ev : RoomEvent) : gmap string bool :=
  match ev_Data ev with
  | DataCheckin u => apply_update known u
  | DataCheckins u => foldl apply_update known (cus_Updates u)
  | _ => known
  end.

Lemma elem_of_deltas prev current order id b :
  (id, b) ∈ checkin_deltas prev current order ↔ id ∈ order ∧ current !! id = Some b ∧ prev !! id ≠ Some b.
Proof.
  unfold checkin_deltas. rewrite list_elem_of_omap. split.
  - intros (x & Hx & E). destruct (current !! x) as [b'|] eqn:Ec; cbn in E; [|done].
    case_bool_decide; [done|]. by simplify_eq.
  - intros (Hin & Hc & Hp). exists id. split; [done|]. rewrite Hc. cbn. by rewrite bool_decide_eq_false_2.
Qed.

Lemma deltas_nodup prev current order : NoDup order → NoDup (checkin_deltas prev current order).*1.
Proof.
  intros Hn. unfold checkin_deltas. induction Hn as [|x l Hx Hl IH]; cbn; [constructor|].
  destruct (current !! x) as [b|] eqn:E; cbn; [|done]. case_bool_decide; cbn; [done|]. constructor; [|done].
  intros ([x' b'] & -> & Hin)%list_elem_of_fmap. cbn in *. by apply (elem_of_deltas prev current l) in Hin as [? _].
Qed.

Lemma foldl_updates courseID sessionID now (d : list (string * bool)) : ∀ known, NoDup d.*1 →
  foldl apply_update known (map (checkin_update courseID sessionID now) d) = list_to_map d ∪ known.
Proof.
  induction d as [|[id b] d IH]; intros known Hn; cbn; [by rewrite (left_id_L ∅ (∪))|].
  apply NoDup_cons in Hn as [Hid Hn]. rewrite IH by done. unfold apply_update. cbn.
  rewrite <- insert_union_r by (by apply not_elem_of_list_to_map). by rewrite insert_union_l.
Qed.

Lemma foldl_events courseID sessionID now updates known :
  foldl apply_event known (delta_events courseID sessionID now updates) = foldl apply_update known updates.
Proof.
  unfold delta_events. destruct (decide _) as [_|_]; [|done]. revert known. induction updates; intros known; cbn; auto.
Qed.

Lemma checkinMap_lookup students : NoDup (map sc_StudentID students) → ∀ id,
  checkinMap students !! id = Some true ↔ ∃ s, s ∈ students ∧ sc_StudentID s = id ∧ sc_CheckedIn s = true.
Proof.
  unfold checkinMap. induction students as [|s l IH] using rev_ind; intros Hn id.
  - cbn. split; [done|]. by intros (? & ?%elem_of_nil & _).
  - rewrite map_app in Hn. rewrite foldl_snoc. apply NoDup_app in Hn as (Hn & Hd & _). specialize (IH Hn id).
    rewrite lookup_insert_Some, IH. setoid_rewrite elem_of_app. setoid_rewrite list_elem_of_singleton. split.
    + intros [[<- Hc]|[Hne (s' & ? & ? & ?)]]; [exists s|exists s']; auto.
    + intros (s' & [Hin| ->] & <- & Hc); [|by left]. right. split; [|by eauto]. intros E.
      apply (Hd (sc_StudentID s')); [|rewrite <- E; cbn; by left]. change (map ?f ?l) with (f <$> l). apply list_elem_of_fmap. eauto.
Qed.

Lemma deltas_apply prev current order : NoDup order → list_to_set order = dom current →
  list_to_map (checkin_deltas prev current order) ∪ prev = current ∪ prev.
Proof.
  intros Hn Hd. apply map_eq. intros id. rewrite !lookup_union.
  assert (Ho : ∀ b, current !! id = Some b → id ∈ order).
  { intros b Hb. apply (elem_of_list_to_set (C := gset string)). rewrite Hd. by apply elem_of_dom_2 in Hb. }
  assert (Hl : ∀ b, (list_to_map (checkin_deltas prev current order) : gmap string bool) !! id = Some b ↔
    current !! id = Some b ∧ prev !! id ≠ Some b).
  { intros b. rewrite <- elem_of_list_to_map by (by apply deltas_nodup). rewrite elem_of_deltas. naive_solver. }
  destruct (list_to_map _ !! id) as [b|].
  - destruct (proj1 (Hl b) eq_refl) as [-> _]. done.
  - destruct (current !! id) as [b|]; [|done]. destruct (decide (prev !! id = Some b)) as [->|Hp]; [done|].
    discriminate (proj2 (Hl b) (conj eq_refl Hp)).
Qed.

(** What a roster that lost no student leaves of the state a client had. *)
Lemma union_of_larger (current prev : gmap string bool) : dom prev ⊆ dom current → current ∪ prev = current.
Proof.
  intros Hd. apply map_eq. intros id. destruct (current !! id) as [b|] eqn:E; [by apply lookup_union_Some_l|].
  rewrite lookup_union_r by done. apply not_elem_of_dom. intros Hin%Hd. by apply not_elem_of_dom in E.
Qed.

Lemma subset_of_larger (current prev : gmap string bool) : dom prev ⊆ dom current → current ⊆ prev ↔ current = prev.
Proof.
  intros Hd. split; [|by intros ->]. intros Hs. rewrite <- (union_of_larger current prev Hd).
  by apply map_subseteq_union.
Qed.

(** C33: check-in deltas.  A cycle of the synchronisation that finds a previous state
    reports each student that is new or whose check-in changed, once and with the new
    state, and nobody else.  A client that applies the published events, single or batched,
    to the previous state has every student of the current roster in the current state, and
    keeps a student that left the roster as it was: leaving is not published, and nothing is
    published exactly when the current state adds nothing to the previous one.  Unless a
    student left, the client has exactly the current state, and nothing is published exactly
    when nothing changed.  The current state is the next cycle's previous one. *)
Theorem checkin_deltas_roundtrip a students courseID sessionID now order m m' updates st prev :
  mgr_states m !! a = Some st → rst_lastCheckins st = Some prev →
  publishCheckinDeltas a students courseID sessionID now order m = Some (m', updates) →
  let current := checkinMap students in
  (∃ st', mgr_states m' !! a = Some st' ∧ rst_lastCheckins st' = Some current) ∧
  NoDup (map cu_StudentID updates) ∧
  (∀ id b, (∃ u, u ∈ updates ∧ cu_StudentID u = id ∧ cu_CheckedIn u = b) ↔ current !! id = Some b ∧ prev !! id ≠ Some b) ∧
  foldl apply_event prev (delta_events courseID sessionID now updates) = current ∪ prev ∧
  (updates = [] ↔ current ⊆ prev) ∧
  (dom prev ⊆ dom current →
     foldl apply_event prev (delta_events courseID sessionID now updates) = current ∧ (updates = [] ↔ current = prev)).
Proof.
  intros Hst Hprev. unfold publishCheckinDeltas. rewrite Hst. cbn. destruct (negb _) eqn:Hw; [done|]. rewrite Hprev.
  apply negb_false_iff, bool_decide_eq_true in Hw as [Hn Hd]. intros [= <- <-].
  set (current := checkinMap students) in *. set (d := checkin_deltas prev current order).
  assert (Hu : ∀ id b, (∃ u, u ∈ map (checkin_update courseID sessionID now) d ∧ cu_StudentID u = id ∧ cu_CheckedIn u = b) ↔
    current !! id = Some b ∧ prev !! id ≠ Some b).
  { intros id b. transitivity ((id, b) ∈ d).
    - change (map ?f d) with (f <$> d). setoid_rewrite list_elem_of_fmap. split.
      + intros (u & ([id' b'] & -> & Hin) & <- & <-). done.
      + intros Hin. eexists. split; [by exists (id, b)|done].
    - unfold d. rewrite elem_of_deltas. split; [naive_solver|]. intros [Hc Hp]. split_and!; try done.
      apply (elem_of_list_to_set (C := gset string)). rewrite Hd. by apply elem_of_dom_2 in Hc. }
  assert (Happ : foldl apply_event prev (delta_events courseID sessionID now (map (checkin_update courseID sessionID now) d)) = current ∪ prev).
  { rewrite foldl_events, foldl_updates by (by apply deltas_nodup). by apply deltas_apply. }
  assert (Hnone : map (checkin_update courseID sessionID now) d = [] ↔ current ⊆ prev).
  { split.
    + intros E. rewrite E in Hu. apply map_subseteq_spec. intros id b Hb.
      destruct (decide (prev !! id = Some b)) as [|Hp]; [done|].
      destruct (proj2 (Hu id b) (conj Hb Hp)) as (u & ?%elem_of_nil & _). done.
    + intros Hs. destruct (map _ d) as [|u l] eqn:E; [done|exfalso].
      destruct (proj1 (Hu (cu_StudentID u) (cu_CheckedIn u))) as [Hc Hp]; [exists u; split; [by left|done]|].
      apply Hp. by eapply lookup_weaken. }
  split_and!; [|rewrite map_map; cbn; by apply deltas_nodup|exact Hu|exact Happ|exact Hnone|].
  - eexists. split; [cbn; by rewrite list_lookup_alter_eq, Hst|done].
  - intros Hd'. rewrite Happ, Hnone. split; [by apply union_of_larger|by apply subset_of_larger].
Qed.

(** ** Cadence *)

Lemma growSyncInterval_bounds n : 0 ≤ n →
  sessionSyncBaseInterval ≤ growSyncInterval n ≤ sessionSyncMaxInterval ∧
  growSyncInterval n ≤ growSyncInterval (n + 1).
Proof.
  intros Hn. unfold growSyncInterval, sessionSyncUnchangedToMax, sessionSyncMaxInterval, sessionSyncBaseInterval, Second.
  destruct (Z.leb_spec 7 n), (Z.leb_spec 7 (n + 1)); lia.
Qed.

(** A 429 of the site comes as [UpstreamStatusError] and not as ErrRateLimited, so the
    back-off meant for it is not applied. *)
Lemma rate_limit_not_backed_off retry n :
  sync_after_error (UpstreamStatusError 429 retry) n = (growSyncInterval (n + 1), n + 1).
Proof. done. Qed.

(** The next fetch is due when three quarters of the QR's lifetime have passed. *)
Lemma fetch_at_three_quarters e ttl now : 0 < ttl < 2 ^ 31 →
  shouldFetchQR (Some e) ttl now = true ↔ e - ttl * Second + (ttl * 3 / 4) * Second < now.
Proof.
  intros Ht. unfold shouldFetchQR, time_After, time_Add, uint64_seconds, CalculateNextFetchDelay, Second.
  rewrite (proj2 (Z.eqb_neq ttl 0)) by lia. rewrite Z.ltb_lt.
  assert (H3 : (ttl * 3) mod 2 ^ 64 = ttl * 3) by (apply Z.mod_small; lia). rewrite H3.
  assert (Hb : 0 ≤ ttl * 3 / 4 ≤ ttl) by (split; [apply Z.div_pos; lia|apply Z.div_le_upper_bound; lia]).
  set (d := ttl * 3 / 4) in *. clearbody d.
  assert (Hw : ∀ x, - 2 ^ 63 ≤ x < 2 ^ 63 → wrap64 x = x) by (intros x Hx; unfold wrap64; rewrite Z.mod_small; lia).
  rewrite (Hw ttl), (Hw (- ttl)), (Hw (- ttl * _)), (Hw d), (Hw (d * _)) by lia. lia.
Qed.
