(* ===== verification/Checkin.v ===== *)
(** Idempotent check-in ([internal/service/teacher.go]: Checkin, currentCheckinState,
    storedCheckinResult, ToggleCheckin; [internal/db/snapshot_repository.go]: the
    checkin_mutation_requests table, its operations and the advisory lock).

    [Checkin] is a sequence of calls on the database, the upstream site and the snapshot
    reader, so the model is a transition system of concurrent requests whose steps are
    those calls; what the upstream and the readers answer is an input of the step.  The
    response column is the value it encodes. *)

From stdpp Require Import base list numbers strings gmap relations.
From Stdlib Require Import ZArith Lia.
From S2P Require Import Prelude Domain Canonical.

Local Open Scope Z_scope.
Local Open Scope stdpp_scope.
Local Open Scope go_scope.

(** * The table of idempotency keys *)

Inductive KeyStatus := KReserved | KConfirmed | KPendingVerification | KFailed.
#[export] Instance key_status_eq_dec : EqDecision KeyStatus.
Proof. solve_decision. Defined.

(** The outcome of a check-in; [IdempotentCheckinResponse] has the same fields. *)
Inductive CheckinStatus := Confirmed | AlreadySatisfied | PendingVerification.
Record CheckinResult := {
  cr_Status : CheckinStatus;
  cr_CheckedIn : bool;
  cr_SnapshotVersion : Z;
  cr_RefreshPending : bool
}.

Record CheckinRequest := {
  cq_CourseID : string;
  cq_SessionID : string;
  cq_StudentID : string;
  cq_DesiredCheckedIn : bool;
  cq_ExpectedSnapshotVersion : option Z;
  cq_IdempotencyKey : string
}.

Record KeyRow := {
  kr_course_id : string;
  kr_session_id : string;
  kr_student_id : string;
  kr_desired_checked_in : bool;
  kr_expected_snapshot_version : option Z;
  kr_status : KeyStatus;
  kr_upstream_attempted : bool;
  kr_response : option CheckinResult;
  kr_error_code : option string
}.

Notation KeyTable := (gmap string KeyRow).

Record IdempotencyKeyResult := {
  ik_Found : bool;
  ik_Match : bool;
  ik_Status : KeyStatus;
  ik_Response : option CheckinResult
}.

Definition sameIntPtr (a b : option Z) : bool :=
  match a, b with
  | None, None => true
  | Some x, Some y => x =? y
  | _, _ => false
  end.

Definition reserved_row (q : CheckinRequest) : KeyRow :=
  {| kr_course_id := cq_CourseID q; kr_session_id := cq_SessionID q; kr_student_id := cq_StudentID q;
     kr_desired_checked_in := cq_DesiredCheckedIn q;
     kr_expected_snapshot_version := cq_ExpectedSnapshotVersion q; kr_status := KReserved;
     kr_upstream_attempted := false; kr_response := None; kr_error_code := None |}.

Definition key_matches (q : CheckinRequest) (r : KeyRow) : bool :=
  bool_decide (kr_course_id r = cq_CourseID q) && bool_decide (kr_session_id r = cq_SessionID q) &&
  bool_decide (kr_student_id r = cq_StudentID q) && Bool.eqb (kr_desired_checked_in r) (cq_DesiredCheckedIn q) &&
  sameIntPtr (kr_expected_snapshot_version r) (cq_ExpectedSnapshotVersion q).

(** Insert, or read what is there. *)
Definition ReserveIdempotencyKey (q : CheckinRequest) (keys : KeyTable) : KeyTable * IdempotencyKeyResult :=
  match keys !! cq_IdempotencyKey q with
  | None => (<[cq_IdempotencyKey q := reserved_row q]> keys,
             {| ik_Found := false; ik_Match := false; ik_Status := KReserved; ik_Response := None |})
  | Some r => (keys, {| ik_Found := true; ik_Match := key_matches q r; ik_Status := kr_status r;
                        ik_Response := kr_response r |})
  end.

(** [UPDATE ... WHERE idempotency_key = $1 AND status = 'reserved'] *)
Definition settle_row (st : KeyStatus) (response : option CheckinResult) (code : option string) (r : KeyRow) : KeyRow :=
  match kr_status r with
  | KReserved =>
      {| kr_course_id := kr_course_id r; kr_session_id := kr_session_id r; kr_student_id := kr_student_id r;
         kr_desired_checked_in := kr_desired_checked_in r;
         kr_expected_snapshot_version := kr_expected_snapshot_version r; kr_status := st;
         kr_upstream_attempted := true; kr_response := response;
         kr_error_code := match code with Some c => Some c | None => kr_error_code r end |}
  | _ => r
  end.

(** An error when no reserved row has the key. *)
Definition ConfirmIdempotencyKey (key : string) (response : CheckinResult) (keys : KeyTable) : result string KeyTable :=
  match keys !! key with
  | Some r => match kr_status r with
              | KReserved => Ok (<[key := settle_row KConfirmed (Some response) None r]> keys)
              | _ => Err "confirm idempotency key: key not found in reserved state"
              end
  | None => Err "confirm idempotency key: key not found in reserved state"
  end.

Definition MarkIdempotencyKeyPending (key : string) (response : CheckinResult) (keys : KeyTable) : KeyTable :=
  alter (settle_row KPendingVerification (Some response) None) key keys.

Definition MarkIdempotencyKeyFailed (key errorCode : string) (keys : KeyTable) : KeyTable :=
  alter (settle_row KFailed None (Some errorCode)) key keys.

(** * Errors and the current state *)

Inductive CheckinError :=
| CheckinMutatorMissing
| CheckinConflict (currentVersion : Z) (currentChecked : bool)
| CheckinStudentNotFound (student session : string)
| CheckinUpstream (msg : string)
| CheckinRead (msg : string).

Record currentState := {
  cst_upstreamStudentID : string;
  cst_checkedIn : bool;
  cst_snapshotVersion : Z
}.

(** What the reader returns: a snapshot in snapshot mode, a session (or nil) otherwise,
    and the profiles. *)
Inductive SessionRead :=
| ReadSnapshot (s : result string Snapshot)
| ReadLive (d : result string (option SessionDetail)).

Record StateRead := { sr_Session : SessionRead; sr_Profiles : result string (list StudentProfile) }.

Section checkin.
Context `{GoLib}.

Definition decode_session (r : SessionRead) : result CheckinError (SessionDetail * Z) :=
  match r with
  | ReadSnapshot (Err e) => Err (CheckinRead e)
  | ReadSnapshot (Ok sn) =>
      match json_Unmarshal SnapshotSessionDetail (sn_Payload sn) with
      | Some (VSessionDetail d) => Ok (d, sn_Version sn)
      | _ => Err (CheckinRead "checkin decode snapshot")
      end
  | ReadLive (Err e) => Err (CheckinRead e)
  | ReadLive (Ok None) => Err (CheckinRead "checkin live session returned nil detail")
  | ReadLive (Ok (Some d)) => Ok (d, 0)
  end.

Definition currentCheckinState (q : CheckinRequest) (rd : StateRead) : result CheckinError currentState :=
  let* (detail, version) := decode_session (sr_Session rd) in
  let students := sd_Students detail in
  let profiles := match sr_Profiles rd with Ok l => l | Err _ => [] end in
  let missing := CheckinStudentNotFound (cq_StudentID q) (cq_SessionID q) in
  match ResolveCheckinStudentID (cq_StudentID q) students profiles with
  | None => Err (match sr_Profiles rd with Err e => CheckinRead e | Ok _ => missing end)
  | Some up =>
      match head (base.filter (λ s, sc_StudentID s = up) students) with
      | None => Err missing
      | Some s => Ok {| cst_upstreamStudentID := up; cst_checkedIn := sc_CheckedIn s; cst_snapshotVersion := version |}
      end
  end.

Definition storedCheckinResult (stored : IdempotencyKeyResult) : result CheckinError CheckinResult :=
  match ik_Status stored with
  | KFailed => Err (CheckinUpstream "checkin request previously failed")
  | _ =>
      match ik_Response stored with
      | None => Ok {| cr_Status := PendingVerification; cr_CheckedIn := false; cr_SnapshotVersion := 0; cr_RefreshPending := true |}
      | Some r => Ok r
      end
  end.

(** * Checkin *)

(** The update of the key that ends a request. *)
Inductive Settlement := SConfirm (r : CheckinResult) | SPending (r : CheckinResult) | SFail (code : string).

(** Where a request is, between two calls. *)
Inductive CheckinPC :=
| CStart                                                   (* before AcquireCheckinLock *)
| CLocked                                                  (* before ReserveIdempotencyKey *)
| CReserved                                                (* before the first currentCheckinState *)
| CWrite (cur : currentState)                              (* before ToggleCheckin *)
| CVerify (cur : currentState) (attempt : nat)             (* in the verification loop *)
| CSettle (s : Settlement) (r : result CheckinError CheckinResult)  (* before the update of the key *)
| CDone (r : result CheckinError CheckinResult)            (* before the lock's release *)
| CReturned (r : result CheckinError CheckinResult)
| CCrashed.

Definition checkin_reserved (q : CheckinRequest) (res : IdempotencyKeyResult) : CheckinPC :=
  if ik_Found res && negb (ik_Match res) then CDone (Err (CheckinConflict 0 false))
  else if ik_Found res then CDone (storedCheckinResult res)
  else CReserved.

(** The decisions on the current state. *)
Definition checkin_current (snapshotMode : bool) (q : CheckinRequest) (cur : result CheckinError currentState) : CheckinPC :=
  match cur with
  | Err e => CSettle (SFail "student_state_error") (Err e)
  | Ok c =>
      let stale := match cq_ExpectedSnapshotVersion q with
                   | Some v => snapshotMode && negb (v =? cst_snapshotVersion c)
                   | None => false
                   end in
      if stale && negb (Bool.eqb (cst_checkedIn c) (cq_DesiredCheckedIn q))
      then CDone (Err (CheckinConflict (cst_snapshotVersion c) (cst_checkedIn c)))
      else if Bool.eqb (cst_checkedIn c) (cq_DesiredCheckedIn q) then
        let r := {| cr_Status := AlreadySatisfied; cr_CheckedIn := cst_checkedIn c;
                    cr_SnapshotVersion := cst_snapshotVersion c; cr_RefreshPending := false |} in
        CSettle (SConfirm r) (Ok r)
      else CWrite c
  end.

Definition checkin_written (cur : currentState) (upstream : result string unit) : CheckinPC :=
  match upstream with
  | Err e => CSettle (SFail "upstream_error") (Err (CheckinUpstream e))
  | Ok _ => CVerify cur 0
  end.

(** One attempt at verification; [refresh] is RefreshNow's error in snapshot mode. *)
Definition checkin_verify (snapshotMode : bool) (q : CheckinRequest) (cur : currentState) (attempt : nat)
    (refresh : option string) (verified : result CheckinError currentState) : CheckinPC :=
  if snapshotMode && bool_decide (is_Some refresh) then CVerify cur (S attempt)
  else
    match verified with
    | Ok v =>
        if Bool.eqb (cst_checkedIn v) (cq_DesiredCheckedIn q) then
          let r := {| cr_Status := Confirmed; cr_CheckedIn := cst_checkedIn v;
                      cr_SnapshotVersion := cst_snapshotVersion v; cr_RefreshPending := false |} in
          CSettle (SConfirm r) (Ok r)
        else CVerify cur (S attempt)
    | Err _ => CVerify cur (S attempt)
    end.

Definition checkin_unverified (q : CheckinRequest) (cur : currentState) : CheckinPC :=
  let r := {| cr_Status := PendingVerification; cr_CheckedIn := cq_DesiredCheckedIn q;
              cr_SnapshotVersion := cst_snapshotVersion cur; cr_RefreshPending := true |} in
  CSettle (SPending r) (Ok r).

Definition settle (key : string) (s : Settlement) (keys : KeyTable) : KeyTable :=
  match s with
  | SConfirm r => match ConfirmIdempotencyKey key r keys with Ok keys' => keys' | Err _ => keys end
  | SPending r => MarkIdempotencyKeyPending key r keys
  | SFail code => MarkIdempotencyKeyFailed key code keys
  end.

(** The advisory lock's key, from PostgreSQL's 32-bit text hash. *)
Definition lock_key (hashtext : string → Z) (session student : string) : Z :=
  Z.lor (Z.shiftl (hashtext session) 32) (Z.land (hashtext student) (2 ^ 32 - 1)).

(** One attempt at writing upstream. *)
Record UpstreamWrite := {
  uw_Key : string;
  uw_Session : string;
  uw_Student : string;
  uw_Checked : bool
}.

Record CheckinWorld := {
  cw_keys : KeyTable;
  cw_locks : gmap Z nat;
  cw_writes : list UpstreamWrite;
  cw_requests : gmap nat (CheckinRequest * CheckinPC)
}.

Definition goto_pc (id : nat) (q : CheckinRequest) (pc : CheckinPC) (w : CheckinWorld) : CheckinWorld :=
  {| cw_keys := cw_keys w; cw_locks := cw_locks w; cw_writes := cw_writes w;
     cw_requests := <[id := (q, pc)]> (cw_requests w) |}.

Definition set_keys (keys : KeyTable) (w : CheckinWorld) : CheckinWorld :=
  {| cw_keys := keys; cw_locks := cw_locks w; cw_writes := cw_writes w; cw_requests := cw_requests w |}.

Definition set_locks (locks : gmap Z nat) (w : CheckinWorld) : CheckinWorld :=
  {| cw_keys := cw_keys w; cw_locks := locks; cw_writes := cw_writes w; cw_requests := cw_requests w |}.

Definition add_write (u : UpstreamWrite) (w : CheckinWorld) : CheckinWorld :=
  {| cw_keys := cw_keys w; cw_locks := cw_locks w; cw_writes := cw_writes w ++ [u]; cw_requests := cw_requests w |}.

(** What the step of a request gets from outside: the reader's, the refresher's and the
    upstream's answers, and whether an update reached the database. *)
Record StepInput := {
  si_Read : StateRead;
  si_Refresh : option string;
  si_Upstream : result string unit;
  si_Kept : bool
}.

(** The next call of a request; [None] when it has to wait for the lock or has returned. *)
Definition checkin_step (hashtext : string → Z) (snapshotMode : bool) (i : StepInput) (id : nat) (w : CheckinWorld)
    : option CheckinWorld :=
  '(q, pc) ← cw_requests w !! id;
  let lk := lock_key hashtext (cq_SessionID q) (cq_StudentID q) in
  match pc with
  | CStart =>
      match cw_locks w !! lk with
      | Some _ => None
      | None => Some (goto_pc id q CLocked (set_locks (<[lk := id]> (cw_locks w)) w))
      end
  | CLocked =>
      let '(keys, res) := ReserveIdempotencyKey q (cw_keys w) in
      Some (goto_pc id q (checkin_reserved q res) (set_keys keys w))
  | CReserved => Some (goto_pc id q (checkin_current snapshotMode q (currentCheckinState q (si_Read i))) w)
  | CWrite cur =>
      let u := {| uw_Key := cq_IdempotencyKey q; uw_Session := cq_SessionID q;
                  uw_Student := cst_upstreamStudentID cur; uw_Checked := cq_DesiredCheckedIn q |} in
      Some (goto_pc id q (checkin_written cur (si_Upstream i)) (add_write u w))
  | CVerify cur attempt =>
      Some (goto_pc id q
              (if (attempt <? 2)%nat
               then checkin_verify snapshotMode q cur attempt (si_Refresh i) (currentCheckinState q (si_Read i))
               else checkin_unverified q cur) w)
  | CSettle s r =>
      Some (goto_pc id q (CDone r)
              (if si_Kept i then set_keys (settle (cq_IdempotencyKey q) s (cw_keys w)) w else w))
  | CDone r => Some (goto_pc id q (CReturned r) (set_locks (delete lk (cw_locks w)) w))
  | CReturned _ | CCrashed => None
  end.

(** A process that dies: its transaction rolls back and frees the lock. *)
Definition checkin_crash (hashtext : string → Z) (id : nat) (w : CheckinWorld) : option CheckinWorld :=
  '(q, pc) ← cw_requests w !! id;
  let lk := lock_key hashtext (cq_SessionID q) (cq_StudentID q) in
  match pc with
  | CReturned _ | CCrashed => None
  | CStart => Some (goto_pc id q CCrashed w)
  | _ => Some (goto_pc id q CCrashed (set_locks (delete lk (cw_locks w)) w))
  end.
End checkin.
