(* ===== verification/CheckinSpec.v ===== *)
(** The promise of the idempotent check-in: at most one upstream write per idempotency
    key, whatever requests, retries, crashes and lost updates there are. *)

From stdpp Require Import base list numbers strings gmap relations.
From Stdlib Require Import ZArith Lia.
From S2P Require Import Prelude Domain Canonical Checkin.

Local Open Scope Z_scope.
Local Open Scope stdpp_scope.

Section spec.
Context `{GoLib} (hashtext : string → Z) (snapshotMode : bool).

Inductive checkin_sys_step : CheckinWorld → CheckinWorld → Prop :=
| cs_request id q w : cw_requests w !! id = None → checkin_sys_step w (goto_pc id q CStart w)
| cs_call i id w w' : checkin_step hashtext snapshotMode i id w = Some w' → checkin_sys_step w w'
| cs_crash id w w' : checkin_crash hashtext id w = Some w' → checkin_sys_step w w'.

Definition no_checkins : CheckinWorld := {| cw_keys := ∅; cw_locks := ∅; cw_writes := []; cw_requests := ∅ |}.
Definition checkin_reachable (w : CheckinWorld) : Prop := rtc checkin_sys_step no_checkins w.

Definition request_lock (q : CheckinRequest) : Z := lock_key hashtext (cq_SessionID q) (cq_StudentID q).

(** * Phases of a request *)

Definition holds_lock (pc : CheckinPC) : bool :=
  match pc with CStart | CReturned _ | CCrashed => false | _ => true end.

(** It inserted its key and has not finished. *)
Definition owns_key (pc : CheckinPC) : bool :=
  match pc with CReserved | CWrite _ | CVerify _ _ | CSettle _ _ => true | _ => false end.

Definition unwritten (pc : CheckinPC) : bool := match pc with CReserved | CWrite _ => true | _ => false end.

Definition result_of (pc : CheckinPC) : option CheckinResult :=
  match pc with
  | CSettle _ (Ok r) | CDone (Ok r) | CReturned (Ok r) => Some r
  | _ => None
  end.

Definition settled_result (pc : CheckinPC) : option CheckinResult :=
  match pc with CSettle (SConfirm r) _ | CSettle (SPending r) _ => Some r | _ => None end.

Definition row_for (q : CheckinRequest) (r : KeyRow) : Prop :=
  kr_session_id r = cq_SessionID q ∧ kr_student_id r = cq_StudentID q ∧ kr_desired_checked_in r = cq_DesiredCheckedIn q.

Definition written (w : CheckinWorld) (k : string) : Prop := k ∈ uw_Key <$> cw_writes w.

(** A confirmation is about a write that was made. *)
Definition backed (w : CheckinWorld) (k : string) (r : CheckinResult) : Prop := cr_Status r = Confirmed → written w k.

Record request_ok (w : CheckinWorld) (id : nat) (q : CheckinRequest) (pc : CheckinPC) : Prop := {
  ro_lock : holds_lock pc = true → cw_locks w !! request_lock q = Some id;
  ro_row : owns_key pc = true → ∃ r, cw_keys w !! cq_IdempotencyKey q = Some r ∧ row_for q r;
  ro_unwritten : unwritten pc = true → ¬ written w (cq_IdempotencyKey q);
  ro_verify : ∀ cur n, pc = CVerify cur n → written w (cq_IdempotencyKey q);
  ro_result : ∀ r, result_of pc = Some r → backed w (cq_IdempotencyKey q) r;
  ro_settle : ∀ r, settled_result pc = Some r → backed w (cq_IdempotencyKey q) r
}.

Record checkin_inv (w : CheckinWorld) : Prop := {
  ci_requests : ∀ id q pc, cw_requests w !! id = Some (q, pc) → request_ok w id q pc;
  ci_owner : ∀ id id' q q' pc pc', cw_requests w !! id = Some (q, pc) → cw_requests w !! id' = Some (q', pc') →
    owns_key pc = true → owns_key pc' = true → cq_IdempotencyKey q = cq_IdempotencyKey q' → id = id';
  ci_writes : ∀ u, u ∈ cw_writes w → ∃ r, cw_keys w !! uw_Key u = Some r ∧
    kr_session_id r = uw_Session u ∧ kr_desired_checked_in r = uw_Checked u;
  ci_once : NoDup (uw_Key <$> cw_writes w);
  ci_rows : ∀ k r res, cw_keys w !! k = Some r → kr_response r = Some res → backed w k res
}.

(** * The key table only grows, and settled rows do not change *)

Definition same_request (r r' : KeyRow) : Prop :=
  kr_session_id r' = kr_session_id r ∧ kr_student_id r' = kr_student_id r ∧
  kr_desired_checked_in r' = kr_desired_checked_in r ∧ (kr_status r ≠ KReserved → r' = r).

Definition keys_kept (k k' : KeyTable) : Prop := ∀ key r, k !! key = Some r → ∃ r', k' !! key = Some r' ∧ same_request r r'.

#[export] Instance keys_kept_refl : Reflexive keys_kept.
Proof. intros k key r Hr. exists r. by repeat split. Qed.

#[export] Instance keys_kept_trans : Transitive keys_kept.
Proof.
  intros k1 k2 k3 H1 H2 key r Hr. destruct (H1 _ _ Hr) as (r' & Hr' & E1 & E2 & E3 & E4).
  destruct (H2 _ _ Hr') as (r2 & Hr2 & F1 & F2 & F3 & F4). exists r2. split; [done|].
  split_and!; [congruence..|]. intros Hn. assert (r' = r) as -> by auto. auto.
Qed.

Lemma settle_row_same st resp code r : same_request r (settle_row st resp code r).
Proof. unfold settle_row. by destruct (kr_status r) eqn:E; repeat split. Qed.

Lemma alter_settle_kept st resp code key keys : keys_kept keys (alter (settle_row st resp code) key keys).
Proof.
  intros k r Hr. destruct (decide (k = key)) as [->|].
  - rewrite lookup_alter_eq, Hr. cbn. eauto using settle_row_same.
  - rewrite lookup_alter_ne by done. exists r. by repeat split.
Qed.

(** The three updates are one: settle the row if it is reserved. *)
Lemma settle_alter key s keys :
  settle key s keys = alter (match s with
    | SConfirm r => settle_row KConfirmed (Some r) None
    | SPending r => settle_row KPendingVerification (Some r) None
    | SFail code => settle_row KFailed None (Some code) end) key keys.
Proof.
  destruct s as [r| |]; cbn; try done. unfold ConfirmIdempotencyKey. destruct (keys !! key) as [row|] eqn:Er.
  - assert (Hn : kr_status row ≠ KReserved → keys = alter (settle_row KConfirmed (Some r) None) key keys).
    { intros Hne. apply map_eq. intros k. destruct (decide (k = key)) as [->|].
      - rewrite lookup_alter_eq, Er. cbn. unfold settle_row. by destruct (kr_status row).
      - by rewrite lookup_alter_ne. }
    destruct (kr_status row) eqn:Es; try by apply Hn. apply map_eq. intros k. destruct (decide (k = key)) as [->|].
    + by rewrite lookup_insert_eq, lookup_alter_eq, Er.
    + by rewrite lookup_insert_ne, lookup_alter_ne.
  - apply map_eq. intros k. destruct (decide (k = key)) as [->|].
    + by rewrite lookup_alter_eq, Er.
    + by rewrite lookup_alter_ne.
Qed.

Lemma settle_kept key s keys : keys_kept keys (settle key s keys).
Proof. rewrite settle_alter. destruct s; apply alter_settle_kept. Qed.

Lemma step_keys_kept w w' : checkin_sys_step w w' → keys_kept (cw_keys w) (cw_keys w').
Proof.
  destruct 1 as [id q w Hn|i id w w' E|id w w' E]; [done| |].
  - unfold checkin_step in E. destruct (cw_requests w !! id) as [[q pc]|]; [|done]. cbn in E.
    destruct pc; try done; cbn in E.
    + destruct (cw_locks w !! _); [done|]. by injection E as <-.
    + unfold ReserveIdempotencyKey in E. destruct (cw_keys w !! _) eqn:Ek; injection E as <-; cbn; [done|].
      intros k r Hr. exists r. rewrite lookup_insert_ne by congruence. by repeat split.
    + by injection E as <-.
    + by injection E as <-.
    + by injection E as <-.
    + injection E as <-. destruct (si_Kept i); [apply settle_kept|done].
    + by injection E as <-.
  - unfold checkin_crash in E. destruct (cw_requests w !! id) as [[q pc]|]; [|done]. cbn in E.
    destruct pc; try done; by injection E as <-.
Qed.

(** * The invariant is kept *)

Lemma request_ok_frame w w' id q pc :
  request_ok w id q pc →
  (holds_lock pc = true → cw_locks w' !! request_lock q = Some id) →
  keys_kept (cw_keys w) (cw_keys w') → (∀ k, written w k → written w' k) →
  (unwritten pc = true → ¬ written w' (cq_IdempotencyKey q)) → request_ok w' id q pc.
Proof.
  intros [Hl Hr Hu Hv Hres Hs] Hl' Hk Hw Hu'. split; try done.
  - intros Ho. destruct (Hr Ho) as (r & Er & R1 & R2 & R3). destruct (Hk _ _ Er) as (r' & Er' & E1 & E2 & E3 & _).
    exists r'. split; [done|]. unfold row_for. rewrite E1, E2, E3. done.
  - intros cur n E. by eapply Hw, Hv.
  - intros r E Hc. by eapply Hw, Hres.
  - intros r E Hc. by eapply Hw, Hs.
Qed.

(** Nothing but the state of one request and what it touched has changed. *)
Record moved (w w1 : CheckinWorld) (id : nat) : Prop := {
  mv_requests : cw_requests w1 = cw_requests w;
  mv_keys : keys_kept (cw_keys w) (cw_keys w1);
  mv_written : ∀ k, written w k → written w1 k;
  mv_locks : ∀ id' q' pc', id' ≠ id → cw_requests w !! id' = Some (q', pc') → holds_lock pc' = true →
    cw_locks w1 !! request_lock q' = Some id';
  mv_unwritten : ∀ id' q' pc', id' ≠ id → cw_requests w !! id' = Some (q', pc') → unwritten pc' = true →
    ¬ written w1 (cq_IdempotencyKey q')
}.

Lemma inv_move w w1 id q pc' :
  checkin_inv w → moved w w1 id → request_ok w1 id q pc' →
  (owns_key pc' = true → ∀ id' q' pc'', id' ≠ id → cw_requests w !! id' = Some (q', pc'') →
     owns_key pc'' = true → cq_IdempotencyKey q ≠ cq_IdempotencyKey q') →
  (∀ u, u ∈ cw_writes w1 → ∃ r, cw_keys w1 !! uw_Key u = Some r ∧
     kr_session_id r = uw_Session u ∧ kr_desired_checked_in r = uw_Checked u) →
  NoDup (uw_Key <$> cw_writes w1) →
  (∀ k r res, cw_keys w1 !! k = Some r → kr_response r = Some res → backed w1 k res) →
  checkin_inv (goto_pc id q pc' w1).
Proof.
  intros [Ir Io Iw Ic Ix] [Mr Mk Mw Ml Mu] Hok Hown Hw Hc Hx. split; cbn; try done.
  - intros id' q' pc''. rewrite lookup_insert_Some, Mr. intros [[<- [= <- <-]]|[Hne Hid']].
    + destruct Hok. by split.
    + eapply request_ok_frame; [by apply Ir| | | |]; cbn; eauto.
  - intros i1 i2 q1 q2 p1 p2. rewrite !lookup_insert_Some, Mr.
    intros [[<- [= <- <-]]|[Hn1 H1]] [[<- [= <- <-]]|[Hn2 H2]] O1 O2 Ek; try done.
    + exfalso. by eapply Hown.
    + exfalso. eapply (Hown O2); [|exact H1|..]; eauto.
    + by eapply (Io i1 i2).
Qed.

(** Only requests' own steps matter to a step that leaves keys, locks and writes alone. *)
Lemma moved_refl w id : checkin_inv w → moved w w id.
Proof.
  intros I. split; try done; intros id' q' pc' _ Hid'.
  - apply (ro_lock _ _ _ _ (ci_requests _ I _ _ _ Hid')).
  - apply (ro_unwritten _ _ _ _ (ci_requests _ I _ _ _ Hid')).
Qed.

Lemma inv_stay w id q pc pc' :
  checkin_inv w → cw_requests w !! id = Some (q, pc) → request_ok w id q pc' →
  (owns_key pc' = true → owns_key pc = true) → checkin_inv (goto_pc id q pc' w).
Proof.
  intros I Hid Hok Ho. pose proof I as [Ir Io Iw Ic Ix]. apply (inv_move w); auto using moved_refl.
  intros O id' q' pc'' Hne Hid' O' Ek. apply Hne. eapply (Io id' id q' q); [exact Hid'|exact Hid|done|by apply Ho|done].
Qed.

(** Taking and freeing the lock. *)
Lemma moved_lock w id q locks :
  checkin_inv w →
  (∀ k, k ≠ request_lock q → locks !! k = cw_locks w !! k) →
  (∀ id' q' pc', id' ≠ id → cw_requests w !! id' = Some (q', pc') → holds_lock pc' = true →
     request_lock q' ≠ request_lock q) →
  moved w (set_locks locks w) id.
Proof.
  intros I Hl Hn. destruct (moved_refl w id I). split; try done. cbn. intros id' q' pc' Hne Hid' Hh.
  rewrite Hl; eauto.
Qed.

(** No one else holds the lock of a request that holds it. *)
Lemma lock_exclusive w id id' q q' pc pc' :
  checkin_inv w → cw_requests w !! id = Some (q, pc) → cw_requests w !! id' = Some (q', pc') →
  holds_lock pc = true → holds_lock pc' = true → request_lock q = request_lock q' → id = id'.
Proof.
  intros [Ir _ _ _ _] H1 H2 L1 L2 E. pose proof (ro_lock _ _ _ _ (Ir _ _ _ H1) L1) as E1.
  pose proof (ro_lock _ _ _ _ (Ir _ _ _ H2) L2) as E2. rewrite E in E1. congruence.
Qed.

Lemma row_for_reserved q : row_for q (reserved_row q).
Proof. done. Qed.

(** ReserveIdempotencyKey by a request that holds its lock. *)
Lemma reserve_inv w id q keys res :
  checkin_inv w → cw_requests w !! id = Some (q, CLocked) →
  ReserveIdempotencyKey q (cw_keys w) = (keys, res) →
  checkin_inv (goto_pc id q (checkin_reserved q res) (set_keys keys w)).
Proof.
  intros I Hid E. pose proof I as [Ir Io Iw Ic Ix]. pose proof (Ir _ _ _ Hid) as [Rl _ _ _ _ _]. specialize (Rl eq_refl).
  unfold ReserveIdempotencyKey in E. destruct (cw_keys w !! cq_IdempotencyKey q) as [r|] eqn:Ek; injection E as <- <-.
  - assert (Ew : set_keys (cw_keys w) w = w) by (by destruct w). rewrite Ew.
    apply (inv_stay w id q CLocked); [done|done| |].
    + unfold checkin_reserved. cbn. destruct (negb _); [by split|]. unfold storedCheckinResult. cbn.
      destruct (kr_status r) eqn:Es; [| | |by split]; (destruct (kr_response r) as [res|] eqn:Er;
        split; try done; cbn; intros ? [= <-]; [by eapply Ix|done]).
    + unfold checkin_reserved. cbn. by destruct (negb _).
  - assert (Hnw : ¬ written w (cq_IdempotencyKey q)).
    { intros (u & Eu & Hu)%list_elem_of_fmap. destruct (Iw _ Hu) as (r & Er & _). congruence. }
    assert (Hk : keys_kept (cw_keys w) (<[cq_IdempotencyKey q:=reserved_row q]> (cw_keys w))).
    { intros k r Hr. exists r. rewrite lookup_insert_ne by congruence. by repeat split. }
    apply (inv_move w); [done| | | |..|done|].
    + destruct (moved_refl w id I). by split.
    + unfold checkin_reserved. cbn. split; try done. cbn. intros _. eexists. rewrite lookup_insert_eq. split; [done|].
      apply row_for_reserved.
    + intros _ id' q' pc'' Hne Hid' O' Ek'. destruct (ro_row _ _ _ _ (Ir _ _ _ Hid') O') as (r & Er & _). congruence.
    + cbn. intros u Hu. destruct (Iw _ Hu) as (r & Er & ?). exists r. rewrite lookup_insert_ne by congruence. done.
    + cbn. intros k r res. rewrite lookup_insert_Some. intros [[_ <-]|[_ Er]]; [done|]. by apply Ix.
Qed.

(** The upstream write. *)
Lemma write_inv w id q cur i :
  checkin_inv w → cw_requests w !! id = Some (q, CWrite cur) →
  checkin_inv (goto_pc id q (checkin_written cur (si_Upstream i))
    (add_write {| uw_Key := cq_IdempotencyKey q; uw_Session := cq_SessionID q;
                  uw_Student := cst_upstreamStudentID cur; uw_Checked := cq_DesiredCheckedIn q |} w)).
Proof.
  intros I Hid. pose proof I as [Ir Io Iw Ic Ix]. pose proof (Ir _ _ _ Hid) as [Rl Rr Ru _ _ _].
  destruct (Rr eq_refl) as (r & Er & R1 & R2 & R3). specialize (Ru eq_refl). specialize (Rl eq_refl).
  set (u := Build_UpstreamWrite _ _ _ _).
  assert (Hw : ∀ k, written (add_write u w) k ↔ written w k ∨ k = cq_IdempotencyKey q).
  { intros k. unfold written. cbn. rewrite fmap_app, elem_of_app. cbn. set_solver. }
  apply (inv_move w); [done| | | |..]; cbn.
  - destruct (moved_refl w id I). split; try done; [intros k; rewrite Hw; by left|].
    intros id' q' pc' Hne Hid' Hu'. rewrite Hw. intros [?|Ek]; [by eapply mv_unwritten0|].
    apply Hne. eapply (Io id' id); [done|done|by destruct pc'|done|done].
  - assert (Hwq : written (add_write u w) (cq_IdempotencyKey q)) by (rewrite Hw; by right).
    unfold checkin_written. destruct (si_Upstream i); split; try done; cbn; eauto; intros _; exists r; by repeat split.
  - intros O id' q' pc'' Hne Hid' O' Ek. apply Hne. by eapply (Io id' id).
  - intros u' [Hu'| ->%list_elem_of_singleton]%elem_of_app; [by apply Iw|]. exists r. by split_and!.
  - rewrite fmap_app. apply NoDup_app. split_and!; [done| |apply NoDup_singleton].
    intros k Hk ->%list_elem_of_singleton. by apply Ru.
  - intros k r' res Er' Hres Hc. rewrite Hw. left. by eapply Ix.
Qed.

(** The update of the key at the end. *)
Lemma settle_inv w id q s r keys :
  checkin_inv w → cw_requests w !! id = Some (q, CSettle s r) →
  keys = cw_keys w ∨ keys = settle (cq_IdempotencyKey q) s (cw_keys w) →
  checkin_inv (goto_pc id q (CDone r) (set_keys keys w)).
Proof.
  intros I Hid Hkeys. pose proof I as [Ir Io Iw Ic Ix]. pose proof (Ir _ _ _ Hid) as R.
  assert (Hk : keys_kept (cw_keys w) keys) by (destruct Hkeys as [-> | ->]; [done|apply settle_kept]).
  apply (inv_move w); cbn; [done| | |done| |done|].
  - destruct (moved_refl w id I). by split.
  - destruct R as [Rl Rr _ _ Rres Rs]. split; try done.
  - intros u Hu. destruct (Iw _ Hu) as (r0 & E0 & E1 & E2). destruct (Hk _ _ E0) as (r1 & ? & F1 & F2 & F3 & _).
    exists r1. split_and!; congruence.
  - intros k r0 res Er0 Hres. destruct Hkeys as [-> | ->]; [by eapply Ix|]. rewrite settle_alter in Er0.
    destruct (decide (k = cq_IdempotencyKey q)) as [->|]; [|rewrite lookup_alter_ne in Er0 by done; by eapply Ix].
    rewrite lookup_alter_eq in Er0. apply fmap_Some in Er0 as (r1 & Er1 & ->).
    change (backed w (cq_IdempotencyKey q) res).
    assert (Hold : kr_response r1 = Some res → backed w (cq_IdempotencyKey q) res) by (by eapply Ix).
    revert Hres. destruct s as [r2|r2|c]; unfold settle_row; destruct (kr_status r1); cbn; try done;
      intros [= <-]; by apply (ro_settle _ _ _ _ R).
Qed.

Lemma crash_ok w id q : request_ok w id q CCrashed.
Proof. by split. Qed.

Lemma call_inv i id w w' : checkin_inv w → checkin_step hashtext snapshotMode i id w = Some w' → checkin_inv w'.
Proof.
  intros I E. unfold checkin_step in E. destruct (cw_requests w !! id) as [[q pc]|] eqn:Hid; [|done]. cbn in E.
  pose proof (ci_requests _ I _ _ _ Hid) as R. destruct pc as [| | |cur|cur n|s r|r|r|]; cbn in E; try done.
  - fold (request_lock q) in E. destruct (cw_locks w !! request_lock q) eqn:El; [done|]. injection E as <-.
    apply (inv_move w); [done| | |done|apply I|apply I|apply I].
    + apply (moved_lock w id q); [done|intros k Hk; by rewrite lookup_insert_ne|].
      intros id' q' pc' _ Hid' Hh Eq. pose proof (ro_lock _ _ _ _ (ci_requests _ I _ _ _ Hid') Hh). congruence.
    + split; try done. cbn. by rewrite lookup_insert_eq.
  - destruct (ReserveIdempotencyKey q (cw_keys w)) as [keys res] eqn:Er. injection E as <-. by apply reserve_inv.
  - injection E as <-. apply (inv_stay w id q CReserved); [done|done| |done].
    destruct R as [Rl Rr Ru _ _ _]. unfold checkin_current. destruct (currentCheckinState _ _) as [c|e]; [|by split].
    destruct (_ && _); [by split|]. destruct (Bool.eqb _ _); [|by split]. split; try done; by intros ? [= <-].
  - injection E as <-. by apply write_inv.
  - injection E as <-. apply (inv_stay w id q (CVerify cur n)); [done|done| |done].
    destruct R as [Rl Rr _ Rv _ _]. specialize (Rv cur n eq_refl). destruct (n <=? 1)%nat.
    + unfold checkin_verify. destruct (_ && _); [|destruct (currentCheckinState _ _) as [c|e]; [destruct (Bool.eqb _ _)|]].
      all: split; try done; intros; try intros _; exact Rv.
    + unfold checkin_unverified. split; try done; intros ? [= <-]; done.
  - injection E as <-. destruct (si_Kept i).
    + eapply settle_inv; eauto.
    + pose proof (settle_inv w id q s r (cw_keys w) I Hid (or_introl eq_refl)). by destruct w.
  - injection E as <-. apply (inv_move w); [done| | |done|apply I|apply I|apply I].
    + apply (moved_lock w id q); [done|intros k Hk; by rewrite lookup_delete_ne|].
      intros id' q' pc' Hne Hid' Hh Eq. apply Hne. by eapply (lock_exclusive w id' id).
    + destruct R as [_ _ _ _ Rr _]. by split.
Qed.

Lemma crash_inv id w w' : checkin_inv w → checkin_crash hashtext id w = Some w' → checkin_inv w'.
Proof.
  intros I E. unfold checkin_crash in E. destruct (cw_requests w !! id) as [[q pc]|] eqn:Hid; [|done]. cbn in E.
  assert (Hfree : holds_lock pc = true →
    checkin_inv (goto_pc id q CCrashed (set_locks (delete (request_lock q) (cw_locks w)) w))).
  { intros Hl. apply (inv_move w); [done| |apply crash_ok|done|apply I|apply I|apply I].
    apply (moved_lock w id q); [done|intros k Hk; by rewrite lookup_delete_ne|].
    intros id' q' pc' Hne Hid' Hh Eq. apply Hne. by eapply (lock_exclusive w id' id). }
  destruct pc; try done; injection E as <-; try by apply Hfree.
  apply (inv_stay w id q CStart); [done|done|apply crash_ok|done].
Qed.

Lemma checkin_inv_empty : checkin_inv no_checkins.
Proof.
  split; cbn.
  - intros id q pc. by rewrite lookup_empty.
  - intros id id' q q' pc pc'. by rewrite lookup_empty.
  - intros u Hu. by apply elem_of_nil in Hu.
  - apply NoDup_nil_2.
  - intros k r res. by rewrite lookup_empty.
Qed.

Lemma checkin_reachable_inv w : checkin_reachable w → checkin_inv w.
Proof.
  revert w. apply rtc_ind_r; [apply checkin_inv_empty|]. intros w1 w2 _ S I. destruct S as [id q w Hn|i id w w' E|id w w' E].
  - apply (inv_move w); [done|by apply moved_refl|by split|done|apply I|apply I|apply I].
  - by eapply call_inv.
  - by eapply crash_inv.
Qed.

(** C24: a check-in takes effect upstream at most once per idempotency key.  Whatever
    requests run concurrently, are retried, crash, or lose their updates: (1) no two
    upstream writes carry the same key, and each is the change the key's row records;
    (2) requests for the same session and student never overlap between taking the lock
    and releasing it; (3) a result says [confirmed] only if the write of its key was
    made; (4) a settled key never changes, and a retry of its request then returns the
    recorded response and writes nothing. *)
Theorem checkin_once w :
  checkin_reachable w →
  (NoDup (uw_Key <$> cw_writes w) ∧
   ∀ u, u ∈ cw_writes w → ∃ r, cw_keys w !! uw_Key u = Some r ∧
     kr_session_id r = uw_Session u ∧ kr_desired_checked_in r = uw_Checked u) ∧
  (∀ id id' q q' pc pc', cw_requests w !! id = Some (q, pc) → cw_requests w !! id' = Some (q', pc') →
     holds_lock pc = true → holds_lock pc' = true →
     cq_SessionID q = cq_SessionID q' → cq_StudentID q = cq_StudentID q' → id = id') ∧
  (∀ id q r, cw_requests w !! id = Some (q, CReturned (Ok r)) → cr_Status r = Confirmed →
     cq_IdempotencyKey q ∈ uw_Key <$> cw_writes w) ∧
  (∀ k r res, cw_keys w !! k = Some r → kr_status r = KConfirmed ∨ kr_status r = KPendingVerification →
     kr_response r = Some res →
     (∀ w', rtc checkin_sys_step w w' → cw_keys w' !! k = Some r) ∧
     (∀ i id q, cw_requests w !! id = Some (q, CLocked) → cq_IdempotencyKey q = k → key_matches q r = true →
        ∃ w', checkin_step hashtext snapshotMode i id w = Some w' ∧ cw_writes w' = cw_writes w ∧
          cw_requests w' !! id = Some (q, CDone (Ok res)))).
Proof.
  intros Hr. pose proof (checkin_reachable_inv w Hr) as I. split; [split; apply I|]. split_and!.
  - intros id id' q q' pc pc' H1 H2 L1 L2 E1 E2. eapply (lock_exclusive w id id'); eauto. unfold request_lock. by rewrite E1, E2.
  - intros id q r Hid. by apply (ro_result _ _ _ _ (ci_requests _ I _ _ _ Hid)).
  - intros k r res Hk Hst Hres. split.
    + intros w' Hs. assert (K : keys_kept (cw_keys w) (cw_keys w')).
      { clear -Hs. induction Hs as [|w1 w2 w3 S _ IH]; [done|]. etransitivity; [by eapply step_keys_kept|done]. }
      destruct (K _ _ Hk) as (r' & Hr' & _ & _ & _ & E). rewrite E in Hr'; [done|]. destruct Hst as [-> | ->]; done.
    + intros i id q Hid <- Hm. unfold checkin_step. rewrite Hid. cbn. unfold ReserveIdempotencyKey. rewrite Hk.
      eexists. split; [done|]. split; [done|]. cbn. rewrite lookup_insert_eq. unfold checkin_reserved. cbn.
      rewrite Hm. cbn. unfold storedCheckinResult. cbn. rewrite Hres. by destruct Hst as [-> | ->].
Qed.

(** A stale version is refused without a write and without settling the key, so a retry
    of the same request reports a pending verification of a write nobody made. *)
Lemma conflict_leaves_key_reserved w id q i cur :
  cw_requests w !! id = Some (q, CReserved) → currentCheckinState q (si_Read i) = Ok cur →
  snapshotMode = true → cq_ExpectedSnapshotVersion q = Some (cst_snapshotVersion cur + 1) →
  cst_checkedIn cur = negb (cq_DesiredCheckedIn q) →
  checkin_step hashtext snapshotMode i id w =
    Some (goto_pc id q (CDone (Err (CheckinConflict (cst_snapshotVersion cur) (cst_checkedIn cur)))) w) ∧
  storedCheckinResult {| ik_Found := true; ik_Match := true; ik_Status := KReserved; ik_Response := None |} =
    Ok {| cr_Status := PendingVerification; cr_CheckedIn := false; cr_SnapshotVersion := 0; cr_RefreshPending := true |}.
Proof.
  intros Hid Hc Hm Hv Hd. split; [|done]. unfold checkin_step. rewrite Hid. cbn. rewrite Hc. unfold checkin_current.
  rewrite Hv, Hm, Hd, (proj2 (Z.eqb_neq _ _)) by lia. by destruct (cq_DesiredCheckedIn q).
Qed.
End spec.
