(* ===== verification/Listener.v ===== *)
(** The snapshot notification listener ([internal/service/snapshot_notification_listener.go]).

    It turns committed snapshots into events for the hub: from PostgreSQL notifications
    and, on a connection and after each notification, from the outbox past its durable
    checkpoint.  Each operation gives the listener's next state, the store's, and the
    events it offers to the hub, in order; [json_Metadata] decodes a notification. *)

From stdpp Require Import base list numbers strings gmap sorting.
From Stdlib Require Import ZArith Lia.
From S2P Require Import Prelude Domain Canonical Tables Reads Maintenance.

Local Open Scope Z_scope.
Local Open Scope stdpp_scope.
Local Open Scope go_scope.

Definition snapshotNotificationPayloadLimit : Z := 8 * 1024.
Definition snapshotNotificationStableConnection : Z := Minute.
Definition snapshotNotificationCatchUpBatchSize : Z := 500.
Definition snapshotNotificationConsumerName : string := "snapshot-websocket".

Record SnapshotNotificationListener := {
  ln_versions : gmap string Z;
  ln_initialized : bool;
  ln_ready : bool;
  ln_eventSeq : Z
}.

Definition new_listener : SnapshotNotificationListener :=
  {| ln_versions := ∅; ln_initialized := false; ln_ready := false; ln_eventSeq := 0 |}.

Definition snapshotMetadataKey (m : SnapshotMetadata) : string :=
  kind_string (md_Kind m) +:+ (nul_str +:+ (md_ParentKey m +:+ (nul_str +:+ md_ResourceKey m))).

Definition with_sequence (n : Z) (m : SnapshotMetadata) : SnapshotMetadata :=
  {| md_Kind := md_Kind m; md_ResourceKey := md_ResourceKey m; md_ParentKey := md_ParentKey m;
     md_Version := md_Version m; md_ValidationSeq := md_ValidationSeq m; md_ValidatedAt := md_ValidatedAt m;
     md_Stale := md_Stale m; md_QualityState := md_QualityState m; md_Complete := md_Complete m;
     md_ParserVersion := md_ParserVersion m; md_EventSequence := n |}.

Definition observe (publish : bool) (l : SnapshotNotificationListener) (m : SnapshotMetadata)
    : SnapshotNotificationListener * list SnapshotMetadata :=
  let key := snapshotMetadataKey m in
  if md_Version m <=? default 0 (ln_versions l !! key) then (l, [])
  else
    let versions := <[key := md_Version m]> (ln_versions l) in
    if publish then
      let n := wrap64 (ln_eventSeq l + 1) in
      ({| ln_versions := versions; ln_initialized := ln_initialized l; ln_ready := ln_ready l; ln_eventSeq := n |},
       [with_sequence n m])
    else
      ({| ln_versions := versions; ln_initialized := ln_initialized l; ln_ready := ln_ready l;
          ln_eventSeq := ln_eventSeq l |}, []).

(** A loop of [observe]. *)
Fixpoint observe_all (publish : bool) (l : SnapshotNotificationListener) (ms : list SnapshotMetadata)
    : SnapshotNotificationListener * list SnapshotMetadata :=
  match ms with
  | [] => (l, [])
  | m :: ms' =>
      let '(l1, out1) := observe publish l m in
      let '(l2, out2) := observe_all publish l1 ms' in
      (l2, out1 ++ out2)
  end.

(** [domain.SnapshotMetadata{Kind: kind, Version: event.SnapshotVersion}] *)
Definition event_metadata (e : CommitEvent) : SnapshotMetadata :=
  {| md_Kind := ce_TargetKind e; md_ResourceKey := ""; md_ParentKey := ""; md_Version := ce_SnapshotVersion e;
     md_ValidationSeq := 0; md_ValidatedAt := 0; md_Stale := false; md_QualityState := DataQualityOther "";
     md_Complete := false; md_ParserVersion := ""; md_EventSequence := 0 |}.

Definition known_events (es : list CommitEvent) : list CommitEvent :=
  base.filter (λ e, kind_Valid (ce_TargetKind e) = true) es.

Definition max_sequence (es : list CommitEvent) : Z := foldl (λ m e, if m <? ce_Sequence e then ce_Sequence e else m) 0 es.

(** The queries themselves do not fail here, so the uncompacted fallback is not taken. *)
Definition processMissedEvents (afterSequence : Z) (l : SnapshotNotificationListener) (db : DB)
    : SnapshotNotificationListener * DB * list SnapshotMetadata :=
  let events := known_events (CompactedMissedEvents afterSequence snapshotNotificationCatchUpBatchSize db) in
  let '(l', out) := observe_all true l (map event_metadata events) in
  let m := max_sequence events in
  (l', if 0 <? m then UpdateListenerCheckpoint snapshotNotificationConsumerName m db else db, out).

Definition set_ready (l : SnapshotNotificationListener) : SnapshotNotificationListener :=
  {| ln_versions := ln_versions l; ln_initialized := true; ln_ready := true; ln_eventSeq := ln_eventSeq l |}.

Section listener.
Context `{Postgres} (json_Metadata : string → option SnapshotMetadata).

Definition reconcile (now : Z) (l : SnapshotNotificationListener) (db : DB)
    : SnapshotNotificationListener * list SnapshotMetadata * option RepoError :=
  match ListMetadata now db with
  | Err e => (l, [], Some e)
  | Ok ms => let '(l', out) := observe_all (ln_initialized l) l ms in (l', out, None)
  end.

Definition catchUp (now : Z) (l : SnapshotNotificationListener) (db : DB)
    : SnapshotNotificationListener * DB * list SnapshotMetadata * option RepoError :=
  let checkpoint := GetListenerCheckpoint snapshotNotificationConsumerName db in
  if 0 <? checkpoint then
    let '(l', db', out) := processMissedEvents checkpoint l db in (set_ready l', db', out, None)
  else
    match reconcile now l db with
    | (l', out, Some e) => (l', db, out, Some e)
    | (l', out, None) => (set_ready l', db, out, None)
    end.

Definition catchUpFromCheckpoint (l : SnapshotNotificationListener) (db : DB)
    : SnapshotNotificationListener * DB * list SnapshotMetadata :=
  let checkpoint := GetListenerCheckpoint snapshotNotificationConsumerName db in
  if checkpoint =? 0 then (l, db, []) else processMissedEvents checkpoint l db.

Definition valid_notification (m : SnapshotMetadata) : bool :=
  kind_Valid (md_Kind m) && nonempty (md_ResourceKey m) && negb (md_Version m <=? 0) &&
  negb (md_ValidationSeq m <=? 0) && negb (time_IsZero (md_ValidatedAt m)).

Inductive PayloadError := PayloadTooLarge | PayloadDecode | PayloadInvalid.

Definition handlePayload (payload : string) (l : SnapshotNotificationListener)
    : result PayloadError (SnapshotNotificationListener * list SnapshotMetadata) :=
  if snapshotNotificationPayloadLimit <? Z.of_nat (String.length payload) then Err PayloadTooLarge
  else
    match json_Metadata payload with
    | None => Err PayloadDecode
    | Some m => if valid_notification m then Ok (observe true l m) else Err PayloadInvalid
    end.

(** One notification of [runConnection]'s loop: its channel and its payload. *)
Definition on_notification (channel payload : string) (l : SnapshotNotificationListener) (db : DB)
    : SnapshotNotificationListener * DB * list SnapshotMetadata :=
  if negb (bool_decide (channel = "snapshot_committed")) then (l, db, [])
  else
    match handlePayload payload l with
    | Err _ => (l, db, [])
    | Ok (l1, out1) => let '(l2, db2, out2) := catchUpFromCheckpoint l1 db in (l2, db2, out1 ++ out2)
    end.

(** ** The reconnect delays of [Run] *)

Definition listener_backoffs : list Z := [Second; 2 * Second; 4 * Second; 8 * Second; 30 * Second].

(** [connected] is when the connection was made and when it ended, if it was made. *)
Definition reconnect_failures (failures : Z) (connected : option (Z * Z)) : Z :=
  match connected with
  | Some (at_, ended) =>
      if negb (time_Before ended (time_Add at_ snapshotNotificationStableConnection)) then 0 else failures
  | None => failures
  end.

Definition reconnect_delay (failures : Z) : Z :=
  nth (Z.to_nat (if 5 <=? failures then 4 else failures)) listener_backoffs 0.

(** * What the listener does over time *)

(** The listener's calls, with the store as each finds it. *)
Inductive ListenerCall :=
| LConnect (now : Z) (db : DB)
| LNotify (channel payload : string) (db : DB).

Definition listener_call (c : ListenerCall) (l : SnapshotNotificationListener)
    : SnapshotNotificationListener * list SnapshotMetadata :=
  match c with
  | LConnect now db => let '(l', _, out, _) := catchUp now l db in (l', out)
  | LNotify channel payload db => let '(l', _, out) := on_notification channel payload l db in (l', out)
  end.

Fixpoint listener_run (cs : list ListenerCall) (l : SnapshotNotificationListener)
    : SnapshotNotificationListener * list SnapshotMetadata :=
  match cs with
  | [] => (l, [])
  | c :: cs' => let '(l1, out1) := listener_call c l in let '(l2, out2) := listener_run cs' l1 in (l2, out1 ++ out2)
  end.
End listener.

(** * The offered events *)

Definition same_key (k : string) (m : SnapshotMetadata) : Prop := snapshotMetadataKey m = k.
#[export] Instance same_key_dec k m : Decision (same_key k m).
Proof. unfold same_key. apply _. Defined.

(** From [l] to [l'] the listener offered [out]: numbered on, and per resource with
    growing versions that are all remembered. *)
Record offers (l l' : SnapshotNotificationListener) (out : list SnapshotMetadata) : Prop := {
  of_sequence : map md_EventSequence out = map (λ n, wrap64 (ln_eventSeq l + Z.of_nat n)) (seq 1 (length out));
  of_seq : wrap64 (ln_eventSeq l') = wrap64 (ln_eventSeq l + Z.of_nat (length out));
  of_versions : ∀ k, default 0 (ln_versions l !! k) ≤ default 0 (ln_versions l' !! k);
  of_growing : ∀ k, StronglySorted Z.lt
    (default 0 (ln_versions l !! k) :: map md_Version (base.filter (same_key k) out));
  of_remembered : ∀ m, m ∈ out → md_Version m ≤ default 0 (ln_versions l' !! snapshotMetadataKey m)
}.

Lemma wrap64_add_l a b : wrap64 (wrap64 a + b) = wrap64 (a + b).
Proof.
  unfold wrap64.
  replace ((a + 2 ^ 63) mod 2 ^ 64 - 2 ^ 63 + b + 2 ^ 63) with ((a + 2 ^ 63) mod 2 ^ 64 + b) by lia.
  rewrite Zplus_mod_idemp_l. by replace (a + 2 ^ 63 + b) with (a + b + 2 ^ 63) by lia.
Qed.

Lemma sorted_join (x z : Z) a b :
  StronglySorted Z.lt (x :: a) → x ≤ z → (∀ y, y ∈ a → y ≤ z) → StronglySorted Z.lt (z :: b) →
  StronglySorted Z.lt (x :: a ++ b).
Proof.
  intros Ha Hxz Hyz [Hb Hzb]%StronglySorted_inv. apply StronglySorted_inv in Ha as [Ha Hxa].
  rewrite Forall_forall in Hzb. constructor.
  - induction a as [|y a IH]; [done|]. apply StronglySorted_inv in Ha as [Ha Hya]. apply Forall_cons in Hxa as [? Hxa].
    cbn. constructor; [apply IH; [done|done|intros; apply Hyz; by right]|]. apply Forall_app. split; [done|].
    apply Forall_forall. intros w Hw. pose proof (Hzb w Hw). pose proof (Hyz y ltac:(by left)). lia.
  - apply Forall_app. split; [done|]. apply Forall_forall. intros w Hw. pose proof (Hzb w Hw). lia.
Qed.

Lemma offers_nil l l' :
  ln_eventSeq l' = ln_eventSeq l → (∀ k, default 0 (ln_versions l !! k) ≤ default 0 (ln_versions l' !! k)) → offers l l' [].
Proof.
  intros E Hv. split; cbn; try done.
  - by rewrite E, Z.add_0_r.
  - intros k. repeat constructor.
  - intros m Hm. by apply elem_of_nil in Hm.
Qed.

Lemma offers_app l1 l2 l3 o1 o2 : offers l1 l2 o1 → offers l2 l3 o2 → offers l1 l3 (o1 ++ o2).
Proof.
  intros [A1 A2 A3 A4 A5] [B1 B2 B3 B4 B5]. split.
  - rewrite map_app, A1, B1, length_app, seq_app, map_app. f_equal.
    rewrite Nat.add_comm, <- fmap_add_seq, <- list_fmap_compose. apply map_ext. intros n. cbn.
    rewrite <- wrap64_add_l, A2, wrap64_add_l. f_equal. lia.
  - rewrite B2, <- wrap64_add_l, A2, wrap64_add_l, length_app. f_equal. lia.
  - intros k. pose proof (A3 k). pose proof (B3 k). lia.
  - intros k. rewrite filter_app, map_app. eapply sorted_join; [apply A4|apply A3| |apply B4].
    intros y (m & -> & [Hk Hm]%list_elem_of_filter)%list_elem_of_fmap. rewrite <- Hk. by apply A5.
  - intros m [Hm|Hm]%elem_of_app; [|by apply B5]. pose proof (A5 m Hm). pose proof (B3 (snapshotMetadataKey m)). lia.
Qed.

Lemma snapshotMetadataKey_seq n m : snapshotMetadataKey (with_sequence n m) = snapshotMetadataKey m.
Proof. done. Qed.

Lemma observe_offers publish l m : offers l (observe publish l m).1 (observe publish l m).2.
Proof.
  unfold observe. set (key := snapshotMetadataKey m). destruct (_ <=? _) eqn:Ev; bool_to_prop; [by apply offers_nil|].
  assert (Hv : ∀ k, default 0 (ln_versions l !! k) ≤ default 0 (<[key := md_Version m]> (ln_versions l) !! k)).
  { intros k. destruct (decide (k = key)) as [->|]; [rewrite lookup_insert_eq; cbn; lia|by rewrite lookup_insert_ne]. }
  destruct publish; [|by apply offers_nil]. split; cbn [fst snd ln_versions ln_eventSeq]; try done.
  - cbn. by rewrite wrap64_id by apply wrap64_bounds.
  - intros k. rewrite filter_cons. destruct (decide (same_key k _)) as [<-|]; cbn; [|repeat constructor].
    repeat constructor. rewrite snapshotMetadataKey_seq. exact Ev.
  - intros m' ->%list_elem_of_singleton. rewrite snapshotMetadataKey_seq. fold key. by rewrite lookup_insert_eq.
Qed.

Lemma observe_all_offers publish ms l : offers l (observe_all publish l ms).1 (observe_all publish l ms).2.
Proof.
  revert l. induction ms as [|m ms IH]; intros l; cbn; [by apply offers_nil|].
  pose proof (observe_offers publish l m) as O. destruct (observe publish l m) as [l1 o1]. specialize (IH l1).
  destruct (observe_all publish l1 ms) as [l2 o2]. by eapply offers_app.
Qed.

Lemma set_ready_offers l l' out : offers l l' out → offers l (set_ready l') out.
Proof. by intros []. Qed.

Lemma processMissedEvents_offers after l db :
  let '(l', _, out) := processMissedEvents after l db in offers l l' out.
Proof.
  unfold processMissedEvents. set (es := map event_metadata _). pose proof (observe_all_offers true es l) as O.
  by destruct (observe_all true l es).
Qed.

Section runs.
Context `{Postgres} (json_Metadata : string → option SnapshotMetadata).

Lemma catchUpFromCheckpoint_offers l db : let '(l', _, out) := catchUpFromCheckpoint l db in offers l l' out.
Proof.
  unfold catchUpFromCheckpoint. destruct (_ =? 0); [by apply offers_nil|]. apply processMissedEvents_offers.
Qed.

Lemma listener_call_offers c l :
  offers l (listener_call json_Metadata c l).1 (listener_call json_Metadata c l).2.
Proof.
  destruct c as [now db|channel payload db]; cbn.
  - unfold catchUp. destruct (0 <? _).
    + pose proof (processMissedEvents_offers (GetListenerCheckpoint snapshotNotificationConsumerName db) l db) as O.
      destruct (processMissedEvents _ _ _) as [[l' db'] out]. by apply set_ready_offers.
    + unfold reconcile. destruct (ListMetadata now db) as [ms|e]; [|by apply offers_nil].
      pose proof (observe_all_offers (ln_initialized l) ms l) as O. destruct (observe_all _ _ _).
      by apply set_ready_offers.
  - unfold on_notification. destruct (negb _); [by apply offers_nil|]. unfold handlePayload.
    destruct (_ <? _); [by apply offers_nil|]. destruct (json_Metadata payload) as [m|]; [|by apply offers_nil].
    destruct (valid_notification m); [|by apply offers_nil]. pose proof (observe_offers true l m) as O.
    destruct (observe true l m) as [l1 o1]. pose proof (catchUpFromCheckpoint_offers l1 db) as O2.
    destruct (catchUpFromCheckpoint l1 db) as [[l2 db2] o2]. by eapply offers_app.
Qed.

Lemma listener_run_offers cs l :
  offers l (listener_run json_Metadata cs l).1 (listener_run json_Metadata cs l).2.
Proof.
  revert l. induction cs as [|c cs IH]; intros l; cbn; [by apply offers_nil|].
  pose proof (listener_call_offers c l) as O. destruct (listener_call json_Metadata c l) as [l1 o1]. specialize (IH l1).
  destruct (listener_run json_Metadata cs l1) as [l2 o2]. by eapply offers_app.
Qed.

(** C29: the listener's events are fresh and in order.  Whatever notifications arrive,
    are lost or repeated, however often it reconnects and whatever the store holds then,
    the events it has offered to the hub since it started are numbered 1, 2, 3, ..., and
    those of one resource have strictly growing, positive versions, so no version is
    announced twice or after a newer one; and a well-formed notification of a version
    newer than those is offered at once. *)
Theorem listener_events_fresh cs l out :
  listener_run json_Metadata cs new_listener = (l, out) →
  map md_EventSequence out = map (λ n, wrap64 (Z.of_nat n)) (seq 1 (length out)) ∧
  (∀ k, StronglySorted Z.lt (0 :: map md_Version (base.filter (same_key k) out))) ∧
  (∀ payload m db, json_Metadata payload = Some m → valid_notification m = true →
     Z.of_nat (String.length payload) ≤ snapshotNotificationPayloadLimit →
     default 0 (ln_versions l !! snapshotMetadataKey m) < md_Version m →
     head (listener_call json_Metadata (LNotify "snapshot_committed" payload db) l).2 =
       Some (with_sequence (wrap64 (ln_eventSeq l + 1)) m)).
Proof.
  intros E. pose proof (listener_run_offers cs new_listener) as O. rewrite E in O. destruct O as [O1 _ _ O4 _].
  split; [done|]. split; [apply O4|]. intros payload m db Hj Hv Hl Hn. cbn. unfold on_notification.
  rewrite bool_decide_eq_true_2 by done. cbn [negb]. unfold handlePayload. rewrite (proj2 (Z.ltb_ge _ _)) by done.
  rewrite Hj, Hv. unfold observe. rewrite (proj2 (Z.leb_gt _ _)) by done.
  by destruct (catchUpFromCheckpoint _ _) as [[? ?] ?].
Qed.

(** ** Where the catch-up falls short *)

(** The checkpoint is only written by a catch-up that finds one: without a row for the
    consumer the listener never creates it, and never reads the outbox. *)
Lemma checkpoint_never_starts now channel payload l db :
  GetListenerCheckpoint snapshotNotificationConsumerName db = 0 →
  let '(_, db', _, _) := catchUp now l db in db' = db ∧
  let '(_, db'', _) := on_notification json_Metadata channel payload l db in db'' = db.
Proof.
  intros E. unfold catchUp. rewrite E. cbn. unfold on_notification, catchUpFromCheckpoint. rewrite E. cbn.
  destruct (reconcile now l db) as [[? ?] []]; (split; [done|]); (destruct (negb _); [done|]);
    by destruct (handlePayload _ _ _) as [[]|].
Qed.
End runs.

(** Events of different resources of one kind share a key in a catch-up, since the outbox
    row has no resource: the second is not announced unless its version is larger. *)
Lemma catch_up_conflates l e e' :
  ce_TargetKind e = ce_TargetKind e' → ce_SnapshotVersion e' ≤ ce_SnapshotVersion e →
  (observe true (observe true l (event_metadata e)).1 (event_metadata e')).2 = [].
Proof.
  intros Hk Hv. pose proof (observe_offers true l (event_metadata e)) as [_ _ Hm _ _].
  assert (Hkey : snapshotMetadataKey (event_metadata e') = snapshotMetadataKey (event_metadata e)).
  { unfold snapshotMetadataKey. cbn. by rewrite Hk. }
  assert (Hle : ce_SnapshotVersion e ≤ default 0 (ln_versions (observe true l (event_metadata e)).1 !! snapshotMetadataKey (event_metadata e))).
  { unfold observe. destruct (_ <=? _) eqn:El; bool_to_prop; [done|]. cbn [fst ln_versions].
    by rewrite lookup_insert_eq. }
  unfold observe at 1. rewrite Hkey. change (md_Version (event_metadata e')) with (ce_SnapshotVersion e').
  by rewrite (proj2 (Z.leb_le _ _)) by lia.
Qed.

Lemma max_sequence_acc es m :
  m ≤ foldl (λ m e, if m <? ce_Sequence e then ce_Sequence e else m) m es ∧
  ∀ e, e ∈ es → ce_Sequence e ≤ foldl (λ m e, if m <? ce_Sequence e then ce_Sequence e else m) m es.
Proof.
  revert m. induction es as [|x es IH]; intros m; cbn.
  - split; [done|]. intros e He. by apply elem_of_nil in He.
  - destruct (IH (if m <? ce_Sequence x then ce_Sequence x else m)) as [I1 I2].
    destruct (m <? ce_Sequence x) eqn:El; bool_to_prop; (split; [lia|]); intros e [-> |He]%elem_of_cons; auto; lia.
Qed.

(** A catch-up of more targets than a batch holds takes the first ones by target, then
    moves the checkpoint past events of the others: they are not read again. *)
Lemma compaction_loses cp l db e b :
  let batch := known_events (CompactedMissedEvents cp snapshotNotificationCatchUpBatchSize db) in
  b ∈ batch → 0 < ce_Sequence b → ce_Sequence e ≤ ce_Sequence b →
  let '(_, db', _) := processMissedEvents cp l db in
  e ∉ events_after (GetListenerCheckpoint snapshotNotificationConsumerName db') db'.
Proof.
  intros batch Hb Hp He. unfold processMissedEvents. fold batch. destruct (observe_all _ _ _) as [l' out].
  destruct (max_sequence_acc batch 0) as [_ M]. specialize (M b Hb). fold (max_sequence batch) in M.
  rewrite (proj2 (Z.ltb_lt _ _)) by lia. unfold GetListenerCheckpoint, UpdateListenerCheckpoint. cbn.
  rewrite lookup_insert_eq. cbn. intros (p & -> & [Hs _]%list_elem_of_filter)%list_elem_of_fmap. cbn in He. lia.
Qed.
