(* ===== verification/Demo.v ===== *)
(** A concrete environment and a concrete history: instances of the library parameters
    that satisfy their laws, and a store that was seeded, claimed and committed to by
    the modelled methods.  The witnesses evaluate the theorems on it. *)

From stdpp Require Import base list numbers strings gmap sorting.
From Stdlib Require Import ZArith QArith Qround Lqa Lia.
From S2P Require Import Prelude Float64 Sanitize Domain Policy Canonical Validation Tables Leases Lifecycle.
From S2P Require Import Reads Commit HostState Maintenance Store CommitSpec System HostSpec Coordinator.

Local Open Scope Z_scope.
Local Open Scope stdpp_scope.
Local Open Scope go_scope.

(** * Instances *)

#[export] Existing Instance demo_lib.
#[export] Existing Instance demo_laws.

(** NUMERIC conversion as rounding to the nearest unit of the scale. *)
Definition round_to_scale (k : Z) (x : Q) : Z := Qfloor (x * inject_Z k + (1 # 2)).

(** A JSONB column that writes a space after each comma, and a TIMESTAMPTZ that drops what is
    less than a microsecond. *)
Fixpoint spaced (s : string) : string :=
  match s with
  | EmptyString => ""
  | String c s' => if (Ascii.nat_of_ascii c =? 44)%nat then String c (" " +:+ spaced s') else String c (spaced s')
  end.

#[export] Instance demo_pg : Postgres := {|
  text_lt := str_lt;
  uuid_valid := nonempty;
  numeric_of_float8 := round_to_scale;
  interval_of_int := λ _, None;
  timestamptz := λ t, t / 1000 * 1000;
  jsonb_text := λ s, if bool_decide (s = "") then None else Some (spaced s)
|}.

Lemma round_near k n x :
  ((n # k) - p2 (-24) <= x)%Q → (x <= (n # k) + p2 (-24))%Q → Z.pos k ≤ 1000000 → round_to_scale (Z.pos k) x = n.
Proof.
  intros L U Hk. unfold round_to_scale.
  assert (E : ((n # k) * inject_Z (Z.pos k) == inject_Z n)%Q) by (unfold Qeq, inject_Z; cbn; lia).
  assert (Hp : (0 < inject_Z (Z.pos k))%Q) by reflexivity.
  assert (Hk' : (inject_Z (Z.pos k) <= inject_Z 1000000)%Q) by (by rewrite <- Zle_Qle).
  assert (Hs : (p2 (-24) * inject_Z (Z.pos k) < 1 # 2)%Q).
  { apply Qle_lt_trans with (p2 (-24) * inject_Z 1000000)%Q; [|reflexivity].
    rewrite !(Qmult_comm (p2 (-24))). apply Qmult_le_compat_r; [done|discriminate]. }
  set (q := (n # k)%Q) in *. set (kk := inject_Z (Z.pos k)) in *. set (d := p2 (-24)) in *.
  assert (L' : (inject_Z n < x * kk + (1 # 2))%Q) by (clearbody q kk d; nra).
  assert (U' : (x * kk + (1 # 2) < inject_Z (n + 1))%Q).
  { rewrite inject_Z_plus. change (inject_Z 1) with 1%Q. clearbody q kk d; nra. }
  pose proof (Qfloor_le (x * kk + (1 # 2))) as F1. pose proof (Qlt_floor (x * kk + (1 # 2))) as F2.
  set (f := Qfloor _) in *. clearbody f.
  assert (inject_Z n < inject_Z (f + 1))%Q by lra. assert (inject_Z f < inject_Z (n + 1))%Q by lra.
  rewrite <- !Zlt_Qlt in *. lia.
Qed.

#[export] Instance demo_pg_laws : PostgresLaws.
Proof.
  split.
  - intros k x y Hk Hxy. unfold numeric_of_float8, demo_pg, round_to_scale. apply Qfloor_resp_le.
    apply Qplus_le_compat; [|apply Qle_refl]. apply Qmult_le_compat_r; [done|].
    change 0%Q with (inject_Z 0). rewrite <- Zle_Qle. lia.
  - intros k n Hk Hn. unfold numeric_of_float8, demo_pg.
    assert (H0 : (0 <= n # k)%Q) by (unfold Qle; cbn; lia).
    assert (H1 : ((n # k) < inject_Z (2 ^ 30))%Q) by (unfold Qlt, inject_Z; cbn; destruct Hk as [-> | ->]; lia).
    destruct (rne_error_small _ H0 H1). apply round_near; [done|done|]. destruct Hk as [-> | ->]; lia.
Qed.

#[export] Instance demo_coord : CoordLib := {|
  json_session_status := λ _, SessionStatusActive;
  json_course_attributes := λ _ _, "{}";
  json_session_attributes := λ _, "{}";
  canon_error_text := λ _, "canonicalization failed";
  validation_error_text := λ _, "validation failed"
|}.

Definition demo_rng : Rng := {| rng_Float64 := 1 # 2; rng_Int63n := λ _, 0 |}.

Lemma demo_rng_ok : rng_ok demo_rng.
Proof. split; [split; [discriminate|reflexivity]|]. intros n Hn. cbn. lia. Qed.

Definition demo_random : Randoms :=
  {| rd_Schedule := demo_rng; rd_Child := λ i, Z.of_nat i; rd_RequestID := "r1"; rd_ConfirmRequestID := "r2";
     rd_Group := "g" |}.

(** * The history *)

Definition get {E A} (d : A) (r : result E A) : A := match r with Ok a => a | Err _ => d end.

Definition T0 : Z := 1000 * Hour.
Definition demo_ref : TargetRef := mkRef "h" SnapshotCourseCatalog "catalog" "".
Definition child_ref : TargetRef := mkRef "h" SnapshotCourseDetail "a" "".

Definition demo_host : HostStateSeed :=
  {| hs_Host := "h"; hs_BaselineRequestsPerSecond := 1; hs_Burst := 2; hs_BaselineConcurrency := 2; hs_Now := T0 |}.

Definition demo_seed : TargetSeed :=
  child_seed demo_ref "{}" 10 (PolicyFor SnapshotCourseCatalog SessionStatusActive) T0.

Definition db_seeded : DB := get empty_db (Seed [demo_seed] (get empty_db (SeedHost demo_host T0 empty_db))).

Definition claim_1 : ClaimRequest :=
  {| cr_Now := T0; cr_Limit := 5; cr_WorkerID := "w1"; cr_LeaseDuration := Minute |}.

Definition claimed_1 : DB * list ScrapeTarget := get (empty_db, []) (ClaimDue claim_1 ∅ db_seeded).

Definition no_target : ScrapeTarget := scanScrapeTarget 0 (seed_row demo_seed).
Definition target_1 : ScrapeTarget := default no_target (head (claimed_1.2)).

Definition metadata_200 : ResponseMetadata :=
  {| rm_StatusCode := 200; rm_ContentType := "application/json"; rm_ETag := "e1"; rm_LastModified := "";
     rm_CacheControl := ""; rm_RawBodyHash := zero_hash |}.

Definition fetch_of (ids : list string) : SnapshotFetchResult :=
  {| fr_Value := VCourses (map demo_course ids); fr_Metadata := metadata_200; fr_BytesRead := 10;
     fr_ReportedCount := 0; fr_ExpectedPages := 0; fr_FetchedPages := 1 |}.

(** The commit a run submits. *)
Definition input_of (target : ScrapeTarget) (fr : SnapshotFetchResult) (err : option GoErr)
    (prev : result RepoError Snapshot) (at_ : Z) : CommitInput :=
  commit_input target fr err at_ (at_ + Second) demo_random
    (assess 1000 target fr err prev None at_ demo_random).

Definition input_1 : CommitInput := input_of target_1 (fetch_of ["b"; "a"]) None (Err ErrSnapshotNotFound) T0.
Definition no_result : CommitResult := {| cm_RunID := 0; cm_Snapshot := None; cm_Metadata := None |}.
Definition committed_1 : DB * CommitResult := get (empty_db, no_result) (Commit input_1 T0 T0 claimed_1.1).

(** A second claim of the same target, two hours later, and its failed run. *)
Definition claim_2 (worker : string) (now : Z) : ClaimOneRequest :=
  {| co_Ref := demo_ref; co_Now := now; co_WorkerID := worker; co_LeaseDuration := Minute |}.
Definition claimed_2 : DB * ScrapeTarget :=
  get (empty_db, no_target) (ClaimOne (claim_2 "w1" (T0 + 2 * Hour)) ∅ committed_1.1).

Definition timeout_err : GoErr :=
  {| err_NotModified := false; err_Status := None; err_AuthExpired := false; err_AuthConflict := false;
     err_Fetch := None; err_DeadlineExceeded := true; err_Canceled := false; err_Text := "timeout" |}.
Definition not_modified_err : GoErr :=
  {| err_NotModified := true; err_Status := None; err_AuthExpired := false; err_AuthConflict := false;
     err_Fetch := None; err_DeadlineExceeded := false; err_Canceled := false; err_Text := "not modified" |}.
Definition no_body : SnapshotFetchResult :=
  {| fr_Value := VOther; fr_Metadata := {| rm_StatusCode := 0; rm_ContentType := ""; rm_ETag := "";
       rm_LastModified := ""; rm_CacheControl := ""; rm_RawBodyHash := "" |};
     fr_BytesRead := 0; fr_ReportedCount := 0; fr_ExpectedPages := 0; fr_FetchedPages := 0 |}.

Definition input_2 : CommitInput :=
  input_of claimed_2.2 no_body (Some timeout_err) (Err ErrSnapshotNotFound) (T0 + 2 * Hour).
Definition committed_2 : DB * CommitResult :=
  get (empty_db, no_result) (Commit input_2 (T0 + 2 * Hour) (T0 + 2 * Hour) claimed_2.1).

(** A takeover of the second lease once it has expired. *)
Definition claimed_3 : DB * ScrapeTarget :=
  get (empty_db, no_target) (ClaimOne (claim_2 "w2" (T0 + 3 * Hour)) ∅ claimed_2.1).

(** * The history is reachable *)

Lemma get_ok {E A} (d : A) (r : result E A) : is_ok r = true → r = Ok (get d r).
Proof. by destruct r. Qed.

Lemma seeded_ok : Seed [demo_seed] (get empty_db (SeedHost demo_host T0 empty_db)) = Ok db_seeded.
Proof. apply get_ok. vm_compute. reflexivity. Qed.

Lemma claimed_1_ok : ClaimDue claim_1 ∅ db_seeded = Ok (claimed_1.1, claimed_1.2).
Proof. rewrite <- surjective_pairing. apply get_ok. vm_compute. reflexivity. Qed.

Lemma committed_1_ok : Commit input_1 T0 T0 claimed_1.1 = Ok (committed_1.1, committed_1.2).
Proof. rewrite <- surjective_pairing. apply get_ok. vm_compute. reflexivity. Qed.

Lemma claimed_2_ok : ClaimOne (claim_2 "w1" (T0 + 2 * Hour)) ∅ committed_1.1 = Ok (claimed_2.1, claimed_2.2).
Proof. rewrite <- surjective_pairing. apply get_ok. vm_compute. reflexivity. Qed.

Lemma committed_2_ok :
  Commit input_2 (T0 + 2 * Hour) (T0 + 2 * Hour) claimed_2.1 = Ok (committed_2.1, committed_2.2).
Proof. rewrite <- surjective_pairing. apply get_ok. vm_compute. reflexivity. Qed.

Lemma claimed_3_ok : ClaimOne (claim_2 "w2" (T0 + 3 * Hour)) ∅ claimed_2.1 = Ok (claimed_3.1, claimed_3.2).
Proof. rewrite <- surjective_pairing. apply get_ok. vm_compute. reflexivity. Qed.

Lemma reach_seeded : reachable db_seeded.
Proof.
  eapply rtc_l; [eapply step_SeedHost with (seed := demo_host) (now := T0); apply get_ok; vm_compute; reflexivity|].
  eapply rtc_l; [eapply step_Seed; exact seeded_ok|reflexivity].
Qed.

Lemma reach_claimed_1 : reachable claimed_1.1.
Proof. eapply rtc_r; [exact reach_seeded|eapply step_ClaimDue; exact claimed_1_ok]. Qed.

Lemma reach_committed_1 : reachable committed_1.1.
Proof. eapply rtc_r; [exact reach_claimed_1|eapply step_Commit; exact committed_1_ok]. Qed.

Lemma claimed_2_step : db_step committed_1.1 claimed_2.1.
Proof. eapply step_ClaimOne. exact claimed_2_ok. Qed.

Lemma reach_claimed_2 : reachable claimed_2.1.
Proof. eapply rtc_r; [exact reach_committed_1|exact claimed_2_step]. Qed.

Lemma committed_2_step : db_step claimed_2.1 committed_2.1.
Proof. eapply step_Commit. exact committed_2_ok. Qed.
