(* ===== verification/Witnesses.v ===== *)
(** The theorems on the concrete history of [Demo]: every hypothesis they make is met
    there. *)

From stdpp Require Import base list numbers strings gmap sorting.
From Stdlib Require Import ZArith QArith Lia.
From S2P Require Import Prelude Float64 Sanitize Domain Policy Canonical Validation Tables Leases Lifecycle.
From S2P Require Import Reads Commit HostState Maintenance Store CommitSpec System Published Claims.
From S2P Require Import LifecycleSpec MaintenanceSpec HostSpec Permits Coordinator CoordinatorSpec RunSystem.
From S2P Require Import Scheduler SchedulerSpec SchedulerLoop Refresh Demo.

Local Open Scope Z_scope.
Local Open Scope stdpp_scope.
Local Open Scope go_scope.

(** The replay of the first commit after two more steps changes nothing. *)
Lemma Commit_exactly_once_witness :
  (get (empty_db, no_result) (Commit input_1 T0 T0 committed_2.1)).1 = committed_2.1 ∧
  cm_RunID (get (empty_db, no_result) (Commit input_1 T0 T0 committed_2.1)).2 = 1.
Proof.
  assert (E : Commit input_1 T0 T0 committed_2.1 =
    Ok ((get (empty_db, no_result) (Commit input_1 T0 T0 committed_2.1)).1,
        (get (empty_db, no_result) (Commit input_1 T0 T0 committed_2.1)).2)).
  { rewrite <- surjective_pairing. apply get_ok. vm_compute. reflexivity. }
  destruct (Commit_exactly_once _ _ _ _ _ _ committed_2.1 _ _ _ _ _ reach_claimed_1 committed_1_ok
    (rtc_l _ _ _ _ claimed_2_step (rtc_once _ _ committed_2_step)) eq_refl eq_refl E) as (E1 & E2 & _).
  split; [exact E1|]. rewrite E2. vm_compute. reflexivity.
Defined.

(** The payload is read back as the JSONB column writes it. *)
Lemma Commit_publishes_witness :
  ∃ sn', Current demo_ref committed_1.1 = Ok sn' ∧ ci_Payload input_1 = "[a,b," ∧ sn_Payload sn' = "[a, b, ".
Proof.
  destruct (db_targets claimed_1.1 !! ci_TargetID input_1) as [t|] eqn:Et;
    [|exfalso; revert Et; vm_compute; discriminate].
  assert (G : t_ref t = demo_ref ∧ lifecycle_state (t_life t) = LifeActive).
  { split; revert Et; vm_compute; intros [= <-]; reflexivity. }
  destruct G as [Er El].
  destruct (Commit_publishes input_1 T0 T0 claimed_1.1 committed_1.1 committed_1.2 t) as
    (sn & sn' & _ & _ & _ & _ & _ & Ec & _ & Ej & _);
    [exact reach_claimed_1|vm_compute; reflexivity|exact committed_1_ok|vm_compute; reflexivity|done|done|by rewrite Er|].
  assert (X : jsonb_text (ci_Payload input_1) = Some "[a, b, ") by (vm_compute; reflexivity).
  pose proof (eq_trans (eq_sym X) Ej) as Y. exists sn'. rewrite Er in Ec.
  split; [exact Ec|]. split; [vm_compute; reflexivity|congruence].
Defined.

Lemma Commit_keeps_last_known_good_witness :
  ∃ sn', Current demo_ref committed_2.1 = Ok sn' ∧ sn_Version sn' = 1 ∧ sn_Payload sn' = "[a, b, ".
Proof.
  destruct (Current demo_ref claimed_2.1) as [sn|] eqn:Ec; [|exfalso; revert Ec; vm_compute; discriminate].
  destruct (Commit_keeps_last_known_good input_2 _ _ _ _ _ demo_ref sn reach_claimed_2 ltac:(vm_compute; reflexivity)
    committed_2_ok ltac:(vm_compute; reflexivity) Ec) as (sn' & Ec' & (_ & Ev & _ & Ep) & _).
  exists sn'. split; [exact Ec'|]. rewrite Ev, Ep. revert Ec. vm_compute. intros [= <-]. split; reflexivity.
Defined.

Lemma Commit_outbox_witness : size (db_events committed_1.1) = 1%nat.
Proof.
  pose proof (Commit_outbox input_1 _ _ _ _ _ reach_claimed_1 ltac:(vm_compute; reflexivity) committed_1_ok) as E.
  destruct (cm_Snapshot committed_1.2) as [sn|] eqn:Es; [|exfalso; revert Es; vm_compute; discriminate].
  destruct (cm_Metadata committed_1.2) as [m|] eqn:Em; [|exfalso; revert Em; vm_compute; discriminate].
  destruct E as (-> & _). rewrite map_size_insert_None; vm_compute; reflexivity.
Defined.

Lemma Current_monotone_witness :
  ∃ a b, Current demo_ref committed_1.1 = Ok a ∧ Current demo_ref committed_2.1 = Ok b ∧ sn_Version a ≤ sn_Version b.
Proof.
  destruct (Current demo_ref committed_1.1) as [a|] eqn:Ea; [|exfalso; revert Ea; vm_compute; discriminate].
  destruct (Current demo_ref committed_2.1) as [b|] eqn:Eb; [|exfalso; revert Eb; vm_compute; discriminate].
  exists a, b. split; [done|]. split; [done|].
  by apply (Current_monotone _ _ _ _ _ reach_committed_1
    (rtc_l _ _ _ _ claimed_2_step (rtc_once _ _ committed_2_step)) Ea Eb).
Defined.

Lemma audit_clean_witness : OrphanedSnapshots (AuditSnapshotIntegrity committed_1.1) = 0.
Proof. rewrite (audit_clean _ reach_committed_1). reflexivity. Defined.

Lemma takeover_fences_witness :
  st_LeaseGeneration claimed_2.2 < st_LeaseGeneration claimed_3.2 ∧
  Commit input_2 T0 T0 claimed_3.1 = Err ErrLeaseLost.
Proof.
  destruct (takeover_fences committed_1.1 claimed_2.1 claimed_2.2 claimed_2.1 claimed_3.1 claimed_3.2 claimed_3.1
    input_2 T0 T0) as (Hlt & Hc & _).
  - exact reach_committed_1.
  - eapply claims_one. exact claimed_2_ok.
  - reflexivity.
  - eapply claims_one. exact claimed_3_ok.
  - vm_compute. reflexivity.
  - reflexivity.
  - vm_compute. reflexivity.
  - vm_compute. reflexivity.
  - split; [exact Hlt|]. apply Hc; vm_compute; reflexivity.
Defined.

Lemma ClaimDue_spec_witness : length claimed_1.2 = 1%nat ∧ Z.of_nat (length claimed_1.2) ≤ 5.
Proof.
  destruct (ClaimDue_spec _ _ _ _ _ claimed_1_ok) as [Hl _].
  split; [vm_compute; reflexivity|exact Hl].
Defined.

(** The catalog is seen again without course b. *)
Definition reconcile_1 : LifecycleReconcileInput :=
  {| lr_ParentRef := demo_ref; lr_ParentVersion := 2; lr_DiscoveredSeeds := []; lr_SeenChildRefs := [child_ref] |}.

Lemma ReconcileLifecycle_spec_witness :
  ∃ t', db_targets (get empty_db (ReconcileLifecycle reconcile_1 T0 committed_1.1)) !! 3 = Some t' ∧
    lifecycle_state (t_life t') = LifeMissing ∧ consecutive_missing_count (t_life t') = 1.
Proof.
  destruct (db_targets committed_1.1 !! 3) as [t|] eqn:Et; [|exfalso; revert Et; vm_compute; discriminate].
  assert (G : is_child demo_ref t = true ∧ listed_child [child_ref] t = false ∧
    reconciled 3 false (t_life t) = (LifeMissing, 1)).
  { revert Et. vm_compute. intros [= <-]. repeat split. }
  destruct G as (Hc & Hp & Hl).
  destruct (ReconcileLifecycle_spec reconcile_1 T0 committed_1.1
    (get empty_db (ReconcileLifecycle reconcile_1 T0 committed_1.1)) 3 t) as (t' & Ht' & _ & _ & Hs).
  - exact reach_committed_1.
  - apply get_ok. vm_compute. reflexivity.
  - exact Et.
  - exists t'. split; [exact Ht'|]. cbn [lr_ParentRef lr_SeenChildRefs reconcile_1] in Hs.
    cbv zeta in Hs. rewrite Hc, Hp in Hs. destruct Hs as [Hs _].
    change (child_threshold demo_ref) with 3 in Hs. rewrite Hl in Hs.
    injection Hs as Es Em. split; [exact Es|exact Em].
Defined.

Definition prune_1 : PruneRequest :=
  {| pr_Now := T0 + 3 * Hour; pr_SnapshotRetention := Hour; pr_RunRetention := Hour; pr_BatchSize := 100 |}.

Lemma Prune_spec_witness : ∃ db' res, Prune prune_1 committed_2.1 = Some (db', res, None) ∧
  db_snaps db' ⊆ db_snaps committed_2.1.
Proof.
  destruct (Prune_spec prune_1 committed_2.1) as (db' & res & E & _ & _ & Hs & _).
  - eapply rtc_r; [exact reach_claimed_2|exact committed_2_step].
  - cbn. lia.
  - vm_compute. reflexivity.
  - vm_compute. reflexivity.
  - vm_compute. discriminate.
  - exists db', res. by split.
Defined.

Definition throttled : HostObservation :=
  {| ho_Host := "h"; ho_Outcome := RRateLimited; ho_StatusCode := 429; ho_RetryAfter := 0; ho_Latency := 0;
     ho_ConsecutiveFailures := 1; ho_ObservedAt := T0 + Second |}.

Definition host_1 : HostRow :=
  default (mkHost 0 0 0 0 0 0 0 0 None 0 None) (db_hosts db_seeded !! "h").

Lemma ObserveHost_spec_witness :
  ∃ h', db_hosts (get empty_db (ObserveHost throttled db_seeded)) !! "h" = Some h' ∧ host_check h' = true.
Proof.
  destruct (ObserveHost_spec throttled host_1) with (db := db_seeded) as (h' & E & Hc & _).
  - vm_compute. reflexivity.
  - vm_compute. reflexivity.
  - vm_compute. reflexivity.
  - vm_compute. discriminate.
  - vm_compute. reflexivity.
  - exists h'. rewrite E. cbn [get]. split; [|exact Hc]. apply lookup_insert_eq.
Defined.

Definition acquire_1 : AcquireHostPermitRequest :=
  {| ar_Host := "h"; ar_TargetID := 1; ar_WorkerID := "w1"; ar_LeaseGeneration := 1; ar_Now := T0; ar_TTL := Minute |}.

Lemma permit_granted_witness :
  ∃ p db', AcquireHostPermit acquire_1 claimed_1.1 = Ok (db', permit_decision p) ∧
    length (active_permits db' "h" T0) = 1%nat.
Proof.
  assert (E : ∃ p db', AcquireHostPermit acquire_1 claimed_1.1 = Ok (db', permit_decision p)).
  { eexists _, _. vm_compute. reflexivity. }
  destruct E as (p & db' & E). exists p, db'. split; [exact E|].
  destruct (permit_granted _ _ _ _ reach_claimed_1 E) as (h & Eh & _ & _ & _ & _ & _ & _ & Hl);
    [vm_compute; reflexivity|].
  assert (Ec : bucket_clock h T0 = T0).
  { change (ar_Host acquire_1) with "h" in Eh.
    assert (Eh' : db_hosts claimed_1.1 !! "h" = Some host_1) by (vm_compute; reflexivity).
    rewrite Eh in Eh'. injection Eh' as ->. vm_compute. reflexivity. }
  cbn [ar_Now ar_Host acquire_1] in Hl. rewrite Ec in Hl. rewrite Hl. vm_compute. reflexivity.
Defined.

Lemma permits_bounded_witness : (length (active_permits claimed_1.1 "h" (T0 + Hour)) ≤ 4)%nat.
Proof.
  apply (permits_bounded claimed_1.1 "h" host_1 (T0 + Hour) reach_claimed_1);
    vm_compute; [reflexivity|discriminate].
Defined.

(** * Runs *)

Lemma claimed_target_1 : claimed target_1.
Proof. split; vm_compute; split_and?; done. Qed.

Lemma run_schedule_spec_witness :
  st_MinInterval target_1 ≤ rs_Interval (run_schedule target_1 RChanged T0 0 demo_rng) ≤ st_MaxInterval target_1.
Proof.
  pose proof (run_schedule_spec target_1 RChanged T0 0 demo_rng claimed_target_1 demo_rng_ok) as Hs.
  cbv zeta in Hs. cbn [isSuccessfulOutcome] in Hs. destruct Hs as [Hs _]. exact Hs.
Defined.

Lemma commit_input_accepted_witness :
  validateCommit (commit_input target_1 (fetch_of ["b"; "a"]) None T0 (T0 + Second) demo_random
    (assess 1000 target_1 (fetch_of ["b"; "a"]) None (Err ErrSnapshotNotFound) None T0 demo_random)) = Ok tt.
Proof.
  rewrite (commit_input_accepted 1000 target_1 (fetch_of ["b"; "a"]) None (Err ErrSnapshotNotFound) None
    T0 (T0 + Second) T0 demo_random).
  - vm_compute. reflexivity.
  - exact claimed_target_1.
  - exact demo_rng_ok.
  - vm_compute. reflexivity.
  - vm_compute. reflexivity.
  - vm_compute. discriminate.
  - intros _. vm_compute. discriminate.
Defined.

(** The same body reported as three records: the manifest is incomplete. *)
Definition partial_fetch : SnapshotFetchResult :=
  {| fr_Value := VCourses (map demo_course ["b"; "a"]); fr_Metadata := metadata_200; fr_BytesRead := 10;
     fr_ReportedCount := 3; fr_ExpectedPages := 0; fr_FetchedPages := 1 |}.

Example incomplete_run_is_refused :
  Commit (input_of target_1 partial_fetch None (Err ErrSnapshotNotFound) T0) T0 T0 claimed_1.1 =
    Err (ErrInvalid "changed commit requires a complete manifest").
Proof. vm_compute. reflexivity. Qed.

Definition timed_out : RunEnv :=
  {| en_Fetch := no_body; en_FetchErr := Some timeout_err; en_CtxDone := false; en_Confirm := None;
     en_StartedAt := T0 + 2 * Hour; en_FinishedAt := T0 + 2 * Hour + Second; en_ConfirmedAt := T0 + 2 * Hour;
     en_Random := demo_random |}.

#[local] Instance demo_store : Store DB := repository T0 T0.

Definition run_2 : DB * result CoordError RunResult :=
  RunClaimedWithRelease 1000 claimed_2.2 timed_out (λ _ db, db) claimed_2.1.

Lemma failed_run_keeps_readings_witness : reported_success run_2.2 = false ∧ keeps claimed_2.1 run_2.1.
Proof.
  assert (Hr : reported_success run_2.2 = false) by (vm_compute; reflexivity). split; [exact Hr|].
  apply (failed_run_keeps_readings (StoreLaws0 := repository_laws T0 T0) reachable 1000 claimed_2.2 timed_out (λ _ db, db)
    claimed_2.1 run_2.1 run_2.2).
  - exact reach_claimed_2.
  - intros n s Hs. split; [exact Hs|reflexivity].
  - unfold run_2. apply surjective_pairing.
  - exact Hr.
Defined.

Definition input_304 : CommitInput :=
  input_of claimed_2.2 no_body (Some not_modified_err) (Err ErrSnapshotNotFound) (T0 + 2 * Hour).

(** After one 304 on the catalog, course a cannot be read any more. *)
Lemma not_modified_hides_children_witness :
  Current child_ref (get empty_db (ReconcileLifecycle (reconcile_input claimed_2.2 input_304 no_result) T0 claimed_2.1)) =
    Err ErrSnapshotNotFound.
Proof.
  destruct (db_targets claimed_2.1 !! 2) as [t|] eqn:Et; [|exfalso; revert Et; vm_compute; discriminate].
  assert (G : is_child (st_Ref claimed_2.2) t = true ∧ t_ref t = child_ref).
  { revert Et. vm_compute. intros [= <-]. split; reflexivity. }
  destruct G as [Hc Href].
  destruct (not_modified_hides_children 1000 claimed_2.2 no_body not_modified_err (Err ErrSnapshotNotFound) None
    (T0 + 2 * Hour) (T0 + 2 * Hour + Second) (T0 + 2 * Hour) demo_random no_result T0 claimed_2.1
    (get empty_db (ReconcileLifecycle (reconcile_input claimed_2.2 input_304 no_result) T0 claimed_2.1)) 2 t)
    as (_ & Hcur & _).
  - reflexivity.
  - vm_compute. reflexivity.
  - exact reach_claimed_2.
  - apply get_ok. vm_compute. reflexivity.
  - exact Et.
  - exact Hc.
  - rewrite Href. vm_compute. reflexivity.
  - rewrite Href in Hcur. exact Hcur.
Defined.

(** * The scheduler *)

Definition config_1 : SchedulerConfig :=
  {| sc_WorkerID := "w1"; sc_MaxConcurrency := 2; sc_PrefetchFactor := 2; sc_LeaseDuration := Minute;
     sc_CommitGrace := 5 * Second; sc_TickLimit := 10; sc_PollInterval := Second; sc_RefreshPollInterval := 100 * Millisecond; sc_RefreshPollMax := 500 * Millisecond;
     sc_SnapshotRetention := 24 * Hour; sc_RunRetention := 24 * Hour; sc_PruneBatchSize := 1000;
     sc_WatchdogInterval := 5 * Minute; sc_PermitTTL := Minute |}.

Definition attempt_1 : Attempt :=
  {| at_Ctx := None; at_Now := T0; at_Wait := None; at_Other := λ db, db; at_Later := λ db, db |}.

Definition fetched_1 : RunEnv :=
  {| en_Fetch := fetch_of ["b"; "a"]; en_FetchErr := None; en_CtxDone := false; en_Confirm := None;
     en_StartedAt := T0; en_FinishedAt := T0 + Second; en_ConfirmedAt := T0; en_Random := demo_random |}.

Definition part_1 : RunPart :=
  {| rp_Env := fetched_1; rp_Other := λ _ db, db; rp_AppNow := T0; rp_DbNow := T0;
     rp_BeforePermit := λ db, db; rp_BeforeRelease := λ db, db |}.

(** The lease has run to its deadline by the second attempt. *)
Definition attempt_2 : Attempt :=
  {| at_Ctx := None; at_Now := T0 + Minute; at_Wait := None; at_Other := λ db, db; at_Later := λ db, db |}.

Definition executed_1 : DB * (bool * result SchedError (option RunResult)) :=
  default (empty_db, (false, Ok None))
    (executeClaimed config_1 1000 target_1 [attempt_1; attempt_2] part_1 claimed_1.1).

(** The first claim, run under a permit, publishes and ends its lease. *)
Lemma executeClaimed_ends_lease_witness :
  executed_1.2.1 = true ∧ is_ok (Current demo_ref executed_1.1) = true ∧
  ∃ db' attempted r,
    executeClaimed config_1 1000 target_1 [attempt_1; attempt_2] part_1 claimed_1.1 = Some (db', (attempted, r)) ∧
    (left_leased r = false → dead db' (st_ID target_1) (st_LeaseGeneration target_1)).
Proof.
  split; [vm_compute; reflexivity|]. split; [vm_compute; reflexivity|].
  assert (Hq : only_steps (λ db, db)) by (intros db _; reflexivity).
  apply (executeClaimed_ends_lease config_1 1000 target_1 [attempt_1; attempt_2] part_1 (T0 + Minute) claimed_1.1).
  - vm_compute. reflexivity.
  - vm_compute. reflexivity.
  - exact reach_claimed_1.
  - destruct (db_targets claimed_1.1 !! st_ID target_1) as [t|] eqn:Et; [|exfalso; revert Et; vm_compute; discriminate].
    exists t. split; [exact Et|]. revert Et. vm_compute. intros [= <-]. discriminate.
  - vm_compute. discriminate.
  - vm_compute. reflexivity.
  - right. left. vm_compute. discriminate.
  - repeat constructor; exact Hq.
  - repeat split; intros; exact Hq.
Defined.

(** A tick that claims one target, runs it and finds nothing left. *)
Definition tick_request : ClaimRequest :=
  {| cr_Now := T0; cr_Limit := 1; cr_WorkerID := "w1"; cr_LeaseDuration := Minute |}.
Definition tick_start : DB * list ScrapeTarget := get (empty_db, []) (ClaimDue tick_request ∅ db_seeded).
Definition tick_target : ScrapeTarget := default no_target (head (tick_start.2)).
Definition tick_worker : WorkerRun :=
  {| wr_Started := true; wr_Start := tick_start.1; wr_Attempts := [attempt_1; attempt_2]; wr_Part := part_1 |}.
Definition tick_final : DB := (default (empty_db, WCanceled) (worker_exec config_1 1000 tick_target tick_worker)).1.
Definition tick_env : TickEnv :=
  {| te_Done := false; te_Now := T0; te_Locked := ∅; te_Worker := λ _, tick_worker; te_Final := tick_final |}.
Definition tick_tail : TickTail :=
  {| tt_MaintNow := T0; tt_Day := "2024-01-01"; tt_MaintDone := false; tt_CountNow := T0; tt_Ctx := None |}.

Lemma tick_start_ok : ClaimDue tick_request ∅ db_seeded = Ok (tick_start.1, tick_start.2).
Proof. rewrite <- surjective_pairing. apply get_ok. vm_compute. reflexivity. Qed.

Lemma ok_pair {E A B} (a c : A) (b d : B) : @Ok E _ (a, b) = Ok (c, d) → a = c ∧ b = d.
Proof. by intros [= -> ->]. Qed.

Lemma id_steps : only_steps (λ db, db).
Proof. intros db _. reflexivity. Qed.

Lemma id_foreign i g : foreign i g (λ db, db).
Proof. split; [exact id_steps|done]. Qed.

Lemma tick_open : open tick_start.1 (st_ID tick_target) (st_LeaseGeneration tick_target).
Proof.
  split; [split|].
  - eapply rtc_r; [exact reach_seeded|eapply step_ClaimDue; exact tick_start_ok].
  - destruct (db_targets tick_start.1 !! st_ID tick_target) as [t|] eqn:Et; [|exfalso; revert Et; vm_compute; discriminate].
    exists t. split; [exact Et|]. revert Et. vm_compute. intros [= <-]. discriminate.
  - intros rid r. replace (db_runs tick_start.1) with (∅ : gmap Z RunRow) by (vm_compute; reflexivity).
    by rewrite lookup_empty.
Qed.

Lemma tick_final_eq d e : worker_exec config_1 1000 tick_target tick_worker = Some (d, e) → tick_final = d.
Proof. intros Ex. unfold tick_final. rewrite Ex. reflexivity. Qed.

Lemma tick_run_steps : rtc db_step tick_start.1 tick_final.
Proof.
  destruct (executeClaimed config_1 1000 tick_target [attempt_1; attempt_2] part_1 tick_start.1) as [[db' [a r]]|] eqn:E;
    [|exfalso; revert E; vm_compute; discriminate].
  assert (Ef : tick_final = db') by (unfold tick_final, worker_exec, tick_worker; cbn [wr_Started wr_Start wr_Attempts wr_Part]; by rewrite E).
  assert (Hr : ∃ res, r = Ok (Some res) ∧ rr_Succeeded res = true).
  { assert (G : (λ x, match x with Some (_, (_, Ok (Some res))) => rr_Succeeded res | _ => false end)
      (executeClaimed config_1 1000 tick_target [attempt_1; attempt_2] part_1 tick_start.1) = true) by (vm_compute; reflexivity).
    rewrite E in G. destruct r as [[res|]|]; [|discriminate G|discriminate G]. exists res. split; [reflexivity|exact G]. }
  destruct Hr as (res & -> & Hs). rewrite Ef.
  apply (executeClaimed_grows config_1 1000 tick_target [attempt_1; attempt_2] part_1 tick_start.1 db' a res tick_open); [|exact E|exact Hs].
  split; [apply Forall_cons; split; [split; apply id_foreign|]; apply Forall_singleton; split; apply id_foreign|]. cbn [snd].
  split_and!; intros; [apply id_foreign|exact id_steps|exact id_steps].
Qed.

Lemma RunDue_accounts_witness :
  ∃ db' day r errs ends,
    RunDue config_1 1000 1 [tick_env] tick_tail "" db_seeded = Some (db', day, (r, errs), ends) ∧
    tk_Claimed r = 1 ∧ tk_Claimed r ≤ 1 ∧ rtc db_step db_seeded db' ∧
    ∀ t e, (t, e) ∈ ends → end_left e = false → dead db' (st_ID t) (st_LeaseGeneration t).
Proof.
  destruct (RunDue_accounts config_1 1000 config_1 1 [tick_env] tick_tail "" db_seeded)
    as (db' & day & r & errs & ends & E & S & Hc & _ & _ & _ & _ & _ & _ & _ & Hd).
  - vm_compute. reflexivity.
  - reflexivity.
  - exact reach_seeded.
  - vm_compute. auto.
  - cbn [due_ok]. intros db1 targets _ Ec.
    assert (Et : tick_claim config_1 (tick_limit config_1 1) 0 tick_env db_seeded = Ok (tick_start.1, tick_start.2))
      by exact tick_start_ok.
    rewrite Et in Ec. apply ok_pair in Ec as [<- <-]. split; [exact tick_run_steps|]. split; [|exact I].
    assert (Ets : tick_start.2 = [tick_target]) by (vm_compute; reflexivity). rewrite Ets.
    apply Forall_singleton. split.
    + reflexivity.
    + apply Forall_cons; split; [split; apply id_steps|]. apply Forall_singleton. split; apply id_steps.
    + split; [intros n; exact id_steps|]. split; exact id_steps.
    + intros x Hx _. right. left.
      assert (Ex : st_LeaseExpiresAt tick_target = Some (T0 + Minute)) by (vm_compute; reflexivity).
      rewrite Ex in Hx. injection Hx as <-. vm_compute. discriminate.
    + intros d e Ex. rewrite <- (tick_final_eq d e Ex). exact (rtc_refl _ tick_final).
  - exists db', day, r, errs, ends. split; [exact E|]. split; [|split; [exact Hc|split; [exact S|exact Hd]]].
    assert (G : (λ x, match x with Some (_, _, (r, _), _) => tk_Claimed r | None => 0 end)
      (RunDue config_1 1000 1 [tick_env] tick_tail "" db_seeded) = 1) by (vm_compute; reflexivity).
    rewrite E in G. exact G.
Defined.

(** A refresh of the seeded target: it is claimed and run at once. *)
Definition refresh_env : RefreshEnv :=
  {| rf_Gap := λ _ db, db; rf_SeedNow := T0; rf_DueNow := T0; rf_ClaimNow := T0; rf_Locked := ∅;
     rf_Work := λ t, ([attempt_1; {| at_Ctx := None; at_Now := default 0 (st_LeaseExpiresAt t); at_Wait := None;
                                     at_Other := λ db, db; at_Later := λ db, db |}], part_1) |}.

Lemma deadline_le (cfg : SchedulerConfig) x : 0 ≤ sc_CommitGrace cfg → lease_deadline cfg x ≤ x.
Proof. unfold lease_deadline, time_Add. lia. Qed.

Lemma refresh_env_ok : refresh_ok config_1 refresh_env.
Proof.
  split; [intros n; exact id_steps|]. intros t. split.
  - split; [apply Forall_cons; split; [split; apply id_foreign|]; apply Forall_singleton; split; apply id_foreign|]. cbn [snd].
    split; [intros n; apply id_foreign|]. split; exact id_steps.
  - intros x Hx. right. left. cbn [at_Now]. rewrite Hx. apply (deadline_le config_1). vm_compute. discriminate.
Qed.

Lemma refresh_succeeds : ∃ db', RefreshNow config_1 1000 demo_ref refresh_env [] db_seeded = Some (db', Ok tt).
Proof.
  destruct (RefreshNow config_1 1000 demo_ref refresh_env [] db_seeded) as [[db' r]|] eqn:E;
    [|exfalso; revert E; vm_compute; discriminate].
  exists db'. assert (G : (λ x, match x with Some (_, Ok _) => true | _ => false end)
    (RefreshNow config_1 1000 demo_ref refresh_env [] db_seeded) = true) by (vm_compute; reflexivity).
  rewrite E in G. destruct r as [[]|]; [reflexivity|discriminate G].
Qed.

Lemma RefreshNow_validates_witness :
  ∃ db', RefreshNow config_1 1000 demo_ref refresh_env [] db_seeded = Some (db', Ok tt) ∧
    seq_of demo_ref db_seeded < seq_of demo_ref db'.
Proof.
  destruct refresh_succeeds as [db' E]. exists db'. split; [exact E|].
  destruct (RefreshNow_validates config_1 1000 config_1 demo_ref refresh_env [] db_seeded) as [_ Hv].
  - vm_compute. reflexivity.
  - exact reach_seeded.
  - exact refresh_env_ok.
  - constructor.
  - exact (Hv db' E).
Defined.
