(* ===== verification/ServiceWitnesses.v ===== *)
(** Concrete histories of the service components, on which their theorems are evaluated. *)

From stdpp Require Import base list numbers strings gmap relations sorting.
From Stdlib Require Import ZArith Lia.
From S2P Require Import Prelude Domain Canonical Tables Reads Demo.
From S2P Require Import EventHub Activity Inflight SessionPool Checkin CheckinSpec Listener.

Local Open Scope Z_scope.
Local Open Scope stdpp_scope.
Local Open Scope go_scope.

(** A step of a partial function, evaluated. *)
Ltac take_step c := eapply rtc_l; [eapply c; vm_compute; reflexivity|].

(** * The event hub *)

Definition hub_event (n : Z) : AppEvent Z := {| ev_Type := "RoomUpdated"; ev_Data := n |}.

(** Two subscribers, of which the second is slow and misses the third event. *)
Definition hub_ops : list (HubOp Z) :=
  [OpSubscribe true; OpSubscribe true;
   OpPublish (hub_event 1) false T0; OpEvent [1; 2] (λ _, T0); OpReceive 1;
   OpPublish (hub_event 2) false T0; OpEvent [2; 1] (λ _, T0); OpReceive 1;
   OpPublish (hub_event 3) false T0; OpEvent [1; 2] (λ _, T0);
   OpReceive 2; OpUnsubscribe true 2; OpPublish (hub_event 4) false T0].

Definition hub_1 : EventHub Z * HubHist Z :=
  default (NewEventHub 0 0, no_history) (hub_run hub_ops (NewEventHub 2 2, no_history)).

(** The first subscriber has all three events, the second the first two. *)
Lemma hub_streams_witness :
  length (hh_dispatched hub_1.2) = 3%nat ∧ hh_missed hub_1.2 = [2] ∧
  stream hub_1.1 hub_1.2 1 = drop 0 (hh_dispatched hub_1.2) ∧
  stream hub_1.1 hub_1.2 2 `sublist_of` drop 0 (hh_dispatched hub_1.2) ∧
  hh_accepted hub_1.2 = hh_dispatched hub_1.2 ++ eh_publishCh hub_1.1.
Proof.
  destruct (hub_streams hub_ops 2 2 hub_1.1 hub_1.2) as (Ha & _ & _ & Hc).
  - vm_compute. reflexivity.
  - vm_compute. reflexivity.
  - split; [vm_compute; reflexivity|]. split; [vm_compute; reflexivity|].
    destruct (eh_chans hub_1.1 !! 1) as [c|] eqn:E0; [|exfalso; revert E0; vm_compute; discriminate].
    destruct (eh_chans hub_1.1 !! 2) as [c'|] eqn:E1; [|exfalso; revert E1; vm_compute; discriminate].
    destruct (Hc 1 c E0) as (_ & _ & k & Hk & _ & Hx). destruct (Hc 2 c' E1) as (_ & _ & k' & Hk' & Hs & _).
    assert (k = 0%nat) as -> by (revert Hk; vm_compute; intros [= <-]; reflexivity).
    assert (k' = 0%nat) as -> by (revert Hk'; vm_compute; intros [= <-]; reflexivity).
    split; [|split; [exact Hs|exact Ha]]. apply Hx.
    + apply (bool_decide_eq_true_1 (1 ∈ eh_subscribers hub_1.1)). vm_compute. reflexivity.
    + apply (bool_decide_eq_true_1 (1 ∉ hh_missed hub_1.2)). vm_compute. reflexivity.
Defined.

(** * The activity controller *)

(** A first request starts the workers; a second one is counted just as the idle timer
    has fired and the loop has stopped the workers. *)
Definition activity_1 : ActivityController :=
  let c := RecordActivity_add NewActivityController in
  let c := default c (RecordActivity_send c) in
  let c := default c (Run_receive c) in
  let c := default c (Run_step c) in
  let c := default c (timer_fires c) in
  let c := default c (Run_expire c) in
  let c := default c (Run_step c) in
  let c := default c (Run_step c) in
  let c := default c (Run_step c) in
  let c := RecordActivity_add c in
  default c (RecordActivity_send c).

Lemma activity_1_reachable : activity_reachable activity_1.
Proof.
  unfold activity_reachable.
  eapply rtc_l; [apply act_add|]. take_step act_send. take_step act_receive. take_step act_run.
  take_step act_timer. take_step act_expire. do 3 take_step act_run.
  eapply rtc_l; [apply act_add|]. take_step act_send. vm_compute. apply rtc_refl.
Qed.

(** The workers, which were being stopped, are up again after at most eight steps. *)
Lemma activity_never_lost_witness :
  in_transition (ac_pc activity_1) = true ∧
  ∃ n, (n ≤ 8)%nat ∧ rtc activity_step activity_1 (Nat.iter n Run_next activity_1) ∧
    up_to_date (Nat.iter n Run_next activity_1).
Proof.
  split; [vm_compute; reflexivity|].
  destruct (activity_never_lost activity_1) as (_ & Hn & _); [exact activity_1_reachable|].
  apply Hn; vm_compute; reflexivity.
Defined.

(** * Coalesced reads *)

(** Two callers of one key, of which the first gives up; a third after the producer. *)
Definition inflight_1 : inflightGroup Z :=
  let g := default empty_group (Do_enter 0 "k" empty_group) in
  let g := default g (Do_enter 1 "k" g) in
  let g := default g (Do_canceled 0 g) in
  default g (Do_enter 2 "k" g).

Definition inflight_2 : inflightGroup Z :=
  let g := default inflight_1 (run_finish 0 (Returned (Some 7) None) inflight_1) in
  let g := default g (Do_done 1 g) in
  default g (Do_done 2 g).

Lemma inflight_shared_witness :
  ig_callers inflight_2 !! 1%nat = Some (Served 0 (Some 7, None) true) ∧
  ig_callers inflight_2 !! 2%nat = Some (Served 0 (Some 7, None) true) ∧
  (∀ id id' i r r' b b', ig_callers inflight_2 !! id = Some (Served i r b) →
     ig_callers inflight_2 !! id' = Some (Served i r' b') → r = r') ∧
  ∃ g' i c shared, Do_enter 3 "k" inflight_2 = Some g' ∧ ig_callers g' !! 3%nat = Some (Waiting i shared) ∧
    ig_store g' !! i = Some c ∧ ic_Key c = "k" ∧ ic_Completed c = false ∧ ic_Canceled c = false ∧
    (shared = true ↔ ∃ d, ig_store inflight_2 !! i = Some d) ∧ (shared = true ↔ is_Some (ig_calls inflight_2 !! "k")).
Proof.
  split; [vm_compute; reflexivity|]. split; [vm_compute; reflexivity|].
  destruct (inflight_shared inflight_2) as (_ & _ & _ & Hv & He).
  - unfold inflight_reachable. take_step (if_enter (V:=Z) 0%nat "k"). take_step (if_enter (V:=Z) 1%nat "k").
    take_step (if_canceled (V:=Z) 0%nat). take_step (if_enter (V:=Z) 2%nat "k").
    take_step (if_finish (V:=Z) 0%nat (Returned (Some 7) None)). take_step (if_done (V:=Z) 1%nat). take_step (if_done (V:=Z) 2%nat).
    vm_compute. apply rtc_refl.
  - split; [exact Hv|]. apply (He 3%nat "k"). vm_compute. reflexivity.
Defined.

(** * The session pool *)

Definition pool_env (login : result LoginError string) : AcquireEnv :=
  {| ae_Ctx := None; ae_CtxAfter := None; ae_Clock := λ _, T0; ae_Login := login |}.

Definition pool_0 : SessionPool := get {| sp_sessions := []; sp_qrAvailable := []; sp_teacherAvailable := [];
  sp_interactiveAvailable := []; sp_qrSize := 0; sp_teacherSize := 0; sp_interactiveSize := 0 |}
  (NewSessionPool 1 2 1 T0 (λ _, 0)).

(** Two goroutines take the teacher sessions; one login fails, the other holder releases
    twice. *)
Definition pool_1 : option PoolSys :=
  '(i, p) ← take_index TierTeacher pool_0;
  '(j, p) ← take_index TierTeacher p;
  '(p, _) ← acquireIndex (pool_env (Err (LoginFailed "503"))) TierTeacher i p;
  '(p, r) ← acquireIndex (pool_env (Ok "cookie")) TierTeacher j p;
  match r with
  | Err _ => None
  | Ok ref =>
      '(ref1, p) ← pool_Release ref p;
      '(ref2, p) ← pool_Release ref1 p;
      Some {| py_pool := p; py_holders := <[1%nat := Holding ref2]> (<[0%nat := Failed]> ∅) |}
  end.

Definition pool_2 : PoolSys := default {| py_pool := pool_0; py_holders := ∅ |} pool_1.

Lemma pool_conserved_witness :
  is_Some pool_1 ∧ available TierTeacher (py_pool pool_2) ++ held TierTeacher (py_holders pool_2) ≡ₚ [1; 2]%nat ∧
  length (available TierTeacher (py_pool pool_2)) = 2%nat.
Proof.
  split; [eexists; vm_compute; reflexivity|].
  destruct (pool_conserved 1 2 1 T0 (λ _, 0) pool_0 pool_2) as (Hc & _ & Hf & _).
  - vm_compute. reflexivity.
  - unfold pool_reachable.
    eapply rtc_l; [apply (ps_take 0%nat TierTeacher); vm_compute; reflexivity|].
    eapply rtc_l; [apply (ps_take 1%nat TierTeacher); vm_compute; reflexivity|].
    eapply rtc_l; [apply (ps_acquired 0%nat (pool_env (Err (LoginFailed "503"))) TierTeacher 1%nat); vm_compute; reflexivity|].
    eapply rtc_l; [apply (ps_acquired 1%nat (pool_env (Ok "cookie")) TierTeacher 2%nat); vm_compute; reflexivity|].
    do 2 (eapply rtc_l; [eapply (ps_release 1%nat); vm_compute; reflexivity|]).
    vm_compute. apply rtc_refl.
  - split; [exact (Hc TierTeacher)|]. apply (Hf TierTeacher). intros id h.
    assert (Hall : map_Forall (λ _ h, holds TierTeacher h = None) (py_holders pool_2)).
    { apply (bool_decide_eq_true_1 _). vm_compute. reflexivity. }
    intros Hid. exact (Hall id h Hid).
Defined.

(** * Check-in *)

Definition roster (checked : bool) : StateRead :=
  {| sr_Session := ReadLive (Ok (Some
       {| sd_Summary := {| ss_SessionID := "s"; ss_SessionNumber := 1; ss_Name := "lecture"; ss_Date := "2024-01-01";
                           ss_CheckedInCount := 0; ss_TotalStudents := 1; ss_Status := SessionStatusActive |};
          sd_Students := [{| sc_StudentID := "guid"; sc_Name := "n"; sc_Nickname := ""; sc_School := "";
                             sc_AvatarURL := ""; sc_CheckedIn := checked; sc_CheckedInAt := None;
                             sc_ParticipationPoints := 0 |}];
          sd_QRActive := false; sd_QRExpiresAt := None |}));
     sr_Profiles := Ok [{| sp_StudentID := "W1"; sp_StudentGuid := "guid"; sp_FullName := "n"; sp_School := "" |}] |}.

Definition step_in (checked : bool) : StepInput :=
  {| si_Read := roster checked; si_Refresh := None; si_Upstream := Ok tt; si_Kept := true |}.

Definition checkin_q : CheckinRequest :=
  {| cq_CourseID := "c"; cq_SessionID := "s"; cq_StudentID := "W1"; cq_DesiredCheckedIn := true;
     cq_ExpectedSnapshotVersion := None; cq_IdempotencyKey := "k1" |}.

Definition demo_hash (s : string) : Z := Z.of_nat (String.length s).

Definition checkin_next (checked : bool) (id : nat) (w : CheckinWorld) : CheckinWorld :=
  default w (checkin_step demo_hash false (step_in checked) id w).

(** A request runs to its end: lock, key, read, write, verify, confirm, unlock. *)
Definition checkin_1 : CheckinWorld :=
  Nat.iter 3 (checkin_next true 0) (Nat.iter 4 (checkin_next false 0) (goto_pc 0 checkin_q CStart no_checkins)).
(** Its retry has taken the lock. *)
Definition checkin_2 : CheckinWorld := checkin_next true 1 (goto_pc 1 checkin_q CStart checkin_1).

Lemma checkin_once_witness :
  length (cw_writes checkin_2) = 1%nat ∧
  ∃ w' res, checkin_step demo_hash false (step_in true) 1 checkin_2 = Some w' ∧ cr_Status res = Confirmed ∧
    cw_writes w' = cw_writes checkin_2 ∧ cw_requests w' !! 1%nat = Some (checkin_q, CDone (Ok res)).
Proof.
  split; [vm_compute; reflexivity|].
  destruct (checkin_once demo_hash false checkin_2) as (_ & _ & _ & Hk).
  - unfold checkin_reachable.
    eapply rtc_l; [apply (cs_request demo_hash false 0%nat checkin_q); vm_compute; reflexivity|].
    do 4 (eapply rtc_l; [apply (cs_call demo_hash false (step_in false) 0%nat); vm_compute; reflexivity|]).
    do 3 (eapply rtc_l; [apply (cs_call demo_hash false (step_in true) 0%nat); vm_compute; reflexivity|]).
    eapply rtc_l; [apply (cs_request demo_hash false 1%nat checkin_q); vm_compute; reflexivity|].
    eapply rtc_l; [apply (cs_call demo_hash false (step_in true) 1%nat); vm_compute; reflexivity|].
    vm_compute. apply rtc_refl.
  - destruct (cw_keys checkin_2 !! "k1") as [r|] eqn:Er; [|exfalso; revert Er; vm_compute; discriminate].
    destruct (kr_response r) as [res|] eqn:Eres;
      [|exfalso; revert Er Eres; vm_compute; intros [= <-]; discriminate].
    assert (G : kr_status r = KConfirmed ∧ key_matches checkin_q r = true ∧ cr_Status res = Confirmed).
    { revert Er Eres. vm_compute. intros [= <-] [= <-]. repeat split. }
    destruct G as (Gs & Gm & Gr).
    destruct (Hk "k1" r res Er (or_introl Gs) Eres) as [_ Hretry].
    destruct (Hretry (step_in true) 1%nat checkin_q) as (w' & Hw & Hwr & Hrq).
    + vm_compute. reflexivity.
    + reflexivity.
    + exact Gm.
    + exists w', res. split; [exact Hw|]. split; [exact Gr|]. split; [exact Hwr|exact Hrq].
Defined.

(** * The notification listener *)

Definition demo_note (version : Z) : SnapshotMetadata :=
  {| md_Kind := SnapshotCourseCatalog; md_ResourceKey := "catalog"; md_ParentKey := ""; md_Version := version;
     md_ValidationSeq := 1; md_ValidatedAt := T0; md_Stale := false; md_QualityState := DataQualityVerifiedFresh;
     md_Complete := true; md_ParserVersion := "v1"; md_EventSequence := 0 |}.

Definition demo_decode (s : string) : option SnapshotMetadata :=
  if String.eqb s "one" then Some (demo_note 1) else if String.eqb s "two" then Some (demo_note 2) else None.

(** The snapshot of version 1 is there at start-up and notified once more. *)
Definition listener_calls : list ListenerCall :=
  [LConnect T0 committed_1.1; LNotify "snapshot_committed" "one" committed_1.1;
   LNotify "other" "two" committed_1.1; LNotify "snapshot_committed" "garbage" committed_1.1].
Definition listener_1 : SnapshotNotificationListener * list SnapshotMetadata :=
  listener_run demo_decode listener_calls new_listener.

Lemma listener_events_fresh_witness :
  listener_1.2 = [] ∧
  head (listener_call demo_decode (LNotify "snapshot_committed" "two" committed_1.1) listener_1.1).2 =
    Some (with_sequence 1 (demo_note 2)).
Proof.
  split; [vm_compute; reflexivity|].
  destruct (listener_events_fresh demo_decode listener_calls listener_1.1 listener_1.2) as (_ & _ & Hh).
  - unfold listener_1. apply surjective_pairing.
  - rewrite (Hh "two" (demo_note 2) committed_1.1).
    + vm_compute. reflexivity.
    + reflexivity.
    + vm_compute. reflexivity.
    + vm_compute. discriminate.
    + vm_compute. reflexivity.
Defined.
