(* ===== verification/SourceWitnesses.v ===== *)
(** Concrete answers of the upstream site, on which the source's theorems are evaluated. *)

From stdpp Require Import base list numbers strings.
From Stdlib Require Import ZArith QArith Lia.
From S2P Require Import Prelude Domain Canonical Validation Tables HostState Commit Coordinator CoordinatorSpec Demo.
From S2P Require Import SessionPool Upstream Source SourceSpec Witnesses.

Local Open Scope Z_scope.
Local Open Scope stdpp_scope.
Local Open Scope go_scope.

(** A listing of 1001 students, whose identifiers are the words of three letters. *)
Definition letters : list string := ["a"; "b"; "c"; "d"; "e"; "f"; "g"; "h"; "i"; "j"; "k"].

Definition words : list string := flat_map (λ a, flat_map (λ b, map (λ c, a +:+ b +:+ c) letters) letters) letters.

Definition demo_row (id : string) : UserGroupRow :=
  {| ug_StudentID := " " +:+ id; ug_StudentGuid := "g" +:+ id; ug_FullName := "name"; ug_School := "school" |}.

Definition demo_rows : list UserGroupRow := map demo_row (take 1001 words).

(** Bodies: "[]" followed by a page number of ones. *)
Definition page_body (n : nat) : string := string_of_bytes ([91; 93] ++ repeat 49 n)%nat.

#[export] Instance demo_source : SourceLib := {|
  json_float := unit;
  float_value := λ _, 7%Q;
  FormatFloat := λ _, "7";
  mime_ParseMediaType := λ s, Some s;
  http_ParseTime := λ _, None;
  strconv_Quote := λ s, s;
  json_ClassAttendanceSearch := λ _,
    (Build_DataTable 2 2
      [{| ca_ID := JNumber tt; ca_CourseName := "Physics"; ca_Enrolled := JString "12";
          ca_StartDate := JString "2024-01-08T09:00:00"; ca_EndDate := JOther |};
       {| ca_ID := JString " a "; ca_CourseName := "Logic"; ca_Enrolled := JNumber tt;
          ca_StartDate := JOther; ca_EndDate := JOther |}], None);
  json_ClassAttendanceDetailSearch := λ _, (zero_table, None);
  json_StudentCheckInSearch := λ _, (zero_table, None);
  json_UserGroupSearch := λ body,
    (Build_DataTable 1001 1001 (take 500 (drop (500 * (String.length body - 2))%nat demo_rows)), None);
  json_course_name := λ _, ""
|}.

#[export] Instance demo_source_laws : SourceLaws.
Proof. intros x. vm_compute. reflexivity. Qed.

Definition json_answer (code : Z) (body : string) : RequestEnv :=
  {| re_Response := Ok {| hr_StatusCode := code;
       hr_Header := λ h, if bool_decide (h = "Content-Type") then "application/json" else "";
       hr_Body := body; hr_ReadErr := None |};
     re_Ctx := None; re_Now := T0 |}.

Definition page_answer (n : nat) : RequestEnv := json_answer 200 (page_body n).

(** * A catalog fetched after the first session was rejected *)

Definition catalog_upstream : Upstream := λ cookie _,
  {| fe_Request := if bool_decide (cookie = "new") then page_answer 0 else json_answer 401 "";
     fe_Clock := λ _, T0; fe_Pages := []; fe_Again := page_answer 0 |}.

Definition demo_sessions : SessionEnv :=
  {| se_Acquire := Ok "old"; se_AcquireCtx := None; se_Refresh := Ok "new"; se_RefreshCtx := None |}.

Definition catalog_fetch : SnapshotFetchResult := (Fetch 1000 (Some true) target_1 catalog_upstream demo_sessions).1.

Example catalog_ids :
  match fr_Value catalog_fetch with VCourses l => map (λ c, (cs_CourseID c, cs_StartDate c, cs_EnrolledCount c)) l | _ => [] end =
    [("7", "2024-01-08", 12); ("a", "", 7)].
Proof. vm_compute. reflexivity. Qed.

Lemma fetch_valid_witness :
  good_fetch target_1 catalog_fetch ∧
  validateCommit (commit_input target_1 catalog_fetch None T0 (T0 + Second) demo_random
    (assess 1000 target_1 catalog_fetch None (Err ErrSnapshotNotFound) None T0 demo_random)) = Ok tt.
Proof.
  pose proof (fetch_valid 1000 (Some true) target_1 catalog_upstream demo_sessions catalog_fetch None) as Hv.
  destruct Hv as [Hg Hc].
  - vm_compute. reflexivity.
  - split; [exact (Hg eq_refl)|]. apply Hc.
    + exact claimed_target_1.
    + exact demo_rng_ok.
    + vm_compute. reflexivity.
    + vm_compute. reflexivity.
    + intros _. vm_compute. discriminate.
Defined.

(** * A listing of three pages *)

Definition listing_env : FetchEnv :=
  {| fe_Request := page_answer 0; fe_Clock := λ _, T0; fe_Pages := [(0%nat, page_answer 1); (1%nat, page_answer 2)];
     fe_Again := page_answer 0 |}.

(** The letters of a word are digits, so the words are distinct. *)
Definition word_key (s : string) : Z := foldl (λ n b, 11 * n + (Z.of_nat b - 97)) 0 (bytes_of s).

Lemma keys_distinct (l : list string) k n : map word_key l = seqZ k n → NoDup l.
Proof. intros E. apply (NoDup_fmap_1 word_key). change (word_key <$> l) with (map word_key l). rewrite E. apply NoDup_seqZ. Qed.

Lemma demo_rows_distinct : distinct_rows demo_rows.
Proof.
  split; [|split].
  - apply Forall_forall. intros p Hp.
    assert (E : forallb (λ p, negb (String.eqb (sp_StudentID p) "") && negb (String.eqb (sp_StudentGuid p) ""))
      (map profile_of demo_rows) = true) by (vm_compute; reflexivity).
    rewrite forallb_forall in E. specialize (E p (proj1 (list_elem_of_In _ _) Hp)).
    apply andb_true_iff in E as [E1 E2]. apply negb_true_iff in E1, E2. by split; intros H; rewrite H in *.
  - apply (keys_distinct _ 0 1001). vm_compute. reflexivity.
  - apply (keys_distinct _ (6 * 1331) 1001). vm_compute. reflexivity.
Qed.

Lemma page_answered n : (n < 3)%nat → answers demo_rows n (fetchPage 1000 (page_answer n)).
Proof.
  intros Hn. assert (E : (fetchPage 1000 (page_answer n)).1.2 = Build_DataTable 1001 1001 (page_rows demo_rows n) ∧
    (fetchPage 1000 (page_answer n)).2 = None).
  { destruct n as [|[|[|n]]]; [split; lazy -[demo_rows take drop page_rows]; reflexivity..|lia]. }
  destruct E as [E1 E2]. split; [done|]. unfold page_table. rewrite E1. split_and!; [by vm_compute|done|done].
Qed.

Lemma listing_served : serves 1000 listing_env demo_rows.
Proof.
  split; [by apply (page_answered 0); lia|]. intros _. split_and!.
  - repeat apply Forall_cons_2; [apply (page_answered 1); lia|apply (page_answered 2); lia|apply Forall_nil_2].
  - intros [|[|i]] Hi.
    + exists (fetchPage 1000 (page_answer 1)). split; [done|]. apply (page_answered 1). lia.
    + exists (fetchPage 1000 (page_answer 2)). split; [done|]. apply (page_answered 2). lia.
    + assert (length demo_rows = 1001%nat) by (vm_compute; reflexivity). lia.
  - destruct (page_answered 0) as (He & Hf & Ht & Hd); [lia|].
    change (fe_Again listing_env) with (page_answer 0). change (fe_Request listing_env) with (page_answer 0).
    assert (Hl : length demo_rows = 1001%nat) by (vm_compute; reflexivity).
    split_and!; [done|apply counts_ok; rewrite Hf, Hl in *; unfold maxProfileRecords; lia|].
    unfold stable_first. rewrite bool_decide_true by reflexivity. rewrite Hf, Hd, Z.eqb_refl.
    unfold page_rows. rewrite length_take, length_drop, Hl. reflexivity.
Qed.

(** The third page completed before the second. *)
Lemma fetchProfiles_listing_witness :
  serves 1000 listing_env demo_rows ∧
  fetchProfiles 1000
    {| fe_Request := page_answer 0; fe_Clock := λ _, T0; fe_Pages := [(1%nat, page_answer 2); (0%nat, page_answer 1)];
       fe_Again := page_answer 0 |} = (profiles_result 1000 listing_env demo_rows, None).
Proof.
  split; [exact listing_served|]. apply (proj2 (fetchProfiles_listing 1000 listing_env)).
  - apply (bool_decide_unpack (NoDup [0%nat; 1%nat])). vm_compute. reflexivity.
  - apply perm_swap.
  - apply (proj1 (fetchProfiles_listing 1000 listing_env)). exists demo_rows.
    split; [exact listing_served|]. split; [exact demo_rows_distinct|]. split; [by vm_compute|reflexivity].
Defined.
