(* ===== verification/RoomWitnesses.v ===== *)
(** Concrete histories of the room manager: the theorems instantiated on them, and histories
    that show where the manager falls short. *)

From stdpp Require Import base list numbers strings gmap relations.
From Stdlib Require Import ZArith Lia.
From S2P Require Import Prelude Domain EventHub Coordinator Upstream RoomRepo Rooms RoomSystem RoomSpec Demo.

Local Open Scope Z_scope.
Local Open Scope stdpp_scope.
Local Open Scope go_scope.

Definition qr_only : RoomConfig := {| cf_qrClient := true; cf_labels := false; cf_sync := false |}.

Definition demo_qr : QrResponse := {| qr_URL := "data:image/png"; qr_Time := 60 |}.

Definition go (tid : nat) : RoomOp := OpThread tid (InGo T0).
Definition conn (tid : nat) : RoomOp := OpThread tid (InConn ConnOk T0).
Definition gos (tid n : nat) : list RoomOp := repeat (go tid) n.
Definition qr (tid : nat) (r : result QrError QrResponse) : RoomOp := OpThread tid (InQr r).

(** Room "r" is created by call 0 and started by call 1; its worker is goroutine 2. *)
Definition created : list RoomOp := [OpCall (CCreate "r" "class" None None); conn 0; conn 0] ++ gos 0 5.
Definition started : list RoomOp := created ++ [OpCall (CStart "r"); go 1].
(** The worker has asked the site for a QR. *)
Definition asking : list RoomOp := started ++ gos 2 4.

Definition after (ops : list RoomOp) : RoomSys := default (initial ∅) (sys_run qr_only ops (initial ∅)).

Lemma after_reachable ops s : sys_run qr_only ops (initial ∅) = Some s → after ops = s ∧ rtc (sys_step qr_only) (initial ∅) s.
Proof. intros E. split; [unfold after; by rewrite E|by eapply sys_run_reachable]. Qed.

(** What can be seen of room "r". *)
Definition room_r (s : RoomSys) : option (RoomStatus * bool * option nat) :=
  st ← mgr_states (sy_mgr s) !! 0%nat;
  Some (rm_Status (rst_room st), bool_decide (rm_QRURL (rst_room st) ≠ None), rst_cancel st).

(** The worker fetched a QR. *)
Definition serving : list RoomOp := asking ++ [qr 2 (Ok demo_qr); go 2] ++ gos 2 4.

Example serving_r : room_r (after serving) = Some (Running, true, Some 0%nat).
Proof. vm_compute. reflexivity. Qed.

(** * The theorems *)

(** The room is started, stopped and started again: two workers, of which one is live. *)
Definition restarted : list RoomOp :=
  asking ++ [OpCall (CStop "r"); go 3] ++ gos 3 2 ++ [OpCall (CStart "r"); go 4].

(** The room is stopped with every other one: its worker ends, its writes end, and the call
    returns without an error. *)
Definition stop_called : list RoomOp := serving ++ [OpCall CStopAll].
Definition stop_rest : list RoomOp := [conn 3; OpThread 2 InCtx; go 3; OpPersist 0 0 ConnOk; go 3; conn 3; go 3; go 3; go 3; go 3].
Definition stop_order : RoomOp := OpThread 3 (InOrder ["r"]).

Lemma rooms_one_worker_witness :
  (sys_run qr_only restarted (initial ∅) = Some (after restarted) ∧
   ctx_done (sy_mgr (after restarted)) 0 = true ∧
   ∃ st, mgr_states (sy_mgr (after restarted)) !! 0%nat = Some st ∧ rst_cancel st = Some 1%nat) ∧
  ctx_done (sy_mgr (after stop_called)) 0 = false ∧
  group_done 0 (sy_threads (after (stop_called ++ stop_order :: stop_rest))).
Proof.
  split.
  - assert (E : sys_run qr_only restarted (initial ∅) = Some (after restarted)) by (vm_compute; reflexivity).
    split; [exact E|]. split; [vm_compute; reflexivity|].
    destruct (rooms_one_worker qr_only ∅ (after restarted) (sys_run_reachable _ _ _ _ E)) as [Hl _].
    apply (Hl 5%nat {| th_effects := []; th_job := JWorker 0 1 WStart |}); vm_compute; reflexivity.
  - split; [vm_compute; reflexivity|].
    assert (E : sys_run qr_only stop_called (initial ∅) = Some (after stop_called)) by (vm_compute; reflexivity).
    destruct (rooms_one_worker qr_only ∅ (after stop_called) (sys_run_reachable _ _ _ _ E)) as (_ & _ & Hstop & _).
    assert (T : sy_threads (after stop_called) !! 3%nat = Some {| th_effects := []; th_job := JApi CStopAll |})
      by (vm_compute; reflexivity).
    assert (O : room_step_op qr_only stop_order (after stop_called) = Some (after (stop_called ++ [stop_order])))
      by (vm_compute; reflexivity).
    assert (R : sys_run qr_only stop_rest (after (stop_called ++ [stop_order])) =
      Some (after (stop_called ++ stop_order :: stop_rest))) by (vm_compute; reflexivity).
    assert (F : sy_threads (after (stop_called ++ stop_order :: stop_rest)) !! 3%nat =
      Some {| th_effects := []; th_job := JApi (CDone []) |}) by (vm_compute; reflexivity).
    assert (N : mgr_rooms (sy_mgr (after stop_called)) !! "r" = Some 0%nat ∧
      mgr_ctxs (sy_mgr (after stop_called)) !! 0%nat = Some (0%nat, false)) by (vm_compute; split; reflexivity).
    apply sys_run_reachable in R. destruct N as [Nr Nc].
    assert (V : ∀ e : RoomError, e ∈ [] → ∃ id e', e = RErrPersist id e') by (intros e H; inversion H).
    exact (proj2 (Hstop _ _ _ _ _ _ T O R F V _ _ _ Nr Nc)).
Defined.

(** Two changes of a room without a QR within five seconds, and one after. *)
Definition idle_room : Room := NewRoom "r" "class" None.

Lemma emit_revisions_witness :
  emitted "r" (emit_run (NewRoomManager ∅) [(T0, idle_room); (T0 + Second, idle_room); (T0 + Minute, idle_room)]).2 =
    [(T0, 1); (T0 + Minute, 2)] ∧
  map snd (emitted "r" (emit_run (NewRoomManager ∅)
    [(T0, idle_room); (T0 + Second, idle_room); (T0 + Minute, idle_room)]).2) = seqZ 1 2.
Proof.
  split; [vm_compute; reflexivity|].
  pose proof (emit_revisions (NewRoomManager ∅) [(T0, idle_room); (T0 + Second, idle_room); (T0 + Minute, idle_room)] "r"
    T0 idle_room) as H.
  destruct H as [H _]; [vm_compute; discriminate|vm_compute; reflexivity|]. exact H.
Defined.

Definition student (id : string) (b : bool) : StudentCheckin :=
  {| sc_StudentID := id; sc_Name := ""; sc_Nickname := ""; sc_School := ""; sc_AvatarURL := ""; sc_CheckedIn := b;
     sc_CheckedInAt := None; sc_ParticipationPoints := 0 |}.

(** A room state that knows two students. *)
Definition synced : RoomManager :=
  mgr_set_states [st_set_checkins (Some {["a" := false; "b" := true]}) (new_state idle_room)] (NewRoomManager ∅).

Definition synced_result : option (RoomManager * list CheckinUpdate) :=
  publishCheckinDeltas 0 [student "a" true; student "b" true; student "c" false] "course" "s" T0 ["c"; "a"; "b"] synced.

Lemma checkin_deltas_roundtrip_witness :
  ∃ m' updates, synced_result = Some (m', updates) ∧ map cu_StudentID updates = ["c"; "a"] ∧
    foldl apply_event {["a" := false; "b" := true]} (delta_events "course" "s" T0 updates) =
      ({["a" := true; "b" := true; "c" := false]} : gmap string bool) ∪ {["a" := false; "b" := true]}.
Proof.
  destruct synced_result as [[m' updates]|] eqn:E; [|vm_compute in E; discriminate].
  exists m', updates. split; [reflexivity|]. split.
  - vm_compute in E. injection E as <- <-. vm_compute. reflexivity.
  - destruct (checkin_deltas_roundtrip 0 [student "a" true; student "b" true; student "c" false] "course" "s" T0
      ["c"; "a"; "b"] synced m' updates (st_set_checkins (Some {["a" := false; "b" := true]}) (new_state idle_room))
      {["a" := false; "b" := true]}) as (_ & _ & _ & H & _); [reflexivity|reflexivity|exact E|].
    rewrite H. vm_compute. reflexivity.
Defined.

(** * Where the manager falls short *)

(** Goroutine [tid] is over. *)
Definition over_at (s : RoomSys) (tid : nat) : bool :=
  match sy_threads s !! tid with
  | Some {| th_effects := []; th_job := JEnd _ _ |} | Some {| th_effects := []; th_job := JApi (CDone _) |} => true
  | _ => false
  end.

Definition last_change (s : RoomSys) : option (RoomStatus * bool) :=
  last (omap (λ ev, match ev_Data ev with DataChanged c => Some (rc_Status c, rc_HasQR c) | _ => None end) (sy_events s)).

(** StopRoom runs after the worker looked at its context and before it takes the lock: the
    room is Running again, with a QR, without a worker, and the last event says so. *)
Definition revived : list RoomOp :=
  asking ++ [qr 2 (Ok demo_qr); OpCall (CStop "r"); go 3] ++ gos 3 2 ++ [go 2] ++ gos 2 4 ++ [OpThread 2 InCtx].

Example stopped_room_revived :
  room_r (after revived) = Some (Running, true, None) ∧ forallb (over_at (after revived)) [0; 1; 2; 3]%nat = true ∧
  last_change (after revived) = Some (Running, true).
Proof. vm_compute. split_and!; reflexivity. Qed.

(** The session expired and recovery failed nine times. *)
Definition recovering : list RoomOp := asking ++ [qr 2 (Err (QrFetch ErrKindAuthExpired "")); go 2] ++ gos 2 2.
Definition nine_failures : list RoomOp := recovering ++ repeat (qr 2 (Err (QrFetch ErrKindNetwork "reset"))) 9.

(** StopRoom during the tenth attempt: the worker calls a nil cancel function with the mutex
    held, and no call of the manager can take it again. *)
Definition panicked : list RoomOp :=
  nine_failures ++ [OpCall (CStop "r"); go 3] ++ gos 3 2 ++ [qr 2 (Err (QrCtx DoneCanceled)); go 2].

Example recovery_panics_with_lock :
  mgr_stuck (sy_mgr (after panicked)) = true ∧ over_at (after panicked) 2 = true ∧
  sys_run qr_only (panicked ++ [OpCall (CStart "r"); go 4]) (initial ∅) = None.
Proof. vm_compute. split_and!; reflexivity. Qed.

(** An admin logged in during recovery: the worker ends, but its cancel function stays, so
    StartRoom reports success and starts nothing. *)
Definition conflicted : list RoomOp :=
  recovering ++ [qr 2 (Err (QrFetch ErrKindAuthConflict "")); go 2] ++ gos 2 2 ++ [OpCall (CStart "r"); go 3].

Example dead_room_not_restarted :
  room_r (after conflicted) = Some (AuthExpired, false, Some 0%nat) ∧ over_at (after conflicted) 2 = true ∧
  sy_threads (after conflicted) !! 3%nat = Some {| th_effects := []; th_job := JApi (CDone []) |} ∧
  sy_next (after conflicted) = 4%nat.
Proof. vm_compute. split_and!; reflexivity. Qed.

(** The same after an invalid answer, where the room is Stopped: StopAllActiveRooms fails on
    it and stops no further room. *)
Definition invalid_answer : list RoomOp :=
  recovering ++ [qr 2 (Err (QrFetch ErrKindInvalidPayload "no image")); go 2] ++ gos 2 4 ++
  [OpCall CStopAll; OpThread 3 (InOrder ["r"])].

Example stop_all_refused :
  sy_threads (after invalid_answer) !! 3%nat =
    Some {| th_effects := []; th_job := JApi (CDone [RErrStop "r" (ErrTransition "Stopped" "Stopped")]) |}.
Proof. vm_compute. reflexivity. Qed.

(** Two requests ensure the same session at once: the second registration replaces the room
    state of the first, whose worker runs on and is out of reach of StopRoom. *)
Definition ensured_twice : list RoomOp :=
  [OpCall (CCreate "r" "r" None (Some "c")); OpCall (CCreate "r" "r" None (Some "c")); conn 0; conn 1; conn 0; conn 1]
  ++ gos 0 5 ++ gos 0 2 ++ gos 1 3 ++ gos 1 2 ++ [OpCall (CStop "r"); go 4].

Example first_worker_orphaned :
  map (λ c, ctx_done (sy_mgr (after ensured_twice)) c) [0; 1]%nat = [false; true] ∧
  mgr_rooms (sy_mgr (after ensured_twice)) !! "r" = Some 1%nat ∧
  sy_threads (after ensured_twice) !! 2%nat = Some {| th_effects := []; th_job := JWorker 0 0 WStart |}.
Proof. vm_compute. split_and!; reflexivity. Qed.
