(* ===== verification/Jobs.v ===== *)
(** The bounded worker pool that the services run their jobs on ([runBoundedJobs] of
    [internal/service/teacher.go], [runBoundedIndices] of
    [internal/warwick/classroom_courses.go]; the two are the same function).

    Workers take indexes from a shared atomic counter, look at the context and run the job;
    a step of the model is one of these operations, or the cancellation of the context. *)

From stdpp Require Import base list list_numbers numbers relations.
From Stdlib Require Import ZArith Lia.
From S2P Require Import Prelude.

Local Open Scope nat_scope.
Local Open Scope stdpp_scope.

(** A worker takes an index, tests the context with it, runs its job, or has returned. *)
Inductive JobWorker :=
| JTake
| JCheck (index : nat)
| JRun (index : nat)
| JReturned.

#[export] Instance JobWorker_eq_dec : EqDecision JobWorker.
Proof. solve_decision. Defined.

(** [jb_Started] lists the indexes whose job began, in that order; [jb_Canceled] is whether
    [ctx.Err()] is non-nil. *)
Record BoundedJobs := {
  jb_Next : nat;
  jb_Workers : list JobWorker;
  jb_Started : list nat;
  jb_Canceled : bool
}.

Inductive JobOp :=
| OpWorker (w : nat)
| OpCancel.

Section jobs.
Context (count : nat) (concurrency : Z).

(** How many workers there are. *)
Definition job_workers : nat :=
  if (count <=? 0) then 0
  else
    let c := if (concurrency <=? 0)%Z then 1%Z else concurrency in
    Z.to_nat (if (Z.of_nat count <? c)%Z then Z.of_nat count else c).

Definition jobs_start (canceled : bool) : BoundedJobs :=
  {| jb_Next := 0; jb_Workers := repeat JTake job_workers; jb_Started := []; jb_Canceled := canceled |}.

Definition worker_turn (s : BoundedJobs) (pc : JobWorker) : option (nat * JobWorker * list nat) :=
  match pc with
  | JTake => Some (S (jb_Next s), if jb_Next s <? count then JCheck (jb_Next s) else JReturned, jb_Started s)
  | JCheck i => Some (if jb_Canceled s then (jb_Next s, JReturned, jb_Started s) else (jb_Next s, JRun i, jb_Started s ++ [i]))
  | JRun i => Some (jb_Next s, JTake, jb_Started s)
  | JReturned => None
  end.

Definition jobs_op (s : BoundedJobs) (op : JobOp) : option BoundedJobs :=
  match op with
  | OpWorker w =>
      pc ← jb_Workers s !! w;
      '(next, pc', started) ← worker_turn s pc;
      Some {| jb_Next := next; jb_Workers := <[w := pc']> (jb_Workers s); jb_Started := started; jb_Canceled := jb_Canceled s |}
  | OpCancel =>
      if jb_Canceled s then None
      else Some {| jb_Next := jb_Next s; jb_Workers := jb_Workers s; jb_Started := jb_Started s; jb_Canceled := true |}
  end.

Definition jobs_step (s s' : BoundedJobs) : Prop := ∃ op, jobs_op s op = Some s'.

(** [workers.Wait()] returns. *)
Definition jobs_over (s : BoundedJobs) : bool :=
  forallb (λ pc, match pc with JReturned => true | _ => false end) (jb_Workers s).

Fixpoint jobs_run (ops : list JobOp) (s : BoundedJobs) : option BoundedJobs :=
  match ops with
  | [] => Some s
  | op :: ops' => s' ← jobs_op s op; jobs_run ops' s'
  end.

Lemma jobs_run_reachable ops s s' : jobs_run ops s = Some s' → rtc jobs_step s s'.
Proof.
  revert s. induction ops as [|op ops IH]; intros s; cbn; [by intros [= ->]|].
  destruct (jobs_op s op) as [s1|] eqn:E; [|done]. intros H. eapply rtc_l; [by exists op|]. by apply IH.
Qed.

(** * Invariant and measure *)

(** Indexes handed to workers that have not begun their job. *)
Definition checking (l : list JobWorker) : list nat := omap (λ pc, match pc with JCheck i => Some i | _ => None end) l.
Definition running (l : list JobWorker) : list nat := omap (λ pc, match pc with JRun i => Some i | _ => None end) l.

(** Below the counter, each index has been started, is about to be, or was dropped because
    of the cancellation; a worker has returned only if the counter is past the end or the
    context is cancelled. *)
Record jobs_inv (s : BoundedJobs) : Prop := {
  ji_len : length (jb_Workers s) = job_workers;
  ji_nodup : NoDup (jb_Started s ++ checking (jb_Workers s));
  ji_below : ∀ i, i ∈ jb_Started s ++ checking (jb_Workers s) → i < jb_Next s ∧ i < count;
  ji_all : jb_Canceled s = false → ∀ i, i < jb_Next s → i < count → i ∈ jb_Started s ++ checking (jb_Workers s);
  ji_returned : jb_Canceled s = false → JReturned ∈ jb_Workers s → count ≤ jb_Next s
}.

Lemma omap_insert_perm {A B} (f : A → option B) (l : list A) w x y : l !! w = Some x →
  omap f (<[w := y]> l) ++ option_list (f x) ≡ₚ omap f l ++ option_list (f y).
Proof.
  revert w. induction l as [|z l IH]; intros [|w]; cbn; try done.
  - intros [= ->]. destruct (f x), (f y); cbn; rewrite ?app_nil_r; solve_Permutation || done.
  - intros H. specialize (IH w H). destruct (f z); cbn; [by rewrite IH|done].
Qed.

Lemma elem_of_insert_worker (l : list JobWorker) w pc pc' : l !! w = Some pc → JReturned ∈ <[w := pc']> l → pc' ≠ JReturned → JReturned ∈ l.
Proof.
  intros Hw Hin Hne. apply list_elem_of_lookup in Hin as [k Hk]. destruct (decide (w = k)) as [->|Hwk].
  - rewrite list_lookup_insert_eq in Hk by (by eapply lookup_lt_Some). congruence.
  - rewrite list_lookup_insert_ne in Hk by done. by eapply list_elem_of_lookup_2.
Qed.

(** What a turn does to the indexes handed out. *)
Lemma turn_handed s w pc next pc' started : jb_Workers s !! w = Some pc → worker_turn s pc = Some (next, pc', started) →
  let now := started ++ checking (<[w := pc']> (jb_Workers s)) in
  let before := jb_Started s ++ checking (jb_Workers s) in
  match pc with
  | JTake => now ≡ₚ before ++ (if jb_Next s <? count then [jb_Next s] else [])
  | JCheck i => if jb_Canceled s then now ++ [i] ≡ₚ before else now ≡ₚ before
  | _ => now ≡ₚ before
  end.
Proof.
  intros Hw Ht. pose proof (λ y, omap_insert_perm (λ pc, match pc with JCheck i => Some i | _ => None end) _ _ _ y Hw) as Hp.
  unfold checking. destruct pc as [|i|i|]; cbn [worker_turn] in Ht; [| | |done].
  - injection Ht as <- <- <-. specialize (Hp (if jb_Next s <? count then JCheck (jb_Next s) else JReturned)).
    cbn [option_list] in Hp. rewrite app_nil_r in Hp. rewrite Hp, app_assoc. by destruct (_ <? _).
  - destruct (jb_Canceled s); injection Ht as <- <- <-.
    + specialize (Hp JReturned). cbn in Hp. rewrite app_nil_r in Hp. by rewrite <- Hp, app_assoc.
    + specialize (Hp (JRun i)). cbn in Hp. rewrite app_nil_r in Hp. rewrite <- Hp, <- app_assoc.
      by rewrite (Permutation_app_comm [i]).
  - injection Ht as <- <- <-. specialize (Hp JTake). cbn in Hp. by rewrite !app_nil_r in Hp; rewrite Hp.
Qed.

Lemma jobs_inv_start canceled : jobs_inv (jobs_start canceled).
Proof.
  assert (Hc : checking (repeat JTake job_workers) = []) by (induction job_workers; cbn; done).
  split; cbn [jobs_start jb_Next jb_Workers jb_Started jb_Canceled]; rewrite ?Hc; [apply repeat_length|constructor|set_solver|lia|].
  intros _ H. apply list_elem_of_In, repeat_spec in H. done.
Qed.

(** The invariant after a turn, from the indexes handed out before and after it. *)
Lemma turn_inv s w pc' next started extra :
  jobs_inv s → w < length (jb_Workers s) → jb_Next s ≤ next →
  started ++ checking (<[w := pc']> (jb_Workers s)) ≡ₚ jb_Started s ++ checking (jb_Workers s) ++ extra →
  (∀ i, i ∈ extra ↔ jb_Next s ≤ i < next ∧ i < count) → NoDup extra →
  (pc' = JReturned → count ≤ next) →
  jobs_inv {| jb_Next := next; jb_Workers := <[w := pc']> (jb_Workers s); jb_Started := started; jb_Canceled := jb_Canceled s |}.
Proof.
  intros [Hl Hn Hb Ha Hr] Hw Hnx Hp He Hne Hret. rewrite app_assoc in Hp.
  split; cbn [jb_Next jb_Workers jb_Started jb_Canceled]; [by rewrite length_insert| | | |].
  - rewrite Hp. apply NoDup_app. split_and!; [done| |done]. intros i Hi%Hb. rewrite He. lia.
  - intros i. rewrite Hp, elem_of_app, He. intros [[? ?]%Hb|]; lia.
  - intros Hc i Hi Hlt. rewrite Hp, elem_of_app, He. destruct (decide (i < jb_Next s)); [left; by apply Ha|right; lia].
  - intros Hc Hin. destruct (decide (pc' = JReturned)) as [->|Hx]; [by apply Hret|].
    destruct (lookup_lt_is_Some_2 _ _ Hw) as [pc Hpc].
    pose proof (Hr Hc (elem_of_insert_worker _ _ _ _ Hpc Hin Hx)). lia.
Qed.

Lemma jobs_step_inv s s' : jobs_inv s → jobs_step s s' → jobs_inv s'.
Proof.
  intros Hi [[w|] Hop]; cbn in Hop.
  2:{ destruct (jb_Canceled s) eqn:Ec; [done|]. injection Hop as <-. destruct Hi. by split; cbn. }
  destruct (jb_Workers s !! w) as [pc|] eqn:Hw; [|done]. cbn in Hop.
  destruct (worker_turn s pc) as [[[next pc'] started]|] eqn:Ht; [|done]. cbn in Hop. injection Hop as <-.
  pose proof (turn_handed _ _ _ _ _ _ Hw Ht) as Hp. cbv zeta in Hp. pose proof (lookup_lt_Some _ _ _ Hw) as Hlt.
  destruct pc as [|i|i|]; cbn [worker_turn] in Ht; [| | |done].
  - injection Ht as <- <- <-. revert Hp. destruct (Nat.ltb_spec (jb_Next s) count); intros Hp.
    + apply (turn_inv s w _ _ _ [jb_Next s]); [done|done|lia|by rewrite app_assoc| |apply NoDup_singleton|done].
      intros i. rewrite list_elem_of_singleton. lia.
    + apply (turn_inv s w _ _ _ []); [done|done|lia|by rewrite app_assoc| |constructor|lia]. set_solver by lia.
  - destruct (jb_Canceled s) eqn:Ec; rewrite ?Ec in *; injection Ht as <- <- <-.
    + destruct Hi as [Hl Hn Hb Ha Hr]. rewrite <- Hp in Hn.
      split; cbn [jb_Next jb_Workers jb_Started jb_Canceled]; [by rewrite length_insert|by apply NoDup_app in Hn as [? _]| |congruence|congruence].
      intros j Hj. apply Hb. rewrite <- Hp. apply elem_of_app. by left.
    + rewrite <- Ec. apply (turn_inv s w _ _ _ []); [done|done|lia|by rewrite app_nil_r| |constructor|done]. set_solver by lia.
  - injection Ht as <- <- <-.
    apply (turn_inv s w _ _ _ []); [done|done|lia|by rewrite app_nil_r| |constructor|done]. set_solver by lia.
Qed.

Lemma jobs_reachable_inv canceled s : rtc jobs_step (jobs_start canceled) s → jobs_inv s.
Proof. intros H. apply (rtc_ind_r _ _ (jobs_inv_start canceled) (λ s' s'' _ Hs Hi, jobs_step_inv s' s'' Hi Hs) s H). Qed.

(** Every turn of a worker, and the cancellation, uses up part of this. *)
Definition worker_weight (pc : JobWorker) : nat :=
  match pc with JTake => 1 | JCheck _ => 3 | JRun _ => 2 | JReturned => 0 end.

Definition jobs_left (s : BoundedJobs) : nat :=
  3 * (count - jb_Next s) + sum_list_with worker_weight (jb_Workers s) + (if jb_Canceled s then 0 else 1).

Lemma weight_insert (l : list JobWorker) w pc pc' : l !! w = Some pc →
  sum_list_with worker_weight (<[w := pc']> l) + worker_weight pc = sum_list_with worker_weight l + worker_weight pc'.
Proof.
  revert w. induction l as [|x l IH]; intros [|w]; try done.
  - intros [= ->]. change (<[0 := pc']> (pc :: l)) with (pc' :: l). cbn [sum_list_with]. lia.
  - intros H%IH. cbn [sum_list_with]. change (<[S w := pc']> (x :: l)) with (x :: <[w := pc']> l). cbn [sum_list_with]. lia.
Qed.

Lemma jobs_step_left s s' : jobs_step s s' → jobs_left s' < jobs_left s.
Proof.
  intros [[w|] Hop]; cbn in Hop; unfold jobs_left.
  2:{ destruct (jb_Canceled s) eqn:Ec; [done|]. injection Hop as <-. cbn [jb_Next jb_Workers jb_Canceled]. lia. }
  destruct (jb_Workers s !! w) as [pc|] eqn:Hw; [|done]. cbn in Hop.
  destruct (worker_turn s pc) as [[[next pc'] started]|] eqn:Ht; [|done]. cbn in Hop. injection Hop as <-.
  cbn [jb_Next jb_Workers jb_Canceled]. pose proof (weight_insert _ _ _ pc' Hw) as Hs.
  destruct pc as [|i|i|]; cbn [worker_turn] in Ht; [| | |done].
  - injection Ht as <- <- <-. revert Hs. destruct (Nat.ltb_spec (jb_Next s) count); cbn [worker_weight]; lia.
  - destruct (jb_Canceled s) eqn:Ec; injection Ht as <- <- <-; cbn [worker_weight] in Hs; lia.
  - injection Ht as <- <- <-. cbn [worker_weight] in Hs. lia.
Qed.

Lemma jobs_steps_left n s s' : nsteps jobs_step n s s' → n + jobs_left s' ≤ jobs_left s.
Proof. induction 1 as [|n s s1 s' Hs _ IH]; [lia|]. apply jobs_step_left in Hs. lia. Qed.

Lemma jobs_progress s : jobs_over s = false → ∃ w s', jobs_op s (OpWorker w) = Some s'.
Proof.
  intros H. assert (Hx : ∃ w pc, jb_Workers s !! w = Some pc ∧ pc ≠ JReturned).
  { unfold jobs_over in H. induction (jb_Workers s) as [|pc l IH]; cbn in H; [done|].
    destruct pc; try (eexists 0, _; split; [reflexivity|done]).
    destruct (IH H) as (w & pc & Hw & Hn). by exists (S w), pc. }
  destruct Hx as (w & pc & Hw & Hn). exists w. cbn. rewrite Hw. cbn. destruct pc; [| | |done]; cbn; [eauto| |eauto].
  destruct (jb_Canceled s); cbn; eauto.
Qed.

Lemma weight_start k : sum_list_with worker_weight (repeat JTake k) = k.
Proof. induction k as [|k IH]; [done|]. cbn [repeat sum_list_with worker_weight]. by rewrite IH. Qed.

Lemma running_bound l : length (running l) ≤ length l.
Proof. unfold running. induction l as [|[] l IH]; cbn in *; lia. Qed.

Lemma jobs_over_checking s : jobs_over s = true → checking (jb_Workers s) = [].
Proof. unfold jobs_over. induction (jb_Workers s) as [|[] l IH]; cbn; try done. Qed.

Lemma jobs_complete s : jobs_inv s → jobs_over s = true → jb_Canceled s = false → jb_Started s ≡ₚ seq 0 count.
Proof.
  intros [Hl Hnd Hb Ha Hr] Ho Hc. pose proof (jobs_over_checking s Ho) as He. rewrite He, app_nil_r in *.
  apply NoDup_Permutation; [done|apply NoDup_seq|]. intros i. rewrite elem_of_seq. split; [intros Hi%Hb; lia|].
  intros Hi. apply Ha; [done| |lia]. enough (count ≤ jb_Next s) by lia. apply Hr; [done|].
  unfold jobs_over in Ho. destruct (jb_Workers s) as [|[] l] eqn:Ew; try done; [|left].
  revert Hl. cbn. unfold job_workers. destruct (Nat.leb_spec count 0); [lia|]. repeat case_match; lia.
Qed.

(** The worker pool.  However its workers are scheduled and whenever the context is
    cancelled, no index is run twice, only indexes below the count are run, and never more
    jobs at once than the concurrency (one if it is not positive); the pool always returns,
    after at most [3 * count + workers + 1] steps; and when it returns without its context
    cancelled, every index has been run exactly once. *)
Lemma bounded_jobs canceled s n :
  nsteps jobs_step n (jobs_start canceled) s →
  NoDup (jb_Started s) ∧ (∀ i, i ∈ jb_Started s → i < count) ∧
  (Z.of_nat (length (running (jb_Workers s))) ≤ Z.max 1 concurrency)%Z ∧
  n ≤ 3 * count + job_workers + 1 ∧
  (jobs_over s = false → ∃ w s', jobs_op s (OpWorker w) = Some s') ∧
  (jobs_over s = true → jb_Canceled s = false → jb_Started s ≡ₚ seq 0 count).
Proof.
  intros Hn. assert (Hi : jobs_inv s) by (eapply jobs_reachable_inv, rtc_nsteps_2, Hn). destruct (Hi) as [Hl Hnd Hb _ _].
  split_and!.
  - by apply NoDup_app in Hnd as [? _].
  - intros i Hin. apply Hb, elem_of_app. by left.
  - pose proof (running_bound (jb_Workers s)). revert Hl. unfold job_workers.
    destruct (Nat.leb_spec count 0), (Z.leb_spec concurrency 0), (Z.ltb_spec (Z.of_nat count) concurrency);
      repeat case_match; lia.
  - apply jobs_steps_left in Hn. unfold jobs_left at 2 in Hn. cbn [jobs_start jb_Next jb_Workers jb_Canceled] in Hn.
    rewrite weight_start in Hn. destruct canceled; lia.
  - apply jobs_progress.
  - by apply jobs_complete.
Qed.

End jobs.

Definition two_jobs : list JobOp :=
  [OpWorker 0; OpWorker 1; OpWorker 1; OpWorker 0; OpWorker 1; OpWorker 1; OpWorker 1; OpWorker 1; OpWorker 0; OpWorker 0; OpWorker 1].

Lemma bounded_jobs_witness :
  match jobs_run 3 two_jobs (jobs_start 3 2 false) with
  | Some s => jobs_over s = true ∧ jb_Started s = [1; 0; 2] ∧ jb_Started s ≡ₚ [0; 1; 2]
  | None => False
  end.
Proof.
  destruct (jobs_run 3 two_jobs (jobs_start 3 2 false)) as [s|] eqn:E; [|vm_compute in E; discriminate].
  destruct (rtc_nsteps_1 _ _ (jobs_run_reachable _ _ _ _ E)) as [n Hn].
  destruct (bounded_jobs 3 2 false s n Hn) as (_ & _ & _ & _ & _ & H).
  vm_compute in E. injection E as <-. split_and!; [reflexivity|reflexivity|]. apply H; reflexivity.
Defined.
