(* ===== verification/Report.v ===== *)
(** The attendance report of a course ([ComputeCourseAttendanceReport] of
    [internal/warwick/report_client.go]) and the absence dashboard over several courses
    ([internal/service/dashboard_aggregator.go], with the types of [domain/classroom.go] and
    [domain/dashboard.go]).

    The sessions of a course are fetched concurrently on the pool of [Jobs]; what a job sees
    of its source and of the context is a [FetchTrace].  The jobs share one thing, the budget
    of retries, so a run of them is given by the order in which they reach it.  Counters count
    rows held in memory and cannot overflow. *)

From stdpp Require Import base list list_numbers numbers strings gmap.
From Stdlib Require Import ZArith QArith Lia.
From S2P Require Import Prelude Float64 Domain Upstream.

Local Open Scope Z_scope.
Local Open Scope stdpp_scope.
Local Open Scope go_scope.

(** * The course report *)

Record SessionCell := {
  sl_SessionID : string;
  sl_SessionNumber : Z;
  sl_SessionName : string;
  sl_SessionDate : string;
  sl_SessionStatus : SessionStatus;
  sl_CheckedIn : bool;
  sl_Status : string
}.

Record StudentAttendance := {
  sa_StudentID : string;
  sa_Name : string;
  sa_Nickname : string;
  sa_AvatarURL : string;
  sa_School : string;
  sa_AttendedSessions : Z;
  sa_TotalSessions : Z;
  sa_AttendanceRate : Q;
  sa_AtRisk : bool;
  sa_PerSession : list SessionCell
}.

Record ReportError := { re_SessionID : string; re_Reason : string }.

Record CourseAttendanceReport := {
  cr_CourseID : string;
  cr_CourseName : string;
  cr_Sessions : list SessionSummary;
  cr_Students : list StudentAttendance;
  cr_Errors : list ReportError;
  cr_Truncated : bool;
  cr_Stale : bool;
  cr_Threshold : Z;
  cr_ComputedAt : Z;
  cr_DurationMs : Z
}.

Definition maxReportRateLimitRetries : nat := 4.
Definition reportRetryBase : Z := 500 * Millisecond.
Definition reportRetryJitter : Z := 500 * Millisecond.
Definition reportRetryMax : Z := 4 * Second.

(** An error of the session source: a [*domain.FetchError], or another one. *)
Inductive SessionErr :=
| SessionFetchErr (kind : FetchErrorKind) (msg : string)
| SessionOtherErr (text : string).

Definition session_err_text (e : SessionErr) : string :=
  match e with SessionFetchErr kind msg => FetchError_Error kind msg | SessionOtherErr text => text end.

Definition isRateLimited (e : SessionErr) : bool :=
  match e with SessionFetchErr kind _ => bool_decide (kind = ErrKindRateLimited) | SessionOtherErr _ => false end.

(** [hash/fnv]: the 32-bit FNV-1a hash. *)
Definition fnv32a (s : string) : Z :=
  foldl (λ h b, (Z.lxor h (Z.of_nat b) * 16777619) mod 2 ^ 32) 2166136261 (bytes_of s).

Definition reportRateLimitBackoff (sessionID : string) (attempt : Z) : Z :=
  let attempt := if attempt <? 0 then 0 else attempt in
  let base := Z.shiftl reportRetryBase (Z.min attempt 3) in
  let base := if reportRetryMax <? base then reportRetryMax else base in
  let jitter := (fnv32a sessionID mod Z.quot reportRetryJitter Millisecond) * Millisecond in
  if reportRetryMax <? base + jitter then reportRetryMax else base + jitter.

(** What a job sees: the answers to its first fetch and to its retry, whether the context
    was cancelled when it looked at it (twice), whether it was when the job asked for a
    retry and which way [select] then went if both were open, and whether the cancellation
    came before the timer. *)
Record FetchTrace := {
  ft_First : result SessionErr (option SessionDetail);
  ft_Err1 : bool;
  ft_Err2 : bool;
  ft_Done : bool;
  ft_PickDone : bool;
  ft_DoneFirst : bool;
  ft_Retry : result SessionErr (option SessionDetail)
}.

(** [sessionResult]: its state is empty, "error", "empty" or "ok". *)
Inductive SessionResult :=
| ResultNone
| ResultError (reason : string)
| ResultEmpty
| ResultOk (detail : SessionDetail).

Definition job_detail (sess : SessionSummary) (d : option SessionDetail) : SessionResult :=
  match d with
  | None => ResultError ("nil detail for session " +:+ ss_SessionID sess)
  | Some detail => match sd_Students detail with [] => ResultEmpty | _ => ResultOk detail end
  end.

(** One job; [used] is how many retries of the budget are taken. *)
Definition report_job (sess : SessionSummary) (t : FetchTrace) (used : nat) : nat * SessionResult :=
  match ft_First t with
  | Ok d => (used, job_detail sess d)
  | Err e =>
      if ft_Err1 t then (used, ResultError "cancelled")
      else if negb (isRateLimited e) then (used, ResultError (session_err_text e))
      else if ft_Err2 t then (used, ResultError "cancelled")
      else
        let open := (used <? maxReportRateLimitRetries)%nat in
        if open && negb (ft_Done t && ft_PickDone t)
        then (S used,
              if ft_DoneFirst t then ResultError "cancelled"
              else match ft_Retry t with Ok d => job_detail sess d | Err e' => ResultError (session_err_text e') end)
        else if ft_Done t then (used, ResultError "cancelled")
        else (used, ResultError ("rate limit retry budget exhausted for session " +:+ ss_SessionID sess))
  end.

(** The jobs that ran, in the order in which they come to the budget. *)
Definition run_report_job (sessions : list SessionSummary) (trace : nat → FetchTrace)
    (acc : nat * list SessionResult) (idx : nat) : nat * list SessionResult :=
  match sessions !! idx with
  | None => acc
  | Some sess => let '(used, r) := report_job sess (trace idx) acc.1 in (used, <[idx := r]> acc.2)
  end.

Definition report_results (sessions : list SessionSummary) (trace : nat → FetchTrace) (order : list nat)
    : nat * list SessionResult :=
  foldl (run_report_job sessions trace) (0%nat, map (λ _, ResultNone) sessions) order.

(** After [runBoundedIndices] reported the cancellation. *)
Definition cancel_rest (r : SessionResult) : SessionResult :=
  match r with ResultNone => ResultError "cancelled" | _ => r end.

Definition report_error (sess : SessionSummary) (r : SessionResult) : option ReportError :=
  match r with
  | ResultError reason => Some {| re_SessionID := ss_SessionID sess; re_Reason := reason |}
  | _ => None
  end.

Record StudentAccum := { ac_Attended : Z; ac_Total : Z; ac_Detail : StudentCheckin }.

Definition accum_row (isDone : bool) (m : gmap string StudentAccum) (s : StudentCheckin) : gmap string StudentAccum :=
  let acc := default {| ac_Attended := 0; ac_Total := 0; ac_Detail := s |} (m !! sc_StudentID s) in
  <[sc_StudentID s :=
     if isDone
     then {| ac_Attended := if sc_CheckedIn s then ac_Attended acc + 1 else ac_Attended acc;
             ac_Total := ac_Total acc + 1; ac_Detail := ac_Detail acc |}
     else acc]> m.

Definition is_done (sess : SessionSummary) : bool := bool_decide (ss_Status sess = SessionStatusDone).

Definition accum_session (m : gmap string StudentAccum) (x : SessionSummary * SessionResult) : gmap string StudentAccum :=
  match x.2 with
  | ResultOk detail => foldl (accum_row (is_done x.1)) m (sd_Students detail)
  | _ => m
  end.

Definition error_cell (sess : SessionSummary) : SessionCell :=
  {| sl_SessionID := ss_SessionID sess; sl_SessionNumber := ss_SessionNumber sess; sl_SessionName := ss_Name sess;
     sl_SessionDate := ""; sl_SessionStatus := ss_Status sess; sl_CheckedIn := false; sl_Status := "error" |}.

Definition student_row (threshold : Z) (sessions : list SessionSummary) (acc : StudentAccum) : StudentAttendance :=
  {| sa_StudentID := sc_StudentID (ac_Detail acc); sa_Name := sc_Name (ac_Detail acc);
     sa_Nickname := sc_Nickname (ac_Detail acc); sa_AvatarURL := sc_AvatarURL (ac_Detail acc);
     sa_School := sc_School (ac_Detail acc); sa_AttendedSessions := ac_Attended acc; sa_TotalSessions := ac_Total acc;
     sa_AttendanceRate := fdiv (f_of_int (ac_Attended acc)) (f_of_int (ac_Total acc));
     sa_AtRisk := threshold <=? ac_Total acc - ac_Attended acc;
     sa_PerSession := map error_cell sessions |}.

(** The map is walked in the order [walk]. *)
Definition student_rows (threshold : Z) (sessions : list SessionSummary) (accum : gmap string StudentAccum)
    (walk : list string) : list StudentAttendance :=
  omap (λ id, acc ← accum !! id; if ac_Total acc =? 0 then None else Some (student_row threshold sessions acc)) walk.

Definition fill_cell (checked : bool) (c : SessionCell) : SessionCell :=
  {| sl_SessionID := sl_SessionID c; sl_SessionNumber := sl_SessionNumber c; sl_SessionName := sl_SessionName c;
     sl_SessionDate := sl_SessionDate c; sl_SessionStatus := sl_SessionStatus c; sl_CheckedIn := checked;
     sl_Status := "ok" |}.

Definition set_cells (cells : list SessionCell) (s : StudentAttendance) : StudentAttendance :=
  {| sa_StudentID := sa_StudentID s; sa_Name := sa_Name s; sa_Nickname := sa_Nickname s; sa_AvatarURL := sa_AvatarURL s;
     sa_School := sa_School s; sa_AttendedSessions := sa_AttendedSessions s; sa_TotalSessions := sa_TotalSessions s;
     sa_AttendanceRate := sa_AttendanceRate s; sa_AtRisk := sa_AtRisk s; sa_PerSession := cells |}.

(** [studentIndex]. *)
Definition student_index (students : list StudentAttendance) : gmap string nat :=
  foldl (λ m x, <[sa_StudentID x.2 := x.1]> m) ∅ (imap (λ i s, (i, s)) students).

Definition fill_row (index : gmap string nat) (j : nat) (students : list StudentAttendance) (s : StudentCheckin)
    : list StudentAttendance :=
  match index !! sc_StudentID s with
  | Some i => alter (λ st, set_cells (alter (fill_cell (sc_CheckedIn s)) j (sa_PerSession st)) st) i students
  | None => students
  end.

Definition fill_session (index : gmap string nat) (students : list StudentAttendance) (x : nat * SessionResult)
    : list StudentAttendance :=
  match x.2 with
  | ResultOk detail => foldl (fill_row index x.1) students (sd_Students detail)
  | _ => students
  end.

(** At-risk students first, then by rate, then by name: the order of both reports. *)
Definition risk_less {A} (risk : A → bool) (rate : A → Q) (name : A → string) (a b : A) : bool :=
  if negb (eqb (risk a) (risk b)) then risk a
  else if negb (Qeq_bool (rate a) (rate b)) then flt (rate a) (rate b)
  else str_lt (name a) (name b).

(** The sessions of the course, each ID once. *)
Definition unique_step (acc : gset string * list SessionSummary) (s : SessionSummary) : gset string * list SessionSummary :=
  if bool_decide (ss_SessionID s ∈ acc.1) then acc else ({[ss_SessionID s]} ∪ acc.1, acc.2 ++ [s]).

Definition uniqueSessions (sessions : list SessionSummary) : list SessionSummary :=
  (foldl unique_step (∅, []) sessions).2.

(** What a report sees: how its jobs went, the errors of the context after them and later,
    the order in which it walks the students, and the clock. *)
Record ReportEnv := {
  rv_Order : list nat;
  rv_Trace : nat → FetchTrace;
  rv_JobErr : bool;
  rv_CtxErr : bool;
  rv_Walk : list string;
  rv_Start : Z;
  rv_DurationMs : Z
}.

Definition final_results (env : ReportEnv) (sessions : list SessionSummary) : list SessionResult :=
  let results := (report_results sessions (rv_Trace env) (rv_Order env)).2 in
  if rv_JobErr env then map cancel_rest results else results.

Definition accum_results (sessions : list SessionSummary) (results : list SessionResult) : gmap string StudentAccum :=
  foldl accum_session ∅ (zip sessions results).

(** The students of the report; [None] when [rv_Walk] is not an order of the map. *)
Definition report_students (threshold : Z) (sessions : list SessionSummary) (results : list SessionResult)
    (walk : list string) : option (list StudentAttendance) :=
  let accum := accum_results sessions results in
  if negb (walks walk accum) then None
  else
    let students := student_rows threshold sessions accum walk in
    let filled := foldl (fill_session (student_index students)) students (imap (λ i r, (i, r)) results) in
    Some (sort_stable (risk_less sa_AtRisk sa_AttendanceRate sa_Name) filled).

Definition empty_report (courseID name : string) (sessions : list SessionSummary) (errors : list ReportError)
    (truncated : bool) (threshold start ms : Z) : CourseAttendanceReport :=
  {| cr_CourseID := courseID; cr_CourseName := name; cr_Sessions := sessions; cr_Students := []; cr_Errors := errors;
     cr_Truncated := truncated; cr_Stale := false; cr_Threshold := threshold; cr_ComputedAt := start; cr_DurationMs := ms |}.

Definition report_threshold (threshold : Z) (sessions : list SessionSummary) : Z :=
  if threshold <=? 0 then Z.quot (Z.of_nat (length sessions) + 4) 5 else threshold.

(** [source] is false for a nil source. *)
Definition ComputeCourseAttendanceReport (env : ReportEnv) (source : bool) (course : option CourseDetail) (threshold : Z)
    : option CourseAttendanceReport :=
  match course with
  | None => Some (empty_report "" "" [] [ {| re_SessionID := ""; re_Reason := "nil course detail" |} ] true 0
                    (rv_Start env) (rv_DurationMs env))
  | Some course =>
      let id := cs_CourseID (cd_Summary course) in
      let name := cs_Name (cd_Summary course) in
      if negb source
      then Some (empty_report id name (cd_Sessions course) [ {| re_SessionID := ""; re_Reason := "nil session source" |} ]
                   true 0 (rv_Start env) (rv_DurationMs env))
      else if bool_decide (cd_Sessions course = [])
      then Some (empty_report id name [] [] false threshold (rv_Start env) 0)
      else
        let threshold := report_threshold threshold (cd_Sessions course) in
        let sessions := uniqueSessions (cd_Sessions course) in
        let results := final_results env sessions in
        students ← report_students threshold sessions results (rv_Walk env);
        Some {| cr_CourseID := id; cr_CourseName := name; cr_Sessions := sessions; cr_Students := students;
                cr_Errors := omap (λ x, report_error x.1 x.2) (zip sessions results);
                cr_Truncated := rv_JobErr env || rv_CtxErr env; cr_Stale := false; cr_Threshold := threshold;
                cr_ComputedAt := rv_Start env; cr_DurationMs := rv_DurationMs env |}
  end.

(** * The dashboard *)

Record CourseAbsence := {
  cb_CourseID : string;
  cb_CourseName : string;
  cb_TotalSessions : Z;
  cb_AttendedSessions : Z;
  cb_Rate : Q;
  cb_Absences : Z;
  cb_AtRisk : bool
}.

Record SessionCheckin := {
  sk_SessionID : string;
  sk_SessionNumber : Z;
  sk_SessionName : string;
  sk_SessionDate : string;
  sk_SessionStatus : string;
  sk_CheckedIn : bool;
  sk_Status : string
}.

Record StudentAbsence := {
  sb_StudentID : string;
  sb_Name : string;
  sb_Nickname : string;
  sb_School : string;
  sb_AvatarURL : string;
  sb_AttendedSessions : Z;
  sb_TotalSessions : Z;
  sb_AttendanceRate : Q;
  sb_AtRisk : bool;
  sb_Courses : list CourseAbsence;
  sb_PerSession : list SessionCheckin
}.

Record StudentRisk := {
  sr_StudentID : string;
  sr_Name : string;
  sr_Nickname : string;
  sr_School : string;
  sr_AvatarURL : string;
  sr_AttendanceRate : Q;
  sr_Absences : Z;
  sr_TotalSessions : Z;
  sr_CourseName : string
}.

Record DashboardSessionSummary := {
  ds_SessionID : string;
  ds_SessionNumber : Z;
  ds_Name : string;
  ds_Date : string;
  ds_CourseID : string;
  ds_CourseName : string;
  ds_CheckedInCount : Z;
  ds_TotalStudents : Z;
  ds_Status : string
}.

Record DashboardReport := {
  dr_GeneratedAt : Z;
  dr_TotalStudents : Z;
  dr_TotalCourses : Z;
  dr_AvgAttendanceRate : Q;
  dr_AtRiskCount : Z;
  dr_TopAtRisk : list StudentRisk;
  dr_Students : list StudentAbsence;
  dr_Sessions : list DashboardSessionSummary
}.

Record dashboardCourseResult := {
  dc_CourseID : string;
  dc_CourseName : string;
  dc_Report : option CourseAttendanceReport;
  dc_Err : option string
}.

Record studentAgg := {
  ag_GUID : string;
  ag_Name : string;
  ag_Nickname : string;
  ag_School : string;
  ag_AvatarURL : string;
  ag_Attended : Z;
  ag_Total : Z;
  ag_Courses : list CourseAbsence;
  ag_PerSession : gmap string bool
}.

Definition new_session (courseID courseName : string) (sess : SessionSummary) : DashboardSessionSummary :=
  {| ds_SessionID := ss_SessionID sess; ds_SessionNumber := ss_SessionNumber sess; ds_Name := ss_Name sess; ds_Date := "";
     ds_CourseID := courseID; ds_CourseName := courseName; ds_CheckedInCount := 0; ds_TotalStudents := 0;
     ds_Status := session_status_string (ss_Status sess) |}.

Definition add_session (courseID courseName : string) (m : gmap string DashboardSessionSummary) (sess : SessionSummary)
    : gmap string DashboardSessionSummary :=
  if bool_decide (is_Some (m !! ss_SessionID sess)) then m
  else <[ss_SessionID sess := new_session courseID courseName sess]> m.

Definition count_checkin (d : DashboardSessionSummary) : DashboardSessionSummary :=
  {| ds_SessionID := ds_SessionID d; ds_SessionNumber := ds_SessionNumber d; ds_Name := ds_Name d; ds_Date := ds_Date d;
     ds_CourseID := ds_CourseID d; ds_CourseName := ds_CourseName d; ds_CheckedInCount := ds_CheckedInCount d + 1;
     ds_TotalStudents := ds_TotalStudents d; ds_Status := ds_Status d |}.

Definition count_cell (m : gmap string DashboardSessionSummary) (c : SessionCell) : gmap string DashboardSessionSummary :=
  if sl_CheckedIn c then alter count_checkin (sl_SessionID c) m else m.

Definition new_agg (s : StudentAttendance) : studentAgg :=
  {| ag_GUID := sa_StudentID s; ag_Name := sa_Name s; ag_Nickname := sa_Nickname s; ag_School := sa_School s;
     ag_AvatarURL := sa_AvatarURL s; ag_Attended := 0; ag_Total := 0; ag_Courses := []; ag_PerSession := ∅ |}.

Definition course_absence (courseID courseName : string) (s : StudentAttendance) : CourseAbsence :=
  {| cb_CourseID := courseID; cb_CourseName := courseName; cb_TotalSessions := sa_TotalSessions s;
     cb_AttendedSessions := sa_AttendedSessions s; cb_Rate := sa_AttendanceRate s;
     cb_Absences := sa_TotalSessions s - sa_AttendedSessions s; cb_AtRisk := sa_AtRisk s |}.

Definition add_student (courseID courseName : string) (m : gmap string studentAgg) (s : StudentAttendance) : gmap string studentAgg :=
  let agg := default (new_agg s) (m !! sa_StudentID s) in
  <[sa_StudentID s :=
     {| ag_GUID := ag_GUID agg; ag_Name := ag_Name agg; ag_Nickname := ag_Nickname agg; ag_School := ag_School agg;
        ag_AvatarURL := ag_AvatarURL agg; ag_Attended := ag_Attended agg + sa_AttendedSessions s;
        ag_Total := ag_Total agg + sa_TotalSessions s; ag_Courses := ag_Courses agg ++ [course_absence courseID courseName s];
        ag_PerSession := foldl (λ per c, <[sl_SessionID c := sl_CheckedIn c]> per) (ag_PerSession agg) (sa_PerSession s) |}]> m.

Definition aggregate_course (acc : gmap string studentAgg * gmap string DashboardSessionSummary) (res : dashboardCourseResult)
    : gmap string studentAgg * gmap string DashboardSessionSummary :=
  match dc_Err res, dc_Report res with
  | None, Some report =>
      let sessions := foldl (add_session (dc_CourseID res) (dc_CourseName res)) acc.2 (cr_Sessions report) in
      let sessions := foldl (λ m s, foldl count_cell m (sa_PerSession s)) sessions (cr_Students report) in
      (foldl (add_student (dc_CourseID res) (dc_CourseName res)) acc.1 (cr_Students report), sessions)
  | _, _ => acc
  end.

Definition aggregatePerCourseResults (results : list dashboardCourseResult)
    : gmap string studentAgg * gmap string DashboardSessionSummary * Z :=
  let acc := foldl aggregate_course (∅, ∅) results in (acc.1, acc.2, Z.of_nat (size acc.1)).

Definition session_less : DashboardSessionSummary → DashboardSessionSummary → bool :=
  lex_by str_lt ds_CourseID (λ a b, ds_SessionNumber a <? ds_SessionNumber b).

Definition set_total (n : Z) (d : DashboardSessionSummary) : DashboardSessionSummary :=
  {| ds_SessionID := ds_SessionID d; ds_SessionNumber := ds_SessionNumber d; ds_Name := ds_Name d; ds_Date := ds_Date d;
     ds_CourseID := ds_CourseID d; ds_CourseName := ds_CourseName d; ds_CheckedInCount := ds_CheckedInCount d;
     ds_TotalStudents := n; ds_Status := ds_Status d |}.

Definition buildSessionList (allSessions : gmap string DashboardSessionSummary) (totalStudents : Z) (walk : list string)
    : list DashboardSessionSummary :=
  map (set_total totalStudents) (sort_stable session_less (omap (λ id, allSessions !! id) walk)).

Definition buildStudentIDMapping (profiles : list StudentProfile) : gmap string string :=
  foldl (λ m p, if nonempty (sp_StudentID p) && nonempty (sp_StudentGuid p) then <[sp_StudentGuid p := sp_StudentID p]> m else m)
    ∅ profiles.

Definition computeSessionStatus (sessionStatus : string) (hasData checked : bool) : string :=
  if bool_decide (sessionStatus = "done")
  then if hasData then if checked then "checked_in" else "absent" else "not_started"
  else if bool_decide (sessionStatus = "active")
  then if hasData then if checked then "checked_in" else "present" else "not_started"
  else "not_started".

Definition computeAtRisk (totalSessions absences threshold : Z) : bool :=
  if 0 <? threshold then threshold <=? absences else Z.quot (totalSessions + 4) 5 <=? absences.

Definition session_checkin (per : gmap string bool) (sess : DashboardSessionSummary) : SessionCheckin :=
  {| sk_SessionID := ds_SessionID sess; sk_SessionNumber := ds_SessionNumber sess; sk_SessionName := ds_Name sess;
     sk_SessionDate := ds_Date sess; sk_SessionStatus := ds_Status sess;
     sk_CheckedIn := default false (per !! ds_SessionID sess);
     sk_Status := computeSessionStatus (ds_Status sess) (bool_decide (is_Some (per !! ds_SessionID sess)))
                    (default false (per !! ds_SessionID sess)) |}.

Definition agg_rate (attended total : Z) : Q := if 0 <? total then fdiv (f_of_int attended) (f_of_int total) else 0%Q.

Definition student_absence (sessions : list DashboardSessionSummary) (guidToStudentID : gmap string string) (threshold : Z)
    (agg : studentAgg) : StudentAbsence :=
  {| sb_StudentID := default "" (guidToStudentID !! ag_GUID agg); sb_Name := ag_Name agg; sb_Nickname := ag_Nickname agg;
     sb_School := ag_School agg; sb_AvatarURL := ag_AvatarURL agg; sb_AttendedSessions := ag_Attended agg;
     sb_TotalSessions := ag_Total agg; sb_AttendanceRate := agg_rate (ag_Attended agg) (ag_Total agg);
     sb_AtRisk := computeAtRisk (ag_Total agg) (ag_Total agg - ag_Attended agg) threshold;
     sb_Courses := ag_Courses agg; sb_PerSession := map (session_checkin (ag_PerSession agg)) sessions |}.

(** The key under which a student is listed once. *)
Definition agg_key (agg : studentAgg) : string := if bool_decide (ag_GUID agg = "") then ag_Name agg else ag_GUID agg.

Definition list_student (sessions : list DashboardSessionSummary) (guidToStudentID : gmap string string) (threshold : Z)
    (acc : gset string * list StudentAbsence) (agg : studentAgg) : gset string * list StudentAbsence :=
  if bool_decide (agg_key agg ∈ acc.1) then acc
  else ({[agg_key agg]} ∪ acc.1, acc.2 ++ [student_absence sessions guidToStudentID threshold agg]).

Definition buildStudentAbsences (studentMap : gmap string studentAgg) (sessions : list DashboardSessionSummary)
    (guidToStudentID : gmap string string) (threshold : Z) (walk : list string) : list StudentAbsence :=
  sort_stable (risk_less sb_AtRisk sb_AttendanceRate sb_Name)
    (foldl (list_student sessions guidToStudentID threshold) (∅, []) (omap (λ id, studentMap !! id) walk)).2.

Definition student_risk (st : StudentAbsence) : StudentRisk :=
  {| sr_StudentID := sb_StudentID st; sr_Name := sb_Name st; sr_Nickname := sb_Nickname st; sr_School := sb_School st;
     sr_AvatarURL := sb_AvatarURL st; sr_AttendanceRate := sb_AttendanceRate st;
     sr_Absences := sb_TotalSessions st - sb_AttendedSessions st; sr_TotalSessions := sb_TotalSessions st;
     sr_CourseName := match sb_Courses st with c :: _ => cb_CourseName c | [] => "" end |}.

Fixpoint extractTopAtRisk (students : list StudentAbsence) (limit : nat) : list StudentRisk :=
  match limit, students with
  | S limit', st :: students' => if sb_AtRisk st then student_risk st :: extractTopAtRisk students' limit' else []
  | _, _ => []
  end.

Definition FilterStudentsByWCodes (students : list StudentAbsence) (codes : list string) : list StudentAbsence :=
  let codeSet : gset string := list_to_set (base.filter (λ c, c ≠ "") (map TrimSpace codes)) in
  if bool_decide (codeSet = ∅) then students
  else base.filter (λ s, sb_StudentID s ∈ codeSet) students.

(** [walkSessions] and [walkStudents] are the orders in which the two maps are visited. *)
Definition aggregateDashboard (results : list dashboardCourseResult) (courses : Z) (threshold : Z) (wCodes : list string)
    (guidToStudentID : gmap string string) (now : Z) (walkSessions walkStudents : list string) : option DashboardReport :=
  let '(studentMap, allSessions, totalStudents) := aggregatePerCourseResults results in
  if negb (walks walkSessions allSessions && walks walkStudents studentMap) then None
  else
    let sessions := buildSessionList allSessions totalStudents walkSessions in
    let students := buildStudentAbsences studentMap sessions guidToStudentID threshold walkStudents in
    let students := if bool_decide (wCodes = []) then students else FilterStudentsByWCodes students wCodes in
    let attended := foldr Z.add 0 (map sb_AttendedSessions students) in
    let total := foldr Z.add 0 (map sb_TotalSessions students) in
    Some {| dr_GeneratedAt := now; dr_TotalStudents := totalStudents; dr_TotalCourses := courses;
            dr_AvgAttendanceRate := agg_rate attended total;
            dr_AtRiskCount := Z.of_nat (length (base.filter (λ s, sb_AtRisk s = true) students));
            dr_TopAtRisk := extractTopAtRisk students 5; dr_Students := students; dr_Sessions := sessions |}.
