(* ===== verification/ReportSpec.v ===== *)
(** Theorems about the attendance report and the dashboard. *)

From stdpp Require Import base list list_numbers numbers strings gmap sorting relations.
From Stdlib Require Import ZArith QArith Lia.
From S2P Require Import Prelude Float64 Domain Upstream Jobs Report.

Local Open Scope Z_scope.
Local Open Scope stdpp_scope.
Local Open Scope go_scope.

(** * The order of the students *)

Lemma Qeq_bool_sym a b : Qeq_bool a b = Qeq_bool b a.
Proof.
  destruct (Qeq_bool a b) eqn:E, (Qeq_bool b a) eqn:F; try done.
  - apply Qeq_bool_iff in E. symmetry in E. apply Qeq_bool_iff in E. congruence.
  - apply Qeq_bool_iff in F. symmetry in F. apply Qeq_bool_iff in F. congruence.
Qed.

Lemma flt_true a b : flt a b = true ↔ (a < b)%Q.
Proof.
  unfold flt. rewrite negb_true_iff. destruct (Qle_bool b a) eqn:E.
  - apply Qle_bool_iff in E. split; [done|]. intros H. exfalso. by apply (Qlt_not_le _ _ H).
  - split; [|done]. intros _. apply Qnot_le_lt. intros H%Qle_bool_iff. congruence.
Qed.

Lemma flt_false a b : flt a b = false ↔ (b <= a)%Q.
Proof. unfold flt. by rewrite negb_false_iff, Qle_bool_iff. Qed.

Section risk.
Context {A : Type} (risk : A → bool) (rate : A → Q) (name : A → string).

#[export] Instance risk_less_swo : StrictWeakOrder (risk_less risk rate name).
Proof.
  pose proof Qeq_bool_sym as Hq. pose proof flt_true as Hlt. pose proof flt_false as Hge.
  split; unfold not_after, risk_less.
  - intros x y. rewrite (Hq (rate y)). destruct (risk x), (risk y); cbn; try done;
      (destruct (Qeq_bool (rate x) (rate y)) eqn:E; cbn;
       [intros H; destruct (str_lt (name y) (name x)) eqn:F; [|done];
        pose proof (st_trans _ _ _ H F) as G; by rewrite st_irrefl in G
       |rewrite Hlt, Hge; apply Qlt_le_weak]).
  - assert (Hs : ∀ a b c : string, str_lt b a = false → str_lt c b = false → str_lt c a = false).
    { intros a b c H1 H2. destruct (str_lt c a) eqn:E; [|done]. destruct (str_lt a b) eqn:F.
      - rewrite (st_trans _ _ _ E F) in H2. done.
      - rewrite (st_total _ _ F H1) in E. congruence. }
    intros x y z. rewrite (Hq (rate y) (rate x)), (Hq (rate z) (rate y)), (Hq (rate z) (rate x)).
    assert (Ht : ∀ b, (if negb (Qeq_bool (rate x) (rate y)) then flt (rate y) (rate x) else str_lt (name y) (name x)) = false →
      (if negb (Qeq_bool (rate y) (rate z)) then flt (rate z) (rate y) else str_lt (name z) (name y)) = false →
      (if negb (Qeq_bool (rate x) (rate z)) then flt (rate z) (rate x) else str_lt (name z) (name x)) = b → b = false).
    { intros b. destruct (Qeq_bool (rate x) (rate y)) eqn:E1, (Qeq_bool (rate y) (rate z)) eqn:E2; cbn;
        rewrite ?Hge; intros H1 H2; (destruct (Qeq_bool (rate x) (rate z)) eqn:E3; cbn; [|intros <-; apply Hge]).
      all: rewrite ?Qeq_bool_iff in *.
      - intros <-. by apply (Hs _ (name y)).
      - exfalso. apply Qeq_bool_neq in E3. apply E3. by rewrite E1.
      - exfalso. apply Qeq_bool_neq in E2. apply E2. by rewrite <- E1.
      - by rewrite E1.
      - exfalso. apply Qeq_bool_neq in E1. apply E1. by rewrite E2.
      - by rewrite <- E2.
      - exfalso. apply Qeq_bool_neq in E1. apply E1. apply Qle_antisym; [done|]. by rewrite E3.
      - by eapply Qle_trans. }
    destruct (risk x), (risk y), (risk z); cbn; try done; eauto.
Qed.
End risk.

(** * Counting the rows of the sessions *)

Definition session_rows (r : SessionResult) : list StudentCheckin :=
  match r with ResultOk detail => sd_Students detail | _ => [] end.

(** The rows of all sessions, each with its session. *)
Definition all_checkins (sessions : list SessionSummary) (results : list SessionResult) : list (SessionSummary * StudentCheckin) :=
  concat (map (λ x, map (pair x.1) (session_rows x.2)) (zip sessions results)).

Definition of_student (id : string) (rows : list (SessionSummary * StudentCheckin)) : list (SessionSummary * StudentCheckin) :=
  base.filter (λ x, sc_StudentID x.2 = id) rows.

Definition done_count (rows : list (SessionSummary * StudentCheckin)) : Z :=
  Z.of_nat (length (base.filter (λ x, is_done x.1 = true) rows)).
Definition attended_count (rows : list (SessionSummary * StudentCheckin)) : Z :=
  Z.of_nat (length (base.filter (λ x, is_done x.1 = true ∧ sc_CheckedIn x.2 = true) rows)).

Definition accum_of (rows : list (SessionSummary * StudentCheckin)) : option StudentAccum :=
  match rows with
  | [] => None
  | x :: _ => Some {| ac_Attended := attended_count rows; ac_Total := done_count rows; ac_Detail := x.2 |}
  end.

Lemma accum_flat sessions results :
  accum_results sessions results = foldl (λ m x, accum_row (is_done x.1) m x.2) ∅ (all_checkins sessions results).
Proof.
  unfold accum_results, all_checkins. generalize (∅ : gmap string StudentAccum).
  induction (zip sessions results) as [|[sess r] l IH]; intros m; [done|]. cbn [foldl map concat].
  rewrite foldl_app, IH. f_equal. unfold accum_session. cbn [fst snd]. destruct r; cbn [session_rows map foldl]; try done.
  generalize m. induction (sd_Students detail) as [|s ss IHs]; intros m'; [done|]. cbn. apply IHs.
Qed.

Lemma filter_snoc {A} (P : A → Prop) `{!∀ x, Decision (P x)} l x :
  base.filter P (l ++ [x]) = base.filter P l ++ (if decide (P x) then [x] else []).
Proof. by rewrite filter_app. Qed.

Lemma accum_lookup rows id :
  foldl (λ m x, accum_row (is_done x.1) m x.2) ∅ rows !! id = accum_of (of_student id rows).
Proof.
  induction rows as [|[sess s] rows IH] using rev_ind; [done|]. rewrite foldl_snoc. unfold of_student in *.
  rewrite filter_snoc. cbn [fst snd]. unfold accum_row at 1. case_decide as Hid.
  - rewrite <- Hid in *. rewrite lookup_insert_eq, IH. set (l := base.filter _ rows).
    unfold done_count, attended_count, accum_of.
    destruct l as [|x l]; cbn [app default].
    + cbn [option_map]. unfold done_count, attended_count. rewrite !filter_cons, !filter_nil. cbn [fst snd].
      destruct (is_done sess), (sc_CheckedIn s); cbn; done.
    + unfold done_count, attended_count. rewrite app_comm_cons, !filter_snoc. cbn [fst snd ac_Total ac_Attended ac_Detail default].
      rewrite !length_app. destruct (is_done sess), (sc_CheckedIn s); repeat case_decide; cbn; f_equal; f_equal; lia || naive_solver.
  - by rewrite lookup_insert_ne, app_nil_r.
Qed.

(** * The cells *)

(** The rows of the sessions with the index of their session. *)
Definition indexed_rows (k : nat) (results : list SessionResult) : list (nat * StudentCheckin) :=
  concat (imap (λ j r, map (pair (k + j)%nat) (session_rows r)) results).

Lemma fill_flat index students results k :
  foldl (fill_session index) students (imap (λ i r, ((k + i)%nat, r)) results) =
  foldl (λ sts x, fill_row index x.1 sts x.2) students (indexed_rows k results).
Proof.
  revert students k. induction results as [|r results IH]; intros students k; [done|].
  unfold indexed_rows. cbn [imap foldl concat]. rewrite foldl_app. rewrite Nat.add_0_r.
  assert (Hr : fill_session index students (k, r) =
    foldl (λ sts x, fill_row index x.1 sts x.2) students (map (pair k) (session_rows r))).
  { unfold fill_session. cbn [snd fst]. destruct r; cbn [session_rows map foldl]; try done.
    generalize students. induction (sd_Students detail) as [|s ss IHs]; intros sts; [done|]. cbn. apply IHs. }
  rewrite Hr. clear Hr.
  assert (He : ∀ {B} (f : nat → SessionResult → B), imap (f ∘ S) results = imap (λ j, f (S j)) results) by done.
  rewrite <- (imap_ext (λ i r, ((S k + i)%nat, r)) ((λ i r, ((k + i)%nat, r)) ∘ S)), IH by (intros; cbn; do 2 f_equal; lia).
  f_equal. unfold indexed_rows. f_equal. apply imap_ext. intros i x _. cbn. do 2 f_equal. lia.
Qed.

(** What the rows of a student do to its cells. *)
Definition fill_own (id : string) (cells : list SessionCell) (x : nat * StudentCheckin) : list SessionCell :=
  if decide (sc_StudentID x.2 = id) then alter (fill_cell (sc_CheckedIn x.2)) x.1 cells else cells.

(** [index] finds the one student with an ID. *)
Definition indexes (index : gmap string nat) (ids : list string) : Prop :=
  ∀ i id, ids !! i = Some id ↔ index !! id = Some i.

Lemma fill_row_spec index j students s : indexes index (map sa_StudentID students) →
  fill_row index j students s =
  map (λ st, set_cells (fill_own (sa_StudentID st) (sa_PerSession st) (j, s)) st) students.
Proof.
  intros Hi. unfold fill_row. apply list_eq. intros i. change (map ?f students) with (f <$> students).
  rewrite list_lookup_fmap. specialize (Hi i). change (map sa_StudentID students) with (sa_StudentID <$> students) in Hi.
  rewrite list_lookup_fmap in Hi. unfold fill_own. cbn [fst snd].
  assert (Hsame : ∀ st, set_cells (sa_PerSession st) st = st) by (by intros []).
  destruct (index !! sc_StudentID s) as [i'|] eqn:E.
  - destruct (decide (i' = i)) as [->|Hne].
    + rewrite list_lookup_alter_eq. apply Hi in E. destruct (students !! i) as [st|]; [|done]. cbn in *.
      injection E as E. by rewrite decide_True.
    + rewrite list_lookup_alter_ne by done. destruct (students !! i) as [st|]; [|done]. cbn. rewrite decide_False.
      * by rewrite Hsame.
      * intros Hx. apply Hne. cbn in Hi. destruct (Hi (sa_StudentID st)) as [H _]. specialize (H eq_refl). congruence.
  - destruct (students !! i) as [st|]; [|done]. cbn. rewrite decide_False; [by rewrite Hsame|].
    intros Hx. cbn in Hi. destruct (Hi (sa_StudentID st)) as [H _]. specialize (H eq_refl). congruence.
Qed.

Lemma fill_rows_spec index rows students : indexes index (map sa_StudentID students) →
  foldl (λ sts x, fill_row index x.1 sts x.2) students rows =
  map (λ st, set_cells (foldl (fill_own (sa_StudentID st)) (sa_PerSession st) rows) st) students.
Proof.
  revert students. induction rows as [|[j s] rows IH]; intros students Hi; cbn [foldl fst snd].
  - symmetry. rewrite <- (map_id students) at 2. apply map_ext. by intros [].
  - rewrite (fill_row_spec _ _ _ _ Hi), IH by (by rewrite map_map). rewrite map_map. apply map_ext. by intros [].
Qed.

Lemma fill_own_lookup id rows (cells : list SessionCell) j :
  foldl (fill_own id) cells rows !! j =
  match last (base.filter (λ x, sc_StudentID x.2 = id ∧ x.1 = j) rows) with
  | Some x => fill_cell (sc_CheckedIn x.2) <$> cells !! j
  | None => cells !! j
  end.
Proof.
  induction rows as [|[k s] rows IH] using rev_ind; [done|]. rewrite foldl_snoc, filter_snoc. unfold fill_own at 1. cbn [fst snd].
  destruct (decide (sc_StudentID s = id)) as [Hid|Hid].
  - destruct (decide (k = j)) as [->|Hk].
    + rewrite decide_True by done. rewrite last_snoc, list_lookup_alter_eq, IH. destruct (last _); cbn; [|done].
      by destruct (cells !! j).
    + rewrite decide_False by naive_solver. by rewrite app_nil_r, list_lookup_alter_ne, IH.
  - rewrite decide_False by naive_solver. by rewrite app_nil_r, IH.
Qed.

(** The rows of a student in one session. *)
Lemma indexed_rows_of id k results j :
  base.filter (λ x, sc_StudentID x.2 = id ∧ x.1 = (k + j)%nat) (indexed_rows k results) =
  match results !! j with
  | Some r => map (pair (k + j)%nat) (base.filter (λ s, sc_StudentID s = id) (session_rows r))
  | None => []
  end.
Proof.
  assert (Hown : ∀ n m l, base.filter (λ x : nat * StudentCheckin, sc_StudentID x.2 = id ∧ x.1 = m) (map (pair n) l) =
    if decide (n = m) then map (pair n) (base.filter (λ s, sc_StudentID s = id) l) else []).
  { intros n m l. induction l as [|s l IH]; cbn [map]; [by case_decide|]. rewrite !filter_cons. cbn [fst snd].
    rewrite IH. repeat case_decide; naive_solver. }
  revert k j. induction results as [|r results IH]; intros k j; [done|].
  unfold indexed_rows. cbn [imap concat]. rewrite filter_app, (Nat.add_0_r k), Hown.
  assert (Hrest : concat (imap ((λ j r, map (pair (k + j)%nat) (session_rows r)) ∘ S) results) = indexed_rows (S k) results).
  { unfold indexed_rows. f_equal. apply imap_ext. intros i x _. cbn. do 2 f_equal. lia. }
  rewrite Hrest. destruct j as [|j]; cbn [lookup list_lookup].
  - rewrite decide_True by lia. rewrite Nat.add_0_r.
    replace (base.filter _ (indexed_rows (S k) results)) with ([] : list (nat * StudentCheckin)); [by rewrite app_nil_r|].
    symmetry. apply filter_none, Forall_forall. intros [n s] Hin [_ Hn]. cbn in Hn. subst n. unfold indexed_rows in Hin.
    apply list_elem_of_In, in_concat in Hin as (l & Hl & Hin). apply list_elem_of_In, elem_of_lookup_imap in Hl as (i & x & -> & _).
    apply in_map_iff in Hin as (? & [= ?] & _). lia.
  - rewrite decide_False by lia. cbn [app]. replace (k + S j)%nat with (S k + j)%nat by lia. apply IH.
Qed.

(** * The students of a report *)

(** The cell of a session: what its last row for the student says. *)
Definition report_cell (id : string) (x : SessionSummary * SessionResult) : SessionCell :=
  match last (base.filter (λ s, sc_StudentID s = id) (session_rows x.2)) with
  | Some s => fill_cell (sc_CheckedIn s) (error_cell x.1)
  | None => error_cell x.1
  end.

(** A student's line: the counts over the completed sessions that were fetched, the person's
    data from the first row, one cell per session; nothing without a completed session. *)
Definition student_spec (threshold : Z) (sessions : list SessionSummary) (results : list SessionResult) (id : string)
    : option StudentAttendance :=
  let rows := of_student id (all_checkins sessions results) in
  match rows with
  | [] => None
  | x :: _ =>
      if done_count rows =? 0 then None
      else Some {| sa_StudentID := id; sa_Name := sc_Name x.2; sa_Nickname := sc_Nickname x.2; sa_AvatarURL := sc_AvatarURL x.2;
                   sa_School := sc_School x.2; sa_AttendedSessions := attended_count rows; sa_TotalSessions := done_count rows;
                   sa_AttendanceRate := fdiv (f_of_int (attended_count rows)) (f_of_int (done_count rows));
                   sa_AtRisk := threshold <=? done_count rows - attended_count rows;
                   sa_PerSession := map (report_cell id) (zip sessions results) |}
  end.

Lemma of_student_head id rows x l : of_student id rows = x :: l → sc_StudentID x.2 = id.
Proof.
  intros E. assert (Hx : x ∈ of_student id rows) by (rewrite E; left). by apply list_elem_of_filter in Hx as [? _].
Qed.

Lemma student_rows_ids threshold sessions results walk :
  map sa_StudentID (student_rows threshold sessions (accum_results sessions results) walk) =
  base.filter (λ id, is_Some (student_spec threshold sessions results id)) walk.
Proof.
  unfold student_rows. induction walk as [|id walk IH]; [done|]. rewrite filter_cons, <- IH. cbn [omap list_omap].
  rewrite accum_flat, accum_lookup. unfold student_spec. destruct (of_student _ _) as [|x l] eqn:E; cbn.
  { rewrite decide_False; [done|]. by intros []. }
  destruct (_ =? 0).
  - rewrite decide_False; [done|]. by intros [].
  - rewrite decide_True by eauto. cbn. by rewrite (of_student_head _ _ _ _ E).
Qed.

Lemma student_index_indexes students : NoDup (map sa_StudentID students) → indexes (student_index students) (map sa_StudentID students).
Proof.
  induction students as [|s students IH] using rev_ind; intros Hn i id; unfold student_index.
  - cbn. rewrite lookup_empty. by split.
  - rewrite map_app in *. cbn [map] in *. apply NoDup_app in Hn as (Hn & Hd & _). specialize (IH Hn).
    rewrite imap_app, foldl_app. cbn [imap foldl fst snd]. fold (student_index students). rewrite Nat.add_0_r.
    destruct (decide (id = sa_StudentID s)) as [->|Hne].
    + rewrite lookup_insert_eq. split.
      * intros H. destruct (decide (i < length students)%nat).
        -- rewrite lookup_app_l in H by (by rewrite length_map). exfalso. apply (Hd (sa_StudentID s)); [|left].
           by eapply list_elem_of_lookup_2.
        -- apply lookup_lt_Some in H. rewrite length_app, length_map in H. cbn in H. f_equal. lia.
      * intros [= <-]. rewrite lookup_app_r by (by rewrite length_map). by rewrite length_map, Nat.sub_diag.
    + rewrite lookup_insert_ne by done. rewrite <- (IH i id). split.
      * intros H. destruct (decide (i < length (map sa_StudentID students))%nat); [by rewrite lookup_app_l in H|].
        rewrite lookup_app_r in H by lia. destruct (i - _)%nat; [|done]. by injection H as <-.
      * intros H. by apply lookup_app_l_Some.
Qed.

Lemma own_cells id sessions results : length results = length sessions →
  foldl (fill_own id) (map error_cell sessions) (indexed_rows 0 results) = map (report_cell id) (zip sessions results).
Proof.
  intros Hl. apply list_eq. intros j. rewrite fill_own_lookup.
  pose proof (indexed_rows_of id 0 results j) as Hr. cbn [Nat.add] in Hr. rewrite Hr.
  change (map (report_cell id) ?l) with (report_cell id <$> l). change (map error_cell ?l) with (error_cell <$> l).
  rewrite !list_lookup_fmap, lookup_zip_with.
  destruct (sessions !! j) as [sess|] eqn:Es.
  - destruct (lookup_lt_is_Some_2 results j) as [r Er]; [rewrite Hl; by eapply lookup_lt_Some|]. rewrite Er. cbn.
    unfold report_cell. cbn [fst snd]. change (map ?f ?l) with (f <$> l). rewrite fmap_last. by destruct (last _).
  - cbn. by destruct (last _).
Qed.

Lemma report_students_spec threshold sessions results walk students : length results = length sessions →
  report_students threshold sessions results walk = Some students →
  students = sort_stable (risk_less sa_AtRisk sa_AttendanceRate sa_Name) (omap (student_spec threshold sessions results) walk) ∧
  walks walk (accum_results sessions results) = true.
Proof.
  intros Hl. unfold report_students. destruct (walks _ _) eqn:Hw; [|done]. cbn [negb]. intros [= <-]. split; [|done]. f_equal.
  apply bool_decide_eq_true in Hw as [Hn _].
  rewrite (fill_flat _ _ _ 0), fill_rows_spec.
  2:{ apply student_index_indexes. rewrite student_rows_ids. by apply NoDup_filter. }
  clear Hn. unfold student_rows. rewrite accum_flat. induction walk as [|id walk IH]; [done|]. cbn [omap list_omap].
  rewrite accum_lookup. unfold student_spec at 1. destruct (of_student _ _) as [|x l] eqn:E; cbn [accum_of]; [exact IH|].
  cbn [mbind option_bind ac_Total]. destruct (_ =? 0); [exact IH|]. cbn [map]. f_equal; [|exact IH].
  unfold set_cells, student_row. cbn. by rewrite (of_student_head _ _ _ _ E), (own_cells _ _ _ Hl).
Qed.

Lemma accum_dom sessions results id :
  id ∈ dom (accum_results sessions results) ↔ of_student id (all_checkins sessions results) ≠ [].
Proof.
  rewrite elem_of_dom, accum_flat, accum_lookup. destruct (of_student _ _); cbn; [|by eauto]. split; [by intros []|done].
Qed.

Lemma student_spec_id threshold sessions results id st :
  student_spec threshold sessions results id = Some st → sa_StudentID st = id.
Proof. unfold student_spec. destruct (of_student _ _); [done|]. destruct (_ =? 0); [done|]. by intros [= <-]. Qed.

Lemma report_students_elem threshold sessions results walk students id st : length results = length sessions →
  report_students threshold sessions results walk = Some students →
  (st ∈ students ∧ sa_StudentID st = id) ↔ student_spec threshold sessions results id = Some st.
Proof.
  intros Hl Hs. destruct (report_students_spec _ _ _ _ _ Hl Hs) as [-> Hw]. apply bool_decide_eq_true in Hw as [_ Hd].
  rewrite sort_stable_perm, list_elem_of_omap.
  pose proof (student_spec_id threshold sessions results) as Hid.
  split.
  - intros [(id' & _ & H) <-]. by rewrite (Hid _ _ H).
  - intros H. split; [|by apply Hid]. exists id. split; [|done].
    assert (He : id ∈ dom (accum_results sessions results)).
    { apply accum_dom. intros E. unfold student_spec in H. by rewrite E in H. }
    rewrite <- Hd in He. by apply elem_of_list_to_set in He.
Qed.

Lemma report_students_ids threshold sessions results walk students : length results = length sessions →
  report_students threshold sessions results walk = Some students → NoDup (map sa_StudentID students).
Proof.
  intros Hl Hs. destruct (report_students_spec _ _ _ _ _ Hl Hs) as [-> Hw]. apply bool_decide_eq_true in Hw as [Hn _].
  change (map sa_StudentID ?l) with (sa_StudentID <$> l). rewrite sort_stable_perm. clear Hs.
  induction walk as [|id walk IH]; [constructor|]. apply NoDup_cons in Hn as [Hni Hn]. cbn [omap list_omap].
  destruct (student_spec _ _ _ id) as [st|] eqn:E; [|by apply IH]. cbn. apply NoDup_cons. split; [|by apply IH].
  pose proof (student_spec_id threshold sessions results) as Hid.
  rewrite list_elem_of_fmap. intros (st' & Hst & (id' & Hin & E')%list_elem_of_omap).
  rewrite (Hid _ _ E), (Hid _ _ E') in Hst. by subst id'.
Qed.

(** * What the sessions' results are *)

(** The source answered a job with [d]. *)
Definition answered (t : FetchTrace) (d : SessionDetail) : Prop :=
  ft_First t = Ok (Some d) ∨ (∃ e, ft_First t = Err e ∧ isRateLimited e = true ∧ ft_Retry t = Ok (Some d)).

Definition job_sound (t : FetchTrace) (r : SessionResult) : Prop :=
  match r with
  | ResultNone => False
  | ResultError _ => ∀ d, ft_First t ≠ Ok (Some d)
  | _ => ∃ d, answered t d ∧ session_rows r = sd_Students d
  end.

Lemma report_job_sound sess t used : job_sound t (report_job sess t used).2.
Proof.
  assert (Hd : ∀ d, answered t d → job_sound t (job_detail sess (Some d))).
  { intros d Ha. cbn. destruct (sd_Students d) as [|s l] eqn:E; cbn; exists d; [by rewrite E|done]. }
  unfold report_job. destruct (ft_First t) as [[d|]|e] eqn:Ef; cbn [snd].
  - apply Hd. by left.
  - cbn. by rewrite Ef.
  - assert (Hn : ∀ reason, job_sound t (ResultError reason)) by (intros reason d; by rewrite Ef).
    destruct (ft_Err1 t); [apply Hn|]. destruct (isRateLimited e) eqn:Er; cbn [negb]; [|apply Hn].
    destruct (ft_Err2 t); [apply Hn|]. destruct (_ && _); [|by destruct (ft_Done t); apply Hn].
    cbn [snd]. destruct (ft_DoneFirst t); [apply Hn|]. destruct (ft_Retry t) as [[d|]|e'] eqn:Et; [|apply Hn..].
    apply Hd. right. by exists e.
Qed.

Lemma report_job_budget sess t used : (used ≤ maxReportRateLimitRetries)%nat →
  ((report_job sess t used).1 ≤ maxReportRateLimitRetries)%nat.
Proof.
  intros H. unfold report_job. destruct (ft_First t); [done|]. destruct (ft_Err1 t); [done|]. destruct (negb _); [done|].
  destruct (ft_Err2 t); [done|]. destruct (Nat.ltb_spec used maxReportRateLimitRetries); cbn.
  - destruct (negb _); [done|by destruct (ft_Done t)].
  - by destruct (ft_Done t).
Qed.

Lemma report_results_spec sessions trace order :
  ((report_results sessions trace order).1 ≤ maxReportRateLimitRetries)%nat ∧
  length (report_results sessions trace order).2 = length sessions ∧
  ∀ j sess, sessions !! j = Some sess → ∃ r, (report_results sessions trace order).2 !! j = Some r ∧
    if decide (j ∈ order) then job_sound (trace j) r else r = ResultNone.
Proof.
  unfold report_results. induction order as [|k order (IHu & IHl & IHr)] using rev_ind.
  - cbn. split_and!; [lia|by rewrite length_map|]. intros j sess Hj. exists ResultNone.
    change (map ?f ?l) with (f <$> l). by rewrite list_lookup_fmap, Hj.
  - rewrite foldl_snoc. set (acc := foldl _ _ order) in *. unfold run_report_job.
    destruct (sessions !! k) as [sess0|] eqn:Ek.
    + pose proof (report_job_budget sess0 (trace k) acc.1 IHu) as Hb. pose proof (report_job_sound sess0 (trace k) acc.1) as Hs.
      destruct (report_job _ _ _) as [used r]. cbn [fst snd] in *. split_and!; [done|by rewrite length_insert|].
      intros j sess Hj. destruct (decide (j = k)) as [->|Hne].
      * exists r. rewrite list_lookup_insert_eq by (rewrite IHl; by eapply lookup_lt_Some).
        rewrite decide_True by set_solver. done.
      * destruct (IHr j sess Hj) as (r' & Hr & Hd). exists r'. rewrite list_lookup_insert_ne by done. split; [done|].
        revert Hd. do 2 case_decide; set_solver.
    + split_and!; [done|done|]. intros j sess Hj. destruct (IHr j sess Hj) as (r' & Hr & Hd). exists r'. split; [done|].
      assert (j ≠ k) by congruence. revert Hd. do 2 case_decide; set_solver.
Qed.

Lemma unique_steps sessions : let u := foldl unique_step (∅, []) sessions in
  u.1 = list_to_set (map ss_SessionID sessions) ∧ NoDup (map ss_SessionID u.2) ∧
  ∀ id, id ∈ map ss_SessionID u.2 ↔ id ∈ map ss_SessionID sessions.
Proof.
  cbv zeta. induction sessions as [|s sessions (IHs & IHn & IHe)] using rev_ind; [split_and!; [done|constructor|done]|].
  rewrite foldl_snoc. set (u := foldl _ _ sessions) in *. unfold unique_step. rewrite map_app, list_to_set_app_L, IHs. cbn [map].
  assert (Hin : ss_SessionID s ∈ (list_to_set (map ss_SessionID sessions) : gset string) ↔ ss_SessionID s ∈ map ss_SessionID sessions)
    by apply elem_of_list_to_set.
  case_bool_decide as Hx; cbn [fst snd].
  - split_and!; [set_solver|done|]. intros id. rewrite IHe. set_solver.
  - split_and!; [set_solver| |].
    + rewrite map_app. cbn [map]. apply NoDup_app. split_and!; [done| |apply NoDup_singleton]. set_solver.
    + intros id. rewrite map_app. cbn [map]. set_solver.
Qed.

Lemma final_results_spec env sessions s concurrency canceled :
  rtc (jobs_step (length sessions)) (jobs_start (length sessions) concurrency canceled) s → jobs_over s = true →
  rv_Order env ≡ₚ jb_Started s → rv_JobErr env = jb_Canceled s →
  length (final_results env sessions) = length sessions ∧
  ∀ j sess, sessions !! j = Some sess → ∃ r, final_results env sessions !! j = Some r ∧
    match r with ResultNone => False | ResultError _ => True | _ => ∃ d, answered (rv_Trace env j) d ∧ session_rows r = sd_Students d end.
Proof.
  intros Hr Ho Hp Hc. pose proof (jobs_reachable_inv _ _ _ _ Hr) as Hi.
  destruct (report_results_spec sessions (rv_Trace env) (rv_Order env)) as (_ & Hl & Hres). unfold final_results.
  split; [by destruct (rv_JobErr env); rewrite ?length_map|].
  intros j sess Hj. destruct (Hres j sess Hj) as (r & Er & Hd). destruct (rv_JobErr env) eqn:Ec.
  - exists (cancel_rest r). change (map ?f ?l) with (f <$> l). rewrite list_lookup_fmap, Er. split; [done|].
    case_decide; [|by subst r]. by destruct r.
  - exists r. split; [done|]. rewrite decide_True in Hd; [by destruct r|].
    rewrite Hp, (jobs_complete _ _ s Hi Ho) by done. apply elem_of_seq. apply lookup_lt_Some in Hj. lia.
Qed.

Lemma report_errors sessions results sess j r : sessions !! j = Some sess → results !! j = Some r →
  (∃ reason, r = ResultError reason) → ∃ e, e ∈ omap (λ x, report_error x.1 x.2) (zip sessions results) ∧ re_SessionID e = ss_SessionID sess.
Proof.
  intros Hs Hr [reason ->]. eexists. rewrite list_elem_of_omap. split; [exists (sess, ResultError reason); split; [|reflexivity]|done].
  apply list_elem_of_lookup. exists j. by rewrite lookup_zip_with, Hs, Hr.
Qed.

(** C34: the attendance report.  However its jobs are scheduled and whenever the request is
    cancelled, the report lists every session of the course once; each of them is accounted
    for, by the roster with which the source answered or by an error in the report; at most
    four fetches are retried.  Its students are exactly those with a row in a completed
    session that was fetched, each once, with the counts over these rows, the rate as their
    float64 quotient, the risk as the absences against the threshold, and a cell per session;
    they stand at-risk first, then by rate, then by name. *)
Theorem course_report env course threshold rep s concurrency canceled :
  let sessions := uniqueSessions (cd_Sessions course) in
  let results := final_results env sessions in
  cd_Sessions course ≠ [] →
  rtc (jobs_step (length sessions)) (jobs_start (length sessions) concurrency canceled) s → jobs_over s = true →
  rv_Order env ≡ₚ jb_Started s → rv_JobErr env = jb_Canceled s →
  ComputeCourseAttendanceReport env true (Some course) threshold = Some rep →
  cr_Sessions rep = sessions ∧ NoDup (map ss_SessionID sessions) ∧
  (∀ id, id ∈ map ss_SessionID sessions ↔ id ∈ map ss_SessionID (cd_Sessions course)) ∧
  (∀ j sess, sessions !! j = Some sess → ∃ r, results !! j = Some r ∧
     ((∃ d, answered (rv_Trace env j) d ∧ session_rows r = sd_Students d) ∨
      (session_rows r = [] ∧ ∃ e, e ∈ cr_Errors rep ∧ re_SessionID e = ss_SessionID sess))) ∧
  ((report_results sessions (rv_Trace env) (rv_Order env)).1 ≤ 4)%nat ∧
  (∀ id st, (st ∈ cr_Students rep ∧ sa_StudentID st = id) ↔ student_spec (cr_Threshold rep) sessions results id = Some st) ∧
  NoDup (map sa_StudentID (cr_Students rep)) ∧
  StronglySorted (not_after (risk_less sa_AtRisk sa_AttendanceRate sa_Name)) (cr_Students rep).
Proof.
  intros sessions results Hne Hr Ho Hp Hc. unfold ComputeCourseAttendanceReport. cbn [negb].
  rewrite bool_decide_false by done. fold sessions. fold results.
  destruct (report_students _ _ _ _) as [students|] eqn:Es; [|done]. cbn. intros [= <-]. cbn.
  destruct (final_results_spec env sessions s concurrency canceled Hr Ho Hp Hc) as [Hl Hres]. fold results in Hl, Hres.
  destruct (unique_steps (cd_Sessions course)) as (_ & Hn & He).
  split_and!; [done|exact Hn|exact He| | | | |].
  - intros j sess Hj. destruct (Hres j sess Hj) as (r & Er & Hd). exists r. split; [done|].
    destruct r as [|reason| |d]; [done| |by left|by left]. right. split; [done|]. eapply report_errors; eauto.
  - apply report_results_spec.
  - intros id st. by apply (report_students_elem _ _ _ (rv_Walk env)).
  - by eapply report_students_ids.
  - destruct (report_students_spec _ _ _ _ _ Hl Es) as [-> _]. apply sort_stable_sorted, _.
Qed.

(** The retry waits at least half a second and less than one. *)
Lemma report_backoff_window id : 500 * Millisecond ≤ reportRateLimitBackoff id 0 < 1000 * Millisecond.
Proof.
  unfold reportRateLimitBackoff. change (Z.quot reportRetryJitter Millisecond) with 500.
  pose proof (Z.mod_pos_bound (fnv32a id) 500 ltac:(lia)) as Hb. set (k := fnv32a id mod 500) in *.
  change (Z.shiftl reportRetryBase (Z.min (if 0 <? 0 then 0 else 0) 3)) with (500 * Millisecond).
  change (if reportRetryMax <? 500 * Millisecond then reportRetryMax else 500 * Millisecond) with (500 * Millisecond).
  unfold reportRetryMax, Millisecond, Second, Millisecond in *. destruct (Z.ltb_spec (4 * 1000000000) (500 * 1000000 + k * 1000000)); lia.
Qed.
