(* ===== verification/DashboardSpec.v ===== *)
(** Theorems about the absence dashboard. *)

From stdpp Require Import base list list_numbers numbers strings gmap sorting.
From Stdlib Require Import ZArith QArith Lia.
From S2P Require Import Prelude Float64 Domain Upstream Report ReportSpec.

Local Open Scope Z_scope.
Local Open Scope stdpp_scope.
Local Open Scope go_scope.

Definition sum_of {A} (f : A → Z) (l : list A) : Z := foldr Z.add 0 (map f l).

Lemma sum_of_snoc {A} (f : A → Z) l x : sum_of f (l ++ [x]) = sum_of f l + f x.
Proof. unfold sum_of. induction l as [|y l IH]; cbn in *; lia. Qed.

(** * The lines of the courses *)

(** The courses whose report was computed. *)
Definition reported (res : dashboardCourseResult) : option CourseAttendanceReport :=
  match dc_Err res with None => dc_Report res | Some _ => None end.

(** The lines of their reports, each with its course. *)
Definition dashboard_lines (results : list dashboardCourseResult) : list (dashboardCourseResult * StudentAttendance) :=
  concat (map (λ res, match reported res with Some rep => map (pair res) (cr_Students rep) | None => [] end) results).

Definition lines_of (id : string) (lines : list (dashboardCourseResult * StudentAttendance)) :=
  base.filter (λ x, sa_StudentID x.2 = id) lines.

Definition line_cells (lines : list (dashboardCourseResult * StudentAttendance)) : list SessionCell :=
  concat (map (λ x, sa_PerSession x.2) lines).

Definition cells_map (cells : list SessionCell) : gmap string bool :=
  foldl (λ per c, <[sl_SessionID c := sl_CheckedIn c]> per) ∅ cells.

(** What is kept of a student with these lines. *)
Definition agg_of (lines : list (dashboardCourseResult * StudentAttendance)) : option studentAgg :=
  match lines with
  | [] => None
  | x :: _ => Some
      {| ag_GUID := sa_StudentID x.2; ag_Name := sa_Name x.2; ag_Nickname := sa_Nickname x.2; ag_School := sa_School x.2;
         ag_AvatarURL := sa_AvatarURL x.2; ag_Attended := sum_of (λ x, sa_AttendedSessions x.2) lines;
         ag_Total := sum_of (λ x, sa_TotalSessions x.2) lines;
         ag_Courses := map (λ x, course_absence (dc_CourseID x.1) (dc_CourseName x.1) x.2) lines;
         ag_PerSession := cells_map (line_cells lines) |}
  end.

Definition add_line (m : gmap string studentAgg) (x : dashboardCourseResult * StudentAttendance) : gmap string studentAgg :=
  add_student (dc_CourseID x.1) (dc_CourseName x.1) m x.2.

Lemma aggregate_students results acc :
  (foldl aggregate_course acc results).1 = foldl add_line acc.1 (dashboard_lines results).
Proof.
  revert acc. induction results as [|res results IH]; intros acc; [done|]. unfold dashboard_lines. cbn [foldl map concat].
  rewrite foldl_app, IH. fold (dashboard_lines results). f_equal. unfold aggregate_course, reported.
  destruct (dc_Err res); [done|]. destruct (dc_Report res) as [rep|]; [|done]. cbn [fst].
  generalize acc.1. induction (cr_Students rep) as [|s ss IHs]; intros m; [done|]. apply IHs.
Qed.

Lemma agg_lookup lines id : foldl add_line ∅ lines !! id = agg_of (lines_of id lines).
Proof.
  induction lines as [|[res s] lines IH] using rev_ind; [done|]. rewrite foldl_snoc. unfold lines_of in *.
  rewrite filter_snoc. cbn [fst snd]. unfold add_line at 1, add_student. cbn [fst snd]. case_decide as Hid.
  - rewrite <- Hid in *. rewrite lookup_insert_eq, IH. set (l := base.filter _ lines). destruct l as [|x l]; cbn [app default agg_of].
    + cbn. unfold cells_map, line_cells. cbn. by rewrite !Z.add_0_r, app_nil_r.
    + cbn [ag_GUID ag_Name ag_Nickname ag_School ag_AvatarURL ag_Attended ag_Total ag_Courses ag_PerSession].
      rewrite app_comm_cons, !sum_of_snoc, map_app. unfold line_cells, cells_map. rewrite map_app, concat_app, foldl_app.
      cbn [map concat fst snd]. by rewrite app_nil_r.
  - by rewrite lookup_insert_ne, app_nil_r.
Qed.

Lemma lines_of_head id lines x l : lines_of id lines = x :: l → sa_StudentID x.2 = id.
Proof. intros E. assert (Hx : x ∈ lines_of id lines) by (rewrite E; left). by apply list_elem_of_filter in Hx as [? _]. Qed.

Lemma lines_of_nonempty id lines : lines_of id lines ≠ [] ↔ id ∈ map (λ x, sa_StudentID x.2) lines.
Proof.
  unfold lines_of. change (map ?f ?l) with (f <$> l). rewrite list_elem_of_fmap. split.
  - intros H. destruct (base.filter _ lines) as [|x l] eqn:E; [done|].
    assert (Hx : x ∈ base.filter (λ x : dashboardCourseResult * StudentAttendance, sa_StudentID x.2 = id) lines) by (rewrite E; left).
    apply list_elem_of_filter in Hx as [<- ?]. eauto.
  - intros (x & -> & Hx) E. assert (Hf : x ∈ base.filter (λ y : dashboardCourseResult * StudentAttendance, sa_StudentID y.2 = sa_StudentID x.2) lines)
      by (by apply list_elem_of_filter). rewrite E in Hf. by apply not_elem_of_nil in Hf.
Qed.

(** The state of a session is what the student's last cell for it says. *)
Lemma cells_map_lookup cells sid :
  cells_map cells !! sid = sl_CheckedIn <$> last (base.filter (λ c, sl_SessionID c = sid) cells).
Proof.
  unfold cells_map. induction cells as [|c cells IH] using rev_ind; [done|]. rewrite foldl_snoc, filter_snoc.
  case_decide as Hc.
  - rewrite <- Hc, lookup_insert_eq, last_snoc. done.
  - by rewrite lookup_insert_ne, app_nil_r.
Qed.

(** * The students *)

Definition absence_spec (lines : list (dashboardCourseResult * StudentAttendance)) (sessions : list DashboardSessionSummary)
    (guidToStudentID : gmap string string) (threshold : Z) (id : string) : option StudentAbsence :=
  student_absence sessions guidToStudentID threshold <$> agg_of (lines_of id lines).

Definition selected (wCodes : list string) (st : StudentAbsence) : Prop :=
  let codes := base.filter (λ c, c ≠ "") (map TrimSpace wCodes) in codes = [] ∨ sb_StudentID st ∈ codes.

#[export] Instance selected_dec wCodes st : Decision (selected wCodes st).
Proof. unfold selected. apply _. Defined.

Lemma filter_codes students wCodes :
  (if bool_decide (wCodes = []) then students else FilterStudentsByWCodes students wCodes) = base.filter (selected wCodes) students.
Proof.
  assert (Hall : ∀ l : list StudentAbsence, (∀ st, selected wCodes st) → base.filter (selected wCodes) l = l).
  { intros l H. apply filter_all, Forall_forall. auto. }
  case_bool_decide as Hw; [rewrite Hall; [done|]; intros st; left; by rewrite Hw|].
  unfold FilterStudentsByWCodes. case_bool_decide as Hc.
  - rewrite Hall; [done|]. intros st. left. apply elem_of_nil_inv. intros c Hin.
    apply (elem_of_list_to_set (C := gset string)) in Hin. rewrite Hc in Hin. set_solver.
  - apply list_filter_iff. intros st. unfold selected. rewrite elem_of_list_to_set. split; [by right|].
    intros [E|?]; [|done]. exfalso. apply Hc. rewrite E. done.
Qed.

Lemma list_students_all sessions guids threshold aggs : NoDup (map agg_key aggs) →
  foldl (list_student sessions guids threshold) (∅, []) aggs =
  (list_to_set (map agg_key aggs), map (student_absence sessions guids threshold) aggs).
Proof.
  induction aggs as [|agg aggs IH] using rev_ind; intros Hn; [done|]. rewrite map_app in Hn.
  apply NoDup_app in Hn as (Hn & Hd & _). rewrite foldl_snoc, IH by done. unfold list_student. cbn [fst snd].
  rewrite bool_decide_false.
  - rewrite !map_app, list_to_set_app_L. cbn. f_equal. set_solver.
  - intros Hx%elem_of_list_to_set. apply (Hd _ Hx). left.
Qed.

(** With no empty identifier among them, all students are listed. *)
Lemma absences_all lines sessions guids threshold walk studentMap :
  studentMap = foldl add_line ∅ lines → "" ∉ map (λ x, sa_StudentID x.2) lines → walks walk studentMap = true →
  buildStudentAbsences studentMap sessions guids threshold walk =
  sort_stable (risk_less sb_AtRisk sb_AttendanceRate sb_Name) (omap (absence_spec lines sessions guids threshold) walk).
Proof.
  intros -> He [Hn Hd]%bool_decide_eq_true. unfold buildStudentAbsences. f_equal.
  assert (Hmap : map (student_absence sessions guids threshold) (omap (λ id, foldl add_line ∅ lines !! id) walk) =
    omap (absence_spec lines sessions guids threshold) walk).
  { clear Hn Hd. induction walk as [|id walk IH]; [done|]. cbn [omap list_omap]. rewrite agg_lookup. unfold absence_spec at 1.
    destruct (agg_of _); cbn; by rewrite <- IH. }
  rewrite list_students_all; [done|].
  assert (Hk : map agg_key (omap (λ id, foldl add_line ∅ lines !! id) walk) = base.filter (λ id, lines_of id lines ≠ []) walk).
  { clear Hn Hd Hmap. induction walk as [|id walk IH]; [done|]. cbn [omap list_omap]. rewrite agg_lookup, filter_cons, <- IH.
    destruct (lines_of id lines) as [|x l] eqn:E; cbn; [by rewrite decide_False by (by intros [])|].
    rewrite decide_True by done. f_equal. pose proof (lines_of_head _ _ _ _ E) as Hx. unfold agg_key. cbn. rewrite Hx.
    rewrite bool_decide_false; [done|]. intros ->. apply He, lines_of_nonempty. by rewrite E. }
  rewrite Hk. by apply NoDup_filter.
Qed.

Lemma top_at_risk students n : StronglySorted (not_after (risk_less sb_AtRisk sb_AttendanceRate sb_Name)) students →
  extractTopAtRisk students n = map student_risk (take n (base.filter (λ st, sb_AtRisk st = true) students)).
Proof.
  revert n. induction students as [|st students IH]; intros n Hs; [by destruct n|]. apply StronglySorted_inv in Hs as [Hs Hf].
  rewrite filter_cons. destruct n as [|n]; [done|]. cbn [extractTopAtRisk]. destruct (sb_AtRisk st) eqn:Er.
  - rewrite decide_True by done. cbn. by rewrite IH.
  - rewrite decide_False by done. rewrite filter_none; [done|]. eapply Forall_impl; [exact Hf|]. intros y Hy Hr.
    unfold not_after, risk_less in Hy. by rewrite Hr, Er in Hy.
Qed.

Lemma sorted_filter {A} (R : A → A → Prop) (P : A → Prop) `{!∀ x, Decision (P x)} l :
  StronglySorted R l → StronglySorted R (base.filter P l).
Proof.
  induction 1 as [|x l Hs IH Hf]; [constructor|]. rewrite filter_cons. case_decide; [|done]. constructor; [done|].
  apply Forall_forall. intros y [_ Hy]%list_elem_of_filter. by apply (proj1 (Forall_forall _ _) Hf).
Qed.

(** * The sessions *)

(** The cells of a report are those of its sessions. *)
Definition cells_known (res : dashboardCourseResult) : Prop :=
  ∀ rep s c, reported res = Some rep → s ∈ cr_Students rep → c ∈ sa_PerSession s →
    sl_SessionID c ∈ map ss_SessionID (cr_Sessions rep).

Definition checked_cells (sid : string) (cells : list SessionCell) : Z :=
  Z.of_nat (length (base.filter (λ c, sl_SessionID c = sid ∧ sl_CheckedIn c = true) cells)).

Lemma checked_cells_app sid l1 l2 : checked_cells sid (l1 ++ l2) = checked_cells sid l1 + checked_cells sid l2.
Proof. unfold checked_cells. rewrite filter_app, length_app. lia. Qed.

Lemma add_sessions_lookup courseID courseName sessions m sid :
  (is_Some (foldl (add_session courseID courseName) m sessions !! sid) ↔ is_Some (m !! sid) ∨ sid ∈ map ss_SessionID sessions) ∧
  (ds_CheckedInCount <$> foldl (add_session courseID courseName) m sessions !! sid =
   if decide (is_Some (m !! sid)) then ds_CheckedInCount <$> m !! sid
   else if decide (sid ∈ map ss_SessionID sessions) then Some 0 else None).
Proof.
  revert m. induction sessions as [|s sessions IH]; intros m; cbn [foldl map].
  - split; [set_solver|]. case_decide as H; [done|]. rewrite decide_False by set_solver.
    destruct (m !! sid); [|done]. exfalso. by apply H.
  - destruct (IH (add_session courseID courseName m s)) as [IH1 IH2]. rewrite IH2. clear IH2. rewrite IH1. clear IH1.
    unfold add_session. case_bool_decide as Hs; (destruct (decide (sid = ss_SessionID s)) as [->|Hne]).
    + split; [set_solver|]. by rewrite !(decide_True _ _ Hs).
    + split; [set_solver|]. destruct (decide (is_Some (m !! sid))); [done|]. do 2 case_decide; set_solver.
    + rewrite lookup_insert_eq. split; [set_solver|]. rewrite decide_True by eauto. rewrite decide_False by done.
      by rewrite decide_True by set_solver.
    + rewrite lookup_insert_ne by done. split; [set_solver|]. destruct (decide (is_Some (m !! sid))); [done|]. do 2 case_decide; set_solver.
Qed.

Lemma count_cells_lookup cells m sid :
  (is_Some (foldl count_cell m cells !! sid) ↔ is_Some (m !! sid)) ∧
  ds_CheckedInCount <$> foldl count_cell m cells !! sid = (λ d, ds_CheckedInCount d + checked_cells sid cells) <$> m !! sid.
Proof.
  revert m. induction cells as [|c cells IH]; intros m; cbn [foldl].
  - split; [done|]. unfold checked_cells. cbn. destruct (m !! sid); cbn; [f_equal; lia|done].
  - destruct (IH (count_cell m c)) as [IH1 IH2]. rewrite IH1, IH2. clear IH1 IH2.
    unfold count_cell, checked_cells. rewrite filter_cons. destruct (sl_CheckedIn c) eqn:Ec.
    + destruct (decide (sl_SessionID c = sid)) as [<-|Hne].
      * rewrite lookup_alter_eq, decide_True by done. rewrite fmap_is_Some. split; [done|].
        destruct (m !! _); cbn; [f_equal; lia|done].
      * rewrite lookup_alter_ne by done. rewrite decide_False by naive_solver. done.
    + rewrite decide_False by naive_solver. done.
Qed.

Definition sessions_of (results : list dashboardCourseResult) : list SessionSummary :=
  concat (map (λ res, match reported res with Some rep => cr_Sessions rep | None => [] end) results).

Lemma dashboard_lines_snoc results res :
  dashboard_lines (results ++ [res]) =
  dashboard_lines results ++ match reported res with Some rep => map (pair res) (cr_Students rep) | None => [] end.
Proof. unfold dashboard_lines. rewrite map_app, concat_app. cbn. by rewrite app_nil_r. Qed.

Lemma sessions_of_snoc results res :
  sessions_of (results ++ [res]) = sessions_of results ++ match reported res with Some rep => cr_Sessions rep | None => [] end.
Proof. unfold sessions_of. rewrite map_app, concat_app. cbn. by rewrite app_nil_r. Qed.

Lemma line_cells_app l1 l2 : line_cells (l1 ++ l2) = line_cells l1 ++ line_cells l2.
Proof. unfold line_cells. by rewrite map_app, concat_app. Qed.

Lemma report_cells res rep : line_cells (map (pair res) (cr_Students rep)) = concat (map sa_PerSession (cr_Students rep)).
Proof. unfold line_cells. by rewrite map_map. Qed.

Lemma checked_cells_none sid cells : sid ∉ map sl_SessionID cells → checked_cells sid cells = 0.
Proof.
  intros H. unfold checked_cells. rewrite filter_none; [done|]. apply Forall_forall. intros c Hc [<- _]. apply H.
  change (map ?f ?l) with (f <$> l). by apply list_elem_of_fmap_2.
Qed.

(** A course's cells name its sessions. *)
Lemma known_cells_ids res rep sid : cells_known res → reported res = Some rep →
  sid ∉ map ss_SessionID (cr_Sessions rep) → checked_cells sid (concat (map sa_PerSession (cr_Students rep))) = 0.
Proof.
  intros Hk Hr Hn. apply checked_cells_none. change (map sl_SessionID ?l) with (sl_SessionID <$> l). rewrite list_elem_of_fmap.
  intros (c & -> & Hc). apply Hn. apply list_elem_of_In, in_concat in Hc as (l & Hl & Hc).
  apply in_map_iff in Hl as (s & <- & Hs). eapply Hk; [done|by apply list_elem_of_In|by apply list_elem_of_In].
Qed.

Lemma foldl_cells (students : list StudentAttendance) m :
  foldl (λ m s, foldl count_cell m (sa_PerSession s)) m students = foldl count_cell m (concat (map sa_PerSession students)).
Proof. revert m. induction students as [|s students IH]; intros m; [done|]. cbn. by rewrite foldl_app, IH. Qed.

Lemma aggregate_sessions results sid : Forall cells_known results →
  let m := (foldl aggregate_course (∅, ∅) results).2 in
  (is_Some (m !! sid) ↔ sid ∈ map ss_SessionID (sessions_of results)) ∧
  (ds_CheckedInCount <$> m !! sid =
   if decide (sid ∈ map ss_SessionID (sessions_of results)) then Some (checked_cells sid (line_cells (dashboard_lines results))) else None) ∧
  (sid ∉ map ss_SessionID (sessions_of results) → checked_cells sid (line_cells (dashboard_lines results)) = 0).
Proof.
  cbv zeta. induction results as [|res results IH] using rev_ind; intros Hk.
  { cbn. rewrite lookup_empty. split_and!; [split; [by intros []|set_solver]|by rewrite decide_False by set_solver|done]. }
  apply Forall_app in Hk as [Hk Hres]. rewrite Forall_singleton in Hres. destruct (IH Hk) as (IH1 & IH2 & IH3). clear IH.
  rewrite foldl_snoc, dashboard_lines_snoc, sessions_of_snoc, line_cells_app, map_app, checked_cells_app.
  set (acc := foldl _ _ results) in *. unfold aggregate_course.
  pose proof (known_cells_ids res) as Hc. unfold reported in *. destruct (dc_Err res) as [e|].
  { cbn [map]. rewrite app_nil_r. unfold line_cells at 2 4. cbn. by rewrite Z.add_0_r. }
  destruct (dc_Report res) as [rep|].
  2:{ cbn [map]. rewrite app_nil_r. unfold line_cells at 2 4. cbn. by rewrite Z.add_0_r. }
  specialize (Hc rep sid Hres eq_refl). cbn [snd]. rewrite report_cells, foldl_cells.
  destruct (count_cells_lookup (concat (map sa_PerSession (cr_Students rep)))
    (foldl (add_session (dc_CourseID res) (dc_CourseName res)) acc.2 (cr_Sessions rep)) sid) as [C1 C2].
  destruct (add_sessions_lookup (dc_CourseID res) (dc_CourseName res) (cr_Sessions rep) acc.2 sid) as [A1 A2].
  split_and!; [by rewrite C1, A1, IH1, elem_of_app| |].
  - rewrite C2. clear C1 C2 A1. set (o := foldl (add_session _ _) acc.2 (cr_Sessions rep) !! sid) in *. clearbody o.
    destruct (decide (is_Some (acc.2 !! sid))) as [Hs|Hs].
    + rewrite IH1 in Hs. rewrite IH2, decide_True in A2 by done. rewrite decide_True by set_solver.
      destruct o; cbn in *; [|done]. f_equal. injection A2 as ->. done.
    + rewrite IH1 in Hs. rewrite (IH3 Hs). destruct (decide (sid ∈ map ss_SessionID (cr_Sessions rep))).
      * rewrite decide_True by set_solver. destruct o; cbn in *; [|done]. injection A2 as ->. done.
      * rewrite decide_False by set_solver. by destruct o.
  - intros Hn. rewrite IH3, Hc by set_solver. done.
Qed.

Definition keyed (m : gmap string DashboardSessionSummary) : Prop := map_Forall (λ sid d, ds_SessionID d = sid) m.

Lemma aggregate_keyed results acc : keyed acc.2 → keyed (foldl aggregate_course acc results).2.
Proof.
  revert acc. induction results as [|res results IH]; intros acc Hk; [done|]. cbn [foldl]. apply IH.
  unfold aggregate_course. destruct (dc_Err res); [done|]. destruct (dc_Report res) as [rep|]; [|done]. cbn [snd].
  rewrite foldl_cells. generalize (concat (map sa_PerSession (cr_Students rep))). intros cells.
  assert (Hs : keyed (foldl (add_session (dc_CourseID res) (dc_CourseName res)) acc.2 (cr_Sessions rep))).
  { generalize dependent (acc.2). induction (cr_Sessions rep) as [|s ss IHs]; intros m Hm; [done|]. cbn [foldl]. apply IHs.
    unfold add_session. case_bool_decide; [done|]. by apply map_Forall_insert_2. }
  revert Hs. generalize (foldl (add_session (dc_CourseID res) (dc_CourseName res)) acc.2 (cr_Sessions rep)).
  induction cells as [|c cells IHc]; intros m Hm; [done|]. cbn [foldl]. apply IHc. unfold count_cell.
  destruct (sl_CheckedIn c); [|done]. intros sid d Hd. apply lookup_alter_Some in Hd as [(<- & d' & Hd' & ->)|[_ Hd]]; by eapply Hm in Hd || eapply Hm in Hd'.
Qed.

Lemma walk_values {A} (m : gmap string A) walk x : walks walk m = true → x ∈ omap (λ id, m !! id) walk ↔ ∃ id, m !! id = Some x.
Proof.
  intros [_ Hd]%bool_decide_eq_true. rewrite list_elem_of_omap. split; [intros (id & _ & H); eauto|]. intros [id H]. exists id.
  split; [|done]. apply (elem_of_list_to_set (C := gset string)). rewrite Hd. by apply elem_of_dom_2 in H.
Qed.

Lemma walk_ids (m : gmap string DashboardSessionSummary) walk : keyed m → walks walk m = true →
  map ds_SessionID (omap (λ id, m !! id) walk) = walk.
Proof.
  intros Hk [_ Hd]%bool_decide_eq_true. assert (Hin : ∀ id, id ∈ walk → is_Some (m !! id)).
  { intros id Hid. apply elem_of_dom. rewrite <- Hd. by apply elem_of_list_to_set. }
  clear Hd. induction walk as [|id walk IH]; [done|]. destruct (Hin id) as [d Hd]; [left|].
  cbn [omap list_omap]. rewrite Hd. cbn. rewrite (Hk _ _ Hd), IH; [done|]. intros. apply Hin. by right.
Qed.

Lemma dashboard_sessions results n walk : Forall cells_known results →
  let m := (foldl aggregate_course (∅, ∅) results).2 in walks walk m = true →
  let sessions := buildSessionList m n walk in
  NoDup (map ds_SessionID sessions) ∧
  (∀ sid, sid ∈ map ds_SessionID sessions ↔ sid ∈ map ss_SessionID (sessions_of results)) ∧
  (∀ d, d ∈ sessions → ds_CheckedInCount d = checked_cells (ds_SessionID d) (line_cells (dashboard_lines results)) ∧ ds_TotalStudents d = n).
Proof.
  intros Hk m Hw sessions. pose proof (aggregate_keyed results (∅, ∅) (map_Forall_empty _)) as Hkey. fold m in Hkey.
  assert (Hids : map ds_SessionID sessions ≡ₚ walk).
  { unfold sessions, buildSessionList. rewrite map_map. cbn. rewrite <- (walk_ids m walk Hkey Hw) at 2.
    change (map ?f ?l) with (f <$> l). by rewrite sort_stable_perm. }
  pose proof Hw as [Hn Hd]%bool_decide_eq_true. split_and!.
  - by rewrite Hids.
  - intros sid. rewrite Hids. destruct (aggregate_sessions results sid Hk) as (H & _). rewrite <- H. fold m.
    rewrite <- elem_of_dom, <- Hd. by rewrite elem_of_list_to_set.
  - unfold sessions, buildSessionList. intros d Hin. change (map ?f ?l) with (f <$> l) in Hin.
    apply list_elem_of_fmap in Hin as (d' & -> & Hin). rewrite sort_stable_perm in Hin.
    apply (walk_values _ _ _ Hw) in Hin as [sid Hsid]. cbn. split; [|done]. rewrite (Hkey _ _ Hsid).
    destruct (aggregate_sessions results sid Hk) as (H1 & H2 & _). fold m in H1, H2. rewrite Hsid in H1, H2. cbn in H2.
    rewrite decide_True in H2 by (apply H1; eauto). by injection H2.
Qed.

(** The dashboard of these results: every student of the reports once (or those the codes
    select) with the sums over the student's courses, at-risk first, the first five at risk
    in the callout, and every session once with the number of students checked in to it. *)
Definition dashboard_of (results : list dashboardCourseResult) (threshold : Z) (wCodes : list string)
    (guids : gmap string string) (rep : DashboardReport) : Prop :=
  let lines := dashboard_lines results in
  (∀ ids, NoDup ids → (∀ id, id ∈ ids ↔ id ∈ map (λ x, sa_StudentID x.2) lines) →
     dr_TotalStudents rep = Z.of_nat (length ids) ∧
     dr_Students rep ≡ₚ base.filter (selected wCodes) (omap (absence_spec lines (dr_Sessions rep) guids threshold) ids)) ∧
  StronglySorted (not_after (risk_less sb_AtRisk sb_AttendanceRate sb_Name)) (dr_Students rep) ∧
  dr_TopAtRisk rep = map student_risk (take 5 (base.filter (λ st, sb_AtRisk st = true) (dr_Students rep))) ∧
  NoDup (map ds_SessionID (dr_Sessions rep)) ∧
  (∀ sid, sid ∈ map ds_SessionID (dr_Sessions rep) ↔ sid ∈ map ss_SessionID (sessions_of results)) ∧
  (∀ d, d ∈ dr_Sessions rep → ds_CheckedInCount d = checked_cells (ds_SessionID d) (line_cells lines)).

(** What [aggregateDashboard] makes of the results of the courses. *)
Lemma dashboard_aggregates results courses threshold wCodes guids now walkSessions walkStudents rep :
  Forall cells_known results → "" ∉ map (λ x, sa_StudentID x.2) (dashboard_lines results) →
  aggregateDashboard results courses threshold wCodes guids now walkSessions walkStudents = Some rep →
  dashboard_of results threshold wCodes guids rep.
Proof.
  intros Hk Hne. unfold dashboard_of, aggregateDashboard, aggregatePerCourseResults.
  destruct (walks walkSessions _ && walks walkStudents _) eqn:Hw; [|done]. cbn [negb]. intros [= <-]. cbn.
  apply andb_true_iff in Hw as [Hws Hwt]. rewrite filter_codes.
  destruct (dashboard_sessions results (Z.of_nat (size (foldl aggregate_course (∅, ∅) results).1)) walkSessions Hk Hws) as (S1 & S2 & S3).
  pose proof (aggregate_students results (∅, ∅)) as Hm. cbn [fst] in Hm.
  rewrite (absences_all (dashboard_lines results)) by done.
  assert (Hsorted : ∀ l, StronglySorted (not_after (risk_less sb_AtRisk sb_AttendanceRate sb_Name))
    (base.filter (selected wCodes) (sort_stable (risk_less sb_AtRisk sb_AttendanceRate sb_Name) l)))
    by (intros l; apply sorted_filter, sort_stable_sorted, _).
  split_and!; [|apply Hsorted|by apply top_at_risk|exact S1|exact S2|by intros d [? _]%S3].
  intros ids Hn Hids. apply bool_decide_eq_true in Hwt as [Hnw Hd].
  assert (Hp : walkStudents ≡ₚ ids).
  { apply NoDup_Permutation; [done..|]. intros id. rewrite Hids, <- lines_of_nonempty.
    rewrite <- (elem_of_list_to_set (C := gset string)), Hd, elem_of_dom, Hm, agg_lookup.
    by destruct (lines_of _ _); cbn; split. }
  split.
  - rewrite <- Hp, <- size_dom, <- Hd. by rewrite size_list_to_set.
  - rewrite sort_stable_perm, <- Hp. done.
Qed.

(** The reports of [ComputeCourseAttendanceReport] have the cells of their sessions. *)
Lemma computed_cells_known env course threshold rep res :
  length (final_results env (uniqueSessions (cd_Sessions course))) = length (uniqueSessions (cd_Sessions course)) →
  ComputeCourseAttendanceReport env true (Some course) threshold = Some rep → reported res = Some rep → cells_known res.
Proof.
  intros Hl. unfold ComputeCourseAttendanceReport. cbn [negb]. case_bool_decide as He.
  { intros [= <-] Hr rep' s c [= <-]%(λ H, eq_trans (eq_sym Hr) H) Hs. by apply not_elem_of_nil in Hs. }
  destruct (report_students _ _ _ _) as [students|] eqn:Es; [|done]. cbn. intros [= <-] Hr rep' s c [= <-]%(λ H, eq_trans (eq_sym Hr) H).
  cbn. intros Hs Hc. destruct (report_students_elem _ _ _ _ _ (sa_StudentID s) s Hl Es) as [H _]. specialize (H (conj Hs eq_refl)).
  unfold student_spec in H. destruct (of_student _ _); [done|]. destruct (_ =? 0); [done|].
  assert (Hp : sa_PerSession s = map (report_cell (sa_StudentID s))
    (zip (uniqueSessions (cd_Sessions course)) (final_results env (uniqueSessions (cd_Sessions course))))).
  { injection H as H. rewrite <- H at 1. done. }
  rewrite Hp in Hc. change (map ?f ?l) with (f <$> l) in Hc. apply list_elem_of_fmap in Hc as ([sess r] & -> & Hz).
  apply elem_of_zip_l in Hz. change (map ?f ?l) with (f <$> l). apply list_elem_of_fmap. exists sess. split; [|done].
  unfold report_cell. cbn [fst snd]. by destruct (last _).
Qed.
