(* ===== verification/ReportWitnesses.v ===== *)
(** A course with three sessions: its report and the dashboard over it, computed, with the
    theorems instantiated on them. *)

From stdpp Require Import base list list_numbers numbers strings gmap sorting relations.
From Stdlib Require Import ZArith QArith Lia.
From S2P Require Import Prelude Float64 Domain Upstream Jobs Report ReportSpec DashboardSpec.

Local Open Scope Z_scope.
Local Open Scope stdpp_scope.
Local Open Scope go_scope.

Definition demo_session (id : string) (n : Z) (status : SessionStatus) : SessionSummary :=
  {| ss_SessionID := id; ss_SessionNumber := n; ss_Name := id; ss_Date := "2024-01-08"; ss_CheckedInCount := 0;
     ss_TotalStudents := 0; ss_Status := status |}.

(** The second session is listed twice. *)
Definition demo_course : CourseDetail :=
  {| cd_Summary := {| cs_CourseID := "c"; cs_Name := "Logic"; cs_StartDate := ""; cs_EndDate := ""; cs_EnrolledCount := 2;
                      cs_TotalSessions := 3; cs_CompletedSessions := 2; cs_AvgAttendanceRate := 0; cs_Status := CourseStatusActive |};
     cd_Sessions := [demo_session "s1" 1 SessionStatusDone; demo_session "s2" 2 SessionStatusDone;
                     demo_session "s2" 2 SessionStatusDone; demo_session "s3" 3 SessionStatusActive] |}.

Definition demo_student (id : string) (b : bool) : StudentCheckin :=
  {| sc_StudentID := id; sc_Name := id; sc_Nickname := ""; sc_School := ""; sc_AvatarURL := ""; sc_CheckedIn := b;
     sc_CheckedInAt := None; sc_ParticipationPoints := 0 |}.

Definition demo_detail (id : string) (n : Z) (students : list StudentCheckin) : SessionDetail :=
  {| sd_Summary := demo_session id n SessionStatusDone; sd_Students := students; sd_QRActive := false; sd_QRExpiresAt := None |}.

(** Session 1 is rate limited and answers the retry, session 2 fails, session 3 answers. *)
Definition demo_trace (j : nat) : FetchTrace :=
  {| ft_First := match j with
                 | 0%nat => Err (SessionFetchErr ErrKindRateLimited "")
                 | 1%nat => Err (SessionOtherErr "boom")
                 | _ => Ok (Some (demo_detail "s3" 3 [demo_student "ann" true]))
                 end;
     ft_Err1 := false; ft_Err2 := false; ft_Done := false; ft_PickDone := false; ft_DoneFirst := false;
     ft_Retry := Ok (Some (demo_detail "s1" 1 [demo_student "ann" true; demo_student "bob" false])) |}.

Definition demo_env : ReportEnv :=
  {| rv_Order := [2; 1; 0]%nat; rv_Trace := demo_trace; rv_JobErr := false; rv_CtxErr := false; rv_Walk := ["bob"; "ann"];
     rv_Start := 0; rv_DurationMs := 1 |}.

Definition demo_report : CourseAttendanceReport :=
  default (empty_report "" "" [] [] false 0 0 0) (ComputeCourseAttendanceReport demo_env true (Some demo_course) 0).

Definition line (s : StudentAttendance) := (sa_StudentID s, sa_AttendedSessions s, sa_TotalSessions s, sa_AtRisk s, map sl_Status (sa_PerSession s)).

Example demo_report_lines :
  map line (cr_Students demo_report) = [("bob", 0, 1, true, ["ok"; "error"; "error"]); ("ann", 1, 1, false, ["ok"; "error"; "ok"])] ∧
  cr_Errors demo_report = [ {| re_SessionID := "s2"; re_Reason := "boom" |} ].
Proof. vm_compute. by split. Qed.

(** Two workers run the three jobs. *)
Definition demo_jobs : list JobOp := map OpWorker [0; 1; 0; 1; 0; 1; 0; 0; 0; 1; 0]%nat.

Lemma course_report_witness :
  (∀ id st, (st ∈ cr_Students demo_report ∧ sa_StudentID st = id) ↔
     student_spec (cr_Threshold demo_report) (cr_Sessions demo_report) (final_results demo_env (cr_Sessions demo_report)) id = Some st) ∧
  map ss_SessionID (cr_Sessions demo_report) = ["s1"; "s2"; "s3"].
Proof.
  destruct (jobs_run 3 demo_jobs (jobs_start 3 2 false)) as [s|] eqn:Ej; [|vm_compute in Ej; discriminate].
  destruct (course_report demo_env demo_course 0 demo_report s 2 false) as (Hs & _ & _ & _ & _ & Hst & _).
  - discriminate.
  - exact (jobs_run_reachable _ _ _ _ Ej).
  - vm_compute in Ej. injection Ej as <-. reflexivity.
  - vm_compute in Ej. injection Ej as <-. cbn. apply (bool_decide_unpack ([2; 1; 0]%nat ≡ₚ [0; 1; 2]%nat)). vm_compute. reflexivity.
  - vm_compute in Ej. injection Ej as <-. reflexivity.
  - vm_compute. reflexivity.
  - rewrite Hs in *. split; [exact Hst|vm_compute; reflexivity].
Defined.

(** * The dashboard *)

Definition demo_result : dashboardCourseResult :=
  {| dc_CourseID := "c"; dc_CourseName := "Logic"; dc_Report := Some demo_report; dc_Err := None |}.

Definition demo_dashboard : DashboardReport :=
  default {| dr_GeneratedAt := 0; dr_TotalStudents := 0; dr_TotalCourses := 0; dr_AvgAttendanceRate := 0; dr_AtRiskCount := 0;
             dr_TopAtRisk := []; dr_Students := []; dr_Sessions := [] |}
    (aggregateDashboard [demo_result] 1 0 [] {["ann" := "w1"; "bob" := "w2"]} 0 ["s3"; "s1"; "s2"] ["ann"; "bob"]).

Lemma demo_cells : Forall cells_known [demo_result].
Proof.
  constructor; [|constructor]. apply (computed_cells_known demo_env demo_course 0 demo_report); vm_compute; reflexivity.
Qed.

(** The counts and the callout of the demo's dashboard. *)
Example demo_dashboard_counts :
  dr_TotalStudents demo_dashboard = 2 ∧ map ds_CheckedInCount (dr_Sessions demo_dashboard) = [1; 0; 1].
Proof. vm_compute. done. Qed.

(** The session that could not be fetched is shown as an absence of both students. *)
Example failed_session_absent :
  map (λ st, (sb_Name st, map sk_Status (sb_PerSession st))) (dr_Students demo_dashboard) =
    [("bob", ["absent"; "absent"; "present"]); ("ann", ["checked_in"; "absent"; "checked_in"])].
Proof. vm_compute. reflexivity. Qed.
