(* ===== verification/Provider.v ===== *)
(** Reads of the teacher application from committed snapshots
    ([internal/service/snapshot_provider.go]).

    A read is a sequence of calls on the snapshot reader; what each of them returned is an
    input.  [json.Unmarshal] into a variable of the kind's type is [json_Unmarshal]. *)

From stdpp Require Import base list list_numbers numbers strings gmap.
From Stdlib Require Import ZArith QArith Lia.
From S2P Require Import Prelude Float64 Domain Canonical Tables.

Local Open Scope Z_scope.
Local Open Scope stdpp_scope.
Local Open Scope go_scope.

Definition defaultColdRefreshTimeout : Z := 10 * Second.
Definition snapshotEnrichConcurrency : Z := 4.

(** [None] is a panic. *)
Definition NewSnapshotProvider (reader refresher : bool) (host : string) : option string :=
  if negb reader || negb refresher || blank host then None else Some (TrimSpace host).

Section refs.
Context (host : string).

Definition CatalogRef : TargetRef :=
  {| ref_Host := host; ref_Kind := SnapshotCourseCatalog; ref_ResourceKey := "catalog"; ref_ParentKey := "" |}.
Definition CourseRef (courseID : string) : TargetRef :=
  {| ref_Host := host; ref_Kind := SnapshotCourseDetail; ref_ResourceKey := courseID; ref_ParentKey := "" |}.
Definition provider_SessionRef (courseID sessionID : string) : TargetRef :=
  {| ref_Host := host; ref_Kind := SnapshotSessionDetail; ref_ResourceKey := sessionID; ref_ParentKey := courseID |}.
Definition ProfilesRef : TargetRef :=
  {| ref_Host := host; ref_Kind := SnapshotStudentProfiles; ref_ResourceKey := "profiles"; ref_ParentKey := "" |}.
End refs.

Inductive ReadErr :=
| ReadRepo (e : RepoError)
| ReadExpired (ref : TargetRef)
| ReadDecode (ref : TargetRef).

(** What [reader.Current] returned and the clock when the snapshot was looked at. *)
Record ReadEnv := { rd_Current : result RepoError Snapshot; rd_Now : Z }.

Section provider.
Context `{GoLib}.

Definition readCurrent (ref : TargetRef) (env : ReadEnv) : result ReadErr Value :=
  match rd_Current env with
  | Err e => Err (ReadRepo e)
  | Ok sn =>
      if snapshot_Expired sn (rd_Now env) then Err (ReadExpired ref)
      else match json_Unmarshal (ref_Kind ref) (sn_Payload sn) with Some v => Ok v | None => Err (ReadDecode ref) end
  end.

(** A cold read asks for a refresh and reads again, whatever came of it. *)
Definition read_cold (env : ReadEnv) : bool :=
  match rd_Current env with Err ErrSnapshotNotFound => true | _ => false end.

Definition read (ref : TargetRef) (env again : ReadEnv) : result ReadErr Value :=
  readCurrent ref (if read_cold env then again else env).

(** The typed destinations. *)
Definition as_courses (ref : TargetRef) (r : result ReadErr Value) : result ReadErr (list CourseSummary) :=
  let* v := r in match v with VCourses l => Ok l | _ => Err (ReadDecode ref) end.
Definition as_course (ref : TargetRef) (r : result ReadErr Value) : result ReadErr CourseDetail :=
  let* v := r in match v with VCourseDetail d => Ok d | _ => Err (ReadDecode ref) end.
Definition as_session (ref : TargetRef) (r : result ReadErr Value) : result ReadErr SessionDetail :=
  let* v := r in match v with VSessionDetail d => Ok d | _ => Err (ReadDecode ref) end.
Definition as_profiles (ref : TargetRef) (r : result ReadErr Value) : result ReadErr (list StudentProfile) :=
  let* v := r in match v with VProfiles l => Ok l | _ => Err (ReadDecode ref) end.

Context (host : string).

Definition GetCourseCatalog (env again : ReadEnv) : result ReadErr (list CourseSummary) :=
  as_courses (CatalogRef host) (read (CatalogRef host) env again).

Definition provider_GetSessionDetail (courseID sessionID : string) (env again : ReadEnv) : result ReadErr SessionDetail :=
  as_session (provider_SessionRef host courseID sessionID) (read (provider_SessionRef host courseID sessionID) env again).

Definition FetchStudentProfiles (env again : ReadEnv) : result ReadErr (list StudentProfile) :=
  as_profiles (ProfilesRef host) (read (ProfilesRef host) env again).

Definition CurrentStudentProfiles (env : ReadEnv) : result ReadErr (list StudentProfile) :=
  as_profiles (ProfilesRef host) (readCurrent (ProfilesRef host) env).

Definition attendanceRate (checkedIn totalStudents : Z) : Q :=
  if totalStudents <=? 0 then 0%Q else fdiv (f_of_int checkedIn) (f_of_int totalStudents).

(** * Attendance of a course's sessions *)

(** The session as its snapshot has it. *)
Definition session_read (courseID : string) (s : SessionSummary) (env : ReadEnv) : option SessionDetail :=
  match as_session (provider_SessionRef host courseID (ss_SessionID s)) (readCurrent (provider_SessionRef host courseID (ss_SessionID s)) env) with
  | Ok d => Some d
  | Err _ => None
  end.

(** What a job adds to the two counters: a completed session with students. *)
Definition session_counts (s : SessionSummary) (d : option SessionDetail) : Z * Z :=
  match d with
  | Some d =>
      if bool_decide (ss_Status s = SessionStatusDone) && (0 <? ss_TotalStudents (sd_Summary d))
      then (ss_CheckedInCount (sd_Summary d), ss_TotalStudents (sd_Summary d)) else (0, 0)
  | None => (0, 0)
  end.

Definition add_counts (acc x : Z * Z) : Z * Z := (wrap64 (acc.1 + x.1), wrap64 (acc.2 + x.2)).

(** [sessionAttendance]: the jobs in the order in which they take the mutex; a job reads
    completed sessions only. *)
Definition attendance_job (courseID : string) (sessions : list SessionSummary) (env : nat → ReadEnv) (acc : Z * Z) (idx : nat) : Z * Z :=
  match sessions !! idx with
  | None => acc
  | Some s =>
      if bool_decide (ss_Status s = SessionStatusDone)
      then add_counts acc (session_counts s (session_read courseID s (env idx))) else acc
  end.

Definition sessionAttendance (courseID : string) (sessions : list SessionSummary) (env : nat → ReadEnv) (order : list nat) : Z * Z :=
  foldl (attendance_job courseID sessions env) (0, 0) order.

Definition set_course_counts (total completed : Z) (rate : Q) (c : CourseSummary) : CourseSummary :=
  {| cs_CourseID := cs_CourseID c; cs_Name := cs_Name c; cs_StartDate := cs_StartDate c; cs_EndDate := cs_EndDate c;
     cs_EnrolledCount := cs_EnrolledCount c; cs_TotalSessions := total; cs_CompletedSessions := completed;
     cs_AvgAttendanceRate := rate; cs_Status := cs_Status c |}.

(** One job of [enrichCourses]: what it reads of the course and of its sessions. *)
Record EnrichEnv := { en_Course : ReadEnv; en_Session : nat → ReadEnv; en_Order : list nat }.

Definition enrich_course (c : CourseSummary) (env : EnrichEnv) : CourseSummary :=
  match as_course (CourseRef host (cs_CourseID c)) (readCurrent (CourseRef host (cs_CourseID c)) (en_Course env)) with
  | Err _ => c
  | Ok detail =>
      let '(checkedIn, total) := sessionAttendance (cs_CourseID c) (cd_Sessions detail) (en_Session env) (en_Order env) in
      set_course_counts (cs_TotalSessions (cd_Summary detail)) (cs_CompletedSessions (cd_Summary detail))
        (attendanceRate checkedIn total) c
  end.

(** The jobs in [order] each write their own course. *)
Definition enrichCourses (courses : list CourseSummary) (env : nat → EnrichEnv) (order : list nat) : list CourseSummary :=
  foldl (λ cs idx, alter (λ c, enrich_course c (env idx)) idx cs) courses order.

Definition GetCourses (env again : ReadEnv) (jobs : nat → EnrichEnv) (order : list nat) : result ReadErr (list CourseSummary) :=
  let* courses := GetCourseCatalog env again in Ok (enrichCourses courses jobs order).

(** * A course *)

Definition set_course (enrolled : Z) (from to name : string) (c : CourseSummary) : CourseSummary :=
  {| cs_CourseID := cs_CourseID c; cs_Name := if bool_decide (cs_Name c = "") then name else cs_Name c; cs_StartDate := from;
     cs_EndDate := to; cs_EnrolledCount := enrolled; cs_TotalSessions := cs_TotalSessions c;
     cs_CompletedSessions := cs_CompletedSessions c; cs_AvgAttendanceRate := cs_AvgAttendanceRate c; cs_Status := cs_Status c |}.

Definition overlayCatalogCourse (courseID : string) (env : ReadEnv) (c : CourseSummary) : CourseSummary :=
  match as_courses (CatalogRef host) (readCurrent (CatalogRef host) env) with
  | Err _ => c
  | Ok catalog =>
      match head (base.filter (λ x, cs_CourseID x = courseID) catalog) with
      | Some x => set_course (cs_EnrolledCount x) (cs_StartDate x) (cs_EndDate x) (cs_Name x) c
      | None => c
      end
  end.

Definition set_session_counts (checkedIn total : Z) (s : SessionSummary) : SessionSummary :=
  {| ss_SessionID := ss_SessionID s; ss_SessionNumber := ss_SessionNumber s; ss_Name := ss_Name s; ss_Date := ss_Date s;
     ss_CheckedInCount := checkedIn; ss_TotalStudents := total; ss_Status := ss_Status s |}.

Definition overlay_session (s : SessionSummary) (d : option SessionDetail) : SessionSummary :=
  match d with
  | Some d => set_session_counts (ss_CheckedInCount (sd_Summary d)) (ss_TotalStudents (sd_Summary d)) s
  | None => s
  end.

Definition overlay_job (courseID : string) (env : nat → ReadEnv) (acc : list SessionSummary * (Z * Z)) (idx : nat)
    : list SessionSummary * (Z * Z) :=
  match acc.1 !! idx with
  | None => acc
  | Some s =>
      let d := session_read courseID s (env idx) in
      (<[idx := overlay_session s d]> acc.1, add_counts acc.2 (session_counts s d))
  end.

Definition overlaySessionCounts (courseID : string) (sessions : list SessionSummary) (env : nat → ReadEnv) (order : list nat)
    : list SessionSummary * (Z * Z) :=
  foldl (overlay_job courseID env) (sessions, (0, 0)) order.

(** What the composition of a course reads. *)
Record CourseEnv := {
  cv_Course : ReadEnv;
  cv_Again : ReadEnv;
  cv_Catalog : ReadEnv;
  cv_Session : nat → ReadEnv;
  cv_Order : list nat
}.

Definition set_rate (rate : Q) (c : CourseSummary) : CourseSummary :=
  set_course_counts (cs_TotalSessions c) (cs_CompletedSessions c) rate c.

Definition composeCourseDetail (courseID : string) (env : CourseEnv) (detail : CourseDetail) : CourseDetail :=
  let summary := overlayCatalogCourse courseID (cv_Catalog env) (cd_Summary detail) in
  let '(sessions, (checkedIn, total)) := overlaySessionCounts courseID (cd_Sessions detail) (cv_Session env) (cv_Order env) in
  {| cd_Summary := set_rate (attendanceRate checkedIn total) summary; cd_Sessions := sessions |}.

Definition default_status (c : CourseSummary) : CourseSummary :=
  {| cs_CourseID := cs_CourseID c; cs_Name := cs_Name c; cs_StartDate := cs_StartDate c; cs_EndDate := cs_EndDate c;
     cs_EnrolledCount := cs_EnrolledCount c; cs_TotalSessions := cs_TotalSessions c;
     cs_CompletedSessions := cs_CompletedSessions c; cs_AvgAttendanceRate := cs_AvgAttendanceRate c;
     cs_Status := if bool_decide (course_status_string (cs_Status c) = "") then CourseStatusActive else cs_Status c |}.

Definition GetCourseDetailWithName (courseID : string) (env : CourseEnv) : result ReadErr CourseDetail :=
  let* detail := as_course (CourseRef host courseID) (read (CourseRef host courseID) (cv_Course env) (cv_Again env)) in
  Ok (composeCourseDetail courseID env {| cd_Summary := default_status (cd_Summary detail); cd_Sessions := cd_Sessions detail |}).
End provider.
