(* ===== verification/ProviderSpec.v ===== *)
(** What the composed reads of the teacher application return. *)

From stdpp Require Import base list list_numbers numbers strings gmap.
From Stdlib Require Import ZArith QArith Lia.
From S2P Require Import Prelude Float64 Domain Canonical Tables Provider.

Local Open Scope Z_scope.
Local Open Scope stdpp_scope.
Local Open Scope go_scope.

Lemma wrap64_wrap_l a b : wrap64 (wrap64 a + b) = wrap64 (a + b).
Proof.
  unfold wrap64. f_equal.
  replace ((a + 2 ^ 63) mod 2 ^ 64 - 2 ^ 63 + b + 2 ^ 63) with ((a + 2 ^ 63) mod 2 ^ 64 + b) by lia.
  rewrite Zplus_mod_idemp_l. f_equal. lia.
Qed.

(** The sum of pairs of counters, as int64 values. *)
Definition pair_sum (l : list (Z * Z)) : Z * Z := (foldr Z.add 0 (map fst l), foldr Z.add 0 (map snd l)).
Definition wrap_pair (p : Z * Z) : Z * Z := (wrap64 p.1, wrap64 p.2).

Lemma foldr_add_perm (l l' : list Z) : l ≡ₚ l' → foldr Z.add 0 l = foldr Z.add 0 l'.
Proof. induction 1; cbn; lia. Qed.

#[export] Instance pair_sum_proper : Proper ((≡ₚ) ==> (=)) pair_sum.
Proof. intros l l' Hp. unfold pair_sum. by rewrite (foldr_add_perm _ _ (Permutation_map fst Hp)), (foldr_add_perm _ _ (Permutation_map snd Hp)). Qed.

Lemma add_counts_sum acc l : foldl add_counts (wrap_pair acc) l = wrap_pair (acc.1 + (pair_sum l).1, acc.2 + (pair_sum l).2).
Proof.
  revert acc. induction l as [|x l IH]; intros [a b].
  - unfold wrap_pair. cbn. by rewrite !Z.add_0_r.
  - cbn [foldl]. replace (add_counts (wrap_pair (a, b)) x) with (wrap_pair (a + x.1, b + x.2))
      by (unfold add_counts, wrap_pair; cbn; by rewrite !wrap64_wrap_l).
    rewrite IH. unfold pair_sum. cbn. f_equal. f_equal; lia.
Qed.

Section spec.
Context `{GoLib} (host : string).

(** What the jobs that ran read of the sessions. *)
Definition overlay_of (courseID : string) (env : nat → ReadEnv) (order : list nat) (i : nat) (s : SessionSummary) : SessionSummary :=
  if decide (i ∈ order) then overlay_session s (session_read host courseID s (env i)) else s.

Definition counts_of (courseID : string) (env : nat → ReadEnv) (sessions : list SessionSummary) (i : nat) : Z * Z :=
  match sessions !! i with Some s => session_counts s (session_read host courseID s (env i)) | None => (0, 0) end.

Lemma overlay_jobs courseID sessions env order : NoDup order → Forall (λ i, (i < length sessions)%nat) order →
  overlaySessionCounts host courseID sessions env order =
  (imap (overlay_of courseID env order) sessions, foldl add_counts (0, 0) (map (counts_of courseID env sessions) order)).
Proof.
  unfold overlaySessionCounts. induction order as [|k order IH] using rev_ind; intros Hn Hf.
  - cbn. f_equal. apply list_eq. intros i. rewrite list_lookup_imap. destruct (sessions !! i); [|done]. cbn. unfold overlay_of.
    by rewrite decide_False by set_solver.
  - apply NoDup_app in Hn as (Hn & Hd & _). apply Forall_app in Hf as [Hf Hk]. rewrite Forall_singleton in Hk.
    rewrite foldl_snoc, IH by done. unfold overlay_job. cbn [fst snd]. rewrite list_lookup_imap.
    destruct (lookup_lt_is_Some_2 _ _ Hk) as [s Hs]. rewrite Hs. cbn [fmap option_fmap option_map].
    assert (Hnk : k ∉ order) by (intros Hin; apply (Hd k Hin); left).
    assert (Hsk : overlay_of courseID env order k s = s) by (unfold overlay_of; by rewrite decide_False).
    rewrite Hsk, map_app, foldl_app. cbn [map foldl].
    assert (Hck : counts_of courseID env sessions k = session_counts s (session_read host courseID s (env k)))
      by (unfold counts_of; by rewrite Hs). rewrite Hck. f_equal. apply list_eq. intros i. destruct (decide (i = k)) as [->|Hne].
    + rewrite list_lookup_insert_eq by (rewrite length_imap; done). rewrite list_lookup_imap, Hs. cbn. unfold overlay_of.
      by rewrite decide_True by set_solver.
    + rewrite list_lookup_insert_ne by done. rewrite !list_lookup_imap. destruct (sessions !! i); [|done]. cbn. unfold overlay_of.
      do 2 case_decide; set_solver.
Qed.

(** Whatever the order of the jobs: when all of them ran, every session has the counts of its
    snapshot if that can be read and its own otherwise, and the average is taken over the
    completed sessions with a readable snapshot and students. *)
Lemma course_detail_composed courseID env detail :
  cv_Order env ≡ₚ seq 0 (length (cd_Sessions detail)) →
  let sums := wrap_pair (pair_sum (map (counts_of courseID (cv_Session env) (cd_Sessions detail)) (seq 0 (length (cd_Sessions detail))))) in
  composeCourseDetail host courseID env detail =
  {| cd_Summary := set_rate (attendanceRate sums.1 sums.2) (overlayCatalogCourse host courseID (cv_Catalog env) (cd_Summary detail));
     cd_Sessions := imap (λ i s, overlay_session s (session_read host courseID s (cv_Session env i))) (cd_Sessions detail) |}.
Proof.
  intros Hp sums. unfold composeCourseDetail. rewrite overlay_jobs.
  2:{ rewrite Hp. apply NoDup_seq. }
  2:{ rewrite Hp. apply Forall_forall. intros i Hi. apply elem_of_seq in Hi. lia. }
  pose proof (add_counts_sum (0, 0) (map (counts_of courseID (cv_Session env) (cd_Sessions detail)) (cv_Order env))) as Hs.
  change (wrap_pair (0, 0)) with (0, 0) in Hs. rewrite Hs. clear Hs. cbn [fst snd]. rewrite !Z.add_0_l.
  rewrite <- surjective_pairing. rewrite (Permutation_map _ Hp). fold sums. destruct sums as [a b]. f_equal.
  apply imap_ext. intros i s Hi. unfold overlay_of. rewrite decide_True; [done|]. rewrite Hp. apply elem_of_seq.
  apply lookup_lt_Some in Hi. lia.
Qed.

(** The composition changes no session's identity. *)
Lemma composed_sessions courseID env detail :
  map ss_SessionID (cd_Sessions (composeCourseDetail host courseID env detail)) = map ss_SessionID (cd_Sessions detail).
Proof.
  unfold composeCourseDetail. destruct (overlaySessionCounts _ _ _ _ _) as [sessions [a b]] eqn:E. cbn.
  assert (Hinv : ∀ order acc, map ss_SessionID (foldl (overlay_job host courseID (cv_Session env)) acc order).1 = map ss_SessionID acc.1).
  { induction order as [|i order IH]; intros acc; [done|]. cbn [foldl]. rewrite IH. unfold overlay_job.
    destruct (acc.1 !! i) as [s|] eqn:Hi; [|done]. cbn [fst]. change (map ?f ?l) with (f <$> l).
    rewrite list_fmap_insert. apply list_insert_id. rewrite list_lookup_fmap, Hi. cbn.
    by destruct (session_read _ _ _ _). }
  specialize (Hinv (cv_Order env) (cd_Sessions detail, (0, 0))). unfold overlaySessionCounts in E. by rewrite E in Hinv.
Qed.

(** What a read returns was current in the store, had not expired, and decodes to the value;
    it reads twice exactly when nothing was published at first. *)
Lemma read_sound ref env again v : read ref env again = Ok v →
  ∃ sn, rd_Current (if read_cold env then again else env) = Ok sn ∧
    snapshot_Expired sn (rd_Now (if read_cold env then again else env)) = false ∧ json_Unmarshal (ref_Kind ref) (sn_Payload sn) = Some v.
Proof.
  unfold read, readCurrent. destruct (rd_Current (if read_cold env then again else env)) as [sn|]; [|done].
  destruct (snapshot_Expired _ _) eqn:Ee; [done|]. destruct (json_Unmarshal _ _) eqn:Ej; [|done]. intros [= ->]. eauto.
Qed.
End spec.
