(* ===== verification/Export.v ===== *)
(** The fresh attendance export ([internal/service/attendance_export.go]) and the freshness of
    reports ([internal/service/teacher.go]: markReportStale, CourseReportFreshness).

    The export refreshes what is not usable, checks that everything it is built from has been
    verified, that the course's sessions did not change meanwhile, and only then computes the
    report of the course it read.  What its reads and refreshes returned and how the jobs of the
    report went is an input; [ExportSpec] says what holds when the answers come from the store. *)

From stdpp Require Import base list list_numbers numbers strings gmap.
From Stdlib Require Import ZArith QArith Lia.
From S2P Require Import Prelude Domain Canonical Tables Report Provider.

Local Open Scope Z_scope.
Local Open Scope stdpp_scope.
Local Open Scope go_scope.

Definition maxExportStudents : nat := 5000.
Definition maxExportSessions : nat := 200.

Inductive ExportErr :=
| ErrAttendanceExportFreshness (what : string)
| ErrAttendanceExportCourseNotFound
| ErrAttendanceExportTooLarge (what : string)
| ErrAttendanceExportLiveFailure (what : string).

Record AttendanceExportResult := {
  ae_Report : CourseAttendanceReport;
  ae_Source : string;
  ae_ExportedAt : Z;
  ae_SourceValidatedAt : Z;
  ae_RestartCount : Z;
  ae_FreshnessDurationMs : Z
}.

Definition usableSnapshot (md : SnapshotMetadata) : bool :=
  md_Complete md && bool_decide (md_QualityState md = DataQualityVerifiedFresh) && negb (time_IsZero (md_ValidatedAt md)).

(** The same loop as in the report. *)
Definition uniqueAttendanceSessions (sessions : list SessionSummary) : list SessionSummary :=
  (foldl (λ acc s, if bool_decide (ss_SessionID s ∈ acc.1) then acc else ({[ss_SessionID s]} ∪ acc.1, acc.2 ++ [s]))
     ((∅ : gset string), []) sessions).2.

Definition set_student_id (id : string) (s : StudentAttendance) : StudentAttendance :=
  {| sa_StudentID := id; sa_Name := sa_Name s; sa_Nickname := sa_Nickname s; sa_AvatarURL := sa_AvatarURL s;
     sa_School := sa_School s; sa_AttendedSessions := sa_AttendedSessions s; sa_TotalSessions := sa_TotalSessions s;
     sa_AttendanceRate := sa_AttendanceRate s; sa_AtRisk := sa_AtRisk s; sa_PerSession := sa_PerSession s |}.

Definition EnrichStudentIDWithWCode (students : list StudentAttendance) (profiles : list StudentProfile) : list StudentAttendance :=
  let guidMap := buildGUIDToWCodeMap profiles in
  if bool_decide (size guidMap = 0%nat) then students
  else map (λ s, match guidMap !! sa_StudentID s with Some wcode => set_student_id wcode s | None => s end) students.

Definition set_students (students : list StudentAttendance) (stale : bool) (r : CourseAttendanceReport) : CourseAttendanceReport :=
  {| cr_CourseID := cr_CourseID r; cr_CourseName := cr_CourseName r; cr_Sessions := cr_Sessions r; cr_Students := students;
     cr_Errors := cr_Errors r; cr_Truncated := cr_Truncated r; cr_Stale := stale; cr_Threshold := cr_Threshold r;
     cr_ComputedAt := cr_ComputedAt r; cr_DurationMs := cr_DurationMs r |}.

(** What one pass of the loop sees, in the order of its calls; [xe_RefreshErr] is the error of
    the refresh of a reference, [xe_JobErr] the error of the pool, [xe_Fetcher] whether the
    reader can fetch sessions, [xe_Report] what the report sees. *)
Record ExportEnv := {
  xe_Base : result RepoError SnapshotMetadata;
  xe_CourseRefresh : option string;
  xe_Meta : result RepoError SnapshotMetadata;
  xe_Course : result ReadErr (option CourseDetail);
  xe_Baseline : nat → result RepoError SnapshotMetadata;
  xe_JobErr : bool;
  xe_RefreshErr : nat → option string;
  xe_After : nat → result RepoError SnapshotMetadata;
  xe_Stable : result RepoError SnapshotMetadata;
  xe_Fetcher : bool;
  xe_Report : ReportEnv;
  xe_CtxErr : bool;
  xe_Profiles : result ReadErr (list StudentProfile);
  xe_DurationMs : Z
}.

Definition freshnessError {A} (what : string) : result ExportErr A := Err (ErrAttendanceExportFreshness what).

Definition or_fresh {A E} (what : string) (r : result E A) : result ExportErr A :=
  match r with Ok x => Ok x | Err _ => freshnessError what end.

Definition check (b : bool) (e : ExportErr) : result ExportErr unit := if b then Ok tt else Err e.

(** The references an export is built from: the profiles and the course's sessions. *)
Definition export_refs (host courseID : string) (sessions : list SessionSummary) : list TargetRef :=
  ProfilesRef host :: map (λ s, provider_SessionRef host courseID (ss_SessionID s)) sessions.

(** The metadata of the references, one read after the other up to the first error. *)
Fixpoint read_all (read : nat → result RepoError SnapshotMetadata) (what : string) (i n : nat) : result ExportErr (list SnapshotMetadata) :=
  match n with
  | O => Ok []
  | S n' => let* md := or_fresh what (read i) in let* rest := read_all read what (S i) n' in Ok (md :: rest)
  end.

(** The check after the refresh, with the oldest validation time. *)
Fixpoint verify_all (read : nat → result RepoError SnapshotMetadata) (validatedAt : Z) (i n : nat) : result ExportErr Z :=
  match n with
  | O => Ok validatedAt
  | S n' =>
      let* md := or_fresh "read refreshed snapshot metadata" (read i) in
      let* _ := check (usableSnapshot md) (ErrAttendanceExportFreshness "not usable for export") in
      verify_all read
        (if time_IsZero validatedAt || time_Before (md_ValidatedAt md) validatedAt then md_ValidatedAt md else validatedAt) (S i) n'
  end.

(** The references that are refreshed. *)
Definition refresh_indexes (baselines : list SnapshotMetadata) : list nat :=
  omap (λ x, if usableSnapshot x.2 then None else Some x.1) (imap (λ i md, (i, md)) baselines).

Definition refresh_export (env : ExportEnv) (baselines : list SnapshotMetadata) : result ExportErr unit :=
  let indexes := refresh_indexes baselines in
  if bool_decide (indexes = []) then Ok tt
  else
    let* _ := check (negb (xe_JobErr env)) (ErrAttendanceExportFreshness "refresh export snapshots") in
    check (forallb (λ i, bool_decide (xe_RefreshErr env i = None)) indexes) (ErrAttendanceExportFreshness "refresh export snapshots").

Definition export_course (courseID : string) (c : CourseDetail) : CourseDetail :=
  {| cd_Summary :=
       {| cs_CourseID := if bool_decide (cs_CourseID (cd_Summary c) = "") then courseID else cs_CourseID (cd_Summary c);
          cs_Name := cs_Name (cd_Summary c); cs_StartDate := cs_StartDate (cd_Summary c); cs_EndDate := cs_EndDate (cd_Summary c);
          cs_EnrolledCount := cs_EnrolledCount (cd_Summary c); cs_TotalSessions := cs_TotalSessions (cd_Summary c);
          cs_CompletedSessions := cs_CompletedSessions (cd_Summary c);
          cs_AvgAttendanceRate := cs_AvgAttendanceRate (cd_Summary c); cs_Status := cs_Status (cd_Summary c) |};
     cd_Sessions := uniqueAttendanceSessions (cd_Sessions c) |}.

(** The course after its refresh, if it was needed, and the sequence it then had. *)
Definition export_read_course (courseID : string) (env : ExportEnv) : result ExportErr (CourseDetail * SnapshotMetadata) :=
  let* base := match xe_Base env with
               | Ok md => Ok md
               | Err ErrSnapshotNotFound => Err ErrAttendanceExportCourseNotFound
               | Err _ => freshnessError "read course baseline"
               end in
  let* _ := check (usableSnapshot base || bool_decide (xe_CourseRefresh env = None)) (ErrAttendanceExportFreshness "refresh course") in
  let* md := or_fresh "read refreshed course metadata" (xe_Meta env) in
  let* _ := check (usableSnapshot md) (ErrAttendanceExportFreshness "not usable for export") in
  let* course := or_fresh "read refreshed course" (xe_Course env) in
  match course with
  | None => freshnessError "refreshed course detail is unavailable"
  | Some course =>
      let course := export_course courseID course in
      let* _ := check (bool_decide (length (cd_Sessions course) ≤ maxExportSessions)%nat) (ErrAttendanceExportTooLarge "sessions") in
      Ok (course, md)
  end.

(** The report of the course, once everything is known to be fresh. *)
Definition export_report (env : ExportEnv) (course : CourseDetail) (threshold restarts validatedAt : Z) : result ExportErr AttendanceExportResult :=
  let* _ := check (xe_Fetcher env) (ErrAttendanceExportFreshness "snapshot reader cannot compute reports") in
  let report := ComputeCourseAttendanceReport (xe_Report env) true (Some course) threshold in
  let* _ := check (negb (xe_CtxErr env)) (ErrAttendanceExportFreshness "compute attendance report") in
  match report with
  | None => freshnessError "report is incomplete"
  | Some report =>
      let* _ := check (bool_decide (length (cr_Students report) ≤ maxExportStudents)%nat) (ErrAttendanceExportTooLarge "students") in
      let* _ := check (negb (cr_Truncated report || cr_Stale report || negb (bool_decide (cr_Errors report = []))))
                  (ErrAttendanceExportFreshness "report is incomplete") in
      let* profiles := or_fresh "read refreshed profiles" (xe_Profiles env) in
      Ok {| ae_Report := set_students (EnrichStudentIDWithWCode (cr_Students report) profiles) false report;
            ae_Source := "validated-snapshot"; ae_ExportedAt := cr_ComputedAt report; ae_SourceValidatedAt := validatedAt;
            ae_RestartCount := restarts; ae_FreshnessDurationMs := xe_DurationMs env |}
  end.

(** One pass; [Ok None] asks for another. *)
Definition export_pass (host courseID : string) (threshold restarts : Z) (env : ExportEnv) : result ExportErr (option AttendanceExportResult) :=
  let* (course, md) := export_read_course courseID env in
  let n := length (export_refs host courseID (cd_Sessions course)) in
  let* baselines := read_all (xe_Baseline env) "read snapshot baseline" 0 n in
  let* _ := refresh_export env baselines in
  let* validatedAt := verify_all (xe_After env) (md_ValidatedAt md) 0 n in
  let* stable := or_fresh "read restabilized course metadata" (xe_Stable env) in
  if md_ValidationSeq md <? md_ValidationSeq stable
  then if 0 <? restarts then freshnessError "course session membership changed during export" else Ok None
  else let* r := export_report env course threshold restarts validatedAt in Ok (Some r).

(** The loop makes at most two passes. *)
Definition GetFreshAttendanceExport (host courseID : string) (threshold : Z) (first second : ExportEnv) : result ExportErr AttendanceExportResult :=
  let* r := export_pass host courseID threshold 0 first in
  match r with
  | Some res => Ok res
  | None =>
      let* r' := export_pass host courseID threshold 1 second in
      match r' with Some res => Ok res | None => freshnessError "" end
  end.

(** Outside snapshot mode: [report] is what GetAttendanceReport returned. *)
Definition getLiveAttendanceExport (report : result string (option CourseAttendanceReport)) (exportedAt validatedAt ms : Z)
    : result ExportErr AttendanceExportResult :=
  match report with
  | Err e => Err (ErrAttendanceExportLiveFailure e)
  | Ok None => Err (ErrAttendanceExportLiveFailure "live attendance report is unavailable")
  | Ok (Some report) =>
      let* _ := check (bool_decide (length (cr_Sessions report) ≤ maxExportSessions)%nat) (ErrAttendanceExportTooLarge "sessions") in
      let* _ := check (bool_decide (length (cr_Students report) ≤ maxExportStudents)%nat) (ErrAttendanceExportTooLarge "students") in
      Ok {| ae_Report := report; ae_Source := "live-warwick"; ae_ExportedAt := exportedAt; ae_SourceValidatedAt := validatedAt;
            ae_RestartCount := 0; ae_FreshnessDurationMs := ms |}
  end.

(** * The freshness of a report *)

(** [snapshots] is false when the reader does not know about snapshots; [overdue] is what
    [AnyOverdue] returned. *)
Definition markReportStale (snapshotMode snapshots : bool) (overdue : result RepoError bool) (r : CourseAttendanceReport) : CourseAttendanceReport :=
  if negb snapshotMode then r
  else if negb snapshots then set_students (cr_Students r) true r
  else
    match overdue with
    | Ok b => set_students (cr_Students r) b r
    | Err _ =>
        {| cr_CourseID := cr_CourseID r; cr_CourseName := cr_CourseName r; cr_Sessions := cr_Sessions r;
           cr_Students := cr_Students r;
           cr_Errors := cr_Errors r ++ [ {| re_SessionID := ""; re_Reason := "snapshot freshness unavailable" |} ];
           cr_Truncated := true; cr_Stale := true; cr_Threshold := cr_Threshold r; cr_ComputedAt := cr_ComputedAt r;
           cr_DurationMs := cr_DurationMs r |}
    end.

Definition maxReportFreshnessSessions : nat := 200.

Definition composite_step (c md : SnapshotMetadata) : SnapshotMetadata :=
  {| md_Kind := md_Kind c; md_ResourceKey := md_ResourceKey c; md_ParentKey := md_ParentKey c; md_Version := md_Version c;
     md_ValidationSeq := if md_ValidationSeq c <? md_ValidationSeq md then md_ValidationSeq md else md_ValidationSeq c;
     md_ValidatedAt := if time_IsZero (md_ValidatedAt c) || time_Before (md_ValidatedAt md) (md_ValidatedAt c)
                       then md_ValidatedAt md else md_ValidatedAt c;
     md_Stale := if md_Stale md then true else md_Stale c;
     md_QualityState := if bool_decide (md_QualityState md = DataQualityVerifiedFresh) then md_QualityState c else DataQualityVerifiedStale;
     md_Complete := if md_Complete md then md_Complete c else false;
     md_ParserVersion := md_ParserVersion c; md_EventSequence := md_EventSequence c |}.

Definition composite_metadata (courseID : string) (course : SnapshotMetadata) (metadatas : list SnapshotMetadata) : SnapshotMetadata :=
  let c := foldl composite_step
    {| md_Kind := SnapshotCourseDetail; md_ResourceKey := courseID; md_ParentKey := ""; md_Version := 0; md_ValidationSeq := 0;
       md_ValidatedAt := md_ValidatedAt course; md_Stale := false; md_QualityState := DataQualityVerifiedFresh; md_Complete := true;
       md_ParserVersion := ""; md_EventSequence := 0 |} (course :: metadatas) in
  {| md_Kind := md_Kind c; md_ResourceKey := md_ResourceKey c; md_ParentKey := md_ParentKey c; md_Version := md_ValidationSeq c;
     md_ValidationSeq := md_ValidationSeq c; md_ValidatedAt := md_ValidatedAt c; md_Stale := md_Stale c;
     md_QualityState := md_QualityState c; md_Complete := md_Complete c; md_ParserVersion := md_ParserVersion c;
     md_EventSequence := md_EventSequence c |}.

(** The references whose metadata are read besides the course's. *)
Definition freshness_refs (host courseID : string) (detail : CourseDetail) : list TargetRef :=
  export_refs host courseID (take maxReportFreshnessSessions (uniqueAttendanceSessions (cd_Sessions detail))).

(** [None] stands for a response without metadata; [metadatas] is what the pool's jobs read. *)
Definition CourseReportFreshness (snapshotMode snapshots : bool) (host courseID : string) (course : result RepoError SnapshotMetadata)
    (detail : result ReadErr (option CourseDetail)) (jobErr : bool) (metadatas : nat → result RepoError SnapshotMetadata)
    : option SnapshotMetadata :=
  if negb snapshotMode || negb snapshots then None
  else
    match course, detail with
    | Ok course, Ok (Some detail) =>
        if jobErr then None
        else
          match read_all metadatas "" 0 (length (freshness_refs host courseID detail)) with
          | Ok l => Some (composite_metadata courseID course l)
          | Err _ => None
          end
    | _, _ => None
    end.
