(* ===== verification/ExportSpec.v ===== *)
(** The fresh export against the snapshot store. *)

From stdpp Require Import base list list_numbers numbers strings gmap relations.
From Stdlib Require Import ZArith QArith Lia.
From S2P Require Import Prelude Domain Canonical Tables Leases Reads Store System Published Refresh Jobs Report ReportSpec.
From S2P Require Import Provider ProviderSpec Export.

Local Open Scope Z_scope.
Local Open Scope stdpp_scope.
Local Open Scope go_scope.

Lemma check_ok b e : check b e = Ok tt ↔ b = true.
Proof. unfold check. by destruct b. Qed.

(** * What a pass that succeeds has seen *)

Lemma verify_all_spec (read : nat → result RepoError SnapshotMetadata) v i n w : verify_all read v i n = Ok w →
  (∀ j, (i ≤ j < i + n)%nat → ∃ md, read j = Ok md ∧ usableSnapshot md = true ∧ w ≤ md_ValidatedAt md) ∧
  (v ≠ 0 → w ≤ v) ∧ (w = v ∨ ∃ j md, (i ≤ j < i + n)%nat ∧ read j = Ok md ∧ w = md_ValidatedAt md).
Proof.
  revert v i. induction n as [|n IH]; intros v i; cbn [verify_all].
  - intros [= ->]. split_and!; [lia|done|by left].
  - destruct (read i) as [md|] eqn:Er; [|done]. cbn. unfold check. destruct (usableSnapshot md) eqn:Eu; [|done]. cbn.
    intros H. destruct (IH _ _ H) as (H1 & H2 & H3).
    assert (Hz : md_ValidatedAt md ≠ 0).
    { unfold usableSnapshot, time_IsZero in Eu. apply andb_true_iff in Eu as [_ E]. by destruct (Z.eqb_spec (md_ValidatedAt md) 0). }
    unfold time_IsZero, time_Before in *. destruct (Z.eqb_spec v 0), (Z.ltb_spec (md_ValidatedAt md) v); cbn in *; split_and!; try lia.
    all: try (intros j Hj; destruct (decide (j = i)) as [->|]; [exists md; split_and!; [done|done|lia]|apply H1; lia]).
    all: destruct H3 as [->|(j & md' & Hj & Hr & ->)]; [|right; exists j, md'; split_and!; [lia|lia|done|done]].
    all: (right; exists i, md; split_and!; [lia|lia|done|done]) || by left.
Qed.

Record pass_ok (host courseID : string) (threshold restarts : Z) (env : ExportEnv) (res : AttendanceExportResult)
    (course : CourseDetail) (md stable : SnapshotMetadata) (report : CourseAttendanceReport)
    (profiles : list StudentProfile) : Prop := {
  po_course : xe_Course env = Ok (Some course);
  po_meta : xe_Meta env = Ok md;
  po_usable : usableSnapshot md = true;
  po_sessions : (length (uniqueAttendanceSessions (cd_Sessions course)) ≤ maxExportSessions)%nat;
  po_verified : verify_all (xe_After env) (md_ValidatedAt md) 0
    (length (export_refs host courseID (uniqueAttendanceSessions (cd_Sessions course)))) = Ok (ae_SourceValidatedAt res);
  po_stable : xe_Stable env = Ok stable;
  po_seq : md_ValidationSeq stable ≤ md_ValidationSeq md;
  po_report : ComputeCourseAttendanceReport (xe_Report env) true (Some (export_course courseID course)) threshold = Some report;
  po_students : (length (cr_Students report) ≤ maxExportStudents)%nat;
  po_whole : cr_Truncated report = false ∧ cr_Stale report = false ∧ cr_Errors report = [];
  po_profiles : xe_Profiles env = Ok profiles;
  po_result : ae_Report res = set_students (EnrichStudentIDWithWCode (cr_Students report) profiles) false report;
  po_restarts : ae_RestartCount res = restarts
}.

Lemma export_report_ok env course threshold restarts v res : export_report env course threshold restarts v = Ok res →
  ∃ report profiles, ComputeCourseAttendanceReport (xe_Report env) true (Some course) threshold = Some report ∧
    (length (cr_Students report) ≤ maxExportStudents)%nat ∧
    (cr_Truncated report = false ∧ cr_Stale report = false ∧ cr_Errors report = []) ∧ xe_Profiles env = Ok profiles ∧
    ae_Report res = set_students (EnrichStudentIDWithWCode (cr_Students report) profiles) false report ∧
    ae_SourceValidatedAt res = v ∧ ae_RestartCount res = restarts.
Proof.
  unfold export_report, check. destruct (xe_Fetcher env); [|done]. cbn [result_bind]. destruct (xe_CtxErr env); [done|]. cbn [negb result_bind].
  destruct (ComputeCourseAttendanceReport _ _ _ _) as [report|]; [|done]. case_bool_decide as Hl; cbn; [|done].
  destruct (cr_Truncated report) eqn:Et, (cr_Stale report) eqn:Es; cbn; try done. case_bool_decide as He; cbn; [|done].
  destruct (xe_Profiles env) as [profiles|]; [|done]. cbn. intros [= <-]. by exists report, profiles.
Qed.

Lemma export_read_course_ok courseID env c md : export_read_course courseID env = Ok (c, md) →
  ∃ course, xe_Course env = Ok (Some course) ∧ xe_Meta env = Ok md ∧ usableSnapshot md = true ∧
    c = export_course courseID course ∧ (length (cd_Sessions c) ≤ maxExportSessions)%nat.
Proof.
  unfold export_read_course, check. destruct (xe_Base env) as [base|[]]; try done. cbn.
  destruct (_ || _); [|done]. cbn. destruct (xe_Meta env) as [m|]; [|done]. cbn. destruct (usableSnapshot m) eqn:Eu; [|done]. cbn.
  destruct (xe_Course env) as [[course|]|]; [|done..]. cbn. case_bool_decide as Hl; cbn; [|done]. intros [= <- <-].
  exists course. by split_and!.
Qed.

Lemma export_pass_ok host courseID threshold restarts env res : export_pass host courseID threshold restarts env = Ok (Some res) →
  ∃ course md stable report profiles, pass_ok host courseID threshold restarts env res course md stable report profiles.
Proof.
  unfold export_pass. destruct (export_read_course courseID env) as [[c md]|] eqn:Ec; [|done]. cbn [result_bind].
  destruct (export_read_course_ok _ _ _ _ Ec) as (course & Hc & Hm & Hu & -> & Hl).
  destruct (read_all _ _ _ _) as [baselines|]; [|done]. cbn [result_bind or_fresh]. destruct (refresh_export env baselines); [|done]. cbn [result_bind or_fresh].
  destruct (verify_all _ _ _ _) as [v|] eqn:Ev; [|done]. cbn [result_bind or_fresh]. destruct (xe_Stable env) as [stable|] eqn:Es; [|done]. cbn [result_bind or_fresh].
  destruct (Z.ltb_spec (md_ValidationSeq md) (md_ValidationSeq stable)); [by destruct (0 <? restarts)|].
  destruct (export_report env _ threshold restarts v) as [r|] eqn:Er; [|done]. cbn [result_bind or_fresh]. intros [= <-].
  destruct (export_report_ok _ _ _ _ _ _ Er) as (report & profiles & Hr & Hn & Hw & Hp & Hres & Hv & Hrs).
  exists course, md, stable, report, profiles. split; try done. by rewrite Hv.
Qed.

(** A report without errors has the roster of each of its sessions, and its students are those
    of the declarative specification over these rosters. *)
Lemma whole_report env course threshold rep s concurrency canceled :
  let sessions := uniqueSessions (cd_Sessions course) in
  rtc (jobs_step (length sessions)) (jobs_start (length sessions) concurrency canceled) s → jobs_over s = true →
  rv_Order env ≡ₚ jb_Started s → rv_JobErr env = jb_Canceled s →
  ComputeCourseAttendanceReport env true (Some course) threshold = Some rep → cr_Errors rep = [] →
  cr_CourseID rep = cs_CourseID (cd_Summary course) ∧ cr_Sessions rep = sessions ∧
  (0 < threshold → cr_Threshold rep = threshold) ∧
  (∀ j sess, sessions !! j = Some sess → ∃ r d, final_results env sessions !! j = Some r ∧
     answered (rv_Trace env j) d ∧ session_rows r = sd_Students d) ∧
  (∀ id st, (st ∈ cr_Students rep ∧ sa_StudentID st = id) ↔
     student_spec (cr_Threshold rep) sessions (final_results env sessions) id = Some st).
Proof.
  intros sessions Hr Ho Hp Hc. unfold ComputeCourseAttendanceReport. cbn [negb].
  destruct (final_results_spec env sessions s concurrency canceled Hr Ho Hp Hc) as [Hl Hres].
  case_bool_decide as Hn.
  - intros [= <-] _. cbn. unfold sessions, final_results in *. rewrite Hn in *. cbn. split_and!; [done|done|done|by intros ? ?|].
    intros id st. split; [intros [?%not_elem_of_nil _]; done|].
    cbn in Hl. destruct (if rv_JobErr env then _ else _); [|done]. done.
  - fold sessions. destruct (report_students _ _ _ _) as [students|] eqn:Es; [|done]. cbn. intros [= <-]. cbn. intros He.
    split_and!; [done|done|unfold report_threshold; destruct (Z.leb_spec threshold 0); [lia|done]| |].
    + intros j sess Hj. destruct (Hres j sess Hj) as (r & Er & Hd).
      destruct r as [|reason| |d]; [done| |destruct Hd as (d & ? & ?)|destruct Hd as (d' & ? & ?)]; [|by eauto..].
      exfalso. destruct (report_errors _ _ _ _ _ Hj Er) as (e & Hin & _); [by eexists|].
      rewrite He in Hin. by apply not_elem_of_nil in Hin.
    + intros id st. by apply (report_students_elem _ _ _ (rv_Walk env)).
Qed.

(** * Against the store *)

Section store.
Context `{GoLib, Postgres}.

Lemma metadata_seq ref now db md : Metadata ref now db = Ok md → md_ValidationSeq md = seq_of ref db.
Proof.
  unfold Metadata, seq_of. destruct (find_target db ref) as [[i t]|]; [|done]. case_bool_decide; [done|].
  destruct (current_snap db t) as [[sid s]|]; [|done]. unfold metadata_row. destruct (last_validated_at _); [|done]. by intros [= <-].
Qed.

Lemma current_seq ref db sn : Current ref db = Ok sn → sn_ValidationSeq sn = seq_of ref db.
Proof.
  unfold Current, seq_of. destruct (ref_check ref); [|done]. cbn. destruct (find_target db ref) as [[i t]|]; [|done].
  case_bool_decide; [done|]. destruct (current_snap db t) as [[sid s]|]; [|done]. destruct (last_validated_at _); [|done]. by intros [= <-].
Qed.

(** Where there are metadata there is a snapshot. *)
Lemma metadata_current ref now db md : ref_check ref = Ok tt → Metadata ref now db = Ok md → ∃ sn, Current ref db = Ok sn.
Proof.
  unfold Metadata, Current. intros ->. cbn. destruct (find_target db ref) as [[i t]|]; [|done]. case_bool_decide; [done|].
  destruct (current_snap db t) as [[sid s]|]; [|done]. unfold metadata_row. destruct (last_validated_at _); [|done]. by eauto.
Qed.

(** The snapshot of a target between two metadata reads with the same sequence is the
    snapshot at both. *)
Lemma unmoved_snapshot ref db1 db2 db3 now1 now3 md1 md3 sn :
  reachable db1 → rtc db_step db1 db2 → rtc db_step db2 db3 →
  Metadata ref now1 db1 = Ok md1 → Current ref db2 = Ok sn → Metadata ref now3 db3 = Ok md3 →
  md_ValidationSeq md3 ≤ md_ValidationSeq md1 → ∃ sn3, Current ref db3 = Ok sn3 ∧ sn_Payload sn3 = sn_Payload sn.
Proof.
  intros R1 S12 S23 M1 C2 M3 Hle. assert (R2 : reachable db2) by (unfold reachable in *; by etrans).
  assert (Hc : ref_check ref = Ok tt) by (unfold Current in C2; by destruct (ref_check ref) as [[]|]).
  destruct (metadata_current _ _ _ _ Hc M3) as [sn3 C3]. exists sn3. split; [done|].
  destruct (Current_later _ _ _ _ _ R2 S23 C2 C3) as (_ & Hv & Hs & Hp).
  rewrite (metadata_seq _ _ _ _ M1), (metadata_seq _ _ _ _ M3) in Hle.
  rewrite (current_seq _ _ _ C2), (current_seq _ _ _ C3) in Hs. pose proof (seq_of_steps ref _ _ R1 S12).
  symmetry. apply Hp. lia.
Qed.

(** The course as the export reads it, and the sessions of its report. *)
Definition read_sessions (courseID : string) (course : CourseDetail) : list SessionSummary :=
  uniqueSessions (cd_Sessions (export_course courseID course)).

(** A pass whose answers come from the store: the course's metadata from [db1], the course
    from [db2], the metadata of the references after their refresh from stores between [db2]
    and [db3], the course's metadata again from [db3]; then the rosters with which the jobs of
    the report were answered and the profiles, each from a store of its own; other transactions
    in between.  The jobs of the report ran on the pool of [Jobs]. *)
Record pass_history (host courseID : string) (env : ExportEnv) (db1 db2 db3 : DB) : Prop := {
  ph_reachable : reachable db1;
  ph_12 : rtc db_step db1 db2;
  ph_23 : rtc db_step db2 db3;
  ph_meta : ∃ now, xe_Meta env = Metadata (CourseRef host courseID) now db1;
  ph_course : ∃ ce, xe_Course env = (let* c := GetCourseDetailWithName host courseID ce in Ok (Some c)) ∧
    rd_Current (if read_cold (cv_Course ce) then cv_Again ce else cv_Course ce) = Current (CourseRef host courseID) db2;
  ph_after : ∀ i course ref, xe_Course env = Ok (Some course) →
    export_refs host courseID (uniqueAttendanceSessions (cd_Sessions course)) !! i = Some ref →
    ∃ db now, rtc db_step db2 db ∧ rtc db_step db db3 ∧ xe_After env i = Metadata ref now db;
  ph_stable : ∃ now, xe_Stable env = Metadata (CourseRef host courseID) now db3;
  ph_jobs : ∀ course, xe_Course env = Ok (Some course) → let n := length (read_sessions courseID course) in
    ∃ s concurrency canceled, rtc (jobs_step n) (jobs_start n concurrency canceled) s ∧ jobs_over s = true ∧
      rv_Order (xe_Report env) ≡ₚ jb_Started s ∧ rv_JobErr (xe_Report env) = jb_Canceled s;
  ph_rosters : ∀ course j sess d, xe_Course env = Ok (Some course) → read_sessions courseID course !! j = Some sess →
    answered (rv_Trace (xe_Report env) j) d →
    let id := cs_CourseID (cd_Summary (export_course courseID course)) in
    ∃ db first again, rtc db_step db3 db ∧ provider_GetSessionDetail host id (ss_SessionID sess) first again = Ok d ∧
      rd_Current (if read_cold first then again else first) = Current (provider_SessionRef host id (ss_SessionID sess)) db;
  ph_profiles : ∃ db now, rtc db_step db3 db ∧
    xe_Profiles env = CurrentStudentProfiles host {| rd_Current := Current (ProfilesRef host) db; rd_Now := now |}
}.

(** The value of the snapshot of a reference that is current at [db]. *)
Definition current_value (ref : TargetRef) (db : DB) (v : Value) : Prop :=
  ∃ sn, Current ref db = Ok sn ∧ json_Unmarshal (ref_Kind ref) (sn_Payload sn) = Some v.

(** What an export stands for, at the store [db3] where its last check was made. *)
Definition verified_from (host courseID : string) (res : AttendanceExportResult) (detail : CourseDetail) (db2 db3 : DB) : Prop :=
  current_value (CourseRef host courseID) db3 (VCourseDetail detail) ∧
  ∀ ref, ref = ProfilesRef host ∨ (∃ sid, sid ∈ map ss_SessionID (cd_Sessions detail) ∧ ref = provider_SessionRef host courseID sid) →
    ∃ db now md, rtc db_step db2 db ∧ rtc db_step db db3 ∧ Metadata ref now db = Ok md ∧
      usableSnapshot md = true ∧ ae_SourceValidatedAt res ≤ md_ValidatedAt md.

(** Its report: of that course, whole, its sessions those of the course, its students those of
    the specification over the rosters of the sessions, each current when it was read after
    the last check, under the identifiers the current profiles give them. *)
Record reports (host courseID : string) (threshold : Z) (env : ReportEnv) (res : AttendanceExportResult) (detail : CourseDetail)
    (db3 : DB) (rep : CourseAttendanceReport) : Prop := {
  rp_whole : cr_Errors rep = [] ∧ cr_Truncated rep = false;
  rp_size : (length (cr_Students rep) ≤ 5000)%nat ∧ (length (cr_Sessions rep) ≤ 200)%nat;
  rp_course : cr_CourseID rep = (if bool_decide (cs_CourseID (cd_Summary detail) = "") then courseID else cs_CourseID (cd_Summary detail));
  rp_threshold : 0 < threshold → cr_Threshold rep = threshold;
  rp_sessions : NoDup (map ss_SessionID (cr_Sessions rep)) ∧
    ∀ id, id ∈ map ss_SessionID (cr_Sessions rep) ↔ id ∈ map ss_SessionID (cd_Sessions detail);
  rp_rosters : ∀ j sess, cr_Sessions rep !! j = Some sess → ∃ r d db,
    final_results env (cr_Sessions rep) !! j = Some r ∧ session_rows r = sd_Students d ∧ rtc db_step db3 db ∧
    current_value (provider_SessionRef host (cr_CourseID rep) (ss_SessionID sess)) db (VSessionDetail d);
  rp_students : ∀ id st, (st ∈ cr_Students rep ∧ sa_StudentID st = id) ↔
    student_spec (cr_Threshold rep) (cr_Sessions rep) (final_results env (cr_Sessions rep)) id = Some st;
  rp_result : ∃ profiles db, rtc db_step db3 db ∧ current_value (ProfilesRef host) db (VProfiles profiles) ∧
    ae_Report res = set_students (EnrichStudentIDWithWCode (cr_Students rep) profiles) false rep
}.

Definition exported (host courseID : string) (threshold : Z) (env : ReportEnv) (res : AttendanceExportResult) (db2 db3 : DB) : Prop :=
  ∃ detail rep, verified_from host courseID res detail db2 db3 ∧ reports host courseID threshold env res detail db3 rep.

Lemma course_decoded host courseID ce c sn : GetCourseDetailWithName host courseID ce = Ok c →
  rd_Current (if read_cold (cv_Course ce) then cv_Again ce else cv_Course ce) = Ok sn →
  ∃ detail, json_Unmarshal SnapshotCourseDetail (sn_Payload sn) = Some (VCourseDetail detail) ∧
    map ss_SessionID (cd_Sessions c) = map ss_SessionID (cd_Sessions detail) ∧
    cs_CourseID (cd_Summary c) = cs_CourseID (cd_Summary detail).
Proof.
  unfold GetCourseDetailWithName, as_course. destruct (read _ _ _) as [v|] eqn:Er; [|done]. cbn [result_bind].
  destruct v as [|d| | | | | |]; try done. cbn [result_bind]. intros [= <-] Hc. apply read_sound in Er as (sn' & Hc' & _ & Hj).
  rewrite Hc in Hc'. injection Hc' as <-. exists d. split; [done|]. rewrite composed_sessions. split; [done|].
  unfold composeCourseDetail. destruct (overlaySessionCounts _ _ _ _ _) as [sessions [x y]]. cbn [cd_Summary].
  unfold overlayCatalogCourse. destruct (as_courses _ _) as [catalog|]; [|done]. by destruct (head _).
Qed.

Lemma session_decoded host courseID sessionID first again d db :
  provider_GetSessionDetail host courseID sessionID first again = Ok d →
  rd_Current (if read_cold first then again else first) = Current (provider_SessionRef host courseID sessionID) db →
  current_value (provider_SessionRef host courseID sessionID) db (VSessionDetail d).
Proof.
  unfold provider_GetSessionDetail, as_session. destruct (read _ _ _) as [v|] eqn:Er; [|done]. cbn [result_bind].
  destruct v; try done. cbn [result_bind]. intros [= <-] Hc. apply read_sound in Er as (sn & Hc' & _ & Hj).
  exists sn. split; [congruence|done].
Qed.

Lemma profiles_decoded host db now profiles :
  CurrentStudentProfiles host {| rd_Current := Current (ProfilesRef host) db; rd_Now := now |} = Ok profiles →
  current_value (ProfilesRef host) db (VProfiles profiles).
Proof.
  unfold CurrentStudentProfiles, as_profiles, readCurrent. cbn [rd_Current rd_Now].
  destruct (Current _ _) as [sn|] eqn:E; [|done]. destruct (snapshot_Expired _ _); [done|].
  destruct (json_Unmarshal _ _) as [v|] eqn:Ej; [|done]. cbn [result_bind]. destruct v; try done. intros [= ->]. by exists sn.
Qed.

(** The course of a pass, as it is current at its last check. *)
Lemma pass_course host courseID threshold restarts env res course md stable report profiles db1 db2 db3 :
  pass_ok host courseID threshold restarts env res course md stable report profiles → pass_history host courseID env db1 db2 db3 →
  ∃ detail, current_value (CourseRef host courseID) db3 (VCourseDetail detail) ∧
    map ss_SessionID (cd_Sessions course) = map ss_SessionID (cd_Sessions detail) ∧
    cs_CourseID (cd_Summary course) = cs_CourseID (cd_Summary detail).
Proof.
  intros [Pc Pm _ _ _ Ps Pq _ _ _ _ _ _] [R1 S12 S23 [now1 Hm] (ce & Hce & Hcur) _ [now3 Hst] _ _ _].
  rewrite Pc in Hce. destruct (GetCourseDetailWithName host courseID ce) as [c|] eqn:Eg; [|done]. cbn in Hce. injection Hce as <-.
  destruct (Current (CourseRef host courseID) db2) as [sn|] eqn:Ec2.
  2:{ exfalso. unfold GetCourseDetailWithName, as_course, read, readCurrent in Eg. by rewrite Hcur in Eg. }
  destruct (course_decoded _ _ _ _ _ Eg Hcur) as (detail & Hj & Hids & Hid).
  destruct (unmoved_snapshot (CourseRef host courseID) db1 db2 db3 now1 now3 md stable sn) as (sn3 & C3 & Hp); try done; try congruence.
  exists detail. split_and!; [|done|done]. exists sn3. split; [done|by rewrite Hp].
Qed.

Lemma pass_verified host courseID threshold restarts env res course md stable report profiles db1 db2 db3 detail :
  pass_ok host courseID threshold restarts env res course md stable report profiles → pass_history host courseID env db1 db2 db3 →
  current_value (CourseRef host courseID) db3 (VCourseDetail detail) →
  map ss_SessionID (cd_Sessions course) = map ss_SessionID (cd_Sessions detail) →
  verified_from host courseID res detail db2 db3.
Proof.
  intros P Hh Hcur Hids. split; [done|]. pose proof (po_course _ _ _ _ _ _ _ _ _ _ _ P) as Pc.
  destruct (verify_all_spec _ _ _ _ _ (po_verified _ _ _ _ _ _ _ _ _ _ _ P)) as (Hall & _). intros ref Href.
  assert (Hin : ∃ i, export_refs host courseID (uniqueAttendanceSessions (cd_Sessions course)) !! i = Some ref).
  { apply list_elem_of_lookup. unfold export_refs. destruct Href as [->|(sid & Hsid & ->)]; [left|right].
    destruct (unique_steps (cd_Sessions course)) as (_ & _ & He). rewrite <- Hids in Hsid. apply He in Hsid.
    change (map ?f ?l) with (f <$> l) in *. apply list_elem_of_fmap in Hsid as (s & -> & Hs).
    apply list_elem_of_fmap. by exists s. }
  destruct Hin as [i Hi]. destruct (ph_after _ _ _ _ _ _ Hh i course ref Pc Hi) as (db & now & Sa & Sb & E).
  destruct (Hall i) as (md' & Hr & Hu & Hle); [apply lookup_lt_Some in Hi; lia|]. rewrite E in Hr.
  by exists db, now, md'.
Qed.

Lemma read_sessions_spec courseID course :
  NoDup (map ss_SessionID (read_sessions courseID course)) ∧
  (∀ id, id ∈ map ss_SessionID (read_sessions courseID course) ↔ id ∈ map ss_SessionID (cd_Sessions course)).
Proof.
  unfold read_sessions. cbn [export_course cd_Sessions].
  destruct (unique_steps (uniqueAttendanceSessions (cd_Sessions course))) as (_ & Hn & He).
  destruct (unique_steps (cd_Sessions course)) as (_ & _ & He'). split; [exact Hn|].
  intros id. etransitivity; [apply He|apply He'].
Qed.

Lemma pass_reports host courseID threshold restarts env res course md stable report profiles db1 db2 db3 detail :
  pass_ok host courseID threshold restarts env res course md stable report profiles → pass_history host courseID env db1 db2 db3 →
  map ss_SessionID (cd_Sessions course) = map ss_SessionID (cd_Sessions detail) →
  cs_CourseID (cd_Summary course) = cs_CourseID (cd_Summary detail) →
  reports host courseID threshold (xe_Report env) res detail db3 report.
Proof.
  intros P Hh Hids Hid. pose proof (po_course _ _ _ _ _ _ _ _ _ _ _ P) as Pc.
  destruct (ph_jobs _ _ _ _ _ _ Hh course Pc) as (s & conc & canceled & Hr & Ho & Hp & Hc).
  destruct (po_whole _ _ _ _ _ _ _ _ _ _ _ P) as (Ht & _ & He).
  destruct (whole_report _ _ _ _ _ _ _ Hr Ho Hp Hc (po_report _ _ _ _ _ _ _ _ _ _ _ P) He) as (Ei & Es & Hth & Hros & Hst).
  fold (read_sessions courseID course) in *. destruct (read_sessions_spec courseID course) as [Hn Hs].
  assert (Ec : cs_CourseID (cd_Summary (export_course courseID course)) = cr_CourseID report) by done.
  split; rewrite ?Es.
  - done.
  - split; [exact (po_students _ _ _ _ _ _ _ _ _ _ _ P)|]. pose proof (po_sessions _ _ _ _ _ _ _ _ _ _ _ P) as Hl.
    etransitivity; [|exact Hl]. rewrite <- !(length_map ss_SessionID).
    apply submseteq_length, NoDup_submseteq; [done|]. intros x Hx%Hs. destruct (unique_steps (cd_Sessions course)) as (_ & _ & He').
    by apply He'.
  - rewrite Ei. cbn. by rewrite Hid.
  - exact Hth.
  - split; [done|]. intros id. by rewrite Hs, Hids.
  - intros j sess Hj. destruct (Hros j sess Hj) as (r & d & Hf & Ha & Hrows).
    destruct (ph_rosters _ _ _ _ _ _ Hh course j sess d Pc Hj Ha) as (db & first & again & Hst3 & Hg & Hcur).
    exists r, d, db. split_and!; [done|done|done|]. rewrite <- Ec. by eapply session_decoded.
  - exact Hst.
  - destruct (ph_profiles _ _ _ _ _ _ Hh) as (db & now & Hdb & Hpr). rewrite (po_profiles _ _ _ _ _ _ _ _ _ _ _ P) in Hpr.
    symmetry in Hpr. exists profiles, db. split_and!; [done|by eapply profiles_decoded|exact (po_result _ _ _ _ _ _ _ _ _ _ _ P)].
Qed.

Lemma pass_exported host courseID threshold restarts env res db1 db2 db3 :
  export_pass host courseID threshold restarts env = Ok (Some res) → pass_history host courseID env db1 db2 db3 →
  exported host courseID threshold (xe_Report env) res db2 db3 ∧ ae_RestartCount res = restarts.
Proof.
  intros (course & md & stable & report & profiles & P)%export_pass_ok Hh.
  destruct (pass_course _ _ _ _ _ _ _ _ _ _ _ _ _ _ P Hh) as (detail & Hcur & Hids & Hid).
  split; [|exact (po_restarts _ _ _ _ _ _ _ _ _ _ _ P)]. exists detail, report.
  split; [by eapply pass_verified|by eapply pass_reports].
Qed.

(** C37: the fresh export.  When the answers of its passes come from the store, whatever other
    transactions run between its calls, a returned export is that of its first pass, or of the
    second after one restart, and stands for the course as it is current when the last check of
    that pass is made.  The profiles and every session of the course had, since the course was
    read, a complete and freshly verified snapshot, none validated before the time the export
    states.  Its report is that of this course: it has no errors and is not truncated, lists
    exactly the sessions of the course, each once, and its students are exactly those of the
    declarative specification over the rosters of the sessions, each of which is that of the
    snapshot current when it was read after the last check; the export changes nothing in it
    but the identifiers of students the current profiles know. *)
Theorem export_consistent host courseID threshold first second res dbs1 dbs2 :
  pass_history host courseID first dbs1.1.1 dbs1.1.2 dbs1.2 →
  (export_pass host courseID threshold 0 first = Ok None → pass_history host courseID second dbs2.1.1 dbs2.1.2 dbs2.2) →
  GetFreshAttendanceExport host courseID threshold first second = Ok res →
  (ae_RestartCount res = 0 ∧ exported host courseID threshold (xe_Report first) res dbs1.1.2 dbs1.2) ∨
  (ae_RestartCount res = 1 ∧ export_pass host courseID threshold 0 first = Ok None ∧
   exported host courseID threshold (xe_Report second) res dbs2.1.2 dbs2.2).
Proof.
  intros H1 H2. unfold GetFreshAttendanceExport.
  destruct (export_pass host courseID threshold 0 first) as [[r|]|] eqn:E1; [| |done]; cbn [result_bind].
  - intros [= <-]. left. by destruct (pass_exported _ _ _ _ _ _ _ _ _ E1 H1).
  - destruct (export_pass host courseID threshold 1 second) as [[r'|]|] eqn:E2; [| |done]; cbn [result_bind]; [|done].
    intros [= <-]. right. by destruct (pass_exported _ _ _ _ _ _ _ _ _ E2 (H2 eq_refl)).
Qed.
End store.

(** * The freshness of a report *)

(** The composite is stale if a part is, complete if all are, and as fresh as its parts say. *)
Lemma freshness_composite courseID course l :
  let c := composite_metadata courseID course l in
  md_Stale c = existsb md_Stale (course :: l) ∧ md_Complete c = forallb md_Complete (course :: l) ∧
  md_QualityState c = (if forallb (λ m, bool_decide (md_QualityState m = DataQualityVerifiedFresh)) (course :: l)
                       then DataQualityVerifiedFresh else DataQualityVerifiedStale) ∧
  (∀ m, m ∈ course :: l → md_ValidationSeq m ≤ md_ValidationSeq c) ∧ md_Version c = md_ValidationSeq c.
Proof.
  unfold composite_metadata. generalize (course :: l). intros parts. cbv zeta. cbn [md_Stale md_Complete md_QualityState md_ValidationSeq md_Version].
  set (c0 := Build_SnapshotMetadata _ _ _ _ _ _ _ _ _ _ _).
  assert (Hg : ∀ c, let c' := foldl composite_step c parts in
    md_Stale c' = md_Stale c || existsb md_Stale parts ∧ md_Complete c' = md_Complete c && forallb md_Complete parts ∧
    md_QualityState c' = (if forallb (λ m, bool_decide (md_QualityState m = DataQualityVerifiedFresh)) parts
                          then md_QualityState c else DataQualityVerifiedStale) ∧
    md_ValidationSeq c ≤ md_ValidationSeq c' ∧ (∀ m, m ∈ parts → md_ValidationSeq m ≤ md_ValidationSeq c')).
  { cbv zeta. induction parts as [|m parts IH]; intros c; cbn [foldl existsb forallb].
    - rewrite orb_false_r, andb_true_r. split_and!; try done. intros m Hm. by apply not_elem_of_nil in Hm.
    - destruct (IH (composite_step c m)) as (-> & -> & -> & Hs & Hm). cbn [composite_step md_Stale md_Complete md_QualityState md_ValidationSeq] in *.
      split_and!.
      + by destruct (md_Stale m), (md_Stale c).
      + by destruct (md_Complete m), (md_Complete c).
      + case_bool_decide; cbn [andb]; [done|]. match goal with |- (if ?b then _ else _) = _ => by destruct b end.
      + destruct (Z.ltb_spec (md_ValidationSeq c) (md_ValidationSeq m)); lia.
      + intros x [->|Hx]%elem_of_cons; [|by apply Hm]. destruct (Z.ltb_spec (md_ValidationSeq c) (md_ValidationSeq m)); lia. }
  destruct (Hg c0) as (-> & -> & -> & _ & Hm). by split_and!.
Qed.
