(* ===== verification/ExportWitnesses.v ===== *)
(** A store with a course, its session and the profiles, published by the modelled methods,
    and an export from it. *)

From stdpp Require Import base list list_numbers numbers strings gmap relations.
From Stdlib Require Import ZArith QArith Lia.
From S2P Require Import Prelude Float64 Domain Policy Canonical Validation Tables Leases Reads Commit HostState Store System.
From S2P Require Import Coordinator Demo Jobs Report ReportSpec Provider ProviderSpec Export ExportSpec.

Local Open Scope Z_scope.
Local Open Scope stdpp_scope.
Local Open Scope go_scope.

Definition one_session : SessionSummary :=
  {| ss_SessionID := "s1"; ss_SessionNumber := 1; ss_Name := "one"; ss_Date := "2024-01-08"; ss_CheckedInCount := 1;
     ss_TotalStudents := 1; ss_Status := SessionStatusDone |}.

Definition one_course : CourseDetail :=
  {| cd_Summary := {| cs_CourseID := "c"; cs_Name := "Logic"; cs_StartDate := ""; cs_EndDate := ""; cs_EnrolledCount := 1;
                      cs_TotalSessions := 1; cs_CompletedSessions := 1; cs_AvgAttendanceRate := 0; cs_Status := CourseStatusActive |};
     cd_Sessions := [one_session] |}.

Definition one_roster : SessionDetail :=
  {| sd_Summary := one_session;
     sd_Students := [ {| sc_StudentID := "g1"; sc_Name := "ann"; sc_Nickname := ""; sc_School := ""; sc_AvatarURL := "";
                         sc_CheckedIn := true; sc_CheckedInAt := None; sc_ParticipationPoints := 0 |} ];
     sd_QRActive := false; sd_QRExpiresAt := None |}.

Definition one_profile : StudentProfile := {| sp_StudentID := "w1"; sp_StudentGuid := "g1"; sp_FullName := "ann"; sp_School := "s" |}.

(** The library of [Demo], which also decodes what the store holds. *)
Definition export_lib : GoLib := {|
  json_Marshal := demo_marshal;
  json_MarshalMetadata := λ m, md_ResourceKey m;
  json_Unmarshal := λ k _, match k with SnapshotCourseDetail => Some (VCourseDetail one_course)
                                | SnapshotSessionDetail => Some (VSessionDetail one_roster)
                                | SnapshotStudentProfiles => Some (VProfiles [one_profile]) | _ => None end;
  json_Valid := nonempty;
  sha256_Sum256 := @sha256_Sum256 demo_lib;
  rfc3339_Parse := @rfc3339_Parse demo_lib;
  rfc3339_FormatUTC := @rfc3339_FormatUTC demo_lib
|}.
#[local] Existing Instance export_lib | 0.

(** * The store *)

Definition export_seeds : list TargetSeed :=
  [child_seed (CourseRef "h" "c") "{}" 10 (PolicyFor SnapshotCourseDetail SessionStatusActive) T0;
   child_seed (provider_SessionRef "h" "c" "s1") "{}" 20 (PolicyFor SnapshotSessionDetail SessionStatusActive) T0;
   child_seed (ProfilesRef "h") "{}" 30 (PolicyFor SnapshotStudentProfiles SessionStatusActive) T0].

Definition x_hosted : DB := get empty_db (SeedHost demo_host T0 empty_db).
Definition x_seeded : DB := get empty_db (Seed export_seeds x_hosted).
Definition x_claimed : DB * list ScrapeTarget := get (empty_db, []) (ClaimDue claim_1 ∅ x_seeded).

Definition fetched (v : Value) : SnapshotFetchResult :=
  {| fr_Value := v; fr_Metadata := metadata_200; fr_BytesRead := 10; fr_ReportedCount := 1; fr_ExpectedPages := 1; fr_FetchedPages := 1 |}.

(** Each claimed target is committed with its value. *)
Definition value_of (t : ScrapeTarget) : Value :=
  match ref_Kind (st_Ref t) with
  | SnapshotCourseDetail => VCourseDetail one_course
  | SnapshotSessionDetail => VSessionDetail one_roster
  | _ => VProfiles [one_profile]
  end.

Definition commit_target (t : ScrapeTarget) : CommitInput := input_of t (fetched (value_of t)) None (Err ErrSnapshotNotFound) T0.

Definition commit_next (db : DB) (t : ScrapeTarget) : DB := (get (db, no_result) (Commit (commit_target t) T0 T0 db)).1.

Definition x_db : DB := foldl commit_next x_claimed.1 x_claimed.2.

Lemma x_reachable : reachable x_db.
Proof.
  assert (R1 : reachable x_claimed.1).
  { eapply rtc_r; [eapply rtc_r; [apply rtc_once; eapply step_SeedHost with (seed := demo_host) (now := T0);
      apply (get_ok empty_db); vm_compute; reflexivity|]|].
    - eapply step_Seed with (seeds := export_seeds). apply (get_ok empty_db). vm_compute. reflexivity.
    - eapply step_ClaimDue with (req := claim_1) (locked := ∅). rewrite <- surjective_pairing. apply (get_ok (empty_db, [])).
      vm_compute. reflexivity. }
  unfold x_db. revert R1. generalize x_claimed.1. induction (x_claimed.2) as [|t ts IH]; intros db R; [done|]. cbn [foldl]. apply IH.
  unfold commit_next. destruct (Commit _ _ _ _) as [[db' r]|] eqn:E; cbn; [|done]. eapply rtc_r; [exact R|]. by eapply step_Commit.
Qed.

Definition x_now : Z := T0 + Minute.

Example x_usable :
  map (λ ref, match Metadata ref x_now x_db with Ok md => (usableSnapshot md, md_ValidationSeq md) | Err _ => (false, 0) end)
    [CourseRef "h" "c"; provider_SessionRef "h" "c" "s1"; ProfilesRef "h"] = [(true, 1); (true, 1); (true, 1)].
Proof. vm_compute. reflexivity. Qed.

(** * The export *)

Definition x_read (ref : TargetRef) : ReadEnv := {| rd_Current := Current ref x_db; rd_Now := x_now |}.

Definition x_course_env : CourseEnv :=
  {| cv_Course := x_read (CourseRef "h" "c"); cv_Again := x_read (CourseRef "h" "c"); cv_Catalog := x_read (CatalogRef "h");
     cv_Session := λ _, x_read (provider_SessionRef "h" "c" "s1"); cv_Order := [0%nat] |}.

Definition x_metadata (i : nat) : result RepoError SnapshotMetadata :=
  Metadata (match i with 0%nat => ProfilesRef "h" | _ => provider_SessionRef "h" "c" "s1" end) x_now x_db.

(** The job of the one session is answered with its roster. *)
Definition x_renv : ReportEnv :=
  {| rv_Order := [0%nat];
     rv_Trace := λ _, {| ft_First := Ok (Some one_roster); ft_Err1 := false; ft_Err2 := false; ft_Done := false;
                         ft_PickDone := false; ft_DoneFirst := false; ft_Retry := Ok None |};
     rv_JobErr := false; rv_CtxErr := false; rv_Walk := ["g1"]; rv_Start := x_now; rv_DurationMs := 0 |}.

Definition x_env : ExportEnv :=
  {| xe_Base := Metadata (CourseRef "h" "c") x_now x_db; xe_CourseRefresh := None;
     xe_Meta := Metadata (CourseRef "h" "c") x_now x_db;
     xe_Course := (let* c := GetCourseDetailWithName "h" "c" x_course_env in Ok (Some c)); xe_Baseline := x_metadata;
     xe_JobErr := false; xe_RefreshErr := λ _, None; xe_After := x_metadata; xe_Stable := Metadata (CourseRef "h" "c") x_now x_db;
     xe_Fetcher := true; xe_Report := x_renv; xe_CtxErr := false;
     xe_Profiles := CurrentStudentProfiles "h" (x_read (ProfilesRef "h")); xe_DurationMs := 0 |}.

Lemma x_history : pass_history "h" "c" x_env x_db x_db x_db.
Proof.
  split.
  - exact x_reachable.
  - apply rtc_refl.
  - apply rtc_refl.
  - by exists x_now.
  - exists x_course_env. split; [reflexivity|]. vm_compute. reflexivity.
  - intros i course ref Hc Hi. exists x_db, x_now. split_and!; [apply rtc_refl|apply rtc_refl|].
    assert (Hs : map ss_SessionID (uniqueAttendanceSessions (cd_Sessions course)) = ["s1"]).
    { vm_compute in Hc. injection Hc as <-. reflexivity. }
    clear Hc.
    destruct (uniqueAttendanceSessions (cd_Sessions course)) as [|s [|]]; try done. injection Hs as Hs.
    assert (Hr : ref = match i with 0%nat => ProfilesRef "h" | _ => provider_SessionRef "h" "c" "s1" end).
    { destruct i as [|[|i]]; [by injection Hi|injection Hi as <-; by rewrite Hs|discriminate]. }
    rewrite Hr. reflexivity.
  - by exists x_now.
  - intros course Hc. assert (Hn : length (read_sessions "c" course) = 1%nat).
    { vm_compute in Hc. injection Hc as <-. vm_compute. reflexivity. }
    rewrite Hn. clear Hc Hn.
    destruct (jobs_run 1 (map OpWorker [0; 0; 0; 0]%nat) (jobs_start 1 1 false)) as [s|] eqn:Ej; [|vm_compute in Ej; discriminate].
    exists s, 1, false. split; [exact (jobs_run_reachable _ _ _ _ Ej)|]. vm_compute in Ej. injection Ej as <-. by split_and!.
  - intros course j sess d Hc Hj [Ha|(e & Ha & _)]; [|discriminate Ha]. injection Ha as <-.
    vm_compute in Hc. injection Hc as <-. vm_compute in Hj. destruct j as [|j]; [|destruct j; discriminate Hj].
    injection Hj as <-. exists x_db, (x_read (provider_SessionRef "h" "c" "s1")), (x_read (provider_SessionRef "h" "c" "s1")).
    split; [apply rtc_refl|]. split; vm_compute; reflexivity.
  - exists x_db, x_now. split; [apply rtc_refl|reflexivity].
Qed.

Definition x_result : AttendanceExportResult :=
  match GetFreshAttendanceExport "h" "c" 1 x_env x_env with
  | Ok r => r
  | Err _ => {| ae_Report := empty_report "" "" [] [] false 1 0 0; ae_Source := ""; ae_ExportedAt := 0; ae_SourceValidatedAt := 0;
                ae_RestartCount := 0; ae_FreshnessDurationMs := 0 |}
  end.

Lemma export_consistent_witness :
  GetFreshAttendanceExport "h" "c" 1 x_env x_env = Ok x_result ∧
  map (λ s, (sa_StudentID s, sa_AttendedSessions s)) (cr_Students (ae_Report x_result)) = [("w1", 1)] ∧
  ae_RestartCount x_result = 0 ∧ exported "h" "c" 1 x_renv x_result x_db x_db.
Proof.
  assert (E : GetFreshAttendanceExport "h" "c" 1 x_env x_env = Ok x_result) by (vm_compute; reflexivity).
  split; [exact E|]. split; [vm_compute; reflexivity|].
  destruct (export_consistent "h" "c" 1 x_env x_env x_result (x_db, x_db, x_db) (x_db, x_db, x_db) x_history (λ _, x_history) E)
    as [H|(Hr & _)]; [exact H|]. vm_compute in Hr. discriminate Hr.
Defined.
