(* ===== verification/RateLimit.v ===== *)
(** The per-client request limiter, [internal/middleware/ratelimit.go]: a token bucket per
    client address, a cap on the number of buckets and a goroutine that drops idle ones.

    The limiter is one mutex-protected value; every method is one critical section, so an
    execution is a sequence of events: requests, ticks of the cleanup goroutine, changes
    of the interval and the stop.  [time.Now] is read where the code reads it.

    Theorems about the request limiter of [RateLimit]: dropping idle buckets cannot be
    observed, and what a client can get through. *)

From stdpp Require Import base list numbers strings gmap fin_maps fin_sets.
From Stdlib Require Import ZArith QArith Qround Lia Lqa Qminmax.
From S2P Require Import Prelude Float64 HostState.

Local Open Scope Z_scope.
Local Open Scope stdpp_scope.
Local Open Scope go_scope.

(** * The limiter *)

Record rateLimiterEntry := mkEntry {
  tokens : Q;
  lastRefill : Z
}.

(** [rl_stopped] is the closed channel, [rl_looping] the running cleanup goroutine. *)
Record IPRateLimiter := mkLimiter {
  visitors : gmap string rateLimiterEntry;
  rate : Q;
  rl_burst : Z;
  maxVisitors : Z;
  cleanupInterval : Z;
  rl_stopped : bool;
  rl_looping : bool
}.

Definition defaultMaxVisitors : Z := 100000.

Definition NewIPRateLimiter (r : Q) (b : Z) : IPRateLimiter :=
  mkLimiter ∅ r b defaultMaxVisitors (5 * Minute) false true.

(** The limiters of the router ([api/routes.go]). *)
Record RateLimiters := mkRateLimiters {
  teacher : IPRateLimiter;
  toggle : IPRateLimiter;
  room : IPRateLimiter
}.

Definition router_limiters : RateLimiters :=
  mkRateLimiters (NewIPRateLimiter 15 40) (NewIPRateLimiter 8 20) (NewIPRateLimiter 25 60).

Definition set_visitors (v : gmap string rateLimiterEntry) (l : IPRateLimiter) : IPRateLimiter :=
  mkLimiter v (rate l) (rl_burst l) (maxVisitors l) (cleanupInterval l) (rl_stopped l) (rl_looping l).

Definition Stop (l : IPRateLimiter) : IPRateLimiter :=
  mkLimiter (visitors l) (rate l) (rl_burst l) (maxVisitors l) (cleanupInterval l) true (rl_looping l).

Definition RateLimiters_Stop (rl : RateLimiters) : RateLimiters :=
  mkRateLimiters (Stop (teacher rl)) (Stop (toggle rl)) (Stop (room rl)).

Definition SetCleanupInterval (d : Z) (l : IPRateLimiter) : IPRateLimiter :=
  mkLimiter (visitors l) (rate l) (rl_burst l) (maxVisitors l) d (rl_stopped l) (rl_looping l).

(** The bucket of a client, a full one for a new client, none when the table is full. *)
Definition visitor_entry (l : IPRateLimiter) (ip : string) (created : Z) : option rateLimiterEntry :=
  match visitors l !! ip with
  | Some e => Some e
  | None =>
      if (0 <? maxVisitors l) && (maxVisitors l <=? Z.of_nat (size (visitors l))) then None
      else Some (mkEntry (f_of_int (rl_burst l)) created)
  end.

(** The tokens of a bucket at [now]. *)
Definition refill (r : Q) (b : Z) (e : rateLimiterEntry) (now : Z) : Q :=
  let elapsed := Seconds (time_Sub now (lastRefill e)) in
  let t := fadd (tokens e) (fmul elapsed r) in
  if fgt t (f_of_int b) then f_of_int b else t.

(** Refill a bucket and take a token from it if there is one. *)
Definition take_token (r : Q) (b : Z) (e : rateLimiterEntry) (now : Z) : rateLimiterEntry * bool :=
  let t := refill r b e now in
  if Qle_bool 1 t then (mkEntry (fsub t 1) now, true) else (mkEntry t now, false).

Definition Allow (l : IPRateLimiter) (ip : string) (created now : Z) : IPRateLimiter * bool :=
  match visitor_entry l ip created with
  | None => (l, false)
  | Some entry =>
      let (entry', ok) := take_token (rate l) (rl_burst l) entry now in
      (set_visitors (<[ip := entry']> (visitors l)) l, ok)
  end.

Definition removeStale (l : IPRateLimiter) (now : Z) : IPRateLimiter :=
  let threshold := time_Add now (- cleanupInterval l) in
  set_visitors (filter (λ kv, time_Before (lastRefill kv.2) threshold = false) (visitors l)) l.

(** * Requests *)

(** What the limiter reads of a request: the first X-Real-IP header and the peer. *)
Record Request := mkRequest {
  rq_XRealIP : string;
  rq_RemoteAddr : string
}.

(** The part before the last colon. *)
Fixpoint before_last_colon (s : string) : option string :=
  match s with
  | EmptyString => None
  | String c s' =>
      match before_last_colon s' with
      | Some p => Some (String c p)
      | None => if Ascii.eqb c (Ascii.ascii_of_nat 58) then Some EmptyString else None
      end
  end.

Definition extractIP (r : Request) : string :=
  if nonempty (rq_XRealIP r) then rq_XRealIP r
  else match before_last_colon (rq_RemoteAddr r) with
       | Some ip => ip
       | None => rq_RemoteAddr r
       end.

(** What a client gets: the next handler's answer, or 429 with its headers and body. *)
Inductive Reply :=
| ServeNext
| Refused (code : Z) (contentType retryAfter error : string) (retryAfterMs : Z).

Definition too_many : Reply :=
  Refused 429 "application/json" "1" "rate limit exceeded" 1000.

Definition Middleware (l : IPRateLimiter) (r : Request) (created now : Z) : IPRateLimiter * Reply :=
  let (l', ok) := Allow l (extractIP r) created now in
  (l', if ok then ServeNext else too_many).

(** * Executions *)

Inductive rl_event :=
| EvRequest (r : Request) (created now : Z)
| EvTick (now : Z)
| EvInterval (d : Z)
| EvStop
| EvLoopExit.

(** One step and its reply; a tick is taken while the cleanup goroutine runs, and the
    goroutine ends once the channel is closed. *)
Definition rl_step (l : IPRateLimiter) (e : rl_event) : option (IPRateLimiter * option Reply) :=
  match e with
  | EvRequest r created now => let (l', a) := Middleware l r created now in Some (l', Some a)
  | EvTick now => if rl_looping l then Some (removeStale l now, None) else None
  | EvInterval d => Some (SetCleanupInterval d l, None)
  | EvStop => Some (Stop l, None)
  | EvLoopExit =>
      if rl_stopped l && rl_looping l
      then Some (mkLimiter (visitors l) (rate l) (rl_burst l) (maxVisitors l) (cleanupInterval l) true false, None)
      else None
  end.

(** A run, with the replies to its requests in order. *)
Fixpoint rl_run (l : IPRateLimiter) (es : list rl_event) : option (IPRateLimiter * list Reply) :=
  match es with
  | [] => Some (l, [])
  | e :: es' =>
      match rl_step l e with
      | None => None
      | Some (l1, a) =>
          match rl_run l1 es' with
          | None => None
          | Some (l2, rs) => Some (l2, match a with Some x => x :: rs | None => rs end)
          end
      end
  end.

(** The clock of a run never goes back: [from] is the time so far. *)
Fixpoint clock_ok (from : Z) (es : list rl_event) : Prop :=
  match es with
  | [] => True
  | EvRequest _ created now :: es' => from ≤ created ∧ created ≤ now ∧ clock_ok now es'
  | EvTick now :: es' => from ≤ now ∧ clock_ok now es'
  | _ :: es' => clock_ok from es'
  end.

(** Every interval set is long enough to fill an empty bucket. *)
Definition interval_fills (r : Q) (b : Z) (d : Z) : Prop :=
  0 ≤ d ≤ max_int64 ∧ (f_of_int b <= fmul (Seconds d) r)%Q.

Definition intervals_fill (r : Q) (b : Z) (es : list rl_event) : Prop :=
  Forall (λ e, match e with EvInterval d => interval_fills r b d | _ => True end) es.

(** * The reference limiter *)

(** One bucket per client for ever, no cleanup and no cap. *)
Definition ref_request (r : Q) (b : Z) (m : gmap string rateLimiterEntry) (ip : string) (created now : Z)
    : gmap string rateLimiterEntry * bool :=
  let e := match m !! ip with Some e => e | None => mkEntry (f_of_int b) created end in
  let (e', ok) := take_token r b e now in (<[ip := e']> m, ok).

Definition reply_of (ok : bool) : Reply := if ok then ServeNext else too_many.

(** The replies of the reference limiter; a request without room in the table ([rooms] has
    one flag per request) is refused and leaves no trace. *)
Fixpoint ref_replies (r : Q) (b : Z) (m : gmap string rateLimiterEntry) (rooms : list bool)
    (es : list rl_event) : list Reply :=
  match es with
  | [] => []
  | EvRequest rq created now :: es' =>
      match rooms with
      | true :: rooms' =>
          let (m', ok) := ref_request r b m (extractIP rq) created now in
          reply_of ok :: ref_replies r b m' rooms' es'
      | _ => too_many :: ref_replies r b m (tail rooms) es'
      end
  | _ :: es' => ref_replies r b m rooms es'
  end.

(** Whether the table had room for each request of a run. *)
Fixpoint room_flags (l : IPRateLimiter) (es : list rl_event) : list bool :=
  match es with
  | [] => []
  | e :: es' =>
      let rest := match rl_step l e with Some (l', _) => room_flags l' es' | None => [] end in
      match e with
      | EvRequest rq created _ => bool_decide (is_Some (visitor_entry l (extractIP rq) created)) :: rest
      | _ => rest
      end
  end.

(** The clients of a run. *)
Definition clients (es : list rl_event) : gset string :=
  list_to_set (omap (λ e, match e with EvRequest rq _ _ => Some (extractIP rq) | _ => None end) es).

(** * Seconds of a duration *)

Lemma rne_nonneg x : (0 <= x)%Q → (0 <= rne x)%Q.
Proof. intros H. apply (rne_ge_int x 0); [lia|exact H]. Qed.

Lemma seconds_frac d :
  0 ≤ d → (0 <= fdiv (f_of_int (Z.rem d Second)) (f_of_int 1000000000))%Q ∧
          (fdiv (f_of_int (Z.rem d Second)) (f_of_int 1000000000) <= 1)%Q.
Proof.
  intros Hd. pose proof (Z.rem_bound_pos d Second Hd ltac:(reflexivity)) as Hr.
  unfold Second in Hr. unfold fdiv.
  assert (E : (f_of_int (Z.rem d Second) / f_of_int 1000000000 == inject_Z (Z.rem d Second) / inject_Z 1000000000)%Q).
  { rewrite !f_of_int_exact by (unfold Second; lia). reflexivity. }
  rewrite E. assert (Hle : (inject_Z 0 <= inject_Z (Z.rem d Second))%Q) by (rewrite <- Zle_Qle; apply Hr).
  assert (Hlt : (inject_Z (Z.rem d Second) <= inject_Z 1000000000)%Q) by (rewrite <- Zle_Qle; unfold Second; lia).
  assert (Hp : (0 < inject_Z 1000000000)%Q) by reflexivity.
  split.
  - apply rne_nonneg. apply Qle_shift_div_l; [exact Hp|]. change (inject_Z 0) with 0%Q in Hle. lra.
  - apply (rne_le_int _ 1); [lia|]. apply Qle_shift_div_r; [exact Hp|]. change (inject_Z 1) with 1%Q. lra.
Qed.

Lemma seconds_quot d : 0 ≤ d ≤ max_int64 → (f_of_int (Z.quot d Second) == inject_Z (Z.quot d Second))%Q.
Proof.
  intros [H0 H1]. apply f_of_int_exact. unfold max_int64, Second in *.
  rewrite Z.quot_div_nonneg by lia. pose proof (Z.div_pos d 1000000000 H0 ltac:(lia)).
  assert (d / 1000000000 ≤ 2 ^ 63 / 1000000000) by (apply Z.div_le_mono; lia).
  rewrite Z.abs_eq by lia. assert (2 ^ 63 / 1000000000 ≤ 2 ^ 53) by (vm_compute; discriminate). lia.
Qed.

Lemma Seconds_nonneg d : 0 ≤ d ≤ max_int64 → (0 <= Seconds d)%Q.
Proof.
  intros Hd. unfold Seconds, fadd. apply rne_nonneg.
  rewrite seconds_quot by exact Hd. destruct (seconds_frac d ltac:(lia)) as [H _].
  assert (Hq : (inject_Z 0 <= inject_Z (Z.quot d Second))%Q).
  { rewrite <- Zle_Qle. apply Z.quot_pos; unfold Second; lia. }
  change (inject_Z 0) with 0%Q in Hq. lra.
Qed.

Lemma Seconds_mono d d' : 0 ≤ d → d ≤ d' → d' ≤ max_int64 → (Seconds d <= Seconds d')%Q.
Proof.
  intros H0 H1 H2. unfold Seconds, fadd. apply rne_mono.
  rewrite !seconds_quot by lia.
  destruct (seconds_frac d H0) as [_ Hu]. destruct (seconds_frac d' ltac:(lia)) as [Hl _].
  pose proof (Z.quot_rem' d Second) as E. pose proof (Z.quot_rem' d' Second) as E'.
  destruct (Z.eq_dec (Z.quot d Second) (Z.quot d' Second)) as [Eq|Ne].
  - rewrite Eq. apply Qplus_le_compat; [apply Qle_refl|].
    unfold fdiv. apply rne_mono. unfold Qdiv. apply Qmult_le_compat_r; [|vm_compute; discriminate].
    unfold f_of_int. apply rne_mono. rewrite <- Zle_Qle. lia.
  - assert (Hlt : Z.quot d Second + 1 ≤ Z.quot d' Second).
    { assert (Z.quot d Second ≤ Z.quot d' Second) by (apply Z.quot_le_mono; unfold Second; lia). lia. }
    rewrite Zle_Qle, inject_Z_plus in Hlt. change (inject_Z 1) with 1%Q in Hlt. lra.
Qed.

(** * Buckets *)

Section bucket.
Variables (r : Q) (b : Z).
Hypothesis Hr : (0 <= r)%Q.
Hypothesis Hb : 0 ≤ b ≤ 2 ^ 53.

Definition entry_eq (e e' : rateLimiterEntry) : Prop :=
  (tokens e == tokens e')%Q ∧ lastRefill e = lastRefill e'.

(** A bucket that is full whenever it is used from [t] on. *)
Definition filled (e : rateLimiterEntry) (t : Z) : Prop :=
  ∀ now, t ≤ now → (refill r b e now == f_of_int b)%Q.

(** What every bucket satisfies at time [t]. *)
Definition entry_ok (e : rateLimiterEntry) (t : Z) : Prop :=
  (0 <= tokens e)%Q ∧ (tokens e <= f_of_int b)%Q ∧ lastRefill e ≤ t.

Lemma burst_float : (f_of_int b == inject_Z b)%Q.
Proof. apply f_of_int_exact. lia. Qed.

Lemma burst_nonneg : (0 <= f_of_int b)%Q.
Proof. rewrite burst_float. change 0%Q with (inject_Z 0). rewrite <- Zle_Qle. lia. Qed.

Lemma elapsed_range last now : last ≤ now → 0 ≤ time_Sub now last ≤ max_int64.
Proof.
  intros H. unfold time_Sub. pose proof (clamp64_bounds (now - last)) as [H1 H2].
  unfold clamp64, min_int64, max_int64 in *. lia.
Qed.

Lemma gain_nonneg last now : last ≤ now → (0 <= fmul (Seconds (time_Sub now last)) r)%Q.
Proof.
  intros H. unfold fmul. apply rne_nonneg, Qmult_le_0_compat; [|exact Hr].
  apply Seconds_nonneg, elapsed_range, H.
Qed.

Lemma refill_le e now : (refill r b e now <= f_of_int b)%Q.
Proof.
  unfold refill. destruct (fgt _ _) eqn:E; [apply Qle_refl|]. apply fgt_false in E. exact E.
Qed.

Lemma refill_nonneg e t now : entry_ok e t → t ≤ now → (0 <= refill r b e now)%Q.
Proof.
  intros (H0 & _ & Hl) Ht. unfold refill. destruct (fgt _ _); [apply burst_nonneg|].
  unfold fadd. apply rne_nonneg. pose proof (gain_nonneg (lastRefill e) now ltac:(lia)). lra.
Qed.

Lemma refill_full e t now :
  entry_ok e t → t ≤ now → (f_of_int b <= fmul (Seconds (time_Sub now (lastRefill e))) r)%Q →
  (refill r b e now == f_of_int b)%Q.
Proof.
  intros (H0 & _ & Hl) Ht Hg. apply Qle_antisym; [apply refill_le|].
  unfold refill. destruct (fgt _ _); [apply Qle_refl|]. unfold fadd.
  rewrite burst_float in *. apply rne_ge_int; [lia|]. lra.
Qed.

Lemma refill_fresh created now :
  created ≤ now → (refill r b (mkEntry (f_of_int b) created) now == f_of_int b)%Q.
Proof.
  intros H. apply Qle_antisym; [apply refill_le|].
  unfold refill. destruct (fgt _ _); [apply Qle_refl|]. unfold fadd. cbn [tokens lastRefill].
  pose proof (gain_nonneg created now H). rewrite burst_float in *. apply rne_ge_int; [lia|]. lra.
Qed.

Lemma refill_eq e e' now : entry_eq e e' → (refill r b e now == refill r b e' now)%Q.
Proof.
  intros [Ht Hl]. unfold refill. rewrite Hl.
  set (g := fmul (Seconds (time_Sub now (lastRefill e'))) r).
  assert (E : (fadd (tokens e) g == fadd (tokens e') g)%Q) by (rewrite Ht; reflexivity).
  unfold fgt. rewrite E. destruct (negb _); [reflexivity|exact E].
Qed.

Lemma stale_filled e t now d :
  entry_ok e t → t ≤ now → interval_fills r b d → lastRefill e < now - d → filled e now.
Proof.
  intros He Ht [Hd Hf] Hs t' Ht'. apply (refill_full e now).
  - destruct He as (H0 & H1 & Hl). repeat split; [exact H0|exact H1|lia].
  - exact Ht'.
  - eapply Qle_trans; [exact Hf|]. unfold fmul. apply rne_mono, Qmult_le_compat_r; [|exact Hr].
    apply Seconds_mono; [lia| |apply elapsed_range; destruct He as (_ & _ & Hl); lia].
    unfold time_Sub, clamp64, max_int64, min_int64 in *. lia.
Qed.

(** Buckets with the same tokens at [now] answer alike and stay alike. *)
Lemma take_token_alike e e' now :
  (refill r b e now == refill r b e' now)%Q →
  (take_token r b e now).2 = (take_token r b e' now).2 ∧
  entry_eq (take_token r b e now).1 (take_token r b e' now).1.
Proof.
  intros E. unfold take_token, entry_eq. cbv zeta.
  assert (Eb : Qle_bool 1 (refill r b e now) = Qle_bool 1 (refill r b e' now)) by (rewrite E; reflexivity).
  rewrite Eb. destruct (Qle_bool 1 (refill r b e' now)); cbn [fst snd tokens lastRefill];
    (split; [reflexivity|split; [|reflexivity]]); [rewrite E; reflexivity|exact E].
Qed.

Lemma take_token_ok e t now :
  entry_ok e t → t ≤ now → entry_ok (take_token r b e now).1 now.
Proof.
  intros He Ht. pose proof (refill_nonneg e t now He Ht) as H0. pose proof (refill_le e now) as H1.
  unfold take_token. cbv zeta. destruct (Qle_bool 1 _) eqn:E; cbn [fst];
    unfold entry_ok; cbn [tokens lastRefill]; (split; [|split; [|lia]]); [| |exact H0|exact H1].
  - apply Qle_bool_iff in E. unfold fsub. apply rne_nonneg. lra.
  - rewrite burst_float in *. unfold fsub. apply rne_le_int; [lia|]. lra.
Qed.

Lemma fresh_ok created now : created ≤ now → entry_ok (mkEntry (f_of_int b) created) now.
Proof. intros H. repeat split; [apply burst_nonneg|apply Qle_refl|exact H]. Qed.

End bucket.

(** * The limiter against the reference *)

Section simulation.
Variables (r : Q) (b : Z).
Hypothesis Hr : (0 <= r)%Q.
Hypothesis Hb : 0 ≤ b ≤ 2 ^ 53.

Notation entry := rateLimiterEntry.

(** A limiter with its rate and burst, bounded table and sound buckets. *)
Record limiter_ok (l : IPRateLimiter) (t : Z) : Prop := {
  lo_rate : rate l = r;
  lo_burst : rl_burst l = b;
  lo_interval : interval_fills r b (cleanupInterval l);
  lo_size : 0 < maxVisitors l → Z.of_nat (size (visitors l)) ≤ maxVisitors l;
  lo_entries : ∀ ip e, visitors l !! ip = Some e → entry_ok b e t
}.

(** The buckets of the limiter are those of the reference, but for some that are full
    again. *)
Definition alike (v m : gmap string entry) (t : Z) : Prop :=
  ∀ ip, match v !! ip, m !! ip with
        | Some e, Some e' => entry_eq e e'
        | None, Some e' => filled r b e' t
        | None, None => True
        | Some _, None => False
        end.

Lemma filled_later e t t' : t ≤ t' → filled r b e t → filled r b e t'.
Proof. intros H F now Hn. apply F. lia. Qed.

Lemma alike_later v m t t' : t ≤ t' → alike v m t → alike v m t'.
Proof.
  intros H A ip. specialize (A ip). destruct (v !! ip), (m !! ip); try exact A.
  exact (filled_later _ _ _ H A).
Qed.

Lemma entry_ok_later e t t' : t ≤ t' → entry_ok b e t → entry_ok b e t'.
Proof. intros H (H0 & H1 & H2). repeat split; [exact H0|exact H1|lia]. Qed.

Lemma limiter_ok_later l t t' : t ≤ t' → limiter_ok l t → limiter_ok l t'.
Proof.
  intros H [A B C D E]. split; try assumption. intros ip e He. eapply entry_ok_later; eauto.
Qed.

Lemma new_limiter_ok t : interval_fills r b (5 * Minute) → limiter_ok (NewIPRateLimiter r b) t.
Proof.
  intros H. split; try reflexivity; [exact H| |]; cbn [NewIPRateLimiter visitors maxVisitors].
  - intros _. rewrite map_size_empty. unfold defaultMaxVisitors. lia.
  - intros ip e. now rewrite lookup_empty.
Qed.

Lemma alike_insert v m t ip e e' :
  alike v m t → entry_eq e e' → alike (<[ip := e]> v) (<[ip := e']> m) t.
Proof.
  intros A E jp. destruct (decide (ip = jp)) as [->|Hne].
  - rewrite !lookup_insert_eq. exact E.
  - rewrite !lookup_insert_ne by exact Hne. apply A.
Qed.

Lemma visitor_entry_ok l t ip created now e :
  limiter_ok l t → t ≤ created → created ≤ now → visitor_entry l ip created = Some e → entry_ok b e now.
Proof.
  intros Hl Ht Hc. unfold visitor_entry. destruct (visitors l !! ip) eqn:E.
  - intros [= <-]. eapply entry_ok_later; [|exact (lo_entries _ _ Hl _ _ E)]. lia.
  - destruct (_ && _); [discriminate|]. intros [= <-]. rewrite (lo_burst _ _ Hl).
    apply fresh_ok; [exact Hb|exact Hc].
Qed.

(** A request with room is answered like the reference's. *)
Lemma allow_alike l m t ip created now :
  limiter_ok l t → alike (visitors l) m t → t ≤ created → created ≤ now →
  is_Some (visitor_entry l ip created) →
  (Allow l ip created now).2 = (ref_request r b m ip created now).2 ∧
  alike (visitors (Allow l ip created now).1) (ref_request r b m ip created now).1 now.
Proof.
  intros Hl A Ht Hc [e He]. unfold Allow, ref_request. rewrite He, (lo_rate _ _ Hl), (lo_burst _ _ Hl).
  set (e' := match m !! ip with Some e' => e' | None => _ end).
  assert (Er : (refill r b e now == refill r b e' now)%Q).
  { unfold visitor_entry in He. specialize (A ip). unfold e'.
    destruct (visitors l !! ip) as [x|] eqn:Ex.
    - injection He as <-. destruct (m !! ip); [|contradiction]. apply refill_eq, A.
    - destruct (_ && _); [discriminate|]. injection He as <-. rewrite (lo_burst _ _ Hl).
      rewrite (refill_fresh r b Hr Hb) by exact Hc.
      destruct (m !! ip); [symmetry; apply A; lia|]. symmetry. apply refill_fresh; assumption. }
  destruct (take_token_alike r b e e' now Er) as [E2 E1].
  destruct (take_token r b e now) as [x ok], (take_token r b e' now) as [x' ok']. cbn [fst snd] in *.
  split; [exact E2|]. cbn [set_visitors visitors]. apply alike_insert; [|exact E1].
  eapply alike_later; [|exact A]. lia.
Qed.

Lemma allow_ok l t ip created now :
  limiter_ok l t → t ≤ created → created ≤ now → limiter_ok (Allow l ip created now).1 now.
Proof.
  intros Hl Ht Hc. unfold Allow. destruct (visitor_entry l ip created) as [e|] eqn:He.
  2: { eapply limiter_ok_later; [|exact Hl]. lia. }
  pose proof (visitor_entry_ok _ _ _ _ _ _ Hl Ht Hc He) as Hok.
  pose proof (take_token_ok r b Hr Hb e now now Hok ltac:(lia)) as Hok'.
  rewrite (lo_rate _ _ Hl), (lo_burst _ _ Hl).
  destruct (take_token r b e now) as [e' ok]. cbn [fst] in *.
  assert (Hl' : limiter_ok l now) by (eapply limiter_ok_later; [|exact Hl]; lia).
  destruct Hl' as [H1 H2 H3 H4 H5]. split; cbn [set_visitors rate rl_burst cleanupInterval maxVisitors visitors]; try assumption.
  - intros Hm. specialize (H4 Hm). unfold visitor_entry in He.
    destruct (visitors l !! ip) as [x|] eqn:Ex.
    + rewrite map_size_insert_Some by eauto. exact H4.
    + rewrite map_size_insert_None by exact Ex.
      destruct (Z.ltb_spec 0 (maxVisitors l)); [|lia].
      destruct (Z.leb_spec (maxVisitors l) (Z.of_nat (size (visitors l)))); cbn [andb] in He; [discriminate|lia].
  - intros jp x. rewrite lookup_insert_Some. intros [[_ <-]|[_ Hx]]; [exact Hok'|eauto].
Qed.

(** A tick drops only buckets that are full again. *)
Lemma tick_alike l m t now :
  limiter_ok l t → alike (visitors l) m t → t ≤ now → alike (visitors (removeStale l now)) m now.
Proof.
  intros Hl A Ht ip. specialize (A ip). cbn [removeStale set_visitors visitors].
  rewrite map_lookup_filter. destruct (visitors l !! ip) as [e|] eqn:Ee; cbn.
  - destruct (m !! ip) as [e'|] eqn:Em; [|contradiction].
    destruct (time_Before (lastRefill e) _) eqn:Es.
    + rewrite option_guard_False by (cbn; intros C; discriminate C).
      pose proof (lo_entries _ _ Hl _ _ Ee) as Hok. unfold time_Before, time_Add in Es. apply Z.ltb_lt in Es.
      intros t' Ht'. rewrite <- (refill_eq r b e e' t' A).
      refine (stale_filled r b Hr Hb e t now _ Hok Ht (lo_interval _ _ Hl) _ t' Ht'). lia.
    + rewrite option_guard_True by reflexivity. exact A.
  - destruct (m !! ip); [|exact I]. eapply filled_later; [|exact A]. exact Ht.
Qed.

Lemma tick_ok l t now : limiter_ok l t → t ≤ now → limiter_ok (removeStale l now) now.
Proof.
  intros Hl Ht. assert (Hl' : limiter_ok l now) by (eapply limiter_ok_later; [|exact Hl]; lia).
  destruct Hl' as [H1 H2 H3 H4 H5].
  split; cbn [removeStale set_visitors rate rl_burst cleanupInterval maxVisitors visitors]; try assumption.
  - intros Hm. specialize (H4 Hm).
    assert (size (filter (λ kv, time_Before (lastRefill kv.2) (time_Add now (- cleanupInterval l)) = false) (visitors l))
            ≤ size (visitors l))%nat; [|lia].
    apply map_subseteq_size, map_filter_subseteq.
  - intros ip e. rewrite map_lookup_filter_Some. intros [He _]. eauto.
Qed.

End simulation.

(** * Rounding, relatively *)

Definition unit_roundoff : Q := Eval cbv in (1 # (2 ^ 52)).
Definition tiny : Q := Eval cbv in (1 # (2 ^ 200)).

Lemma rne_upper x : (0 <= x)%Q → (rne x <= x + x * unit_roundoff + tiny)%Q.
Proof.
  intros H0. assert (U : (0 <= unit_roundoff)%Q) by (vm_compute; discriminate).
  assert (T : (0 < tiny)%Q) by reflexivity.
  destruct (rne_cases x) as [[Ex ->]|[[Hx ->]|(Hx & _)]]; [rewrite Ex; lra| |lra].
  unfold rne_pos. set (k := ulp_exp x). pose proof (p2_pos k) as Pk.
  destruct (half_even_spec (x / p2 k)) as [L _]. set (m := inject_Z (half_even (x / p2 k))) in *. clearbody m.
  assert (Ediv : (x == x / p2 k * p2 k)%Q) by (field; apply p2_nonzero).
  assert (Hm : (m * p2 k <= (x / p2 k + (1 # 2)) * p2 k)%Q) by (apply Qmult_le_compat_r; lra).
  rewrite Qmult_plus_distr_l, <- Ediv in Hm.
  assert (Hk : (p2 k <= x * unit_roundoff + tiny)%Q); [|lra].
  unfold k, ulp_exp. destruct (Z.max_spec (flog2 x - 52) (-1074)) as [[_ ->]|[_ ->]].
  - assert (p2 (-1074) <= p2 (-200))%Q by (apply p2_mono; lia). change (p2 (-200)) with tiny in *.
    assert (0 <= x * unit_roundoff)%Q by (apply Qmult_le_0_compat; lra). lra.
  - destruct (flog2_spec x Hx) as [Hf _]. replace (flog2 x - 52) with (flog2 x + -52) by lia.
    rewrite p2_add. change (p2 (-52)) with unit_roundoff.
    assert (p2 (flog2 x) * unit_roundoff <= x * unit_roundoff)%Q by (apply Qmult_le_compat_r; assumption). lra.
Qed.

(** * What a client gets through *)

(** Nanoseconds as exact seconds. *)
Definition exact_secs (d : Z) : Q := inject_Z d / inject_Z 1000000000.

Lemma exact_secs_add d e : (exact_secs (d + e) == exact_secs d + exact_secs e)%Q.
Proof. unfold exact_secs. rewrite inject_Z_plus. field. Qed.

Lemma exact_secs_mono d e : d ≤ e → (exact_secs d <= exact_secs e)%Q.
Proof. intros H. unfold exact_secs, Qdiv. apply Qmult_le_compat_r; [rewrite <- Zle_Qle; exact H|discriminate]. Qed.

Lemma exact_secs_nonneg d : 0 ≤ d → (0 <= exact_secs d)%Q.
Proof. intros H. eapply Qle_trans; [|exact (exact_secs_mono 0 d H)]. discriminate. Qed.

Lemma Seconds_upper d :
  0 ≤ d ≤ max_int64 → (Seconds d <= exact_secs d * (1 + 3 * unit_roundoff) + 3 * tiny)%Q.
Proof.
  intros Hd. pose proof (seconds_quot d Hd) as Eq. destruct (seconds_frac d ltac:(lia)) as [F0 F1].
  unfold Seconds. set (q := f_of_int (Z.quot d Second)) in *.
  assert (Hf : (fdiv (f_of_int (Z.rem d Second)) (f_of_int 1000000000)
                <= exact_secs (Z.rem d Second) * (1 + unit_roundoff) + tiny)%Q).
  { unfold fdiv. pose proof (Z.rem_bound_pos d Second ltac:(lia) ltac:(reflexivity)) as Hr. unfold Second in Hr.
    assert (E : (f_of_int (Z.rem d Second) / f_of_int 1000000000 == exact_secs (Z.rem d Second))%Q).
    { rewrite !f_of_int_exact by (unfold Second; lia). reflexivity. }
    rewrite E. pose proof (rne_upper _ (exact_secs_nonneg (Z.rem d Second) ltac:(unfold Second; lia))). lra. }
  set (f := fdiv _ _) in *.
  assert (Hq0 : (0 <= q)%Q).
  { rewrite Eq. change 0%Q with (inject_Z 0). rewrite <- Zle_Qle. apply Z.quot_pos; unfold Second; lia. }
  assert (Es : (exact_secs d == q + exact_secs (Z.rem d Second))%Q).
  { rewrite Eq. rewrite (Z.quot_rem' d Second) at 1. rewrite exact_secs_add. apply Qplus_comp; [|reflexivity].
    unfold exact_secs, Second. rewrite inject_Z_mult. field. }
  pose proof (exact_secs_nonneg (Z.rem d Second) ltac:(apply Z.rem_nonneg; [discriminate|lia])) as Hr0.
  unfold fadd. pose proof (rne_upper (q + f) ltac:(lra)) as Hu.
  unfold unit_roundoff, tiny in *.
  clearbody f q. lra.
Qed.

(** The rounding of one request: 2^-48 of the burst. *)
Definition slack (b : Z) : Q := inject_Z b * (16 * unit_roundoff).

Section bounds.
Variables (r : Q) (b : Z).
Hypothesis Hr : (0 <= r)%Q ∧ (r <= inject_Z (2 ^ 20))%Q.
Hypothesis Hb : 1 ≤ b ≤ 2 ^ 53.

(** The tokens of a bucket at [now], in exact arithmetic. *)
Definition exact_tokens (e : rateLimiterEntry) (now : Z) : Q :=
  Qmin (inject_Z b) (tokens e + r * exact_secs (now - lastRefill e)).

Lemma exact_tokens_le e now : (exact_tokens e now <= inject_Z b)%Q.
Proof. apply Q.le_min_l. Qed.

Lemma exact_tokens_later e t now :
  t ≤ now → (exact_tokens e now <= exact_tokens e t + r * exact_secs (now - t))%Q.
Proof.
  intros H. unfold exact_tokens.
  assert (E : (exact_secs (now - lastRefill e) == exact_secs (now - t) + exact_secs (t - lastRefill e))%Q).
  { rewrite <- exact_secs_add. now replace (now - t + (t - lastRefill e)) with (now - lastRefill e) by lia. }
  rewrite E. assert (H0 : (0 <= r * exact_secs (now - t))%Q).
  { apply Qmult_le_0_compat; [apply Hr|apply exact_secs_nonneg; lia]. }
  destruct (Q.min_spec (inject_Z b) (tokens e + r * exact_secs (t - lastRefill e))) as [[_ Em]|[_ Em]]; rewrite Em.
  - pose proof (Q.le_min_l (inject_Z b) (tokens e + (r * (exact_secs (now - t) + exact_secs (t - lastRefill e))))). lra.
  - pose proof (Q.le_min_r (inject_Z b) (tokens e + (r * (exact_secs (now - t) + exact_secs (t - lastRefill e))))). lra.
Qed.

Lemma refill_upper e now :
  entry_ok b e now →
  (refill r b e now <= exact_tokens e now + inject_Z b * (12 * unit_roundoff))%Q.
Proof.
  intros (H0 & H1 & Hl). assert (Hbq : (1 <= inject_Z b)%Q) by (change 1%Q with (inject_Z 1); rewrite <- Zle_Qle; lia).
  assert (Eb : (f_of_int b == inject_Z b)%Q) by (apply f_of_int_exact; lia).
  pose proof (refill_le r b e now) as Hle. rewrite Eb in Hle, H1.
  unfold exact_tokens. destruct (Q.min_spec (inject_Z b) (tokens e + r * exact_secs (now - lastRefill e))) as [[_ Em]|[Hs Em]];
    rewrite Em; [unfold unit_roundoff; lra|].
  set (g := (r * exact_secs (now - lastRefill e))%Q) in *.
  unfold refill. pose proof (elapsed_range (lastRefill e) now Hl) as Hel.
  assert (Hel' : time_Sub now (lastRefill e) ≤ now - lastRefill e).
  { unfold time_Sub, clamp64, min_int64. lia. }
  set (el := time_Sub now (lastRefill e)) in *.
  pose proof (Seconds_upper el Hel) as Hsec. pose proof (Seconds_nonneg el Hel) as Hs0.
  pose proof (exact_secs_mono _ _ Hel') as Hsm.
  assert (Hg0 : (0 <= g)%Q) by (apply Qmult_le_0_compat; [apply Hr|apply exact_secs_nonneg; lia]).
  assert (HSr : (Seconds el * r <= g * (1 + 3 * unit_roundoff) + 3 * tiny * r)%Q).
  { apply (Qle_trans _ ((exact_secs (now - lastRefill e) * (1 + 3 * unit_roundoff) + 3 * tiny) * r)%Q).
    - apply Qmult_le_compat_r; [unfold unit_roundoff in *; lra|apply Hr].
    - unfold g. apply Qle_lteq. right. ring. }
  assert (HSr0 : (0 <= Seconds el * r)%Q) by (apply Qmult_le_0_compat; [exact Hs0|apply Hr]).
  pose proof (rne_upper _ HSr0) as HG. fold (fmul (Seconds el) r) in HG.
  pose proof (rne_nonneg _ HSr0) as HG0. fold (fmul (Seconds el) r) in HG0.
  destruct Hr as [Hr0 Hr1]. change (inject_Z (2 ^ 20)) with (1048576 # 1) in Hr1.
  set (S := (Seconds el * r)%Q) in *. set (G := fmul _ r) in *.
  pose proof (rne_upper (tokens e + G) ltac:(lra)) as HT. fold (fadd (tokens e) G) in HT.
  set (T := fadd (tokens e) G) in *.
  assert (HrT : (3 * tiny * r <= tiny * (4194304 # 1))%Q) by (unfold tiny; lra).
  set (z := (3 * tiny * r)%Q) in *.
  assert (HTle : (T <= tokens e + g + inject_Z b * (12 * unit_roundoff))%Q).
  { unfold unit_roundoff, tiny in *. clearbody T G S g z. lra. }
  destruct (fgt T (f_of_int b)) eqn:Ef; [|exact HTle].
  apply fgt_true in Ef. lra.
Qed.

Lemma take_token_bound e now :
  entry_ok b e now →
  ((if (take_token r b e now).2 then 1 else 0) + tokens (take_token r b e now).1
   <= exact_tokens e now + slack b)%Q.
Proof.
  intros He. pose proof (refill_upper e now He) as Hu. pose proof (refill_le r b e now) as Hle.
  assert (Eb : (f_of_int b == inject_Z b)%Q) by (apply f_of_int_exact; lia). rewrite Eb in Hle.
  assert (Hbq : (1 <= inject_Z b)%Q) by (change 1%Q with (inject_Z 1); rewrite <- Zle_Qle; lia).
  unfold take_token, slack. cbv zeta. destruct (Qle_bool 1 (refill r b e now)) eqn:E; cbn [fst snd tokens].
  - apply Qle_bool_iff in E. pose proof (rne_upper (refill r b e now - 1) ltac:(lra)) as Hs.
    fold (fsub (refill r b e now) 1) in Hs.
    unfold unit_roundoff, tiny in *.
    set (T := fsub _ _) in *. set (R := refill r b e now) in *. clearbody T R. lra.
  - unfold unit_roundoff in *. lra.
Qed.

End bounds.

(** * Runs *)

(** The clock at the end of a run. *)
Fixpoint clock_end (from : Z) (es : list rl_event) : Z :=
  match es with
  | [] => from
  | EvRequest _ _ now :: es' => clock_end now es'
  | EvTick now :: es' => clock_end now es'
  | _ :: es' => clock_end from es'
  end.

(** How many requests a client made and how many of them were served. *)
Fixpoint made (ip : string) (es : list rl_event) : Z :=
  match es with
  | [] => 0
  | EvRequest rq _ _ :: es' => (if bool_decide (extractIP rq = ip) then 1 else 0) + made ip es'
  | _ :: es' => made ip es'
  end.

Definition is_served (x : Reply) : bool := match x with ServeNext => true | Refused _ _ _ _ _ => false end.

Fixpoint served (ip : string) (es : list rl_event) (rs : list Reply) : Z :=
  match es, rs with
  | EvRequest rq _ _ :: es', x :: rs' =>
      (if bool_decide (extractIP rq = ip) && is_served x then 1 else 0) + served ip es' rs'
  | EvRequest _ _ _ :: es', [] => 0
  | _ :: es', rs => served ip es' rs
  | [], _ => 0
  end.

Section runs.
Variables (r : Q) (b : Z).
Hypothesis Hr : (0 <= r)%Q.
Hypothesis Hb : 0 ≤ b ≤ 2 ^ 53.

Definition buckets_ok (m : gmap string rateLimiterEntry) (t : Z) : Prop :=
  ∀ ip e, m !! ip = Some e → entry_ok b e t.

(** The limiter [l] and the reference's buckets [m] at time [t]. *)
Definition related (l : IPRateLimiter) (m : gmap string rateLimiterEntry) (t : Z) : Prop :=
  limiter_ok r b l t ∧ alike r b (visitors l) m t ∧ buckets_ok m t.

Lemma buckets_ok_later m t t' : t ≤ t' → buckets_ok m t → buckets_ok m t'.
Proof. intros H M ip e He. eapply entry_ok_later; eauto. Qed.

Lemma ref_request_ok m t ip created now :
  buckets_ok m t → t ≤ created → created ≤ now → buckets_ok (ref_request r b m ip created now).1 now.
Proof.
  intros M Ht Hc. unfold ref_request.
  set (e := match m !! ip with Some e => e | None => _ end).
  assert (He : entry_ok b e now).
  { unfold e. destruct (m !! ip) eqn:E; [eapply entry_ok_later; [|eauto]; lia|apply fresh_ok; assumption]. }
  pose proof (take_token_ok r b Hr Hb e now now He ltac:(lia)) as He'.
  destruct (take_token r b e now) as [e' ok]. cbn [fst] in *.
  intros jp x. rewrite lookup_insert_Some. intros [[_ <-]|[_ Hx]]; [exact He'|].
  eapply entry_ok_later; [|exact (M _ _ Hx)]. lia.
Qed.

Lemma no_room_refused l ip created now :
  visitor_entry l ip created = None → Allow l ip created now = (l, false).
Proof. intros E. unfold Allow. now rewrite E. Qed.

(** One step keeps the relation; the reply is the reference's when there is room. *)
Lemma request_related l m t rq created now :
  related l m t → t ≤ created → created ≤ now →
  let room := bool_decide (is_Some (visitor_entry l (extractIP rq) created)) in
  let '(m', a) := if room then let (m', ok) := ref_request r b m (extractIP rq) created now in (m', reply_of ok)
                  else (m, too_many) in
  (Middleware l rq created now).2 = a ∧ related (Middleware l rq created now).1 m' now.
Proof.
  intros (Hl & A & M) Ht Hc room. unfold Middleware.
  pose proof (allow_ok r b Hr Hb l t (extractIP rq) created now Hl Ht Hc) as Hl'.
  unfold room. case_bool_decide as Hroom.
  - destruct (allow_alike r b Hr Hb l m t _ created now Hl A Ht Hc Hroom) as [E2 A'].
    pose proof (ref_request_ok m t (extractIP rq) created now M Ht Hc) as M'.
    destruct (Allow l (extractIP rq) created now) as [l' ok], (ref_request r b m _ created now) as [m' ok'].
    cbn [fst snd] in *. subst ok'. split; [destruct ok; reflexivity|split; [exact Hl'|split; assumption]].
  - destruct (visitor_entry l (extractIP rq) created) eqn:E; [destruct Hroom; eauto|].
    rewrite (no_room_refused _ _ _ _ E) in *. cbn [fst snd] in *. split; [reflexivity|].
    split; [exact Hl'|]. split; [eapply alike_later; [|exact A]; lia|eapply buckets_ok_later; [|exact M]; lia].
Qed.

Lemma run_related es : ∀ l m t l' rs,
  related l m t → intervals_fill r b es → clock_ok t es → rl_run l es = Some (l', rs) →
  rs = ref_replies r b m (room_flags l es) es ∧ ∃ m', related l' m' (clock_end t es).
Proof.
  induction es as [|e es IH]; intros l m t l' rs R Hi Hc Hrun.
  { injection Hrun as <- <-. split; [reflexivity|]. exists m. exact R. }
  cbn [rl_run] in Hrun. destruct (rl_step l e) as [[l1 a]|] eqn:Es; [|discriminate].
  destruct (rl_run l1 es) as [[l2 rs2]|] eqn:Er; [|discriminate]. injection Hrun as <- <-.
  apply Forall_cons in Hi as [Hi1 Hi]. cbn [room_flags]. rewrite Es.
  destruct e as [rq created now|now|d| |]; cbn [rl_step clock_ok clock_end ref_replies] in *.
  - destruct Hc as (Ht & Hcn & Hc).
    pose proof (request_related l m t rq created now R Ht Hcn) as Hq. cbv zeta in Hq.
    destruct (Middleware l rq created now) as [l1' x]. injection Es as <- <-.
    destruct (bool_decide _); [destruct (ref_request r b m _ created now) as [m' ok]|];
      cbn [fst snd] in Hq; destruct Hq as [-> R']; destruct (IH _ _ _ _ _ R' Hi Hc Er) as [-> Hex]; (split; [reflexivity|exact Hex]).
  - destruct Hc as (Ht & Hc). destruct (rl_looping l); [|discriminate]. injection Es as <- <-.
    refine (IH _ _ _ _ _ _ Hi Hc Er).
    destruct R as (Hl & A & M). split; [eapply tick_ok; eauto|].
    split; [eapply tick_alike; eauto|eapply buckets_ok_later; [|exact M]; lia].
  - injection Es as <- <-. refine (IH _ _ _ _ _ _ Hi Hc Er).
    destruct R as ([H1 H2 H3 H4 H5] & A & M). split; [|split; assumption]. split; assumption.
  - injection Es as <- <-. refine (IH _ _ _ _ _ _ Hi Hc Er).
    destruct R as ([H1 H2 H3 H4 H5] & A & M). split; [|split; assumption]. split; assumption.
  - destruct (_ && _); [|discriminate]. injection Es as <- <-.
    refine (IH _ _ _ _ _ _ Hi Hc Er).
    destruct R as ([H1 H2 H3 H4 H5] & A & M). split; [|split; assumption]. split; assumption.
Qed.

Lemma new_related t : interval_fills r b (5 * Minute) → related (NewIPRateLimiter r b) ∅ t.
Proof.
  intros H. split; [apply new_limiter_ok; assumption|]. split; [intros ip; exact I|].
  intros ip e. now rewrite lookup_empty.
Qed.

End runs.

(** * The number of requests served *)

Section counting.
Variables (r : Q) (b : Z).
Hypothesis Hr : (0 <= r)%Q ∧ (r <= inject_Z (2 ^ 20))%Q.
Hypothesis Hb : 1 ≤ b ≤ 2 ^ 53.

(** What a client has left, in exact arithmetic; a full bucket before its first request. *)
Definition bank (m : gmap string rateLimiterEntry) (ip : string) (t : Z) : Q :=
  match m !! ip with Some e => exact_tokens r b e t | None => inject_Z b end.

Lemma bank_le m ip t : (bank m ip t <= inject_Z b)%Q.
Proof. unfold bank. destruct (m !! ip); [apply exact_tokens_le|apply Qle_refl]. Qed.

Lemma gain_pos t now : t ≤ now → (0 <= r * exact_secs (now - t))%Q.
Proof. intros H. apply Qmult_le_0_compat; [apply Hr|apply exact_secs_nonneg; lia]. Qed.

Lemma bank_later m ip t now : t ≤ now → (bank m ip now <= bank m ip t + r * exact_secs (now - t))%Q.
Proof.
  intros H. unfold bank. destruct (m !! ip); [apply exact_tokens_later; assumption|].
  pose proof (gain_pos t now H). lra.
Qed.

Lemma bank_nonneg m ip t : buckets_ok b m t → (0 <= bank m ip t)%Q.
Proof.
  intros M. assert (Hi : (0 <= inject_Z b)%Q) by (change 0%Q with (inject_Z 0); rewrite <- Zle_Qle; lia).
  unfold bank. destruct (m !! ip) as [e|] eqn:E; [|exact Hi].
  destruct (M _ _ E) as (H0 & H1 & H2). unfold exact_tokens. pose proof (gain_pos (lastRefill e) t H2).
  apply Q.min_glb; [exact Hi|lra].
Qed.

Lemma ref_request_other m ip jp created now t :
  jp ≠ ip → bank (ref_request r b m ip created now).1 jp t = bank m jp t.
Proof.
  intros H. unfold ref_request, bank. destruct (take_token _ _ _ _). cbn [fst].
  now rewrite lookup_insert_ne by (intros E; congruence).
Qed.

Lemma ref_request_bank m ip created now t :
  buckets_ok b m t → t ≤ created → created ≤ now →
  ((if (ref_request r b m ip created now).2 then 1 else 0) + bank (ref_request r b m ip created now).1 ip now
   <= bank m ip t + r * exact_secs (now - t) + slack b)%Q.
Proof.
  intros M Ht Hc. pose proof (bank_later m ip t now ltac:(lia)) as Hl.
  unfold ref_request. set (e := match m !! ip with Some e => e | None => _ end).
  assert (entry_ok b e now ∧ (exact_tokens r b e now <= bank m ip now)%Q) as [He Hbank].
  { unfold e, bank. destruct (m !! ip) eqn:E.
    - split; [eapply entry_ok_later; [|exact (M _ _ E)]; lia|apply Qle_refl].
    - split; [apply fresh_ok; lia|apply exact_tokens_le]. }
  pose proof (take_token_bound r b Hr Hb e now He) as Htake.
  assert (Elast : lastRefill (take_token r b e now).1 = now).
  { unfold take_token. cbv zeta. destruct (Qle_bool _ _); reflexivity. }
  destruct (take_token r b e now) as [e' ok]. cbn [fst snd] in *.
  assert (Hk : (bank (<[ip:=e']> m) ip now <= tokens e')%Q).
  { unfold bank. rewrite lookup_insert_eq. unfold exact_tokens. rewrite Elast, Z.sub_diag.
    pose proof (Q.le_min_r (inject_Z b) (tokens e' + r * exact_secs 0)) as Hmin.
    assert (E0 : (r * exact_secs 0 == 0)%Q) by (assert (Es : (exact_secs 0 == 0)%Q) by reflexivity; rewrite Es; ring). lra. }
  lra.
Qed.

Lemma slack_pos : (0 <= slack b)%Q.
Proof.
  unfold slack. apply Qmult_le_0_compat; [|discriminate].
  change 0%Q with (inject_Z 0). rewrite <- Zle_Qle. lia.
Qed.

Lemma clock_end_ge es : ∀ t, clock_ok t es → t ≤ clock_end t es.
Proof.
  induction es as [|[rq c n|n|d| |] es IH]; intros t H; cbn [clock_ok clock_end] in *; try exact (IH _ H); [lia| |].
  - destruct H as (H1 & H2 & H3). specialize (IH _ H3). lia.
  - destruct H as (H1 & H3). specialize (IH _ H3). lia.
Qed.

Lemma gain_split t n u : (r * exact_secs (u - t) == r * exact_secs (n - t) + r * exact_secs (u - n))%Q.
Proof. replace (u - t) with ((n - t) + (u - n)) by lia. rewrite exact_secs_add. ring. Qed.

Lemma is_served_reply ok : is_served (reply_of ok) = ok.
Proof. destruct ok; reflexivity. Qed.

(** The reference serves a client no more than its bank and its rate allow. *)
Lemma ref_served ip es : ∀ m rooms t,
  buckets_ok b m t → clock_ok t es →
  (inject_Z (served ip es (ref_replies r b m rooms es))
   <= bank m ip t + r * exact_secs (clock_end t es - t) + inject_Z (made ip es) * slack b)%Q.
Proof.
  assert (Hr' : (0 <= r)%Q) by apply Hr. assert (Hb' : 0 ≤ b ≤ 2 ^ 53) by lia.
  pose proof slack_pos as Hs.
  induction es as [|e es IH]; intros m rooms t M Hc.
  { cbn [served ref_replies made clock_end]. pose proof (bank_nonneg m ip t M).
    pose proof (gain_pos t t ltac:(lia)). change (inject_Z 0) with 0%Q. lra. }
  destruct e as [rq created now|now|d| |]; cbn [ref_replies clock_ok clock_end made] in *;
    try (apply IH; assumption).
  - destruct Hc as (Ht & Hcn & Hc). rewrite (gain_split t now).
    assert (Skip : ∀ rooms', (inject_Z (served ip es (ref_replies r b m rooms' es)) <=
      bank m ip t + (r * exact_secs (now - t) + r * exact_secs (clock_end now es - now)) + inject_Z (made ip es) * slack b)%Q).
    { intros rooms'. pose proof (IH m rooms' now ltac:(eapply buckets_ok_later; [|exact M]; lia) Hc).
      pose proof (bank_later m ip t now ltac:(lia)). lra. }
    assert (Hmade : (inject_Z (made ip es) * slack b <=
      inject_Z ((if bool_decide (extractIP rq = ip) then 1 else 0) + made ip es) * slack b)%Q).
    { rewrite inject_Z_plus. destruct (bool_decide _); change (inject_Z 1) with 1%Q; change (inject_Z 0) with 0%Q; lra. }
    destruct rooms as [|[] rooms]; cbn [tail]; [|destruct (ref_request r b m (extractIP rq) created now) as [m' ok] eqn:Eq|];
      cbn [served]; [specialize (Skip [])| |specialize (Skip rooms)];
      [change (is_served too_many) with false; rewrite andb_false_r, Z.add_0_l; lra| |change (is_served too_many) with false; rewrite andb_false_r, Z.add_0_l; lra].
    pose proof (ref_request_ok r b Hr' Hb' m t (extractIP rq) created now M Ht Hcn) as M'.
    pose proof (IH (ref_request r b m (extractIP rq) created now).1 rooms now M' Hc) as H. rewrite Eq in H. cbn [fst] in H.
    rewrite is_served_reply, inject_Z_plus.
    case_bool_decide as Hip; cbn [andb].
    + pose proof (ref_request_bank m (extractIP rq) created now t M Ht Hcn) as Hk. rewrite Eq, Hip in Hk. cbn [fst snd] in Hk.
      rewrite inject_Z_plus in *. change (inject_Z 1) with 1%Q in *.
      destruct ok; change (inject_Z 1) with 1%Q in *; change (inject_Z 0) with 0%Q in *; lra.
    + pose proof (ref_request_other m (extractIP rq) ip created now now ltac:(congruence)) as Hk. rewrite Eq in Hk. cbn [fst] in Hk.
      rewrite Hk in H. pose proof (bank_later m ip t now ltac:(lia)).
      rewrite Z.add_0_l in *. change (inject_Z 0) with 0%Q in *. lra.
  - destruct Hc as (Ht & Hc). rewrite (gain_split t now).
    pose proof (IH m rooms now ltac:(eapply buckets_ok_later; [|exact M]; lia) Hc).
    pose proof (bank_later m ip t now ltac:(lia)). cbn [served]. lra.
Qed.

End counting.

(** * Room in the table *)

Lemma clients_cons e es : clients (e :: es) = clients [e] ∪ clients es.
Proof. unfold clients. destruct e; cbn [omap list_omap list_to_set]; set_solver. Qed.

Lemma step_visitors l e l1 a :
  rl_step l e = Some (l1, a) →
  dom (visitors l1) ⊆ dom (visitors l) ∪ clients [e] ∧ maxVisitors l1 = maxVisitors l.
Proof.
  destruct e as [rq created now|now|d| |]; cbn [rl_step].
  - unfold Middleware, Allow. destruct (visitor_entry _ _ _) as [x|].
    + destruct (take_token _ _ _ _) as [x' ok]. intros [= <- <-].
      cbn [set_visitors visitors maxVisitors]. split; [|reflexivity]. rewrite dom_insert.
      unfold clients. cbn [omap list_omap list_to_set]. set_solver.
    + intros [= <- <-]. split; [set_solver|reflexivity].
  - destruct (rl_looping l); [|discriminate]. intros [= <- <-].
    cbn [removeStale set_visitors visitors maxVisitors]. split; [|reflexivity].
    etrans; [apply dom_filter_subseteq|]. set_solver.
  - intros [= <- <-]. cbn. split; [set_solver|reflexivity].
  - intros [= <- <-]. cbn. split; [set_solver|reflexivity].
  - destruct (_ && _); [|discriminate]. intros [= <- <-]. cbn. split; [set_solver|reflexivity].
Qed.

Lemma room_for_client l ip created :
  Z.of_nat (size (dom (visitors l) ∪ {[ip]})) ≤ maxVisitors l → is_Some (visitor_entry l ip created).
Proof.
  intros Hs. unfold visitor_entry. destruct (visitors l !! ip) eqn:E; [eauto|].
  apply not_elem_of_dom in E. rewrite size_union, size_singleton, size_dom in Hs by set_solver.
  destruct (Z.ltb_spec 0 (maxVisitors l)); cbn [andb]; [|eauto].
  destruct (Z.leb_spec (maxVisitors l) (Z.of_nat (size (visitors l)))); [lia|eauto].
Qed.

(** With at most as many clients as the table holds, every request has room. *)
Lemma rooms_all es : ∀ l (C : gset string),
  dom (visitors l) ⊆ C → Z.of_nat (size (C ∪ clients es)) ≤ maxVisitors l →
  Forall (λ f, f = true) (room_flags l es).
Proof.
  induction es as [|e es IH]; intros l C Hd Hs; [constructor|]. rewrite clients_cons in Hs. cbn [room_flags].
  assert (Hrest : Forall (λ f, f = true)
    (match rl_step l e with Some (l', _) => room_flags l' es | None => [] end)).
  { destruct (rl_step l e) as [[l1 a]|] eqn:Es; [|constructor].
    destruct (step_visitors _ _ _ _ Es) as [Hd1 Hm]. apply (IH l1 (C ∪ clients [e])); [set_solver|].
    rewrite Hm, <- (assoc_L (∪)). exact Hs. }
  destruct e as [rq created now|now|d| |]; try exact Hrest.
  constructor; [|exact Hrest]. apply bool_decide_eq_true, room_for_client.
  etrans; [|exact Hs]. apply inj_le, subseteq_size.
  unfold clients at 1. cbn [omap list_omap list_to_set]. set_solver.
Qed.

Lemma run_max es : ∀ l l' rs, rl_run l es = Some (l', rs) → maxVisitors l' = maxVisitors l.
Proof.
  induction es as [|e es IH]; intros l l' rs H; cbn [rl_run] in H; [now injection H as <- <-|].
  destruct (rl_step l e) as [[l1 a]|] eqn:Es; [|discriminate].
  destruct (rl_run l1 es) as [[l2 rs2]|] eqn:Er; [|discriminate]. injection H as <- <-.
  rewrite (IH _ _ _ Er). apply (step_visitors _ _ _ _ Es).
Qed.

(** A bucket that gained a token, or a fresh one, serves. *)
Lemma take_token_served r b (Hr : (0 <= r)%Q) (Hb : 1 ≤ b ≤ 2 ^ 53) e created now :
  entry_ok b e now →
  (1 <= fmul (Seconds (time_Sub now (lastRefill e))) r)%Q ∨
    (e = mkEntry (f_of_int b) created ∧ created ≤ now) →
  take_token r b e now = (mkEntry (fsub (refill r b e now) 1) now, true).
Proof.
  intros (H0 & H1 & Hl) Hg. assert (Hb' : 0 ≤ b ≤ 2 ^ 53) by lia.
  assert (Eb : (f_of_int b == inject_Z b)%Q) by (apply f_of_int_exact; lia).
  assert (Hbq : (1 <= inject_Z b)%Q) by (change 1%Q with (inject_Z 1); rewrite <- Zle_Qle; lia).
  assert (H : (1 <= refill r b e now)%Q).
  { destruct Hg as [Hg|[-> Hc]].
    - unfold refill. destruct (fgt _ _); [lra|]. unfold fadd. apply (rne_ge_int _ 1); [lia|].
      change (inject_Z 1) with 1%Q. lra.
    - rewrite (refill_fresh r b Hr Hb' created now Hc). lra. }
  unfold take_token. cbv zeta. apply Qle_bool_iff in H. now rewrite H.
Qed.

(** * The theorems *)

(** C40: dropping idle buckets costs no client a reply.  However requests, cleanup ticks, changes of
    the interval and the stop interleave, as long as an idle bucket refills within every
    cleanup interval: the replies are those of the limiter that keeps one bucket per client
    for ever, but for the requests of new clients that find the table full, which are
    refused.  These show the cleanup, which makes room; with at most as many clients as the
    table holds there are none.  The table never holds more, and the limits never change. *)
Theorem cleanup_keeps_replies (r : Q) (b t0 : Z) (es : list rl_event) (l : IPRateLimiter) (rs : list Reply)
    (Hr : (0 <= r)%Q) (Hb : 0 ≤ b ≤ 2 ^ 53)
    (Hdefault : interval_fills r b (5 * Minute)) (Hset : intervals_fill r b es)
    (Hclock : clock_ok t0 es) (Hrun : rl_run (NewIPRateLimiter r b) es = Some (l, rs)) :
  rs = ref_replies r b ∅ (room_flags (NewIPRateLimiter r b) es) es ∧
  (Z.of_nat (size (clients es)) ≤ defaultMaxVisitors →
   Forall (λ f, f = true) (room_flags (NewIPRateLimiter r b) es)) ∧
  Z.of_nat (size (visitors l)) ≤ defaultMaxVisitors ∧
  rate l = r ∧ rl_burst l = b.
Proof.
  destruct (run_related r b Hr Hb es _ ∅ t0 l rs (new_related r b Hb t0 Hdefault) Hset Hclock Hrun)
    as [Ers (m' & Hl & _)].
  split; [exact Ers|]. split.
  { intros Hn. apply (rooms_all es _ ∅); [cbn; set_solver|]. now rewrite (left_id_L ∅ (∪)). }
  assert (Hm : maxVisitors l = defaultMaxVisitors) by exact (run_max _ _ _ _ Hrun).
  split; [|split; [apply (lo_rate _ _ _ _ Hl)|apply (lo_burst _ _ _ _ Hl)]].
  rewrite <- Hm. apply (lo_size _ _ _ _ Hl). rewrite Hm. reflexivity.
Qed.

(** In any stretch of any run a client is served at most the burst plus the rate times the
    stretch's length, up to a rounding of 2^-48 of the burst per request; and a request
    of a client that waited for one token since its last one is served if the table has
    room for it. *)
Lemma limiter_bounds (r : Q) (b t0 : Z) (es1 es2 : list rl_event) (l1 l2 : IPRateLimiter)
    (rs1 rs2 : list Reply)
    (Hr : (0 <= r)%Q ∧ (r <= inject_Z (2 ^ 20))%Q) (Hb : 1 ≤ b ≤ 2 ^ 53)
    (Hdefault : interval_fills r b (5 * Minute)) (Hset : intervals_fill r b (es1 ++ es2))
    (Hclock1 : clock_ok t0 es1) (Hclock2 : clock_ok (clock_end t0 es1) es2)
    (Hrun1 : rl_run (NewIPRateLimiter r b) es1 = Some (l1, rs1)) (Hrun2 : rl_run l1 es2 = Some (l2, rs2)) :
  (∀ ip, (inject_Z (served ip es2 rs2) <=
          inject_Z b + r * exact_secs (clock_end (clock_end t0 es1) es2 - clock_end t0 es1) +
          inject_Z (made ip es2) * slack b)%Q) ∧
  (∀ rq created now,
     clock_end t0 es1 ≤ created → created ≤ now →
     is_Some (visitor_entry l1 (extractIP rq) created) →
     (∀ e, visitors l1 !! extractIP rq = Some e →
           (1 <= fmul (Seconds (time_Sub now (lastRefill e))) r)%Q) →
     (Middleware l1 rq created now).2 = ServeNext).
Proof.
  assert (Hb' : 0 ≤ b ≤ 2 ^ 53) by lia. apply Forall_app in Hset as [Hset1 Hset2].
  destruct (run_related r b (proj1 Hr) Hb' es1 _ ∅ t0 l1 rs1 (new_related r b Hb' t0 Hdefault) Hset1 Hclock1 Hrun1)
    as [_ (m & R)].
  split.
  - intros ip. destruct (run_related r b (proj1 Hr) Hb' es2 _ m _ l2 rs2 R Hset2 Hclock2 Hrun2) as [-> _].
    pose proof (ref_served r b Hr Hb ip es2 m (room_flags l1 es2) _ (proj2 (proj2 R)) Hclock2) as H.
    pose proof (bank_le r b m ip (clock_end t0 es1)). lra.
  - intros rq created now Ht Hc [e He] Hgain. destruct R as (Hl & _ & _).
    pose proof (visitor_entry_ok r b Hb' l1 _ _ created now e Hl Ht Hc He) as Hok.
    unfold Middleware, Allow. rewrite He, (lo_rate _ _ _ _ Hl), (lo_burst _ _ _ _ Hl).
    rewrite (take_token_served r b (proj1 Hr) Hb e created now Hok); [reflexivity|].
    unfold visitor_entry in He. destruct (visitors l1 !! extractIP rq) as [x|].
    + left. injection He as <-. apply Hgain. reflexivity.
    + right. destruct (_ && _); [discriminate|]. injection He as <-. rewrite (lo_burst _ _ _ _ Hl).
      split; [reflexivity|exact Hc].
Qed.

(** * The limiters in use, and concrete runs *)

(** An idle bucket of every limiter of the router refills within the cleanup interval. *)
Lemma router_limiters_fill l :
  In l [teacher router_limiters; toggle router_limiters; room router_limiters] →
  interval_fills (rate l) (rl_burst l) (cleanupInterval l).
Proof. intros [<-|[<-|[<-|[]]]]; (split; [vm_compute; split; discriminate|vm_compute; discriminate]). Qed.

(** When the interval does not fill a bucket, dropping one gives its client new tokens:
    one token per ten minutes, and two requests within six. *)
Example cleanup_refills_slow :
  let rq := mkRequest "" "10.0.0.1:443" in
  rl_run (NewIPRateLimiter (1 # 600) 1)
    [EvRequest rq Second Second; EvRequest rq (2 * Second) (2 * Second);
     EvTick (6 * Minute); EvRequest rq (6 * Minute) (6 * Minute)]
  ≫= (λ x, Some x.2) = Some [ServeNext; too_many; ServeNext].
Proof. vm_compute. reflexivity. Qed.

Definition demo_client : Request := mkRequest "" "192.0.2.7:50112".
Definition demo_proxied : Request := mkRequest "198.51.100.4" "10.0.0.2:80".

(** Three requests on two tokens, an idle time with a cleanup, and two requests more. *)
Definition demo_requests : list rl_event :=
  [EvRequest demo_client Second Second; EvRequest demo_client Second Second;
   EvRequest demo_client Second (Second + 1); EvRequest demo_proxied (2 * Second) (2 * Second)].

Definition demo_later : list rl_event :=
  [EvTick (6 * Minute); EvRequest demo_client (6 * Minute) (6 * Minute);
   EvInterval (10 * Minute); EvStop; EvLoopExit; EvRequest demo_client (7 * Minute) (7 * Minute)].

Ltac concrete := vm_compute; repeat split; (reflexivity || discriminate).

Lemma demo_interval d : d = 5 * Minute ∨ d = 10 * Minute → interval_fills 1 2 d.
Proof. intros [->| ->]; (split; [vm_compute; split; discriminate|vm_compute; discriminate]). Qed.

Lemma cleanup_keeps_replies_witness :
  exists l, rl_run (NewIPRateLimiter 1 2) (demo_requests ++ demo_later) =
            Some (l, [ServeNext; ServeNext; too_many; ServeNext; ServeNext; ServeNext]) /\
  [ServeNext; ServeNext; too_many; ServeNext; ServeNext; ServeNext] =
  ref_replies 1 2 ∅ (room_flags (NewIPRateLimiter 1 2) (demo_requests ++ demo_later)) (demo_requests ++ demo_later).
Proof.
  eexists. split; [vm_compute; reflexivity|].
  refine (proj1 (cleanup_keeps_replies 1 2 0 _ _ _ _ _ _ _ _ _)).
  - discriminate.
  - lia.
  - apply demo_interval. left. reflexivity.
  - repeat constructor; apply demo_interval; right; reflexivity.
  - concrete.
  - vm_compute. reflexivity.
Defined.

Lemma limiter_bounds_witness :
  exists l1 rs1 l2 rs2,
    rl_run (NewIPRateLimiter 1 2) demo_requests = Some (l1, rs1) /\ rl_run l1 demo_later = Some (l2, rs2) /\
    (inject_Z (served "192.0.2.7" demo_later rs2) <=
     inject_Z 2 + 1 * exact_secs (clock_end (clock_end 0 demo_requests) demo_later - clock_end 0 demo_requests) +
     inject_Z (made "192.0.2.7" demo_later) * slack 2)%Q.
Proof.
  do 4 eexists. split; [vm_compute; reflexivity|]. split; [vm_compute; reflexivity|].
  refine (proj1 (limiter_bounds 1 2 0 demo_requests demo_later _ _ _ _ _ _ _ _ _ _ _ _) "192.0.2.7").
  - split; discriminate.
  - lia.
  - apply demo_interval. left. reflexivity.
  - repeat constructor; apply demo_interval; right; reflexivity.
  - concrete.
  - concrete.
  - vm_compute. reflexivity.
  - vm_compute. reflexivity.
Defined.
