(* ===== verification/Config.v ===== *)
(** The configuration of the server: [internal/app/config.go]
    ([LoadConfig] and its readers of the environment).

    The environment is a function from names to values, empty when a variable is unset
    ([os.Getenv]).  [strconv.Atoi], [strconv.ParseInt], [strconv.ParseBool] and
    [time.ParseDuration] are written out; [strconv.ParseFloat], [url.Parse] and
    [strings.ToLower] are the parameters [ConfigLib]. *)

From stdpp Require Import base list numbers strings gmap sorting.
From Stdlib Require Import ZArith QArith Qround Lia.
From S2P Require Import Prelude Float64.

Local Open Scope Z_scope.
Local Open Scope stdpp_scope.
Local Open Scope go_scope.

(** * Reading numbers, as the standard library does *)

Definition digit_of (b : nat) : option Z :=
  if ((48 <=? b) && (b <=? 57))%nat then Some (Z.of_nat b - 48) else None.

Fixpoint digits_value (l : list nat) (acc : Z) : option Z :=
  match l with
  | [] => Some acc
  | b :: l' => match digit_of b with Some d => digits_value l' (10 * acc + d) | None => None end
  end.

(** An optional sign. *)
Definition sign_of (l : list nat) : bool * list nat :=
  match l with
  | 45%nat :: l' => (true, l')
  | 43%nat :: l' => (false, l')
  | _ => (false, l)
  end.

(** [strconv.ParseInt(s, 10, 64)] and [strconv.Atoi]; [None] is an error (syntax or range). *)
Definition parse_int (s : string) : option Z :=
  let (neg, l) := sign_of (bytes_of s) in
  match l with
  | [] => None
  | _ =>
      match digits_value l 0 with
      | Some n =>
          let v := if neg : bool then - n else n in
          if (min_int64 <=? v) && (v <=? max_int64) then Some v else None
      | None => None
      end
  end.

(** [strconv.ParseBool] *)
Definition parse_bool (s : string) : option bool :=
  if bool_decide (s ∈ ["1"; "t"; "T"; "TRUE"; "true"; "True"]) then Some true
  else if bool_decide (s ∈ ["0"; "f"; "F"; "FALSE"; "false"; "False"]) then Some false
  else None.

(** ** [time.ParseDuration] *)

Definition unit_value (u : list nat) : option Z :=
  match u with
  | [110; 115]%nat => Some 1
  | [117; 115]%nat | [194; 181; 115]%nat | [206; 188; 115]%nat => Some 1000
  | [109; 115]%nat => Some Millisecond
  | [115]%nat => Some Second
  | [109]%nat => Some Minute
  | [104]%nat => Some Hour
  | _ => None
  end.

(** [leadingInt]: the digits at the front; [None] when the value leaves 2^63. *)
Fixpoint leading_int (l : list nat) (x : Z) : option (Z * list nat) :=
  match l with
  | [] => Some (x, [])
  | b :: l' =>
      match digit_of b with
      | None => Some (x, l)
      | Some d =>
          if 2 ^ 63 / 10 <? x then None
          else let x' := x * 10 + d in if 2 ^ 63 <? x' then None else leading_int l' x'
      end
  end.

(** [leadingFraction]: the value, the power of ten it is over, and the rest; digits beyond
    the range of int64 are dropped. *)
Fixpoint leading_fraction (l : list nat) (x : Z) (scale : Q) (overflow : bool) : Z * Q * list nat :=
  match l with
  | [] => (x, scale, [])
  | b :: l' =>
      match digit_of b with
      | None => (x, scale, l)
      | Some d =>
          if overflow then leading_fraction l' x scale true
          else if (2 ^ 63 - 1) / 10 <? x then leading_fraction l' x scale true
          else
            let y := x * 10 + d in
            if 2 ^ 63 <? y then leading_fraction l' x scale true
            else leading_fraction l' y (fmul scale 10) false
      end
  end.

Definition unit_byte (b : nat) : bool := negb (b =? 46)%nat && match digit_of b with None => true | Some _ => false end.

Fixpoint span_unit (l : list nat) : list nat * list nat :=
  match l with
  | b :: l' => if unit_byte b then let (u, rest) := span_unit l' in (b :: u, rest) else ([], l)
  | [] => ([], [])
  end.

(** One number with its unit, in nanoseconds. *)
Definition duration_part (l : list nat) : option (Z * list nat) :=
  match leading_int l 0 with
  | None => None
  | Some (v, l1) =>
      let pre := negb (length l1 =? length l)%nat in
      let '(f, scale, l2, post) :=
        match l1 with
        | 46%nat :: l1' =>
            let '(f, scale, l2) := leading_fraction l1' 0 1 false in
            (f, scale, l2, negb (length l2 =? length l1')%nat)
        | _ => (0, 1%Q, l1, false)
        end in
      if negb pre && negb post then None
      else
        let (u, rest) := span_unit l2 in
        match unit_value u with
        | None => None
        | Some unit =>
            if 2 ^ 63 / unit <? v then None
            else
              let w := v * unit in
              if 0 <? f then
                let w := w + Qfloor (fmul (f_of_int f) (fdiv (f_of_int unit) scale)) in
                if 2 ^ 63 <? w then None else Some (w, rest)
              else Some (w, rest)
        end
  end.

(** The sum of the parts; every part consumes a byte, so the length is enough fuel. *)
Fixpoint duration_parts (fuel : nat) (l : list nat) (d : Z) : option Z :=
  match l, fuel with
  | [], _ => Some d
  | _, O => None
  | _, S fuel' =>
      match duration_part l with
      | None => None
      | Some (v, rest) =>
          let d' := (d + v) mod 2 ^ 64 in
          if 2 ^ 63 <? d' then None else duration_parts fuel' rest d'
      end
  end.

Definition parse_duration (s : string) : option Z :=
  let (neg, l) := sign_of (bytes_of s) in
  match l with
  | [] => None
  | [48%nat] => Some 0
  | _ =>
      match duration_parts (length l) l 0 with
      | None => None
      | Some d =>
          if neg : bool then Some (wrap64 (- d))
          else if 2 ^ 63 - 1 <? d then None else Some d
      end
  end.

(** ** float64 values with NaN and the infinities *)

Inductive GoFloat :=
| FNaN
| FInf (negative : bool)
| FNum (q : Q).

Definition go_lt (a b : GoFloat) : bool :=
  match a, b with
  | FNaN, _ | _, FNaN => false
  | FInf na, FInf nb => na && negb nb
  | FInf na, FNum _ => na
  | FNum _, FInf nb => negb nb
  | FNum x, FNum y => flt x y
  end.

(** [strconv.ParseFloat(s, 64)] and the host name of [url.Parse(s)], [None] for an error, and
    [strings.ToLower]. *)
Class ConfigLib := {
  parse_float : string → option GoFloat;
  url_Hostname : string → option string;
  strings_ToLower : string → string
}.

(** * The configuration *)

Record ScraperConfig := mkScraperConfig {
  c_Enabled : bool;
  c_SnapshotReadsEnabled : bool;
  c_Host : string;
  c_BaselineRequestsPerSecond : GoFloat;
  c_Burst : Z;
  c_BaselineConcurrency : Z;
  c_LeaseDuration : Z;
  c_FetchTimeout : Z;
  c_PermitGrace : Z;
  c_CommitGrace : Z;
  c_TickLimit : Z;
  c_ClaimPrefetchFactor : Z;
  c_ResponseBodyLimit : Z;
  c_CanonicalPayloadLimit : Z;
  c_SnapshotRetention : Z;
  c_RunRetention : Z;
  c_TriggerToken : string;
  c_HTTPTraceSampleRate : GoFloat
}.

Record Config := mkConfig {
  c_Email : string;
  c_Password : string;
  c_UserID : string;
  c_WarwickBaseURL : string;
  c_QRSessions : Z;
  c_TeacherSessions : Z;
  c_InteractiveSessions : Z;
  c_ConnsPerHost : Z;
  c_ReportConcurrency : Z;
  c_ReportRatePerSecond : Z;
  c_ReportRateBurst : Z;
  c_CourseDetailConcurrency : Z;
  c_ServerlessEnabled : bool;
  c_ServerlessIdleGrace : Z;
  c_RoomRetention : Z;
  c_DatabaseURL : string;
  c_Port : string;
  c_WSMaxConns : Z;
  c_CORSOrigin : string;
  c_Scraper : ScraperConfig
}.

Definition maxSessionTierSize : Z := 64.
Definition maxConnsPerHost : Z := 256.
Definition maxReportConcurrency : Z := 32.
Definition maxReportRatePerSecond : Z := 100.
Definition maxReportRateBurst : Z := 100.
Definition maxCourseDetailConcurrency : Z := 32.

(** A variable that could not be read, a value out of its bounds, and the rules between
    variables. *)
Inductive ConfigError :=
| NotA (key what : string)
| OutOfRange (key : string)
| Needs (message : string).

Section config.
Context `{ConfigLib}.
Variable env : string → string.

(** ** Readers *)

Definition strictEnvBool (key : string) (defaultValue : bool) : result ConfigError bool :=
  if bool_decide (env key = "") then Ok defaultValue
  else match parse_bool (env key) with Some v => Ok v | None => Err (NotA key "boolean") end.

Definition strictEnvFloat (key : string) (defaultValue : Q) : result ConfigError GoFloat :=
  if bool_decide (env key = "") then Ok (FNum defaultValue)
  else match parse_float (env key) with Some v => Ok v | None => Err (NotA key "number") end.

Definition strictEnvInt (key : string) (defaultValue : Z) : result ConfigError Z :=
  if bool_decide (env key = "") then Ok defaultValue
  else match parse_int (env key) with Some v => Ok v | None => Err (NotA key "integer") end.

Definition strictEnvInt64 (key : string) (defaultValue : Z) : result ConfigError Z :=
  if bool_decide (env key = "") then Ok defaultValue
  else match parse_int (env key) with Some v => Ok v | None => Err (NotA key "integer") end.

Definition strictEnvDuration (key : string) (defaultValue : Z) : result ConfigError Z :=
  if bool_decide (env key = "") then Ok defaultValue
  else match parse_duration (env key) with Some v => Ok v | None => Err (NotA key "duration") end.

Definition getServerlessEnabled : result ConfigError bool :=
  if bool_decide (env "SERVERLESS_ENABLED" = "") then Ok (nonempty (env "RAILWAY_ENVIRONMENT_ID"))
  else match parse_bool (env "SERVERLESS_ENABLED") with
       | Some v => Ok v
       | None => Err (NotA "SERVERLESS_ENABLED" "boolean")
       end.

Definition getServerlessIdleGrace : result ConfigError Z :=
  let key := "SERVERLESS_IDLE_GRACE" in
  if bool_decide (env key = "") then Ok (2 * Minute)
  else match parse_duration (env key) with
       | None => Err (NotA key "duration")
       | Some grace =>
           if (grace <? 30 * Second) || (6 * Minute <? grace) then Err (OutOfRange key) else Ok grace
       end.

Definition resolvePort : string :=
  let addr := env "PORT" in
  let addr := if bool_decide (addr = "") then env "SERVER_ADDR" else addr in
  let addr := if bool_decide (addr = "") then ":3000" else addr in
  match addr with
  | String c _ => if bool_decide (c = Ascii.ascii_of_nat 58) then addr else ":" +:+ addr
  | EmptyString => addr
  end.

(** A missing, malformed or non-positive value gives the default. *)
Definition getEnvInt (key : string) (defaultVal : Z) : Z :=
  if bool_decide (env key = "") then defaultVal
  else match parse_int (env key) with
       | None => defaultVal
       | Some n => if n <=? 0 then defaultVal else n
       end.

Definition getEnvStr (key defaultVal : string) : string :=
  if nonempty (env key) then env key else defaultVal.

(** ** The scraper's part *)

Definition validateScraperConfig (c : ScraperConfig) : result ConfigError unit :=
  fail_if (c_SnapshotReadsEnabled c && negb (c_Enabled c))
    with_err (Needs "SNAPSHOT_READS_ENABLED requires SCRAPER_ENABLED") in
  fail_if (go_lt (c_BaselineRequestsPerSecond c) (FNum (1 # 4)) || go_lt (FNum 5) (c_BaselineRequestsPerSecond c))
    with_err (OutOfRange "SCRAPER_REQUESTS_PER_SECOND") in
  fail_if ((c_Burst c <? 1) || (5 <? c_Burst c)) with_err (OutOfRange "SCRAPER_BURST") in
  fail_if ((c_BaselineConcurrency c <? 1) || (4 <? c_BaselineConcurrency c))
    with_err (OutOfRange "SCRAPER_MAX_CONCURRENCY") in
  fail_if ((c_LeaseDuration c <? 30 * Second) || (10 * Minute <? c_LeaseDuration c))
    with_err (OutOfRange "SCRAPER_LEASE_DURATION") in
  fail_if ((c_FetchTimeout c <? 5 * Second) || (Minute <? c_FetchTimeout c))
    with_err (OutOfRange "SCRAPER_FETCH_TIMEOUT") in
  fail_if ((c_PermitGrace c <? Second) || (Minute <? c_PermitGrace c))
    with_err (OutOfRange "SCRAPER_PERMIT_GRACE") in
  fail_if ((c_CommitGrace c <? 0) || (Minute <? c_CommitGrace c))
    with_err (OutOfRange "SCRAPER_COMMIT_GRACE") in
  fail_if ((c_TickLimit c <? 1) || (500 <? c_TickLimit c)) with_err (OutOfRange "SCRAPER_TICK_LIMIT") in
  fail_if ((c_ClaimPrefetchFactor c <? 1) || (4 <? c_ClaimPrefetchFactor c))
    with_err (OutOfRange "SCRAPER_CLAIM_PREFETCH_FACTOR") in
  let minPayload := Z.shiftl 1 20 in
  let maxPayload := Z.shiftl 50 20 in
  fail_if ((c_ResponseBodyLimit c <? minPayload) || (maxPayload <? c_ResponseBodyLimit c))
    with_err (OutOfRange "SCRAPER_RESPONSE_BODY_LIMIT") in
  fail_if ((c_CanonicalPayloadLimit c <? minPayload) || (maxPayload <? c_CanonicalPayloadLimit c))
    with_err (OutOfRange "SCRAPER_CANONICAL_PAYLOAD_LIMIT") in
  fail_if (wrap64 (c_ResponseBodyLimit c * 2) <? c_CanonicalPayloadLimit c)
    with_err (Needs "SCRAPER_CANONICAL_PAYLOAD_LIMIT exceeds the safe response expansion limit") in
  let minRetention := 24 * Hour in
  let maxRetention := 2160 * Hour in
  fail_if ((c_SnapshotRetention c <? minRetention) || (maxRetention <? c_SnapshotRetention c))
    with_err (OutOfRange "SCRAPER_SNAPSHOT_RETENTION") in
  fail_if ((c_RunRetention c <? minRetention) || (maxRetention <? c_RunRetention c))
    with_err (OutOfRange "SCRAPER_RUN_RETENTION") in
  fail_if (go_lt (c_HTTPTraceSampleRate c) (FNum 0) || go_lt (FNum 1) (c_HTTPTraceSampleRate c))
    with_err (OutOfRange "SCRAPER_HTTPTRACE_SAMPLE_RATE") in
  let requiredLease := wrap64 (wrap64 (c_FetchTimeout c + c_PermitGrace c) + c_CommitGrace c) in
  fail_if (c_LeaseDuration c <? requiredLease)
    with_err (Needs "SCRAPER_LEASE_DURATION must be at least fetch timeout + permit grace + commit grace") in
  Ok tt.

Definition loadScraperConfig (warwickBaseURL : string) : result ConfigError ScraperConfig :=
  match url_Hostname warwickBaseURL with
  | None | Some EmptyString => Err (Needs "WARWICK_BASE_URL must include a valid host")
  | Some hostname =>
      let* enabled := strictEnvBool "SCRAPER_ENABLED" false in
      let* snapshotReadsEnabled := strictEnvBool "SNAPSHOT_READS_ENABLED" false in
      let* requestsPerSecond := strictEnvFloat "SCRAPER_REQUESTS_PER_SECOND" 1 in
      let* burst := strictEnvInt "SCRAPER_BURST" 1 in
      let* concurrency := strictEnvInt "SCRAPER_MAX_CONCURRENCY" 2 in
      let* leaseDuration := strictEnvDuration "SCRAPER_LEASE_DURATION" (2 * Minute) in
      let* fetchTimeout := strictEnvDuration "SCRAPER_FETCH_TIMEOUT" (30 * Second) in
      let* permitGrace := strictEnvDuration "SCRAPER_PERMIT_GRACE" (10 * Second) in
      let* commitGrace := strictEnvDuration "SCRAPER_COMMIT_GRACE" (15 * Second) in
      let* tickLimit := strictEnvInt "SCRAPER_TICK_LIMIT" 50 in
      let* prefetchFactor := strictEnvInt "SCRAPER_CLAIM_PREFETCH_FACTOR" 2 in
      let* responseBodyLimit := strictEnvInt64 "SCRAPER_RESPONSE_BODY_LIMIT" (Z.shiftl 16 20) in
      let* canonicalPayloadLimit := strictEnvInt64 "SCRAPER_CANONICAL_PAYLOAD_LIMIT" (Z.shiftl 16 20) in
      let* snapshotRetention := strictEnvDuration "SCRAPER_SNAPSHOT_RETENTION" (720 * Hour) in
      let* runRetention := strictEnvDuration "SCRAPER_RUN_RETENTION" (720 * Hour) in
      let* traceSampleRate := strictEnvFloat "SCRAPER_HTTPTRACE_SAMPLE_RATE" (rne (1 # 100)) in
      let config :=
        mkScraperConfig enabled snapshotReadsEnabled (strings_ToLower hostname)
          requestsPerSecond burst concurrency leaseDuration fetchTimeout permitGrace commitGrace
          tickLimit prefetchFactor responseBodyLimit canonicalPayloadLimit snapshotRetention
          runRetention (TrimSpace (env "SCRAPER_TRIGGER_TOKEN")) traceSampleRate in
      let* _ := validateScraperConfig config in
      Ok config
  end.

(** ** [LoadConfig] *)

(** The limits on the server's own part, checked once everything is read. *)
Definition validateConfig (cfg : Config) : result ConfigError Config :=
  fail_if (maxReportConcurrency <? c_ReportConcurrency cfg) with_err (OutOfRange "WARWICK_REPORT_CONCURRENCY") in
  fail_if (maxReportRatePerSecond <? c_ReportRatePerSecond cfg)
    with_err (OutOfRange "WARWICK_REPORT_RATE_PER_SECOND") in
  fail_if (maxReportRateBurst <? c_ReportRateBurst cfg) with_err (OutOfRange "WARWICK_REPORT_RATE_BURST") in
  fail_if (maxCourseDetailConcurrency <? c_CourseDetailConcurrency cfg)
    with_err (OutOfRange "WARWICK_COURSE_DETAIL_CONCURRENCY") in
  fail_if (maxSessionTierSize <? c_QRSessions cfg) with_err (OutOfRange "WARWICK_QR_SESSIONS") in
  fail_if (maxSessionTierSize <? c_TeacherSessions cfg) with_err (OutOfRange "WARWICK_TEACHER_SESSIONS") in
  fail_if (maxSessionTierSize <? c_InteractiveSessions cfg)
    with_err (OutOfRange "WARWICK_INTERACTIVE_SESSIONS") in
  fail_if (maxConnsPerHost <? c_ConnsPerHost cfg) with_err (OutOfRange "WARWICK_CONNS_PER_HOST") in
  fail_if (c_ConnsPerHost cfg <? c_BaselineConcurrency (c_Scraper cfg))
    with_err (Needs "WARWICK_CONNS_PER_HOST must be >= SCRAPER_MAX_CONCURRENCY") in
  fail_if (c_ServerlessEnabled cfg && c_Enabled (c_Scraper cfg) &&
           bool_decide (c_TriggerToken (c_Scraper cfg) = ""))
    with_err (Needs "SCRAPER_TRIGGER_TOKEN must be set when SERVERLESS_ENABLED and SCRAPER_ENABLED are true") in
  fail_if (bool_decide (c_DatabaseURL cfg = "")) with_err (Needs "DATABASE_URL must be set") in
  Ok cfg.

Definition LoadConfig : result ConfigError Config :=
  let* serverlessEnabled := getServerlessEnabled in
  let* serverlessIdleGrace := getServerlessIdleGrace in
  let* roomRetention := strictEnvDuration "ROOM_RETENTION" (168 * Hour) in
  fail_if ((roomRetention <? 0) || (8760 * Hour <? roomRetention)) with_err (OutOfRange "ROOM_RETENTION") in
  let warwickBaseURL := getEnvStr "WARWICK_BASE_URL" "https://warwick.humantix.cloud" in
  let* scraperConfig := loadScraperConfig warwickBaseURL in
  validateConfig
    (mkConfig (env "WARWICK_EMAIL") (env "WARWICK_PASSWORD") (env "WARWICK_USER_ID") warwickBaseURL
       (getEnvInt "WARWICK_QR_SESSIONS" 2) (getEnvInt "WARWICK_TEACHER_SESSIONS" 2)
       (getEnvInt "WARWICK_INTERACTIVE_SESSIONS" 2) (getEnvInt "WARWICK_CONNS_PER_HOST" 50)
       (getEnvInt "WARWICK_REPORT_CONCURRENCY" 2) (getEnvInt "WARWICK_REPORT_RATE_PER_SECOND" 2)
       (getEnvInt "WARWICK_REPORT_RATE_BURST" 2) (getEnvInt "WARWICK_COURSE_DETAIL_CONCURRENCY" 2)
       serverlessEnabled serverlessIdleGrace roomRetention (env "DATABASE_URL") resolvePort
       (getEnvInt "WARWICK_MAX_CONCURRENT_WS" 500) (env "CORS_ORIGIN") scraperConfig).

End config.
