(* ===== verification/Wire.v ===== *)
(** The wiring of the snapshot runtime, [Wire] of [internal/app/bootstrap.go]: from a
    configuration and a database to a seeded store and a configured scheduler.

    The rest of [Wire] (pools, migrations, clients, router) is construction of objects
    whose behaviour the other files model. *)

From stdpp Require Import base list numbers strings gmap sorting.
From Stdlib Require Import ZArith QArith Lia.
From S2P Require Import Prelude Float64 Domain Policy Canonical Tables Leases HostState Scheduler Provider Config.

Local Open Scope Z_scope.
Local Open Scope stdpp_scope.
Local Open Scope go_scope.

(** * The parts *)

Definition wrap32 (z : Z) : Z := (z + 2 ^ 31) mod 2 ^ 32 - 2 ^ 31.

Definition snapshotPoolMinimum (maxScrapeConcurrency : Z) : Z :=
  let n := if maxScrapeConcurrency <? 1 then 1 else maxScrapeConcurrency in
  wrap32 (wrap64 (8 + n)).

(** Whether the warning is logged. *)
Definition warnIfSnapshotPoolUndersized (maxConnections maxScrapeConcurrency : Z) : bool :=
  negb (snapshotPoolMinimum maxScrapeConcurrency <=? maxConnections).

Definition root_ref (host : string) (kind : SnapshotKind) (key : string) : TargetRef :=
  {| ref_Host := host; ref_Kind := kind; ref_ParentKey := ""; ref_ResourceKey := key |}.

Definition root_refs (host : string) : list TargetRef :=
  [root_ref host SnapshotCourseCatalog "catalog"; root_ref host SnapshotStudentProfiles "profiles"].

Definition root_seed (now : Z) (ref : TargetRef) : TargetSeed :=
  let policy := PolicyFor (ref_Kind ref) (SessionStatusOther "") in
  {| sd_Ref := ref; sd_Attributes := ""; sd_Priority := 0; sd_InitialInterval := p_Initial policy;
     sd_MinInterval := p_Min policy; sd_MaxInterval := p_Max policy; sd_MaxServeAge := p_MaxServeAge policy;
     sd_NextRunAt := now |}.

Definition rootSnapshotSeeds (host : string) (now : Z) : list TargetSeed := map (root_seed now) (root_refs host).

Definition scheduler_config (workerID : string) (c : ScraperConfig) : SchedulerConfig :=
  {| sc_WorkerID := workerID; sc_MaxConcurrency := c_BaselineConcurrency c;
     sc_PrefetchFactor := c_ClaimPrefetchFactor c; sc_LeaseDuration := c_LeaseDuration c;
     sc_CommitGrace := c_CommitGrace c; sc_TickLimit := c_TickLimit c; sc_PollInterval := 5 * Second;
     sc_RefreshPollInterval := 100 * Millisecond; sc_RefreshPollMax := 500 * Millisecond;
     sc_SnapshotRetention := c_SnapshotRetention c; sc_RunRetention := c_RunRetention c;
     sc_PruneBatchSize := 1000; sc_WatchdogInterval := 0;
     sc_PermitTTL := wrap64 (c_FetchTimeout c + c_PermitGrace c) |}.

(** The constructors, [None] for their panics. *)
Definition SetHTTPTraceSampleRate (rate : GoFloat) : option GoFloat :=
  if go_lt rate (FNum 0) || go_lt (FNum 1) rate then None else Some rate.

Definition NewSnapshotSource (responseBodyLimit : Z) : option Z :=
  if responseBodyLimit <=? 0 then None else Some responseBodyLimit.

Definition NewHostController (permitTTL : Z) : option Z :=
  if permitTTL <=? 0 then None else Some permitTTL.

Definition NewCoordinator (fetchTimeout canonicalPayloadLimit : Z) : option (Z * Z) :=
  if fetchTimeout <=? 0 then None
  else if canonicalPayloadLimit <=? 0 then None
  else Some (fetchTimeout, canonicalPayloadLimit).

(** * The snapshot runtime *)

Record SnapshotRuntime := {
  rt_Source : Z * GoFloat;
  rt_Coordinator : Z * Z;
  rt_Scheduler : SchedulerConfig;
  rt_ProviderHost : string;
  (** the scheduler is an always-on worker *)
  rt_AlwaysOn : bool
}.

(** What the teacher service reads from. *)
Inductive TeacherReads := SnapshotReads | LiveReads.

Inductive WireError :=
| WireNoClient
| WireSeedHost (e : RepoError)
| WireSeedRoots (e : RepoError)
| WireNotWired
| WireNoLiveClient
| WirePanic.

Section wire.
Context `{GoLib, Postgres}.

(** [SeedHost] of any float: the infinities fail its comparisons; NaN passes them, and the
    range CHECK of its NUMERIC column refuses it. *)
Definition seed_host (c : ScraperConfig) (now : Z) (db : DB) : result RepoError DB :=
  let seed q := {| hs_Host := c_Host c; hs_BaselineRequestsPerSecond := q; hs_Burst := c_Burst c;
                   hs_BaselineConcurrency := c_BaselineConcurrency c; hs_Now := now |} in
  match c_BaselineRequestsPerSecond c with
  | FNum q => SeedHost (seed q) now db
  | FNaN => let* _ := SeedHost (seed 1%Q) now db in Err (ErrConstraint "scrape_host_state")
  | FInf _ =>
      if blank (c_Host c) then Err (ErrInvalid "seed host is required")
      else Err (ErrInvalid "seed host requests per second must be between 0.25 and 5")
  end.

(** The objects of the runtime, in the order they are made. *)
Definition build_runtime (cfg : Config) (workerID : string) : option SnapshotRuntime :=
  let c := c_Scraper cfg in
  limit ← NewSnapshotSource (c_ResponseBodyLimit c);
  rate ← SetHTTPTraceSampleRate (c_HTTPTraceSampleRate c);
  _ ← NewHostController (wrap64 (c_FetchTimeout c + c_PermitGrace c));
  coordinator ← NewCoordinator (c_FetchTimeout c) (c_CanonicalPayloadLimit c);
  scheduler ← NewScheduler (scheduler_config workerID c);
  host ← NewSnapshotProvider true true (c_Host c);
  Some {| rt_Source := (limit, rate); rt_Coordinator := coordinator; rt_Scheduler := scheduler;
          rt_ProviderHost := host; rt_AlwaysOn := c_Enabled c && negb (c_ServerlessEnabled cfg) |}.

(** The part of [Wire] from the snapshot repository to the teacher service.  [client] is whether the site's client could be made. *)
Definition wire_runtime (cfg : Config) (client : bool) (workerID : string) (now : Z) (db : DB)
    : DB * result WireError (option SnapshotRuntime) :=
  let c := c_Scraper cfg in
  if negb (c_Enabled c || c_SnapshotReadsEnabled c) then (db, Ok None)
  else if negb client then (db, Err WireNoClient)
  else match seed_host c now db with
       | Err e => (db, Err (WireSeedHost e))
       | Ok db1 =>
           match Seed (rootSnapshotSeeds (c_Host c) now) db1 with
           | Err e => (db1, Err (WireSeedRoots e))
           | Ok db2 =>
               match build_runtime cfg workerID with
               | None => (db2, Err WirePanic)
               | Some rt => (db2, Ok (Some rt))
               end
           end
       end.

Definition wire_snapshots (cfg : Config) (client : bool) (workerID : string) (now : Z) (db : DB)
    : DB * result WireError (option SnapshotRuntime * TeacherReads) :=
  let (db', r) := wire_runtime cfg client workerID now db in
  (db',
   let* rt := r in
   if c_SnapshotReadsEnabled (c_Scraper cfg) then
     match rt with None => Err WireNotWired | Some _ => Ok (rt, SnapshotReads) end
   else if negb client then Err WireNoLiveClient
   else Ok (rt, LiveReads)).
End wire.
