(* ===== verification/WireSpec.v ===== *)
(** What an accepted configuration guarantees: every setting is within its bounds, and the
    snapshot runtime comes up on any store the system can be in. *)

From stdpp Require Import base list numbers strings gmap sorting.
From Stdlib Require Import ZArith QArith Lia Lqa.
From S2P Require Import Prelude Float64 Sanitize Domain Policy Canonical Tables Leases Lifecycle Reads Commit.
From S2P Require Import HostState Maintenance Store CommitSpec System HostSpec Permits Coordinator RunSystem.
From S2P Require Import Scheduler SchedulerSpec Provider Config Wire.

Local Open Scope Z_scope.
Local Open Scope stdpp_scope.
Local Open Scope go_scope.

(** * Bounds *)

Definition within (lo hi v : Z) : Prop := lo ≤ v ≤ hi.

(** A float that is no smaller than [lo] and no larger than [hi]: a number between them, or
    NaN, which compares with nothing. *)
Definition not_outside (lo hi : Q) (v : GoFloat) : Prop :=
  match v with FNaN => True | FInf _ => False | FNum q => (lo <= q)%Q ∧ (q <= hi)%Q end.

Record scraper_bounds (c : ScraperConfig) : Prop := {
  sb_reads : c_SnapshotReadsEnabled c = true → c_Enabled c = true;
  sb_rps : not_outside (1 # 4) 5 (c_BaselineRequestsPerSecond c);
  sb_burst : within 1 5 (c_Burst c);
  sb_concurrency : within 1 4 (c_BaselineConcurrency c);
  sb_lease : within (30 * Second) (10 * Minute) (c_LeaseDuration c);
  sb_fetch : within (5 * Second) Minute (c_FetchTimeout c);
  sb_permit : within Second Minute (c_PermitGrace c);
  sb_commit : within 0 Minute (c_CommitGrace c);
  sb_tick : within 1 500 (c_TickLimit c);
  sb_prefetch : within 1 4 (c_ClaimPrefetchFactor c);
  sb_body : within (2 ^ 20) (50 * 2 ^ 20) (c_ResponseBodyLimit c);
  sb_payload : within (2 ^ 20) (50 * 2 ^ 20) (c_CanonicalPayloadLimit c);
  sb_expansion : c_CanonicalPayloadLimit c ≤ 2 * c_ResponseBodyLimit c;
  sb_snapshots : within (24 * Hour) (2160 * Hour) (c_SnapshotRetention c);
  sb_runs : within (24 * Hour) (2160 * Hour) (c_RunRetention c);
  sb_trace : not_outside 0 1 (c_HTTPTraceSampleRate c);
  sb_required : c_FetchTimeout c + c_PermitGrace c + c_CommitGrace c ≤ c_LeaseDuration c
}.

Record config_bounds (cfg : Config) : Prop := {
  cb_qr : within 1 64 (c_QRSessions cfg);
  cb_teacher : within 1 64 (c_TeacherSessions cfg);
  cb_interactive : within 1 64 (c_InteractiveSessions cfg);
  cb_conns : within (c_BaselineConcurrency (c_Scraper cfg)) 256 (c_ConnsPerHost cfg);
  cb_reports : within 1 32 (c_ReportConcurrency cfg);
  cb_rate : within 1 100 (c_ReportRatePerSecond cfg);
  cb_burst : within 1 100 (c_ReportRateBurst cfg);
  cb_details : within 1 32 (c_CourseDetailConcurrency cfg);
  cb_grace : within (30 * Second) (6 * Minute) (c_ServerlessIdleGrace cfg);
  cb_retention : within 0 (8760 * Hour) (c_RoomRetention cfg);
  cb_ws : 1 ≤ c_WSMaxConns cfg;
  cb_database : c_DatabaseURL cfg ≠ "";
  cb_port : ∃ port, c_Port cfg = ":" +:+ port;
  cb_token : c_ServerlessEnabled cfg = true → c_Enabled (c_Scraper cfg) = true →
    c_TriggerToken (c_Scraper cfg) ≠ "";
  cb_scraper : scraper_bounds (c_Scraper cfg)
}.

Lemma guard_ok {E A} (b : bool) (e : E) (k : result E A) x :
  (fail_if b with_err e in k) = Ok x → b = false ∧ k = Ok x.
Proof. destruct b; [done|]. cbn. done. Qed.

Lemma bind_ok {E A B} (r : result E A) (k : A → result E B) x :
  result_bind r k = Ok x → ∃ a, r = Ok a ∧ k a = Ok x.
Proof. destruct r as [a|]; [|done]. cbn. eauto. Qed.

Lemma go_lt_bounds lo hi v :
  go_lt v (FNum lo) || go_lt (FNum hi) v = false → not_outside lo hi v.
Proof.
  intros [H1 H2]%orb_false_iff. destruct v as [|[]|q]; cbn in *; try done.
  unfold flt in *. apply negb_false_iff in H1, H2. rewrite Qle_bool_iff in H1, H2. done.
Qed.

Lemma between_ok lo hi v : (v <? lo) || (hi <? v) = false → within lo hi v.
Proof. intros [?%Z.ltb_ge ?%Z.ltb_ge]%orb_false_iff. done. Qed.

Section config.
Context `{ConfigLib}.

Lemma validateScraperConfig_bounds c : validateScraperConfig c = Ok tt → scraper_bounds c.
Proof.
  unfold validateScraperConfig. intros E. cbv zeta in E.
  do 17 (apply guard_ok in E as [? E]).
  repeat match goal with
  | G : _ || _ = false |- _ => first [apply go_lt_bounds in G|apply between_ok in G]
  | G : (_ <? _) = false |- _ => apply Z.ltb_ge in G
  end.
  repeat match goal with G : within _ _ _ |- _ => pose proof G as [? ?]; revert G end.
  intros. assert (W : ∀ z, 0 ≤ z ≤ 2 ^ 62 → wrap64 z = z).
  { intros z Hz. apply wrap64_id. unfold in_int64, min_int64, max_int64. lia. }
  change (Z.shiftl 50 20) with (50 * 2 ^ 20) in *. change (Z.shiftl 1 20) with (2 ^ 20) in *.
  assert (N : Second = 1000000000 ∧ Minute = 60000000000) by done. destruct N as [Ns Nm]. rewrite Ns, Nm in *.
  repeat match goal with
  | G : context [wrap64 ?z] |- _ => rewrite (W z) in G by lia
  end.
  split; try assumption.
  - intros Hr. by destruct (c_Enabled c); [|rewrite Hr in *].
  - lia.
Qed.

Variable env : string → string.

Lemma getEnvInt_positive key d : 1 ≤ d → 1 ≤ getEnvInt env key d.
Proof.
  intros Hd. unfold getEnvInt. case_bool_decide; [done|]. destruct (parse_int _) as [n|]; [|done].
  destruct (Z.leb_spec n 0); lia.
Qed.

Lemma loadScraperConfig_ok url c :
  loadScraperConfig env url = Ok c →
  scraper_bounds c ∧ ∃ h, url_Hostname url = Some h ∧ h ≠ "" ∧ c_Host c = strings_ToLower h.
Proof.
  unfold loadScraperConfig. destruct (url_Hostname url) as [[|a h]|]; try done. intros E.
  do 16 (apply bind_ok in E as (? & _ & E)).
  apply bind_ok in E as ([] & Ev & [= <-]). split; [by apply validateScraperConfig_bounds|].
  exists (String a h). done.
Qed.

Lemma getServerlessIdleGrace_ok d : getServerlessIdleGrace env = Ok d → within (30 * Second) (6 * Minute) d.
Proof.
  unfold getServerlessIdleGrace. cbv zeta. case_bool_decide; [intros [= <-]; by vm_compute|].
  destruct (parse_duration _) as [g|]; [|done]. destruct (_ || _) eqn:E; [done|]. intros [= <-].
  by apply between_ok.
Qed.

Lemma resolvePort_colon : ∃ port, resolvePort env = ":" +:+ port.
Proof.
  unfold resolvePort. cbv zeta.
  set (addr := if bool_decide (env "PORT" = "") then _ else _).
  set (addr' := if bool_decide (addr = "") then _ else _).
  assert (Hne : addr' ≠ "") by (unfold addr'; case_bool_decide; done).
  destruct addr' as [|a s]; [done|]. case_bool_decide as Ha; [|by eexists].
  exists s. by rewrite Ha.
Qed.

Lemma validateConfig_ok cfg cfg' :
  validateConfig cfg = Ok cfg' →
  cfg' = cfg ∧ c_ReportConcurrency cfg ≤ 32 ∧ c_ReportRatePerSecond cfg ≤ 100 ∧ c_ReportRateBurst cfg ≤ 100 ∧
  c_CourseDetailConcurrency cfg ≤ 32 ∧ c_QRSessions cfg ≤ 64 ∧ c_TeacherSessions cfg ≤ 64 ∧
  c_InteractiveSessions cfg ≤ 64 ∧ c_ConnsPerHost cfg ≤ 256 ∧
  c_BaselineConcurrency (c_Scraper cfg) ≤ c_ConnsPerHost cfg ∧
  (c_ServerlessEnabled cfg = true → c_Enabled (c_Scraper cfg) = true → c_TriggerToken (c_Scraper cfg) ≠ "") ∧
  c_DatabaseURL cfg ≠ "".
Proof.
  unfold validateConfig. intros E. do 11 (apply guard_ok in E as [? E]). injection E as <-.
  repeat match goal with
  | G : (_ <? _) = false |- _ => apply Z.ltb_ge in G
  | G : bool_decide _ = false |- _ => apply bool_decide_eq_false in G
  end.
  split_and!; try assumption; [done|]. intros Hsl Hen Hno.
  match goal with G : _ && _ && _ = false |- _ => by rewrite Hsl, Hen, bool_decide_true in G end.
Qed.

(** Every setting of an accepted configuration is within its bounds. *)
Lemma LoadConfig_bounds cfg :
  LoadConfig env = Ok cfg →
  config_bounds cfg ∧
  ∃ h, url_Hostname (c_WarwickBaseURL cfg) = Some h ∧ h ≠ "" ∧ c_Host (c_Scraper cfg) = strings_ToLower h.
Proof.
  unfold LoadConfig. intros E. apply bind_ok in E as (sl & _ & E). apply bind_ok in E as (g & Hg & E).
  apply bind_ok in E as (rr & _ & E). apply guard_ok in E as [Hr E]. cbv zeta in E.
  apply bind_ok in E as (sc & Hs & E). apply loadScraperConfig_ok in Hs as [Hb Hh].
  apply getServerlessIdleGrace_ok in Hg. apply between_ok in Hr.
  apply validateConfig_ok in E as (-> & Hv). cbn in Hv. cbn [c_WarwickBaseURL c_Scraper]. split; [|done].
  destruct Hv as (? & ? & ? & ? & ? & ? & ? & ? & ? & ? & ?).
  split; cbn; try assumption; try (split; [apply getEnvInt_positive; done|assumption]); try (by split).
  - apply getEnvInt_positive. done.
  - apply resolvePort_colon.
Qed.

End config.

(** * Seeding *)

(** A seed whose columns fit the schema. *)
Definition seed_fits (s : TargetSeed) : Prop :=
  kind_Valid (ref_Kind (sd_Ref s)) = true ∧
  within 1 (2 ^ 31 - 1) (durationSeconds (sd_InitialInterval s)) ∧
  1 ≤ durationSeconds (sd_MinInterval s) ∧
  durationSeconds (sd_MinInterval s) ≤ durationSeconds (sd_MaxInterval s) ∧
  durationSeconds (sd_MaxInterval s) ≤ durationSeconds (sd_MaxServeAge s) ∧
  durationSeconds (sd_MaxServeAge s) < 2 ^ 31 ∧
  within 1 (2 ^ 15 - 1) (seed_priority s).

(** [t] is an enabled target that is due by [now]. *)
Definition due_target (ref : TargetRef) (now : Z) (t : TargetRow) : Prop :=
  t_ref t = ref ∧ enabled (t_life t) = true ∧ next_run_at (t_sched t) ≤ now.

Lemma seed_row_check s : seed_fits s → target_check (seed_row s) = true.
Proof.
  intros (Hk & (H1 & H2) & H3 & H4 & H5 & H6 & (H7 & H8)). unfold target_check, int4, int2.
  cbn [seed_row t_ref t_sched t_pub t_lease t_life missing_count current_interval_seconds min_interval_seconds
    max_interval_seconds max_serve_age_seconds priority validation_seq consecutive_failures recent_changes
    current_version lease_generation lease_owner lease_expires_at current_snapshot_id current_content_hash
    quality_state consecutive_missing_count previous_record_count].
  rewrite !andb_true_iff, !Z.leb_le, !Z.ltb_lt. split_and!; try assumption; try lia; reflexivity.
Qed.

Lemma seed_conflict_check s t :
  seed_fits s → target_check t = true → target_check (seed_conflict s t) = true.
Proof.
  intros (Hk & (H1 & H2) & H3 & H4 & H5 & H6 & (H7 & H8)) Ht. unfold target_check, int4, int2, int8 in *.
  cbn [seed_conflict t_ref t_sched t_pub t_lease t_life missing_count current_interval_seconds min_interval_seconds
    max_interval_seconds max_serve_age_seconds priority consecutive_failures recent_changes
    lifecycle_state consecutive_missing_count] in *.
  rewrite !andb_true_iff, !Z.leb_le, !Z.ltb_lt in Ht |- *. destruct_and!.
  split_and!; try assumption; lia.
Qed.

(** Upserting a seed that fits succeeds, and the target is due. *)
Lemma upsert_seed_ok s db :
  seed_fits s → wf db → is_Some (db_hosts db !! ref_Host (sd_Ref s)) →
  ∃ db' i t, upsert_seed s db = Ok db' ∧ wf db' ∧ db_hosts db' = db_hosts db ∧
    db_targets db' = <[i := t]> (db_targets db) ∧ due_target (sd_Ref s) (sd_NextRunAt s) t ∧
    (∀ u, db_targets db !! i = Some u → t_ref u = sd_Ref s).
Proof.
  intros Hs W [h Hh].
  assert (G : ∀ db', upsert_seed s db = Ok db' → wf db') by (intros db' E; by destruct (upsert_seed_harmless _ _ _ E W)).
  unfold upsert_seed in *. rewrite (seed_row_check s Hs) in *. cbn [negb] in *. destruct (find_target db (sd_Ref s)) as [[i t]|] eqn:Ef.
  - apply find_target_Some in Ef as [Ht Er].
    rewrite (seed_conflict_check s t Hs (wf_check _ W _ _ Ht)) in *.
    do 3 eexists. split; [reflexivity|]. split; [by apply G|]. do 2 (split; [reflexivity|]).
    split; [split_and!; [exact Er|reflexivity|cbn; lia]|]. intros u Hu. congruence.
  - rewrite Hh in *. cbn [is_none] in *.
    do 3 eexists. split; [reflexivity|]. split; [by apply G|]. do 2 (split; [reflexivity|]).
    split; [split_and!; [reflexivity|reflexivity|cbn; lia]|].
    intros u Hu. pose proof (wf_target_ids _ W _ (ex_intro _ u Hu)). lia.
Qed.

(** Upserting several seeds that fit leaves each of their targets due. *)
Lemma upsert_all_ok seeds now : ∀ db,
  Forall (λ s, seed_fits s ∧ is_Some (db_hosts db !! ref_Host (sd_Ref s)) ∧ sd_NextRunAt s = now) seeds →
  wf db →
  ∃ db', upsert_all seeds db = Ok db' ∧ db_hosts db' = db_hosts db ∧
    (∀ ref, (∃ i t, db_targets db !! i = Some t ∧ due_target ref now t) ∨ ref ∈ map sd_Ref seeds →
       ∃ i t, db_targets db' !! i = Some t ∧ due_target ref now t).
Proof.
  induction seeds as [|s seeds IH]; intros db Hs W; cbn [upsert_all map].
  { exists db. do 2 (split; [done|]). intros ref [?|Hn]; [done|by apply not_elem_of_nil in Hn]. }
  apply Forall_cons in Hs as [(Hf & Hh & Hn) Hs].
  destruct (upsert_seed_ok s db Hf W Hh) as (db1 & i & t & E1 & W1 & Eh1 & Et1 & Hdue & Hi).
  rewrite E1. cbn [result_bind]. destruct (IH db1) as (db2 & E2 & Eh2 & Hkeep); [by rewrite Eh1|exact W1|].
  exists db2. split; [exact E2|]. split; [by rewrite Eh2|].
  intros ref Hr. apply Hkeep. rewrite Hn in Hdue.
  assert (Hthis : ref = sd_Ref s → ∃ j u, db_targets db1 !! j = Some u ∧ due_target ref now u).
  { intros ->. exists i, t. split; [rewrite Et1; apply lookup_insert_eq|exact Hdue]. }
  destruct Hr as [(j & u & Hu & Hd)|Hr].
  - left. destruct (decide (j = i)) as [->|Hne]; [apply Hthis; rewrite <- (Hi u Hu); by destruct Hd|].
    exists j, u. split; [by rewrite Et1, lookup_insert_ne by congruence|exact Hd].
  - apply elem_of_cons in Hr as [Hr|Hr]; [by left; apply Hthis|by right].
Qed.

Lemma root_seed_fits host now ref : ref ∈ root_refs host → seed_fits (root_seed now ref).
Proof.
  unfold root_refs. intros Hr. set_unfold in Hr.
  destruct Hr as [->|[->|[]]]; (split; [reflexivity|]); vm_compute; repeat split; discriminate.
Qed.

Section boot.
Context `{GoLib, PostgresLaws}.

Lemma Seed_roots_ok host now db :
  wf db → is_Some (db_hosts db !! host) → blank host = false → time_IsZero now = false →
  json_Valid "{}" = true →
  ∃ db', Seed (rootSnapshotSeeds host now) db = Ok db' ∧ db_hosts db' = db_hosts db ∧
    ∀ ref, ref ∈ root_refs host → ∃ i t, db_targets db' !! i = Some t ∧ due_target ref now t.
Proof.
  intros W Hh Hb Hn Hj.
  assert (Hv : validate_seeds (rootSnapshotSeeds host now) = Ok tt).
  { cbn -[blank json_Valid]. unfold ref_Validate. cbn -[blank json_Valid]. rewrite Hb, Hn. cbn -[blank json_Valid].
        change (seed_attrs _) with "{}". rewrite Hj. vm_compute. reflexivity. }
  assert (Hd : dedup_seeds (rootSnapshotSeeds host now) = rootSnapshotSeeds host now).
  { cbn. rewrite bool_decide_false; [done|]. intros C. set_unfold in C. destruct C as [C|[]]. discriminate C. }
  destruct (upsert_all_ok (rootSnapshotSeeds host now) now db) as (db' & E & Eh & Hk); [|exact W|].
  { unfold rootSnapshotSeeds. apply Forall_map, Forall_forall. intros ref Hr.
    split; [by eapply root_seed_fits|]. split; [|done]. unfold root_refs in Hr. set_unfold in Hr.
    by destruct Hr as [->|[->|[]]]. }
  exists db'. split.
  { change (upsertSeeds (rootSnapshotSeeds host now) db = Ok db'). unfold upsertSeeds. by rewrite Hv, Hd. }
  split; [exact Eh|]. intros ref Hr. apply Hk. right. unfold rootSnapshotSeeds.
  rewrite map_map. cbn [root_seed sd_Ref]. by rewrite map_id.
Qed.

(** Seeding a host within the limits succeeds and applies them. *)
Lemma SeedHost_ok host q b c now db :
  blank host = false → time_IsZero now = false →
  (1 # 4 <= q)%Q ∧ (q <= 5)%Q → within 1 5 b → within 1 4 c →
  (∀ h, db_hosts db !! host = Some h → host_check h = true) →
  ∃ db' h, SeedHost {| hs_Host := host; hs_BaselineRequestsPerSecond := q; hs_Burst := b;
                       hs_BaselineConcurrency := c; hs_Now := now |} now db = Ok db' ∧
    db_hosts db' !! host = Some h ∧
    baseline_rps h = numeric_of_float8 1000 q ∧ current_rps h ≤ numeric_of_float8 1000 q ∧
    burst h = b ∧ available_tokens h ≤ 1000000 * b ∧
    baseline_concurrency h = c ∧ current_concurrency h ≤ c.
Proof.
  intros Hb Hn [Hq1 Hq2] [Hb1 Hb2] [Hc1 Hc2] Hrow.
  assert (Hr : 250 ≤ numeric_of_float8 1000 q ≤ 5000).
  { rewrite <- quarter_stored. change 5000 with (5 * Z.pos 1000).
    rewrite <- (numeric_int 1000 5) by (auto; lia).
    split; apply numeric_mono; done. }
  unfold SeedHost. cbn [hs_Host hs_BaselineRequestsPerSecond hs_Burst hs_BaselineConcurrency hs_Now].
  rewrite Hb, Hn. assert (E1 : flt q quarter || fgt q 5 = false).
  { apply orb_false_iff. split; [|by apply fgt_false]. unfold flt. apply negb_false_iff, Qle_bool_iff. exact Hq1. }
  rewrite E1. cbn [guard_err result_bind].
  assert (E2 : (b <? 1) || (5 <? b) = false) by (apply orb_false_iff; split; apply Z.ltb_ge; lia).
  assert (E3 : (c <? 1) || (4 <? c) = false) by (apply orb_false_iff; split; apply Z.ltb_ge; lia).
  rewrite E2, E3. cbn [guard_err result_bind]. unfold write_host.
  destruct (db_hosts db !! host) as [h|] eqn:Hh.
  - destruct (host_check_inv _ (Hrow h eq_refl)) as (? & ? & ? & ? & ? & ? & ? & ?).
    rewrite host_check_intro by (cbn; lia).
    do 2 eexists. split; [reflexivity|]. cbn [set_hosts db_hosts]. split; [apply lookup_insert_eq|]. cbn. lia.
  - rewrite host_check_intro by (cbn; lia).
    do 2 eexists. split; [reflexivity|]. cbn [set_hosts db_hosts]. split; [apply lookup_insert_eq|]. cbn. lia.
Qed.

Lemma go_lt_inside lo hi v : not_outside lo hi v → go_lt v (FNum lo) || go_lt (FNum hi) v = false.
Proof.
  destruct v as [|[]|q]; try done. intros [Hlo Hhi]. cbn. unfold flt.
  apply orb_false_iff. rewrite !negb_false_iff, !Qle_bool_iff. done.
Qed.

(** Every constructor accepts the settings. *)
Lemma build_runtime_ok cfg worker :
  scraper_bounds (c_Scraper cfg) → worker ≠ "" → blank (c_Host (c_Scraper cfg)) = false →
  ∃ rt, build_runtime cfg worker = Some rt ∧
    rt_Scheduler rt = {| sc_WorkerID := worker; sc_MaxConcurrency := c_BaselineConcurrency (c_Scraper cfg);
      sc_PrefetchFactor := c_ClaimPrefetchFactor (c_Scraper cfg);
      sc_LeaseDuration := c_LeaseDuration (c_Scraper cfg); sc_CommitGrace := c_CommitGrace (c_Scraper cfg);
      sc_TickLimit := c_TickLimit (c_Scraper cfg); sc_PollInterval := 5 * Second;
      sc_RefreshPollInterval := 100 * Millisecond; sc_RefreshPollMax := 500 * Millisecond;
      sc_SnapshotRetention := c_SnapshotRetention (c_Scraper cfg);
      sc_RunRetention := c_RunRetention (c_Scraper cfg); sc_PruneBatchSize := 1000;
      sc_WatchdogInterval := 5 * Minute;
      sc_PermitTTL := c_FetchTimeout (c_Scraper cfg) + c_PermitGrace (c_Scraper cfg) |} ∧
    rt_AlwaysOn rt = c_Enabled (c_Scraper cfg) && negb (c_ServerlessEnabled cfg).
Proof.
  intros B Hw Hb. unfold build_runtime. cbv zeta. set (c := c_Scraper cfg) in *.
  destruct B as [_ _ _ [Hc1 Hc2] [Hl1 Hl2] [Hf1 Hf2] [Hp1 Hp2] [Hg1 Hg2] [Ht1 Ht2] [Hx1 Hx2] [Hy1 Hy2] [Hz1 Hz2] _ _ _ Htr _].
  assert (N : Second = 1000000000 ∧ Minute = 60000000000) by done. destruct N as [Ns Nm]. rewrite Ns, Nm in *.
  assert (Httl : wrap64 (c_FetchTimeout c + c_PermitGrace c) = c_FetchTimeout c + c_PermitGrace c).
  { apply wrap64_id. unfold in_int64, min_int64, max_int64. lia. }
  unfold NewSnapshotSource. destruct (Z.leb_spec (c_ResponseBodyLimit c) 0); [lia|]. cbn [mbind option_bind].
  unfold SetHTTPTraceSampleRate. rewrite (go_lt_inside _ _ _ Htr). cbn [mbind option_bind].
  rewrite Httl. unfold NewHostController. destruct (Z.leb_spec (c_FetchTimeout c + c_PermitGrace c) 0); [lia|].
  cbn [mbind option_bind]. unfold NewCoordinator.
  destruct (Z.leb_spec (c_FetchTimeout c) 0); [lia|]. destruct (Z.leb_spec (c_CanonicalPayloadLimit c) 0); [lia|].
  cbn [mbind option_bind].
  assert (Es : NewScheduler (scheduler_config worker c) = Some
    {| sc_WorkerID := worker; sc_MaxConcurrency := c_BaselineConcurrency c; sc_PrefetchFactor := c_ClaimPrefetchFactor c;
       sc_LeaseDuration := c_LeaseDuration c; sc_CommitGrace := c_CommitGrace c; sc_TickLimit := c_TickLimit c;
       sc_PollInterval := 5 * 1000000000; sc_RefreshPollInterval := 100 * Millisecond;
       sc_RefreshPollMax := 500 * Millisecond; sc_SnapshotRetention := c_SnapshotRetention c;
       sc_RunRetention := c_RunRetention c; sc_PruneBatchSize := 1000; sc_WatchdogInterval := 5 * 60000000000;
       sc_PermitTTL := c_FetchTimeout c + c_PermitGrace c |}).
  { unfold NewScheduler, scheduler_config. cbn [sc_WorkerID sc_MaxConcurrency sc_PrefetchFactor sc_LeaseDuration
      sc_CommitGrace sc_TickLimit sc_PollInterval sc_RefreshPollInterval sc_RefreshPollMax sc_PruneBatchSize
      sc_WatchdogInterval sc_SnapshotRetention sc_RunRetention sc_PermitTTL].
    rewrite bool_decide_false by done. rewrite Httl, Ns, Nm.
    destruct (Z.leb_spec (c_BaselineConcurrency c) 0); [lia|]. destruct (Z.leb_spec (c_ClaimPrefetchFactor c) 0); [lia|].
    destruct (Z.leb_spec (c_LeaseDuration c) 0); [lia|]. destruct (Z.ltb_spec (c_CommitGrace c) 0); [lia|].
    destruct (Z.leb_spec (c_TickLimit c) 0); [lia|]. reflexivity. }
  rewrite Es. cbn [mbind option_bind]. unfold NewSnapshotProvider, blank in *. rewrite Hb. cbn [negb orb mbind option_bind].
  eexists. split; [reflexivity|]. split; reflexivity.
Qed.

(** A blank host is refused whatever the rate. *)
Lemma blank_host_refused cfg worker now db :
  c_Enabled (c_Scraper cfg) || c_SnapshotReadsEnabled (c_Scraper cfg) = true → blank (c_Host (c_Scraper cfg)) = true →
  wire_snapshots cfg true worker now db = (db, Err (WireSeedHost (ErrInvalid "seed host is required"))).
Proof.
  intros Hon Hb. unfold wire_snapshots, wire_runtime, seed_host, SeedHost. rewrite Hon.
  cbn [negb hs_Host]. rewrite Hb. by destruct (c_BaselineRequestsPerSecond (c_Scraper cfg)).
Qed.

(** C39: the runtime comes up.  When [LoadConfig] accepts the environment and the snapshot
    runtime is on, wiring it succeeds on every store the system can be in, first start
    or later: the host's limits are those configured, never above them for what an
    earlier start left behind, both root targets are there, enabled and due, no
    constructor panics, and a lease outlasts a permit and the commit grace by less than
    a second's rounding.  There are two exceptions, which the checks accept: a host of
    white space only, such as the one of http://%C2%A0, which the seeding refuses before it
    touches the store, and a request rate of NaN, which the database refuses. *)
Theorem accepted_config_boots `{!ConfigLib} env cfg worker now db :
  LoadConfig env = Ok cfg →
  c_Enabled (c_Scraper cfg) || c_SnapshotReadsEnabled (c_Scraper cfg) = true →
  reachable db → worker ≠ "" → time_IsZero now = false → json_Valid "{}" = true →
  let c := c_Scraper cfg in
  if blank (c_Host c)
  then wire_snapshots cfg true worker now db = (db, Err (WireSeedHost (ErrInvalid "seed host is required")))
  else
  match c_BaselineRequestsPerSecond c with
  | FNum q =>
      ∃ db' rt h, wire_snapshots cfg true worker now db =
        (db', Ok (Some rt, if c_SnapshotReadsEnabled c then SnapshotReads else LiveReads)) ∧
      reachable db' ∧
      (db_hosts db' !! c_Host c = Some h ∧ baseline_rps h = numeric_of_float8 1000 q ∧
       current_rps h ≤ baseline_rps h ∧ burst h = c_Burst c ∧ available_tokens h ≤ 1000000 * burst h ∧
       baseline_concurrency h = c_BaselineConcurrency c ∧ current_concurrency h ≤ baseline_concurrency h) ∧
      (∀ ref, ref ∈ root_refs (c_Host c) → ∃ i t, db_targets db' !! i = Some t ∧ due_target ref now t) ∧
      rt_AlwaysOn rt = c_Enabled c && negb (c_ServerlessEnabled cfg) ∧
      c_FetchTimeout c ≤ sc_PermitTTL (rt_Scheduler rt) ∧
      (∀ claimed, sc_PermitTTL (rt_Scheduler rt) - Second <
         lease_deadline (rt_Scheduler rt) (claimed + secs (durationSeconds (sc_LeaseDuration (rt_Scheduler rt)))) - claimed)
  | FNaN => wire_snapshots cfg true worker now db = (db, Err (WireSeedHost (ErrConstraint "scrape_host_state")))
  | FInf _ => False
  end.
Proof.
  intros Hload Hon Hr Hw Hn Hj. cbv zeta.
  destruct (blank (c_Host (c_Scraper cfg))) eqn:Hb; [by apply blank_host_refused|].
  apply LoadConfig_bounds in Hload as [[_ _ _ _ _ _ _ _ _ _ _ _ _ _ B] _]. set (c := c_Scraper cfg) in *.
  pose proof (reachable_permits db Hr) as [_ _ Hrows].
  destruct (build_runtime_ok cfg worker B Hw Hb) as (rt & Ert & Es & Ea). fold c in Es, Ea.
  pose proof (sb_rps c B) as Hq. unfold wire_snapshots, wire_runtime, seed_host. fold c. rewrite Hon. cbn [negb].
  destruct (c_BaselineRequestsPerSecond c) as [| |q]; [|exact Hq|].
  - destruct (SeedHost_ok (c_Host c) 1 (c_Burst c) (c_BaselineConcurrency c) now db Hb Hn) as (db1 & h & E1 & _);
      [split; discriminate|apply B|apply B|intros; by eapply Hrows|].
    rewrite E1. cbn [result_bind]. reflexivity.
  - destruct (SeedHost_ok (c_Host c) q (c_Burst c) (c_BaselineConcurrency c) now db Hb Hn Hq) as
      (db1 & h & E1 & Hh & Hbase & Hcur & Hburst & Htok & Hbc & Hcc); [apply B|apply B|intros; by eapply Hrows|].
    assert (R1 : reachable db1) by (eapply rtc_r; [exact Hr|by eapply step_SeedHost]).
    destruct (Seed_roots_ok (c_Host c) now db1) as (db2 & E2 & Eh2 & Hroots);
      [by apply reachable_wf|by eexists|done|done|done|].
    assert (R2 : reachable db2) by (eapply rtc_r; [exact R1|by eapply step_Seed]).
    rewrite E1, E2, Ert. exists db2, rt, h. split; [cbn; by destruct (c_SnapshotReadsEnabled c)|].
    split; [exact R2|]. rewrite Eh2. split; [split_and!; try assumption; lia|].
    split; [exact Hroots|]. split; [exact Ea|]. rewrite Es. cbn [sc_PermitTTL sc_LeaseDuration].
    pose proof (sb_permit c B) as [Hp _]. pose proof (sb_required c B) as Hreq. pose proof (sb_lease c B) as [Hl _].
    split; [unfold Second in Hp; lia|]. intros claimed. unfold lease_deadline, time_Add. cbn [sc_CommitGrace].
    unfold secs, durationSeconds. pose proof (Z.quot_rem' (c_LeaseDuration c) Second) as Eq.
    pose proof (Z.rem_bound_pos (c_LeaseDuration c) Second ltac:(unfold Second in *; lia) ltac:(reflexivity)). lia.
Qed.

End boot.
