(* ===== verification/ConfigWitnesses.v ===== *)
(** Concrete environments: what [Config] reads of them, and the theorem of [WireSpec] on
    them. *)

From stdpp Require Import base list numbers strings gmap sorting.
From Stdlib Require Import ZArith QArith Lia.
From S2P Require Import Prelude Float64 Domain Policy Canonical Tables Leases HostState Store CommitSpec System HostSpec.
From S2P Require Import Scheduler SchedulerSpec Upstream Demo Config Wire WireSpec.

Local Open Scope Z_scope.
Local Open Scope stdpp_scope.

(** * Numbers *)

Example parse_int_cases :
  map parse_int ["42"; "-7"; "+7"; ""; "-"; "1_000"; "0x10"; "9223372036854775807"; "9223372036854775808";
                 "-9223372036854775808"; " 1"] =
  [Some 42; Some (-7); Some 7; None; None; None; None; Some max_int64; None; Some min_int64; None].
Proof. vm_compute. reflexivity. Qed.

Example parse_duration_cases :
  map parse_duration ["0"; "2m"; "1h30m"; "1.5h"; "-1.5h"; ".5s"; "1m.5s"; "90"; ""; "."; "1e3s"; "3000000h";
                      "9223372036854775807ns"; "9223372036854775808ns"; "-9223372036854775808ns"; "1.0000000001s"] =
  [Some 0; Some (2 * Minute); Some (90 * Minute); Some (90 * Minute); Some (- 90 * Minute); Some (500 * Millisecond);
   Some (Minute + 500 * Millisecond); None; None; None; None; None; Some max_int64; None; Some min_int64; Some Second].
Proof. vm_compute. reflexivity. Qed.

(** * Environments *)

#[local] Instance demo_config_lib : ConfigLib := {|
  parse_float s :=
    if bool_decide (s = "0.5") then Some (FNum (1 # 2))
    else if bool_decide (s = "NaN") then Some FNaN
    else if bool_decide (s = "1e999") then None
    else if bool_decide (s = "inf") then Some (FInf false) else None;
  url_Hostname s :=
    if bool_decide (s = "https://warwick.humantix.cloud") then Some "warwick.humantix.cloud"
    else if bool_decide (s = "https://Example.ORG/x") then Some "Example.ORG"
    else if bool_decide (s = "not a url") then Some "" else None;
  strings_ToLower s := string_of_bytes (lower_bytes (bytes_of s))
|}.

(** An environment from its list of variables. *)
Definition environment (l : list (string * string)) (key : string) : string :=
  match head (filter (λ kv, kv.1 = key) l) with Some (_, v) => v | None => "" end.

Definition demo_vars : list (string * string) :=
  [("DATABASE_URL", "postgres://localhost/app"); ("SCRAPER_ENABLED", "true"); ("SNAPSHOT_READS_ENABLED", "1");
   ("SCRAPER_REQUESTS_PER_SECOND", "0.5"); ("SCRAPER_BURST", "3"); ("SCRAPER_LEASE_DURATION", "1m30s");
   ("WARWICK_BASE_URL", "https://Example.ORG/x"); ("WARWICK_QR_SESSIONS", "-3"); ("PORT", "8080")].

Definition load (l : list (string * string)) : result ConfigError Config := LoadConfig (environment l).

Definition no_config : Config := get (mkConfig "" "" "" "" 0 0 0 0 0 0 0 0 false 0 0 "" "" 0 ""
  (mkScraperConfig false false "" FNaN 0 0 0 0 0 0 0 0 0 0 0 0 "" FNaN)) (load [("DATABASE_URL", "x")]).

Definition demo_config : Config := get no_config (load demo_vars).

(** What is read: the defaults, the values set, and the fallback of a negative number. *)
Example demo_settings :
  (c_QRSessions demo_config, c_Port demo_config, c_Host (c_Scraper demo_config),
   c_LeaseDuration (c_Scraper demo_config), c_TickLimit (c_Scraper demo_config)) =
  (2, ":8080", "example.org", 90 * Second, 50).
Proof. vm_compute. reflexivity. Qed.

(** Errors, in the order of the checks. *)
Definition load_error (l : list (string * string)) : option ConfigError :=
  match load l with Ok _ => None | Err e => Some e end.

Example rejected_settings :
  map load_error
    [[]; ("SCRAPER_BURST", "6") :: demo_vars; ("SCRAPER_BURST", "six") :: demo_vars;
     ("SCRAPER_ENABLED", "false") :: demo_vars; ("SCRAPER_LEASE_DURATION", "54s") :: demo_vars;
     ("SERVERLESS_ENABLED", "true") :: demo_vars; ("SCRAPER_REQUESTS_PER_SECOND", "inf") :: demo_vars;
     ("WARWICK_CONNS_PER_HOST", "1") :: demo_vars; ("WARWICK_BASE_URL", "not a url") :: demo_vars;
     ("ROOM_RETENTION", "8761h") :: demo_vars] =
  [Some (Needs "DATABASE_URL must be set"); Some (OutOfRange "SCRAPER_BURST"); Some (NotA "SCRAPER_BURST" "integer");
   Some (Needs "SNAPSHOT_READS_ENABLED requires SCRAPER_ENABLED");
   Some (Needs "SCRAPER_LEASE_DURATION must be at least fetch timeout + permit grace + commit grace");
   Some (Needs "SCRAPER_TRIGGER_TOKEN must be set when SERVERLESS_ENABLED and SCRAPER_ENABLED are true");
   Some (OutOfRange "SCRAPER_REQUESTS_PER_SECOND"); Some (Needs "WARWICK_CONNS_PER_HOST must be >= SCRAPER_MAX_CONCURRENCY");
   Some (Needs "WARWICK_BASE_URL must include a valid host"); Some (OutOfRange "ROOM_RETENTION")].
Proof. vm_compute. reflexivity. Qed.

(** NaN passes every range check, and the trace rate is then NaN. *)
Example nan_accepted :
  load_error (("SCRAPER_REQUESTS_PER_SECOND", "NaN") :: ("SCRAPER_HTTPTRACE_SAMPLE_RATE", "NaN") :: demo_vars) = None.
Proof. vm_compute. reflexivity. Qed.

(** A lease of exactly the required length, with a fraction: the second stored is shorter. *)
Example lease_rounds_below_required :
  load_error (("SCRAPER_LEASE_DURATION", "30.5s") :: ("SCRAPER_FETCH_TIMEOUT", "20.5s") ::
              ("SCRAPER_PERMIT_GRACE", "5s") :: ("SCRAPER_COMMIT_GRACE", "5s") :: demo_vars) = None ∧
  secs (durationSeconds (30 * Second + 500 * Millisecond)) < 20 * Second + 500 * Millisecond + 5 * Second + 5 * Second.
Proof. split; vm_compute; reflexivity. Qed.

(** * The runtime comes up *)

Lemma accepted_config_boots_witness :
  load demo_vars = Ok demo_config /\
  exists db' rt h, wire_snapshots demo_config true "w1" T0 db_seeded = (db', Ok (Some rt, SnapshotReads)) /\
    reachable db' /\ db_hosts db' !! "example.org" = Some h /\ burst h = 3.
Proof.
  split; [vm_compute; reflexivity|].
  pose proof (accepted_config_boots (environment demo_vars) demo_config "w1" T0 db_seeded) as C.
  specialize (C ltac:(vm_compute; reflexivity) ltac:(vm_compute; reflexivity) reach_seeded
                ltac:(discriminate) ltac:(vm_compute; reflexivity) ltac:(vm_compute; reflexivity)).
  cbv zeta in C.
  assert (Eh : blank (c_Host (c_Scraper demo_config)) = false) by (vm_compute; reflexivity).
  rewrite Eh in C.
  assert (E : c_BaselineRequestsPerSecond (c_Scraper demo_config) = FNum (1 # 2)) by (vm_compute; reflexivity).
  rewrite E in C. destruct C as (db' & rt & h & Ew & Hr & (Hh & _ & _ & Hb & _) & _).
  exists db', rt, h. split; [exact Ew|]. split; [exact Hr|]. split; [exact Hh|].
  rewrite Hb. vm_compute. reflexivity.
Defined.
