(* ===== verification/Teacher.v ===== *)
(** The rest of the teacher service ([internal/service/teacher.go], constructors, session
    detail, the older toggle, reports of one and of several courses, the absence dashboard,
    freshness metadata; [internal/service/teacher_refresh.go]).

    As in [Provider] and [Export], what the calls of a method returned is its input, and the
    jobs of a pool are a list of indexes in the order in which they wrote their results. *)

From stdpp Require Import base list list_numbers numbers strings gmap sorting.
From Stdlib Require Import ZArith QArith Lia.
From S2P Require Import Prelude Float64 Domain Canonical Tables Report Provider Export.

Local Open Scope Z_scope.
Local Open Scope stdpp_scope.
Local Open Scope go_scope.

(** * The service *)

(** Which of the constructor's arguments are nil, and which interfaces the reader has. *)
Record TeacherDeps := {
  td_Reader : bool;
  td_Sessions : bool;
  td_Checkins : bool;
  td_Refresher : bool
}.

Record TeacherService := {
  ts_ReportConcurrency : Z;
  ts_SnapshotMode : bool
}.

(** [None] is a panic. *)
Definition NewTeacherServiceWithDependenciesAndMutator (deps : TeacherDeps) (reportConcurrency : Z) (snapshotMode : bool)
    : option TeacherService :=
  if negb (td_Reader deps) then None
  else if negb (td_Sessions deps) then None
  else if negb (td_Checkins deps) then None
  else if negb (td_Refresher deps) then None
  else Some {| ts_ReportConcurrency := if reportConcurrency <=? 0 then 2 else reportConcurrency;
               ts_SnapshotMode := snapshotMode |}.

Definition NewTeacherServiceWithDependencies := NewTeacherServiceWithDependenciesAndMutator.

(** [writer] is whether the live provider writes check-ins too. *)
Definition NewTeacherService (dp defaultFetcher writer : bool) (reportConcurrency : Z) : option TeacherService :=
  if negb dp then None
  else if negb defaultFetcher then None
  else if negb writer then None
  else NewTeacherServiceWithDependencies
         {| td_Reader := dp; td_Sessions := defaultFetcher; td_Checkins := writer; td_Refresher := true |}
         reportConcurrency false.

Inductive TeacherErr :=
| TErrUpstream (e : string)
| TErrNil (what : string)
| TErrLiveSourceDisabled
| TErrNoFetcher
| TErrNoSnapshots
| TErrTooManyCourses
| TErrNotInCatalog (courseID : string)
| TErrContext
| TErrPoolExhausted
| TErrRefresh (what e : string)
| TErrRead (what e : string).

(** * A session *)

Definition set_session_status (st : SessionStatus) (s : SessionSummary) : SessionSummary :=
  {| ss_SessionID := ss_SessionID s; ss_SessionNumber := ss_SessionNumber s; ss_Name := ss_Name s; ss_Date := ss_Date s;
     ss_CheckedInCount := ss_CheckedInCount s; ss_TotalStudents := ss_TotalStudents s; ss_Status := st |}.

Definition set_roster (students : list StudentCheckin) (d : SessionDetail) : SessionDetail :=
  {| sd_Summary := sd_Summary d; sd_Students := students; sd_QRActive := sd_QRActive d; sd_QRExpiresAt := sd_QRExpiresAt d |}.

Definition default_session_status (d : SessionDetail) : SessionDetail :=
  {| sd_Summary := if bool_decide (session_status_string (ss_Status (sd_Summary d)) = "")
                   then set_session_status SessionStatusNotStarted (sd_Summary d) else sd_Summary d;
     sd_Students := sd_Students d; sd_QRActive := sd_QRActive d; sd_QRExpiresAt := sd_QRExpiresAt d |}.

(** The profiles are best effort: their error is dropped. *)
Definition GetSessionDetail (detail : result string (option SessionDetail)) (profiles : result string (list StudentProfile))
    : result TeacherErr (SessionDetail * list StudentProfile) :=
  match detail with
  | Err e => Err (TErrUpstream e)
  | Ok None => Err (TErrNil "session detail")
  | Ok (Some d) =>
      let d := default_session_status d in
      let profiles := match profiles with Ok p => p | Err _ => [] end in
      let d := if bool_decide (profiles = []) then d
               else set_roster (EnrichCheckinStudentIDWithWCode (sd_Students d) profiles) d in
      Ok (d, profiles)
  end.

(** * The older toggle *)

Record ToggleCheckinResponse := {
  tr_StudentID : string;
  tr_CheckedIn : bool;
  tr_NewCount : Z;
  tr_SnapshotRefreshPending : bool
}.

(** The answers, in the order of the calls; an error of [SetDueNow] or [RefreshNow] is [Some]. *)
Record ToggleEnv := {
  tg_Upstream : option string;
  tg_Due : option string;
  tg_Refresh : option string;
  tg_Detail : result string (option SessionDetail);
  tg_Profiles : result string (list StudentProfile)
}.

(** The first roster line of the student. *)
Definition reflected (studentID : string) (checked : bool) (students : list StudentCheckin) : bool :=
  match head (base.filter (λ s, sc_StudentID s = studentID) students) with
  | Some s => eqb (sc_CheckedIn s) checked
  | None => false
  end.

Definition toggle_detail (studentID : string) (checked : bool) (env : ToggleEnv) : option (Z * bool) :=
  match tg_Detail env with
  | Ok (Some detail) =>
      let students := match tg_Profiles env with
                      | Ok profiles => EnrichCheckinStudentIDWithWCode (sd_Students detail) profiles
                      | Err _ => sd_Students detail
                      end in
      Some (ss_CheckedInCount (sd_Summary detail), reflected studentID checked students)
  | _ => None
  end.

(** The response and how many times the target was made due. *)
Definition ToggleCheckin (snapshotMode snapshots : bool) (studentID : string) (checked : bool) (env : ToggleEnv)
    : result TeacherErr (ToggleCheckinResponse * nat) :=
  let response count pending :=
    {| tr_StudentID := studentID; tr_CheckedIn := checked; tr_NewCount := count; tr_SnapshotRefreshPending := pending |} in
  match tg_Upstream env with
  | Some e => Err (TErrUpstream e)
  | None =>
      if negb snapshotMode then Ok (response 0 false, 0%nat)
      else if negb snapshots then Ok (response 0 true, 0%nat)
      else
        let pending := bool_decide (is_Some (tg_Due env)) in
        let '(count, pending) :=
          match tg_Refresh env with
          | Some _ => (0, true)
          | None =>
              match toggle_detail studentID checked env with
              | None => (0, true)
              | Some (count, ok) => (count, pending || negb ok)
              end
          end in
        Ok (response count pending, if pending : bool then 2%nat else 1%nat)
  end.

(** * Reports *)

Definition set_course_id (courseID : string) (c : CourseDetail) : CourseDetail :=
  let s := cd_Summary c in
  if bool_decide (cs_CourseID s = "")
  then {| cd_Summary :=
            {| cs_CourseID := courseID; cs_Name := cs_Name s; cs_StartDate := cs_StartDate s; cs_EndDate := cs_EndDate s;
               cs_EnrolledCount := cs_EnrolledCount s; cs_TotalSessions := cs_TotalSessions s;
               cs_CompletedSessions := cs_CompletedSessions s; cs_AvgAttendanceRate := cs_AvgAttendanceRate s;
               cs_Status := cs_Status s |};
          cd_Sessions := cd_Sessions c |}
  else c.

(** [fetcher] is whether the live reader fetches sessions, [snapshots] whether it knows of
    snapshots; [None] when the report's environment is not one of a run. *)
Definition GetAttendanceReport (snapshotMode snapshots fetcher : bool) (courseID : string) (threshold : Z) (source : string)
    (detail : result string (option CourseDetail)) (profiles : result string (list StudentProfile))
    (env : ReportEnv) (overdue : result RepoError bool) : option (result TeacherErr CourseAttendanceReport) :=
  if bool_decide (source = "live") && snapshotMode then Some (Err TErrLiveSourceDisabled)
  else if bool_decide (source = "live") && negb fetcher then Some (Err TErrNoFetcher)
  else
    match detail with
    | Err e => Some (Err (TErrUpstream e))
    | Ok None => Some (Err (TErrNil "course detail"))
    | Ok (Some course) =>
        report ← ComputeCourseAttendanceReport env true (Some (set_course_id courseID course)) threshold;
        let report := match profiles with
                      | Ok p => set_students (EnrichStudentIDWithWCode (cr_Students report) p) (cr_Stale report) report
                      | Err _ => report
                      end in
        Some (Ok (markReportStale snapshotMode snapshots overdue report))
    end.

(** [snapshotMetadata]; CourseCatalogMetadata, CourseMetadata and SessionMetadata read their
    reference. *)
Definition snapshotMetadata (snapshotMode snapshots : bool) (metadata : TargetRef → result string SnapshotMetadata) (ref : TargetRef)
    : result TeacherErr (option SnapshotMetadata) :=
  if negb snapshotMode then Ok None
  else if negb snapshots then Err TErrNoSnapshots
  else match metadata ref with Ok md => Ok (Some md) | Err e => Err (TErrUpstream e) end.

Definition CourseCatalogMetadata snapshotMode snapshots metadata (host : string) :=
  snapshotMetadata snapshotMode snapshots metadata (CatalogRef host).
Definition CourseMetadata snapshotMode snapshots metadata (host courseID : string) :=
  snapshotMetadata snapshotMode snapshots metadata (CourseRef host courseID).
Definition SessionMetadata snapshotMode snapshots metadata (host courseID sessionID : string) :=
  snapshotMetadata snapshotMode snapshots metadata (provider_SessionRef host courseID sessionID).

(** ** Several courses *)

Definition maxBatchCourseIDs : nat := 100.

Record BatchCourseResult := {
  bc_Report : option CourseAttendanceReport;
  bc_Err : option TeacherErr
}.

Definition no_course_result : BatchCourseResult := {| bc_Report := None; bc_Err := None |}.
Definition course_failed (e : TeacherErr) : BatchCourseResult := {| bc_Report := None; bc_Err := Some e |}.

(** What the job of one course sees. *)
Record CourseJob := {
  cj_Detail : result string (option CourseDetail);
  cj_Report : ReportEnv;
  cj_Overdue : result RepoError bool
}.

(** The report of a course and its staleness. *)
Definition course_job_report (snapshotMode snapshots : bool) (threshold : Z) (detail : CourseDetail) (job : CourseJob)
    : option BatchCourseResult :=
  report ← ComputeCourseAttendanceReport (cj_Report job) true (Some detail) threshold;
  Some {| bc_Report := Some (markReportStale snapshotMode snapshots (cj_Overdue job) report); bc_Err := None |}.

(** The names of the catalog, the last one when an identifier is listed twice. *)
Definition course_names (courses : list CourseSummary) : gmap string string :=
  foldl (λ m c, <[cs_CourseID c := cs_Name c]> m) ∅ courses.

Definition batch_course (snapshotMode snapshots : bool) (names : gmap string string) (threshold : Z) (courseID : string) (job : CourseJob)
    : option BatchCourseResult :=
  match names !! courseID with
  | None => Some (course_failed (TErrNotInCatalog courseID))
  | Some _ =>
      match cj_Detail job with
      | Err e => Some (course_failed (TErrUpstream e))
      | Ok None => Some (course_failed (TErrNil "course detail"))
      | Ok (Some detail) => course_job_report snapshotMode snapshots threshold detail job
      end
  end.

(** The jobs of a pool, each of which writes its own slot. *)
Definition run_slots {A} (job : nat → option A) (results : list A) (order : list nat) : option (list A) :=
  foldl (λ acc idx, slots ← acc; r ← job idx; Some (<[idx := r]> slots)) (Some results) order.

Definition GetBatchAttendance (snapshotMode snapshots : bool) (courseIDs : list string) (threshold : Z)
    (catalog : result string (list CourseSummary)) (jobs : nat → CourseJob) (order : list nat) (ctxErr : bool)
    : option (result TeacherErr (gmap string BatchCourseResult)) :=
  if (maxBatchCourseIDs <? length courseIDs)%nat then Some (Err TErrTooManyCourses)
  else
    match catalog with
    | Err e => Some (Err (TErrUpstream e))
    | Ok courses =>
        let names := course_names courses in
        results ← run_slots (λ idx, batch_course snapshotMode snapshots names threshold (nth idx courseIDs "") (jobs idx))
                    (repeat no_course_result (length courseIDs)) order;
        if ctxErr then Some (Err TErrContext)
        else Some (Ok (foldl (λ m x, <[x.1 := x.2]> m) ∅ (zip courseIDs results)))
    end.

(** ** The absence dashboard *)

(** What the job of one course sees: the answers of its attempts, and whether the context
    ended during the wait after one. *)
Record DashboardJob := {
  dj_Detail : nat → result (bool * string) (option CourseDetail);
  dj_Done : nat → bool;
  dj_Report : ReportEnv;
  dj_Overdue : result RepoError bool
}.

Definition detail_attempts : nat := 3.

(** The loop over the attempts, with the waits it made; an error of the source comes with
    whether it is an exhausted session pool. *)
Fixpoint course_attempts (job : DashboardJob) (attempt left : nat) (lastErr : TeacherErr)
    : list Z * result TeacherErr (option CourseDetail) :=
  match left with
  | O => ([], Err lastErr)
  | S left' =>
      match dj_Detail job attempt with
      | Ok d => ([], Ok d)
      | Err (exhausted, e) =>
          if exhausted : bool then
            let backoff := wrap64 (500 * Z.shiftl 1 (Z.of_nat attempt) * Millisecond) in
            if dj_Done job attempt then ([backoff], Err TErrContext)
            else let '(waits, r) := course_attempts job (S attempt) left' TErrPoolExhausted in (backoff :: waits, r)
          else ([], Err (TErrUpstream e))
      end
  end.

(** A tag for the error a course is left out with; the dashboard only looks at whether there
    is one. *)
Definition teacher_err_tag (e : TeacherErr) : string :=
  match e with
  | TErrUpstream t => t
  | TErrContext => "context ended"
  | TErrPoolExhausted => "pool exhausted"
  | TErrNil what => "nil " +:+ what
  | _ => ""
  end.

Definition dashboard_course (snapshotMode snapshots : bool) (threshold : Z) (c : CourseSummary) (job : DashboardJob)
    : option dashboardCourseResult :=
  let res report err := {| dc_CourseID := cs_CourseID c; dc_CourseName := cs_Name c; dc_Report := report; dc_Err := err |} in
  match (course_attempts job 0 detail_attempts TErrPoolExhausted).2 with
  | Err e => Some (res None (Some (teacher_err_tag e)))
  | Ok None => Some (res None (Some (teacher_err_tag (TErrNil "course detail"))))
  | Ok (Some detail) =>
      report ← ComputeCourseAttendanceReport (dj_Report job) true (Some detail) threshold;
      Some (res (Some (markReportStale snapshotMode snapshots (dj_Overdue job) report)) None)
  end.

(** The courses asked for: all of them when none is named. *)
Definition dashboard_courses (courseIds : list string) (courses : list CourseSummary) : list CourseSummary :=
  if bool_decide (courseIds = []) then courses
  else base.filter (λ c, cs_CourseID c ∈ (list_to_set courseIds : gset string)) courses.

Definition empty_dashboard (now : Z) : DashboardReport :=
  {| dr_GeneratedAt := now; dr_TotalStudents := 0; dr_TotalCourses := 0; dr_AvgAttendanceRate := 0; dr_AtRiskCount := 0;
     dr_TopAtRisk := []; dr_Students := []; dr_Sessions := [] |}.

Definition no_dashboard_result : dashboardCourseResult :=
  {| dc_CourseID := ""; dc_CourseName := ""; dc_Report := None; dc_Err := None |}.

Definition no_course : CourseSummary :=
  {| cs_CourseID := ""; cs_Name := ""; cs_StartDate := ""; cs_EndDate := ""; cs_EnrolledCount := 0; cs_TotalSessions := 0;
     cs_CompletedSessions := 0; cs_AvgAttendanceRate := 0; cs_Status := CourseStatusActive |}.

Definition dashboard_results (snapshotMode snapshots : bool) (threshold : Z) (courses : list CourseSummary)
    (jobs : nat → DashboardJob) (order : list nat) : option (list dashboardCourseResult) :=
  run_slots (λ idx, dashboard_course snapshotMode snapshots threshold (nth idx courses no_course) (jobs idx))
    (repeat no_dashboard_result (length courses)) order.

Definition GetAbsenceDashboard (snapshotMode snapshots : bool) (courseIds : list string) (threshold : Z) (wCodes : list string)
    (catalog : result string (list CourseSummary)) (jobs : nat → DashboardJob) (order : list nat) (ctxErr : bool)
    (profiles : result string (list StudentProfile)) (now : Z) (walkSessions walkStudents : list string)
    : option (result TeacherErr DashboardReport) :=
  match catalog with
  | Err e => Some (Err (TErrUpstream e))
  | Ok allCourses =>
      let courses := dashboard_courses courseIds allCourses in
      if bool_decide (courses = []) then Some (Ok (empty_dashboard now))
      else
        results ← dashboard_results snapshotMode snapshots threshold courses jobs order;
        if ctxErr then Some (Err TErrContext)
        else
          let guids := match profiles with Ok p => buildStudentIDMapping p | Err _ => ∅ end in
          report ← aggregateDashboard results (Z.of_nat (length courses)) threshold wCodes guids now walkSessions walkStudents;
          Some (Ok report)
  end.
