(* ===== verification/TeacherRefresh.v ===== *)
(** The refresh of everything ([RefreshAllData] of [internal/service/teacher_refresh.go]): the
    catalog, then the profiles and every course, then every session of the courses that could
    be refreshed, on the bounded pool.

    The jobs update one result under a mutex; the model runs them in the order in which they
    do so.  The answers of the calls are inputs. *)

From stdpp Require Import base list list_numbers numbers strings gmap.
From Stdlib Require Import ZArith Lia.
From S2P Require Import Prelude Domain Canonical Tables Provider Teacher.

Local Open Scope Z_scope.
Local Open Scope stdpp_scope.
Local Open Scope go_scope.

Definition refreshAllConcurrency : Z := 4.

Record RefreshAllResult := mkRefreshAll {
  ra_CoursesDiscovered : Z;
  ra_CoursesRefreshed : Z;
  ra_SessionsDiscovered : Z;
  ra_SessionsRefreshed : Z;
  ra_ProfilesRefreshed : bool;
  ra_FailedTargets : Z
}.

Definition no_refresh : RefreshAllResult := mkRefreshAll 0 0 0 0 false 0.

(** The result and the slots for the details, both behind the mutex. *)
Definition RefreshState : Type := RefreshAllResult * list (option CourseDetail).

Definition recordFailure (s : RefreshState) : RefreshState :=
  let r := s.1 in
  (mkRefreshAll (ra_CoursesDiscovered r) (ra_CoursesRefreshed r) (ra_SessionsDiscovered r) (ra_SessionsRefreshed r)
     (ra_ProfilesRefreshed r) (ra_FailedTargets r + 1), s.2).

Definition profiles_refreshed (s : RefreshState) : RefreshState :=
  let r := s.1 in
  (mkRefreshAll (ra_CoursesDiscovered r) (ra_CoursesRefreshed r) (ra_SessionsDiscovered r) (ra_SessionsRefreshed r)
     true (ra_FailedTargets r), s.2).

Definition course_refreshed (idx : nat) (d : CourseDetail) (s : RefreshState) : RefreshState :=
  let r := s.1 in
  (mkRefreshAll (ra_CoursesDiscovered r) (ra_CoursesRefreshed r + 1) (ra_SessionsDiscovered r) (ra_SessionsRefreshed r)
     (ra_ProfilesRefreshed r) (ra_FailedTargets r), <[idx := Some d]> s.2).

Definition session_refreshed (s : RefreshState) : RefreshState :=
  let r := s.1 in
  (mkRefreshAll (ra_CoursesDiscovered r) (ra_CoursesRefreshed r) (ra_SessionsDiscovered r) (ra_SessionsRefreshed r + 1)
     (ra_ProfilesRefreshed r) (ra_FailedTargets r), s.2).

Definition set_sessions_discovered (n : Z) (s : RefreshState) : RefreshState :=
  let r := s.1 in
  (mkRefreshAll (ra_CoursesDiscovered r) (ra_CoursesRefreshed r) n (ra_SessionsRefreshed r)
     (ra_ProfilesRefreshed r) (ra_FailedTargets r), s.2).

(** The calls of [RefreshNow]. *)
Inductive RefreshCall :=
| CallCatalog
| CallProfiles
| CallCourse (i : nat)
| CallSession (i : nat).

(** What the calls returned: the error of a refresh, the catalog, and the detail of the
    course at an index. *)
Record RefreshAllEnv := {
  re_Refresh : RefreshCall → option string;
  re_Catalog : result string (list CourseSummary);
  re_Detail : nat → result string (option CourseDetail);
  re_CourseJobs : list nat;
  re_CourseErr : bool;
  re_SessionJobs : list nat;
  re_SessionErr : bool
}.

Section refresh_all.
Context (host : string) (env : RefreshAllEnv).

(** The first pool: index 0 is the profiles, the others the courses. *)
Definition course_job (s : RefreshState) (index : nat) : RefreshState :=
  match index with
  | O =>
      match re_Refresh env CallProfiles with
      | Some _ => recordFailure s
      | None => profiles_refreshed s
      end
  | S i =>
      match re_Refresh env (CallCourse i) with
      | Some _ => recordFailure s
      | None =>
          match re_Detail env i with
          | Ok (Some d) => course_refreshed i d s
          | _ => recordFailure s
          end
      end
  end.

(** The references of the sessions, each once, in the order of the courses. *)
Definition session_step (courseID : string) (acc : gset string * list TargetRef) (sess : SessionSummary)
    : gset string * list TargetRef :=
  if bool_decide (ss_SessionID sess = "") then acc
  else
    let ref := provider_SessionRef host courseID (ss_SessionID sess) in
    if bool_decide (IdentityKey ref ∈ acc.1) then acc
    else ({[IdentityKey ref]} ∪ acc.1, acc.2 ++ [ref]).

Definition course_sessions_step (acc : gset string * list TargetRef) (x : CourseSummary * option CourseDetail)
    : gset string * list TargetRef :=
  match x.2 with
  | None => acc
  | Some d => foldl (session_step (cs_CourseID x.1)) acc (cd_Sessions d)
  end.

Definition session_refs (courses : list CourseSummary) (details : list (option CourseDetail)) : list TargetRef :=
  (foldl course_sessions_step (∅, []) (zip courses details)).2.

Definition session_job (s : RefreshState) (index : nat) : RefreshState :=
  match re_Refresh env (CallSession index) with
  | Some _ => recordFailure s
  | None => session_refreshed s
  end.

(** The reference of a call. *)
Definition call_ref (courses : list CourseSummary) (refs : list TargetRef) (call : RefreshCall) : option TargetRef :=
  match call with
  | CallCatalog => Some (CatalogRef host)
  | CallProfiles => Some (ProfilesRef host)
  | CallCourse i => c ← courses !! i; Some (CourseRef host (cs_CourseID c))
  | CallSession i => refs !! i
  end.

(** The result comes with the error of a cancelled pool. *)
Definition RefreshAllData (snapshotMode snapshots : bool) : RefreshAllResult * option TeacherErr :=
  if negb snapshotMode then (no_refresh, None)
  else if negb snapshots then (no_refresh, Some TErrNoSnapshots)
  else
    match re_Refresh env CallCatalog with
    | Some e => (no_refresh, Some (TErrRefresh "course catalog" e))
    | None =>
        match re_Catalog env with
        | Err e => (no_refresh, Some (TErrRead "refreshed course catalog" e))
        | Ok courses =>
            let start : RefreshState :=
              (mkRefreshAll (Z.of_nat (length courses)) 0 0 0 false 0, repeat None (length courses)) in
            let s1 := foldl course_job start (re_CourseJobs env) in
            if re_CourseErr env then (s1.1, Some TErrContext)
            else
              let refs := session_refs courses s1.2 in
              let s2 := set_sessions_discovered (Z.of_nat (length refs)) s1 in
              let s3 := foldl session_job s2 (re_SessionJobs env) in
              if re_SessionErr env then (s3.1, Some TErrContext) else (s3.1, None)
        end
    end.
End refresh_all.
