(* ===== verification/TeacherSpec.v ===== *)
(** Theorems about the teacher service: the refresh of everything accounts for every target
    and makes the data newer, the dashboard and the batch answer for every course, and what
    the older toggle reports. *)

From stdpp Require Import base list list_numbers numbers relations strings gmap sorting.
From Stdlib Require Import ZArith QArith Lia.
From S2P Require Import Prelude Float64 Sanitize Domain Policy Canonical Validation Tables Leases Lifecycle Reads Commit HostState.
From S2P Require Import Maintenance Store CommitSpec System Coordinator RunSystem Scheduler SchedulerSpec Refresh.
From S2P Require Import Jobs Report ReportSpec DashboardSpec Provider Export Teacher TeacherRefresh.

Local Open Scope Z_scope.
Local Open Scope stdpp_scope.
Local Open Scope go_scope.

(** * The refresh of everything *)

Definition b2z (b : bool) : Z := if b then 1 else 0.

(** The targets a result accounts for. *)
Definition ra_total (r : RefreshAllResult) : Z :=
  ra_CoursesRefreshed r + ra_SessionsRefreshed r + b2z (ra_ProfilesRefreshed r) + ra_FailedTargets r.

Section accounting.
Context (host : string) (env : RefreshAllEnv).

(** The detail the job of course [i] stores, if it succeeds. *)
Definition course_detail (i : nat) : option CourseDetail :=
  match re_Refresh env (CallCourse i), re_Detail env i with
  | None, Ok (Some d) => Some d
  | _, _ => None
  end.

Definition course_call_ok (index : nat) : bool :=
  match index with
  | O => bool_decide (re_Refresh env CallProfiles = None)
  | S i => bool_decide (is_Some (course_detail i))
  end.

Definition session_call_ok (index : nat) : bool := bool_decide (re_Refresh env (CallSession index) = None).

Lemma course_job_eq (s : RefreshState) index :
  course_job env s index =
    if course_call_ok index
    then match index with
         | O => profiles_refreshed s
         | S i => match course_detail i with Some d => course_refreshed i d s | None => s end
         end
    else recordFailure s.
Proof.
  unfold course_job, course_call_ok, course_detail. destruct index as [|i].
  - by destruct (re_Refresh env CallProfiles).
  - destruct (re_Refresh env (CallCourse i)); [done|]. by destruct (re_Detail env i) as [[d|]|].
Qed.

Lemma session_job_eq (s : RefreshState) index :
  session_job env s index = if session_call_ok index then session_refreshed s else recordFailure s.
Proof. unfold session_job, session_call_ok. by destruct (re_Refresh env (CallSession index)). Qed.

(** What the first pool leaves. *)
Lemma course_jobs_spec order : ∀ s : RefreshState,
  NoDup order → (0%nat ∈ order → ra_ProfilesRefreshed s.1 = false) →
  let s' := foldl (course_job env) s order in
  ra_total s'.1 = ra_total s.1 + Z.of_nat (length order) ∧
  ra_CoursesDiscovered s'.1 = ra_CoursesDiscovered s.1 ∧
  ra_FailedTargets s'.1 = ra_FailedTargets s.1 + Z.of_nat (length (base.filter (λ i, course_call_ok i = false) order)) ∧
  (ra_ProfilesRefreshed s'.1 = true ↔ ra_ProfilesRefreshed s.1 = true ∨ (0%nat ∈ order ∧ course_call_ok 0 = true)) ∧
  length s'.2 = length s.2 ∧
  (∀ i, (i < length s.2)%nat → s'.2 !! i =
     if decide (S i ∈ order) then match course_detail i with Some d => Some (Some d) | None => s.2 !! i end else s.2 !! i).
Proof.
  induction order as [|x order IH]; intros s Hnd H0 s'.
  { unfold s'. cbn. split; [lia|]. split; [done|]. split; [lia|]. split; [set_solver|]. split; [done|].
    intros i _. by rewrite decide_False by set_solver. }
  apply NoDup_cons in Hnd as [Hx Hnd]. unfold s'. cbn [foldl]. rewrite course_job_eq.
  set (s1 := if course_call_ok x then _ else _).
  assert (E1 : ra_total s1.1 = ra_total s.1 + 1 ∧ ra_CoursesDiscovered s1.1 = ra_CoursesDiscovered s.1 ∧
    ra_FailedTargets s1.1 = ra_FailedTargets s.1 + (if course_call_ok x then 0 else 1) ∧
    (ra_ProfilesRefreshed s1.1 = true ↔ ra_ProfilesRefreshed s.1 = true ∨ (x = 0%nat ∧ course_call_ok 0 = true)) ∧
    length s1.2 = length s.2 ∧
    (∀ i, (i < length s.2)%nat → s1.2 !! i = if decide (S i = x) then match course_detail i with Some d => Some (Some d) | None => s.2 !! i end else s.2 !! i)).
  { unfold s1, ra_total. destruct (course_call_ok x) eqn:Eok; destruct x as [|j].
    - rewrite H0 by set_solver. cbn -[course_call_ok]. split; [lia|]. split; [done|]. split; [lia|]. split; [split; [first [by left|by right]|intros [?|[? ?]]; congruence]|]. split; [done|].
      intros i _. by rewrite decide_False.
    - cbn [course_call_ok] in Eok. apply bool_decide_eq_true in Eok as [d Ed]. rewrite Ed. cbn -[course_call_ok].
      split; [lia|]. split; [done|]. split; [lia|]. split; [split; [first [by left|by right]|intros [?|[? ?]]; congruence]|]. split; [by rewrite length_insert|].
      intros i Hi. destruct (decide (S i = S j)) as [E|E].
      + injection E as ->. rewrite Ed. by rewrite list_lookup_insert_eq.
      + rewrite list_lookup_insert_ne by congruence. done.
    - cbn -[course_call_ok]. split; [lia|]. split; [done|]. split; [lia|]. split; [split; [first [by left|by right]|intros [?|[? ?]]; congruence]|]. split; [done|].
      intros i _. by rewrite decide_False.
    - cbn [course_call_ok] in Eok. apply bool_decide_eq_false in Eok. cbn -[course_call_ok].
      split; [lia|]. split; [done|]. split; [lia|]. split; [split; [first [by left|by right]|intros [?|[? ?]]; congruence]|]. split; [done|].
      intros i _. destruct (decide (S i = S j)) as [E|E]; [|done].
      injection E as ->. destruct (course_detail j); [by destruct Eok|done]. }
  destruct E1 as (T1 & D1 & F1 & P1 & L1 & S1). clearbody s1.
  assert (H1 : 0%nat ∈ order → ra_ProfilesRefreshed s1.1 = false).
  { intros Hin. apply not_true_is_false. intros Ep. apply P1 in Ep as [Ep|[-> _]]; [|done].
    rewrite H0 in Ep; [done|set_solver]. }
  destruct (IH s1 Hnd H1) as (T2 & D2 & F2 & P2 & L2 & S2).
  split; [|split; [|split; [|split; [|split]]]].
  - rewrite T2, T1. cbn [length]. lia.
  - congruence.
  - rewrite F2, F1, filter_cons. destruct (course_call_ok x); [rewrite decide_False by done|rewrite decide_True by done; cbn [length]]; lia.
  - rewrite P2, P1. set_solver.
  - congruence.
  - intros i Hi. rewrite S2 by lia. rewrite S1 by done.
    destruct (decide (S i ∈ order)) as [Hin|Hin].
    + rewrite (decide_True (P := S i ∈ x :: order)) by set_solver. destruct (course_detail i); [done|]. by destruct (decide (S i = x)).
    + destruct (decide (S i = x)) as [E|E]; [rewrite decide_True by set_solver; done|rewrite decide_False by set_solver; done].
Qed.

(** What the second pool leaves. *)
Lemma session_jobs_spec order : ∀ s : RefreshState,
  let s' := foldl (session_job env) s order in
  ra_total s'.1 = ra_total s.1 + Z.of_nat (length order) ∧
  ra_CoursesDiscovered s'.1 = ra_CoursesDiscovered s.1 ∧ ra_SessionsDiscovered s'.1 = ra_SessionsDiscovered s.1 ∧
  ra_FailedTargets s'.1 = ra_FailedTargets s.1 + Z.of_nat (length (base.filter (λ i, session_call_ok i = false) order)).
Proof.
  induction order as [|x order IH]; intros s s'; [unfold s'; cbn; split_and!; lia|].
  unfold s'. cbn [foldl]. rewrite session_job_eq. set (s1 := if session_call_ok x then _ else _).
  assert (E1 : ra_total s1.1 = ra_total s.1 + 1 ∧ ra_CoursesDiscovered s1.1 = ra_CoursesDiscovered s.1 ∧
    ra_SessionsDiscovered s1.1 = ra_SessionsDiscovered s.1 ∧
    ra_FailedTargets s1.1 = ra_FailedTargets s.1 + (if session_call_ok x then 0 else 1)).
  { unfold s1, ra_total. destruct (session_call_ok x); cbn; split_and!; lia. }
  destruct E1 as (T1 & D1 & G1 & F1). clearbody s1. destruct (IH s1) as (T2 & D2 & G2 & F2).
  split_and!; [rewrite T2, T1; cbn [length]; lia|congruence|congruence|].
  rewrite F2, F1, filter_cons. destruct (session_call_ok x); [rewrite decide_False by done|rewrite decide_True by done; cbn [length]]; lia.
Qed.

End accounting.

(** * The sessions of the refreshed courses *)

Section sessions.
Context (host : string).

Definition listed (acc : gset string * list TargetRef) : Prop :=
  acc.1 = list_to_set (map IdentityKey acc.2) ∧ NoDup (map IdentityKey acc.2).

(** What one more step adds: references of [P], and a reference with the key of each. *)
Definition extends (P : TargetRef → Prop) (acc acc' : gset string * list TargetRef) : Prop :=
  listed acc' ∧
  (∀ ref, ref ∈ acc'.2 → ref ∈ acc.2 ∨ P ref) ∧
  (∀ ref, ref ∈ acc.2 ∨ P ref → IdentityKey ref ∈ map IdentityKey acc'.2).

Lemma extends_trans (P Q : TargetRef → Prop) a b c : extends P a b → extends Q b c → extends (λ x, P x ∨ Q x) a c.
Proof.
  intros (_ & I1 & O1) (L & I2 & O2). split; [done|]. split.
  - intros ref [Hr|?]%I2; [|tauto]. destruct (I1 ref Hr); tauto.
  - intros ref Hr. destruct Hr as [Hr|[Hr|Hr]]; [| |by apply O2; right].
    + assert (Hk : IdentityKey ref ∈ map IdentityKey b.2) by (apply O1; by left).
      apply list_elem_of_fmap in Hk as (ref' & -> & Hr'). apply O2. by left.
    + assert (Hk : IdentityKey ref ∈ map IdentityKey b.2) by (apply O1; by right).
      apply list_elem_of_fmap in Hk as (ref' & -> & Hr'). apply O2. by left.
Qed.

Lemma extends_same (P : TargetRef → Prop) acc : listed acc → (∀ ref, ¬ P ref) → extends P acc acc.
Proof.
  intros L HP. split; [done|]. split; [by left|]. intros ref [Hr|Hr]; [|by destruct (HP ref)].
  apply list_elem_of_fmap. by exists ref.
Qed.

Lemma extends_iff (P Q : TargetRef → Prop) a b : (∀ ref, P ref ↔ Q ref) → extends P a b → extends Q a b.
Proof.
  intros E (L & I & O). split; [done|]. split.
  - intros ref [?|?%E]%I; tauto.
  - intros ref Hr. apply O. rewrite E. done.
Qed.

Lemma session_step_extends courseID acc sess : listed acc →
  extends (λ ref, ss_SessionID sess ≠ "" ∧ ref = provider_SessionRef host courseID (ss_SessionID sess)) acc
    (session_step host courseID acc sess).
Proof.
  intros L. unfold session_step. case_bool_decide as Hs; [apply extends_same; [done|by intros ref [? _]]|]. cbv zeta.
  set (ref := provider_SessionRef host courseID (ss_SessionID sess)). destruct L as [E N]. case_bool_decide as Hk.
  - split; [by split|]. split; [by left|]. rewrite E in Hk. apply elem_of_list_to_set in Hk.
    intros r [Hr|[_ ->]]; [apply list_elem_of_fmap; by exists r|done].
  - split; [split; cbn|split; cbn].
    + rewrite map_app, list_to_set_app_L, E. cbn [map list_to_set]. rewrite (right_id_L ∅ (∪)). apply (comm_L (∪)).
    + rewrite map_app. apply NoDup_app. split; [done|]. split; [|apply NoDup_singleton].
      intros k Hin Hk'. apply list_elem_of_singleton in Hk'. subst k. apply Hk. rewrite E. by apply elem_of_list_to_set.
    + intros r. rewrite elem_of_app, list_elem_of_singleton. tauto.
    + intros r Hr. rewrite map_app, elem_of_app. destruct Hr as [Hr|[_ ->]]; [left; apply list_elem_of_fmap; by exists r|].
      right. cbn. apply list_elem_of_singleton. done.
Qed.

Lemma sessions_extends courseID sessions : ∀ acc, listed acc →
  extends (λ ref, ∃ sess, sess ∈ sessions ∧ ss_SessionID sess ≠ "" ∧ ref = provider_SessionRef host courseID (ss_SessionID sess))
    acc (foldl (session_step host courseID) acc sessions).
Proof.
  induction sessions as [|s sessions IH]; intros acc L; cbn [foldl].
  { apply extends_same; [done|]. intros ref (sess & Hs & _). by apply not_elem_of_nil in Hs. }
  pose proof (session_step_extends courseID acc s L) as E1.
  pose proof (IH _ (proj1 E1)) as E2. refine (extends_iff _ _ _ _ _ (extends_trans _ _ _ _ _ E1 E2)).
  intros ref. setoid_rewrite elem_of_cons. split.
  - intros [[Hs ->]|(x & Hx & Hs & ->)]; [by exists s; auto|by exists x; auto].
  - intros (x & [->|Hx] & Hs & ->); [by left|right; by exists x].
Qed.

(** The reference of a listed session of a refreshed course. *)
Definition session_of (courses : list CourseSummary) (details : list (option CourseDetail)) (ref : TargetRef) : Prop :=
  ∃ c d sess, (c, Some d) ∈ zip courses details ∧ sess ∈ cd_Sessions d ∧ ss_SessionID sess ≠ "" ∧
    ref = provider_SessionRef host (cs_CourseID c) (ss_SessionID sess).

Lemma session_refs_spec courses details :
  let refs := session_refs host courses details in
  NoDup (map IdentityKey refs) ∧
  (∀ ref, ref ∈ refs → session_of courses details ref) ∧
  (∀ ref, session_of courses details ref → IdentityKey ref ∈ map IdentityKey refs).
Proof.
  unfold session_refs, session_of. generalize (zip courses details). intros l.
  assert (G : ∀ acc, listed acc →
    extends (λ ref, ∃ c d sess, (c, Some d) ∈ l ∧ sess ∈ cd_Sessions d ∧ ss_SessionID sess ≠ "" ∧
      ref = provider_SessionRef host (cs_CourseID c) (ss_SessionID sess)) acc (foldl (course_sessions_step host) acc l)).
  { induction l as [|[c d] l IH]; intros acc L; cbn [foldl].
    { apply extends_same; [done|]. intros ref (c & d & s & Hs & _). by apply not_elem_of_nil in Hs. }
    unfold course_sessions_step at 2. cbn [fst snd]. destruct d as [d|].
    - pose proof (sessions_extends (cs_CourseID c) (cd_Sessions d) acc L) as E1.
      pose proof (IH _ (proj1 E1)) as E2. refine (extends_iff _ _ _ _ _ (extends_trans _ _ _ _ _ E1 E2)).
      intros ref. setoid_rewrite elem_of_cons. split.
      + intros [(s & Hs & Hn & ->)|(c' & d' & s & Hl & Hs & Hn & ->)]; [by exists c, d, s; auto|by exists c', d', s; auto].
      + intros (c' & d' & s & [[= -> ->]|Hl] & Hs & Hn & ->); [left; by exists s|right; by exists c', d', s].
    - refine (extends_iff _ _ _ _ _ (IH _ L)). intros ref. setoid_rewrite elem_of_cons. split.
      + intros (c' & d' & s & Hl & Hs & Hn & ->). by exists c', d', s; auto.
      + intros (c' & d' & s & [[= ]|Hl] & Hs & Hn & ->). by exists c', d', s. }
  destruct (G (∅, [])) as ([_ Hn] & Hi & Ho); [by split; [|apply NoDup_nil_2]|].
  split; [exact Hn|]. split.
  - intros ref [Hr|?]%Hi; [by apply not_elem_of_nil in Hr|done].
  - intros ref Hr. apply Ho. by right.
Qed.
End sessions.

(** * The theorem *)

(** A pool whose jobs wrote their results in the order [order]. *)
Definition pool_ran (count : nat) (concurrency : Z) (order : list nat) (err : bool) : Prop :=
  ∃ canceled s, rtc (jobs_step count) (jobs_start count concurrency canceled) s ∧ jobs_over s = true ∧
    order ≡ₚ jb_Started s ∧ err = jb_Canceled s.

Lemma pool_complete count concurrency order : pool_ran count concurrency order false → order ≡ₚ seq 0 count.
Proof.
  intros (canceled & s & Hr & Ho & -> & Hc). eapply jobs_complete; [by eapply jobs_reachable_inv|done|done].
Qed.

Lemma lookup_repeat_lt {A} (x : A) n : ∀ i, (i < n)%nat → repeat x n !! i = Some x.
Proof. induction n as [|n IH]; intros [|i] Hi; cbn; [lia|lia|done|apply IH; lia]. Qed.

(** The details the refreshed courses left in their slots. *)
Definition refreshed_details (env : RefreshAllEnv) (courses : list CourseSummary) : list (option CourseDetail) :=
  map (course_detail env) (seq 0 (length courses)).

Lemma filter_length_perm {A} (P : A → Prop) `{∀ x, Decision (P x)} l l' :
  l ≡ₚ l' → length (base.filter P l) = length (base.filter P l').
Proof. intros E. by rewrite E. Qed.

Section refresh_spec.
Context `{GoLib, CoordLib, Postgres} (cfg : SchedulerConfig) (maxBytes : Z).

(** Every refresh that reported success ran between [db0] and [db1], among other
    transactions. *)
Definition ran_on_store (host : string) (env : RefreshAllEnv) (courses : list CourseSummary) (refs : list TargetRef) (db0 db1 : DB) : Prop :=
  ∀ call ref, call_ref host courses refs call = Some ref → re_Refresh env call = None →
    ∃ e polls db db', rtc db_step db0 db ∧ refresh_ok cfg e ∧ Forall (poll_ok cfg) polls ∧
      RefreshNow cfg maxBytes ref e polls db = Some (db', Ok tt) ∧ rtc db_step db' db1.

Lemma ran_newer raw host env courses refs db0 db1 call ref :
  NewScheduler raw = Some cfg → reachable db0 → ran_on_store host env courses refs db0 db1 →
  call_ref host courses refs call = Some ref → re_Refresh env call = None → seq_of ref db0 < seq_of ref db1.
Proof.
  intros Hn Hr Hs Hc He. destruct (Hs call ref Hc He) as (e & polls & db & db' & S0 & He' & Hp & Er & S1).
  assert (R : reachable db) by (unfold reachable in *; by transitivity db0).
  destruct (RefreshNow_newer cfg maxBytes raw ref e polls db Hn R He' Hp) as [_ Hnew].
  destruct (Hnew db' Er) as [S Hlt].
  pose proof (seq_of_steps ref _ _ Hr S0). pose proof (seq_of_steps ref db' db1 ltac:(unfold reachable in *; by transitivity db) S1). lia.
Qed.

(** The state after the first pool, when it was not cancelled. *)
Lemma first_pool env (courses : list CourseSummary) order :
  pool_ran (S (length courses)) refreshAllConcurrency order false →
  let s1 := foldl (course_job env) (mkRefreshAll (Z.of_nat (length courses)) 0 0 0 false 0, repeat None (length courses)) order in
  s1.2 = refreshed_details env courses ∧ ra_total s1.1 = 1 + Z.of_nat (length courses) ∧
  ra_CoursesDiscovered s1.1 = Z.of_nat (length courses) ∧ 0 ≤ ra_FailedTargets s1.1 ∧
  (ra_FailedTargets s1.1 = 0 → ∀ i, (i ≤ length courses)%nat → course_call_ok env i = true).
Proof.
  intros Hp%pool_complete s1.
  destruct (course_jobs_spec env order (mkRefreshAll (Z.of_nat (length courses)) 0 0 0 false 0, repeat None (length courses)))
    as (T & D & F & _ & L & Sl).
  { rewrite Hp. apply NoDup_seq. }
  { done. }
  fold s1 in T, D, F, L, Sl. cbn [fst snd ra_CoursesDiscovered ra_FailedTargets] in *. rewrite repeat_length in *.
  split.
  { apply list_eq. intros i. destruct (decide (i < length courses)%nat) as [Hi|Hi].
    - rewrite (Sl i Hi). rewrite decide_True by (rewrite Hp; apply elem_of_seq; lia).
      unfold refreshed_details. change (map ?f ?l) with (f <$> l). rewrite list_lookup_fmap, lookup_seq_lt by done. cbn.
      destruct (course_detail env i); [done|]. by apply lookup_repeat_lt.
    - rewrite !lookup_ge_None_2; [done| |lia]. unfold refreshed_details. rewrite length_map, length_seq. lia. }
  split; [rewrite T, Hp, length_seq; unfold ra_total; cbn [b2z ra_CoursesRefreshed ra_SessionsRefreshed ra_ProfilesRefreshed ra_FailedTargets]; lia|]. split; [done|]. split; [lia|].
  intros F0 i Hi. destruct (course_call_ok env i) eqn:E; [done|]. exfalso.
  assert (Hin : i ∈ base.filter (λ j, course_call_ok env j = false) order).
  { apply list_elem_of_filter. split; [done|]. rewrite Hp. apply elem_of_seq. lia. }
  destruct (base.filter _ order); [by apply not_elem_of_nil in Hin|cbn in F; lia].
Qed.

(** C36: refreshing everything.  When the catalog could be refreshed and read and no pool was
    cancelled: the result counts every course of the catalog, the profiles and every session
    of the refreshed courses exactly once, as refreshed or as failed, however the jobs were
    scheduled; the sessions are those of the refreshed courses, each once; and when no target
    failed, the catalog, the profiles, all courses and all sessions have been validated since
    the call began. *)
Theorem RefreshAllData_accounts raw host env courses r db0 db1 :
  let refs := session_refs host courses (refreshed_details env courses) in
  NewScheduler raw = Some cfg → reachable db0 → ran_on_store host env courses refs db0 db1 →
  re_Catalog env = Ok courses →
  pool_ran (S (length courses)) refreshAllConcurrency (re_CourseJobs env) (re_CourseErr env) →
  pool_ran (length refs) refreshAllConcurrency (re_SessionJobs env) (re_SessionErr env) →
  RefreshAllData host env true true = (r, None) →
  ra_CoursesDiscovered r = Z.of_nat (length courses) ∧ ra_SessionsDiscovered r = Z.of_nat (length refs) ∧
  ra_CoursesRefreshed r + ra_SessionsRefreshed r + b2z (ra_ProfilesRefreshed r) + ra_FailedTargets r =
    1 + Z.of_nat (length courses) + Z.of_nat (length refs) ∧
  NoDup (map IdentityKey refs) ∧
  (∀ ref, ref ∈ refs → session_of host courses (refreshed_details env courses) ref) ∧
  (∀ ref, session_of host courses (refreshed_details env courses) ref → IdentityKey ref ∈ map IdentityKey refs) ∧
  (ra_FailedTargets r = 0 →
     ∀ ref, ref ∈ CatalogRef host :: ProfilesRef host :: map (λ c, CourseRef host (cs_CourseID c)) courses ++ refs →
       seq_of ref db0 < seq_of ref db1).
Proof.
  intros refs Hn Hr Hs Hcat Hp1 Hp2. unfold RefreshAllData. cbn [negb].
  destruct (re_Refresh env CallCatalog) eqn:Ec0; [done|]. rewrite Hcat. cbv zeta.
  set (s1 := foldl (course_job env) _ _). destruct (re_CourseErr env); [done|].
  destruct (first_pool env courses (re_CourseJobs env) Hp1) as (Hd & T1 & D1 & P1 & F1). fold s1 in Hd, T1, D1, P1, F1.
  rewrite Hd. fold refs. set (s2 := set_sessions_discovered _ _).
  destruct (session_jobs_spec env (re_SessionJobs env) s2) as (T3 & D3 & G3 & F3).
  set (s3 := foldl (session_job env) s2 _) in *. destruct (re_SessionErr env); [done|]. intros [= <-].
  apply pool_complete in Hp2.
  assert (E2 : ra_total s2.1 = ra_total s1.1 ∧ ra_CoursesDiscovered s2.1 = ra_CoursesDiscovered s1.1 ∧
    ra_SessionsDiscovered s2.1 = Z.of_nat (length refs) ∧ ra_FailedTargets s2.1 = ra_FailedTargets s1.1) by done.
  destruct E2 as (T2 & D2 & G2 & F2). clearbody s3. rewrite Hp2, length_seq in T3.
  destruct (session_refs_spec host courses (refreshed_details env courses)) as (S1 & S2 & S3). fold refs in S1, S2, S3.
  split; [lia|]. split; [congruence|]. split; [unfold ra_total in *; lia|]. do 3 (split; [done|]).
  intros F0 ref Hin.
  assert (Hok : ∀ i, (i < length refs)%nat → session_call_ok env i = true).
  { intros i Hi. destruct (session_call_ok env i) eqn:E; [done|]. exfalso.
    assert (Hx : i ∈ base.filter (λ j, session_call_ok env j = false) (re_SessionJobs env)).
    { apply list_elem_of_filter. split; [done|]. rewrite Hp2. apply elem_of_seq. lia. }
    destruct (base.filter _ (re_SessionJobs env)); [by apply not_elem_of_nil in Hx|cbn in F3; lia]. }
  assert (Hc1 : ∀ i, (i ≤ length courses)%nat → course_call_ok env i = true) by (apply F1; lia).
  assert (Hcall : ∃ call, call_ref host courses refs call = Some ref ∧ re_Refresh env call = None).
  { apply elem_of_cons in Hin as [->|Hin]; [by exists CallCatalog|].
    apply elem_of_cons in Hin as [->|Hin].
    { exists CallProfiles. split; [done|]. specialize (Hc1 0%nat ltac:(lia)). by apply bool_decide_eq_true in Hc1. }
    apply elem_of_app in Hin as [Hin|Hin].
    - apply list_elem_of_fmap in Hin as (c & -> & Hin). apply list_elem_of_lookup in Hin as [i Hi].
      exists (CallCourse i). cbn. rewrite Hi. split; [done|]. pose proof (lookup_lt_Some _ _ _ Hi).
      specialize (Hc1 (S i) ltac:(lia)). cbn in Hc1. apply bool_decide_eq_true in Hc1 as [d Hc1].
      unfold course_detail in Hc1. by destruct (re_Refresh env (CallCourse i)).
    - apply list_elem_of_lookup in Hin as [i Hi]. exists (CallSession i). split; [done|].
      specialize (Hok i ltac:(by eapply lookup_lt_Some)). by apply bool_decide_eq_true in Hok. }
  destruct Hcall as (call & Hcr & Hnone). by eapply ran_newer.
Qed.
End refresh_spec.

(** * The dashboard and the batch *)

(** Each job of a pool fills its own slot, whatever their order. *)
Lemma run_slots_spec {A} (job : nat → option A) order : ∀ (results out : list A),
  run_slots job results order = Some out →
  length out = length results ∧
  ∀ i, (i < length results)%nat → out !! i = if decide (i ∈ order) then job i else results !! i.
Proof.
  unfold run_slots. induction order as [|x order IH] using rev_ind; intros results out E.
  { injection E as <-. split; [done|]. intros i _. by rewrite decide_False by apply not_elem_of_nil. }
  rewrite foldl_snoc in E. destruct (foldl _ _ order) as [mid|] eqn:Em; [|done]. cbn in E.
  destruct (job x) as [r|] eqn:Ex; [|done]. cbn in E. injection E as <-.
  destruct (IH _ _ Em) as [L S]. split; [by rewrite length_insert|]. intros i Hi.
  destruct (decide (i = x)) as [->|Hne].
  - rewrite list_lookup_insert_eq by lia. rewrite decide_True by set_solver. done.
  - rewrite list_lookup_insert_ne by done. rewrite S by done.
    destruct (decide (i ∈ order)); [rewrite decide_True by set_solver|rewrite decide_False by set_solver]; done.
Qed.

Lemma markReportStale_lines mode snaps overdue r :
  cr_Students (markReportStale mode snaps overdue r) = cr_Students r ∧
  cr_Sessions (markReportStale mode snaps overdue r) = cr_Sessions r.
Proof. unfold markReportStale. destruct mode, snaps; cbn; [destruct overdue|..]; done. Qed.

Lemma dashboard_course_known mode snaps threshold c job res :
  dashboard_course mode snaps threshold c job = Some res →
  cells_known res ∧ dc_CourseID res = cs_CourseID c ∧ dc_CourseName res = cs_Name c ∧
  ((∃ rep, dc_Report res = Some rep ∧ dc_Err res = None) ∨ (∃ e, dc_Report res = None ∧ dc_Err res = Some e)).
Proof.
  unfold dashboard_course. destruct (course_attempts _ _ _ _).2 as [[detail|]|e].
  - destruct (ComputeCourseAttendanceReport _ _ _ _) as [rep|] eqn:Er; [|done]. cbn. intros [= <-].
    split; [|split_and!; [done|done|left; eexists; done]].
    destruct (report_results_spec (uniqueSessions (cd_Sessions detail)) (rv_Trace (dj_Report job)) (rv_Order (dj_Report job)))
      as (_ & Hl & _).
    assert (Hf : length (final_results (dj_Report job) (uniqueSessions (cd_Sessions detail))) = length (uniqueSessions (cd_Sessions detail))).
    { unfold final_results. destruct (rv_JobErr _); by rewrite ?length_map. }
    destruct (markReportStale_lines mode snaps (dj_Overdue job) rep) as [Es Ess].
    pose proof (computed_cells_known (dj_Report job) detail threshold rep
      {| dc_CourseID := ""; dc_CourseName := ""; dc_Report := Some rep; dc_Err := None |} Hf Er eq_refl) as K.
    intros rep' s cell [= <-]. rewrite Es, Ess. by apply (K rep).
  - intros [= <-]. split; [by intros ? ? ?|]. split_and!; [done|done|right; eexists; done].
  - intros [= <-]. split; [by intros ? ? ?|]. split_and!; [done|done|right; eexists; done].
Qed.

Lemma dashboard_courses_elem courseIds courses c :
  c ∈ dashboard_courses courseIds courses ↔ c ∈ courses ∧ (courseIds = [] ∨ cs_CourseID c ∈ courseIds).
Proof.
  unfold dashboard_courses. case_bool_decide as E; [tauto|].
  rewrite list_elem_of_filter, elem_of_list_to_set. tauto.
Qed.

(** C35: the absence dashboard, from the catalog to the page.  Whatever the order in which the
    courses' jobs finish and maps are visited, and provided that no report names a student
    without an identifier: the dashboard is built from one result per
    course asked for (all of the catalog when none is named), each a report or an error; it
    lists every student of these reports once (or those the codes select) with the sums over
    the student's courses, with one entry per course and one per session; students stand
    at-risk first, then by rate, then by name, and the callout holds the first five at risk.
    It lists every session of these courses once, with the number of students checked in to
    it. *)
Theorem absence_dashboard mode snaps courseIds threshold wCodes allCourses jobs order profiles now walkSessions walkStudents rep :
  let courses := dashboard_courses courseIds allCourses in
  courses ≠ [] → pool_ran (length courses) 2 order false →
  (∀ i c res r, courses !! i = Some c → dashboard_course mode snaps threshold c (jobs i) = Some res →
     dc_Report res = Some r → "" ∉ map sa_StudentID (cr_Students r)) →
  GetAbsenceDashboard mode snaps courseIds threshold wCodes (Ok allCourses) jobs order false profiles now walkSessions walkStudents
    = Some (Ok rep) →
  (∀ c, c ∈ courses ↔ c ∈ allCourses ∧ (courseIds = [] ∨ cs_CourseID c ∈ courseIds)) ∧
  dr_TotalCourses rep = Z.of_nat (length courses) ∧
  ∃ results, length results = length courses ∧
    (∀ i c, courses !! i = Some c → ∃ res, results !! i = Some res ∧
       dashboard_course mode snaps threshold c (jobs i) = Some res ∧
       dc_CourseID res = cs_CourseID c ∧ dc_CourseName res = cs_Name c ∧
       ((∃ r, dc_Report res = Some r ∧ dc_Err res = None) ∨ (∃ e, dc_Report res = None ∧ dc_Err res = Some e))) ∧
    dashboard_of results threshold wCodes (match profiles with Ok p => buildStudentIDMapping p | Err _ => ∅ end) rep.
Proof.
  intros courses Hne Hp%pool_complete Hid. unfold GetAbsenceDashboard. cbv zeta. fold courses.
  rewrite bool_decide_false by done. unfold dashboard_results.
  destruct (run_slots _ _ order) as [results|] eqn:Er; [|done]. cbn [mbind option_bind].
  destruct (run_slots_spec _ _ _ _ Er) as [Hl Hs]. rewrite repeat_length in Hl, Hs.
  destruct (aggregateDashboard _ _ _ _ _ _ _ _) as [rep'|] eqn:Ea; [|done]. cbn [mbind option_bind]. intros [= <-].
  assert (Hres : ∀ i c, courses !! i = Some c → ∃ res, results !! i = Some res ∧ dashboard_course mode snaps threshold c (jobs i) = Some res).
  { intros i c Hi. pose proof (lookup_lt_Some _ _ _ Hi) as Hlt.
    assert (Hsome : is_Some (results !! i)) by (apply lookup_lt_is_Some; lia). destruct Hsome as [res Hr].
    exists res. split; [done|]. rewrite (Hs i Hlt), decide_True in Hr by (rewrite Hp; apply elem_of_seq; lia).
    by rewrite (nth_lookup_Some _ _ _ _ Hi) in Hr. }
  assert (Hback : ∀ res, res ∈ results → ∃ i c, courses !! i = Some c ∧ dashboard_course mode snaps threshold c (jobs i) = Some res).
  { intros res Hin. apply list_elem_of_lookup in Hin as [i Hi]. pose proof (lookup_lt_Some _ _ _ Hi) as Hlt.
    assert (Hsome : is_Some (courses !! i)) by (apply lookup_lt_is_Some; lia). destruct Hsome as [c Hc].
    exists i, c. split; [done|]. destruct (Hres i c Hc) as (res' & Hr' & Hd). congruence. }
  split; [intros c; apply dashboard_courses_elem|]. split.
  { unfold aggregateDashboard, aggregatePerCourseResults in Ea. cbv zeta in Ea. destruct (negb _); [done|]. by injection Ea as <-. }
  exists results. split; [done|]. split.
  - intros i c Hi. destruct (Hres i c Hi) as (res & Hr & Hd). exists res. split; [done|]. split; [done|].
    by destruct (dashboard_course_known _ _ _ _ _ _ Hd) as (_ & ?).
  - eapply dashboard_aggregates; [| |exact Ea].
    + apply Forall_forall. intros res Hin. destruct (Hback res Hin) as (i & c & _ & Hd).
      by destruct (dashboard_course_known _ _ _ _ _ _ Hd) as [? _].
    + unfold dashboard_lines. intros Hin. change (map ?f ?l) with (f <$> l) in Hin. apply list_elem_of_fmap in Hin as ([res s] & Hs0 & Hin).
      apply list_elem_of_In, in_concat in Hin as (l & Hl'%list_elem_of_In & Hin%list_elem_of_In).
      change (map ?f ?l) with (f <$> l) in Hl'.
      apply list_elem_of_fmap in Hl' as (res' & -> & Hr'). destruct (Hback res' Hr') as (i & c & Hi & Hd).
      unfold reported in Hin. destruct (dc_Err res') eqn:Ee; [by apply not_elem_of_nil in Hin|].
      destruct (dc_Report res') as [r|] eqn:Erep; [|by apply not_elem_of_nil in Hin].
      apply (Hid i c res' r Hi Hd Erep). change (map ?f ?l) with (f <$> l) in *. apply list_elem_of_fmap in Hin as (s' & [= -> ->] & Hin).
      apply list_elem_of_fmap. by exists s'.
Qed.

(** A course whose source stays exhausted: the loop waits after the last attempt too, for
    two seconds that nothing follows. *)
Lemma course_attempts_exhausted job e :
  (∀ i, dj_Detail job i = Err (true, e)) → (∀ i, dj_Done job i = false) →
  course_attempts job 0 detail_attempts TErrPoolExhausted =
    ([500 * Millisecond; 1000 * Millisecond; 2000 * Millisecond], Err TErrPoolExhausted).
Proof. intros Hd Hc. unfold detail_attempts. cbn [course_attempts]. rewrite !Hd, !Hc. vm_compute. done. Qed.

(** A course is given up after three attempts, and at once on any other error. *)
Lemma course_attempts_bound job attempt left lastErr :
  (length (course_attempts job attempt left lastErr).1 ≤ left)%nat.
Proof.
  revert attempt lastErr. induction left as [|left IH]; intros attempt lastErr; cbn; [lia|].
  destruct (dj_Detail job attempt) as [d|[[] e]]; cbn; [lia| |lia]. destruct (dj_Done job attempt); cbn; [lia|].
  specialize (IH (S attempt) TErrPoolExhausted). destruct (course_attempts job (S attempt) left _). cbn in *. lia.
Qed.

(** Every requested course of a batch has a result, that of its last occurrence. *)
Lemma GetBatchAttendance_answers mode snaps ids threshold courses jobs order m :
  pool_ran (length ids) 2 order false →
  GetBatchAttendance mode snaps ids threshold (Ok courses) jobs order false = Some (Ok m) →
  (length ids ≤ 100)%nat ∧
  ∀ id, match m !! id with
        | Some res => ∃ i, ids !! i = Some id ∧ batch_course mode snaps (course_names courses) threshold id (jobs i) = Some res
        | None => id ∉ ids
        end.
Proof.
  intros Hp%pool_complete. unfold GetBatchAttendance. destruct (Nat.ltb_spec maxBatchCourseIDs (length ids)); [done|]. cbv zeta.
  destruct (run_slots _ _ order) as [results|] eqn:Er; [|done]. cbn [mbind option_bind]. intros [= <-]. split; [done|].
  destruct (run_slots_spec _ _ _ _ Er) as [Hl Hs]. rewrite repeat_length in Hl, Hs.
  assert (Hat : ∀ id res, (id, res) ∈ zip ids results → ∃ i, ids !! i = Some id ∧
    batch_course mode snaps (course_names courses) threshold id (jobs i) = Some res).
  { intros id res Hin. apply list_elem_of_lookup in Hin as [i Hi]. apply lookup_zip_with_Some in Hi as (x & y & [= <- <-] & Hx & Hy).
    exists i. split; [done|]. pose proof (lookup_lt_Some _ _ _ Hx) as Hlt. rewrite (Hs i Hlt), decide_True in Hy by (rewrite Hp; apply elem_of_seq; lia).
    by rewrite (nth_lookup_Some _ _ _ _ Hx) in Hy. }
  assert (Hids : ∀ id, id ∈ ids → ∃ res, (id, res) ∈ zip ids results).
  { intros id Hin. apply list_elem_of_lookup in Hin as [i Hi]. pose proof (lookup_lt_Some _ _ _ Hi).
    assert (Hsome : is_Some (results !! i)) by (apply lookup_lt_is_Some; lia). destruct Hsome as [res Hr].
    exists res. apply list_elem_of_lookup. exists i. by rewrite lookup_zip_with, Hi, Hr. }
  intros id. assert (G : ∀ l, match foldl (λ (m : gmap string BatchCourseResult) x, <[x.1 := x.2]> m) ∅ l !! id with
    | Some res => (id, res) ∈ l | None => id ∉ map fst l end).
  { induction l as [|[k v] l IH] using rev_ind; [cbn; rewrite lookup_empty; by apply not_elem_of_nil|].
    rewrite foldl_snoc. cbn [fst snd]. destruct (decide (k = id)) as [->|Hne].
    - rewrite lookup_insert_eq. set_solver.
    - rewrite lookup_insert_ne by done. destruct (foldl _ ∅ l !! id); [set_solver|]. rewrite map_app. set_solver. }
  specialize (G (zip ids results)). destruct (foldl _ ∅ _ !! id) as [res|]; [by apply Hat|].
  intros Hin. destruct (Hids id Hin) as [res Hr]. apply G. apply list_elem_of_fmap. by exists (id, res).
Qed.

(** * The older toggle *)

(** In snapshot mode a toggle is settled exactly when the target was made due, refreshed and
    read again and the new reading shows the student in the wanted state; otherwise the
    target is made due once more. *)
Lemma ToggleCheckin_settled id checked env r n :
  ToggleCheckin true true id checked env = Ok (r, n) →
  tr_StudentID r = id ∧ tr_CheckedIn r = checked ∧ n = (if tr_SnapshotRefreshPending r then 2%nat else 1%nat) ∧
  (tr_SnapshotRefreshPending r = false ↔
     tg_Due env = None ∧ tg_Refresh env = None ∧ ∃ count, toggle_detail id checked env = Some (count, true)).
Proof.
  unfold ToggleCheckin. destruct (tg_Upstream env); [done|]. cbn [negb]. cbv zeta.
  destruct (tg_Refresh env); [|destruct (toggle_detail id checked env) as [[count ok]|]]; intros [= <- <-]; cbn;
    (split; [done|]); (split; [done|]); (split; [done|]).
  - split; [done|]. by intros (_ & ? & _).
  - destruct (tg_Due env), ok; cbn; split; try done; [by intros [? _]|by intros [? _]|by intros _; split_and!; [..|exists count]|by intros (_ & _ & ? & ?)].
  - split; [done|]. by intros (_ & _ & ? & ?).
Qed.

(** A student whose GUID has a profile is never found in the enriched roster: a toggle by
    GUID stays pending however often it succeeds. *)
Lemma toggle_by_guid_stays_pending id checked env profiles wcode r n :
  tg_Profiles env = Ok profiles → buildGUIDToWCodeMap profiles !! id = Some wcode →
  (∀ g w, buildGUIDToWCodeMap profiles !! g = Some w → w ≠ id) →
  ToggleCheckin true true id checked env = Ok (r, n) → tr_SnapshotRefreshPending r = true.
Proof.
  intros Hp Hg Hw E. apply ToggleCheckin_settled in E as (_ & _ & _ & Hs).
  destruct (tr_SnapshotRefreshPending r); [done|]. destruct (proj1 Hs eq_refl) as (_ & _ & count & Hd). clear Hs.
  unfold toggle_detail in Hd. rewrite Hp in Hd. destruct (tg_Detail env) as [[d|]|]; try done. injection Hd as _ Hd.
  exfalso. unfold reflected in Hd. destruct (head _) as [s|] eqn:Eh; [|done].
  assert (Hin : s ∈ base.filter (λ s, sc_StudentID s = id) (EnrichCheckinStudentIDWithWCode (sd_Students d) profiles)).
  { destruct (base.filter _ _); [done|]. injection Eh as <-. left. }
  apply list_elem_of_filter in Hin as [Eid Hin]. apply list_elem_of_lookup in Hin as [i Hi].
  assert (Hl : is_Some (sd_Students d !! i)).
  { apply lookup_lt_is_Some. apply lookup_lt_Some in Hi. unfold EnrichCheckinStudentIDWithWCode in Hi.
    destruct (bool_decide _); [done|]. by rewrite length_map in Hi. }
  destruct Hl as [s0 Hs0]. rewrite (enrich_lookup _ _ _ _ Hs0) in Hi. injection Hi as Hi.
  destruct (buildGUIDToWCodeMap profiles !! sc_StudentID s0) as [w|] eqn:Em.
  - rewrite <- Hi in Eid. cbn in Eid. by apply (Hw _ _ Em).
  - rewrite Hi, Eid in Em. congruence.
Qed.
