(* ===== verification/TeacherWitnesses.v ===== *)
(** The refresh of everything on the demo's store, and the dashboard of a catalog with one
    course. *)

From stdpp Require Import base list list_numbers numbers strings gmap sorting relations.
From Stdlib Require Import ZArith QArith Lia.
From S2P Require Import Prelude Float64 Domain Policy Canonical Validation Tables Leases Reads System Coordinator RunSystem.
From S2P Require Import Scheduler SchedulerSpec Refresh Upstream Jobs Report ReportSpec DashboardSpec Provider.
From S2P Require Import Demo Witnesses ReportWitnesses Teacher TeacherRefresh TeacherSpec.

Local Open Scope Z_scope.
Local Open Scope stdpp_scope.
Local Open Scope go_scope.

(** * The refresh of everything *)

(** The host has one course with one session. *)
Definition all_session : SessionSummary := demo_session "s1" 1 SessionStatusDone.
Definition all_detail : CourseDetail := {| cd_Summary := Canonical.demo_course "a"; cd_Sessions := [all_session] |}.

Definition all_value (kind : SnapshotKind) : Value :=
  match kind with
  | SnapshotCourseCatalog => VCourses [Canonical.demo_course "a"]
  | SnapshotCourseDetail => VCourseDetail all_detail
  | SnapshotSessionDetail => VSessionDetail (ReportWitnesses.demo_detail "s1" 1 [ReportWitnesses.demo_student "ann" false])
  | SnapshotStudentProfiles => VProfiles [demo_profile]
  | _ => VNil
  end.

(** The fetch of a target of each kind, and the times of its run: an hour after the one before. *)
Definition all_part (t : ScrapeTarget) (now : Z) : RunPart :=
  {| rp_Env := {| en_Fetch := {| fr_Value := all_value (ref_Kind (st_Ref t)); fr_Metadata := metadata_200; fr_BytesRead := 10;
                                 fr_ReportedCount := 1; fr_ExpectedPages := 1; fr_FetchedPages := 1 |};
                  en_FetchErr := None; en_CtxDone := false; en_Confirm := None; en_StartedAt := now;
                  en_FinishedAt := now + Second; en_ConfirmedAt := now; en_Random := demo_random |};
     rp_Other := λ _ db, db; rp_AppNow := now; rp_DbNow := now; rp_BeforePermit := λ db, db; rp_BeforeRelease := λ db, db |}.

Definition attempt_at (now : Z) : Attempt :=
  {| at_Ctx := None; at_Now := now; at_Wait := None; at_Other := λ db, db; at_Later := λ db, db |}.

Definition all_env (k : Z) : RefreshEnv :=
  let now := T0 + k * Hour in
  {| rf_Gap := λ _ db, db; rf_SeedNow := now; rf_DueNow := now; rf_ClaimNow := now; rf_Locked := ∅;
     rf_Work := λ t, ([attempt_at now; attempt_at (default 0 (st_LeaseExpiresAt t))], all_part t now) |}.

Fixpoint refresh_seq (k : Z) (refs : list TargetRef) (db : DB) : option DB :=
  match refs with
  | [] => Some db
  | ref :: refs =>
      match RefreshNow config_1 1000 ref (all_env k) [] db with
      | Some (db', Ok tt) => refresh_seq (k + 1) refs db'
      | _ => None
      end
  end.

(** An attempt at the deadline of the lease is the last one. *)
Lemma all_env_ok k : refresh_ok config_1 (all_env k).
Proof.
  split; [intros n; exact id_steps|]. intros t. split.
  - split; [apply Forall_cons; split; [split; apply id_foreign|]; apply Forall_singleton; split; apply id_foreign|]. cbn [snd].
    split; [intros n; apply id_foreign|]. split; exact id_steps.
  - intros x Hx. right. left. cbn [at_Now]. rewrite Hx. apply (deadline_le config_1). vm_compute. discriminate.
Qed.

(** Each refresh of a sequence ran among the transactions of the others. *)
Lemma refresh_seq_ran refs : ∀ k db db1,
  reachable db → refresh_seq k refs db = Some db1 → rtc db_step db db1 ∧
  ∀ ref, ref ∈ refs → ∃ e d d', rtc db_step db d ∧ refresh_ok config_1 e ∧
    RefreshNow config_1 1000 ref e [] d = Some (d', Ok tt) ∧ rtc db_step d' db1.
Proof.
  induction refs as [|ref refs IH]; intros k db db1 Hr E.
  { injection E as <-. split; [reflexivity|]. intros ref Hin. by apply not_elem_of_nil in Hin. }
  cbn [refresh_seq] in E. destruct (RefreshNow config_1 1000 ref (all_env k) [] db) as [[d' [[]|]]|] eqn:Ed; [|discriminate E..].
  assert (Hcfg : NewScheduler config_1 = Some config_1) by (vm_compute; reflexivity).
  destruct (RefreshNow_newer config_1 1000 config_1 ref (all_env k) [] db Hcfg Hr (all_env_ok k) (Forall_nil_2 _)) as [_ Hs].
  destruct (Hs d' Ed) as [S _]. assert (R : reachable d') by (unfold reachable in *; by transitivity db).
  destruct (IH _ _ _ R E) as [S1 H1]. split; [by transitivity d'|]. intros x [->|Hx]%elem_of_cons.
  - exists (all_env k), db, d'. split; [reflexivity|]. split; [apply all_env_ok|]. by split.
  - destruct (H1 x Hx) as (e & a & b & Sa & He & Er & Sb). exists e, a, b. split; [by transitivity d'|]. by split.
Qed.

Definition all_refs : list TargetRef := [CatalogRef "h"; ProfilesRef "h"; CourseRef "h" "a"; provider_SessionRef "h" "a" "s1"].

Definition all_answers : RefreshAllEnv :=
  {| re_Refresh := λ _, None; re_Catalog := Ok [Canonical.demo_course "a"]; re_Detail := λ _, Ok (Some all_detail);
     re_CourseJobs := [1; 0]%nat; re_CourseErr := false; re_SessionJobs := [0]%nat; re_SessionErr := false |}.

(** The first worker starts and ends [count] jobs, and the others find nothing left. *)
Lemma pool_ran_by count concurrency ops s order :
  jobs_run count ops (jobs_start count concurrency false) = Some s →
  (jobs_over s && negb (jb_Canceled s) && bool_decide (order ≡ₚ jb_Started s)) = true →
  pool_ran count concurrency order false.
Proof.
  intros E Hb. bool_to_prop. exists false, s. split; [exact (jobs_run_reachable _ _ _ _ E)|]. split; [done|].
  split; [done|]. by destruct (jb_Canceled s).
Qed.

(** Two workers, turn by turn; and one job. *)
Definition two_turns : list JobOp := map OpWorker [0; 1; 0; 1; 0; 1; 0; 1]%nat.

Lemma demo_pool_2 : pool_ran 2 refreshAllConcurrency [1; 0]%nat false.
Proof.
  destruct (jobs_run 2 two_turns (jobs_start 2 refreshAllConcurrency false)) as [s|] eqn:E; [|vm_compute in E; discriminate E].
  apply (pool_ran_by _ _ _ _ _ E). vm_compute in E. injection E as <-. vm_compute. reflexivity.
Qed.

Lemma demo_pool_1 concurrency : concurrency = 4 ∨ concurrency = 2 → pool_ran 1 concurrency [0%nat] false.
Proof.
  intros Hc. destruct (jobs_run 1 (map OpWorker [0; 0; 0; 0]%nat) (jobs_start 1 concurrency false)) as [s|] eqn:E.
  - apply (pool_ran_by _ _ _ _ _ E). destruct Hc as [-> | ->]; vm_compute in E; injection E as <-; vm_compute; reflexivity.
  - exfalso. destruct Hc as [-> | ->]; vm_compute in E; discriminate E.
Qed.

Lemma RefreshAllData_accounts_witness :
  ∃ db1, refresh_seq 0 all_refs db_seeded = Some db1 ∧
    Forall (λ ref, seq_of ref db_seeded < seq_of ref db1) all_refs.
Proof.
  destruct (refresh_seq 0 all_refs db_seeded) as [db1|] eqn:E; [|exfalso; revert E; vm_compute; discriminate].
  exists db1. split; [reflexivity|]. destruct (refresh_seq_ran _ _ _ _ reach_seeded E) as [_ Hran].
  destruct (RefreshAllData_accounts config_1 1000 config_1 "h" all_answers [Canonical.demo_course "a"]
    (mkRefreshAll 1 1 1 1 true 0) db_seeded db1)
    as (_ & _ & _ & _ & _ & _ & Hnew).
  - vm_compute. reflexivity.
  - exact reach_seeded.
  - intros call ref Hc _.
    assert (Hin : ref ∈ all_refs).
    { destruct call as [| |[|i]|[|i]]; vm_compute in Hc; try discriminate Hc; injection Hc as <-;
        apply (bool_decide_unpack _); vm_compute; exact I. }
    destruct (Hran ref Hin) as (e & d & d' & S0 & He & Ee & S1).
    exists e, [], d, d'. split; [exact S0|]. split; [exact He|]. split; [constructor|]. split; [exact Ee|exact S1].
  - reflexivity.
  - exact demo_pool_2.
  - exact (demo_pool_1 4 (or_introl eq_refl)).
  - vm_compute. reflexivity.
  - apply Forall_forall. intros ref Hin. exact (Hnew eq_refl ref Hin).
Defined.

(** * The dashboard *)

(** The catalog has two courses and one is asked for; its detail comes at the second attempt. *)
Definition other_course : CourseSummary := Canonical.demo_course "b".
Definition the_course : CourseSummary := cd_Summary ReportWitnesses.demo_course.

Definition the_job : DashboardJob :=
  {| dj_Detail := λ attempt, match attempt with O => Err (true, "busy") | _ => Ok (Some ReportWitnesses.demo_course) end;
     dj_Done := λ _, false; dj_Report := demo_env; dj_Overdue := Ok false |}.

Definition the_dashboard : option (result TeacherErr DashboardReport) :=
  GetAbsenceDashboard true true ["c"; "missing"] 0 [] (Ok [other_course; the_course]) (λ _, the_job) [0%nat] false
    (Err "unread") 0 ["s3"; "s1"; "s2"] ["ann"; "bob"].

Lemma absence_dashboard_witness :
  ∃ rep, the_dashboard = Some (Ok rep) ∧ dr_TotalCourses rep = 1 ∧ map sb_Name (dr_Students rep) = ["bob"; "ann"].
Proof.
  destruct the_dashboard as [[rep|]|] eqn:E; [|vm_compute in E; discriminate E..].
  exists rep. split; [reflexivity|].
  destruct (absence_dashboard true true ["c"; "missing"] 0 [] [other_course; the_course] (λ _, the_job) [0%nat] (Err "unread") 0
    ["s3"; "s1"; "s2"] ["ann"; "bob"] rep) as (_ & Hc & _).
  - vm_compute. discriminate.
  - exact (demo_pool_1 2 (or_intror eq_refl)).
  - intros i c res r Hi Hd Hr. destruct i; vm_compute in Hi; [|discriminate Hi]. injection Hi as <-.
    vm_compute in Hd. injection Hd as <-. cbn [dc_Report] in Hr. injection Hr as <-.
    apply (bool_decide_unpack _). vm_compute. exact I.
  - exact E.
  - split; [exact Hc|]. vm_compute in E. injection E as <-. vm_compute. reflexivity.
Defined.
