(* ===== verification/Spreadsheet.v ===== *)
(** The export as a file ([internal/api/attendance_export.go]): the rows of the CSV and of the
    workbook, the file's name, and the handler that answers the request.

    [encoding/csv], [strconv] and the time formats are written out; [strings.ToLower] and the
    workbook library are parameters: a workbook is what the library makes of the calls the
    code makes, in order.  Bytes are natural numbers, as in [Sanitize]. *)

From stdpp Require Import base list numbers strings pretty.
From Stdlib Require Import ZArith QArith Qround Lia.
From S2P Require Import Prelude Float64 Sanitize Domain Upstream Report Export.

Local Open Scope Z_scope.
Local Open Scope stdpp_scope.
Local Open Scope go_scope.

(** * Numbers and times as text *)

Definition Itoa (n : Z) : string := pretty n.
Definition FormatBool (b : bool) : string := if b then "true" else "false".

(** At least [k] digits. *)
Definition pad (k : nat) (n : Z) : string :=
  let digits := pretty (Z.abs n) in
  (if n <? 0 then "-" else "") +:+ string_of_bytes (repeat 48%nat (k - String.length digits)%nat) +:+ digits.

(** [strconv.FormatFloat(x, 'f', 2, 64)] *)
Definition FormatFloat2 (x : Q) : string :=
  let n := half_even (Qabs.Qabs x * inject_Z 100) in
  (if flt x 0 then "-" else "") +:+ Itoa (n / 100) +:+ "." +:+ pad 2 (n mod 100).

(** The civil date of a day counted from 1 January of year 1 (day 0). *)
Definition civil (day : Z) : Z * Z * Z :=
  let z := day + 306 in
  let era := z / 146097 in
  let doe := z mod 146097 in
  let yoe := (doe - doe / 1460 + doe / 36524 - doe / 146096) / 365 in
  let doy := doe - (365 * yoe + yoe / 4 - yoe / 100) in
  let mp := (5 * doy + 2) / 153 in
  let d := doy - (153 * mp + 2) / 5 + 1 in
  let m := if mp <? 10 then mp + 3 else mp - 9 in
  (yoe + era * 400 + (if m <=? 2 then 1 else 0), m, d).

(** [t.UTC().Format("2006-01-02")] and [t.UTC().Format(time.RFC3339)] *)
Definition FormatDate (t : Z) : string :=
  let '(y, m, d) := civil (t / (24 * Hour)) in pad 4 y +:+ "-" +:+ pad 2 m +:+ "-" +:+ pad 2 d.

Definition FormatRFC3339 (t : Z) : string :=
  let s := (t / Second) mod 86400 in
  FormatDate t +:+ "T" +:+ pad 2 (s / 3600) +:+ ":" +:+ pad 2 (s / 60 mod 60) +:+ ":" +:+ pad 2 (s mod 60) +:+ "Z".

(** * Cells *)

(** Bytes that make a spreadsheet read a cell as a formula. *)
Definition formula_byte (b : nat) : bool := bool_decide (b ∈ [61; 43; 45; 64; 9; 13]%nat).

Definition safeSpreadsheetText (value : string) : string :=
  match bytes_of value with
  | [] => value
  | first :: _ => if formula_byte first then "'" +:+ value else value
  end.

Definition attendanceSessionValue (student : StudentAttendance) (index : nat) : string :=
  match sa_PerSession student !! index with
  | None => "Error"
  | Some cell =>
      if bool_decide (sl_Status cell = "error") then "Error"
      else if bool_decide (sl_SessionStatus cell = SessionStatusActive) || bool_decide (sl_SessionStatus cell = SessionStatusNotStarted)
      then "N/A"
      else if sl_CheckedIn cell then "1" else "0"
  end.

Definition attendanceSessionHeaders (sessionCount : nat) : list string :=
  map (λ index, "Session " +:+ Itoa (Z.of_nat index + 1)) (seq 0 sessionCount).

Definition session_values (student : StudentAttendance) (sessionCount : nat) : list string :=
  map (attendanceSessionValue student) (seq 0 sessionCount).

Definition csvAttendanceHeaders (sessionCount : nat) : list string :=
  ["course_id"; "course_name"; "exported_at"; "source_validated_at"; "student_id"; "student_name"; "nickname"; "school";
   "attended_sessions"; "total_sessions"; "attendance_rate"; "at_risk"] ++ attendanceSessionHeaders sessionCount.

Definition student_texts (student : StudentAttendance) : list string :=
  [safeSpreadsheetText (sa_StudentID student); safeSpreadsheetText (sa_Name student);
   safeSpreadsheetText (sa_Nickname student); safeSpreadsheetText (sa_School student)].

Definition csvStudentAttendanceValues (student : StudentAttendance) (sessionCount : nat) : list string :=
  student_texts student ++
  [Itoa (sa_AttendedSessions student); Itoa (sa_TotalSessions student);
   FormatFloat2 (fmul (sa_AttendanceRate student) (f_of_int 100)) +:+ "%"; FormatBool (sa_AtRisk student)] ++
  session_values student sessionCount.

Definition csvAttendanceRow (export : AttendanceExportResult) (student : StudentAttendance) : list string :=
  [safeSpreadsheetText (cr_CourseID (ae_Report export)); safeSpreadsheetText (cr_CourseName (ae_Report export));
   FormatRFC3339 (ae_ExportedAt export); FormatRFC3339 (ae_SourceValidatedAt export)] ++
  csvStudentAttendanceValues student (length (cr_Sessions (ae_Report export))).

(** * The CSV *)

(** [csv.Writer.fieldNeedsQuotes] and [csv.Writer.Write], with a comma and no CRLF. *)
Definition needs_quotes (field : list nat) : bool :=
  match field with
  | [] => false
  | _ =>
      bool_decide (field = [92; 46]%nat) || existsb (λ c, bool_decide (c ∈ [10; 13; 34; 44]%nat)) field
      || bool_decide (is_Some (strip_first white_space field))
  end.

Definition quote (field : list nat) : list nat :=
  34%nat :: concat (map (λ c, if (c =? 34)%nat then [34; 34]%nat else [c]) field) ++ [34%nat].

Definition csv_field (field : string) : list nat :=
  let b := bytes_of field in if needs_quotes b then quote b else b.

Fixpoint csv_fields (fields : list string) : list nat :=
  match fields with
  | [] => []
  | [f] => csv_field f
  | f :: fields' => csv_field f ++ 44%nat :: csv_fields fields'
  end.

Definition csv_Write (record : list string) : list nat := csv_fields record ++ [10%nat].

Definition bom : list nat := [239; 187; 191]%nat.

Definition buildAttendanceCSV (export : AttendanceExportResult) : list nat :=
  bom ++ csv_Write (csvAttendanceHeaders (length (cr_Sessions (ae_Report export)))) ++
  concat (map (λ student, csv_Write (csvAttendanceRow export student)) (cr_Students (ae_Report export))).

(** * The workbook *)

Inductive CellValue :=
| CellStr (s : string)
| CellInt (n : Z)
| CellFloat (x : Q)
| CellBool (b : bool).

(** The calls on the workbook. *)
Inductive WorkbookCall :=
| SetSheetName (old new : string)
| NewSheet (name : string)
| SetCell (sheet cell : string) (v : CellValue)
| AutoFilter (sheet range : string)
| SetPanes (sheet topLeft : string)
| SetPercentStyle (sheet from to : string).

Definition xlsxAttendanceHeaders (sessionCount : nat) : list string :=
  ["Student ID"; "Student Name"; "Nickname"; "School"; "Attended Sessions"; "Total Sessions"; "Attendance Rate"; "At Risk"] ++
  attendanceSessionHeaders sessionCount.

Definition xlsxAttendanceTextValues (student : StudentAttendance) (sessionCount : nat) : list string :=
  student_texts student ++ [""; ""; ""; ""] ++ session_values student sessionCount.

Section rendering.
(** [excelize.CoordinatesToCellName] and [excelize.ColumnNumberToName], which fail out of their
    range; the bytes the library writes after a list of calls, or the error of one of them;
    and [strings.ToLower]. *)
Context (CoordinatesToCellName : Z → Z → option string) (ColumnNumberToName : Z → option string).
Context (WriteToBuffer : list WorkbookCall → option (list nat)).
Context (ToLower : string → string).

(** The texts of a row, from the first column on. *)
Definition text_row (row : Z) (values : list string) : option (list WorkbookCall) :=
  mapM (λ '(column, value), cell ← CoordinatesToCellName (Z.of_nat column + 1) row; Some (SetCell "Attendance" cell (CellStr value)))
    (zip (seq 0 (length values)) values).

Definition student_calls (sessionCount : nat) (rowIndex : nat) (student : StudentAttendance) : option (list WorkbookCall) :=
  texts ← text_row (Z.of_nat rowIndex + 2) (xlsxAttendanceTextValues student sessionCount);
  let row := Itoa (Z.of_nat rowIndex + 2) in
  Some (texts ++
    [SetCell "Attendance" ("E" +:+ row) (CellInt (sa_AttendedSessions student));
     SetCell "Attendance" ("F" +:+ row) (CellInt (sa_TotalSessions student));
     SetCell "Attendance" ("G" +:+ row) (CellFloat (sa_AttendanceRate student));
     SetCell "Attendance" ("H" +:+ row) (CellBool (sa_AtRisk student))]).

Definition metadata_items (export : AttendanceExportResult) : list (string * string) :=
  let report := ae_Report export in
  [("Course ID", safeSpreadsheetText (cr_CourseID report)); ("Course Name", safeSpreadsheetText (cr_CourseName report));
   ("Exported At", FormatRFC3339 (ae_ExportedAt export)); ("Source Validated At", FormatRFC3339 (ae_SourceValidatedAt export));
   ("Threshold", Itoa (cr_Threshold report)); ("Session Count", Itoa (Z.of_nat (length (cr_Sessions report))));
   ("Source Type", safeSpreadsheetText (ae_Source export))].

Definition metadata_calls (index : nat) (item : string * string) : list WorkbookCall :=
  let row := Itoa (Z.of_nat index + 1) in
  [SetCell "Metadata" ("A" +:+ row) (CellStr item.1); SetCell "Metadata" ("B" +:+ row) (CellStr item.2)].

Definition xlsx_calls (export : AttendanceExportResult) : option (list WorkbookCall) :=
  let report := ae_Report export in
  let n := length (cr_Sessions report) in
  let headers := xlsxAttendanceHeaders n in
  head ← text_row 1 headers;
  rows ← mapM (λ '(i, student), student_calls n i student) (zip (seq 0 (length (cr_Students report))) (cr_Students report));
  lastColumn ← ColumnNumberToName (Z.of_nat (length headers));
  let lastRow := Itoa (Z.max 2 (Z.of_nat (length (cr_Students report)) + 1)) in
  Some ([SetSheetName "Sheet1" "Attendance"; NewSheet "Metadata"] ++ head ++ concat rows ++
        [AutoFilter "Attendance" ("A1:" +:+ lastColumn +:+ lastRow); SetPanes "Attendance" "A2";
         SetPercentStyle "Attendance" "G2" ("G" +:+ lastRow)] ++
        concat (zip_with metadata_calls (seq 0 7) (metadata_items export))).

Definition buildAttendanceXLSX (export : AttendanceExportResult) : option (list nat) :=
  calls ← xlsx_calls export; WriteToBuffer calls.

(** * The name of the file *)

Definition slug_char (rune : list nat) : option nat :=
  match rune with
  | [b] => if is_upper b || is_lower b || is_digit b then Some b else None
  | _ => None
  end.

(** The loop over the runes of the name: the text so far and whether it ends in a hyphen the
    loop wrote. *)
Fixpoint slug_loop (rs : list (list nat)) (safe : list nat) (lastHyphen : bool) : list nat :=
  match rs with
  | [] => safe
  | r :: rs' =>
      let '(safe, lastHyphen) :=
        match slug_char r with
        | Some b => (safe ++ [b], false)
        | None => if negb lastHyphen && (0 <? length safe)%nat then (safe ++ [45%nat], true) else (safe, lastHyphen)
        end in
      if (48 <=? length safe)%nat then safe else slug_loop rs' safe lastHyphen
  end.

Definition is_hyphen (b : nat) : bool := (b =? 45)%nat.

(** [strings.Trim(s, "-")] *)
Definition trim_hyphens (l : list nat) : list nat := rev (drop_while is_hyphen (rev (drop_while is_hyphen l))).

Definition slug (courseName : string) : list nat :=
  trim_hyphens (slug_loop (runes_of (bytes_of (ToLower courseName))) [] false).

Definition attendanceExportFilename (courseName : string) (exportedAt : Z) (format : string) : string :=
  let s := slug courseName in
  "attendance-" +:+ (if bool_decide (s = []) then "course" else string_of_bytes s) +:+ "-" +:+ FormatDate exportedAt +:+ "." +:+ format.

(** * The handler *)

(** What [errors.Is] finds in an error, and its text. *)
Record ExportFailure := {
  xf_Canceled : bool;
  xf_DeadlineExceeded : bool;
  xf_CourseNotFound : bool;
  xf_TooLarge : bool;
  xf_LiveFailure : bool;
  xf_Freshness : bool;
  xf_Text : string
}.

(** [None] is no error. *)
Definition exportFailureReason (err : option ExportFailure) : string :=
  match err with
  | None => "report_error"
  | Some e =>
      if xf_Canceled e then "cancelled"
      else if xf_DeadlineExceeded e then "timeout"
      else if xf_CourseNotFound e then "course_not_found"
      else if xf_TooLarge e then "too_large"
      else if xf_Freshness e then
        if Contains "incomplete" (bytes_of (xf_Text e)) then "incomplete"
        else if Contains "overdue" (bytes_of (xf_Text e)) || Contains "not verified fresh" (bytes_of (xf_Text e)) then "stale"
        else "refresh_failed"
      else "report_error"
  end.

(** The body of the request, as [json.Decoder.Decode] of at most 64 KiB leaves it. *)
Definition maxAttendanceExportBodyBytes : Z := Z.shiftl 64 10.

Inductive ExportBody :=
| BodyTooLarge
| BodyInvalid
| BodyRequest (format : string) (threshold : Z).

Record ExportFile := {
  fl_ContentType : string;
  fl_Filename : string;
  fl_Length : Z;
  fl_Source : string;
  fl_ExportedAt : string;
  fl_ValidatedAt : string;
  fl_Payload : list nat
}.

(** What is written: an error with its status, the file, or nothing. *)
Inductive ExportReply :=
| ReplyError (code : Z) (message : string)
| ReplyFile (f : ExportFile)
| ReplyNothing.

(** A reply with the labels of the request counter and the failure reasons counted. *)
Record ExportOutcome := {
  eo_Reply : ExportReply;
  eo_Format : string;
  eo_Status : string;
  eo_Failures : list string
}.

Definition not_validated : string := "Latest attendance data could not be validated. Please try again.".

Definition export_error_reply (e : ExportFailure) : ExportReply :=
  if xf_DeadlineExceeded e then ReplyError 504 "attendance export timed out"
  else if xf_CourseNotFound e then ReplyError 404 "course not found"
  else if xf_TooLarge e then ReplyError 413 "attendance report too large"
  else if xf_Canceled e then ReplyNothing
  else if xf_LiveFailure e then ReplyError 503 "attendance data is temporarily unavailable; please try again"
  else ReplyError 503 not_validated.

(** What the service and the context answer: the export (nil, or with its report), and the
    error of the context after the file was made. *)
Record ExportHandlerEnv := {
  xh_Export : result ExportFailure (option AttendanceExportResult);
  xh_CtxErr : option ExportFailure
}.

Definition attendanceExportHandler (courseID : string) (body : ExportBody) (env : ExportHandlerEnv) : ExportOutcome :=
  let failed format reply failures :=
    {| eo_Reply := reply; eo_Format := format; eo_Status := "failure"; eo_Failures := failures |} in
  if bool_decide (courseID = "") then failed "unknown" (ReplyError 400 "courseId is required") []
  else
    match body with
    | BodyTooLarge => failed "unknown" (ReplyError 413 "export request too large") ["too_large"]
    | BodyInvalid => failed "unknown" (ReplyError 400 "invalid request body") []
    | BodyRequest format threshold =>
        if bool_decide (format ≠ "csv") && bool_decide (format ≠ "xlsx") then failed format (ReplyError 400 "format must be csv or xlsx") []
        else if threshold <? 0 then failed format (ReplyError 400 "threshold must be non-negative") []
        else
          match xh_Export env with
          | Err e => failed format (export_error_reply e) [exportFailureReason (Some e)]
          | Ok None => failed format (ReplyError 503 not_validated) ["report_error"]
          | Ok (Some export) =>
              let '(payload, contentType) :=
                if bool_decide (format = "csv") then (Some (buildAttendanceCSV export), "text/csv; charset=utf-8")
                else (buildAttendanceXLSX export, "application/vnd.openxmlformats-officedocument.spreadsheetml.sheet") in
              match payload, xh_CtxErr env with
              | None, _ => failed format (ReplyError 500 "attendance export generation failed") ["generation_failed"]
              | Some _, Some e =>
                  failed format (if xf_DeadlineExceeded e then ReplyError 504 "attendance export timed out" else ReplyNothing)
                    [exportFailureReason (Some e)]
              | Some payload, None =>
                  {| eo_Reply := ReplyFile
                       {| fl_ContentType := contentType;
                          fl_Filename := attendanceExportFilename (cr_CourseName (ae_Report export)) (ae_ExportedAt export) format;
                          fl_Length := Z.of_nat (length payload); fl_Source := ae_Source export;
                          fl_ExportedAt := FormatRFC3339 (ae_ExportedAt export);
                          fl_ValidatedAt := FormatRFC3339 (ae_SourceValidatedAt export); fl_Payload := payload |};
                     eo_Format := format; eo_Status := "success"; eo_Failures := [] |}
              end
          end
    end.
End rendering.
