(* ===== verification/SpreadsheetSpec.v ===== *)
(** Theorems about the export as a file: what a reader of the CSV finds, that no cell of it is
    taken for a formula, what the file is called, and what the handler answers. *)

From stdpp Require Import base list numbers sets strings pretty.
From Stdlib Require Import ZArith QArith Qround Lia.
From S2P Require Import Prelude Float64 Sanitize Domain Upstream Report Export Spreadsheet.

Local Open Scope Z_scope.
Local Open Scope stdpp_scope.
Local Open Scope go_scope.

(** * A reader of CSV, as RFC 4180 describes it *)

Inductive CsvState := FieldStart | Plain | Quoted | QuoteSeen.

(** The records of a text in which each record ends with a line feed. *)
Fixpoint csv_read (st : CsvState) (field : list nat) (row : list (list nat)) (l : list nat) : option (list (list (list nat))) :=
  match l with
  | [] => match st, row with FieldStart, [] => Some [] | _, _ => None end
  | b :: l' =>
      let sep :=
        if (b =? 44)%nat then csv_read FieldStart [] (row ++ [field]) l'
        else if (b =? 10)%nat then cons (row ++ [field]) <$> csv_read FieldStart [] [] l'
        else None in
      match st with
      | FieldStart =>
          if (b =? 34)%nat then csv_read Quoted [] row l'
          else if (b =? 44)%nat || (b =? 10)%nat then sep else csv_read Plain [b] row l'
      | Plain =>
          if (b =? 34)%nat then None
          else if (b =? 44)%nat || (b =? 10)%nat then sep else csv_read Plain (field ++ [b]) row l'
      | Quoted => if (b =? 34)%nat then csv_read QuoteSeen field row l' else csv_read Quoted (field ++ [b]) row l'
      | QuoteSeen => if (b =? 34)%nat then csv_read Quoted (field ++ [34%nat]) row l' else sep
      end
  end.

(** The file starts with a byte order mark. *)
Definition read_export (file : list nat) : option (list (list (list nat))) :=
  l ← strip_prefix bom file; csv_read FieldStart [] [] l.

(** ** Reading back what was written *)

(** What follows the end of a field. *)
Definition after_field (b : nat) (field : list nat) (row : list (list nat)) (l : list nat) : option (list (list (list nat))) :=
  if (b =? 44)%nat then csv_read FieldStart [] (row ++ [field]) l else cons (row ++ [field]) <$> csv_read FieldStart [] [] l.

Lemma read_quoted c : ∀ field row l,
  csv_read Quoted field row (concat (map (λ c, if (c =? 34)%nat then [34; 34]%nat else [c]) c) ++ 34%nat :: l) =
    csv_read QuoteSeen (field ++ c) row l.
Proof.
  induction c as [|b c IH]; intros field row l; cbn [map concat app].
  { cbn. by rewrite app_nil_r. }
  destruct (Nat.eqb_spec b 34) as [->|Hb].
  - cbn [app csv_read]. rewrite Nat.eqb_refl. rewrite IH. by rewrite <- app_assoc.
  - cbn [app csv_read]. rewrite (proj2 (Nat.eqb_neq b 34) Hb). rewrite IH. by rewrite <- app_assoc.
Qed.

Lemma read_plain c : ∀ field row l b, (b = 44 ∨ b = 10)%nat → Forall (λ x, x ∉ [10; 13; 34; 44]%nat) c →
  csv_read Plain field row (c ++ b :: l) = after_field b (field ++ c) row l.
Proof.
  induction c as [|x c IH]; intros field row l b Hb Hc; cbn [app csv_read].
  - rewrite app_nil_r. unfold after_field. by destruct Hb as [-> | ->].
  - apply Forall_cons in Hc as [Hx Hc]. rewrite !(proj2 (Nat.eqb_neq x _)) by set_solver. cbn [orb].
    rewrite IH by done. by rewrite <- app_assoc.
Qed.

Lemma needs_quotes_false c : needs_quotes c = false → Forall (λ x, x ∉ [10; 13; 34; 44]%nat) c.
Proof.
  destruct c as [|b c]; [constructor|]. intros H. apply Forall_forall. intros x Hx Hin.
  unfold needs_quotes in H. bool_to_prop.
  assert (E : existsb (λ c, bool_decide (c ∈ [10; 13; 34; 44]%nat)) (b :: c) = true).
  { apply existsb_exists. exists x. split; [by apply list_elem_of_In|by apply bool_decide_eq_true]. }
  congruence.
Qed.

Lemma read_field f row l b : (b = 44 ∨ b = 10)%nat →
  csv_read FieldStart [] row (csv_field f ++ b :: l) = after_field b (bytes_of f) row l.
Proof.
  intros Hb. unfold csv_field. cbv zeta. destruct (needs_quotes (bytes_of f)) eqn:Eq.
  - unfold quote. cbn [app csv_read]. rewrite Nat.eqb_refl, <- app_assoc. cbn [app].
    rewrite read_quoted. cbn [app csv_read]. unfold after_field. by destruct Hb as [-> | ->].
  - pose proof (needs_quotes_false _ Eq) as Hc. destruct (bytes_of f) as [|x c]; cbn [app csv_read].
    + unfold after_field. by destruct Hb as [-> | ->].
    + apply Forall_cons in Hc as [Hx Hc]. rewrite !(proj2 (Nat.eqb_neq x _)) by set_solver. cbn [orb].
      by rewrite read_plain by done.
Qed.

Lemma read_record record : ∀ row l, record ≠ [] →
  csv_read FieldStart [] row (csv_Write record ++ l) = cons (row ++ map bytes_of record) <$> csv_read FieldStart [] [] l.
Proof.
  unfold csv_Write. induction record as [|f record IH]; intros row l Hne; [done|].
  rewrite <- app_assoc. cbn [app]. destruct record as [|g record].
  - cbn [csv_fields map]. rewrite read_field by (by right). done.
  - change (csv_fields (f :: g :: record)) with (csv_field f ++ 44%nat :: csv_fields (g :: record)).
    rewrite <- app_assoc. cbn [app]. rewrite read_field by (by left). unfold after_field. rewrite Nat.eqb_refl.
    specialize (IH (row ++ [bytes_of f]) l ltac:(done)). rewrite <- app_assoc in IH. cbn [app] in IH. rewrite IH.
    rewrite <- app_assoc. done.
Qed.

Lemma read_records rows : Forall (λ r, r ≠ []) rows →
  csv_read FieldStart [] [] (concat (map csv_Write rows)) = Some (map (map bytes_of) rows).
Proof.
  induction 1 as [|r rows Hr _ IH]; [done|]. cbn [map concat]. rewrite read_record by done. by rewrite IH.
Qed.

(** * What no cell starts with *)

(** The first byte, if there is one. *)
Definition starts (P : nat → Prop) (s : string) : Prop := ∀ b, head (bytes_of s) = Some b → P b.
Definition harmless (s : string) : Prop := starts (λ b, formula_byte b = false) s.

Lemma starts_app P s t : s ≠ "" → starts P s → starts P (s +:+ t).
Proof. destruct s as [|c s]; [done|]. intros _ H b Hb. apply H. done. Qed.

Definition digits (s : string) : Prop := s ≠ "" ∧ Forall (λ b, is_digit b = true) (bytes_of s).

Lemma pretty_char_digit n : (n < 10)%N → is_digit (Ascii.nat_of_ascii (pretty_N_char n)) = true.
Proof.
  intros H. assert (Hn : (n = 0 ∨ n = 1 ∨ n = 2 ∨ n = 3 ∨ n = 4 ∨ n = 5 ∨ n = 6 ∨ n = 7 ∨ n = 8 ∨ n = 9)%N) by lia.
  by repeat destruct Hn as [-> | Hn]; try subst.
Qed.

Lemma pretty_go_digits (x : N) : ∀ s, Forall (λ b, is_digit b = true) (bytes_of s) →
  Forall (λ b, is_digit b = true) (bytes_of (pretty_N_go x s)) ∧ (0 < x → pretty_N_go x s ≠ "")%N.
Proof.
  induction (N.lt_wf_0 x) as [x _ IH]. intros s Hs. destruct (decide (0 < x)%N) as [Hx|Hx].
  - rewrite pretty_N_go_step by done.
    assert (Hs' : Forall (λ b, is_digit b = true) (bytes_of (String (pretty_N_char (x `mod` 10)) s))).
    { cbn [bytes_of]. constructor; [|done]. apply pretty_char_digit. by apply N.mod_lt. }
    destruct (IH (x `div` 10)%N ltac:(by apply N.div_lt) _ Hs') as [H1 H2]. split; [done|]. intros _.
    destruct (N.eq_0_gt_0_cases (x `div` 10)%N) as [->|H]; [by rewrite pretty_N_go_0|by apply H2].
  - assert (x = 0)%N as -> by lia. rewrite pretty_N_go_0. split; [done|by intros ?%N.lt_irrefl].
Qed.

Lemma Itoa_digits n : 0 ≤ n → digits (Itoa n).
Proof.
  intros Hn. unfold Itoa. destruct n as [|p|p]; [|change (digits (pretty (N.pos p)))|lia].
  - split; [done|]. by repeat constructor.
  - unfold pretty, pretty_N. rewrite decide_False by done.
    destruct (pretty_go_digits (N.pos p) "" (Forall_nil_2 _)) as [H1 H2]. split; [by apply H2|done].
Qed.

Lemma repeat_zero_digits n : Forall (λ b, is_digit b = true) (bytes_of (string_of_bytes (repeat 48%nat n))).
Proof. induction n; cbn; constructor; done. Qed.

Lemma pad_digits k n : 0 ≤ n → digits (pad k n).
Proof.
  intros Hn. unfold pad. cbv zeta. destruct (Z.ltb_spec n 0); [lia|]. rewrite Z.abs_eq by done.
  destruct (Itoa_digits n Hn) as [H1 H2]. fold (Itoa n). split.
  - cbn. destruct (string_of_bytes _); [cbn; done|done].
  - change ("" +:+ ?x) with x. rewrite bytes_of_app. apply Forall_app. split; [apply repeat_zero_digits|done].
Qed.

Lemma digits_starts s : digits s → starts (λ b, is_digit b = true) s.
Proof. intros [_ H] b. destruct (bytes_of s) as [|x l]; [done|]. intros [= ->]. by apply Forall_cons in H as [? _]. Qed.

Lemma digit_harmless b : is_digit b = true → formula_byte b = false.
Proof.
  unfold is_digit, between, formula_byte. intros [H1%Nat.leb_le H2%Nat.leb_le]%andb_true_iff. apply bool_decide_eq_false.
  repeat first [rewrite elem_of_cons|rewrite elem_of_nil]. lia.
Qed.

Lemma digits_harmless s t : digits s → harmless (s +:+ t).
Proof.
  intros H. apply starts_app; [by destruct H|]. intros b Hb. apply digit_harmless. by apply (digits_starts s H).
Qed.

Lemma civil_year t : 0 ≤ t → 0 ≤ (civil (t / (24 * Hour))).1.1.
Proof.
  intros Ht. unfold civil. cbv zeta. cbn [fst]. set (day := t / (24 * Hour)).
  assert (0 ≤ day) by (apply Z.div_pos; [done|reflexivity]).
  set (doe := (day + 306) mod 146097).
  assert (0 ≤ doe < 146097) by (apply Z.mod_pos_bound; lia).
  assert (0 ≤ (day + 306) / 146097) by (apply Z.div_pos; lia).
  assert (0 ≤ (doe - doe / 1460 + doe / 36524 - doe / 146096) / 365) by (apply Z.div_pos; [|lia]; Z.to_euclidean_division_equations; lia).
  case_match; lia.
Qed.

Lemma FormatDate_harmless t s : 0 ≤ t → harmless (FormatDate t +:+ s).
Proof.
  intros Ht. unfold FormatDate. pose proof (civil_year t Ht) as Hy. destruct (civil _) as [[y m] d]. cbn [fst] in Hy.
  pose proof (pad_digits 4 y Hy) as Hd. apply starts_app; [|by apply digits_harmless].
  destruct Hd as [Hd _]. by destruct (pad 4 y).
Qed.

Lemma FormatRFC3339_harmless t : 0 ≤ t → harmless (FormatRFC3339 t).
Proof. apply FormatDate_harmless. Qed.

Lemma FormatFloat2_harmless x s : (0 <= x)%Q → harmless (FormatFloat2 x +:+ s).
Proof.
  intros Hx. unfold FormatFloat2. cbv zeta.
  assert (Hf : flt x 0 = false) by (unfold flt; by rewrite (proj2 (Qle_bool_iff 0 x) Hx)). rewrite Hf.
  assert (Hn : 0 ≤ half_even (Qabs.Qabs x * inject_Z 100) / 100).
  { apply Z.div_pos; [|lia]. rewrite <- (half_even_int 0). apply half_even_mono. apply Qmult_le_0_compat; [apply Qabs.Qabs_nonneg|discriminate]. }
  change ("" +:+ ?y) with y. pose proof (Itoa_digits _ Hn) as Hd. apply starts_app; [|by apply digits_harmless].
  destruct Hd as [Hd _]. by destruct (Itoa _).
Qed.

Lemma safe_harmless v : harmless (safeSpreadsheetText v).
Proof.
  unfold safeSpreadsheetText. intros b. destruct (bytes_of v) as [|x l] eqn:E; [by rewrite E|].
  destruct (formula_byte x) eqn:Ex; [by intros [= <-]|]. rewrite E. by intros [= <-].
Qed.

Lemma session_value_cases student j :
  attendanceSessionValue student j ∈ ["Error"; "N/A"; "1"; "0"].
Proof. unfold attendanceSessionValue. destruct (_ !! _) as [c|]; [|set_solver]. repeat case_match; set_solver. Qed.

(** Numbers a report can hold. *)
Definition printable (export : AttendanceExportResult) : Prop :=
  0 ≤ ae_ExportedAt export ∧ 0 ≤ ae_SourceValidatedAt export ∧
  Forall (λ s, 0 ≤ sa_AttendedSessions s ∧ 0 ≤ sa_TotalSessions s ∧ (0 <= fmul (sa_AttendanceRate s) (f_of_int 100))%Q)
    (cr_Students (ae_Report export)).

Lemma row_harmless export student :
  0 ≤ ae_ExportedAt export → 0 ≤ ae_SourceValidatedAt export → 0 ≤ sa_AttendedSessions student →
  0 ≤ sa_TotalSessions student → (0 <= fmul (sa_AttendanceRate student) (f_of_int 100))%Q →
  Forall harmless (csvAttendanceRow export student).
Proof.
  intros H1 H2 H3 H4 H5. unfold csvAttendanceRow, csvStudentAttendanceValues, student_texts. cbn [app].
  repeat (apply Forall_cons; split; [first [apply safe_harmless|by apply FormatRFC3339_harmless|by apply FormatFloat2_harmless|
    by intros b Hb; apply digit_harmless; apply (digits_starts _ (Itoa_digits _ H3))|
    by intros b Hb; apply digit_harmless; apply (digits_starts _ (Itoa_digits _ H4))|
    by destruct (sa_AtRisk student); intros b [= <-]]|]).
  unfold session_values. apply Forall_forall. intros v Hv.
  change (map ?f ?l) with (f <$> l) in Hv. apply list_elem_of_fmap in Hv as (j & -> & _).
  pose proof (session_value_cases student j) as Hc. repeat rewrite elem_of_cons in Hc. rewrite elem_of_nil in Hc.
  destruct Hc as [->|[->|[->|[->|[]]]]]; by intros b [= <-].
Qed.

(** The cell of a session a student is shown to have attended. *)
Lemma session_value_one student j :
  attendanceSessionValue student j = "1" ↔
  ∃ cell, sa_PerSession student !! j = Some cell ∧ sl_CheckedIn cell = true ∧ sl_Status cell ≠ "error" ∧
    sl_SessionStatus cell ≠ SessionStatusActive ∧ sl_SessionStatus cell ≠ SessionStatusNotStarted.
Proof.
  unfold attendanceSessionValue. split.
  - destruct (_ !! _) as [c|]; [|done]. case_bool_decide; [done|]. do 2 (case_bool_decide; [done|]). cbn [orb].
    destruct (sl_CheckedIn c) eqn:E; [|done]. intros _. by exists c.
  - intros (c & -> & Hc & H1 & H2 & H3). by rewrite !bool_decide_false, Hc by done.
Qed.

(** The CSV of an export.  A reader of RFC 4180 finds in the file exactly the header and
    one record per student, in the report's order, each field as it was rendered, whatever
    bytes names and identifiers hold; every record has one field per session after twelve
    fixed ones, and a session's field is 1 exactly when the report shows the student checked
    in to it and the session has taken place; and no field starts with a byte that makes a
    spreadsheet take it for a formula. *)
Lemma attendance_csv (export : AttendanceExportResult) :
  let report := ae_Report export in
  let n := length (cr_Sessions report) in
  printable export →
  read_export (buildAttendanceCSV export) =
    Some (map bytes_of (csvAttendanceHeaders n) :: map (λ s, map bytes_of (csvAttendanceRow export s)) (cr_Students report)) ∧
  Forall (λ s, length (csvAttendanceRow export s) = (12 + n)%nat ∧ Forall harmless (csvAttendanceRow export s) ∧
    ∀ j, (j < n)%nat →
      csvAttendanceRow export s !! (12 + j)%nat = Some (attendanceSessionValue s j) ∧
      (csvAttendanceRow export s !! (12 + j)%nat = Some "1" ↔
        ∃ cell, sa_PerSession s !! j = Some cell ∧ sl_CheckedIn cell = true ∧ sl_Status cell ≠ "error" ∧
          sl_SessionStatus cell ≠ SessionStatusActive ∧ sl_SessionStatus cell ≠ SessionStatusNotStarted))
    (cr_Students report) ∧
  length (csvAttendanceHeaders n) = (12 + n)%nat ∧ Forall harmless (csvAttendanceHeaders n).
Proof.
  intros report n (Ht1 & Ht2 & Hs). split; [|split; [|split]].
  - unfold read_export, buildAttendanceCSV. fold report n. cbn [strip_prefix bom app Nat.eqb mbind option_bind].
    replace (csv_Write _ ++ concat _)
      with (concat (map csv_Write (csvAttendanceHeaders n :: map (csvAttendanceRow export) (cr_Students report))))
      by (cbn [map concat]; by rewrite map_map).
    rewrite read_records; [by cbn [map]; rewrite map_map|].
    constructor; [done|]. apply Forall_forall. intros r Hr. change (map ?f ?l) with (f <$> l) in Hr.
    by apply list_elem_of_fmap in Hr as (s & -> & _).
  - eapply Forall_impl; [exact Hs|]. intros s (H3 & H4 & H5). cbn beta in *.
    assert (Hl : csvAttendanceRow export s = take 12 (csvAttendanceRow export s) ++ session_values s n) by done.
    split; [rewrite Hl, length_app; unfold session_values; by rewrite length_map, length_seq|].
    split; [by apply row_harmless|]. intros j Hj.
    assert (Hc : csvAttendanceRow export s !! (12 + j)%nat = Some (attendanceSessionValue s j)).
    { assert (H12 : length (take 12 (csvAttendanceRow export s)) = 12%nat) by done.
      rewrite Hl, lookup_app_r by (rewrite H12; lia). rewrite H12. replace (12 + j - 12)%nat with j by lia.
      unfold session_values. change (map ?f ?l) with (f <$> l). by rewrite list_lookup_fmap, lookup_seq_lt. }
    split; [done|]. rewrite Hc, <- session_value_one. split; [by intros [= ->]|by intros ->].
  - unfold csvAttendanceHeaders, attendanceSessionHeaders. by rewrite length_app, length_map, length_seq.
  - unfold csvAttendanceHeaders. apply Forall_app. split; [by repeat (constructor; [by intros b [= <-]|])|].
    unfold attendanceSessionHeaders. apply Forall_forall. intros v Hv. change (map ?f ?l) with (f <$> l) in Hv.
    apply list_elem_of_fmap in Hv as (j & -> & _). by intros b [= <-].
Qed.

(** * The name of the file *)

Definition slug_byte (b : nat) : bool := is_upper b || is_lower b || is_digit b || (b =? 45)%nat.
Definition file_byte (b : nat) : bool := slug_byte b || (b =? 46)%nat.

Lemma slug_loop_spec rs : ∀ safe h,
  (length safe < 48)%nat → Forall (λ b, slug_byte b = true) safe →
  (length (slug_loop rs safe h) ≤ 48)%nat ∧ Forall (λ b, slug_byte b = true) (slug_loop rs safe h).
Proof.
  induction rs as [|r rs IH]; intros safe h Hl Hf; cbn [slug_loop]; [split; [lia|done]|].
  set (p := match slug_char r with Some b => _ | None => _ end).
  assert (Hp : (length p.1 ≤ 48)%nat ∧ Forall (λ b, slug_byte b = true) p.1).
  { assert (Happ : ∀ b, slug_byte b = true → (length (safe ++ [b]) ≤ 48)%nat ∧ Forall (λ b, slug_byte b = true) (safe ++ [b])).
    { intros b Hb. rewrite length_app. split; [cbn; lia|]. apply Forall_app. split; [done|by constructor]. }
    unfold p. destruct (slug_char r) as [b|] eqn:Er.
    - apply Happ. destruct r as [|x [|]]; try done. cbn in Er. destruct (is_upper x || is_lower x || is_digit x) eqn:E; [|done].
      injection Er as <-. unfold slug_byte. by rewrite E.
    - destruct (negb h && _); [by apply Happ|]. split; [cbn; lia|done]. }
  clearbody p. destruct p as [safe' h']. cbn [fst] in Hp. destruct Hp as [H1 H2].
  destruct (Nat.leb_spec 48 (length safe')); [done|by apply IH].
Qed.

Lemma drop_hyphens_head l : ∀ b, head (drop_while is_hyphen l) = Some b → b ≠ 45%nat.
Proof.
  induction l as [|x l IH]; intros b; cbn [drop_while]; [done|]. destruct (is_hyphen x) eqn:E; [apply IH|].
  intros [= <-]. unfold is_hyphen in E. by apply Nat.eqb_neq in E.
Qed.

Lemma trim_hyphens_spec l :
  (∃ k k', l = k ++ trim_hyphens l ++ k') ∧ head (trim_hyphens l) ≠ Some 45%nat ∧ last (trim_hyphens l) ≠ Some 45%nat.
Proof.
  unfold trim_hyphens. set (m := drop_while is_hyphen l).
  assert (Hm : m `suffix_of` l) by apply drop_while_suffix.
  destruct (drop_while_suffix is_hyphen (rev m)) as [k Hk].
  assert (Hp : m = rev (drop_while is_hyphen (rev m)) ++ rev k) by (by rewrite <- rev_app_distr, <- Hk, rev_involutive).
  split_and!.
  - destruct Hm as [k' Hl]. exists k', (rev k). by rewrite <- Hp.
  - intros H. apply (drop_hyphens_head l 45%nat); [|done]. fold m. rewrite Hp.
    destruct (rev (drop_while is_hyphen (rev m))); [done|]. exact H.
  - intros H. apply (drop_hyphens_head (rev m) 45%nat); [|done]. rewrite <- H.
    rewrite <- head_reverse. unfold reverse. by rewrite <- rev_alt, rev_involutive.
Qed.

Section filename.
Context (ToLower : string → string).

Lemma slug_spec courseName :
  Forall (λ b, slug_byte b = true) (slug ToLower courseName) ∧ (length (slug ToLower courseName) ≤ 48)%nat ∧
  head (slug ToLower courseName) ≠ Some 45%nat ∧ last (slug ToLower courseName) ≠ Some 45%nat.
Proof.
  unfold slug. set (l := slug_loop _ _ _).
  destruct (slug_loop_spec (runes_of (bytes_of (ToLower courseName))) [] false) as [H1 H2]; [cbn; lia|done|]. fold l in H1, H2.
  destruct (trim_hyphens_spec l) as ((k1 & k2 & E) & Hh & Ht). rewrite E in H1, H2.
  apply Forall_app in H2 as [_ [H2 _]%Forall_app]. rewrite !length_app in H1. split_and!; [done|lia|done|done].
Qed.

Lemma slug_byte_file b : slug_byte b = true → file_byte b = true ∧ is_byte b.
Proof.
  intros H. unfold file_byte. rewrite H. split; [done|]. unfold slug_byte, is_upper, is_lower, is_digit, between in H.
  unfold is_byte. repeat first [apply orb_true_iff in H as [H|H]|apply andb_true_iff in H as [? H]];
    try apply Nat.leb_le in H; try apply Nat.eqb_eq in H; lia.
Qed.

Lemma digits_file s : digits s → Forall (λ b, file_byte b = true) (bytes_of s).
Proof.
  intros [_ H]. eapply Forall_impl; [exact H|]. intros b Hb. cbn in Hb. apply slug_byte_file. unfold slug_byte. rewrite Hb.
  by rewrite !orb_true_r.
Qed.

Lemma pad_file k n : Forall (λ b, file_byte b = true) (bytes_of (pad k n)).
Proof.
  destruct (Z.leb_spec 0 n); [by apply digits_file, pad_digits|].
  unfold pad. cbv zeta. destruct (Z.ltb_spec n 0); [|lia]. rewrite bytes_of_app. apply Forall_app. split; [by repeat constructor|].
  assert (E : pad k (Z.abs n) = string_of_bytes (repeat 48%nat (k - String.length (pretty (Z.abs n)))) +:+ pretty (Z.abs n)).
  { unfold pad. cbv zeta. destruct (Z.ltb_spec (Z.abs n) 0); [lia|]. by rewrite Z.abs_involutive. }
  rewrite <- E. apply digits_file, pad_digits. lia.
Qed.

(** Whatever the course is called, the name of the file is made of letters, digits, hyphens and
    dots: it holds no quote, separator or line end, and its part for the course is at most 48
    bytes that neither start nor end with a hyphen. *)
Lemma filename_safe courseName exportedAt format :
  format = "csv" ∨ format = "xlsx" →
  Forall (λ b, file_byte b = true) (bytes_of (attendanceExportFilename ToLower courseName exportedAt format)) ∧
  (length (slug ToLower courseName) ≤ 48)%nat ∧
  head (slug ToLower courseName) ≠ Some 45%nat ∧ last (slug ToLower courseName) ≠ Some 45%nat.
Proof.
  intros Hf. destruct (slug_spec courseName) as (H1 & H2). split; [|done].
  unfold attendanceExportFilename, FormatDate. destruct (civil _) as [[y m] d].
  repeat (rewrite bytes_of_app; apply Forall_app; split); try apply pad_file; try (by repeat constructor).
  - case_bool_decide; [by repeat constructor|]. rewrite bytes_string_roundtrip.
    + eapply Forall_impl; [exact H1|]. intros b Hb. by apply slug_byte_file.
    + eapply Forall_impl; [exact H1|]. intros b Hb. by apply slug_byte_file.
  - by destruct Hf as [-> | ->]; repeat constructor.
Qed.
End filename.

(** * The handler *)

Section handler.
Context (CoordinatesToCellName : Z → Z → option string) (ColumnNumberToName : Z → option string).
Context (WriteToBuffer : list WorkbookCall → option (list nat)) (ToLower : string → string).

(** A file is sent exactly when a request is counted as a success: for a known format and a
    threshold that is not negative, when the service returned a report, the file could be made
    and the context had not ended; its length is that of its payload.  Every other request is
    counted as a failure and gets an error status, or nothing when its client is gone. *)
Definition answered (body : ExportBody) (env : ExportHandlerEnv) (o : ExportOutcome) : Prop :=
  match eo_Reply o with
  | ReplyFile f =>
      eo_Status o = "success" ∧ eo_Failures o = [] ∧
      ∃ format threshold export,
        body = BodyRequest format threshold ∧ format ∈ ["csv"; "xlsx"] ∧ 0 ≤ threshold ∧ eo_Format o = format ∧
        xh_Export env = Ok (Some export) ∧ xh_CtxErr env = None ∧ fl_Length f = Z.of_nat (length (fl_Payload f)) ∧
        fl_Filename f = attendanceExportFilename ToLower (cr_CourseName (ae_Report export)) (ae_ExportedAt export) format ∧
        (format = "csv" → fl_Payload f = buildAttendanceCSV export) ∧
        (format = "xlsx" → buildAttendanceXLSX CoordinatesToCellName ColumnNumberToName WriteToBuffer export = Some (fl_Payload f))
  | ReplyError code _ =>
      eo_Status o = "failure" ∧ code ∈ [400; 404; 413; 500; 503; 504]
  | ReplyNothing =>
      eo_Status o = "failure" ∧
      ∃ e, (xh_Export env = Err e ∧ xf_Canceled e = true) ∨ (xh_CtxErr env = Some e ∧ xf_DeadlineExceeded e = false)
  end.

Lemma export_error_answered body env format failures e :
  xh_Export env = Err e →
  answered body env {| eo_Reply := export_error_reply e; eo_Format := format; eo_Status := "failure"; eo_Failures := failures |}.
Proof.
  intros He. unfold answered, export_error_reply. cbn [eo_Reply eo_Status].
  repeat case_match; simplify_eq; split; first [done|set_solver|exists e; by left].
Qed.

Local Ltac refused := split; [done|set_solver].

Lemma handler_answers courseID body env :
  answered body env (attendanceExportHandler CoordinatesToCellName ColumnNumberToName WriteToBuffer ToLower courseID body env).
Proof.
  unfold attendanceExportHandler. cbv zeta.
  case_bool_decide; [refused|]. destruct body as [| |format threshold]; [refused..|].
  destruct (bool_decide (format ≠ "csv") && bool_decide (format ≠ "xlsx")) eqn:Ef; [refused|].
  assert (Hf : format ∈ ["csv"; "xlsx"]).
  { apply andb_false_iff in Ef as [E%bool_decide_eq_false|E%bool_decide_eq_false]; apply dec_stable in E; subst; set_solver. }
  destruct (Z.ltb_spec threshold 0); [refused|].
  destruct (xh_Export env) as [[export|]|e] eqn:Ex; [|refused|by apply export_error_answered].
  set (p := if bool_decide (format = "csv") then _ else _).
  assert (Hp : (format = "csv" → p.1 = Some (buildAttendanceCSV export)) ∧
    (format = "xlsx" → p.1 = buildAttendanceXLSX CoordinatesToCellName ColumnNumberToName WriteToBuffer export)).
  { unfold p. case_bool_decide; split; intros ->; done. }
  clearbody p. destruct p as [[payload|] contentType]; cbn [fst] in Hp; [|refused].
  destruct (xh_CtxErr env) as [e|] eqn:Ectx.
  - unfold answered. cbn [eo_Reply eo_Status]. destruct (xf_DeadlineExceeded e) eqn:Ed; split; [done|set_solver|done|].
    exists e. by right.
  - split; [done|]. split; [done|]. exists format, threshold, export. destruct Hp as [Hc Hx].
    split_and!; try done; intros E; [by injection (Hc E)|symmetry; exact (Hx E)].
Qed.
End handler.

(** * Concrete exports *)

Definition csv_student (id name : string) (cells : list (string * bool)) : StudentAttendance :=
  {| sa_StudentID := id; sa_Name := name; sa_Nickname := ""; sa_AvatarURL := ""; sa_School := "Law, Politics";
     sa_AttendedSessions := 1; sa_TotalSessions := 2; sa_AttendanceRate := 1 # 2; sa_AtRisk := false;
     sa_PerSession := map (λ c, {| sl_SessionID := ""; sl_SessionNumber := 1; sl_SessionName := ""; sl_SessionDate := "";
                                   sl_SessionStatus := SessionStatusDone; sl_CheckedIn := c.2; sl_Status := c.1 |}) cells |}.

(** A student whose name is a formula, and a course whose name is one. *)
Definition csv_export : AttendanceExportResult :=
  {| ae_Report := {| cr_CourseID := "c1"; cr_CourseName := "=HYPERLINK(1,2)"; cr_Sessions := repeat
                       {| ss_SessionID := "s"; ss_SessionNumber := 1; ss_Name := ""; ss_Date := ""; ss_CheckedInCount := 0;
                          ss_TotalStudents := 0; ss_Status := SessionStatusDone |} 2;
                     cr_Students := [csv_student "w1" "=1+1" [("ok", true); ("ok", false)]; csv_student "w2" "Bob" [("error", false)]];
                     cr_Errors := []; cr_Truncated := false; cr_Stale := false; cr_Threshold := 0; cr_ComputedAt := 0; cr_DurationMs := 0 |};
     ae_Source := "snapshot"; ae_ExportedAt := 63839667661 * Second; ae_SourceValidatedAt := 63839667600 * Second;
     ae_RestartCount := 0; ae_FreshnessDurationMs := 1 |}.

Lemma attendance_csv_witness :
  map (map string_of_bytes) (default [] (read_export (buildAttendanceCSV csv_export))) =
    csvAttendanceHeaders 2 :: map (csvAttendanceRow csv_export) (cr_Students (ae_Report csv_export)) ∧
  map (drop 4) (map (csvAttendanceRow csv_export) (cr_Students (ae_Report csv_export))) =
    [["w1"; "'=1+1"; ""; "Law, Politics"; "1"; "2"; "50.00%"; "false"; "1"; "0"];
     ["w2"; "Bob"; ""; "Law, Politics"; "1"; "2"; "50.00%"; "false"; "Error"; "Error"]].
Proof.
  destruct (attendance_csv csv_export) as [E _].
  - split; [discriminate|]. split; [discriminate|].
    repeat (apply Forall_cons; split; [split; [discriminate|split; [discriminate|vm_compute; discriminate]]|]). constructor.
  - rewrite E. split; [vm_compute; reflexivity|vm_compute; reflexivity].
Defined.

Example csv_filename :
  attendanceExportFilename (λ s, s) "=Law & Order / Part 2!" (63839667661 * Second) "csv" = "attendance-Law-Order-Part-2-2024-01-01.csv".
Proof. vm_compute. reflexivity. Qed.

(** The format of a refused request is the label of a metric, whatever the client sent. *)
Lemma unbounded_format_label CN CNN WB TL format threshold env :
  format ∉ ["csv"; "xlsx"] → eo_Format (attendanceExportHandler CN CNN WB TL "c" (BodyRequest format threshold) env) = format.
Proof.
  intros Hf. unfold attendanceExportHandler. rewrite bool_decide_false by done.
  rewrite !bool_decide_true by (intros ->; set_solver). done.
Qed.

(** Two texts that a spreadsheet cannot tell apart once they are made safe. *)
Lemma safe_text_injective v w :
  safeSpreadsheetText v = safeSpreadsheetText w → v = w ∨ head (bytes_of v) = Some 39%nat ∨ head (bytes_of w) = Some 39%nat.
Proof.
  assert (H : ∀ v, safeSpreadsheetText v = v ∨ safeSpreadsheetText v = "'" +:+ v).
  { intros u. unfold safeSpreadsheetText. destruct (bytes_of u) as [|b l]; [by left|]. destruct (formula_byte b); [by right|by left]. }
  destruct (H v) as [-> | ->], (H w) as [-> | ->]; intros E; [by left|right; left|right; right|left].
  - by rewrite E.
  - by rewrite <- E.
  - by injection E.
Qed.
