(* ===== verification/Status.v ===== *)
(** Status of the scraper ([internal/db/snapshot_repository.go]: ScraperStatus, HostState) and
    the handlers of [internal/api/scraper_handlers.go] that serve it: the trigger's token, the
    status page and the gauges, which are collected at most every five seconds. *)

From stdpp Require Import base list numbers strings gmap.
From Stdlib Require Import ZArith QArith Lia.
From S2P Require Import Prelude Float64 Domain Canonical Tables Leases HostState Scheduler.

Local Open Scope Z_scope.
Local Open Scope stdpp_scope.
Local Open Scope go_scope.

(** * ScraperStatus *)

Record ScraperStatus := {
  ss_Due : Z;
  ss_DueByKind : gmap string Z;
  ss_TargetsByKind : gmap string Z;
  ss_CurrentByKind : gmap string Z;
  ss_Leased : Z;
  ss_Failed : Z;
  ss_ExpiredCurrent : Z;
  ss_ActiveCourseTargets : Z;
  ss_ActiveCourseCurrent : Z;
  ss_KnownSessionTargets : Z;
  ss_KnownSessionCurrent : Z;
  ss_OldestValidationAgeSeconds : gmap string Z;
  ss_OldestSnapshotAgeSeconds : gmap string Z;
  ss_HostPausedUntil : option Z;
  ss_HostRequestsPerSecond : Q;
  ss_HostConcurrency : Z;
  ss_ActivePermits : Z;
  ss_ExpiredPermits : Z
}.

(** COUNT of the rows FILTER picks. *)
Definition count_where {A} (p : A → bool) (l : list A) : Z := Z.of_nat (length (base.filter (λ x, p x = true) l)).

Definition host_targets (db : DB) (host : string) : list TargetRow :=
  base.filter (λ t, ref_Host (t_ref t) = host) (map snd (map_to_list (db_targets db))).

Definition row_kind (t : TargetRow) : string := kind_string (ref_Kind (t_ref t)).

(** The due condition of the status, which does not look at the host's pause. *)
Definition status_due (now : Z) (t : TargetRow) : bool :=
  enabled (t_life t) && bool_decide (lifecycle_state (t_life t) = LifeActive) &&
  (next_run_at (t_sched t) <=? now) && not_later (lease_expires_at (t_lease t)) now.

Definition has_current (t : TargetRow) : bool := bool_decide (is_Some (current_snapshot_id (t_pub t))).

Definition expired_current (now : Z) (t : TargetRow) : bool :=
  enabled (t_life t) && has_current t &&
  match last_validated_at (t_pub t) with
  | None => true
  | Some v => v + max_serve_age_seconds (t_sched t) * Second <? now
  end.

Definition leased_now (now : Z) (t : TargetRow) : bool :=
  match lease_expires_at (t_lease t) with Some e => now <? e | None => false end.

(** COUNT(...) FILTER (...) GROUP BY kind: one entry for each kind with a row. *)
Definition by_kind (p : TargetRow → bool) (rows : list TargetRow) : gmap string Z :=
  foldr (λ t m, <[row_kind t := default 0 (m !! row_kind t) + (if p t then 1 else 0)]> m) ∅ rows.

(** MAX(...) GROUP BY kind *)
Definition max_by_kind (rows : list (string * Z)) : gmap string Z :=
  foldr (λ x m, <[x.1 := match m !! x.1 with Some a => Z.max a x.2 | None => x.2 end]> m) ∅ rows.

(** The rows of the age query: kind, age since the validation, age of the content, in
    nanoseconds. *)
Definition age_rows (db : DB) (host : string) (now : Z) : list (string * Z * Z) :=
  omap (λ t,
    if negb (enabled (t_life t)) then None
    else v ← last_validated_at (t_pub t); id ← current_snapshot_id (t_pub t); s ← db_snaps db !! id;
         Some (row_kind t, now - v, now - s_content_fetched_at s))
    (host_targets db host).

(** FLOOR of the seconds of the largest age *)
Definition oldest (rows : list (string * Z)) : gmap string Z := (λ age, age / Second) <$> max_by_kind rows.

Section status.
(** [attributes->>key] of a JSON document. *)
Context (json_text : string → string → option string).

Definition active_course (t : TargetRow) : bool :=
  enabled (t_life t) && bool_decide (row_kind t = "course_detail") &&
  bool_decide (json_text (attributes (t_sched t)) "course_status" = Some "active").

Definition known_session (t : TargetRow) : bool := enabled (t_life t) && bool_decide (row_kind t = "session_detail").

(** Five statements, each on the store as it is then. *)
Definition SnapshotRepository_ScraperStatus (host : string) (now : Z) (at_query : nat → DB) : result RepoError ScraperStatus :=
  fail_if (blank host) with_err (ErrInvalid "scraper status host is required") in
  let all := host_targets (at_query 0%nat) host in
  let kinds := host_targets (at_query 1%nat) host in
  let ages := age_rows (at_query 2%nat) host now in
  match db_hosts (at_query 3%nat) !! host with
  | None => Err ErrNoRows
  | Some h =>
      let permits := base.filter (λ p, pm_host p = host) (map snd (map_to_list (db_permits (at_query 4%nat)))) in
      Ok {| ss_Due := count_where (status_due now) all;
            ss_DueByKind := by_kind (status_due now) kinds;
            ss_TargetsByKind := by_kind (λ t, enabled (t_life t)) kinds;
            ss_CurrentByKind := by_kind (λ t, enabled (t_life t) && has_current t) kinds;
            ss_Leased := count_where (leased_now now) all;
            ss_Failed := count_where (λ t, enabled (t_life t) && (0 <? consecutive_failures (t_sched t))) all;
            ss_ExpiredCurrent := count_where (expired_current now) all;
            ss_ActiveCourseTargets := count_where active_course all;
            ss_ActiveCourseCurrent := count_where (λ t, active_course t && has_current t) all;
            ss_KnownSessionTargets := count_where known_session all;
            ss_KnownSessionCurrent := count_where (λ t, known_session t && has_current t) all;
            ss_OldestValidationAgeSeconds := oldest (map (λ r, (r.1.1, r.1.2)) ages);
            ss_OldestSnapshotAgeSeconds := oldest (map (λ r, (r.1.1, r.2)) ages);
            ss_HostPausedUntil := match paused_until h with Some p => if now <? p then Some p else None | None => None end;
            ss_HostRequestsPerSecond := rps_float (current_rps h);
            ss_HostConcurrency := current_concurrency h;
            ss_ActivePermits := count_where (λ p, now <? pm_expires_at p) permits;
            ss_ExpiredPermits := count_where (λ p, pm_expires_at p <=? now) permits |}
  end.
End status.

(** * HostState *)

Record HostStateRow := {
  st_Host : string;
  st_BaselineRequestsPerSecond : Q;
  st_CurrentRequestsPerSecond : Q;
  st_Burst : Z;
  st_AvailableTokens : Q;
  st_TokensUpdatedAt : Z;
  st_BaselineConcurrency : Z;
  st_CurrentConcurrency : Z;
  st_Consecutive429s : Z;
  st_Last429At : option Z;
  st_HealthyStreak : Z;
  st_PausedUntil : option Z
}.

Definition SnapshotRepository_HostState (host : string) (db : DB) : result RepoError HostStateRow :=
  match db_hosts db !! host with
  | None => Err ErrNoRows
  | Some h =>
      Ok {| st_Host := host; st_BaselineRequestsPerSecond := rps_float (baseline_rps h);
            st_CurrentRequestsPerSecond := rps_float (current_rps h); st_Burst := burst h;
            st_AvailableTokens := tokens_float (available_tokens h); st_TokensUpdatedAt := tokens_updated_at h;
            st_BaselineConcurrency := baseline_concurrency h; st_CurrentConcurrency := current_concurrency h;
            st_Consecutive429s := consecutive_429s h; st_Last429At := last_429_at h; st_HealthyStreak := healthy_streak h;
            st_PausedUntil := paused_until h |}
  end.

(** * The handlers *)

Definition has_prefix (p s : string) : bool := bool_decide (is_Some (strip_prefix (bytes_of p) (bytes_of s))).
Definition TrimPrefix (p s : string) : string :=
  match strip_prefix (bytes_of p) (bytes_of s) with Some l => string_of_bytes l | None => s end.

(** [subtle.ConstantTimeCompare] of two byte strings of one length: the bits in which they
    differ are collected over all bytes. *)
Definition ConstantTimeCompare (x y : list nat) : bool :=
  (foldl (λ v p, Nat.lor v (Nat.lxor p.1 p.2)) 0%nat (zip x y) =? 0)%nat.

(** [authorization] is the first value of the header, empty when there is none. *)
Definition hasBearerToken (authorization expected : string) : bool :=
  if bool_decide (expected = "") then false
  else if negb (has_prefix "Bearer " authorization) then false
  else
    let provided := TrimPrefix "Bearer " authorization in
    if negb (String.length provided =? String.length expected)%nat then false
    else ConstantTimeCompare (bytes_of provided) (bytes_of expected).

(** The answer: its status code and the data of a success.  The runner's tick may not return;
    its result comes with whether it returned an error. *)
Definition scraperTickHandler {S R} (triggerToken authorization : string) (run : S → option (S * (R * bool))) (s : S)
    : option (S * (Z * option R)) :=
  if negb (hasBearerToken authorization triggerToken) then Some (s, (401, None))
  else
    '(s', (result, failed)) ← run s;
    Some (s', if failed : bool then (500, None) else (200, Some result)).

(** ** Gauges *)

Definition Gauges : Type := gmap (string * string) Q.

Definition set_gauge (name label : string) (v : Q) (g : Gauges) : Gauges := <[(name, label) := v]> g.

Definition status_kinds : list string := ["course_catalog"; "course_detail"; "session_detail"; "student_profiles"].

Definition set_age (name kind : string) (ages : gmap string Z) (g : Gauges) : Gauges :=
  match ages !! kind with
  | Some seconds => set_gauge name kind (f_of_int seconds) g
  | None => delete (name, kind) g
  end.

Definition record_kind (status : ScraperStatus) (g : Gauges) (kind : string) : Gauges :=
  let g := set_gauge "due_targets" kind (f_of_int (default 0 (ss_DueByKind status !! kind))) g in
  let g := set_age "validation_age" kind (ss_OldestValidationAgeSeconds status) g in
  set_age "snapshot_age" kind (ss_OldestSnapshotAgeSeconds status) g.

Definition recordScraperStatusMetrics (status : ScraperStatus) (now : Z) (g : Gauges) : Gauges :=
  let g := set_gauge "active_leases" "" (f_of_int (ss_Leased status)) g in
  let g := set_gauge "active_host_permits" "warwick" (f_of_int (ss_ActivePermits status)) g in
  let g := set_gauge "host_requests_per_second" "warwick" (ss_HostRequestsPerSecond status) g in
  let g := set_gauge "host_concurrency" "warwick" (f_of_int (ss_HostConcurrency status)) g in
  let paused := match ss_HostPausedUntil status with Some p => if time_After p now then 1%Q else 0%Q | None => 0%Q end in
  let g := set_gauge "host_paused" "warwick" paused g in
  foldl (record_kind status) g status_kinds.

(** The gauge of whether the last collection succeeded, and those it sets. *)
Definition collect_status {E} (r : result E ScraperStatus) (now : Z) (g : Gauges) : Gauges :=
  match r with
  | Err _ => set_gauge "status_collection_success" "" 0 g
  | Ok status => recordScraperStatusMetrics status now (set_gauge "status_collection_success" "" 1 g)
  end.

Definition scraperStatusHandler {E} (triggerToken authorization : string) (r : result E ScraperStatus) (now : Z) (g : Gauges)
    : Gauges * (Z * option ScraperStatus) :=
  if negb (hasBearerToken authorization triggerToken) then (g, (401, None))
  else match r with
       | Err _ => (collect_status r now g, (500, None))
       | Ok status => (collect_status r now g, (200, Some status))
       end.

Definition scraperMetricsStatusRefreshInterval : Z := 5 * Second.

(** One request for the metrics: [busy] is whether another one holds the lock, collecting.
    The time of the last collection, and whether this request collects. *)
Definition metrics_turn (lastCollection : Z) (busy : bool) (now : Z) : Z * bool :=
  if busy then (lastCollection, false)
  else if time_IsZero lastCollection || time_Before now lastCollection
            || (scraperMetricsStatusRefreshInterval <=? time_Sub now lastCollection)
       then (now, true) else (lastCollection, false).

Definition scraperMetricsHandler {E} (s : Z * Gauges) (busy : bool) (now : Z) (r : result E ScraperStatus) : Z * Gauges :=
  let (last, collects) := metrics_turn s.1 busy now in
  (last, if collects : bool then collect_status r now s.2 else s.2).

(** The times at which a series of requests collects. *)
Fixpoint metrics_times (lastCollection : Z) (requests : list (bool * Z)) : list Z :=
  match requests with
  | [] => []
  | (busy, now) :: requests' =>
      let (last, collects) := metrics_turn lastCollection busy now in
      (if collects : bool then [now] else []) ++ metrics_times last requests'
  end.
