(* ===== verification/StatusSpec.v ===== *)
(** Theorems about the status of the scraper: its counts agree with each other, with what a
    claim would find and with the bounds of the host limiter; the trigger's token; the pace
    of the collections. *)

From stdpp Require Import base list list_numbers numbers sets strings gmap relations sorting.
From Stdlib Require Import ZArith QArith Lia.
From S2P Require Import Prelude Float64 Sanitize Domain Canonical Tables Leases Lifecycle Reads Commit HostState.
From S2P Require Import Maintenance Store CommitSpec System Permits Scheduler Status.

Local Open Scope Z_scope.
Local Open Scope stdpp_scope.
Local Open Scope go_scope.

(** * Counts *)

Lemma count_where_cons {A} (p : A → bool) x l : count_where p (x :: l) = (if p x then 1 else 0) + count_where p l.
Proof.
  unfold count_where. rewrite filter_cons. destruct (p x); [rewrite decide_True by done|rewrite decide_False by done]; cbn [length]; lia.
Qed.

Lemma count_where_ext {A} (p q : A → bool) l : (∀ x, x ∈ l → p x = q x) → count_where p l = count_where q l.
Proof.
  induction l as [|x l IH]; intros H; [done|]. rewrite !count_where_cons, (H x) by set_solver. rewrite IH by set_solver. done.
Qed.

Lemma count_where_le {A} (p q : A → bool) l : (∀ x, p x = true → q x = true) → 0 ≤ count_where p l ≤ count_where q l.
Proof.
  intros H. induction l as [|x l IH]; [done|]. rewrite !count_where_cons. specialize (H x).
  destruct (p x), (q x); lia.
Qed.

Definition of_kind (k : string) (p : TargetRow → bool) (t : TargetRow) : bool := bool_decide (row_kind t = k) && p t.

Lemma count_other_kind p rows k : k ∉ map row_kind rows → count_where (of_kind k p) rows = 0.
Proof.
  induction rows as [|t rows IH]; intros Hk; [done|]. cbn [map] in Hk. apply not_elem_of_cons in Hk as [Hne Hk].
  rewrite count_where_cons, IH by done. unfold of_kind. by rewrite bool_decide_false by congruence.
Qed.

(** An entry for every kind with a row: the count of the rows of the kind. *)
Lemma by_kind_lookup p rows k :
  by_kind p rows !! k = if decide (k ∈ map row_kind rows) then Some (count_where (of_kind k p) rows) else None.
Proof.
  induction rows as [|t rows IH]; [by rewrite decide_False by apply not_elem_of_nil|].
  cbn [by_kind foldr]. fold (by_kind p rows). cbn [map]. rewrite count_where_cons. unfold of_kind at 1.
  destruct (decide (row_kind t = k)) as [->|Hne].
  - rewrite lookup_insert_eq, decide_True by set_solver. rewrite bool_decide_true by done. cbn [andb]. rewrite IH.
    destruct (decide (k ∈ map row_kind rows)) as [Hin|Hin]; cbn [default from_option id]; [by rewrite Z.add_comm|].
    rewrite count_other_kind by done. f_equal. lia.
  - rewrite lookup_insert_ne by done. rewrite IH. rewrite bool_decide_false by done. cbn [andb].
    destruct (decide (k ∈ map row_kind rows)); [rewrite decide_True by set_solver; f_equal; lia|rewrite decide_False by set_solver; done].
Qed.

Definition kind_count (m : gmap string Z) (k : string) : Z := default 0 (m !! k).

Lemma kind_count_by p rows k : kind_count (by_kind p rows) k = count_where (of_kind k p) rows.
Proof.
  unfold kind_count. rewrite by_kind_lookup. case_decide as Hin; [done|]. by rewrite count_other_kind.
Qed.

Definition kinds_total (m : gmap string Z) : Z := foldr (λ k n, kind_count m k + n) 0 status_kinds.

(** When all kinds are known, the counts by kind add up. *)
Lemma by_kind_total p rows : Forall (λ t, kind_Valid (ref_Kind (t_ref t)) = true) rows →
  kinds_total (by_kind p rows) = count_where p rows.
Proof.
  intros Hk. unfold kinds_total. cbn [foldr status_kinds]. rewrite !kind_count_by.
  induction Hk as [|t rows Ht _ IH]; [done|]. rewrite !count_where_cons. unfold of_kind at 1 3 5 7. unfold row_kind.
  destruct (ref_Kind (t_ref t)); [..|done]; cbn [kind_string];
    repeat (case_bool_decide; try discriminate); try congruence; cbn [andb]; lia.
Qed.

(** * Ages *)

Lemma max_by_kind_keys rows k : is_Some (max_by_kind rows !! k) ↔ k ∈ map fst rows.
Proof.
  induction rows as [|[k' a] rows IH]; cbn [max_by_kind foldr map fst snd].
  { rewrite lookup_empty. split; [by intros [? ?]|by intros ?%not_elem_of_nil]. }
  fold (max_by_kind rows). rewrite elem_of_cons. destruct (decide (k' = k)) as [->|Hne].
  - rewrite lookup_insert_eq. split; [by left|done].
  - rewrite lookup_insert_ne, IH by done. split; [by right|by intros [->|?]].
Qed.

Lemma max_by_kind_max rows k a :
  max_by_kind rows !! k = Some a ↔ (k, a) ∈ rows ∧ ∀ b, (k, b) ∈ rows → b ≤ a.
Proof.
  revert a. induction rows as [|[k' c] rows IH]; intros a; cbn [max_by_kind foldr fst snd].
  { rewrite lookup_empty. split; [done|]. intros [H _]. by apply not_elem_of_nil in H. }
  fold (max_by_kind rows). destruct (decide (k' = k)) as [->|Hne].
  - rewrite lookup_insert_eq. destruct (max_by_kind rows !! k) as [m|] eqn:Em.
    + destruct (proj1 (IH m) eq_refl) as [Hm Hle]. split.
      * intros [= <-]. split.
        -- destruct (Z.max_spec m c) as [[_ ->]|[_ ->]]; [by left|by right].
        -- intros b [[= ->]|Hb]%elem_of_cons; [lia|]. specialize (Hle b Hb). lia.
      * intros [[[= ->]|Ha]%elem_of_cons Hmax].
        -- f_equal. specialize (Hmax m ltac:(by right)). lia.
        -- f_equal. pose proof (Hle a Ha). pose proof (Hmax m ltac:(by right)). pose proof (Hmax c ltac:(by left)). lia.
    + assert (Hno : ∀ b, (k, b) ∉ rows).
      { intros b Hb. assert (Hs : is_Some (max_by_kind rows !! k)) by (apply max_by_kind_keys, list_elem_of_fmap; by exists (k, b)).
        rewrite Em in Hs. by destruct Hs. }
      split.
      * intros [= <-]. split; [by left|]. intros b [[= ->]|Hb]%elem_of_cons; [done|by destruct (Hno b)].
      * intros [[[= ->]|Ha]%elem_of_cons _]; [done|by destruct (Hno a)].
  - rewrite lookup_insert_ne, IH by done. split; intros [Ha Hmax]; (split; [|intros b Hb; apply Hmax]).
    + by right.
    + by apply elem_of_cons in Hb as [[= -> _]|Hb].
    + by apply elem_of_cons in Ha as [[= -> _]|Ha].
    + by right.
Qed.

(** Of a reachable store: every enabled target with a current snapshot is in the age rows. *)
Lemma age_rows_kinds db host now k : wf db →
  k ∈ map (λ r : string * Z * Z, r.1.1) (age_rows db host now) ↔
  ∃ t, t ∈ host_targets db host ∧ row_kind t = k ∧ enabled (t_life t) && has_current t = true.
Proof.
  intros W. change (map ?f ?l) with (f <$> l). rewrite list_elem_of_fmap. split.
  - intros (r & -> & Hr). apply list_elem_of_omap in Hr as (t & Ht & E). exists t. split; [done|].
    destruct (enabled (t_life t)) eqn:Een; [|done]. cbn [negb] in E. destruct (last_validated_at _); [|done]. cbn in E.
    unfold has_current. destruct (current_snapshot_id (t_pub t)) as [id|] eqn:Ec; [|done]. cbn in E.
    destruct (db_snaps db !! id); [|done]. cbn in E. injection E as <-. done.
  - intros (t & Ht & <- & [He Hc%bool_decide_eq_true]%andb_true_iff). destruct Hc as [id Hid].
    apply list_elem_of_filter in Ht as [Hh Ht]. change (map ?f ?l) with (f <$> l) in Ht.
    apply list_elem_of_fmap in Ht as ([i t'] & -> & Hi). apply elem_of_map_to_list in Hi. cbn [snd] in *.
    destruct (wf_pub _ W i t' Hi) as [_ Hp]. destruct (Hp id Hid) as (s & Hs & _ & _ & _ & [v Hv]).
    exists (row_kind t', now - v, now - s_content_fetched_at s). split; [done|].
    apply list_elem_of_omap. exists t'. split.
    + apply list_elem_of_filter. split; [done|]. change (map ?f ?l) with (f <$> l). apply list_elem_of_fmap. exists (i, t').
      split; [done|by apply elem_of_map_to_list].
    + rewrite He. cbn [negb]. rewrite Hv. cbn. rewrite Hid. cbn. by rewrite Hs.
Qed.

Lemma oldest_keys rows k : is_Some (oldest rows !! k) ↔ k ∈ map fst rows.
Proof. unfold oldest. rewrite lookup_fmap, fmap_is_Some. apply max_by_kind_keys. Qed.

(** * The status *)

Section status.
Context `{GoLib, Postgres}.

Definition targets_of (db : DB) (host : string) : Z * TargetRow → bool := λ p, bool_decide (ref_Host (t_ref p.2) = host).

Lemma count_where_host db host q :
  count_where q (host_targets db host) = count_where (λ p, targets_of db host p && q p.2) (map_to_list (db_targets db)).
Proof.
  unfold host_targets. induction (map_to_list (db_targets db)) as [|[i t] l IH]; [done|].
  rewrite count_where_cons. cbn [map snd]. rewrite filter_cons. unfold targets_of at 1. cbn [snd].
  destruct (decide (ref_Host (t_ref t) = host)) as [Hh|Hh].
  - rewrite bool_decide_true, count_where_cons, IH by done. done.
  - rewrite bool_decide_false by done. cbn [andb]. rewrite IH. lia.
Qed.

Lemma host_targets_elem db host t : t ∈ host_targets db host → ref_Host (t_ref t) = host ∧ ∃ i, db_targets db !! i = Some t.
Proof.
  intros [Hh Ht]%list_elem_of_filter. change (map ?f ?l) with (f <$> l) in Ht.
  apply list_elem_of_fmap in Ht as ([i t'] & -> & Hi%elem_of_map_to_list). split; [done|by exists i].
Qed.

Lemma host_targets_valid db host : wf db → Forall (λ t, kind_Valid (ref_Kind (t_ref t)) = true) (host_targets db host).
Proof.
  intros W. apply Forall_forall. intros t Ht. apply host_targets_elem in Ht as (_ & i & Hi).
  pose proof (wf_check _ W i t Hi) as Hc. unfold target_check in Hc. repeat apply andb_true_iff in Hc as [Hc ?]. done.
Qed.

Lemma kind_count_pos p rows k : 0 < kind_count (by_kind p rows) k ↔ ∃ t, t ∈ rows ∧ row_kind t = k ∧ p t = true.
Proof.
  rewrite kind_count_by. unfold count_where. split.
  - destruct (base.filter _ rows) as [|t l] eqn:E; [cbn; lia|]. intros _. exists t.
    assert (Ht : t ∈ base.filter (λ x, of_kind k p x = true) rows) by (rewrite E; by left).
    apply list_elem_of_filter in Ht as [[Hk%bool_decide_eq_true Hp]%andb_true_iff Ht]. done.
  - intros (t & Ht & Hk & Hp).
    assert (Hin : t ∈ base.filter (λ x, of_kind k p x = true) rows).
    { apply list_elem_of_filter. split; [|done]. unfold of_kind. by rewrite bool_decide_true, Hp by done. }
    destruct (base.filter _ rows); [by apply not_elem_of_nil in Hin|cbn; lia].
Qed.

Lemma active_permits_count db host now :
  count_where (λ p, now <? pm_expires_at p) (base.filter (λ p, pm_host p = host) (map snd (map_to_list (db_permits db)))) =
    Z.of_nat (length (active_permits db host now)).
Proof.
  unfold active_permits. rewrite length_map. induction (map_to_list (db_permits db)) as [|[i p] l IH]; [done|].
  cbn [map snd]. rewrite !filter_cons. cbn [snd]. destruct (decide (pm_host p = host)) as [Hh|Hh].
  - rewrite count_where_cons, IH. destruct (Z.ltb_spec now (pm_expires_at p)).
    + rewrite decide_True by done. cbn [length]. lia.
    + rewrite decide_False by (intros [_ ?]; lia). lia.
  - rewrite decide_False by tauto. exact IH.
Qed.

(** C17: the status page tells the truth.  When its statements see one reachable store: its
    due count is the number of targets of the host a claim may take, unless the host is
    paused, when a claim may take none and the page says until when; the counts by kind add
    up to the totals and repeat the ones given by name; a kind has an age exactly when it has
    a current snapshot, namely the largest of its targets in whole seconds; the host's
    concurrency is within the limiter's bounds, and so are its active permits unless the
    clock is behind the last refill of its bucket. *)
Theorem ScraperStatus_agrees json_text host now db status :
  reachable db → SnapshotRepository_ScraperStatus json_text host now (λ _, db) = Ok status →
  let rows := host_targets db host in
  (match ss_HostPausedUntil status with
   | None => ss_Due status = count_where (λ p, targets_of db host p && due db now p.2) (map_to_list (db_targets db))
   | Some p => now < p ∧ ∀ i t, db_targets db !! i = Some t → ref_Host (t_ref t) = host → due db now t = false
   end) ∧
  kinds_total (ss_DueByKind status) = ss_Due status ∧
  kind_count (ss_TargetsByKind status) "session_detail" = ss_KnownSessionTargets status ∧
  kind_count (ss_CurrentByKind status) "session_detail" = ss_KnownSessionCurrent status ∧
  0 ≤ ss_ActiveCourseCurrent status ≤ ss_ActiveCourseTargets status ∧
  ss_ActiveCourseTargets status ≤ kind_count (ss_TargetsByKind status) "course_detail" ∧
  0 ≤ ss_ExpiredCurrent status ≤ kinds_total (ss_CurrentByKind status) ∧
  (∀ k, (is_Some (ss_OldestValidationAgeSeconds status !! k) ↔ 0 < kind_count (ss_CurrentByKind status) k) ∧
        (is_Some (ss_OldestSnapshotAgeSeconds status !! k) ↔ 0 < kind_count (ss_CurrentByKind status) k) ∧
        ∀ a, ss_OldestValidationAgeSeconds status !! k = Some a →
          (∃ r, r ∈ age_rows db host now ∧ r.1.1 = k ∧ a = r.1.2 / Second) ∧
          ∀ r, r ∈ age_rows db host now → r.1.1 = k → r.1.2 / Second ≤ a) ∧
  ∃ h, db_hosts db !! host = Some h ∧ 1 ≤ ss_HostConcurrency status ≤ 4 ∧
    (tokens_updated_at h ≤ now → 0 ≤ ss_ActivePermits status ≤ 4).
Proof.
  intros Hr E rows. pose proof (reachable_wf _ Hr) as W. unfold SnapshotRepository_ScraperStatus in E.
  destruct (blank host); [done|]. cbv zeta in E. destruct (db_hosts db !! host) as [h|] eqn:Hh; [|done].
  injection E as <-. cbn [ss_HostPausedUntil ss_Due ss_DueByKind ss_TargetsByKind ss_KnownSessionTargets ss_CurrentByKind
    ss_KnownSessionCurrent ss_ActiveCourseCurrent ss_ActiveCourseTargets ss_ExpiredCurrent ss_OldestValidationAgeSeconds
    ss_OldestSnapshotAgeSeconds ss_HostConcurrency ss_ActivePermits]. fold rows.
  pose proof (host_targets_valid db host W) as Hv. fold rows in Hv.
  assert (Hdue : ∀ t, ref_Host (t_ref t) = host → due db now t = status_due now t && not_later (paused_until h) now).
  { intros t Ht. unfold due, status_due, host_ready. by rewrite Ht, Hh. }
  split; [|split; [by apply by_kind_total|]]; [|split; [|split; [|split; [|split; [|split; [|split]]]]]].
  - unfold not_later in Hdue. destruct (paused_until h) as [p|]; [destruct (Z.ltb_spec now p) as [Hp|Hp]|].
    + split; [done|]. intros i t _ Ht. rewrite (Hdue t Ht). destruct (Z.leb_spec p now); [lia|]. by rewrite andb_false_r.
    + unfold rows. rewrite count_where_host. apply count_where_ext. intros [i t] _. unfold targets_of. cbn [snd].
      case_bool_decide as Ht; [|done]. cbn [andb]. rewrite (Hdue t Ht). destruct (Z.leb_spec p now); [|lia]. by rewrite andb_true_r.
    + unfold rows. rewrite count_where_host. apply count_where_ext. intros [i t] _. unfold targets_of. cbn [snd].
      case_bool_decide as Ht; [|done]. cbn [andb]. rewrite (Hdue t Ht). by rewrite andb_true_r.
  - rewrite kind_count_by. apply count_where_ext. intros t _. unfold of_kind, known_session. apply andb_comm.
  - rewrite kind_count_by. apply count_where_ext. intros t _. unfold of_kind, known_session. rewrite andb_assoc. f_equal. apply andb_comm.
  - apply count_where_le. by intros t [? _]%andb_true_iff.
  - rewrite kind_count_by. apply count_where_le. intros t [[? ?]%andb_true_iff _]%andb_true_iff. unfold of_kind. by apply andb_true_iff.
  - rewrite by_kind_total by done. apply count_where_le. by intros t [? _]%andb_true_iff.
  - intros k. rewrite !oldest_keys, !map_map, kind_count_pos. cbn [fst].
    pose proof (age_rows_kinds db host now k W) as Hk. fold rows in Hk. split_and!; [done|done|].
    intros a Ha. unfold oldest in Ha. rewrite lookup_fmap in Ha. apply fmap_Some in Ha as (m & Hm & ->).
    apply max_by_kind_max in Hm as [Hin Hmax]. split.
    + change (map ?f ?l) with (f <$> l) in Hin. apply list_elem_of_fmap in Hin as (r & [= -> ->] & Hr'). by exists r.
    + intros r Hr' <-. apply Z.div_le_mono; [done|]. apply Hmax. change (map ?f ?l) with (f <$> l).
      apply list_elem_of_fmap. by exists r.
  - exists h. split; [done|]. split.
    + pose proof (pw_hosts _ (reachable_permits _ Hr) _ _ Hh) as Hc. unfold host_check in Hc. bool_to_prop. lia.
    + intros Ht. rewrite active_permits_count. pose proof (active_bounded db host h now Hr Hh Ht). lia.
Qed.
End status.

(** * The token *)

Lemma compare_zero l v :
  foldl (λ v p, Nat.lor v (Nat.lxor p.1 p.2)) v l = 0%nat ↔ v = 0%nat ∧ Forall (λ p : nat * nat, p.1 = p.2) l.
Proof.
  revert v. induction l as [|[x y] l IH]; intros v; cbn [foldl fst snd]; [split; [by split|by intros [-> _]]|].
  rewrite IH, Forall_cons, Nat.lor_eq_0_iff, Nat.lxor_eq_0_iff. cbn [fst snd]. tauto.
Qed.

Lemma ConstantTimeCompare_eq x y : length x = length y → ConstantTimeCompare x y = true ↔ x = y.
Proof.
  intros Hl. unfold ConstantTimeCompare. rewrite Nat.eqb_eq, compare_zero. split.
  - intros [_ H]. revert y Hl H. induction x as [|a x IH]; intros [|b y] Hl H; try done. cbn [zip zip_with] in H.
    apply Forall_cons in H as [Hab H]. cbn in Hab, Hl. subst. f_equal. apply IH; [lia|done].
  - intros ->. split; [done|]. clear. induction y; by constructor.
Qed.

Lemma strip_prefix_some p l r : strip_prefix p l = Some r ↔ l = p ++ r.
Proof.
  revert l. induction p as [|x p IH]; intros [|y l]; cbn; [split; [by intros [= <-]|by intros ->]..|by split|].
  destruct (Nat.eqb_spec x y) as [->|Hne]; [rewrite IH; split; [by intros ->|by intros [= ->]]|]. split; [done|congruence].
Qed.

(** A request is let in exactly when a token is configured and the header is the word Bearer,
    a space and the token. *)
Lemma hasBearerToken_spec authorization expected :
  hasBearerToken authorization expected = true ↔ expected ≠ "" ∧ authorization = "Bearer " +:+ expected.
Proof.
  unfold hasBearerToken, has_prefix, TrimPrefix. case_bool_decide as He; [by split; [|intros [? _]]|].
  destruct (strip_prefix (bytes_of "Bearer ") (bytes_of authorization)) as [l|] eqn:Es.
  - rewrite bool_decide_true by done. cbn [negb]. apply strip_prefix_some in Es.
    assert (Hb : Forall is_byte l).
    { pose proof (bytes_of_bytes authorization) as H. rewrite Es in H. by apply Forall_app in H as [_ H]. }
    assert (El : bytes_of (string_of_bytes l) = l) by (by apply bytes_string_roundtrip).
    destruct (Nat.eqb_spec (String.length (string_of_bytes l)) (String.length expected)) as [Hl|Hl]; cbn [negb].
    + rewrite ConstantTimeCompare_eq by (by rewrite !bytes_of_length). split.
      * intros Heq%bytes_of_inj. split; [done|]. apply bytes_of_inj. by rewrite Es, bytes_of_app, <- Heq, El.
      * intros [_ ->]. rewrite bytes_of_app in Es. apply app_inv_head in Es. by rewrite El.
    + split; [done|]. intros [_ ->]. rewrite bytes_of_app in Es. apply app_inv_head in Es. destruct Hl. subst l.
      by rewrite <- bytes_of_length, El, bytes_of_length.
  - rewrite bool_decide_false by (by intros [? ?]). split; [done|]. intros [_ ->]. rewrite bytes_of_app in Es.
    rewrite (proj2 (strip_prefix_some _ _ _) eq_refl) in Es. done.
Qed.

(** Without the token nothing is run. *)
Lemma tick_refused {S R} (token authorization : string) (run : S → option (S * (R * bool))) s :
  token = "" ∨ authorization ≠ "Bearer " +:+ token → scraperTickHandler token authorization run s = Some (s, (401, None)).
Proof.
  intros Ht. unfold scraperTickHandler. destruct (hasBearerToken authorization token) eqn:E; [|done].
  apply hasBearerToken_spec in E as [? ?]. by destruct Ht.
Qed.

(** * The pace of the collections *)

(** Requests at times that do not go back, all after the zero time. *)
Definition clock_forward (from : Z) (requests : list (bool * Z)) : Prop :=
  Sorted Z.le (from :: map snd requests).

(** While the clock does not go back, two collections are five seconds apart, whichever
    requests find the lock taken. *)
Lemma metrics_pace requests : ∀ last, clock_forward last requests → 0 < last →
  Sorted (λ a b, a + scraperMetricsStatusRefreshInterval ≤ b) (last :: metrics_times last requests).
Proof.
  intros last Hs. apply Sorted_StronglySorted in Hs; [|intros ? ? ?; lia]. apply StronglySorted_inv in Hs as [Hs Hfrom].
  revert last Hs Hfrom. induction requests as [|[busy now] requests IH]; intros last Hs Hfrom Hl; cbn [metrics_times].
  { by repeat constructor. }
  cbn [map snd] in Hs, Hfrom. apply StronglySorted_inv in Hs as [Hs Hnow]. apply Forall_cons in Hfrom as [Hle Hfrom].
  unfold metrics_turn. destruct busy; [by apply IH|].
  unfold time_IsZero. destruct (Z.eqb_spec last 0); [lia|]. unfold time_Before. destruct (Z.ltb_spec now last); [lia|]. cbn [orb].
  destruct (Z.leb_spec scraperMetricsStatusRefreshInterval (time_Sub now last)) as [Hd|Hd]; [|by apply IH].
  cbn [app]. constructor; [apply IH; [done|done|lia]|]. constructor.
  unfold time_Sub, clamp64 in Hd.
  assert (scraperMetricsStatusRefreshInterval ≤ now - last); [|lia].
  revert Hd. unfold scraperMetricsStatusRefreshInterval, min_int64, max_int64, Second. lia.
Qed.
