(* ===== verification/StatusWitnesses.v ===== *)
(** The status of the demo's host, and the trigger and the collections on concrete requests. *)

From stdpp Require Import base list numbers strings gmap relations.
From Stdlib Require Import ZArith QArith Lia.
From S2P Require Import Prelude Float64 Domain Canonical Tables Leases Reads Commit HostState System Demo Status StatusSpec.

Local Open Scope Z_scope.
Local Open Scope stdpp_scope.
Local Open Scope go_scope.

Definition no_json (_ _ : string) : option string := None.

Definition demo_status (db : DB) (now : Z) : result RepoError ScraperStatus :=
  SnapshotRepository_ScraperStatus no_json "h" now (λ _, db).

(** The catalog was committed by the first run; an hour later its snapshot is an hour old. *)
Lemma ScraperStatus_agrees_witness :
  ∃ status, demo_status committed_1.1 (T0 + Hour) = Ok status ∧
    kind_count (ss_CurrentByKind status) "course_catalog" = 1 ∧
    is_Some (ss_OldestValidationAgeSeconds status !! "course_catalog") ∧
    kinds_total (ss_DueByKind status) = ss_Due status.
Proof.
  destruct (demo_status committed_1.1 (T0 + Hour)) as [status|] eqn:E; [|exfalso; revert E; vm_compute; discriminate].
  exists status. split; [reflexivity|].
  assert (Hc : kind_count (ss_CurrentByKind status) "course_catalog" = 1).
  { assert (G : (λ r, match r with Ok s => kind_count (ss_CurrentByKind s) "course_catalog" | Err _ => 0 end)
      (demo_status committed_1.1 (T0 + Hour)) = 1) by (vm_compute; reflexivity). rewrite E in G. exact G. }
  destruct (ScraperStatus_agrees no_json "h" (T0 + Hour) committed_1.1 status) as (_ & Ht & _ & _ & _ & _ & _ & Hk & _).
  - exact reach_committed_1.
  - exact E.
  - split; [exact Hc|]. split; [|exact Ht]. destruct (Hk "course_catalog") as [Hv _]. apply Hv. rewrite Hc. reflexivity.
Defined.

Example trigger_token :
  hasBearerToken "Bearer s3cret" "s3cret" = true ∧ hasBearerToken "Bearer s3creT" "s3cret" = false ∧
  hasBearerToken "bearer s3cret" "s3cret" = false ∧ hasBearerToken "Bearer " "" = false.
Proof. vm_compute. done. Qed.

(** Four requests in eleven seconds, one of them while another collects. *)
Example collections :
  metrics_times 0 [(false, 100 * Second); (false, 104 * Second); (true, 106 * Second); (false, 107 * Second); (false, 111 * Second)] =
    [100 * Second; 107 * Second].
Proof. vm_compute. reflexivity. Qed.
