(* ===== verification/WebSocket.v ===== *)
(** The WebSocket of the browser ([internal/api/websocket.go]): the slots that bound the number
    of connections, and what one connection sends: the state of the rooms and the snapshots,
    then the events of the hub, but no version of a snapshot the client has already seen.

    A slot is taken by a loop of a load and a compare-and-swap; connections are interleaved at
    these operations.  The bytes of an event (JSON) are left out: a message is the event.

    Theorems about the WebSocket: the slots are never overrun and never leak, and a client sees
    each snapshot's versions in order, none twice and none missed. *)

From stdpp Require Import base list numbers strings gmap relations sorting.
From Stdlib Require Import ZArith Lia.
From S2P Require Import Prelude Domain Canonical EventHub.

Local Open Scope Z_scope.
Local Open Scope stdpp_scope.
Local Open Scope go_scope.

(** * Slots *)

(** Where a request is: before its load, between load and swap, refused, with a slot, over. *)
Inductive SlotPc :=
| SlotStart
| SlotLoaded (current : Z)
| SlotRefused
| SlotHeld
| SlotReleased.

Record WsSlots := {
  wsConnCount : Z;
  ws_Requests : list SlotPc
}.

(** One operation of a request. *)
Definition slot_turn (maximum count : Z) (pc : SlotPc) : option (Z * SlotPc) :=
  match pc with
  | SlotStart =>
      if maximum <=? 0 then Some (count, SlotRefused)
      else if maximum <=? count then Some (count, SlotRefused) else Some (count, SlotLoaded count)
  | SlotLoaded current => if count =? current then Some (current + 1, SlotHeld) else Some (count, SlotStart)
  | SlotHeld => Some (count - 1, SlotReleased)
  | SlotRefused | SlotReleased => None
  end.

Definition slot_op (maximum : Z) (i : nat) (s : WsSlots) : option WsSlots :=
  pc ← ws_Requests s !! i;
  '(count, pc') ← slot_turn maximum (wsConnCount s) pc;
  Some {| wsConnCount := count; ws_Requests := <[i := pc']> (ws_Requests s) |}.

Definition slot_step (maximum : Z) (s s' : WsSlots) : Prop := ∃ i, slot_op maximum i s = Some s'.

Definition slots_start (requests : nat) : WsSlots := {| wsConnCount := 0; ws_Requests := repeat SlotStart requests |}.

(** * One connection *)

Definition websocketSnapshotKey (md : SnapshotMetadata) : string :=
  kind_string (md_Kind md) +:+ nul_str +:+ md_ParentKey md +:+ nul_str +:+ md_ResourceKey md.

(** The data of an event: a snapshot's metadata, a pointer to one, or anything else. *)
Inductive EventData (D : Type) :=
| DataSnapshot (md : SnapshotMetadata)
| DataSnapshotPtr (md : option SnapshotMetadata)
| DataOther (d : D).
Arguments DataSnapshot {D} md.
Arguments DataSnapshotPtr {D} md.
Arguments DataOther {D} d.

Section connection.
Context {D R : Type}.

Definition snapshotMetadataFromEvent (data : EventData D) : option SnapshotMetadata :=
  match data with
  | DataSnapshot md => Some md
  | DataSnapshotPtr md => md
  | DataOther _ => None
  end.

Inductive WsMessage :=
| FullStateSync (rooms : R)
| SnapshotStateSync (snapshots : list SnapshotMetadata)
| WsEvent (e : AppEvent (EventData D)).

Definition see_version (versions : gmap string Z) (md : SnapshotMetadata) : gmap string Z :=
  if default 0 (versions !! websocketSnapshotKey md) <? md_Version md
  then <[websocketSnapshotKey md := md_Version md]> versions else versions.

(** One event: the versions seen, and the event when it is sent. *)
Definition ws_event (versions : gmap string Z) (e : AppEvent (EventData D)) : gmap string Z * option (AppEvent (EventData D)) :=
  if bool_decide (ev_Type e = "SnapshotCommitted") then
    match snapshotMetadataFromEvent (ev_Data e) with
    | None => (versions, None)
    | Some md =>
        if md_Version md <=? default 0 (versions !! websocketSnapshotKey md) then (versions, None)
        else (<[websocketSnapshotKey md := md_Version md]> versions, Some e)
    end
  else (versions, Some e).

(** The loop over the events of the subscription: it ends when the channel or the context does,
    and at the first write that fails; [writes] are the results of the writes. *)
Fixpoint ws_loop (versions : gmap string Z) (events : list (AppEvent (EventData D))) (writes : list bool)
    : list (AppEvent (EventData D)) :=
  match events with
  | [] => []
  | e :: events' =>
      match ws_event versions e with
      | (versions', None) => ws_loop versions' events' writes
      | (versions', Some e) =>
          match writes with
          | true :: writes' => e :: ws_loop versions' events' writes'
          | _ => []
          end
      end
  end.

(** What a connection sees.  [None] for the metadata is a handler without a snapshot store. *)
Record WsEnv := {
  we_Slot : bool;
  we_Accepted : bool;
  we_Hub : bool;
  we_Rooms : R;
  we_Metadata : option (result string (list SnapshotMetadata));
  we_Events : list (AppEvent (EventData D));
  we_Writes : list bool
}.

Inductive WsEnd := WsTooMany | WsNotAccepted | WsNoHub | WsNoState | WsServed.

(** How a connection ends, whether activity was recorded, and the messages written. *)
Definition wsHandlerWithSnapshots (env : WsEnv) : WsEnd * bool * list WsMessage :=
  if negb (we_Slot env) then (WsTooMany, false, [])
  else if negb (we_Accepted env) then (WsNotAccepted, false, [])
  else if negb (we_Hub env) then (WsNoHub, true, [])
  else
    match we_Metadata env with
    | Some (Err _) => (WsNoState, true, [])
    | metadata =>
        let snapshots := match metadata with Some (Ok l) => l | _ => [] end in
        let versions := foldl see_version ∅ snapshots in
        let full := FullStateSync (we_Rooms env) in
        match we_Writes env with
        | true :: writes =>
            match metadata with
            | None => (WsServed, true, full :: map WsEvent (ws_loop versions (we_Events env) writes))
            | Some _ =>
                match writes with
                | true :: writes => (WsServed, true, full :: SnapshotStateSync snapshots :: map WsEvent (ws_loop versions (we_Events env) writes))
                | _ => (WsServed, true, [full])
                end
            end
        | _ => (WsServed, true, [])
        end
    end.
End connection.

(** * Slots *)

Definition is_held (pc : SlotPc) : bool := match pc with SlotHeld => true | _ => false end.
Definition slot_weight (pc : SlotPc) : Z := if is_held pc then 1 else 0.
Fixpoint held_slots (l : list SlotPc) : Z :=
  match l with [] => 0 | pc :: l' => slot_weight pc + held_slots l' end.

Lemma held_slots_insert l : ∀ i pc pc', l !! i = Some pc →
  held_slots (<[i := pc']> l) = held_slots l - slot_weight pc + slot_weight pc'.
Proof.
  induction l as [|x l IH]; intros [|i] pc pc' Hi; try done; cbn in Hi.
  - injection Hi as ->. change (<[0%nat := pc']> (pc :: l)) with (pc' :: l). cbn [held_slots]. lia.
  - change (<[S i := pc']> (x :: l)) with (x :: <[i := pc']> l). cbn [held_slots]. rewrite (IH i pc pc' Hi). lia.
Qed.

Record slots_ok (maximum : Z) (s : WsSlots) : Prop := {
  so_count : wsConnCount s = held_slots (ws_Requests s);
  so_bound : 0 ≤ wsConnCount s ≤ Z.max 0 maximum;
  so_loaded : ∀ i current, ws_Requests s !! i = Some (SlotLoaded current) → 0 ≤ current < maximum
}.

Lemma held_slots_repeat n : held_slots (repeat SlotStart n) = 0.
Proof. induction n; cbn; [done|]. by rewrite IHn. Qed.

Lemma held_slots_pos l i : l !! i = Some SlotHeld → 1 ≤ held_slots l.
Proof.
  assert (Hn : ∀ l, 0 ≤ held_slots l).
  { intros k. induction k as [|x k IH]; cbn [held_slots]; [lia|]. destruct x; cbn [slot_weight is_held]; unfold slot_weight; cbn [is_held]; lia. }
  revert i. induction l as [|x l IH]; intros [|i] Hi; try done; cbn in Hi; cbn [held_slots].
  - injection Hi as ->. specialize (Hn l). unfold slot_weight. cbn [is_held]. lia.
  - specialize (IH i Hi). unfold slot_weight. destruct x; cbn [is_held]; lia.
Qed.

Lemma slot_step_ok maximum s s' : slot_step maximum s s' → slots_ok maximum s → slots_ok maximum s'.
Proof.
  intros [i E] [Hc Hb Hl]. unfold slot_op in E. destruct (ws_Requests s !! i) as [pc|] eqn:Hi; [|done]. cbn in E.
  destruct (slot_turn maximum (wsConnCount s) pc) as [[count pc']|] eqn:Et; [|done]. cbn in E. injection E as <-.
  pose proof (held_slots_insert _ i pc pc' Hi) as Hh.
  assert (Hrest : ∀ j current, <[i := pc']> (ws_Requests s) !! j = Some (SlotLoaded current) →
    (j = i ∧ pc' = SlotLoaded current) ∨ 0 ≤ current < maximum).
  { intros j current Hj. destruct (decide (j = i)) as [->|Hne].
    - left. rewrite list_lookup_insert_eq in Hj by (by eapply lookup_lt_Some). by injection Hj.
    - right. rewrite list_lookup_insert_ne in Hj by done. by eapply Hl. }
  destruct pc as [|current| | |]; cbn in Et; try done.
  - destruct (Z.leb_spec maximum 0); [injection Et as <- <-|destruct (Z.leb_spec maximum (wsConnCount s)); injection Et as <- <-];
      (split; cbn in *; [lia|lia|]); intros j c Hj; destruct (Hrest j c Hj) as [[-> Hp]|?]; try done.
    injection Hp as <-. lia.
  - pose proof (Hl i current Hi) as Hcur.
    destruct (Z.eqb_spec (wsConnCount s) current); injection Et as <- <-; (split; cbn in *; [lia|lia|]);
      intros j c Hj; by destruct (Hrest j c Hj) as [[-> Hp]|?].
  - injection Et as <- <-. pose proof (held_slots_pos _ i Hi). split; cbn in *; [lia|lia|].
    intros j c Hj. by destruct (Hrest j c Hj) as [[-> Hp]|?].
Qed.

(** However requests load, swap and leave: the count is the number of open connections, and it
    never passes the maximum. *)
Lemma slots_bounded maximum requests s :
  rtc (slot_step maximum) (slots_start requests) s →
  wsConnCount s = held_slots (ws_Requests s) ∧ 0 ≤ wsConnCount s ≤ Z.max 0 maximum.
Proof.
  intros Hr. assert (Hok : slots_ok maximum s).
  { assert (H0 : slots_ok maximum (slots_start requests)).
    { split; cbn; [by rewrite held_slots_repeat|lia|]. intros i c Hi. exfalso.
      assert (Hin : SlotLoaded c ∈ repeat SlotStart requests) by (by eapply list_elem_of_lookup_2).
      apply list_elem_of_In, repeat_spec in Hin. done. }
    induction Hr as [|s1 s2 s3 Hst _ IH]; [done|]. apply IH. by eapply slot_step_ok. }
  destruct Hok. done.
Qed.

(** * The stream of one connection *)

Section stream.
Context {D R : Type}.
Implicit Types e : AppEvent (EventData D).

(** The snapshot an event announces. *)
Definition announced (e : AppEvent (EventData D)) : option SnapshotMetadata :=
  if bool_decide (ev_Type e = "SnapshotCommitted") then snapshotMetadataFromEvent (ev_Data e) else None.

Definition is_snapshot_event (e : AppEvent (EventData D)) : bool := bool_decide (ev_Type e = "SnapshotCommitted").

(** The versions of one snapshot among the events, in order. *)
Definition version_of (k : string) (e : AppEvent (EventData D)) : option Z :=
  md ← announced e; if bool_decide (websocketSnapshotKey md = k) then Some (md_Version md) else None.
Definition versions_of (k : string) (es : list (AppEvent (EventData D))) : list Z := omap (version_of k) es.

Definition seen (versions : gmap string Z) (k : string) : Z := default 0 (versions !! k).

Lemma see_version_seen versions md k :
  seen (see_version versions md) k =
    if bool_decide (websocketSnapshotKey md = k) then Z.max (seen versions k) (md_Version md) else seen versions k.
Proof.
  unfold see_version, seen. case_bool_decide as Hk.
  - subst k. destruct (Z.ltb_spec (default 0 (versions !! websocketSnapshotKey md)) (md_Version md)); [rewrite lookup_insert_eq; cbn; lia|lia].
  - destruct (Z.ltb_spec (default 0 (versions !! websocketSnapshotKey md)) (md_Version md)); [by rewrite lookup_insert_ne|done].
Qed.

Lemma see_versions_seen snapshots : ∀ versions k,
  seen versions k ≤ seen (foldl see_version versions snapshots) k ∧
  (∀ md, md ∈ snapshots → websocketSnapshotKey md = k → md_Version md ≤ seen (foldl see_version versions snapshots) k) ∧
  (seen (foldl see_version versions snapshots) k = seen versions k ∨
   ∃ md, md ∈ snapshots ∧ websocketSnapshotKey md = k ∧ seen (foldl see_version versions snapshots) k = md_Version md).
Proof.
  induction snapshots as [|x snapshots IH]; intros versions k; cbn [foldl].
  { split; [lia|]. split; [by intros md ?%not_elem_of_nil|by left]. }
  destruct (IH (see_version versions x) k) as (H1 & H2 & H3). pose proof (see_version_seen versions x k) as Hx.
  case_bool_decide as Hk; rewrite Hx in *.
  - split; [lia|]. split.
    + intros md [->|Hmd]%elem_of_cons Hmk; [lia|by apply H2].
    + destruct H3 as [E|(md & Hmd & Hmk & E)]; [|right; exists md; split; [by right|done]].
      destruct (Z.max_spec (seen versions k) (md_Version x)) as [[_ Em]|[_ Em]]; rewrite Em in E; [|by left].
      right. exists x. split; [by left|done].
  - split; [done|]. split.
    + intros md [->|Hmd]%elem_of_cons Hmk; [done|by apply H2].
    + destruct H3 as [E|(md & Hmd & Hmk & E)]; [by left|right; exists md; split; [by right|done]].
Qed.

(** What one event does to the versions seen. *)
Lemma ws_event_spec versions e : let '(versions', sent) := ws_event versions e in
  (sent = None ∨ sent = Some e) ∧
  (is_snapshot_event e = false → sent = Some e) ∧
  (∀ k, match sent, version_of k e with
        | Some _, Some v => seen versions k < v ∧ seen versions' k = v
        | None, Some v => v ≤ seen versions k ∧ versions' = versions
        | _, None => seen versions' k = seen versions k
        end).
Proof.
  unfold ws_event, is_snapshot_event, version_of, announced. case_bool_decide as Ht; [|by split_and!; [right| |]].
  destruct (snapshotMetadataFromEvent (ev_Data e)) as [md|]; cbn; [|by split_and!; [left| |]].
  destruct (Z.leb_spec (md_Version md) (default 0 (versions !! websocketSnapshotKey md))) as [Hle|Hlt].
  - split; [by left|]. split; [done|]. intros k. case_bool_decide as Hk; cbn; [subst k; unfold seen; by split|done].
  - split; [by right|]. split; [done|]. intros k. unfold seen. case_bool_decide as Hk; cbn.
    + subst k. by rewrite lookup_insert_eq.
    + by rewrite lookup_insert_ne.
Qed.

(** The versions sent of one snapshot grow from the one seen. *)
Lemma ws_loop_sorted events : ∀ versions writes k,
  StronglySorted Z.lt (seen versions k :: versions_of k (ws_loop versions events writes)).
Proof.
  induction events as [|e events IH]; intros versions writes k; cbn [ws_loop].
  { by repeat constructor. }
  pose proof (ws_event_spec versions e) as Hs. destruct (ws_event versions e) as [versions' sent]. destruct Hs as (Hse & _ & Hk).
  specialize (Hk k). destruct sent as [e'|].
  - destruct Hse as [?|[= ->]]; [done|]. destruct writes as [|[] writes]; [by repeat constructor| |by repeat constructor].
    unfold versions_of. cbn [omap list_omap]. specialize (IH versions' writes k).
    destruct (version_of k e) as [v|]; [|by rewrite Hk in IH].
    destruct Hk as [Hlt Hv]. rewrite Hv in IH. constructor; [exact IH|]. apply StronglySorted_inv in IH as [_ IH].
    constructor; [done|]. eapply Forall_impl; [exact IH|]. cbn. lia.
  - specialize (IH versions' writes k). destruct (version_of k e); [by destruct Hk as [_ <-]|by rewrite Hk in IH].
Qed.

(** When the writes succeed, every event that is not of a snapshot is sent, and of a snapshot
    every version is sent or an equal or newer one has been. *)
Lemma ws_loop_complete events : ∀ versions writes,
  (length events ≤ length writes)%nat → Forall (λ w, w = true) writes →
  base.filter (λ e, is_snapshot_event e = false) (ws_loop versions events writes) =
    base.filter (λ e, is_snapshot_event e = false) events ∧
  ∀ k v, v ∈ versions_of k events → ∃ w, w ∈ seen versions k :: versions_of k (ws_loop versions events writes) ∧ v ≤ w.
Proof.
  induction events as [|e events IH]; intros versions writes Hl Hw; cbn [ws_loop].
  { split; [done|]. intros k v Hv. by apply not_elem_of_nil in Hv. }
  pose proof (ws_event_spec versions e) as Hs. destruct (ws_event versions e) as [versions' sent]. destruct Hs as (Hse & Hns & Hk).
  destruct sent as [e'|].
  - destruct Hse as [?|[= ->]]; [done|]. destruct writes as [|w writes]; [cbn in Hl; lia|].
    apply Forall_cons in Hw as [-> Hw]. cbn in Hl. destruct (IH versions' writes ltac:(lia) Hw) as [I1 I2]. split.
    + rewrite !filter_cons. by rewrite I1.
    + intros k v. unfold versions_of. cbn [omap list_omap]. specialize (Hk k). specialize (I2 k v). unfold versions_of in I2.
      destruct (version_of k e) as [u|].
      * destruct Hk as [Hlt Hu]. rewrite Hu in I2. intros [->|Hv]%elem_of_cons; [exists u; split; [right; by left|lia]|].
        destruct (I2 Hv) as (x & Hx & Hle). exists x. split; [by right|done].
      * rewrite Hk in I2. exact I2.
  - assert (Esnap : is_snapshot_event e = true) by (destruct (is_snapshot_event e); [done|by specialize (Hns eq_refl)]).
    destruct (IH versions' writes ltac:(cbn in Hl; lia) Hw) as [I1 I2]. split.
    + rewrite I1, filter_cons, decide_False by congruence. done.
    + intros k v. unfold versions_of. cbn [omap list_omap]. specialize (Hk k). specialize (I2 k v). unfold versions_of in I2.
      destruct (version_of k e) as [u|].
      * destruct Hk as [Hle ->]. intros [->|Hv]%elem_of_cons; [exists (seen versions k); split; [by left|done]|by apply I2].
      * rewrite Hk in I2. exact I2.
Qed.

(** The events among the messages. *)
Definition ws_events (msgs : list (WsMessage (D := D) (R := R))) : list (AppEvent (EventData D)) :=
  omap (λ m, match m with WsEvent e => Some e | _ => None end) msgs.

Lemma ws_events_map l : ws_events (map WsEvent l) = l.
Proof. unfold ws_events. induction l as [|e l IH]; [done|]. cbn. by f_equal. Qed.

Definition store_state (env : WsEnv (D := D) (R := R)) : list SnapshotMetadata :=
  match we_Metadata env with Some (Ok l) => l | _ => [] end.

(** The state first, then the events of the loop; all of the state when the writes succeed. *)
Lemma ws_messages (env : WsEnv (D := D) (R := R)) msgs :
  wsHandlerWithSnapshots env = (WsServed, true, msgs) →
  let versions := foldl see_version ∅ (store_state env) in
  ∃ pre rest, msgs = pre ++ map WsEvent rest ∧ ws_events pre = [] ∧
    (rest = [] ∨ ∃ writes, rest = ws_loop versions (we_Events env) writes) ∧
    (Forall (λ w, w = true) (we_Writes env) → (length (we_Events env) + 2 ≤ length (we_Writes env))%nat →
       head pre = Some (FullStateSync (we_Rooms env)) ∧
       (is_Some (we_Metadata env) → pre !! 1%nat = Some (SnapshotStateSync (store_state env))) ∧
       ∃ writes, rest = ws_loop versions (we_Events env) writes ∧ (length (we_Events env) ≤ length writes)%nat ∧
         Forall (λ w, w = true) writes).
Proof.
  intros E versions. unfold wsHandlerWithSnapshots in E. unfold versions, store_state. clear versions.
  destruct (we_Slot env), (we_Accepted env), (we_Hub env); try done. cbn [negb] in E.
  assert (Hstop : ∀ pre (versions : gmap string Z), ws_events pre = [] →
    (Forall (λ w, w = true) (we_Writes env) → (length (we_Events env) + 2 ≤ length (we_Writes env))%nat → False) →
    ∃ pre' rest, pre = pre' ++ map WsEvent rest ∧ ws_events pre' = [] ∧
      (rest = [] ∨ ∃ writes, rest = ws_loop versions (we_Events env) writes) ∧
      (Forall (λ w, w = true) (we_Writes env) → (length (we_Events env) + 2 ≤ length (we_Writes env))%nat →
         head pre' = Some (FullStateSync (we_Rooms env)) ∧
         (is_Some (we_Metadata env) → pre' !! 1%nat = Some (SnapshotStateSync (match we_Metadata env with Some (Ok l) => l | _ => [] end))) ∧
         ∃ writes, rest = ws_loop versions (we_Events env) writes ∧ (length (we_Events env) ≤ length writes)%nat ∧
           Forall (λ w, w = true) writes)).
  { intros pre versions Hp Hf. exists pre, []. cbn [map]. rewrite app_nil_r. split_and!; [done|done|by left|].
    intros Hw Hl. by destruct (Hf Hw Hl). }
  destruct (we_Metadata env) as [[l|err]|] eqn:Em; [|done|]; cbv zeta in E.
  - destruct (we_Writes env) as [|[] [|[] writes]] eqn:Ew; injection E as <-;
      try (apply Hstop; [done|]; intros Hw Hl; cbn in Hl; repeat (apply Forall_cons in Hw as [? Hw]); first [done|lia]).
    exists [FullStateSync (we_Rooms env); SnapshotStateSync l], (ws_loop (foldl see_version ∅ l) (we_Events env) writes).
    split_and!; [done|done|right; by exists writes|]. intros Hw Hl. do 2 apply Forall_cons in Hw as [_ Hw]. cbn in Hl.
    split_and!; [done|done|]. exists writes. split_and!; [done|lia|done].
  - destruct (we_Writes env) as [|[] writes] eqn:Ew; injection E as <-;
      try (apply Hstop; [done|]; intros Hw Hl; cbn in Hl; repeat (apply Forall_cons in Hw as [? Hw]); first [done|lia]).
    exists [FullStateSync (we_Rooms env)], (ws_loop (foldl see_version ∅ []) (we_Events env) writes).
    split_and!; [done|done|right; by exists writes|]. intros Hw Hl. apply Forall_cons in Hw as [_ Hw]. cbn in Hl.
    split_and!; [done|by intros [? ?]|]. exists writes. split_and!; [done|lia|done].
Qed.

(** C27: what a browser sees.  A served connection first sends the state of the rooms and, with
    a snapshot store, of the snapshots.  Of each snapshot it then sends versions that grow
    strictly, starting above the newest one of the state, whatever the hub delivers and however
    the writes go; and while the writes succeed it sends every other event, in order, and for
    every announced version that one or an equal or newer one. *)
Theorem websocket_stream (env : WsEnv (D := D) (R := R)) msgs :
  wsHandlerWithSnapshots env = (WsServed, true, msgs) →
  let snapshots := store_state env in
  let sent := ws_events msgs in
  let state k := seen (foldl see_version ∅ snapshots) k in
  (∀ k, (∀ md, md ∈ snapshots → websocketSnapshotKey md = k → md_Version md ≤ state k) ∧
        (state k = 0 ∨ ∃ md, md ∈ snapshots ∧ websocketSnapshotKey md = k ∧ md_Version md = state k) ∧
        StronglySorted Z.lt (state k :: versions_of k sent)) ∧
  (Forall (λ w, w = true) (we_Writes env) → (length (we_Events env) + 2 ≤ length (we_Writes env))%nat →
     head msgs = Some (FullStateSync (we_Rooms env)) ∧
     (is_Some (we_Metadata env) → msgs !! 1%nat = Some (SnapshotStateSync snapshots)) ∧
     base.filter (λ e, is_snapshot_event e = false) sent = base.filter (λ e, is_snapshot_event e = false) (we_Events env) ∧
     ∀ k v, v ∈ versions_of k (we_Events env) → ∃ w, w ∈ state k :: versions_of k sent ∧ v ≤ w).
Proof.
  intros E snapshots sent state. destruct (ws_messages env msgs E) as (pre & rest & -> & Hpre & Hrest & Hall).
  assert (Es : sent = rest).
  { unfold sent, ws_events. rewrite omap_app. fold (ws_events pre). rewrite Hpre. apply ws_events_map. }
  clearbody sent. subst sent. split.
  - intros k. destruct (see_versions_seen snapshots ∅ k) as (_ & H2 & H3). split_and!; [done| |].
    + destruct H3 as [H3|(md & Hm & Hk & Hv)]; [left; unfold state; by rewrite H3|right; by exists md].
    + destruct Hrest as [->|[writes ->]]; [by repeat constructor|apply ws_loop_sorted].
  - intros Hw Hl. destruct (Hall Hw Hl) as (Hh & Hm & writes & -> & Hlw & Hww).
    destruct (ws_loop_complete (we_Events env) (foldl see_version ∅ snapshots) writes Hlw Hww) as [C1 C2].
    split_and!; [by destruct pre| |done|done].
    intros Hs. specialize (Hm Hs). rewrite lookup_app_l; [done|by eapply lookup_lt_Some].
Qed.
End stream.

(** * A connection, and the slots *)

Definition page_md (key : string) (v : Z) : SnapshotMetadata :=
  {| md_Kind := SnapshotCourseDetail; md_ResourceKey := key; md_ParentKey := ""; md_Version := v; md_ValidationSeq := v;
     md_ValidatedAt := 1; md_Stale := false; md_QualityState := DataQualityVerifiedFresh; md_Complete := true;
     md_ParserVersion := ""; md_EventSequence := 0 |}.

Definition page_event (key : string) (v : Z) : AppEvent (EventData nat) :=
  {| ev_Type := "SnapshotCommitted"; ev_Data := DataSnapshot (page_md key v) |}.

(** The hub repeats a version the state holds, and delivers one out of order. *)
Definition page_env : WsEnv (D := nat) (R := nat) :=
  {| we_Slot := true; we_Accepted := true; we_Hub := true; we_Rooms := 0%nat; we_Metadata := Some (Ok [page_md "a" 3; page_md "b" 1]);
     we_Events := [page_event "a" 3; {| ev_Type := "RoomUpdated"; ev_Data := DataOther 7%nat |}; page_event "a" 5; page_event "a" 4;
                   page_event "b" 2];
     we_Writes := repeat true 9 |}.

Definition page_messages : list (WsMessage (D := nat) (R := nat)) := (wsHandlerWithSnapshots page_env).2.

Lemma websocket_stream_witness :
  versions_of (websocketSnapshotKey (page_md "a" 0)) (ws_events page_messages) = [5] ∧
  versions_of (websocketSnapshotKey (page_md "b" 0)) (ws_events page_messages) = [2] ∧
  head page_messages = Some (FullStateSync 0%nat).
Proof.
  destruct (websocket_stream page_env page_messages) as [_ Hall]; [vm_compute; reflexivity|].
  destruct Hall as (Hh & _); [repeat constructor|cbn; lia|].
  split; [vm_compute; reflexivity|]. split; [vm_compute; reflexivity|exact Hh].
Defined.

(** Two requests load the count before either swaps: one gets the only slot, the other has to
    load again and is refused. *)
Example one_slot :
  foldl (λ s i, s ≫= slot_op 1 i) (Some (slots_start 2)) [0; 1; 0; 1; 1]%nat =
    Some {| wsConnCount := 1; ws_Requests := [SlotHeld; SlotRefused] |}.
Proof. vm_compute. reflexivity. Qed.
