(* ===== verification/Http.v ===== *)
(** The HTTP layer around the handlers ([internal/api/routes.go], [internal/api/handlers.go]):
    the response writer of net/http, the writer that compresses, cross-origin headers, the query
    of internal requests, the activity of admitted requests and the files of the front end.

    A handler is seen through the operations it makes on its response writer, in order.
    [compress/gzip] and [http.DetectContentType] are parameters, and so is the file system. *)

From stdpp Require Import base list numbers strings gmap.
From Stdlib Require Import ZArith Lia.
From S2P Require Import Prelude Sanitize Upstream Status.

Local Open Scope Z_scope.
Local Open Scope stdpp_scope.
Local Open Scope go_scope.

(** * Headers and the response writer of net/http *)

(** Keys are canonical, as the handlers write them. *)
Definition Header : Type := gmap string (list string).

Definition header_Set (k v : string) (h : Header) : Header := <[k := [v]]> h.
Definition header_Add (k v : string) (h : Header) : Header := <[k := default [] (h !! k) ++ [v]]> h.
Definition header_Del (k : string) (h : Header) : Header := delete k h.
Definition header_Get (k : string) (h : Header) : string := default "" (h !! k ≫= head).

(** What was sent: informational statuses, the final status with the headers it went with, and
    the bytes of the body. *)
Record NetWriter := {
  nw_Header : Header;
  nw_Informational : list Z;
  nw_Sent : option (Z * Header);
  nw_Body : list nat
}.

Definition net_new : NetWriter := {| nw_Header := ∅; nw_Informational := []; nw_Sent := None; nw_Body := [] |}.

Definition net_set_header (f : Header → Header) (w : NetWriter) : NetWriter :=
  {| nw_Header := f (nw_Header w); nw_Informational := nw_Informational w; nw_Sent := nw_Sent w; nw_Body := nw_Body w |}.

Definition informational (status : Z) : bool := (status <? 200) && negb (status =? 101).

(** The first final status counts, with the headers as they are then. *)
Definition net_WriteHeader (status : Z) (w : NetWriter) : NetWriter :=
  match nw_Sent w with
  | Some _ => w
  | None =>
      if informational status then
        {| nw_Header := nw_Header w; nw_Informational := nw_Informational w ++ [status]; nw_Sent := None; nw_Body := nw_Body w |}
      else {| nw_Header := nw_Header w; nw_Informational := nw_Informational w; nw_Sent := Some (status, nw_Header w);
              nw_Body := nw_Body w |}
  end.

Definition body_allowed (status : Z) : bool := negb ((status <? 200) || (status =? 204) || (status =? 304)).

Definition net_Write (payload : list nat) (w : NetWriter) : NetWriter :=
  let w := net_WriteHeader 200 w in
  match nw_Sent w with
  | Some (status, _) =>
      if body_allowed status then
        {| nw_Header := nw_Header w; nw_Informational := nw_Informational w; nw_Sent := nw_Sent w; nw_Body := nw_Body w ++ payload |}
      else w
  | None => w
  end.

Definition net_Flush (w : NetWriter) : NetWriter := net_WriteHeader 200 w.

(** What a handler does to its writer. *)
Inductive WriterOp :=
| OpSet (k v : string)
| OpAdd (k v : string)
| OpDel (k : string)
| OpWriteHeader (status : Z)
| OpWrite (payload : list nat)
| OpFlush.

Definition net_op (w : NetWriter) (op : WriterOp) : NetWriter :=
  match op with
  | OpSet k v => net_set_header (header_Set k v) w
  | OpAdd k v => net_set_header (header_Add k v) w
  | OpDel k => net_set_header (header_Del k) w
  | OpWriteHeader status => net_WriteHeader status w
  | OpWrite payload => net_Write payload w
  | OpFlush => net_Flush w
  end.

(** The server sends 200 for a handler that returns without a status. *)
Definition net_serve (ops : list WriterOp) (w : NetWriter) : NetWriter := net_WriteHeader 200 (foldl net_op w ops).

(** * Compression *)

Inductive GzOp :=
| GzWrite (payload : list nat)
| GzFlush
| GzClose.

Section gzip.
Context (ToLower : string → string).
(** [http.DetectContentType], and the bytes a gzip writer with a history puts out for one
    operation. *)
Context (detect : list nat → string) (gz_out : list GzOp → GzOp → list nat).

Definition compressible_types : list string :=
  ["application/json"; "application/javascript"; "text/javascript"; "text/css"; "text/html"; "application/openmetrics-text"].

(** The text before the first byte [c]. *)
Fixpoint before_byte (c : nat) (l : list nat) : list nat :=
  match l with [] => [] | b :: l' => if (b =? c)%nat then [] else b :: before_byte c l' end.

Definition compressibleContentType (contentType : string) : bool :=
  let mimeType := ToLower (TrimSpace (string_of_bytes (before_byte 59 (bytes_of contentType)))) in
  bool_decide (mimeType ∈ compressible_types) || has_prefix "text/" mimeType.

(** [gw_gz] is the history of the gzip writer once there is one. *)
Record gzipResponseWriter := {
  gw_Net : NetWriter;
  gw_gz : option (list GzOp);
  gw_status : Z;
  gw_headerSent : bool;
  gw_passthrough : bool
}.

Definition gzip_new (w : NetWriter) : gzipResponseWriter :=
  {| gw_Net := w; gw_gz := None; gw_status := 0; gw_headerSent := false; gw_passthrough := false |}.

Definition on_net (f : NetWriter → NetWriter) (w : gzipResponseWriter) : gzipResponseWriter :=
  {| gw_Net := f (gw_Net w); gw_gz := gw_gz w; gw_status := gw_status w; gw_headerSent := gw_headerSent w;
     gw_passthrough := gw_passthrough w |}.

Definition set_passthrough (w : gzipResponseWriter) : gzipResponseWriter :=
  {| gw_Net := gw_Net w; gw_gz := gw_gz w; gw_status := gw_status w; gw_headerSent := gw_headerSent w; gw_passthrough := true |}.

Definition forwardHeader (w : gzipResponseWriter) : gzipResponseWriter :=
  if gw_headerSent w then w
  else
    let status := if gw_status w =? 0 then 200 else gw_status w in
    {| gw_Net := net_WriteHeader status (gw_Net w); gw_gz := gw_gz w; gw_status := gw_status w; gw_headerSent := true;
       gw_passthrough := gw_passthrough w |}.

Definition gzip_WriteHeader (status : Z) (w : gzipResponseWriter) : gzipResponseWriter :=
  if gw_headerSent w then w
  else
    let w := {| gw_Net := gw_Net w; gw_gz := gw_gz w; gw_status := status; gw_headerSent := false;
                gw_passthrough := gw_passthrough w |} in
    if (status <? 200) || (status =? 204) || (status =? 304)
         || bool_decide (header_Get "Content-Encoding" (nw_Header (gw_Net w)) ≠ "")
    then forwardHeader (set_passthrough w) else w.

Definition compressed_header (h : Header) : Header :=
  header_Add "Vary" "Accept-Encoding" (header_Set "Content-Encoding" "gzip" (header_Del "Content-Length" h)).

Definition startGzip (payload : list nat) (w : gzipResponseWriter) : gzipResponseWriter :=
  let contentType := header_Get "Content-Type" (nw_Header (gw_Net w)) in
  let contentType := if bool_decide (contentType = "") then detect payload else contentType in
  if negb (compressibleContentType contentType) then forwardHeader (set_passthrough w)
  else
    forwardHeader
      {| gw_Net := net_set_header compressed_header (gw_Net w); gw_gz := Some []; gw_status := gw_status w;
         gw_headerSent := gw_headerSent w; gw_passthrough := gw_passthrough w |}.

(** One operation of the gzip writer, whose output goes to the response. *)
Definition gz_do (op : GzOp) (w : gzipResponseWriter) : gzipResponseWriter :=
  match gw_gz w with
  | None => w
  | Some history =>
      {| gw_Net := net_Write (gz_out history op) (gw_Net w); gw_gz := Some (history ++ [op]); gw_status := gw_status w;
         gw_headerSent := gw_headerSent w; gw_passthrough := gw_passthrough w |}
  end.

Definition gzip_Write (payload : list nat) (w : gzipResponseWriter) : gzipResponseWriter :=
  if gw_passthrough w then on_net (net_Write payload) w
  else
    let w := match gw_gz w with None => startGzip payload w | Some _ => w end in
    if gw_passthrough w then on_net (net_Write payload) w
    else gz_do (GzWrite payload) w.

Definition gzip_Flush (w : gzipResponseWriter) : gzipResponseWriter :=
  let w := match gw_gz w with
           | Some _ => gz_do GzFlush w
           | None => if negb (gw_passthrough w) && negb (gw_headerSent w) then forwardHeader (set_passthrough w) else w
           end in
  on_net net_Flush w.

Definition gzip_close (w : gzipResponseWriter) : gzipResponseWriter :=
  match gw_gz w with
  | Some _ => gz_do GzClose w
  | None => if negb (gw_headerSent w) then forwardHeader w else w
  end.

Definition gzip_op (w : gzipResponseWriter) (op : WriterOp) : gzipResponseWriter :=
  match op with
  | OpSet k v => on_net (net_set_header (header_Set k v)) w
  | OpAdd k v => on_net (net_set_header (header_Add k v)) w
  | OpDel k => on_net (net_set_header (header_Del k)) w
  | OpWriteHeader status => gzip_WriteHeader status w
  | OpWrite payload => gzip_Write payload w
  | OpFlush => gzip_Flush w
  end.

(** A request with the value of its Accept-Encoding header. *)
Definition gzipMiddleware (acceptEncoding : string) (ops : list WriterOp) (w : NetWriter) : NetWriter :=
  if negb (Contains "gzip" (bytes_of (ToLower acceptEncoding))) then net_serve ops w
  else net_WriteHeader 200 (gw_Net (gzip_close (foldl gzip_op (gzip_new w) ops))).
End gzip.

(** * Internal requests and cross-origin headers *)

Record HttpRequest := {
  rq_Method : string;
  rq_Path : string;
  rq_RawQuery : string;
  rq_Origin : string
}.

Definition internal_path (path : string) : bool := has_prefix "/api/internal/" path.

(** The request the next handler gets. *)
Definition redactInternalQueryBeforeLogging (r : HttpRequest) : HttpRequest :=
  if negb (internal_path (rq_Path r)) || bool_decide (rq_RawQuery r = "") then r
  else {| rq_Method := rq_Method r; rq_Path := rq_Path r; rq_RawQuery := ""; rq_Origin := rq_Origin r |}.

Definition preflight_headers : list WriterOp :=
  [OpSet "Access-Control-Allow-Methods" "GET, POST, PUT, DELETE, OPTIONS"; OpSet "Access-Control-Allow-Headers" "Content-Type";
   OpSet "Access-Control-Max-Age" "86400"].

(** The operations on the writer: those of the next handler come last, unless it is not called. *)
Definition corsMiddleware (corsOrigin : string) (r : HttpRequest) (next : list WriterOp) : list WriterOp :=
  if internal_path (rq_Path r) then next
  else if bool_decide (corsOrigin = "") then next
  else
    let allowed :=
      if bool_decide (corsOrigin = "*") then Some [OpSet "Access-Control-Allow-Origin" "*"]
      else if bool_decide (rq_Origin r = corsOrigin) then
        Some [OpSet "Access-Control-Allow-Origin" (rq_Origin r); OpAdd "Vary" "Origin";
              OpSet "Access-Control-Allow-Credentials" "true"]
      else None in
    match allowed with
    | None => next
    | Some ops =>
        ops ++ preflight_headers ++
        (if bool_decide (rq_Method r = "OPTIONS") then [OpWriteHeader 200] else next)
    end.

(** * Activity of admitted requests *)

Definition routeClass (path : string) : string :=
  if bool_decide (path = "/api/rooms") || bool_decide (path = "/api/rooms/") then "rooms_list"
  else if has_prefix "/api/rooms/" path then
    if negb (Contains "/" (bytes_of (TrimPrefix "/api/rooms/" path))) then "room_detail" else "rooms_other"
  else if has_prefix "/api/teacher" path then "teacher"
  else "other".

(** What the handler did to the recording writer: statuses and the lengths the writes below
    returned. *)
Inductive RecorderOp := RecWriteHeader (status : Z) | RecWrite (n : Z).

Record responseStatusRecorder := { rs_status : Z; rs_bytes : Z }.

Definition recorder_op (s : responseStatusRecorder) (op : RecorderOp) : responseStatusRecorder :=
  match op with
  | RecWriteHeader status => {| rs_status := status; rs_bytes := rs_bytes s |}
  | RecWrite n => {| rs_status := if rs_status s =? 0 then 200 else rs_status s; rs_bytes := rs_bytes s + n |}
  end.

Definition recorded (ops : list RecorderOp) : responseStatusRecorder :=
  foldl recorder_op {| rs_status := 0; rs_bytes := 0 |} ops.

Inductive ActivityCall :=
| CallBeginActivity
| CallFinish (success : bool)
| CallRecordActivity
| CallCountBytes (class : string) (n : Z).

(** No recorder, one that only records, or one that tracks requests with leases. *)
Inductive RecorderKind := NoRecorder | PlainRecorder | TrackingRecorder.

(** The calls made before, and after the handler.  A panic unwinds before the second deferred
    function is registered. *)
Definition admittedActivityMiddleware (recorder : RecorderKind) (path : string) (ops : list RecorderOp) (panics : bool)
    : list ActivityCall :=
  let s := recorded ops in
  let status := if rs_status s =? 0 then 200 else rs_status s in
  let success := (200 <=? status) && (status <? 400) in
  let begins := match recorder with TrackingRecorder => [CallBeginActivity] | _ => [] end in
  let finishes := match recorder with TrackingRecorder => [CallFinish success] | _ => [] end in
  let records := match recorder with PlainRecorder => if success then [CallRecordActivity] else [] | _ => [] end in
  begins ++ (if panics then [] else records ++ [CallCountBytes (routeClass path) (rs_bytes s)]) ++ finishes.

(** * The envelope *)

(** [writeJSON]: the operations before the encoded body. *)
Definition writeJSON (h : Header) (status : Z) (body : list nat) : list WriterOp :=
  [OpSet "Content-Type" "application/json"] ++
  (if bool_decide (header_Get "Cache-Control" h = "")
   then [OpSet "Cache-Control" "no-store, no-cache, must-revalidate, max-age=0"] else []) ++
  [OpSet "Pragma" "no-cache"; OpSet "Expires" "0"; OpWriteHeader status; OpWrite body].

(** * Files of the front end *)

(** [filepath.Clean] of a path that starts with a slash: its elements without empty ones and
    dots, each double dot taking away the element before it. *)
Fixpoint split_slash (l : list nat) (cur : list nat) : list (list nat) :=
  match l with
  | [] => [cur]
  | b :: l' => if (b =? 47)%nat then cur :: split_slash l' [] else split_slash l' (cur ++ [b])
  end.

Definition clean_step (acc : list (list nat)) (e : list nat) : list (list nat) :=
  if bool_decide (e = []) || bool_decide (e = [46%nat]) then acc
  else if bool_decide (e = [46; 46]%nat) then tail acc
  else e :: acc.

Definition clean_elements (path : string) : list (list nat) := rev (foldl clean_step [] (split_slash (bytes_of path) [])).

Definition Clean_rooted (path : string) : string :=
  match clean_elements path with
  | [] => "/"
  | es => string_of_bytes (flat_map (λ e, 47%nat :: e) es)
  end.

Inductive SpaReply := SpaNotFound | SpaIndex | SpaFile (path : string).

(** The Cache-Control header set by the code, and the file served; [missing] is whether
    [os.Stat] of a path below the directory says that it does not exist. *)
Definition spaFallbackHandler (missing : string → bool) (path : string) : option string * SpaReply :=
  let cleanPath := Clean_rooted path in
  if has_prefix "/assets/" cleanPath then
    if missing cleanPath then (None, SpaNotFound)
    else (Some "public, max-age=31536000, immutable", SpaFile path)
  else if bool_decide (cleanPath = "/") then (Some "no-cache", SpaIndex)
  else if missing cleanPath then (Some "no-cache", SpaIndex)
  else (None, SpaFile path).
