(* ===== verification/HttpSpec.v ===== *)
(** Theorems about the HTTP layer: compression is transparent, cross-origin credentials go to the
    configured origin only, activity of requests is balanced, and files stay below the front
    end's directory. *)

From stdpp Require Import base list numbers strings gmap.
From Stdlib Require Import ZArith Lia.
From S2P Require Import Prelude Sanitize Upstream Status Http.

Local Open Scope Z_scope.
Local Open Scope stdpp_scope.
Local Open Scope go_scope.

(** * The shape of a handler's operations *)

(** Headers first, at most one status, then the body. *)
Definition header_op (op : WriterOp) : bool := match op with OpSet _ _ | OpAdd _ _ | OpDel _ => true | _ => false end.
Definition body_op (op : WriterOp) : bool := match op with OpWrite _ | OpFlush => true | _ => false end.
Definition status_op (status : option Z) : list WriterOp := match status with Some s => [OpWriteHeader s] | None => [] end.

Definition payload_of (op : WriterOp) : list nat := match op with OpWrite p => p | _ => [] end.
Definition payloads (ops : list WriterOp) : list nat := flat_map payload_of ops.

Definition edit_header (h : Header) (op : WriterOp) : Header :=
  match op with OpSet k v => header_Set k v h | OpAdd k v => header_Add k v h | OpDel k => header_Del k h | _ => h end.

Definition gz_of (op : WriterOp) : GzOp := match op with OpWrite p => GzWrite p | _ => GzFlush end.
Definition gz_payload (op : GzOp) : list nat := match op with GzWrite p => p | _ => [] end.

Lemma net_header_ops hs : ∀ w, forallb header_op hs = true →
  foldl net_op w hs = net_set_header (λ h, foldl edit_header h hs) w.
Proof.
  induction hs as [|op hs IH]; intros w Hh; [by destruct w|]. cbn in Hh. apply andb_true_iff in Hh as [Ho Hh].
  cbn [foldl]. rewrite (IH _ Hh). by destruct op.
Qed.

(** A status that was sent stays. *)
Lemma net_sent_status status w : is_Some (nw_Sent w) → net_WriteHeader status w = w.
Proof. intros [x E]. unfold net_WriteHeader. by rewrite E. Qed.

Lemma net_WriteHeader_sent status w : nw_Sent w = None → 200 ≤ status →
  nw_Sent (net_WriteHeader status w) = Some (status, nw_Header w).
Proof.
  intros E Hs. unfold net_WriteHeader, informational. rewrite E. by rewrite (proj2 (Z.ltb_ge status 200)).
Qed.

Lemma net_WriteHeader_body status w : nw_Body (net_WriteHeader status w) = nw_Body w.
Proof. unfold net_WriteHeader. by destruct (nw_Sent w); [|destruct (informational status)]. Qed.

(** Writes append to the body of a status that has one. *)
Lemma net_Write_sent payload w status h : nw_Sent w = Some (status, h) → body_allowed status = true →
  net_Write payload w =
    {| nw_Header := nw_Header w; nw_Informational := nw_Informational w; nw_Sent := Some (status, h); nw_Body := nw_Body w ++ payload |}.
Proof. intros E Ha. unfold net_Write. rewrite net_sent_status by (by rewrite E). by rewrite E, Ha. Qed.

Lemma net_body_ops bs : ∀ w status h, forallb body_op bs = true → nw_Sent w = Some (status, h) → body_allowed status = true →
  foldl net_op w bs =
    {| nw_Header := nw_Header w; nw_Informational := nw_Informational w; nw_Sent := Some (status, h);
       nw_Body := nw_Body w ++ payloads bs |}.
Proof.
  induction bs as [|op bs IH]; intros w status h Hb E Ha; cbn [foldl].
  { unfold payloads. cbn. rewrite app_nil_r, <- E. by destruct w. }
  cbn in Hb. apply andb_true_iff in Hb as [Ho Hb]. destruct op as [| | | |payload|]; try done; cbn [net_op].
  - rewrite (net_Write_sent payload w status h E Ha), (IH _ status h); [|done..]. cbn. by rewrite <- app_assoc.
  - unfold net_Flush. rewrite net_sent_status by (by rewrite E). by rewrite (IH w status h).
Qed.

(** Any body operation first sends 200 when nothing was sent. *)
Lemma net_op_implicit op w : body_op op = true → net_op (net_WriteHeader 200 w) op = net_op w op.
Proof.
  intros Ho. assert (Hi : net_WriteHeader 200 (net_WriteHeader 200 w) = net_WriteHeader 200 w).
  { unfold net_WriteHeader at 2 3. destruct (nw_Sent w) eqn:E; [by rewrite net_sent_status by (by rewrite E)|done]. }
  destruct op; try done; cbn [net_op]; unfold net_Write, net_Flush; by rewrite Hi.
Qed.

Lemma net_implicit bs n : forallb body_op bs = true →
  net_WriteHeader 200 (foldl net_op n bs) = net_WriteHeader 200 (foldl net_op (net_WriteHeader 200 n) bs).
Proof.
  destruct bs as [|op bs]; intros Hb; cbn [foldl].
  - rewrite (net_sent_status 200 (net_WriteHeader 200 n)); [done|]. destruct (nw_Sent n) eqn:E.
    + by rewrite net_sent_status; rewrite E.
    + by rewrite net_WriteHeader_sent by done.
  - cbn in Hb. apply andb_true_iff in Hb as [Ho _]. by rewrite net_op_implicit.
Qed.

Lemma net_sent_stays bs : ∀ n, forallb body_op bs = true → is_Some (nw_Sent n) → nw_Sent (foldl net_op n bs) = nw_Sent n.
Proof.
  induction bs as [|op bs IH]; intros n Hb Hs; [done|]. cbn in Hb. apply andb_true_iff in Hb as [Ho Hb]. cbn [foldl].
  assert (E : nw_Sent (net_op n op) = nw_Sent n).
  { destruct op; try done; cbn; unfold net_Write, net_Flush; rewrite net_sent_status by done; [|done].
    destruct (nw_Sent n) as [[status h]|] eqn:En; [|done]. destruct (body_allowed status); [done|exact En]. }
  rewrite IH; [done|done|by rewrite E].
Qed.

Section gzip.
Context (ToLower : string → string) (detect : list nat → string) (gz_out : list GzOp → GzOp → list nat)
  (gunzip : list nat → list nat).

Notation gzip_op := (gzip_op ToLower detect gz_out).
Notation gzipMiddleware := (gzipMiddleware ToLower detect gz_out).

(** All a gzip writer puts out for a series of operations. *)
Fixpoint gz_outputs (history ops : list GzOp) : list nat :=
  match ops with [] => [] | op :: ops' => gz_out history op ++ gz_outputs (history ++ [op]) ops' end.

(** What compress/gzip promises: a stream that was closed decodes to what was written to it. *)
Definition gzip_decodes : Prop :=
  ∀ ops, forallb (λ op, match op with GzClose => false | _ => true end) ops = true →
    gunzip (gz_outputs [] (ops ++ [GzClose])) = flat_map gz_payload ops.

Lemma gz_outputs_app history ops1 : ∀ ops2, gz_outputs history (ops1 ++ ops2) = gz_outputs history ops1 ++ gz_outputs (history ++ ops1) ops2.
Proof.
  revert history. induction ops1 as [|op ops1 IH]; intros history ops2; cbn; [by rewrite app_nil_r|].
  by rewrite IH, <- !app_assoc.
Qed.

Lemma gzip_header_ops hs : ∀ w, forallb header_op hs = true →
  foldl gzip_op w hs = on_net (net_set_header (λ h, foldl edit_header h hs)) w.
Proof.
  induction hs as [|op hs IH]; intros w Hh; [by destruct w as [[] ? ? ? ?]|]. cbn in Hh. apply andb_true_iff in Hh as [Ho Hh].
  cbn [foldl]. rewrite (IH _ Hh). by destruct op.
Qed.

(** Once passing through, the writer adds nothing. *)
Lemma gzip_passes bs : ∀ w, forallb body_op bs = true → gw_passthrough w = true → gw_gz w = None →
  foldl gzip_op w bs = on_net (λ n, foldl net_op n bs) w.
Proof.
  induction bs as [|op bs IH]; intros w Hb Hp Hg; [by destruct w|]. cbn in Hb. apply andb_true_iff in Hb as [Ho Hb].
  cbn [foldl]. assert (E : gzip_op w op = on_net (λ n, net_op n op) w).
  { destruct op; try done; cbn; [unfold gzip_Write; by rewrite Hp|unfold gzip_Flush; by rewrite Hg, Hp]. }
  rewrite E. by rewrite (IH _ Hb).
Qed.

(** One operation of the gzip writer appends its output. *)
Lemma gz_do_sent op w history status h : gw_gz w = Some history → nw_Sent (gw_Net w) = Some (status, h) → body_allowed status = true →
  gz_do gz_out op w =
    {| gw_Net := {| nw_Header := nw_Header (gw_Net w); nw_Informational := nw_Informational (gw_Net w); nw_Sent := Some (status, h);
                    nw_Body := nw_Body (gw_Net w) ++ gz_out history op |};
       gw_gz := Some (history ++ [op]); gw_status := gw_status w; gw_headerSent := gw_headerSent w;
       gw_passthrough := gw_passthrough w |}.
Proof. intros Hg Hs Ha. unfold gz_do. rewrite Hg. by rewrite (net_Write_sent _ _ status h Hs Ha). Qed.

(** Once compressing, the body is the output of the gzip writer. *)
Lemma gzip_compresses bs : ∀ w history status h, forallb body_op bs = true → gw_passthrough w = false → gw_gz w = Some history →
  nw_Sent (gw_Net w) = Some (status, h) → body_allowed status = true →
  foldl gzip_op w bs =
    {| gw_Net := {| nw_Header := nw_Header (gw_Net w); nw_Informational := nw_Informational (gw_Net w); nw_Sent := Some (status, h);
                    nw_Body := nw_Body (gw_Net w) ++ gz_outputs history (map gz_of bs) |};
       gw_gz := Some (history ++ map gz_of bs); gw_status := gw_status w; gw_headerSent := gw_headerSent w;
       gw_passthrough := false |}.
Proof.
  induction bs as [|op bs IH]; intros w history status h Hb Hp Hg Hs Ha; cbn [foldl].
  { cbn. rewrite !app_nil_r, <- Hs, <- Hp, <- Hg. by destruct w as [[] ? ? ? ?]. }
  cbn in Hb. apply andb_true_iff in Hb as [Ho Hb]. cbn [map gz_outputs].
  assert (E : gzip_op w op = gz_do gz_out (gz_of op) w).
  { destruct op; try done; cbn; [unfold gzip_Write; by rewrite Hp, Hg, Hp|]. unfold gzip_Flush. rewrite Hg.
    rewrite (gz_do_sent _ w history status h Hg Hs Ha). by unfold on_net, net_Flush. }
  rewrite E, (gz_do_sent _ w history status h Hg Hs Ha), (IH _ (history ++ [gz_of op]) status h); [|done..].
  cbn. by rewrite <- !app_assoc.
Qed.

Lemma map_gz_payload bs : forallb body_op bs = true → flat_map gz_payload (map gz_of bs) = payloads bs.
Proof.
  induction bs as [|op bs IH]; intros Hb; [done|]. cbn in Hb. apply andb_true_iff in Hb as [Ho Hb].
  unfold payloads in *. cbn. rewrite (IH Hb). by destruct op.
Qed.

Lemma map_gz_open bs : forallb (λ op, match op with GzClose => false | _ => true end) (map gz_of bs) = true.
Proof. induction bs as [|op bs IH]; [done|]. cbn. rewrite IH. by destruct op. Qed.

Definition on_the_wire (w : NetWriter) : option (Z * Header) * list nat * list Z := (nw_Sent w, nw_Body w, nw_Informational w).

(** The end of a body that is compressed from the first write on. *)
Lemma gzip_body_compressed (Hgz : gzip_decodes) bs n raw status payload :
  forallb body_op bs = true → nw_Sent n = None → nw_Body n = [] → 200 ≤ status → body_allowed status = true →
  let w := {| gw_Net := net_WriteHeader status (net_set_header compressed_header n); gw_gz := Some []; gw_status := raw;
              gw_headerSent := true; gw_passthrough := false |} in
  let g := net_WriteHeader 200 (gw_Net (gzip_close gz_out (foldl gzip_op (gz_do gz_out (GzWrite payload) w) bs))) in
  nw_Sent g = Some (status, compressed_header (nw_Header n)) ∧ nw_Informational g = nw_Informational n ∧
  gunzip (nw_Body g) = payload ++ payloads bs.
Proof.
  intros Hb Hs Hbody Hst Ha w g. subst g.
  assert (Ew : nw_Sent (gw_Net w) = Some (status, compressed_header (nw_Header n))) by (by apply net_WriteHeader_sent).
  assert (Ei : nw_Informational (gw_Net w) = nw_Informational n).
  { cbn. unfold net_WriteHeader, informational. cbn. rewrite Hs. by rewrite (proj2 (Z.ltb_ge status 200)). }
  assert (Eb : nw_Body (gw_Net w) = []) by (cbn; by rewrite net_WriteHeader_body).
  pose proof (gzip_compresses (OpWrite payload :: bs) w [] status _ ltac:(done) eq_refl eq_refl Ew Ha) as E.
  cbn [foldl Http.gzip_op] in E. unfold gzip_Write in E at 1. cbn [gw_passthrough gw_gz w] in E. rewrite E. clear E.
  unfold gzip_close. cbn [gw_gz]. erewrite gz_do_sent; [|reflexivity|reflexivity|exact Ha]. rewrite net_sent_status by done.
  cbn [nw_Sent nw_Informational nw_Body gw_Net]. split; [done|]. split; [done|]. rewrite Eb.
  specialize (Hgz (map gz_of (OpWrite payload :: bs)) (map_gz_open _)).
  rewrite gz_outputs_app in Hgz. cbn [gz_outputs] in Hgz. rewrite !app_nil_r in Hgz. rewrite !app_nil_l in *. rewrite Hgz.
  by rewrite map_gz_payload.
Qed.

Definition writes_first (bs : list WriterOp) : bool := match bs with OpWrite _ :: _ => true | _ => false end.

(** The first write decides. *)
Lemma gzip_Write_first n raw payload :
  header_Get "Content-Type" (nw_Header n) ≠ "" →
  let w := {| gw_Net := n; gw_gz := None; gw_status := raw; gw_headerSent := false; gw_passthrough := false |} in
  gzip_Write ToLower detect gz_out payload w =
    if compressibleContentType ToLower (header_Get "Content-Type" (nw_Header n))
    then gz_do gz_out (GzWrite payload)
           {| gw_Net := net_WriteHeader (if raw =? 0 then 200 else raw) (net_set_header compressed_header n); gw_gz := Some [];
              gw_status := raw; gw_headerSent := true; gw_passthrough := false |}
    else on_net (net_Write payload) (forwardHeader (set_passthrough w)).
Proof.
  intros Hct w. unfold w, gzip_Write, startGzip. cbn [gw_passthrough gw_gz gw_Net].
  rewrite bool_decide_eq_false_2 by done. by destruct (compressibleContentType _ _).
Qed.

(** The body after a status that is held back until the first write. *)
Lemma gzip_staged (Hgz : gzip_decodes) n raw status bs :
  forallb body_op bs = true → nw_Sent n = None → nw_Body n = [] → status = (if raw =? 0 then 200 else raw) → 200 ≤ status →
  body_allowed status = true → header_Get "Content-Type" (nw_Header n) ≠ "" →
  let w := {| gw_Net := n; gw_gz := None; gw_status := raw; gw_headerSent := false; gw_passthrough := false |} in
  let g := net_WriteHeader 200 (gw_Net (gzip_close gz_out (foldl gzip_op w bs))) in
  let plain := net_WriteHeader 200 (foldl net_op (net_WriteHeader status n) bs) in
  nw_Informational g = nw_Informational plain ∧
  if compressibleContentType ToLower (header_Get "Content-Type" (nw_Header n)) && writes_first bs
  then nw_Sent g = Some (status, compressed_header (nw_Header n)) ∧ gunzip (nw_Body g) = nw_Body plain
  else g = plain.
Proof.
  intros Hb Hs Hbody Hraw Hst Ha Hct w g plain.
  assert (Hp : ∀ op bs', forallb body_op bs' = true →
    gw_Net (gzip_close gz_out (foldl gzip_op (on_net (λ m, net_op m op) (forwardHeader (set_passthrough w))) bs')) =
    foldl net_op (net_WriteHeader status n) (op :: bs')).
  { intros op bs' Hb'. rewrite gzip_passes by done. unfold gzip_close. cbn. by rewrite Hraw. }
  destruct bs as [|op bs].
  { rewrite andb_false_r. assert (g = plain); [|split; [congruence|done]]. subst g plain. cbn. by rewrite Hraw. }
  pose proof Hb as Hb'. cbn in Hb'. apply andb_true_iff in Hb' as [Ho Hb'].
  destruct op as [| | | |payload|]; try done.
  - cbn [writes_first]. rewrite andb_true_r. subst g w. cbn [foldl Http.gzip_op]. rewrite gzip_Write_first by done.
    destruct (compressibleContentType ToLower (header_Get "Content-Type" (nw_Header n))).
    + pose proof (gzip_body_compressed Hgz bs n raw status payload Hb' Hs Hbody Hst Ha) as (E1 & E2 & E3). rewrite <- Hraw.
      assert (Epl : plain = net_WriteHeader 200 (foldl net_op (net_WriteHeader status n) (OpWrite payload :: bs))) by done.
      erewrite net_body_ops in Epl; [|done|by apply net_WriteHeader_sent|done].
      rewrite net_sent_status in Epl by done. rewrite Epl. cbn [nw_Informational nw_Body].
      rewrite (net_WriteHeader_body status n), Hbody. split; [|split; [exact E1|exact E3]].
      rewrite E2. unfold net_WriteHeader, informational. rewrite Hs. by rewrite (proj2 (Z.ltb_ge status 200)).
    + assert (E := f_equal (net_WriteHeader 200) (Hp (OpWrite payload) bs Hb')). split; [exact (f_equal nw_Informational E)|exact E].
  - cbn [writes_first]. rewrite andb_false_r. assert (E := f_equal (net_WriteHeader 200) (Hp OpFlush bs Hb')).
    split; [exact (f_equal nw_Informational E)|exact E].
Qed.

(** Whether a response is compressed. *)
Definition compresses (acceptEncoding : string) (status : Z) (h : Header) (bs : list WriterOp) : bool :=
  Contains "gzip" (bytes_of (ToLower acceptEncoding)) && bool_decide (header_Get "Content-Encoding" h = "") &&
  body_allowed status && compressibleContentType ToLower (header_Get "Content-Type" h) && writes_first bs.

(** The headers of a compressed response against those of the handler. *)
Definition announced_gzip (h hg : Header) : Prop :=
  header_Get "Content-Encoding" hg = "gzip" ∧ hg !! "Content-Length" = None ∧
  hg !! "Vary" = Some (default [] (h !! "Vary") ++ ["Accept-Encoding"]) ∧
  ∀ k, k ≠ "Content-Encoding" → k ≠ "Content-Length" → k ≠ "Vary" → hg !! k = h !! k.

Lemma compressed_header_spec h : announced_gzip h (compressed_header h).
Proof.
  unfold announced_gzip, compressed_header, header_Get, header_Add, header_Set, header_Del, Header in *. split_and!.
  - by rewrite (lookup_insert_ne (M := gmap string)), (lookup_insert_eq (M := gmap string)) by done.
  - by rewrite !(lookup_insert_ne (M := gmap string)), (lookup_delete_eq (M := gmap string)) by done.
  - rewrite (lookup_insert_eq (M := gmap string)). by rewrite (lookup_insert_ne (M := gmap string)), (lookup_delete_ne (M := gmap string)) by done.
  - intros k H1 H2 H3. by rewrite !(lookup_insert_ne (M := gmap string)), (lookup_delete_ne (M := gmap string)) by done.
Qed.

(** C38: compression is transparent.  For a handler that sets headers, then at most one final
    status, then writes and flushes, and that names its content type (and, when it encodes the
    body itself, its status), the response that goes through the compressing writer is the one
    that would be sent without it, except when the client named gzip, the type is compressible,
    the status has a body, the handler did not encode it and starts it with a write: then the
    status and the other headers are the same, the length is dropped, the encoding and the
    variance are announced, and the body decodes to the plain one. *)
Theorem gzip_transparent (Hgz : gzip_decodes) acceptEncoding hs status bs w :
  forallb header_op hs = true → forallb body_op bs = true → (∀ s, status = Some s → 200 ≤ s) →
  nw_Sent w = None → nw_Body w = [] →
  let h := foldl edit_header (nw_Header w) hs in
  header_Get "Content-Type" h ≠ "" → (status = None → header_Get "Content-Encoding" h = "") →
  let ops := hs ++ status_op status ++ bs in
  let plain := net_serve ops w in
  let sent := gzipMiddleware acceptEncoding ops w in
  nw_Sent plain = Some (default 200 status, h) ∧
  if compresses acceptEncoding (default 200 status) h bs
  then (∃ hg, nw_Sent sent = Some (default 200 status, hg) ∧ announced_gzip h hg) ∧
       nw_Informational sent = nw_Informational plain ∧ gunzip (nw_Body sent) = nw_Body plain
  else sent = plain.
Proof.
  intros Hh Hb Hst Hs Hbody h Hct Hce ops plain sent. set (n := net_set_header (λ h, foldl edit_header h hs) w).
  assert (En : n = net_set_header (λ h, foldl edit_header h hs) w) by done.
  assert (Hn : nw_Sent n = None ∧ nw_Body n = [] ∧ nw_Header n = h) by done. destruct Hn as (Ens & Enb & Enh). clearbody n.
  assert (H200 : 200 ≤ default 200 status) by (destruct status as [s|]; [by apply Hst|cbn; lia]).
  assert (Eplain : plain = net_WriteHeader 200 (foldl net_op (net_WriteHeader (default 200 status) n) bs)).
  { subst plain ops. unfold net_serve. rewrite !foldl_app, (net_header_ops hs w Hh). rewrite <- En.
    destruct status as [s|]; [done|]. by apply net_implicit. }
  assert (Hsent : nw_Sent (net_WriteHeader (default 200 status) n) = Some (default 200 status, h)).
  { rewrite net_WriteHeader_sent by done. by rewrite Enh. }
  assert (Hs1 : is_Some (nw_Sent (net_WriteHeader (default 200 status) n))) by (by rewrite Hsent).
  split.
  { rewrite Eplain, net_sent_status; rewrite net_sent_stays by done; [exact Hsent|exact Hs1]. }
  subst sent ops. unfold Http.gzipMiddleware, compresses. destruct (Contains "gzip" _); cbn [negb andb]; [|reflexivity].
  rewrite !foldl_app, (gzip_header_ops hs (gzip_new w) Hh).
  change (on_net _ (gzip_new w)) with
    {| gw_Net := net_set_header (λ h, foldl edit_header h hs) w; gw_gz := None; gw_status := 0; gw_headerSent := false;
       gw_passthrough := false |}.
  rewrite <- En. pose proof (gzip_staged Hgz n) as Hstaged. rewrite Enh in Hstaged.
  destruct status as [s|]; cbn [status_op foldl Http.gzip_op default from_option id] in *.
  - unfold gzip_WriteHeader. cbn [gw_headerSent gw_Net gw_gz gw_passthrough]. cbv zeta. cbn [gw_Net]. rewrite Enh.
    destruct (_ || bool_decide (header_Get "Content-Encoding" h ≠ "")) eqn:Epass.
    + rewrite gzip_passes by done. unfold forwardHeader, gzip_close, on_net. cbn. rewrite (proj2 (Z.eqb_neq s 0)) by lia.
      rewrite <- Eplain. assert (E : bool_decide (header_Get "Content-Encoding" h = "") && body_allowed s = false); [|by rewrite E].
      unfold body_allowed. destruct ((s <? 200) || (s =? 204) || (s =? 304)); [apply andb_false_r|]. cbn [orb] in Epass.
      apply bool_decide_eq_true in Epass. by rewrite bool_decide_eq_false_2.
    + apply orb_false_iff in Epass as [Eb Ece]. apply bool_decide_eq_false in Ece. apply dec_stable in Ece.
      specialize (Hstaged s s bs Hb Ens Enb). rewrite Ece. unfold body_allowed in *. rewrite Eb in *.
      destruct Hstaged as [Ei Hif]; [by rewrite (proj2 (Z.eqb_neq s 0)) by lia|done|done|done|]. rewrite <- Eplain in *.
      rewrite bool_decide_eq_true_2 by done. cbn [negb andb]. destruct (_ && _); [|done]. destruct Hif as [Hs' ?].
    split; [eexists; split; [exact Hs'|apply compressed_header_spec]|done].
  - specialize (Hstaged 0 200 bs Hb Ens Enb). destruct Hstaged as [Ei Hif]; [done..|]. rewrite <- Eplain in *.
    rewrite bool_decide_eq_true_2 by (by apply Hce). cbn [andb]. destruct (_ && _); [|done]. destruct Hif as [Hs' ?].
    split; [eexists; split; [exact Hs'|apply compressed_header_spec]|done].
Qed.
End gzip.

(** * A gzip writer, and what a client gets *)

(** An encoding that decodes: each byte is announced by 1, a flush is a 2, the end is a 0. *)
Definition marked_out (history : list GzOp) (op : GzOp) : list nat :=
  match op with GzWrite p => flat_map (λ b, [1%nat; b]) p | GzFlush => [2%nat] | GzClose => [0%nat] end.

Fixpoint marked_in (l : list nat) : list nat :=
  match l with
  | 1%nat :: b :: l' => b :: marked_in l'
  | 2%nat :: l' => marked_in l'
  | _ => []
  end.

Lemma marked_decodes : gzip_decodes marked_out marked_in.
Proof.
  intros ops. assert (H : ∀ history, forallb (λ op, match op with GzClose => false | _ => true end) ops = true →
    marked_in (gz_outputs marked_out history (ops ++ [GzClose])) = flat_map gz_payload ops); [|apply H].
  induction ops as [|op ops IH]; intros history Ho; [done|]. cbn in Ho. apply andb_true_iff in Ho as [Hop Ho]. cbn [app gz_outputs].
  specialize (IH (history ++ [op]) Ho). destruct op as [p| |]; try done; cbn [flat_map gz_payload marked_out].
  revert IH. generalize (gz_outputs marked_out (history ++ [GzWrite p]) (ops ++ [GzClose])). intros rest IH.
  induction p as [|b p IHp]; [exact IH|]. cbn. by rewrite IHp.
Qed.

Definition json_body : list nat := [123; 125]%nat.
Definition json_ops : list WriterOp := writeJSON ∅ 200 json_body.

Lemma gzip_transparent_witness :
  nw_Body (gzipMiddleware id (λ _, "") marked_out "gzip, br" json_ops net_new) = [1; 123; 1; 125; 0]%nat ∧
  marked_in (nw_Body (gzipMiddleware id (λ _, "") marked_out "gzip, br" json_ops net_new)) = json_body.
Proof.
  split; [vm_compute; reflexivity|].
  destruct (gzip_transparent id (λ _, "") marked_out marked_in marked_decodes "gzip, br" (take 4 json_ops) (Some 200)
              [OpWrite json_body] net_new) as [_ H];
    [reflexivity|reflexivity|intros s [= <-]; lia|reflexivity|reflexivity|vm_compute; discriminate|discriminate|].
  assert (Hc : compresses id "gzip, br" (default 200 (Some 200)) (foldl edit_header (nw_Header net_new) (take 4 json_ops)) [OpWrite json_body] = true)
    by (vm_compute; reflexivity).
  rewrite Hc in H. destruct H as (_ & _ & H). etransitivity; [exact H|vm_compute; reflexivity].
Defined.

(** The conditions are needed.  A handler that encodes the body itself and starts with a write
    is encoded twice, an informational status swallows the final one, and a client that
    refuses gzip with a weight of 0 gets it. *)
Definition status_of (w : NetWriter) : option Z := fst <$> nw_Sent w.

Example encoded_twice :
  nw_Body (gzipMiddleware id (λ _, "") marked_out "gzip"
    [OpSet "Content-Type" "text/plain"; OpSet "Content-Encoding" "gzip"; OpWrite (marked_out [] (GzWrite [7%nat]))] net_new) =
    [1; 1; 1; 7; 0]%nat.
Proof. vm_compute. reflexivity. Qed.

Example final_status_swallowed :
  let ops := [OpWriteHeader 103; OpSet "Content-Type" "text/plain"; OpWriteHeader 404; OpWrite [1%nat]] in
  status_of (gzipMiddleware id (λ _, "") marked_out "gzip" ops net_new) = Some 200 ∧ status_of (net_serve ops net_new) = Some 404.
Proof. vm_compute. split; reflexivity. Qed.

Example refused_gzip_is_sent :
  header_Get "Content-Encoding" (default ∅ (snd <$> nw_Sent (gzipMiddleware id (λ _, "") marked_out "gzip;q=0" json_ops net_new))) = "gzip".
Proof. vm_compute. reflexivity. Qed.

(** * Cross-origin headers *)

Definition sets (k : string) (op : WriterOp) : bool := match op with OpSet k' _ => bool_decide (k' = k) | _ => false end.

(** Headers are added for the configured origin only, credentials only when it is named; an
    internal path gets none; a preflight that is allowed does not reach the handler. *)
Lemma cors_spec corsOrigin r next :
  ∃ added : list WriterOp, (corsMiddleware corsOrigin r next = added ++ next ∨ corsMiddleware corsOrigin r next = added ++ [OpWriteHeader 200]) ∧
    (added ≠ [] → internal_path (rq_Path r) = false ∧ corsOrigin ≠ "" ∧ (corsOrigin = "*" ∨ rq_Origin r = corsOrigin)) ∧
    (existsb (sets "Access-Control-Allow-Credentials") added = true → rq_Origin r = corsOrigin ∧ corsOrigin ≠ "*") ∧
    (added ≠ [] → (corsMiddleware corsOrigin r next = added ++ [OpWriteHeader 200] ∧ rq_Method r = "OPTIONS") ∨
                  (corsMiddleware corsOrigin r next = added ++ next ∧ rq_Method r ≠ "OPTIONS")) .
Proof.
  unfold corsMiddleware. destruct (internal_path (rq_Path r)); [exists []; by split_and!; [left| | |]|].
  case_bool_decide as H1; [exists []; by split_and!; [left| | |]|].
  case_bool_decide as H2; [|case_bool_decide as H3; [|exists []; by split_and!; [left| | |]]].
  - exists (OpSet "Access-Control-Allow-Origin" "*" :: preflight_headers). case_bool_decide as H4;
      (split_and!; [by (left + right)|by intros _; split_and!; [| |left]|done|intros _; by (left + right)]).
  - exists ([OpSet "Access-Control-Allow-Origin" (rq_Origin r); OpAdd "Vary" "Origin"; OpSet "Access-Control-Allow-Credentials" "true"]
            ++ preflight_headers).
    case_bool_decide as H4;
      (split_and!; [by (left + right)|by intros _; split_and!; [| |right]|done|intros _; by (left + right)]).
Qed.

(** * Activity *)

(** A tracked request begins one lease and finishes it last, panic or not, and counts as active
    exactly when its status is a success; the bytes are only counted when it did not panic. *)
Lemma activity_balanced path ops panics :
  ∃ mid, admittedActivityMiddleware TrackingRecorder path ops panics =
      CallBeginActivity :: mid ++
      [CallFinish (let s := rs_status (recorded ops) in if s =? 0 then true else (200 <=? s) && (s <? 400))] ∧
    mid = (if panics then [] else [CallCountBytes (routeClass path) (rs_bytes (recorded ops))]).
Proof.
  exists (if panics then [] else [CallCountBytes (routeClass path) (rs_bytes (recorded ops))]). split; [|done].
  unfold admittedActivityMiddleware. cbn zeta. by destruct (rs_status (recorded ops) =? 0).
Qed.

(** The label of the metric is one of five, whatever the path. *)
Lemma routeClass_bounded path : routeClass path ∈ ["rooms_list"; "room_detail"; "rooms_other"; "teacher"; "other"].
Proof.
  unfold routeClass. repeat first [case_bool_decide | destruct (has_prefix _ _) | destruct (negb _)]; cbn;
    rewrite ?bool_decide_eq_true_2 by done; set_solver.
Qed.

(** * Files *)

Lemma split_slash_no_slash l : ∀ cur, 47%nat ∉ cur → Forall (λ e, 47%nat ∉ e) (split_slash l cur).
Proof.
  induction l as [|b l IH]; intros cur Hc; cbn [split_slash]; [by constructor|].
  destruct (Nat.eqb_spec b 47); [constructor; [done|]; apply IH; by apply not_elem_of_nil|apply IH; set_solver].
Qed.

Definition plain_element (e : list nat) : Prop := e ≠ [] ∧ e ≠ [46%nat] ∧ e ≠ [46; 46]%nat ∧ 47%nat ∉ e.

(** The path whose file is looked up has no element that leaves the directory. *)
Lemma clean_elements_plain path : Forall plain_element (clean_elements path).
Proof.
  unfold clean_elements. apply Forall_rev. pose proof (split_slash_no_slash (bytes_of path) [] ltac:(by apply not_elem_of_nil)) as Hs.
  assert (Hacc : Forall plain_element []) by constructor. revert Hs Hacc. generalize (@nil (list nat)) as acc.
  induction (split_slash (bytes_of path) []) as [|e es IH]; intros acc Hs Hacc; [done|]. apply Forall_cons in Hs as [He Hs]. cbn [foldl].
  apply IH; [done|]. unfold clean_step. repeat case_bool_decide; cbn [orb]; try done.
  - by destruct Hacc.
  - constructor; [|done]. done.
Qed.

(** The page is never cached and an asset that is missing is not answered with it. *)
Lemma spa_spec missing path : let '(cache, reply) := spaFallbackHandler missing path in
  (reply = SpaIndex → cache = Some "no-cache" ∧ has_prefix "/assets/" (Clean_rooted path) = false) ∧
  (reply = SpaNotFound ↔ has_prefix "/assets/" (Clean_rooted path) = true ∧ missing (Clean_rooted path) = true) ∧
  (cache = Some "public, max-age=31536000, immutable" → has_prefix "/assets/" (Clean_rooted path) = true).
Proof.
  unfold spaFallbackHandler. destruct (has_prefix "/assets/" _); [destruct (missing _)|case_bool_decide; [|destruct (missing _)]]; naive_solver.
Qed.
