(* ===== verification/Api.v ===== *)
(** The handlers of the API ([internal/api/handlers.go], [teacher_handlers.go],
    [refresh_handlers.go] and the room handlers of [routes.go]): how requests are checked, and
    which status, headers and envelope each result of the services becomes.

    A handler takes what it decoded from the request and what the services answer.  An error is
    seen through the sentinels [errors.Is] and [errors.As] find in its chain and its text.

    Theorems about the handlers: every answer has the shape the compressing writer expects, a
    refusal is one of the documented statuses, a value is served with the version that was read
    next to it, and what the two check-in handlers answer. *)

From stdpp Require Import base list numbers strings gmap.
From Stdlib Require Import ZArith QArith Lia.
From S2P Require Import Prelude Float64 Domain Upstream RoomRepo Checkin Report Teacher Spreadsheet Http HttpSpec.

Local Open Scope Z_scope.
Local Open Scope stdpp_scope.
Local Open Scope go_scope.

(** * The envelope *)

Definition quality_string (q : DataQualityState) : string :=
  match q with
  | DataQualityVerifiedFresh => "verified_fresh"
  | DataQualityVerifiedStale => "verified_stale"
  | DataQualityDegraded => "degraded"
  | DataQualityUnavailable => "unavailable"
  | DataQualityOther s => s
  end.

Record SnapshotVersionInfo := {
  vi_Version : Z;
  vi_GeneratedAt : string;
  vi_Quality : string;
  vi_Complete : bool;
  vi_ParserVersion : string;
  vi_Stale : bool;
  vi_AgeSeconds : Z
}.

Record ApiResponse (D : Type) := {
  ar_Success : bool;
  ar_Data : option D;
  ar_Error : string;
  ar_Snapshot : option SnapshotVersionInfo
}.
Arguments ar_Success {D} a.
Arguments ar_Data {D} a.
Arguments ar_Error {D} a.
Arguments ar_Snapshot {D} a.
Arguments Build_ApiResponse {D} ar_Success ar_Data ar_Error ar_Snapshot.

Definition successResponse {D} (data : option D) : ApiResponse D := Build_ApiResponse true data "" None.
Definition errorResponse {D} (msg : string) : ApiResponse D := Build_ApiResponse false None msg None.

(** [d.Seconds()], converted to an integer. *)
Definition whole_seconds (d : Z) : Z :=
  let s := fadd (f_of_int (Z.quot d Second)) (fdiv (f_of_int (Z.rem d Second)) (inject_Z Second)) in
  int64_of_integral (Z.quot (Qnum s) (Zpos (Qden s))).

Definition version_info (md : SnapshotMetadata) (now : Z) : SnapshotVersionInfo :=
  let age := if time_IsZero (md_ValidatedAt md) then 0 else Z.max 0 (whole_seconds (time_Sub now (md_ValidatedAt md))) in
  {| vi_Version := md_Version md; vi_GeneratedAt := FormatRFC3339 (md_ValidatedAt md); vi_Quality := quality_string (md_QualityState md);
     vi_Complete := md_Complete md; vi_ParserVersion := md_ParserVersion md; vi_Stale := md_Stale md; vi_AgeSeconds := age |}.

Definition versionedResponse {D} (data : D) (md : SnapshotMetadata) (now : Z) : ApiResponse D :=
  Build_ApiResponse true (Some data) "" (Some (version_info md now)).

(** What a handler answers: header operations, the status and the envelope. *)
Record ApiReply (D : Type) := {
  rp_Headers : list WriterOp;
  rp_Status : Z;
  rp_Response : ApiResponse D
}.
Arguments rp_Headers {D} _.
Arguments rp_Status {D} _.
Arguments rp_Response {D} _.
Arguments Build_ApiReply {D} rp_Headers rp_Status rp_Response.

Definition answer {D} (status : Z) (r : ApiResponse D) : ApiReply D := Build_ApiReply [] status r.
Definition refuse {D} (status : Z) (msg : string) : ApiReply D := answer status (errorResponse msg).

(** * Errors *)

Inductive Sentinel :=
| IsSnapshotNotFound
| IsSnapshotExpired
| IsAuthExpired
| IsPoolExhausted
| IsAuthConflict.
#[export] Instance sentinel_eq_dec : EqDecision Sentinel.
Proof. solve_decision. Defined.

Definition mapServiceError {D} (chain : list Sentinel) : option (ApiReply D) :=
  if bool_decide (IsSnapshotNotFound ∈ chain) then Some (refuse 503 "snapshot unavailable")
  else if bool_decide (IsSnapshotExpired ∈ chain) then Some (refuse 503 "snapshot expired")
  else if bool_decide (IsAuthExpired ∈ chain) then Some (refuse 401 "Warwick session expired")
  else if bool_decide (IsPoolExhausted ∈ chain) then Some (refuse 503 "Too many concurrent requests, try again")
  else if bool_decide (IsAuthConflict ∈ chain) then Some (refuse 503 "Warwick session in use, try again")
  else None.

Definition quote_mark : string := string_of_bytes [34%nat].

Definition setSnapshotFreshnessHeaders (md : SnapshotMetadata) : list WriterOp :=
  [OpSet "X-Snapshot-Version" (Itoa (md_Version md)); OpSet "X-Snapshot-Validation-Seq" (Itoa (md_ValidationSeq md));
   OpSet "X-Snapshot-Validated-At" (FormatRFC3339 (md_ValidatedAt md)); OpSet "X-Snapshot-Stale" (FormatBool (md_Stale md));
   OpSet "X-Snapshot-Generated-At" (FormatRFC3339 (md_ValidatedAt md));
   OpSet "X-Snapshot-Quality" (quality_string (md_QualityState md)); OpSet "X-Snapshot-Complete" (FormatBool (md_Complete md))] ++
  (if bool_decide (md_ParserVersion md ≠ "") then [OpSet "X-Snapshot-Parser-Version" (md_ParserVersion md)] else []) ++
  [OpSet "Cache-Control" "private, no-store"] ++
  (let version := ":version:" +:+ Itoa (md_Version md) +:+ quote_mark in
   if bool_decide (md_ParentKey md ≠ "") then
     [OpSet "ETag" ("W/" +:+ quote_mark +:+ "target:" +:+ md_ResourceKey md +:+ ":parent:" +:+ md_ParentKey md +:+ version);
      OpSet "X-Snapshot-Target" (md_ParentKey md +:+ ":" +:+ md_ResourceKey md)]
   else
     [OpSet "ETag" ("W/" +:+ quote_mark +:+ "target:" +:+ md_ResourceKey md +:+ version);
      OpSet "X-Snapshot-Target" (md_ResourceKey md)]).

(** A body that was decoded, that is not one, or that is longer than the limit. *)
Inductive JSONBody (A : Type) := BodyOk (a : A) | BodyInvalid | BodyTooLarge.
Arguments BodyOk {A} a.
Arguments BodyInvalid {A}.
Arguments BodyTooLarge {A}.

Section handlers.
(** Errors of the services. *)
Context {E : Type} (chain : E → list Sentinel) (text : E → string).

(** * Reads *)

(** The end of the handlers that read: the error mapped, or the value, with its version when the
    separate read of the metadata finds one. *)
Definition versioned_reply {D M} (now : Z) (r : result E D) (metadata : result M (option SnapshotMetadata)) : ApiReply D :=
  match r with
  | Err e => default (refuse 500 (text e)) (mapServiceError (chain e))
  | Ok data =>
      match metadata with
      | Ok (Some md) => Build_ApiReply (setSnapshotFreshnessHeaders md) 200 (versionedResponse data md now)
      | _ => answer 200 (successResponse (Some data))
      end
  end.

Definition getCoursesHandler {M} (now : Z) (courses : result E (list CourseSummary)) (metadata : result M (option SnapshotMetadata)) :=
  versioned_reply now courses metadata.

Definition getCourseDetailHandler {M} (now : Z) (courseID : string) (detail : result E CourseDetail)
    (metadata : result M (option SnapshotMetadata)) : ApiReply CourseDetail :=
  if bool_decide (courseID = "") then refuse 400 "courseId is required" else versioned_reply now detail metadata.

Definition getSessionDetailHandler {M} (now : Z) (courseID sessionID : string) (detail : result E SessionDetail)
    (metadata : result M (option SnapshotMetadata)) : ApiReply SessionDetail :=
  if bool_decide (courseID = "") || bool_decide (sessionID = "") then refuse 400 "courseId and sessionId are required"
  else versioned_reply now detail metadata.

(** [threshold] is the query parameter, empty when there is none; the report depends on it. *)
Definition getCourseAttendanceReportHandler {M} (now : Z) (courseID threshold : string)
    (report : Z → result E CourseAttendanceReport) (freshness : result M (option SnapshotMetadata)) : ApiReply CourseAttendanceReport :=
  if bool_decide (courseID = "") then refuse 400 "courseId is required"
  else
    let bad := refuse 400 "threshold must be a non-negative integer" in
    if bool_decide (threshold = "") then versioned_reply now (report 0) freshness
    else match ParseInt threshold with
         | (val, true) => if val <? 0 then bad else versioned_reply now (report val) freshness
         | (_, false) => bad
         end.

(** ** Several courses *)

Definition maxBatchAttendanceBodyBytes : Z := 2 ^ 20.
Definition maxBatchAttendanceCourses : nat := 100.

(** A course is its report or the text of its error. *)
Definition batch_item (res : BatchCourseResult) (err_text : TeacherErr → string) : option CourseAttendanceReport + string :=
  match bc_Err res with Some e => inr (err_text e) | None => inl (bc_Report res) end.

(** [timedOut] is whether the context of 120 seconds is over. *)
Definition getBatchAttendanceHandler (service : bool) (err_text : TeacherErr → string) (body : JSONBody (list string * Z))
    (batch : list string → Z → result E (gmap string BatchCourseResult)) (timedOut : bool)
    : ApiReply (gmap string (option CourseAttendanceReport + string)) :=
  if negb service then refuse 503 "Warwick client not available"
  else
    match body with
    | BodyTooLarge => refuse 413 "request body too large"
    | BodyInvalid => refuse 400 "invalid request body"
    | BodyOk (ids, threshold) =>
        if bool_decide (ids = []) then refuse 400 "course_ids is required"
        else if (maxBatchAttendanceCourses <? length ids)%nat then refuse 400 "too many course_ids: maximum is 100"
        else
          match batch ids threshold with
          | Err e =>
              default (if timedOut then refuse 504 "batch computation timed out" else refuse 500 (text e)) (mapServiceError (chain e))
          | Ok courses => answer 200 (successResponse (Some ((λ res, batch_item res err_text) <$> courses)))
          end
    end.

(** [filters] is what the query parameter decodes to; [None] when it is not one. *)
Definition getAbsenceDashboardHandler {F} (default_filters : F) (query : string) (filters : option F)
    (dashboard : F → result E DashboardReport) (timedOut : bool) : ApiReply DashboardReport :=
  match (if bool_decide (query = "") then Some default_filters else filters) with
  | None => refuse 400 "invalid filters parameter"
  | Some f =>
      match dashboard f with
      | Err e =>
          default (if timedOut then refuse 504 "dashboard computation timed out" else refuse 500 (text e)) (mapServiceError (chain e))
      | Ok report => answer 200 (successResponse (Some report))
      end
  end.

Definition refreshAllDataHandler {D} (r : D * option E) : ApiReply D :=
  match r with
  | (_, Some e) => default (refuse 503 "data refresh failed") (mapServiceError (chain e))
  | (result, None) => answer 200 (successResponse (Some result))
  end.
End handlers.

(** * Check-ins *)

Section checkins.
Context (chain : CheckinError → list Sentinel) (text : CheckinError → string).

(** The errors the handlers look for, in order; the conflict only when a version was named. *)
Definition checkin_refusal {D} (conflicts : bool) (e : CheckinError) : ApiReply D :=
  match e with
  | CheckinUpstream _ => refuse 502 "Humanix rejected the check-in change"
  | CheckinStudentNotFound _ _ => refuse 404 (text e)
  | CheckinConflict _ _ => if conflicts then refuse 409 (text e) else default (refuse 500 (text e)) (mapServiceError (chain e))
  | _ => default (refuse 500 (text e)) (mapServiceError (chain e))
  end.

(** [body] is the student and the wanted state; [checkin] is called with a new key. *)
Definition toggleCheckinHandler (courseID sessionID : string) (body : JSONBody (string * bool)) (key : string)
    (checkin : CheckinRequest → result CheckinError CheckinResult) (detail : option SessionDetail) : ApiReply ToggleCheckinResponse :=
  match body with
  | BodyOk (studentID, checked) =>
      if bool_decide (studentID = "") then refuse 400 "student_id is required"
      else
        match checkin {| cq_CourseID := courseID; cq_SessionID := sessionID; cq_StudentID := studentID;
                         cq_DesiredCheckedIn := checked; cq_ExpectedSnapshotVersion := None; cq_IdempotencyKey := key |} with
        | Err e => checkin_refusal false e
        | Ok r =>
            answer 200 (successResponse (Some
              {| tr_StudentID := studentID; tr_CheckedIn := cr_CheckedIn r;
                 tr_NewCount := match detail with Some d => ss_CheckedInCount (sd_Summary d) | None => 0 end;
                 tr_SnapshotRefreshPending := cr_RefreshPending r |}))
        end
  | _ => refuse 400 "invalid request body"
  end.

Record IdempotentCheckinBody := {
  ib_CheckedIn : bool;
  ib_ExpectedSnapshotVersion : option Z;
  ib_IdempotencyKey : string
}.

Definition checkin_request (courseID sessionID studentID : string) (b : IdempotentCheckinBody) : CheckinRequest :=
  {| cq_CourseID := courseID; cq_SessionID := sessionID; cq_StudentID := studentID; cq_DesiredCheckedIn := ib_CheckedIn b;
     cq_ExpectedSnapshotVersion := ib_ExpectedSnapshotVersion b; cq_IdempotencyKey := ib_IdempotencyKey b |}.

Definition idempotentCheckinHandler (courseID sessionID studentID : string) (body : JSONBody IdempotentCheckinBody)
    (checkin : CheckinRequest → result CheckinError CheckinResult) : ApiReply CheckinResult :=
  if bool_decide (courseID = "") || bool_decide (sessionID = "") || bool_decide (studentID = "")
  then refuse 400 "courseId, sessionId, and studentId are required"
  else
    match body with
    | BodyOk b =>
        if bool_decide (ib_IdempotencyKey b = "") then refuse 400 "idempotencyKey is required"
        else
          match checkin (checkin_request courseID sessionID studentID b) with
          | Err e => checkin_refusal true e
          | Ok r =>
              match cr_Status r with
              | Confirmed | AlreadySatisfied => answer 200 (successResponse (Some r))
              | PendingVerification => answer 202 (successResponse (Some r))
              end
          end
    | _ => refuse 400 "invalid request body"
    end.
End checkins.

(** * Rooms *)

Section rooms.
Context {E : Type} (text : E → string).

Definition RoomsToLite (rooms : list Room) : list RoomLite := map NewRoomLite rooms.

Definition getRoomsHandler (lite : string) (rooms : list Room) : ApiReply (list RoomLite + list Room) :=
  if bool_decide (lite = "true") || bool_decide (lite = "1") then answer 200 (successResponse (Some (inl (RoomsToLite rooms))))
  else answer 200 (successResponse (Some (inr rooms))).

Definition room_reply (r : result E Room) : ApiReply Room :=
  match r with Err e => refuse 500 (text e) | Ok room => answer 200 (successResponse (Some room)) end.

(** [uuid] is the new identifier. *)
Definition createRoomHandler (body : JSONBody (string * option string)) (uuid : string)
    (create : string → string → option string → result E Room) : ApiReply Room :=
  match body with
  | BodyOk (classID, name) =>
      if bool_decide (classID = "") then refuse 400 "class_id is required" else room_reply (create uuid classID name)
  | _ => refuse 400 "invalid request body"
  end.

Definition createRoomFromSessionHandler (body : JSONBody string) (create : string → string → option string → result E Room) : ApiReply Room :=
  match body with
  | BodyOk sessionID =>
      if bool_decide (sessionID = "") then refuse 400 "session_id is required" else room_reply (create sessionID sessionID None)
  | _ => refuse 400 "invalid request body"
  end.

Definition getRoomHandler (room : option Room) : ApiReply Room :=
  match room with None => refuse 404 "Room not found" | Some r => answer 200 (successResponse (Some r)) end.

(** delete, start and stop *)
Definition room_command_reply (r : result E unit) : ApiReply unit :=
  match r with Err e => refuse 500 (text e) | Ok _ => answer 200 (successResponse None) end.
Definition deleteRoomHandler := room_command_reply.
Definition startRoomHandler := room_command_reply.
Definition stopRoomHandler := room_command_reply.

(** The room with a code that has not expired, or the hint to come back. *)
Inductive StartedRoom := RoomReady (room : Room) | RoomStarting (id : string) (retry_after_ms : Z).

Definition qr_valid (room : Room) (now : Z) : bool :=
  match rm_QRURL room, rm_ExpiresAt room with
  | Some url, Some expires => bool_decide (url ≠ "") && time_After expires now
  | _, _ => false
  end.

Definition startSessionRoomHandler (now : Z) (body : JSONBody (string * string)) (ensure : string → string → result E Room)
    : ApiReply StartedRoom :=
  match body with
  | BodyOk (sessionID, courseID) =>
      if bool_decide (sessionID = "") then refuse 400 "session_id is required"
      else
        match ensure sessionID courseID with
        | Err e => refuse 500 (text e)
        | Ok room =>
            if qr_valid room now then answer 200 (successResponse (Some (RoomReady room)))
            else answer 202 (successResponse (Some (RoomStarting (rm_RoomID room) 500)))
        end
  | _ => refuse 400 "invalid request body"
  end.
End rooms.

Definition healthHandler : ApiReply string := answer 200 (successResponse (Some "QR Command Center API is running!")).

(** * The shape of an answer *)

(** The operations of an answer whose envelope encodes to [body]. *)
Definition reply_ops {D} (r : ApiReply D) (body : list nat) : list WriterOp :=
  rp_Headers r ++ writeJSON (foldl edit_header ∅ (rp_Headers r)) (rp_Status r) body.

Lemma freshness_headers md : forallb header_op (setSnapshotFreshnessHeaders md) = true.
Proof. unfold setSnapshotFreshnessHeaders. by repeat case_bool_decide. Qed.

Lemma header_Get_Set k k' v h : header_Get k (header_Set k' v h) = if decide (k = k') then v else header_Get k h.
Proof.
  unfold header_Get, header_Set, Header in *. destruct (decide (k = k')) as [->|Hne].
  - by rewrite (lookup_insert_eq (M := gmap string)).
  - by rewrite (lookup_insert_ne (M := gmap string)).
Qed.

Lemma json_orderly h status body :
  ∃ hs, writeJSON h status body = hs ++ status_op (Some status) ++ [OpWrite body] ∧ forallb header_op hs = true ∧
    ∀ h0, header_Get "Content-Type" (foldl edit_header h0 hs) = "application/json".
Proof.
  set (cache := if bool_decide (header_Get "Cache-Control" h = "")
                then [OpSet "Cache-Control" "no-store, no-cache, must-revalidate, max-age=0"] else []).
  exists ([OpSet "Content-Type" "application/json"] ++ cache ++ [OpSet "Pragma" "no-cache"; OpSet "Expires" "0"]).
  assert (Hc : cache = [] ∨ cache = [OpSet "Cache-Control" "no-store, no-cache, must-revalidate, max-age=0"])
    by (subst cache; case_bool_decide; [by right|by left]).
  split; [unfold writeJSON; fold cache; by destruct Hc as [-> | ->]|]. split; [by destruct Hc as [-> | ->]|].
  intros h0. destruct Hc as [-> | ->]; cbn [app foldl edit_header]; by rewrite !header_Get_Set, !decide_False, decide_True by done.
Qed.

(** Headers, one status, one body: the shape for which compression is transparent. *)
Lemma replies_orderly {D} (r : ApiReply D) body : forallb header_op (rp_Headers r) = true →
  ∃ hs, reply_ops r body = hs ++ status_op (Some (rp_Status r)) ++ [OpWrite body] ∧ forallb header_op hs = true ∧
    header_Get "Content-Type" (foldl edit_header ∅ hs) = "application/json".
Proof.
  intros Hh. unfold reply_ops. destruct (json_orderly (foldl edit_header ∅ (rp_Headers r)) (rp_Status r) body) as (hs & -> & Hs & Hct).
  exists (rp_Headers r ++ hs). split; [by rewrite <- app_assoc|]. split; [by rewrite forallb_app, Hh, Hs|]. by rewrite foldl_app.
Qed.

(** * Reads *)

Section reads.
Context {E : Type} (chain : E → list Sentinel) (text : E → string).

Lemma mapServiceError_status {D} (l : list Sentinel) (r : ApiReply D) : mapServiceError l = Some r →
  rp_Headers r = [] ∧ ar_Success (rp_Response r) = false ∧ ar_Data (rp_Response r) = None ∧
  (rp_Status r = 401 ∨ rp_Status r = 503) ∧
  (rp_Status r = 401 → IsAuthExpired ∈ l ∧ IsSnapshotNotFound ∉ l ∧ IsSnapshotExpired ∉ l).
Proof. unfold mapServiceError. repeat case_bool_decide; intros [= <-]; cbn; naive_solver. Qed.

(** A read succeeds exactly with 200 and the value; otherwise it is refused, unauthorised only
    when the upstream session expired.  The version it names is that of the second read. *)
Lemma versioned_reply_spec {D M} now (r : result E D) (metadata : result M (option SnapshotMetadata)) :
  let reply := versioned_reply chain text now r metadata in
  forallb header_op (rp_Headers reply) = true ∧
  (rp_Status reply = 200 ↔ is_ok r = true) ∧
  (∀ data, r = Ok data → ar_Success (rp_Response reply) = true ∧ ar_Data (rp_Response reply) = Some data ∧
     ar_Snapshot (rp_Response reply) = match metadata with Ok (Some md) => Some (version_info md now) | _ => None end) ∧
  (∀ e, r = Err e → ar_Success (rp_Response reply) = false ∧ ar_Data (rp_Response reply) = None ∧
     (rp_Status reply = 401 ∨ rp_Status reply = 503 ∨ rp_Status reply = 500)) .
Proof.
  unfold versioned_reply. destruct r as [data|e]; cbn zeta.
  - destruct metadata as [[md|]|m]; cbn; (split_and!; [first [apply freshness_headers|done]|done|by intros ? [= <-]|done]).
  - destruct (mapServiceError (chain e)) as [r|] eqn:Em; cbn.
    + destruct (mapServiceError_status _ _ Em) as (Hh & Hs & Hd & Hst & _). rewrite Hh. split_and!; [done| |done|].
      * split; [lia|done].
      * intros e' [= <-]. split_and!; [done|done|lia].
    + split_and!; [done|done|done|]. intros e' [= <-]. split_and!; [done|done|lia].
Qed.

(** The threshold of a report is a number from 0 on, or the request is refused unread. *)
Lemma report_threshold {M} now courseID threshold report (freshness : result M (option SnapshotMetadata)) :
  let reply := getCourseAttendanceReportHandler chain text now courseID threshold report freshness in
  rp_Status reply = 400 ∨ ∃ val, 0 ≤ val ∧ reply = versioned_reply chain text now (report val) freshness.
Proof.
  unfold getCourseAttendanceReportHandler. case_bool_decide; [by left|]. case_bool_decide; [right; by exists 0|].
  destruct (ParseInt threshold) as [val [|]]; [|by left]. destruct (Z.ltb_spec val 0); [by left|]. right. by exists val.
Qed.

(** The batch is computed for one to a hundred courses only. *)
Lemma batch_bounds service err_text body batch timedOut :
  (rp_Status (getBatchAttendanceHandler chain text service err_text body batch timedOut) = 200) →
  ∃ ids threshold courses, body = BodyOk (ids, threshold) ∧ (0 < length ids ≤ maxBatchAttendanceCourses)%nat ∧
    batch ids threshold = Ok courses.
Proof.
  unfold getBatchAttendanceHandler. destruct service; [|done]. destruct body as [[ids threshold]| |]; [|done..]. cbn [negb].
  case_bool_decide as Hids; [done|]. destruct (Nat.ltb_spec maxBatchAttendanceCourses (length ids)) as [|Hle]; [done|].
  destruct (batch ids threshold) as [courses|e] eqn:Eb.
  - intros _. exists ids, threshold, courses. split_and!; [done| |done|done]. destruct ids; [done|cbn; lia].
  - destruct (mapServiceError (chain e)) as [r|] eqn:Em; [|by destruct timedOut].
    destruct (mapServiceError_status _ _ Em) as (_ & _ & _ & Hst & _). cbn. lia.
Qed.
End reads.

(** The value and its version are read one after the other: a commit in between serves the old
    value under the version and the tag of the new one. *)
Example version_of_another_read md :
  let reply := versioned_reply (λ _ : string, []) id 0 (Ok "version 1") (Ok (E := string) (Some md)) in
  ar_Data (rp_Response reply) = Some "version 1" ∧ vi_Version <$> ar_Snapshot (rp_Response reply) = Some (md_Version md).
Proof. done. Qed.

(** * Check-ins *)

Section checkins.
Context (chain : CheckinError → list Sentinel) (text : CheckinError → string).

(** A success is 200 when the state is known and 202 when it is not verified yet; an error never
    looks like one. *)
Lemma checkin_statuses courseID sessionID studentID body checkin :
  let reply := idempotentCheckinHandler chain text courseID sessionID studentID body checkin in
  (rp_Status reply = 200 ∨ rp_Status reply = 202 ↔
   ∃ b r, body = BodyOk b ∧ courseID ≠ "" ∧ sessionID ≠ "" ∧ studentID ≠ "" ∧ ib_IdempotencyKey b ≠ "" ∧
     checkin (checkin_request courseID sessionID studentID b) = Ok r) ∧
  (∀ r, ar_Data (rp_Response reply) = Some r → (rp_Status reply = 202 ↔ cr_Status r = PendingVerification)) ∧
  (rp_Status reply = 409 → ∃ b v c, body = BodyOk b ∧ checkin (checkin_request courseID sessionID studentID b) = Err (CheckinConflict v c)).
Proof.
  unfold idempotentCheckinHandler. destruct (_ || _) eqn:Eids.
  { cbn. split_and!; [|done|done]. split; [lia|]. intros (b & r & _ & H1 & H2 & H3 & _). by rewrite !bool_decide_eq_false_2 in Eids. }
  apply orb_false_iff in Eids as [[H1 H2]%orb_false_iff H3]. apply bool_decide_eq_false in H1, H2, H3.
  destruct body as [b| |]; [|cbn; split_and!; [|done|done]; split; [lia|naive_solver]..].
  case_bool_decide as Hk; [cbn; split_and!; [|done|done]; split; [lia|naive_solver]|].
  destruct (checkin _) as [r|e] eqn:Ec.
  - destruct (cr_Status r) eqn:Es; cbn; (split_and!; [|by intros r' [= <-]; rewrite Es|done]; split; [intros _; by exists b, r|lia]).
  - assert (Hm : ∀ x, mapServiceError (D := CheckinResult) (chain e) = Some x → rp_Status x ≠ 200 ∧ rp_Status x ≠ 202 ∧ rp_Status x ≠ 409 ∧ ar_Data (rp_Response x) = None).
    { intros x Hx. destruct (mapServiceError_status _ _ Hx) as (_ & _ & Hd & Hst & _). split_and!; [lia..|done]. }
    assert (Hr : ∃ x, checkin_refusal (D := CheckinResult) chain text true e = x ∧ rp_Status x ≠ 200 ∧ rp_Status x ≠ 202 ∧
      ar_Data (rp_Response x) = None ∧ (rp_Status x = 409 → ∃ v c, e = CheckinConflict v c)).
    { eexists. split; [done|]. destruct e; cbn; try (split_and!; [done..|naive_solver]);
        (destruct (mapServiceError (chain _)) as [x|] eqn:Hx; cbn; [destruct (Hm x eq_refl) as (? & ? & ? & ?); naive_solver|naive_solver]). }
    destruct Hr as (x & -> & R1 & R2 & R3 & R4). split_and!.
    + split; [lia|]. intros (b' & r & [= <-] & _ & _ & _ & _ & Er). congruence.
    + intros r Hd. congruence.
    + intros H409. destruct (R4 H409) as (v & c & ->). by exists b, v, c.
Qed.

(** A student who is not on the roster is not found the first time; the retry of that request is
    answered as a refusal of the upstream site, which was never asked. *)
Lemma missing_student_retry (hashtext : string → Z) snapshotMode `{GoLib} q student session keys :
  keys !! cq_IdempotencyKey q = None →
  let first := Err (CheckinStudentNotFound student session) in
  let keys' := settle (cq_IdempotencyKey q) (SFail "student_state_error") (ReserveIdempotencyKey q keys).1 in
  let again := storedCheckinResult (ReserveIdempotencyKey q keys').2 in
  checkin_current snapshotMode q first = CSettle (SFail "student_state_error") (Err (CheckinStudentNotFound student session)) ∧
  rp_Status (checkin_refusal (D := CheckinResult) chain text true (CheckinStudentNotFound student session)) = 404 ∧
  ∃ e, again = Err e ∧ rp_Status (checkin_refusal (D := CheckinResult) chain text true e) = 502.
Proof.
  intros Hk. cbn zeta. split; [done|]. split; [done|]. unfold ReserveIdempotencyKey at 2. rewrite Hk. cbn [fst].
  unfold settle, MarkIdempotencyKeyFailed, ReserveIdempotencyKey. rewrite lookup_alter_eq, lookup_insert_eq. cbn. by eexists.
Qed.
End checkins.

(** * Rooms *)

(** The start of a session's room answers 200 exactly with a code that is still valid. *)
Lemma startSessionRoom_spec {E} (text : E → string) now body ensure :
  let reply := startSessionRoomHandler text now body ensure in
  (rp_Status reply = 200 ↔ ∃ room, ar_Data (rp_Response reply) = Some (RoomReady room)) ∧
  (∀ room, ar_Data (rp_Response reply) = Some (RoomReady room) →
     ∃ url expires, rm_QRURL room = Some url ∧ url ≠ "" ∧ rm_ExpiresAt room = Some expires ∧ now < expires).
Proof.
  unfold startSessionRoomHandler. destruct body as [[sessionID courseID]| |]; [|cbn; split; [split; [done|naive_solver]|naive_solver]..].
  case_bool_decide; [cbn; split; [split; [done|naive_solver]|naive_solver]|].
  destruct (ensure sessionID courseID) as [room|e]; [|cbn; split; [split; [done|naive_solver]|naive_solver]].
  destruct (qr_valid room now) eqn:Eq; cbn; [|split; [split; [done|naive_solver]|naive_solver]].
  split; [split; [by eexists|done]|]. intros r [= <-]. unfold qr_valid in Eq.
  destruct (rm_QRURL room) as [url|]; [|done]. destruct (rm_ExpiresAt room) as [expires|]; [|done].
  apply andb_true_iff in Eq as [Hu%bool_decide_eq_true He]. exists url, expires. unfold time_After in He. apply Z.ltb_lt in He. done.
Qed.
