(* ===== verification/Views.v ===== *)
(** Saved dashboard views and favourite courses: their tables
    ([internal/db/migrations/003_create_teacher_favourites.up.sql],
    [006_create_saved_dashboard_views.up.sql]), repositories ([db/dashboard_repository.go],
    [db/favourite_repository.go]), services and handlers ([api/teacher_handlers.go],
    [api/favourite_handlers.go]).

    A method is one statement.  [fault] is an error of the connection, before the statement has
    an effect.  encoding/json and the jsonb and text columns are the parameters of [ViewLib].

    Theorems about saved views and favourites. *)

From stdpp Require Import base list numbers strings gmap sorting relations.
From Stdlib Require Import ZArith Lia.
From S2P Require Import Prelude Upstream Spreadsheet Api.

Local Open Scope Z_scope.
Local Open Scope stdpp_scope.
Local Open Scope go_scope.

(** * Data *)

Record DateRange := { dr_From : string; dr_To : string }.

Record DashboardFilters := {
  df_CourseIds : list string;
  df_DateRange : option DateRange;
  df_Threshold : Z;
  df_SortBy : string;
  df_WCodes : list string
}.

Definition DefaultDashboardFilters : DashboardFilters :=
  {| df_CourseIds := []; df_DateRange := None; df_Threshold := 0; df_SortBy := "risk"; df_WCodes := [] |}.

Record SavedDashboardView := {
  sv_ID : Z;
  sv_Name : string;
  sv_Filters : DashboardFilters;
  sv_LastUsedAt : Z;
  sv_CreatedAt : Z;
  sv_UpdatedAt : Z
}.

(** A row of saved_dashboard_views, by id; the filters are the text of the jsonb value. *)
Record ViewRow := {
  vr_name : string;
  vr_filters : string;
  vr_last_used_at : Z;
  vr_created_at : Z;
  vr_updated_at : Z
}.

(** The table and its id sequence. *)
Record ViewTable := {
  vt_rows : gmap Z ViewRow;
  vt_next : Z
}.

(** json.Marshal, the jsonb column (an error, or the text read back), json.Unmarshal, and
    the error of a text column that refuses the bytes. *)
Class ViewLib := {
  marshal_filters : DashboardFilters → string;
  jsonb_column : string → option string;
  unmarshal_filters : string → option DashboardFilters;
  text_error : string → option string
}.

Inductive ViewErr :=
| ViewFault (e : string)
| ViewNoRows
| ViewDuplicateName (name : string)
| ViewBadValue
| ViewBadFilters
| ViewNotFound (id : Z).

(** * The repository of views *)

Section views.
Context `{ViewLib}.

Definition scan_view (id : Z) (r : ViewRow) : result ViewErr SavedDashboardView :=
  match unmarshal_filters (vr_filters r) with
  | None => Err ViewBadFilters
  | Some f => Ok {| sv_ID := id; sv_Name := vr_name r; sv_Filters := f; sv_LastUsedAt := vr_last_used_at r;
                    sv_CreatedAt := vr_created_at r; sv_UpdatedAt := vr_updated_at r |}
  end.

Fixpoint scan_views (rows : list (Z * ViewRow)) : result ViewErr (list SavedDashboardView) :=
  match rows with
  | [] => Ok []
  | (id, r) :: rows' => let* v := scan_view id r in let* vs := scan_views rows' in Ok (v :: vs)
  end.

(** [ORDER BY last_used_at DESC] of the rows in the order in which they were found. *)
Definition used_later (a b : Z * ViewRow) : bool := vr_last_used_at b.2 <? vr_last_used_at a.2.

Definition view_List (fault : option string) (found : list (Z * ViewRow)) : result ViewErr (list SavedDashboardView) :=
  match fault with
  | Some e => Err (ViewFault e)
  | None => scan_views (sort_stable used_later found)
  end.

Definition view_GetByID (fault : option string) (id : Z) (t : ViewTable) : result ViewErr SavedDashboardView :=
  match fault with
  | Some e => Err (ViewFault e)
  | None => match vt_rows t !! id with None => Err ViewNoRows | Some r => scan_view id r end
  end.

(** Another row has the name (UNIQUE). *)
Definition name_taken (id : Z) (name : string) (t : ViewTable) : bool :=
  existsb (λ x : Z * ViewRow, negb (x.1 =? id) && bool_decide (vr_name x.2 = name)) (map_to_list (vt_rows t)).

(** A refused insert uses up its id. *)
Definition view_Create (fault : option string) (dbnow : Z) (name : string) (filters : DashboardFilters) (t : ViewTable)
    : ViewTable * result ViewErr SavedDashboardView :=
  match fault with
  | Some e => (t, Err (ViewFault e))
  | None =>
      match jsonb_column (marshal_filters filters), text_error name with
      | Some text, None =>
          let id := vt_next t in
          if name_taken id name t then ({| vt_rows := vt_rows t; vt_next := id + 1 |}, Err (ViewDuplicateName name))
          else
            let r := {| vr_name := name; vr_filters := text; vr_last_used_at := dbnow; vr_created_at := dbnow; vr_updated_at := dbnow |} in
            ({| vt_rows := <[id := r]> (vt_rows t); vt_next := id + 1 |}, scan_view id r)
      | _, _ => (t, Err ViewBadValue)
      end
  end.

Definition view_Update (fault : option string) (dbnow id : Z) (name : string) (filters : DashboardFilters) (t : ViewTable)
    : ViewTable * result ViewErr SavedDashboardView :=
  match fault with
  | Some e => (t, Err (ViewFault e))
  | None =>
      match jsonb_column (marshal_filters filters), text_error name with
      | Some text, None =>
          match vt_rows t !! id with
          | None => (t, Err ViewNoRows)
          | Some r =>
              if name_taken id name t then (t, Err (ViewDuplicateName name))
              else
                let r := {| vr_name := name; vr_filters := text; vr_last_used_at := vr_last_used_at r;
                            vr_created_at := vr_created_at r; vr_updated_at := dbnow |} in
                ({| vt_rows := <[id := r]> (vt_rows t); vt_next := vt_next t |}, scan_view id r)
          end
      | _, _ => (t, Err ViewBadValue)
      end
  end.

Definition view_Delete (fault : option string) (id : Z) (t : ViewTable) : ViewTable * result ViewErr unit :=
  match fault with
  | Some e => (t, Err (ViewFault e))
  | None =>
      match vt_rows t !! id with
      | None => (t, Err (ViewNotFound id))
      | Some _ => ({| vt_rows := delete id (vt_rows t); vt_next := vt_next t |}, Ok tt)
      end
  end.

Definition touch_row (dbnow : Z) (r : ViewRow) : ViewRow :=
  {| vr_name := vr_name r; vr_filters := vr_filters r; vr_last_used_at := dbnow; vr_created_at := vr_created_at r;
     vr_updated_at := vr_updated_at r |}.

Definition view_Touch (fault : option string) (dbnow id : Z) (t : ViewTable) : ViewTable * result ViewErr unit :=
  match fault with
  | Some e => (t, Err (ViewFault e))
  | None =>
      match vt_rows t !! id with
      | None => (t, Err (ViewNotFound id))
      | Some r => ({| vt_rows := <[id := touch_row dbnow r]> (vt_rows t); vt_next := vt_next t |}, Ok tt)
      end
  end.

(** * Their handlers *)

Context (text : ViewErr → string).

Definition listDashboardViewsHandler (r : result ViewErr (list SavedDashboardView)) : ApiReply (list SavedDashboardView) :=
  match r with Err e => refuse 500 (text e) | Ok views => answer 200 (successResponse (Some views)) end.

(** A call for a view, and the table after it. *)
Definition with_view_id {D} (t : ViewTable) (idStr : string) (k : Z → ViewTable * ApiReply D) : ViewTable * ApiReply D :=
  match ParseInt idStr with
  | (id, true) => k id
  | (_, false) => (t, refuse 400 "invalid view id")
  end.

Definition getDashboardViewHandler (fault : option string) (idStr : string) (t : ViewTable) : ApiReply SavedDashboardView :=
  (with_view_id t idStr (λ id, (t,
    match view_GetByID fault id t with
    | Err _ => refuse 404 "view not found"
    | Ok view => answer 200 (successResponse (Some view))
    end))).2.

Definition named_body {D} (t : ViewTable) (body : JSONBody (string * DashboardFilters)) (k : string → DashboardFilters → ViewTable * ApiReply D)
    : ViewTable * ApiReply D :=
  match body with
  | BodyOk (name, filters) => if bool_decide (name = "") then (t, refuse 400 "name is required") else k name filters
  | _ => (t, refuse 400 "invalid request body")
  end.

Definition view_written (status : Z) (x : ViewTable * result ViewErr SavedDashboardView) : ViewTable * ApiReply SavedDashboardView :=
  (x.1, match x.2 with Err e => refuse 500 (text e) | Ok view => answer status (successResponse (Some view)) end).

Definition createDashboardViewHandler (fault : option string) (dbnow : Z) (body : JSONBody (string * DashboardFilters)) (t : ViewTable) :=
  named_body t body (λ name filters, view_written 201 (view_Create fault dbnow name filters t)).

Definition updateDashboardViewHandler (fault : option string) (dbnow : Z) (idStr : string) (body : JSONBody (string * DashboardFilters))
    (t : ViewTable) :=
  with_view_id t idStr (λ id, named_body t body (λ name filters, view_written 200 (view_Update fault dbnow id name filters t))).

Definition view_done (x : ViewTable * result ViewErr unit) : ViewTable * ApiReply unit :=
  (x.1, match x.2 with Err e => refuse 404 (text e) | Ok _ => answer 200 (successResponse None) end).

Definition deleteDashboardViewHandler (fault : option string) (idStr : string) (t : ViewTable) :=
  with_view_id t idStr (λ id, view_done (view_Delete fault id t)).

Definition touchDashboardViewHandler (fault : option string) (dbnow : Z) (idStr : string) (t : ViewTable) :=
  with_view_id t idStr (λ id, view_done (view_Touch fault dbnow id t)).

(** * Favourites *)

(** Rows of teacher_favourites: created_at by course_id. *)
Notation FavouriteTable := (gmap string Z).

Definition newer_favourite (a b : string * Z) : bool := b.2 <? a.2.

Definition favourite_GetAll (fault : option string) (found : list (string * Z)) : result string (list string) :=
  match fault with
  | Some e => Err ("get favourites: " +:+ e)
  | None => Ok (map fst (sort_stable newer_favourite found))
  end.

Definition favourite_Add (fault : option string) (dbnow : Z) (courseID : string) (t : FavouriteTable) : FavouriteTable * result string unit :=
  match fault with
  | Some e => (t, Err ("add favourite: " +:+ e))
  | None =>
      match text_error courseID with
      | Some e => (t, Err ("add favourite: " +:+ e))
      | None => (match t !! courseID with Some _ => t | None => <[courseID := dbnow]> t end, Ok tt)
      end
  end.

Definition favourite_Remove (fault : option string) (courseID : string) (t : FavouriteTable) : FavouriteTable * result string unit :=
  match fault with
  | Some e => (t, Err ("remove favourite: " +:+ e))
  | None =>
      match text_error courseID with
      | Some e => (t, Err ("remove favourite: " +:+ e))
      | None =>
          match t !! courseID with
          | None => (t, Err ("favourite not found: " +:+ courseID))
          | Some _ => (delete courseID t, Ok tt)
          end
      end
  end.

Definition getFavouritesHandler (r : result string (list string)) : ApiReply (list string) :=
  match r with Err e => refuse 500 e | Ok ids => answer 200 (successResponse (Some ids)) end.

Definition addFavouriteHandler (fault : option string) (dbnow : Z) (body : JSONBody string) (t : FavouriteTable) : FavouriteTable * ApiReply unit :=
  match body with
  | BodyOk courseID =>
      if bool_decide (courseID = "") then (t, refuse 400 "course_id is required")
      else
        let '(t, r) := favourite_Add fault dbnow courseID t in
        (t, match r with Err e => refuse 500 e | Ok _ => answer 201 (successResponse None) end)
  | _ => (t, refuse 400 "invalid request body")
  end.

Definition removeFavouriteHandler (fault : option string) (courseID : string) (t : FavouriteTable) : FavouriteTable * ApiReply unit :=
  if bool_decide (courseID = "") then (t, refuse 400 "course_id is required")
  else
    let '(t, r) := favourite_Remove fault courseID t in
    (t, match r with
        | Err e => if Contains "not found" (bytes_of e) then refuse 404 e else refuse 500 e
        | Ok _ => answer 200 (successResponse None)
        end).
End views.

(** Filters that come back from the column as they were: text the column stores unchanged. *)
Class ViewLaws `{ViewLib} := {
  storable : DashboardFilters → Prop;
  storable_roundtrip f : storable f → ∃ text, jsonb_column (marshal_filters f) = Some text ∧ unmarshal_filters text = Some f;
  stored_readable f text : jsonb_column (marshal_filters f) = Some text → is_Some (unmarshal_filters text)
}.

Section spec.
Context `{ViewLaws}.

(** One call of the repository, whatever it answers. *)
Inductive view_step (t : ViewTable) : ViewTable → Prop :=
| step_create fault dbnow name f : view_step t (view_Create fault dbnow name f t).1
| step_update fault dbnow id name f : view_step t (view_Update fault dbnow id name f t).1
| step_delete fault id : view_step t (view_Delete fault id t).1
| step_touch fault dbnow id : view_step t (view_Touch fault dbnow id t).1.

Definition empty_views : ViewTable := {| vt_rows := ∅; vt_next := 1 |}.

Record views_ok (t : ViewTable) : Prop := {
  vo_ids : ∀ id r, vt_rows t !! id = Some r → id < vt_next t;
  vo_names : ∀ id id' r r', vt_rows t !! id = Some r → vt_rows t !! id' = Some r' → vr_name r = vr_name r' → id = id';
  vo_readable : ∀ id r, vt_rows t !! id = Some r → is_Some (unmarshal_filters (vr_filters r))
}.

Lemma name_free id name t : name_taken id name t = false →
  ∀ id' r, vt_rows t !! id' = Some r → vr_name r = name → id' = id.
Proof.
  intros Hn id' r Hr Hname. destruct (decide (id' = id)) as [|Hne]; [done|]. exfalso.
  apply Bool.not_true_iff_false in Hn. apply Hn. unfold name_taken. apply existsb_exists. exists (id', r).
  split; [by apply list_elem_of_In, elem_of_map_to_list|]. cbn. rewrite (proj2 (Z.eqb_neq id' id)) by done. by apply bool_decide_eq_true.
Qed.

(** Putting a row with a free name in the table. *)
Lemma views_ok_insert id r next t : views_ok t → id < next → vt_next t ≤ next →
  name_taken id (vr_name r) t = false → is_Some (unmarshal_filters (vr_filters r)) →
  views_ok {| vt_rows := <[id := r]> (vt_rows t); vt_next := next |}.
Proof.
  intros [Hi Hn Hr] Hid Hnext Hfree Hread. pose proof (name_free _ _ _ Hfree) as Hf. split; cbn.
  - intros k x [[<- <-]|[Hne Hk]]%lookup_insert_Some; [done|]. specialize (Hi k x Hk). lia.
  - intros k k' x x' [[<- <-]|[Hne Hk]]%lookup_insert_Some [[<- <-]|[Hne' Hk']]%lookup_insert_Some Hx; [done| | |by eapply Hn].
    + symmetry. by eapply Hf.
    + by eapply Hf.
  - intros k x [[<- <-]|[Hne Hk]]%lookup_insert_Some; [done|by eapply Hr].
Qed.

Lemma view_step_ok t t' : view_step t t' → views_ok t → views_ok t'.
Proof.
  intros Hs Ht. pose proof Ht as [Hi Hn Hr].
  destruct Hs as [fault dbnow name f|fault dbnow id name f|fault id|fault dbnow id].
  - unfold view_Create. destruct fault; [done|]. destruct (jsonb_column _) as [text|] eqn:Ej; [|done].
    destruct (text_error name); [done|]. destruct (name_taken _ _ _) eqn:En; cbn.
    + split; cbn; [|done..]. intros id r Hid. specialize (Hi id r Hid). lia.
    + apply views_ok_insert; [done|lia|lia|done|]. by eapply stored_readable.
  - unfold view_Update. destruct fault; [done|]. destruct (jsonb_column _) as [text|] eqn:Ej; [|done].
    destruct (text_error name); [done|]. destruct (vt_rows t !! id) as [r|] eqn:Eid; [|done].
    destruct (name_taken _ _ _) eqn:En; [done|]. cbn. apply views_ok_insert; [done|by eapply Hi|lia|done|by eapply stored_readable].
  - unfold view_Delete. destruct fault; [done|]. destruct (vt_rows t !! id) as [r|] eqn:Eid; [|done]. cbn.
    split; cbn; intros *; rewrite ?lookup_delete_Some; naive_solver.
  - unfold view_Touch. destruct fault; [done|]. destruct (vt_rows t !! id) as [r|] eqn:Eid; [|done]. cbn.
    apply views_ok_insert; [done|by eapply Hi|lia| |exact (Hr _ _ Eid)]. cbn.
    unfold name_taken. apply Bool.not_true_iff_false. rewrite existsb_exists. intros ([k x] & Hin%list_elem_of_In & Hk).
    apply elem_of_map_to_list in Hin. cbn in Hk. apply andb_true_iff in Hk as [Hk Hname]. apply bool_decide_eq_true in Hname.
    apply negb_true_iff, Z.eqb_neq in Hk. apply Hk. by eapply Hn.
Qed.

Lemma views_reachable_ok t : rtc view_step empty_views t → views_ok t.
Proof.
  assert (H0' : views_ok empty_views) by (split; cbn; intros *; by rewrite lookup_empty).
  intros Hr. induction Hr as [|t1 t2 t3 Hs _ IH]; [done|]. apply IH. by eapply view_step_ok.
Qed.

(** ** Listing *)

Definition readable (rows : list (Z * ViewRow)) : Prop := Forall (λ x : Z * ViewRow, is_Some (unmarshal_filters (vr_filters x.2))) rows.

Lemma scan_views_ok rows : readable rows →
  ∃ views, scan_views rows = Ok views ∧ Forall2 (λ x v, scan_view x.1 x.2 = Ok v ∧ sv_ID v = x.1 ∧ sv_LastUsedAt v = vr_last_used_at x.2) rows views.
Proof.
  induction rows as [|[id r] rows IH]; intros Hr; [by exists []|]. apply Forall_cons in Hr as [[f Hf] Hr].
  destruct (IH Hr) as (views & E & HF). cbn in Hf. cbn [scan_views]. unfold scan_view. rewrite Hf. cbn. rewrite E. cbn.
  eexists. split; [done|]. constructor; [|done]. cbn. unfold scan_view. by rewrite Hf.
Qed.

#[export] Instance used_later_swo : StrictWeakOrder used_later.
Proof. split; unfold not_after, used_later; intros *; rewrite ?Z.ltb_lt, ?Z.ltb_ge; lia. Qed.

Definition view_not_earlier (a b : SavedDashboardView) : Prop := sv_LastUsedAt b ≤ sv_LastUsedAt a.

Lemma scanned_sorted rows views :
  Forall2 (λ x v, scan_view x.1 x.2 = Ok v ∧ sv_ID v = x.1 ∧ sv_LastUsedAt v = vr_last_used_at x.2) rows views →
  StronglySorted (not_after used_later) rows → StronglySorted view_not_earlier views ∧ map sv_ID views = map fst rows.
Proof.
  induction 1 as [|x v rows views (_ & Hid & Hl) HF IH]; intros Hs; [by repeat constructor|].
  apply StronglySorted_inv in Hs as [Hs Hx]. destruct (IH Hs) as [IH1 IH2]. split; [|cbn; by f_equal]. constructor; [done|].
  clear -Hx HF Hl. induction HF as [|y w rows views (_ & _ & Hw) HF IH]; [by constructor|]. apply Forall_cons in Hx as [Hy Hx].
  constructor; [|by apply IH]. unfold view_not_earlier. unfold not_after, used_later in Hy. apply Z.ltb_ge in Hy. lia.
Qed.

(** What reading a stored row gives. *)
Lemma scan_stored id name text last created updated f : unmarshal_filters text = Some f →
  scan_view id {| vr_name := name; vr_filters := text; vr_last_used_at := last; vr_created_at := created; vr_updated_at := updated |} =
    Ok {| sv_ID := id; sv_Name := name; sv_Filters := f; sv_LastUsedAt := last; sv_CreatedAt := created; sv_UpdatedAt := updated |}.
Proof. intros E. unfold scan_view. cbn. by rewrite E. Qed.

(** Listing. *)
Lemma view_listing t found : views_ok t → found ≡ₚ map_to_list (vt_rows t) →
  ∃ views, view_List None found = Ok views ∧ map sv_ID views ≡ₚ map fst (map_to_list (vt_rows t)) ∧
    StronglySorted view_not_earlier views ∧ (∀ id v, view_GetByID None id t = Ok v ↔ v ∈ views ∧ sv_ID v = id) ∧
    NoDup (map sv_Name views).
Proof.
  intros [Hi Hn Hread] Hp. set (rows := sort_stable used_later found).
  assert (Hrows : rows ≡ₚ map_to_list (vt_rows t)) by (unfold rows; by rewrite sort_stable_perm).
  assert (Hin : ∀ id r, (id, r) ∈ rows ↔ vt_rows t !! id = Some r) by (intros id r; by rewrite Hrows, elem_of_map_to_list).
  assert (Hre : readable rows).
  { apply Forall_forall. intros [id r] Hx. by apply (Hread id r), Hin. }
  destruct (scan_views_ok rows Hre) as (views & E & HF). exists views.
  destruct (scanned_sorted rows views HF (sort_stable_sorted _ _)) as [Hs Hids].
  split; [exact E|]. split; [by rewrite Hids, Hrows|]. split; [done|]. split.
  - intros id v. unfold view_GetByID. split.
    + destruct (vt_rows t !! id) as [r|] eqn:Eid; [|done]. intros Ev. apply Hin, list_elem_of_lookup in Eid as [k Hk].
      destruct (Forall2_lookup_l _ _ _ _ _ HF Hk) as (v' & Hv' & Ev' & Hid & _). cbn in *. rewrite Ev in Ev'. injection Ev' as <-.
      split; [by eapply list_elem_of_lookup_2|done].
    + intros [[k Hk]%list_elem_of_lookup Hid]. destruct (Forall2_lookup_r _ _ _ _ _ HF Hk) as ([id' r] & Hx & Ev & Hid' & _).
      cbn in *. subst id'. apply list_elem_of_lookup_2, Hin in Hx. rewrite Hid in *. by rewrite Hx.
  - assert (En : map sv_Name views = map (λ x : Z * ViewRow, vr_name x.2) rows).
    { clear -HF. induction HF as [|[id r] v rows views (Ev & _) HF IH]; [done|]. cbn. rewrite IH. f_equal. cbn in Ev.
      unfold scan_view in Ev. destruct (unmarshal_filters _); [|done]. by injection Ev as <-. }
    rewrite En. apply (NoDup_fmap_2_strong (λ x : Z * ViewRow, vr_name x.2)).
    + intros [k x] [k' x'] Hx Hx' Hname. cbn in Hname. apply Hin in Hx, Hx'.
      assert (k = k') as <- by (by eapply Hn). congruence.
    + rewrite Hrows. apply NoDup_map_to_list.
Qed.

(** What the successful writes do. *)
Lemma view_created t dbnow name f t' v : views_ok t → view_Create None dbnow name f t = (t', Ok v) → storable f →
  sv_Name v = name ∧ sv_Filters v = f ∧ view_GetByID None (sv_ID v) t = Err ViewNoRows ∧ view_GetByID None (sv_ID v) t' = Ok v ∧
  ∀ id, id ≠ sv_ID v → view_GetByID None id t' = view_GetByID None id t.
Proof.
  intros [Hi _ _] E Hf. destruct (storable_roundtrip f Hf) as (text & Ej & Eu). unfold view_Create in E. rewrite Ej in E.
  destruct (text_error name); [done|]. destruct (name_taken _ _ _); [done|]. cbn [vr_filters] in E. rewrite (scan_stored _ _ _ _ _ _ f Eu) in E.
  injection E as <- <-. cbn. split_and!; [done|done| | |].
  - destruct (vt_rows t !! vt_next t) as [r|] eqn:E; [|done]. specialize (Hi _ _ E). lia.
  - rewrite lookup_insert_eq. by apply scan_stored.
  - intros id Hid. by rewrite lookup_insert_ne.
Qed.

Lemma view_updated t dbnow id name f t' v : view_Update None dbnow id name f t = (t', Ok v) → storable f →
  sv_ID v = id ∧ sv_Name v = name ∧ sv_Filters v = f ∧ view_GetByID None id t' = Ok v ∧
  (∀ u, view_GetByID None id t = Ok u → sv_LastUsedAt v = sv_LastUsedAt u ∧ sv_CreatedAt v = sv_CreatedAt u) ∧
  ∀ id', id' ≠ id → view_GetByID None id' t' = view_GetByID None id' t.
Proof.
  intros E Hf. destruct (storable_roundtrip f Hf) as (text & Ej & Eu). unfold view_Update in E. rewrite Ej in E.
  destruct (text_error name); [done|]. destruct (vt_rows t !! id) as [r|] eqn:Eid; [|done]. destruct (name_taken _ _ _); [done|].
  rewrite (scan_stored _ _ _ _ _ _ f Eu) in E. injection E as <- <-. cbn. rewrite Eid, lookup_insert_eq. split_and!; [done..| | |].
  - by apply scan_stored.
  - intros u Hu. unfold scan_view in Hu. destruct (unmarshal_filters (vr_filters r)); [|done]. by injection Hu as <-.
  - intros id' Hid. by rewrite lookup_insert_ne.
Qed.

Lemma view_deleted t id t' : view_Delete None id t = (t', Ok tt) →
  view_GetByID None id t' = Err ViewNoRows ∧ ∀ id', id' ≠ id → view_GetByID None id' t' = view_GetByID None id' t.
Proof.
  unfold view_Delete. destruct (vt_rows t !! id); [|done]. intros [= <-]. cbn. rewrite lookup_delete_eq. split; [done|].
  intros id' Hid. by rewrite lookup_delete_ne.
Qed.

Lemma view_touched t dbnow id t' : view_Touch None dbnow id t = (t', Ok tt) →
  (∀ u, view_GetByID None id t = Ok u → ∃ v, view_GetByID None id t' = Ok v ∧ sv_LastUsedAt v = dbnow ∧
     sv_Name v = sv_Name u ∧ sv_Filters v = sv_Filters u ∧ sv_CreatedAt v = sv_CreatedAt u ∧ sv_UpdatedAt v = sv_UpdatedAt u) ∧
  ∀ id', id' ≠ id → view_GetByID None id' t' = view_GetByID None id' t.
Proof.
  unfold view_Touch. destruct (vt_rows t !! id) as [r|] eqn:Eid; [|done]. intros [= <-]. cbn. rewrite Eid, lookup_insert_eq. split.
  - intros u Hu. unfold scan_view in *. cbn. destruct (unmarshal_filters (vr_filters r)); [|done]. injection Hu as <-. by eexists.
  - intros id' Hid. by rewrite lookup_insert_ne.
Qed.

(** Saved views.  In every table the calls can lead to, whatever they answer: a listing
    without a fault succeeds and shows each view once, the last used first, in whatever order
    the rows are found; no two views share a name.  A view that is created gets a new id and
    reads back as it was given; an update changes the name and filters of its view only; a view
    that was deleted is not found; using a view changes nothing but when it was used. *)
Lemma saved_views t : rtc view_step empty_views t →
  (∀ found, found ≡ₚ map_to_list (vt_rows t) → ∃ views, view_List None found = Ok views ∧
     map sv_ID views ≡ₚ map fst (map_to_list (vt_rows t)) ∧ StronglySorted view_not_earlier views ∧
     (∀ id v, view_GetByID None id t = Ok v ↔ v ∈ views ∧ sv_ID v = id) ∧ NoDup (map sv_Name views)) ∧
  (∀ dbnow name f t' v, view_Create None dbnow name f t = (t', Ok v) → storable f →
     sv_Name v = name ∧ sv_Filters v = f ∧ view_GetByID None (sv_ID v) t = Err ViewNoRows ∧
     view_GetByID None (sv_ID v) t' = Ok v ∧ ∀ id, id ≠ sv_ID v → view_GetByID None id t' = view_GetByID None id t) ∧
  (∀ dbnow id name f t' v, view_Update None dbnow id name f t = (t', Ok v) → storable f →
     sv_ID v = id ∧ sv_Name v = name ∧ sv_Filters v = f ∧ view_GetByID None id t' = Ok v ∧
     (∀ u, view_GetByID None id t = Ok u → sv_LastUsedAt v = sv_LastUsedAt u ∧ sv_CreatedAt v = sv_CreatedAt u) ∧
     ∀ id', id' ≠ id → view_GetByID None id' t' = view_GetByID None id' t) ∧
  (∀ id t', view_Delete None id t = (t', Ok tt) →
     view_GetByID None id t' = Err ViewNoRows ∧ ∀ id', id' ≠ id → view_GetByID None id' t' = view_GetByID None id' t) ∧
  (∀ dbnow id t', view_Touch None dbnow id t = (t', Ok tt) →
     (∀ u, view_GetByID None id t = Ok u → ∃ v, view_GetByID None id t' = Ok v ∧ sv_LastUsedAt v = dbnow ∧
        sv_Name v = sv_Name u ∧ sv_Filters v = sv_Filters u ∧ sv_CreatedAt v = sv_CreatedAt u ∧ sv_UpdatedAt v = sv_UpdatedAt u) ∧
     ∀ id', id' ≠ id → view_GetByID None id' t' = view_GetByID None id' t).
Proof.
  intros Hr%views_reachable_ok. split_and!.
  - intros found. by apply view_listing.
  - intros *. by apply view_created.
  - intros *. apply view_updated.
  - apply view_deleted.
  - apply view_touched.
Qed.

(** ** What the handlers answer *)

(** An unknown id is not found by every call but the update, which reports a failure of the
    server; a fault of the database reads as not found everywhere but there and in the listing. *)
Lemma unknown_view text fault dbnow idStr id name f t : ParseInt idStr = (id, true) → vt_rows t !! id = None → fault = None →
  name ≠ "" → jsonb_column (marshal_filters f) ≠ None → text_error name = None →
  rp_Status (getDashboardViewHandler fault idStr t) = 404 ∧
  rp_Status (deleteDashboardViewHandler text fault idStr t).2 = 404 ∧
  rp_Status (touchDashboardViewHandler text fault dbnow idStr t).2 = 404 ∧
  rp_Status (updateDashboardViewHandler text fault dbnow idStr (BodyOk (name, f)) t).2 = 500.
Proof.
  intros Ep Eid -> Hname Hj Ht. unfold getDashboardViewHandler, deleteDashboardViewHandler, touchDashboardViewHandler,
    updateDashboardViewHandler, with_view_id, named_body, view_done, view_written, view_GetByID, view_Delete, view_Touch, view_Update.
  rewrite Ep, Eid, bool_decide_eq_false_2 by done. cbn. split_and!; try done. destruct (jsonb_column _); [|done]. rewrite Ht. by rewrite ?Eid.
Qed.

(** A refused request leaves the table alone. *)
Lemma refused_views text fault dbnow idStr body t : 
  (ParseInt idStr).2 = false ∨ (∀ x, body ≠ BodyOk x) ∨ (∃ f, body = BodyOk ("", f)) →
  updateDashboardViewHandler text fault dbnow idStr body t = (t, refuse 400 "invalid view id") ∨
  updateDashboardViewHandler text fault dbnow idStr body t = (t, refuse 400 "invalid request body") ∨
  updateDashboardViewHandler text fault dbnow idStr body t = (t, refuse 400 "name is required").
Proof.
  unfold updateDashboardViewHandler, with_view_id, named_body. destruct (ParseInt idStr) as [id [|]]; [|by left].
  intros [?|[Hb|[f ->]]]; [done| |by right; right]. right. left. destruct body as [x| |]; [|done..]. by destruct (Hb x).
Qed.

(** * Favourites *)

#[export] Instance newer_favourite_swo : StrictWeakOrder newer_favourite.
Proof. split; unfold not_after, newer_favourite; intros *; rewrite ?Z.ltb_lt, ?Z.ltb_ge; lia. Qed.

(** Adding is idempotent and keeps the first date; removing what was added gives back the table
    it was added to; a listing names every favourite once. *)
Lemma favourites_spec dbnow dbnow' course (t : gmap string Z) : text_error course = None →
  favourite_Add None dbnow' course (favourite_Add None dbnow course t).1 = ((favourite_Add None dbnow course t).1, Ok tt) ∧
  (t !! course = None → favourite_Remove None course (favourite_Add None dbnow course t).1 = (t, Ok tt)) ∧
  (t !! course = None → ∃ e, favourite_Remove None course t = (t, Err e)) ∧
  (∀ found, found ≡ₚ map_to_list t → ∃ ids, favourite_GetAll None found = Ok ids ∧ NoDup ids ∧ ∀ id, id ∈ ids ↔ is_Some (t !! id)).
Proof.
  intros Ht. unfold favourite_Add, favourite_Remove. rewrite Ht. cbn. split_and!.
  - destruct (t !! course) eqn:E; [by rewrite E|by rewrite lookup_insert_eq].
  - intros E. rewrite E, lookup_insert_eq. by rewrite delete_insert_id.
  - intros E. rewrite E. by eexists.
  - intros found Hf. eexists. split; [done|]. assert (Hp : map fst (sort_stable newer_favourite found) ≡ₚ (map_to_list t).*1).
    { rewrite sort_stable_perm. by rewrite Hf. }
    split; [rewrite Hp; apply NoDup_fst_map_to_list|]. intros id. rewrite Hp, list_elem_of_fmap. split.
    + intros ([k x] & -> & Hx%elem_of_map_to_list). by eexists.
    + intros [x Hx]. exists (id, x). split; [done|by apply elem_of_map_to_list].
Qed.
End spec.

(** * An instance *)

(** Filters of a threshold only, kept as its digit: a column that stores one digit. *)
Definition digit_filters (n : Z) : DashboardFilters :=
  {| df_CourseIds := []; df_DateRange := None; df_Threshold := n; df_SortBy := "risk"; df_WCodes := [] |}.

Definition digit_value (s : string) : option Z := match ParseInt s with (n, true) => Some n | _ => None end.

#[export] Instance digit_lib : ViewLib := {
  marshal_filters f := Itoa (df_Threshold f);
  jsonb_column s := if digit_value s then Some s else None;
  unmarshal_filters s := digit_filters <$> digit_value s;
  text_error name := if has_byte Ascii.zero name then Some "invalid byte sequence" else None
}.

#[export] Instance digit_laws : ViewLaws.
Proof.
  refine {| storable f := f = digit_filters (df_Threshold f) ∧ 0 ≤ df_Threshold f < 10 |}.
  - intros f [Ef Hd]. exists (Itoa (df_Threshold f)). cbn.
    assert (E : digit_value (Itoa (df_Threshold f)) = Some (df_Threshold f)).
    { assert (Hall : Forall (λ n, digit_value (Itoa n) = Some n) (seqZ 0 10)) by (vm_compute; repeat constructor).
      rewrite Forall_forall in Hall. apply Hall, elem_of_seqZ. lia. }
    rewrite E. cbn. split; [done|by f_equal].
  - intros f text. cbn. destruct (digit_value (Itoa (df_Threshold f))) eqn:E; [|done]. intros [= <-]. rewrite E. by eexists.
Qed.

(** Two views, the second of which is used again, renamed to a free name and not to a taken one. *)
Definition two_views : ViewTable :=
  (view_Touch None 9 1 (view_Create None 7 "late" (digit_filters 4) (view_Create None 5 "early" (digit_filters 3) empty_views).1).1).1.

Example views_listed :
  (λ l, map sv_Name l) <$> (match view_List None (map_to_list (vt_rows two_views)) with Ok l => Some l | Err _ => None end) = Some ["early"; "late"] ∧
  (view_Update None 8 2 "early" (digit_filters 4) two_views).2 = Err (ViewDuplicateName "early").
Proof. vm_compute. split; reflexivity. Qed.
