(* ===== verification/Live.v ===== *)
(** The interactive client of the site ([warwick/classroom_client.go], [classroom_courses.go],
    [classroom_sessions.go], [classroom_profiles.go], [classroom_checkin.go],
    [classroom_report.go]) and the attendance label ([warwick/attendance_label.go]): reads and
    the check-in write, each with one retry after a rejected session.

    A read takes what the pool (or the authenticator) and the site answer, by attempt, and gives
    the cookies of the requests it sent with its result.  [encoding/json], the HTML parser and
    the text of [%v] and [Sscanf] are parameters.  A read with a pool is the producer that
    [Inflight] shares between callers.

    Theorems about the interactive client: how many requests it sends, that a check-in is only
    written again after it was refused for its session, that it agrees with the snapshot source
    on a well-formed answer, and where its listing of profiles falls short. *)

From stdpp Require Import base list numbers strings gmap pretty.
From Stdlib Require Import ZArith QArith Lia.
From S2P Require Import Prelude Sanitize Float64 Domain Canonical Validation HostState Coordinator SessionPool Upstream Source RoomRepo Report.

Local Open Scope Z_scope.
Local Open Scope stdpp_scope.
Local Open Scope go_scope.

(** * Requests *)

Definition maxBodySize : Z := 2 ^ 20.

(** [io.LimitReader] *)
Definition limited_body (r : HTTPResponse) : string * option string := read_limited (maxBodySize - 1) r.

Definition domain_ErrRateLimited : GoErr := fetch_err ErrKindRateLimited "".

Definition checkAuth (r : HTTPResponse) : option GoErr :=
  let code := hr_StatusCode r in
  if (code =? 302) || (code =? 301) then Some ErrAuthExpired
  else if (code =? 401) || (code =? 403) then Some ErrAuthExpired
  else if code =? 429 then Some domain_ErrRateLimited
  else if Contains "text/html" (bytes_of (hr_Header r "Content-Type")) then
    if authSignalsDetected (limited_body r).1 then Some ErrAuthExpired else None
  else None.

(** The status is looked at by [checkAuth] only. *)
Definition live_request {R} (decode : string → option string → result string (DataTable R)) (what : string) (env : RequestEnv)
    : result GoErr (DataTable R) :=
  match re_Response env with
  | Err msg => Err (requestError (re_Ctx env) msg)
  | Ok r =>
      match checkAuth r with
      | Some e => Err e
      | None =>
          match decode (limited_body r).1 (limited_body r).2 with
          | Err msg => Err (NewInvalidPayloadError ("decode " +:+ what +:+ ": " +:+ msg))
          | Ok t => Ok t
          end
      end
  end.

Definition doToggleCheckin (env : RequestEnv) : result GoErr unit :=
  match re_Response env with
  | Err msg => Err (requestError (re_Ctx env) msg)
  | Ok r =>
      match checkAuth r with
      | Some e => Err e
      | None =>
          if negb (hr_StatusCode r =? 200)
          then Err (NewInvalidPayloadError ("toggle checkin failed (" +:+ pretty (hr_StatusCode r) +:+ "): " +:+ (limited_body r).1))
          else Ok tt
      end
  end.

(** * Sessions and the retry *)

Definition is_auth_expired (e : GoErr) : bool := bool_decide (err_Fetch e = Some ErrKindAuthExpired).

(** What the pool answers to the acquisition and to the renewal, with the context after each. *)
Record PoolAnswers := {
  pa_Acquire : SessionAnswer;
  pa_Refresh : SessionAnswer
}.

(** The authenticator is asked once per attempt. *)
Record AuthAnswers := {
  au_Get : nat → SessionAnswer;
  au_Refresh : nat → SessionAnswer
}.

Definition live_acquire_error (e : SessionError) (ctx : option CtxDone) : GoErr := acquire_error ctx e.

(** The pool's session is held for both attempts; the error of the last one is returned. *)
Definition pool_read {A} (sessions : PoolAnswers) (ask : nat → string → result GoErr A) : list string * result GoErr A :=
  match pa_Acquire sessions with
  | Err (e, ctx) => ([], Err (live_acquire_error e ctx))
  | Ok cookie =>
      match ask 0%nat cookie with
      | Ok a => ([cookie], Ok a)
      | Err e =>
          if is_auth_expired e then
            match pa_Refresh sessions with
            | Err (e', ctx) => ([cookie], Err (refresh_error true ctx e'))
            | Ok cookie' => ([cookie; cookie'], ask 1%nat cookie')
            end
          else ([cookie], Err e)
      end
  end.

Definition auth_get_error (ctx : option CtxDone) : GoErr := match ctx with Some c => ctx_err c | None => ErrAuthExpired end.

(** With the authenticator the session is renewed after the second rejection, too. *)
Fixpoint auth_read {A} (sessions : AuthAnswers) (ask : nat → string → result GoErr A) (attempt left : nat) (lastErr : GoErr)
    : list string * result GoErr A :=
  match left with
  | O => ([], Err lastErr)
  | S left' =>
      match au_Get sessions attempt with
      | Err (_, ctx) => ([], Err (auth_get_error ctx))
      | Ok cookie =>
          match ask attempt cookie with
          | Ok a => ([cookie], Ok a)
          | Err e =>
              if is_auth_expired e then
                match au_Refresh sessions attempt with
                | Err (_, ctx) => ([cookie], Err (auth_get_error ctx))
                | Ok _ => let '(used, r) := auth_read sessions ask (S attempt) left' e in (cookie :: used, r)
                end
              else ([cookie], Err e)
          end
      end
  end.

(** A client has a pool or an authenticator. *)
Inductive LiveSessions := WithPool (p : PoolAnswers) | WithAuth (a : AuthAnswers).

Definition live_read {A} (sessions : LiveSessions) (ask : nat → string → result GoErr A) : list string * result GoErr A :=
  match sessions with
  | WithPool p => pool_read p ask
  | WithAuth a => auth_read a ask 0 2 ErrAuthExpired
  end.

(** The write looks for the very error of a rejected session, and does not renew after the
    second attempt. *)
Definition toggleCheckinWithPool (sessions : PoolAnswers) (ask : nat → string → RequestEnv) : list string * result GoErr unit :=
  match pa_Acquire sessions with
  | Err (e, _) => ([], Err (acquire_error None e))
  | Ok cookie =>
      match doToggleCheckin (ask 0%nat cookie) with
      | Ok _ => ([cookie], Ok tt)
      | Err e =>
          if negb (err_AuthExpired e) then ([cookie], Err e)
          else match pa_Refresh sessions with
               | Err (e', ctx) => ([cookie], Err (refresh_error true ctx e'))
               | Ok cookie' => ([cookie; cookie'], doToggleCheckin (ask 1%nat cookie'))
               end
      end
  end.

Definition toggle_with_auth (sessions : AuthAnswers) (ask : nat → string → RequestEnv) : list string * result GoErr unit :=
  match au_Get sessions 0 with
  | Err (_, ctx) => ([], Err (auth_get_error ctx))
  | Ok cookie =>
      match doToggleCheckin (ask 0%nat cookie) with
      | Ok _ => ([cookie], Ok tt)
      | Err e =>
          if negb (err_AuthExpired e) then ([cookie], Err e)
          else match au_Refresh sessions 0 with
               | Err (_, ctx) => ([cookie], Err (auth_get_error ctx))
               | Ok _ =>
                   match au_Get sessions 1 with
                   | Err (_, ctx) => ([cookie], Err (auth_get_error ctx))
                   | Ok cookie' => ([cookie; cookie'], doToggleCheckin (ask 1%nat cookie'))
                   end
               end
      end
  end.

Definition ClassroomClient_ToggleCheckin (sessions : LiveSessions) (ask : nat → string → RequestEnv) : list string * result GoErr unit :=
  match sessions with
  | WithPool p => toggleCheckinWithPool p ask
  | WithAuth a => toggle_with_auth a ask
  end.

(** * The reads *)

Section live.
Context `{GoLib, SourceLib}.
(** [fmt.Sprintf] with %v of an untyped field, and the number [fmt.Sscanf] with %d reads (0 when
    it fails). *)
Context (Sprint : JAny json_float → string) (Sscan_int : string → Z).
Context (decode_courses : string → option string → result string (DataTable (ClassAttendanceRow json_float)))
  (decode_sessions : string → option string → result string (DataTable (ClassAttendanceDetailRow json_float)))
  (decode_students : string → option string → result string (DataTable StudentCheckInRow))
  (decode_profiles : string → option string → result string (DataTable UserGroupRow)).

Definition live_enrolled (v : JAny json_float) : Z :=
  match v with
  | JNumber x => duration_of_float (float_value x)
  | JString s => if bool_decide (s = "") then 0 else Sscan_int s
  | JOther => 0
  end.

Definition live_course (clock : Z) (row : ClassAttendanceRow json_float) : CourseSummary :=
  let startDate := normalizeWarwickDate (ca_StartDate row) in
  let endDate := normalizeWarwickDate (ca_EndDate row) in
  {| cs_CourseID := Sprint (ca_ID row); cs_Name := ca_CourseName row; cs_StartDate := startDate; cs_EndDate := endDate;
     cs_EnrolledCount := live_enrolled (ca_Enrolled row); cs_TotalSessions := 0; cs_CompletedSessions := 0;
     cs_AvgAttendanceRate := 0%Q;
     cs_Status := match GetCourseStatus clock startDate endDate with Ok s => s | Err _ => CourseStatusActive end |}.

Definition fetchCourses (clock : nat → Z) (env : RequestEnv) : result GoErr (list CourseSummary) :=
  let* t := live_request decode_courses "ClassAttendanceSearch" env in Ok (imap (λ i row, live_course (clock i) row) (dt_Data t)).

Fixpoint live_sessions (index : nat) (rows : list (ClassAttendanceDetailRow json_float)) : list SessionSummary :=
  match rows with
  | [] => []
  | row :: rows' => course_session index (Sprint (cad_DID row)) row :: live_sessions (S index) rows'
  end.

Definition completed_sessions (sessions : list SessionSummary) : Z :=
  Z.of_nat (length (base.filter (λ s, session_status_string (ss_Status s) = "done") sessions)).

Definition live_course_detail (courseID courseName : string) (sessions : list SessionSummary) : CourseDetail :=
  {| cd_Summary := {| cs_CourseID := courseID; cs_Name := courseName; cs_StartDate := ""; cs_EndDate := ""; cs_EnrolledCount := 0;
       cs_TotalSessions := Z.of_nat (length sessions); cs_CompletedSessions := completed_sessions sessions;
       cs_AvgAttendanceRate := 0%Q; cs_Status := CourseStatusOther "" |};
     cd_Sessions := sessions |}.

(** The name is set by the callers. *)
Definition fetchCourseDetail (courseID courseName : string) (env : RequestEnv) : result GoErr CourseDetail :=
  let* t := live_request decode_sessions "ClassAttendanceDetail" env in
  Ok (live_course_detail courseID courseName (live_sessions 0 (dt_Data t))).

Definition live_student (row : StudentCheckInRow) : StudentCheckin := session_student 0 (sci_StudentID row) row.

Definition live_session_detail (sessionID : string) (students : list StudentCheckin) : SessionDetail :=
  {| sd_Summary := {| ss_SessionID := sessionID; ss_SessionNumber := 0; ss_Name := ""; ss_Date := "";
       ss_CheckedInCount := checked_in students; ss_TotalStudents := Z.of_nat (length students); ss_Status := SessionStatusOther "" |};
     sd_Students := students; sd_QRActive := false; sd_QRExpiresAt := None |}.

Definition fetchSessionDetail (sessionID : string) (env : RequestEnv) : result GoErr SessionDetail :=
  let* t := live_request decode_students "StudentCheckInSearch" env in
  Ok (live_session_detail sessionID (map live_student (dt_Data t))).

(** ** Profiles *)

Definition live_profile (row : UserGroupRow) : StudentProfile :=
  {| sp_StudentID := ug_StudentID row; sp_StudentGuid := ug_StudentGuid row; sp_FullName := ug_FullName row; sp_School := ug_School row |}.

(** A further page: its answer is decoded whatever its status; a failure ends the loop. *)
Definition live_page (env : RequestEnv) : option (list UserGroupRow) :=
  match re_Response env with
  | Err _ => None
  | Ok r => match decode_profiles (limited_body r).1 (limited_body r).2 with Err _ => None | Ok t => Some (dt_Data t) end
  end.

Fixpoint live_pages (pages : nat → RequestEnv) (page remaining : nat) : list UserGroupRow :=
  match remaining with
  | O => []
  | S remaining' =>
      match live_page (pages page) with
      | None => []
      | Some [] => []
      | Some rows => rows ++ live_pages pages (S page) remaining'
      end
  end.

(** [page n] is the answer to the request for the rows from 500 n on. *)
Definition fetchStudentProfiles (page : nat → RequestEnv) : result GoErr (list StudentProfile) :=
  let* first := live_request decode_profiles "UserGroupSearch" (page 0%nat) in
  let total := dt_RecordsTotal first in
  if (total <? 0) || (maxProfileRecords <? total)
  then Err (NewInvalidPayloadError ("UserGroupSearch recordsTotal " +:+ pretty total +:+ " outside supported range"))
  else if bool_decide (dt_Data first = []) then Ok []
  else Ok (map live_profile (dt_Data first ++ live_pages page 1 (Z.to_nat (expected_pages total) - 1))).

(** ** Courses *)

(** The detail of one course in the enrichment; a failure leaves the course as it is. *)
Definition live_enrich_course (detail : result GoErr CourseDetail) (c : CourseSummary) : CourseSummary :=
  if bool_decide (course_status_string (cs_Status c) = "finished") then c
  else
    match detail with
    | Err _ => c
    | Ok d =>
        {| cs_CourseID := cs_CourseID c; cs_Name := cs_Name c; cs_StartDate := cs_StartDate c; cs_EndDate := cs_EndDate c;
           cs_EnrolledCount := cs_EnrolledCount c; cs_TotalSessions := cs_TotalSessions (cd_Summary d);
           cs_CompletedSessions := cs_CompletedSessions (cd_Summary d); cs_AvgAttendanceRate := cs_AvgAttendanceRate c;
           cs_Status := cs_Status c |}
    end.

(** [order] is the indexes in the order in which the jobs wrote. *)
Definition live_enrichCourses (details : nat → result GoErr CourseDetail) (order : list nat) (courses : list CourseSummary)
    : list CourseSummary :=
  foldl (λ cs i, alter (live_enrich_course (details i)) i cs) courses order.

(** With a pool the user of the query is resolved first ([resolveUserID]); it is part of the
    request. *)
Definition fetchCoursesRaw (sessions : LiveSessions) (clock : nat → Z) (ask : nat → string → RequestEnv) : list string * result GoErr (list CourseSummary) :=
  live_read sessions (λ n cookie, fetchCourses clock (ask n cookie)).

Definition ClassroomClient_GetCourseCatalog := fetchCoursesRaw.

Definition ClassroomClient_GetCourses (sessions : LiveSessions) (clock : nat → Z) (ask : nat → string → RequestEnv)
    (details : nat → result GoErr CourseDetail) (order : list nat) : result GoErr (list CourseSummary) :=
  match (fetchCoursesRaw sessions clock ask).2 with
  | Err e => Err e
  | Ok courses => Ok (live_enrichCourses details order courses)
  end.

(** The first course of the catalog with the identifier; no name when it cannot be read. *)
Definition lookupCourseName (catalog : result GoErr (list CourseSummary)) (courseID : string) : string :=
  match catalog with
  | Err _ => ""
  | Ok courses => match head (base.filter (λ c, cs_CourseID c = courseID) courses) with Some c => cs_Name c | None => "" end
  end.

Definition getCourseDetailLive (sessions : LiveSessions) (catalog : result GoErr (list CourseSummary)) (courseID courseName : string)
    (ask : nat → string → RequestEnv) : list string * result GoErr CourseDetail :=
  let courseName := if bool_decide (courseName = "") then lookupCourseName catalog courseID else courseName in
  live_read sessions (λ n cookie, fetchCourseDetail courseID courseName (ask n cookie)).

Definition ClassroomClient_GetSessionDetail (sessions : LiveSessions) (sessionID : string) (ask : nat → string → RequestEnv)
    : list string * result GoErr SessionDetail :=
  live_read sessions (λ n cookie, fetchSessionDetail sessionID (ask n cookie)).

Definition ClassroomClient_FetchStudentProfiles (sessions : option LiveSessions) (ask : nat → string → nat → RequestEnv)
    : list string * result GoErr (list StudentProfile) :=
  match sessions with
  | None => ([], Err (plain_err "ClassroomClient has no auth and no pool"))
  | Some s => live_read s (λ n cookie, fetchStudentProfiles (ask n cookie))
  end.

(** [wait] is the rate limiter's error, with the context after it; there is no retry. *)
Definition ClassroomClient_FetchSessionForReport (pool : option PoolAnswers) (wait : option (option CtxDone)) (sessionID : string)
    (ask : string → RequestEnv) : list string * result GoErr SessionDetail :=
  match pool with
  | None => ([], Err (plain_err "FetchSessionForReport requires a session pool"))
  | Some p =>
      match wait with
      | Some (Some c) => ([], Err (ctx_err c))
      | Some None => ([], Err domain_ErrRateLimited)
      | None =>
          match pa_Acquire p with
          | Err (e, ctx) => ([], Err (live_acquire_error e ctx))
          | Ok cookie => ([cookie], fetchSessionDetail sessionID (ask cookie))
          end
      end
  end.
End live.

(** * The user of the course queries *)

Definition defaultUserID : string := "f21992ca-e6d2-424d-a188-90e37018ab38".

Record UserIDState := { ui_userID : string; ui_resolved : bool }.

Definition effectiveUserID (s : UserIDState) : string := if bool_decide (ui_userID s = "") then defaultUserID else ui_userID s.
Definition SetUserID (id : string) (s : UserIDState) : UserIDState := {| ui_userID := id; ui_resolved := ui_resolved s |}.

Definition user_id_pages : list string := ["/admin/ClassAttendance"; "/admin/ClassAttendance/Index"; "/admin/"].

(** The first page that names the user; [ended p] is whether the context is over after page
    [p]. *)
Fixpoint detect_in_pages (try : string → string) (ended : string → bool) (pages : list string) : string :=
  match pages with
  | [] => ""
  | p :: pages' =>
      if bool_decide (try p ≠ "") then try p
      else if ended p then "" else detect_in_pages try ended pages'
  end.

Definition detectUserIDFromPage (client : bool) (try : string → string) (ended : string → bool) : string :=
  if client then detect_in_pages try ended user_id_pages else "".

(** Under the resolution mutex: a detection that was cancelled is not remembered.  [configured]
    is an identifier set while the pages were read. *)
Definition resolveUserID (detected configured : string) (cancelled : bool) (s : UserIDState) : UserIDState * string :=
  if bool_decide (ui_userID s ≠ "") || ui_resolved s then (s, effectiveUserID s)
  else
    let s := {| ui_userID := configured; ui_resolved := ui_resolved s |} in
    if cancelled then (s, effectiveUserID s)
    else
      let s := {| ui_userID := if bool_decide (ui_userID s = "") then (if bool_decide (detected ≠ "") then detected else defaultUserID)
                               else ui_userID s;
                  ui_resolved := true |} in
      (s, effectiveUserID s).

Definition classifyEndpoint (path : string) : string :=
  let has s := Contains s (bytes_of path) in
  if has "ClassAttendanceSearch" && negb (has "Detail") then "course_list"
  else if has "ClassAttendanceDetailSearch" then "course_detail"
  else if has "ClassAttendanceStudentCheckInSearch" then "session_detail"
  else if has "UserGroupSearch" then "student_profiles"
  else if has "ToggleCheckin" then "toggle_checkin"
  else if has "GetQRCode" then "qr_code"
  else "other".

(** * The attendance label *)

(** What the HTML parser gives: elements with their attributes, texts, and nodes of other
    types. *)
Inductive HtmlNode :=
| HtmlElement (attrs : list (string * string)) (children : list HtmlNode)
| HtmlText (data : string)
| HtmlOther (children : list HtmlNode).

Definition flush_field (cur : list nat) : list (list nat) := match cur with [] => [] | _ => [cur] end.

(** [strings.Fields]; the length of the text is enough fuel. *)
Fixpoint fields_from (fuel : nat) (cur l : list nat) : list (list nat) :=
  match fuel, l with
  | S fuel', b :: l' =>
      match strip_first white_space l with
      | Some rest => flush_field cur ++ fields_from fuel' [] rest
      | None => fields_from fuel' (cur ++ [b]) l'
      end
  | _, _ => flush_field cur
  end.
Definition Fields (s : string) : list (list nat) := fields_from (length (bytes_of s)) [] (bytes_of s).

Fixpoint join_space (parts : list (list nat)) : list nat :=
  match parts with
  | [] => []
  | [p] => p
  | p :: parts' => p ++ 32%nat :: join_space parts'
  end.

Definition hasHTMLClass (attrs : list (string * string)) (target : string) : bool :=
  existsb (λ a : string * string, bool_decide (a.1 = "class") && existsb (λ c, bool_decide (c = bytes_of target)) (Fields a.2)) attrs.

Fixpoint html_texts (n : HtmlNode) : list (list nat) :=
  match n with
  | HtmlElement _ children => flat_map html_texts children
  | HtmlText data => flush_field (bytes_of (TrimSpace data))
  | HtmlOther children => flat_map html_texts children
  end.

Definition normalizeHTMLText (n : HtmlNode) : string :=
  string_of_bytes (join_space (Fields (string_of_bytes (join_space (html_texts n))))).

(** The texts of the elements of the class, in document order. *)
Fixpoint html_labels (n : HtmlNode) : list string :=
  match n with
  | HtmlElement attrs children =>
      (if hasHTMLClass attrs "head-sub" then
         let label := normalizeHTMLText n in if bool_decide (label = "") then [] else [label]
       else []) ++ flat_map html_labels children
  | HtmlText _ => []
  | HtmlOther children => flat_map html_labels children
  end.

Definition maxLabelRunes : nat := 160.

(** [doc] is the parser's tree, or the text of its error. *)
Definition parseAttendanceLabelHTML (doc : result string HtmlNode) : result string string :=
  match doc with
  | Err e => Err ("parse Humantix attendance page: " +:+ e)
  | Ok tree =>
      match html_labels tree with
      | [] => Err "Humantix attendance label not found"
      | [label] =>
          if (maxLabelRunes <? RuneCountInString label)%nat then Err "Humantix attendance label is unexpectedly long" else Ok label
      | _ => Err "Humantix attendance label is ambiguous"
      end
  end.

Definition attendancePageBodyLimit : Z := 2 ^ 20.

Definition qr_invalid (msg : string) : QrError := QrFetch ErrKindInvalidPayload msg.

Section label.
(** The media type of a Content-Type header, and the HTML parser. *)
Context (mime_ParseMediaType : string → option string) (html_Parse : string → result string HtmlNode).

Definition fetchAttendanceLabelWithCookie (env : RequestEnv) : result QrError string :=
  match re_Response env with
  | Err msg => Err (qr_request_error (re_Ctx env) msg)
  | Ok r =>
      let code := hr_StatusCode r in
      if (code =? 302) || (code =? 301) || (code =? 401) || (code =? 403) then Err (QrFetch ErrKindAuthExpired "")
      else if code =? 429 then Err (QrFetch ErrKindRateLimited "")
      else if negb (code =? 200) then Err (QrFetch ErrKindNetwork ("Humantix attendance page returned status " +:+ pretty code))
      else if negb (bool_decide (mime_ParseMediaType (hr_Header r "Content-Type") = Some "text/html"))
      then Err (qr_invalid "Humantix attendance page did not return HTML")
      else
        match read_limited attendancePageBodyLimit r with
        | (_, Some msg) => Err (qr_request_error (re_Ctx env) msg)
        | (body, None) =>
            if attendancePageBodyLimit <? Z.of_nat (String.length body)
            then Err (qr_invalid "Humantix attendance page exceeded body limit")
            else if authSignalsDetected body then Err (QrFetch ErrKindAuthExpired "")
            else match parseAttendanceLabelHTML (html_Parse body) with
                 | Err msg => Err (qr_invalid msg)
                 | Ok label => Ok label
                 end
        end
  end.

Definition is_qr_auth_expired (e : QrError) : bool := match e with QrFetch ErrKindAuthExpired _ => true | _ => false end.

(** The renewed session's answer is final. *)
Definition label_attempts (refresh : SessionAnswer) (refresh_failed : option CtxDone → SessionError → QrError) (cookie : string)
    (ask : nat → string → RequestEnv) : list string * result QrError string :=
  match fetchAttendanceLabelWithCookie (ask 0%nat cookie) with
  | Ok label => ([cookie], Ok label)
  | Err e =>
      if is_qr_auth_expired e then
        match refresh with
        | Err (e', ctx) => ([cookie], Err (refresh_failed ctx e'))
        | Ok cookie' => ([cookie; cookie'], fetchAttendanceLabelWithCookie (ask 1%nat cookie'))
        end
      else ([cookie], Err e)
  end.

Definition label_auth_error (ctx : option CtxDone) (_ : SessionError) : QrError :=
  match ctx with Some c => QrCtx c | None => QrFetch ErrKindAuthExpired "" end.

(** [sessions] is the pool's or the authenticator's answers, or neither. *)
Definition FetchAttendanceLabelContext (classID : string) (sessions : option (bool * SessionAnswer * SessionAnswer))
    (ask : nat → string → RequestEnv) : list string * result QrError string :=
  if blank classID then ([], Err (qr_invalid "class id is required for attendance verification"))
  else
    match sessions with
    | None => ([], Err (QrFetch ErrKindAuthExpired ""))
    | Some (pool, get, refresh) =>
        let failed := if pool : bool then qr_acquire_error else label_auth_error in
        match get with
        | Err (e, ctx) => ([], Err (failed ctx e))
        | Ok cookie => label_attempts refresh failed cookie ask
        end
    end.
End label.

(** * Requests and retries *)

(** At most two requests; the second only after the first was answered with an expired session;
    the result is the answer to the last. *)
Definition one_retry {A} (ask : nat → string → result GoErr A) (out : list string * result GoErr A) : Prop :=
  match out.1 with
  | [] => ∃ e, out.2 = Err e
  | [c] => out.2 = ask 0%nat c ∨ (∃ e e', ask 0%nat c = Err e ∧ is_auth_expired e = true ∧ out.2 = Err e')
  | [c; c'] => ∃ e, ask 0%nat c = Err e ∧ is_auth_expired e = true ∧
      (out.2 = ask 1%nat c' ∨ ∃ e' e'', ask 1%nat c' = Err e' ∧ is_auth_expired e' = true ∧ out.2 = Err e'')
  | _ => False
  end.

Lemma pool_read_retry {A} sessions (ask : nat → string → result GoErr A) : one_retry ask (pool_read sessions ask).
Proof.
  unfold pool_read, one_retry. destruct (pa_Acquire sessions) as [cookie|[e ctx]]; cbn; [|by eexists].
  destruct (ask 0%nat cookie) as [a|e] eqn:E; cbn; [by left|].
  destruct (is_auth_expired e) eqn:Ea; cbn; [|by left].
  destruct (pa_Refresh sessions) as [cookie'|[e' ctx]]; cbn; [|right; by exists e, (refresh_error true ctx e')].
  exists e. split_and!; [done|done|by left].
Qed.

Lemma auth_read_retry {A} sessions (ask : nat → string → result GoErr A) : one_retry ask (auth_read sessions ask 0 2 ErrAuthExpired).
Proof.
  unfold one_retry. cbn [auth_read]. destruct (au_Get sessions 0) as [cookie|[e ctx]]; cbn; [|by eexists].
  destruct (ask 0%nat cookie) as [a|e] eqn:E; cbn; [by left|].
  destruct (is_auth_expired e) eqn:Ea; cbn; [|by left].
  destruct (au_Refresh sessions 0) as [x|[x ctx]]; cbn; [|right; by exists e, (auth_get_error ctx)].
  destruct (au_Get sessions 1) as [cookie'|[e' ctx]]; cbn; [|right; by exists e, (auth_get_error ctx)].
  destruct (ask 1%nat cookie') as [a|e'] eqn:E'; cbn; [exists e; split_and!; [done|done|by left]|].
  destruct (is_auth_expired e') eqn:Ea'; cbn; [|exists e; split_and!; [done|done|by left]].
  destruct (au_Refresh sessions 1) as [y|[y ctx]]; cbn; exists e; (split_and!; [done|done|right; by do 2 eexists]).
Qed.

Lemma live_read_retry {A} sessions (ask : nat → string → result GoErr A) : one_retry ask (live_read sessions ask).
Proof. destruct sessions; [apply pool_read_retry|apply auth_read_retry]. Qed.

(** A success is what the site answered to the last request. *)
Lemma live_read_ok {A} sessions (ask : nat → string → result GoErr A) a : (live_read sessions ask).2 = Ok a →
  ∃ n cookie, last (live_read sessions ask).1 = Some cookie ∧ ask n cookie = Ok a ∧ (n < 2)%nat.
Proof.
  intros E. pose proof (live_read_retry sessions ask) as Hr. unfold one_retry in Hr. rewrite E in Hr.
  destruct (live_read sessions ask).1 as [|c [|c' [|]]]; [by destruct Hr| | |done].
  - destruct Hr as [Hr|(e & e' & _ & _ & ?)]; [|done]. exists 0%nat, c. split_and!; [done|done|lia].
  - destruct Hr as (e & _ & _ & [Hr|(e' & e'' & _ & _ & ?)]); [|done]. exists 1%nat, c'. split_and!; [done|done|lia].
Qed.

(** ** The write *)

(** A response that says the session is not valid. *)
Definition session_refused (env : RequestEnv) : Prop := ∃ r, re_Response env = Ok r ∧ checkAuth r = Some ErrAuthExpired.

Lemma checkAuth_error r e : checkAuth r = Some e → e = ErrAuthExpired ∨ e = domain_ErrRateLimited.
Proof. unfold checkAuth. repeat case_match; intros [= <-]; auto. Qed.

Lemma toggle_auth_expired env e : doToggleCheckin env = Err e → err_AuthExpired e = true → session_refused env.
Proof.
  unfold doToggleCheckin. destruct (re_Response env) as [r|msg] eqn:Er.
  - destruct (checkAuth r) as [e'|] eqn:Ec.
    + intros [= <-] Ha. exists r. split; [done|]. destruct (checkAuth_error r e' Ec) as [-> | ->]; done.
    + destruct (negb _); [|done]. by intros [= <-].
  - intros [= <-] Ha. unfold requestError in Ha. by destruct (re_Ctx env) as [[|]|].
Qed.

Lemma toggle_ok env : doToggleCheckin env = Ok tt → ∃ r, re_Response env = Ok r ∧ hr_StatusCode r = 200.
Proof.
  unfold doToggleCheckin. destruct (re_Response env) as [r|]; [|done]. destruct (checkAuth r); [done|].
  destruct (Z.eqb_spec (hr_StatusCode r) 200); [|done]. intros _. by exists r.
Qed.

(** The write is sent at most twice, the second time only after the site refused the first one's
    session; it succeeds exactly when the last one was accepted. *)
Lemma toggle_written sessions ask : let '(used, r) := ClassroomClient_ToggleCheckin sessions ask in
  (length used ≤ 2)%nat ∧
  (∀ c c', used = [c; c'] → session_refused (ask 0%nat c)) ∧
  (r = Ok tt → ∃ n cookie, last used = Some cookie ∧ (S n = length used) ∧
     ∃ resp, re_Response (ask n cookie) = Ok resp ∧ hr_StatusCode resp = 200).
Proof.
  assert (Hone : ∀ c, doToggleCheckin (ask 0%nat c) = Ok tt → ∃ n cookie, last [c] = Some cookie ∧ S n = length [c] ∧
     ∃ resp, re_Response (ask n cookie) = Ok resp ∧ hr_StatusCode resp = 200).
  { intros c Ec. exists 0%nat, c. split_and!; [done|done|]. by apply toggle_ok. }
  assert (Htwo : ∀ c c', doToggleCheckin (ask 1%nat c') = Ok tt → ∃ n cookie, last [c; c'] = Some cookie ∧ S n = length [c; c'] ∧
     ∃ resp, re_Response (ask n cookie) = Ok resp ∧ hr_StatusCode resp = 200).
  { intros c c' Ec. exists 1%nat, c'. split_and!; [done|done|]. by apply toggle_ok. }
  destruct sessions as [p|a]; cbn; unfold toggleCheckinWithPool, toggle_with_auth.
  - destruct (pa_Acquire p) as [c|[e ctx]]; [|by split_and!; [cbn; lia| |]].
    destruct (doToggleCheckin (ask 0%nat c)) as [[]|e] eqn:E; [split_and!; [cbn; lia|done|intros _; by apply Hone]|].
    destruct (err_AuthExpired e) eqn:Ea; cbn [negb]; [|by split_and!; [cbn; lia| |]].
    destruct (pa_Refresh p) as [c'|[e' ctx]]; [|by split_and!; [cbn; lia| |]].
    split_and!; [cbn; lia| |apply Htwo]. intros ? ? [= <- <-]. by eapply toggle_auth_expired.
  - destruct (au_Get a 0) as [c|[e ctx]]; [|by split_and!; [cbn; lia| |]].
    destruct (doToggleCheckin (ask 0%nat c)) as [[]|e] eqn:E; [split_and!; [cbn; lia|done|intros _; by apply Hone]|].
    destruct (err_AuthExpired e) eqn:Ea; cbn [negb]; [|by split_and!; [cbn; lia| |]].
    destruct (au_Refresh a 0) as [x|[x ctx]]; [|by split_and!; [cbn; lia| |]].
    destruct (au_Get a 1) as [c'|[e' ctx]]; [|by split_and!; [cbn; lia| |]].
    split_and!; [cbn; lia| |apply Htwo]. intros ? ? [= <- <-]. by eapply toggle_auth_expired.
Qed.

(** * Agreement with the snapshot source *)

Section live.
Context `{GoLib, SourceLib}.
Context (Sprint : JAny json_float → string) (Sscan_int : string → Z).

(** An answer the snapshot source takes is one the client takes, with the same table. *)
Lemma request_agrees {R} limit (json : string → DataTable R * option string) (decode : string → option string → result string (DataTable R))
    what env m n t :
  (∀ r, re_Response env = Ok r → Z.of_nat (String.length (hr_Body r)) < maxBodySize) →
  (∀ body t, json body = (t, None) → decode body None = Ok t) →
  (∀ r, re_Response env = Ok r → Contains "text/html" (bytes_of (hr_Header r "Content-Type")) = false) →
  request limit json env = (m, n, t, None) → live_request decode what env = Ok t.
Proof.
  intros Hlim Hdec Hty. unfold request, requestJSON, live_request. destruct (re_Response env) as [r|msg]; [|done].
  specialize (Hty r eq_refl). specialize (Hlim r eq_refl). unfold checkAuth. rewrite Hty.
  destruct (hr_StatusCode r =? 304); [done|].
  destruct ((hr_StatusCode r =? 302) || (hr_StatusCode r =? 301)) eqn:E1; cbn [orb]; [done|].
  destruct ((hr_StatusCode r =? 401) || (hr_StatusCode r =? 403)) eqn:E2; [done|].
  destruct ((_ <? 200) || (300 <=? _)) eqn:E3; [done|]. apply orb_false_iff in E3 as [_ E3%Z.leb_gt].
  rewrite (proj2 (Z.eqb_neq (hr_StatusCode r) 429)) by lia.
  destruct (mime_ParseMediaType _) as [ty|]; [|done]. destruct (negb (json_type ty)); [done|].
  destruct (read_limited limit r) as [payload readErr] eqn:Er. destruct readErr; [done|].
  destruct (limit <? Z.of_nat (String.length payload)) eqn:El; [done|]. apply Z.ltb_ge in El.
  assert (Eb : limited_body r = (payload, None)).
  { unfold limited_body, read_limited in *. destruct (limit + 1 <=? Z.of_nat (String.length (hr_Body r))) eqn:Ec.
    - apply Z.leb_le in Ec. injection Er as <-. exfalso.
      assert (Hl : ∀ n s, (n ≤ String.length s)%nat → String.length (String.substring 0 n s) = n).
      { clear. induction n as [|n IH]; intros [|c s] Hn; cbn in *; [done|done|lia|]. f_equal. apply IH. lia. }
      rewrite Hl in El by lia. lia.
    - apply Z.leb_gt in Ec. injection Er as <- ->. rewrite (proj2 (Z.leb_gt _ _)) by (unfold maxBodySize in *; lia). done. }
  rewrite Eb. cbn [fst snd]. destruct (ValidateBody _ _ _) as [?|[]]; [|done..].
  destruct (json payload) as [d [e|]] eqn:Ej; [done|]. intros [= <- <- <-]. by rewrite (Hdec _ _ Ej).
Qed.

(** The other way around it does not: the client looks at the answer of a failing server, which
    the snapshot source refuses. *)
Lemma error_status_is_data {R} limit (json : string → DataTable R * option string)
    (decode : string → option string → result string (DataTable R)) what env r t :
  re_Response env = Ok r → hr_StatusCode r = 500 → Contains "text/html" (bytes_of (hr_Header r "Content-Type")) = false →
  decode (limited_body r).1 (limited_body r).2 = Ok t →
  live_request decode what env = Ok t ∧ ∃ m n x e, request limit json env = (m, n, x, Some e).
Proof.
  intros Er Ec Hty Hd. unfold live_request, checkAuth. rewrite Er, Ec, Hty. cbn. rewrite Hd. split; [done|].
  unfold request, requestJSON. rewrite Er, Ec. cbn. by do 4 eexists.
Qed.

Definition trim_student (s : StudentCheckin) : StudentCheckin :=
  {| sc_StudentID := TrimSpace (sc_StudentID s); sc_Name := sc_Name s; sc_Nickname := sc_Nickname s; sc_School := sc_School s;
     sc_AvatarURL := sc_AvatarURL s; sc_CheckedIn := sc_CheckedIn s; sc_CheckedInAt := sc_CheckedInAt s;
     sc_ParticipationPoints := sc_ParticipationPoints s |}.

(** The identifiers of the rows are those the loop checks. *)
Lemma collect_students rows : ∀ seen index l,
  collect (λ row, Ok (TrimSpace (sci_StudentID row))) session_student "ClassAttendanceStudentCheckInSearch" "student" seen index rows = Ok l →
  l = map (λ row, trim_student (live_student row)) rows.
Proof.
  induction rows as [|row rows IH]; intros seen index l; cbn [collect]; [by intros [= <-]|]. cbn [result_bind].
  destruct (recordUniqueIdentifier _ _ _ _) as [seen'|]; [|done]. cbn [result_bind].
  destruct (collect _ _ _ _ seen' (S index) rows) as [rest|] eqn:E; [|done]. intros [= <-]. cbn. f_equal. by eapply IH.
Qed.

(** A session the snapshot source takes is the same to the interactive client, but for the space
    around the identifiers. *)
Lemma session_agrees limit decode target sessionID env r :
  (∀ resp, re_Response (fe_Request env) = Ok resp → Z.of_nat (String.length (hr_Body resp)) < maxBodySize) →
  (∀ body t, json_StudentCheckInSearch body = (t, None) → decode body None = Ok t) →
  (∀ resp, re_Response (fe_Request env) = Ok resp → Contains "text/html" (bytes_of (hr_Header resp "Content-Type")) = false) →
  fetchSession limit target env = (r, None) →
  ∃ d, fetchSessionDetail decode sessionID (fe_Request env) = Ok d ∧
    fr_Value r = session_value target (map trim_student (sd_Students d)) ∧
    ss_CheckedInCount (sd_Summary d) = checked_in (sd_Students d) ∧ ss_TotalStudents (sd_Summary d) = Z.of_nat (length (sd_Students d)).
Proof.
  intros Hlim Hdec Hty. unfold fetchSession, fetch_table. destruct (request limit _ _) as [[[m n] t] [e|]] eqn:Er; [done|].
  destruct (validateCompleteDataTable _ _ _ _); [done|]. destruct (collect _ _ _ _ _ _ _) as [l|] eqn:Ec; [|done]. intros [= <-].
  exists (live_session_detail sessionID (map live_student (dt_Data t))). unfold fetchSessionDetail.
  rewrite (request_agrees limit _ decode _ _ _ _ _ Hlim Hdec Hty Er). cbn [result_bind]. split; [done|]. cbn.
  apply collect_students in Ec as ->. by rewrite map_map.
Qed.

(** * Profiles *)

(** A further page that fails ends the listing, and what was read so far is a success: the
    client takes part of the profiles for all of them. *)
Lemma profiles_cut_short decode page first total : let total' := total in
  live_request decode "UserGroupSearch" (page 0%nat) = Ok first → dt_RecordsTotal first = total → dt_Data first ≠ [] →
  0 ≤ total ≤ maxProfileRecords → live_page decode (page 1%nat) = None →
  fetchStudentProfiles decode page = Ok (map live_profile (dt_Data first)).
Proof.
  intros total' Hf Ht Hne Hr Hp. unfold fetchStudentProfiles. rewrite Hf. cbn [result_bind]. rewrite Ht.
  rewrite (proj2 (Z.ltb_ge total 0)), (proj2 (Z.ltb_ge maxProfileRecords total)) by lia. cbn [orb].
  rewrite bool_decide_eq_false_2 by done. do 2 f_equal.
  destruct (Z.to_nat (expected_pages total) - 1)%nat; cbn [live_pages]; [by rewrite app_nil_r|]. by rewrite Hp, app_nil_r.
Qed.

(** When no page fails or comes empty, every row of every page is there, in order. *)
Lemma live_pages_complete decode pages : ∀ n k rows,
  (∀ i, (i < n)%nat → ∃ l, live_page decode (pages (k + i)%nat) = Some l ∧ l ≠ [] ∧ rows i = l) →
  live_pages decode pages k n = concat (map rows (seq 0 n)).
Proof.
  induction n as [|n IH]; intros k rows Hp; [done|]. cbn [live_pages seq map concat].
  destruct (Hp 0%nat ltac:(lia)) as (l & El & Hne & Hl). rewrite Nat.add_0_r in El. rewrite El. destruct l as [|x l]; [done|].
  rewrite Hl. f_equal. rewrite (IH (S k) (λ i, rows (S i))).
  - by rewrite <- seq_shift, map_map.
  - intros i Hi. destruct (Hp (S i) ltac:(lia)) as (l' & El' & Hne' & Hl'). exists l'. split; [|done]. rewrite <- El'. do 2 f_equal. lia.
Qed.

(** * Enrichment *)

(** The jobs write their own courses: the result does not depend on their order. *)
Lemma live_enrich_lookup details order : NoDup order → ∀ courses i,
  live_enrichCourses details order courses !! i =
    (if decide (i ∈ order) then live_enrich_course (details i) else id) <$> courses !! i.
Proof.
  intros Hnd. induction order as [|j order IH] using rev_ind; intros courses i.
  { cbn. by destruct (courses !! i). }
  apply NoDup_app in Hnd as (Hnd & Hdis & _). unfold live_enrichCourses in *. rewrite foldl_app. cbn [foldl].
  destruct (decide (i = j)) as [->|Hne].
  - rewrite list_lookup_alter_eq, (IH Hnd). rewrite decide_False by (intros Hin; apply (Hdis j Hin); by apply list_elem_of_singleton).
    rewrite decide_True by (apply elem_of_app; right; by apply list_elem_of_singleton). by destruct (courses !! j).
  - rewrite list_lookup_alter_ne by done. rewrite (IH Hnd). destruct (decide (i ∈ order)) as [Hin|Hin].
    + by rewrite decide_True by (apply elem_of_app; by left).
    + rewrite decide_False; [done|]. intros [?|?%list_elem_of_singleton]%elem_of_app; done.
Qed.

Lemma enrich_order_independent details order order' courses : NoDup order → order ≡ₚ order' →
  live_enrichCourses details order courses = live_enrichCourses details order' courses.
Proof.
  intros Hnd Hp. apply list_eq. intros i. rewrite !live_enrich_lookup; [|by rewrite <- Hp|done].
  destruct (decide (i ∈ order)) as [Hi|Hi]; [rewrite decide_True by (by rewrite <- Hp)|rewrite decide_False by (by rewrite <- Hp)]; done.
Qed.
End live.

(** * The user identifier *)

(** Once a detection has run to its end the identifier never changes by itself; one that was
    cancelled decides nothing; what is configured wins. *)
Lemma resolveUserID_spec detected configured cancelled s : let '(s', id) := resolveUserID detected configured cancelled s in
  id = effectiveUserID s' ∧ id ≠ "" ∧
  (cancelled = false → ∀ d c x, resolveUserID d c x s' = (s', id)) ∧
  (cancelled = true → ui_userID s = "" → ui_resolved s' = ui_resolved s) ∧
  (ui_userID s ≠ "" → s' = s ∧ id = ui_userID s).
Proof.
  assert (Hne : ∀ s, effectiveUserID s ≠ "") by (intros [id r]; unfold effectiveUserID; cbn; by case_bool_decide).
  unfold resolveUserID at 1. destruct (bool_decide (ui_userID s ≠ "") || ui_resolved s) eqn:Es.
  - split_and!; [done|apply Hne| |done|].
    + intros _ d c x. unfold resolveUserID. by rewrite Es.
    + intros Hs. split; [done|]. unfold effectiveUserID. by rewrite bool_decide_eq_false_2.
  - apply orb_false_iff in Es as [Es Er]. apply bool_decide_eq_false in Es. destruct cancelled.
    + split_and!; [done|apply Hne|done|done|done].
    + split_and!; [done|apply Hne| |done|done]. intros _ d c x. unfold resolveUserID. cbn [ui_userID ui_resolved]. by rewrite orb_true_r.
Qed.

(** * The label *)

(** A label that is taken is the only one on the page; it is not empty and of bounded length. *)
Lemma label_parsed doc label : parseAttendanceLabelHTML doc = Ok label →
  ∃ tree, doc = Ok tree ∧ html_labels tree = [label] ∧ label ≠ "" ∧ (RuneCountInString label ≤ maxLabelRunes)%nat.
Proof.
  unfold parseAttendanceLabelHTML. destruct doc as [tree|]; [|done]. destruct (html_labels tree) as [|l [|]] eqn:E; [done| |done].
  destruct (Nat.ltb_spec maxLabelRunes (RuneCountInString l)); [done|]. intros [= <-]. exists tree. split_and!; [done..| |done].
  assert (Hall : ∀ n, Forall (λ l, l ≠ "") (html_labels n)).
  { fix IH 1. intros [attrs children|data|children]; cbn [html_labels].
    - assert (Hc : Forall (λ l, l ≠ "") (flat_map html_labels children)).
      { induction children as [|c children IHc]; cbn; [by constructor|]. apply Forall_app_2; [apply IH|exact IHc]. }
      destruct (hasHTMLClass attrs "head-sub"); [|exact Hc]. case_bool_decide; [exact Hc|by constructor].
    - by constructor.
    - induction children as [|c children IHc]; cbn; [by constructor|]. apply Forall_app_2; [apply IH|exact IHc]. }
  specialize (Hall tree). rewrite E in Hall. by apply Forall_cons in Hall as [? _].
Qed.

(** The page is asked for twice at most, again only after the first answer refused the session. *)
Lemma label_attempts_spec mime parse refresh failed cookie ask :
  let '(used, r) := label_attempts mime parse refresh failed cookie ask in
  (length used ≤ 2)%nat ∧
  (∀ c c', used = [c; c'] → ∃ e, fetchAttendanceLabelWithCookie mime parse (ask 0%nat c) = Err e ∧ is_qr_auth_expired e = true) ∧
  (∀ label, r = Ok label → ∃ n c, last used = Some c ∧ fetchAttendanceLabelWithCookie mime parse (ask n c) = Ok label).
Proof.
  unfold label_attempts. destruct (fetchAttendanceLabelWithCookie mime parse (ask 0%nat cookie)) as [l|e] eqn:E.
  - split_and!; [cbn; lia|done|]. intros ? [= <-]. by exists 0%nat, cookie.
  - destruct (is_qr_auth_expired e) eqn:Ea; [|by split_and!; [cbn; lia| |]].
    destruct refresh as [c'|[e' ctx]]; [|by split_and!; [cbn; lia| |]]. split_and!; [cbn; lia| |].
    + intros ? ? [= <- <-]. by exists e.
    + intros l El. by exists 1%nat, c'.
Qed.

(** The text of the label on a page like the site's. *)
Definition label_page : HtmlNode :=
  HtmlOther [HtmlElement [("id", "top")] [HtmlText "Menu"];
             HtmlElement [("class", "col  head-sub")] [HtmlText "  Phonics "; HtmlElement [] [HtmlText " Term  2 "]; HtmlText " "];
             HtmlElement [("class", "head-subtitle")] [HtmlText "other"]].

Example label_text : parseAttendanceLabelHTML (Ok label_page) = Ok "Phonics Term 2".
Proof. vm_compute. reflexivity. Qed.
