(* ===== verification/Runtime.v ===== *)
(** The process around the components ([internal/app/runtime.go], [internal/db/db.go],
    [cmd/server/main.go]): the background workers, from their start to the channel that says they
    are over; the pool's configuration and the check of the schema; and the order of a shutdown.

    The migration library and the database are parameters: what they answer is an input. *)

From stdpp Require Import base list numbers strings relations.
From Stdlib Require Import ZArith Lia.
From S2P Require Import Prelude.

Local Open Scope Z_scope.
Local Open Scope stdpp_scope.
Local Open Scope go_scope.

(** * Background workers *)

(** A worker that was not nil; the controller's goroutine does not recover from a panic. *)
Inductive WorkerKind := PersistentWorker (i : nat) | AlwaysOnWorker (i : nat) | ControllerWorker.

(** [None] is a nil worker. *)
Record BackgroundRuntime := {
  br_Controller : bool;
  br_Persistent : list bool;
  br_AlwaysOn : list bool
}.

Definition present (kind : nat → WorkerKind) (items : list bool) : list WorkerKind :=
  omap (λ x, x) (imap (λ i (here : bool), if here then Some (kind i) else None) items).

Definition started_workers (serverless : bool) (r : BackgroundRuntime) : list WorkerKind :=
  present PersistentWorker (br_Persistent r) ++
  (if serverless then (if br_Controller r then [ControllerWorker] else []) else present AlwaysOnWorker (br_AlwaysOn r)).

Inductive WorkerState := WorkerRunning | WorkerReturned | WorkerPanicked.

(** The workers, whether the channel is closed, and whether the process is still there. *)
Record RuntimeState := {
  rt_Workers : list (WorkerKind * WorkerState);
  rt_Done : bool;
  rt_Alive : bool
}.

Definition StartBackgroundRuntime (serverless : bool) (r : BackgroundRuntime) : RuntimeState :=
  {| rt_Workers := map (λ k, (k, WorkerRunning)) (started_workers serverless r); rt_Done := false; rt_Alive := true |}.

Definition recovers (k : WorkerKind) : bool := match k with ControllerWorker => false | _ => true end.

Definition worker_over (w : WorkerKind * WorkerState) : bool := match w.2 with WorkerRunning => false | _ => true end.

(** The end of a worker, and the goroutine that waits for all of them. *)
Inductive RuntimeOp := EndWorker (i : nat) (panics : bool) | CloseDone.

Definition runtime_op (op : RuntimeOp) (s : RuntimeState) : option RuntimeState :=
  if negb (rt_Alive s) then None
  else
    match op with
    | EndWorker i panics =>
        match rt_Workers s !! i with
        | Some (k, WorkerRunning) =>
            Some {| rt_Workers := <[i := (k, if panics : bool then WorkerPanicked else WorkerReturned)]> (rt_Workers s);
                    rt_Done := rt_Done s; rt_Alive := negb panics || recovers k |}
        | _ => None
        end
    | CloseDone =>
        if rt_Done s || negb (forallb worker_over (rt_Workers s)) then None
        else Some {| rt_Workers := rt_Workers s; rt_Done := true; rt_Alive := true |}
    end.

Definition runtime_step (s s' : RuntimeState) : Prop := ∃ op, runtime_op op s = Some s'.

(** * The database *)

Record PoolConfig := {
  pc_MaxConns : Z;
  pc_MinConns : Z;
  pc_MaxConnIdleTime : Z;
  pc_MaxConnLifetime : Z;
  pc_SimpleProtocol : bool
}.

(** [parsed] is whether the library parses the address. *)
Definition ParsePoolConfig (parsed serverless : bool) : result string PoolConfig :=
  if negb parsed then Err "cannot parse"
  else Ok {| pc_MaxConns := 25; pc_MinConns := if serverless then 0 else 5;
             pc_MaxConnIdleTime := if serverless then 2 * Minute else 5 * Minute; pc_MaxConnLifetime := 30 * Minute;
             pc_SimpleProtocol := true |}.

Definition requiredSchemaVersion : Z := 11.

Inductive MigrateUp := UpApplied | UpNoChange | UpDirty (e : string) | UpFailed (e : string).

(** [opened] is the error before the migrations; [version] the row of schema_migrations. *)
Definition RunMigrations (opened : option string) (up : MigrateUp) (version : result string Z) : result string unit :=
  match opened with
  | Some e => Err e
  | None =>
      match up with
      | UpDirty e => Err ("migration dirty: " +:+ e)
      | UpFailed e => Err e
      | _ =>
          match version with
          | Err e => Err ("check schema version: " +:+ e)
          | Ok v => if v <? requiredSchemaVersion then Err "schema version below required minimum" else Ok tt
          end
      end
  end.

(** * Shutdown *)

Definition shutdownTimeout : Z := 10 * Second.
Definition backgroundTimeout : Z := 12 * Second.

(** The time at which the server has stopped, after a signal at [t]: [requests] is when the last
    request ends, [background] when the background channel closes (if it does). *)
Definition shutdown (t requests : Z) (background : option Z) : Z :=
  let served := Z.max t (Z.min requests (t + shutdownTimeout)) in
  match background with
  | Some b => Z.max served (Z.min b (served + backgroundTimeout))
  | None => served + backgroundTimeout
  end.

(** * Theorems *)

Lemma worker_over_insert ws i w : forallb worker_over ws = true → worker_over w = true → forallb worker_over (<[i := w]> ws) = true.
Proof.
  rewrite !forallb_forall. intros Hall Hw x Hx. apply list_elem_of_In, list_elem_of_lookup in Hx as [j Hj].
  apply list_lookup_insert_Some in Hj as [(-> & <- & _)|[_ Hj]]; [done|]. apply Hall, list_elem_of_In. by eapply list_elem_of_lookup_2.
Qed.

(** The workers stay the same in every state; the channel is closed only when all are over, and
    then for good; the process is lost only to a panic of the controller. *)
Lemma runtime_invariant serverless r s : rtc runtime_step (StartBackgroundRuntime serverless r) s →
  map fst (rt_Workers s) = started_workers serverless r ∧
  (rt_Done s = true → forallb worker_over (rt_Workers s) = true) ∧
  (rt_Alive s = false → (ControllerWorker, WorkerPanicked) ∈ rt_Workers s ∧ serverless = true).
Proof.
  intros Hr. assert (H0 : map fst (rt_Workers (StartBackgroundRuntime serverless r)) = started_workers serverless r)
    by (cbn; by rewrite map_map, map_id).
  apply (rtc_ind_r (λ s, map fst (rt_Workers s) = started_workers serverless r ∧
    (rt_Done s = true → forallb worker_over (rt_Workers s) = true) ∧
    (rt_Alive s = false → (ControllerWorker, WorkerPanicked) ∈ rt_Workers s ∧ serverless = true)) (StartBackgroundRuntime serverless r)) with (3 := Hr); [by split_and!|].
  clear s Hr. intros s s' _ [op Hop] (Hw & Hd & Ha). unfold runtime_op in Hop. destruct (rt_Alive s) eqn:Eal; [|done]. cbn in Hop.
  destruct op as [i panics|].
  - destruct (rt_Workers s !! i) as [[k []]|] eqn:Ei; [|done..]. injection Hop as <-. cbn. split_and!.
    + rewrite <- Hw. change (map fst) with (fmap (M := list) (@fst WorkerKind WorkerState)). rewrite list_fmap_insert. cbn.
      apply list_insert_id. by rewrite list_lookup_fmap, Ei.
    + intros Hdone. apply worker_over_insert; [by apply Hd|by destruct panics].
    + intros Hal. destruct panics; [|done]. destruct k; try done. split.
      * eapply list_elem_of_lookup_2, list_lookup_insert_eq. by eapply lookup_lt_Some.
      * assert (Hin : ControllerWorker ∈ started_workers serverless r).
        { rewrite <- Hw. apply list_elem_of_fmap. exists (ControllerWorker, WorkerRunning). split; [done|by eapply list_elem_of_lookup_2]. }
        destruct serverless; [done|]. exfalso. unfold started_workers, present in Hin.
        apply elem_of_app in Hin as [Hin|Hin]; apply list_elem_of_omap in Hin as (x & Hx & ->);
          apply list_elem_of_lookup in Hx as [j Hj]; rewrite list_lookup_imap in Hj;
          match type of Hj with context [?l !! j] => by destruct (l !! j) as [[]|] end.
  - destruct (rt_Done s || _) eqn:E; [done|]. injection Hop as <-. apply orb_false_iff in E as [_ E]. cbn. split_and!; [done| |done].
    intros _. by apply negb_false_iff.
Qed.

(** A panic of a worker is its own: while the process lives, the others can still end and the
    channel is closed once they have. *)
Lemma runtime_finishes s : rt_Alive s = true → rt_Done s = false → forallb worker_over (rt_Workers s) = true →
  ∃ s', runtime_op CloseDone s = Some s' ∧ rt_Done s' = true.
Proof. intros Ha Hd Ho. unfold runtime_op. rewrite Ha, Hd, Ho. cbn. by eexists. Qed.

(** A shutdown ends, within the two limits, and not before the requests and the workers unless
    they take longer. *)
Lemma shutdown_bounded t requests background :
  t ≤ shutdown t requests background ≤ t + shutdownTimeout + backgroundTimeout ∧
  (requests ≤ t + shutdownTimeout → requests ≤ shutdown t requests background) ∧
  (∀ b, background = Some b → b ≤ t + backgroundTimeout → b ≤ shutdown t requests background).
Proof.
  unfold shutdown, shutdownTimeout, backgroundTimeout, Second. split; [destruct background; lia|]. split; [destruct background; lia|].
  intros b -> Hb. lia.
Qed.

(** After the migrations the schema has at least the required version. *)
Lemma migrations_checked opened up version : RunMigrations opened up version = Ok tt →
  ∃ v, version = Ok v ∧ requiredSchemaVersion ≤ v ∧ (up = UpApplied ∨ up = UpNoChange).
Proof.
  unfold RunMigrations. destruct opened; [done|]. destruct up; try done; (destruct version as [v|]; [|done]);
    destruct (Z.ltb_spec v requiredSchemaVersion); try done; intros _; exists v; naive_solver.
Qed.
